(* ===== verification/_CoqProject ===== *)
-Q . S2P
Prelude.v
Bytes.v
NetTypes.v
BytesMut.v
Buffer.v
BufferProps.v
MultiBuffer.v
MultiBufferProps.v
AddrCodec.v
MuxFrame.v
MuxFrameProps.v
KcpSegment.v
KcpSegmentProps.v
KcpBase.v
KcpSending.v
KcpReceiving.v
KcpConnection.v
KcpSendingProps.v
KcpReceivingProps.v
KcpConnectionProps.v
KcpSystem.v
Pool.v
Xudp.v
XudpProps.v
BufIO.v
BufIOProps.v
MuxChannel.v
MuxChannelProps.v
SessionTable.v
SessionTableProps.v
Replay.v
UploadQueue.v
UploadQueueProps.v
StrMatch.v
DomainMatch.v
DomainMatchProps.v
Mph.v
MphProps.v
DomainRules.v
DomainRulesProps.v
IpMatch.v
IpMatchProps.v
Balancing.v
BalancingProps.v
RouterCond.v
Router.v
RouterProps.v
AsyncIo.v
Fallback.v
TrojanProto.v
TrojanServer.v
TrojanClient.v
TrojanProps.v
TrojanServerProps.v
TrojanClientProps.v
Vision.v
VisionConn.v
VisionProps.v
VisionConnProps.v
Uuid.v
VlessProto.v
VlessServer.v
VlessClient.v
VlessProps.v
VlessServerProps.v
VlessClientProps.v
Witnesses.v
RoutingWitnesses.v
TrojanWitnesses.v
VlessWitnesses.v
Cache.v
DnsCommon.v
FakeDns.v
DnsCache.v
DnsCacheProps.v
DnsServer.v
DnsServerProps.v
DnsWitnesses.v
