(* ===== verification/Prelude.v ===== *)
(** * A verification library for the core of xray-core-rust

    The repository is a proxy: inbound and outbound protocol handlers exchange byte
    streams and packets through a dispatcher, over interchangeable transports.  This
    library models the parts that carry the program's own logic below the async
    runtime: the buffers that every component moves data in, the codecs of the
    multiplexing layers and of the address formats, the channels of sessions and packets
    over one stream (mux, XUDP), the reliable transport over UDP (mKCP), the queues and
    filters that put packets in order or reject repeats, the routing layer, from the
    matchers of names and addresses to the router that picks an outbound, two proxy
    protocols as a whole, trojan and VLESS with XTLS Vision, and the resolution of names
    with its cache and its fake addresses.  All paths below are under
    [src/crates/].

    ** The layers and their files

    - [Prelude], [Bytes]: lists indexed by [Z], wrap-around of machine integers, the
      [result] type and its binds, big-endian codecs, UTF-8 validity.
    - [NetTypes]: [xray-common/src/net/{address,port,destination,network}.rs],
      [bitmask/mod.rs], [serial/mod.rs].
    - [BytesMut]: the interface of the third-party crate [bytes]: a class of operations
      ([BytesMutOps]), the documented behaviour used ([BytesMutLaws]), a concrete
      instance ([LBytes]) that shows the laws can hold and computes in the witnesses.
      [BufAlloc] is the promise of the block allocator to the buffer.
    - [Buffer], [BufferProps]: [xray-buf/src/buffer.rs].
    - [MultiBuffer], [MultiBufferProps]: [xray-buf/src/multi.rs].
    - [Pool]: [xray-buf/src/alloc.rs], the thread caches and shards behind [BufAlloc].
    - [AddrCodec]: [xray-common/src/protocol/address_parser.rs].
    - [MuxFrame], [MuxFrameProps]: [xray-mux/src/frame.rs].
    - [KcpSegment], [KcpSegmentProps]: [xray-transport-kcp/src/segment.rs].
    - [KcpBase]: [config.rs], [round_trip.rs], [state.rs], [output.rs].
    - [KcpSending], [KcpSendingProps]: [sending.rs]; [KcpReceiving],
      [KcpReceivingProps]: [receiving.rs]; [KcpConnection], [KcpConnectionProps]:
      [connection.rs].
    - [KcpSystem]: a sender, a receiver and a network that loses, duplicates and
      reorders datagrams, as one step relation over the definitions above.
    - [Xudp], [XudpProps]: [xray-xudp/src/packet.rs] and the global id of [lib.rs].
    - [BufIO], [BufIOProps]: [xray-buf/src/{io,reader,writer}.rs]: the traits [Reader]
      and [Writer] as classes with the laws of a lossless stream, and the two buffered
      adapters.
    - [MuxChannel], [MuxChannelProps]: [xray-mux/src/writer.rs], the frame reader of
      [client.rs], the transfer types of [session.rs]: sessions over one carrier.
    - [SessionTable], [SessionTableProps]: the sessions, [SessionManager] and
      [XUDPManager] of [xray-mux/src/session.rs].
    - [Replay]: the replay filters of [xray-common/src/antireplay/mod.rs] and
      [xray-proxy-ss/src/ss2022/replay.rs].
    - [UploadQueue], [UploadQueueProps]: [xray-transport-splithttp/src/upload_queue.rs],
      uploads put back in order.
    - [StrMatch]: substring search and lower case, what the matchers take from the
      standard library; [DomainMatch], [DomainMatchProps]: the matchers of names in
      [xray-geodata/src/matcher/] (single matchers, tries and sets, the three linear
      matchers); [Mph], [MphProps]: the groups and the minimal perfect hash table of
      [matcher_groups.rs]; [DomainRules], [DomainRulesProps]: rules, factories, dynamic
      matchers and the registry of [domain.rs] with [weak_cache.rs].
    - [IpMatch], [IpMatchProps]: [xray-geodata/src/matcher/ip.rs].
    - [Balancing], [BalancingProps]: [xray-app-router/src/balancing.rs], the strategies
      and the weights; [RouterCond]: [condition.rs], [context.rs] and the conditions of
      [rule.rs]; [Router], [RouterProps]: [router.rs], [config.rs] and the rules of
      [rule.rs].  The router calls [RouterCond] for its rules and [Balancing] for its
      tags; the conditions call [DomainRules] and [IpMatch].
    - [AsyncIo]: what the async components take from tokio: streams as the events their
      reads find, [read_exact] with a record, steps of a handshake with the rules
      ([takes], [yields]) their theorems use, writers as the answers of their polls, and a
      caller that reads to the end ([drains]).
    - [TrojanProto], [TrojanProps]: the headers and datagrams of
      [xray-proxy-trojan/src/protocol.rs], the accounts of [config.rs]; [TrojanServer],
      [TrojanServerProps]: [validator.rs] and [server.rs], from the recorded handshake to
      what a connection becomes and the datagram relay (whose theorem is in
      [TrojanProps]); [TrojanClient], [TrojanClientProps]: the request header and the
      framed connection of [dispatcher.rs].
    - [Fallback]: [xray-transport/src/fallback.rs] and
      [xray-proxy-trojan/src/fallback.rs], where the server sends what is not trojan.
    - [Vision], [VisionProps]: [xray-proxy-vless/src/encryption/vision.rs], the padding of
      XTLS Vision, its inverse, the TLS filter and the scans for complete records;
      [VisionConn], [VisionConnProps]: the connection of [vision_conn.rs] over them.
    - [Uuid]: the user ids of [xray-common/src/uuid/mod.rs].
    - [VlessProto], [VlessProps]: [account.rs], [validator.rs], [encoding/],
      [inbound/reverse.rs] and [inbound/handler.rs] of [xray-proxy-vless/src/];
      [VlessServer]: [inbound/server.rs], what becomes of a connection; [VlessClient],
      [VlessClientProps]: [dispatcher.rs], what a dial writes and the framed datagrams;
      [VlessServerProps]: the inbound's decisions, and a dial served by it.
    - [Cache]: caches that forget the entry used least recently, as an interface
      ([LruOps], [LruLaws]) with [xray-common/src/cache/mod.rs] as an instance.
    - [DnsCommon]: errors, options and records of [xray-app-dns/src/]
      ([error.rs], [config.rs], [dnscommon.rs]) and the client's side of them in
      [xray-features/src/dns.rs]; [FakeDns]: [fakedns/mod.rs] over the
      interface of [Cache], [nameserver/fakedns.rs]; [DnsCache], [DnsCacheProps]:
      [cache_controller.rs] and [nameserver/cached.rs]; [DnsServer], [DnsServerProps]:
      [hosts.rs] over [DomainRules], the client of [nameserver/mod.rs] over [IpMatch],
      and [server.rs], which asks the clients.
    - [Witnesses], [RoutingWitnesses], [TrojanWitnesses], [VlessWitnesses],
      [DnsWitnesses]: the theorems applied at concrete inputs.

    A file named [XProps] proves what the definitions of [X] do; the smaller components
    hold definitions and theorems in one file.

    ** How the code is rendered

    A method is one [Definition] with its receiver as last argument, returning the new
    receiver.  A panic (a failed assertion, a slice out of range) is [None]; a [Result]
    is [result].  Integers are [Z]; where the code works at a fixed width the
    wrap-around is written out ([+32], [-32], [to_u32], [to_u16]), as in a release
    build, and the theorems say when it does not happen.  A mutex-guarded structure is
    its contents: every method locks once, so a call is atomic; an awaited call
    runs to its end.  A [dyn] reader, writer, [Read] or [Write] object is its state with
    its operations, a class or an argument.  Time is an argument:
    [now] or [current] is what the clock reads during the call.  What a connection does
    to the outside (segments written, notifications, updater calls, closing the socket)
    is its trace.

    ** What the theorems say

    - Buffers: [Buffer] refines a byte queue with bounded room for every sequence of
      calls, panics included; a [MultiBuffer] is a byte stream that splits, merges,
      compacts and reads as such; the pool hands out cleared blocks that are large
      enough, never one block twice, and stays bounded.
    - Codecs: round trips, exact sizes, exact errors, and that what a parser accepts is
      well formed and within its input, for addresses, mux frames and KCP segments.
    - Streams: the buffered reader and writer lose, duplicate and reorder nothing, over
      any reader and writer with the class's laws; the vectored write ends and is
      complete.
    - Channels: sessions whose frames interleave on one carrier come out unmixed and in
      order (the writer's frames, the carrier's reads and the frame parser together); an
      XUDP stream gives back its packets with their targets.
    - KCP workers: a flush sends exactly what is due; an acknowledgement removes exactly
      what it names; the acknowledgement list is flushed and cleared exactly; the RTO
      and window arithmetic stays in range.
    - KCP connection: the state machine under any interleaving of calls; [flush]
      terminates; an idle connection ends.
    - KCP end to end: what is read is a prefix of what was pushed, whatever the network
      does, and nothing acknowledged is lost.
    - Tables, queues and filters: the mux session table and its counters under any
      interleaving; uploads are read in order, once each, and reading ends; a replay
      filter accepts a value again exactly when its window has passed.
    - Names and addresses: every optimised matcher (linear matchers, tries, the hash
      table, merged ranges with binary search, the memory of prefixes) answers as a scan
      of the rules one by one; what is shared through the caches answers the same.
    - Routing: the router's choice is that of the first rule message that speaks of the
      connection, its table is well typed under every operation, and a balancer picks
      only what its strategy allows; round robin is fair.
    - Trojan: client and server agree on the header, the server accepts nothing else, a
      rejected connection reaches its fallback from its first byte, the decision tree is
      a scan of its rules, the table of users is exact, the relay hands on exactly the
      client's datagrams, the client's framing does what is said of it, its two flaws
      included.
    - Vision: whatever blocks, filters and switches, what one end accepts is what the
      other reads, through the queue of frames, partial writes and both sockets; the scan
      for records is exact, over one buffer or many.
    - VLESS: the headers both ways and the datagrams keep what was written however the
      stream is cut, the table of users is exact, the inbound serves only known users and
      sends the rest to the fallback, and a dialed connection is served as its
      destination; where the code does not live up to that, the theorems say so.

    - DNS: cleaning the cache is not observable and what it answers is in time; clients are
      asked in the order the rules say, and asking them at once, whatever the order of the
      answers, agrees with asking them one by one; at most one query per key is in flight,
      and what becomes of the others; fake addresses lead back to their names, and the
      exact cases in which two names share one.

    ** Bounds and fuel

    [flush_inner] recurses at most once, so fuel 2 is enough ([kcp_flush_terminates]).
    The loops of [merge_bytes], [compact], [write] and [read_multi_buffer] run on fuel
    taken from the length of the data (the number of window entries for the last), and
    those of [MuxWriter::write], [read_exact] and [read_exact_buffer] on the bytes (or
    buffers) that are left; a theorem shows for each that the fuel suffices.  The
    vectored write and [read_packet] take their fuel as an argument, and their theorems
    name how much is enough.  A read of
    the upload queue takes two more turns than there are packets in the channel
    ([upload_read_complete]).  The search for seeds of the hash table takes its fuel as
    an argument, and so do the building of conditions, [add_rule], [reload_rules] and
    [Router_init], which are [None] only when it runs out; [mph_matches_compact] says
    when the search ends.  The relay of datagrams takes
    one turn more than there are bytes ([trojan_relay_exact]), the loops over padded
    blocks, records and pieces one more than there are bytes or slices of them, the lazy
    response header one more than it wants, a read of framed datagrams one more than the
    events and bytes of its stream, the search for a free fake address one more than there
    are entries.  The end-to-end theorems cover
    sequence numbers up to [2^32 - 1] pushes, the range of [next_number].

    ** Not modelled

    The async runtime: the updater tasks, the wait loops and deadlines of the KCP
    connection, sockets, listeners and dialers, the adapters of tokio's readers and
    writers.  Regular expressions, the standard hasher, Unicode lower case, the lookup of
    the process behind a socket, the DNS servers and the decoder of their answers, webhooks, the digests and the hex encoding
    of passwords and ids, the codec of the VLESS addons, the random lengths of padding and
    the text of IPv6 addresses are parameters; the ENC encryption of VLESS with its retry,
    the workers that preconnect and the reverse worker, and the matchers
    over the crate aho_corasick are left out; so are the task that cleans the DNS cache, the
    waiting times of queries and the system's hosts file.  The other applications (statistics,
    observatory), the transports of DNS, the other proxy protocols, the other transports and the cryptography are left
    to later work; the next parts in order are the headers of socks, the counters of the statistics, the pipe, the workers of the mux layer, the packet codecs
    of shadowsocks, the consistent hashing of the least-load strategy. *)
From stdpp Require Import base tactics option list list_numbers numbers gmap.
From Stdlib Require Import ZArith Lia.

#[global] Open Scope Z_scope.

(** * Scope, automation *)

Declare Scope xray_scope.
Delimit Scope xray_scope with xray.
#[global] Open Scope xray_scope.

Create HintDb xray.
Create Rewrite HintDb zlen.

(** Case analysis on the boolean tests of the code, goal first. *)
Ltac zcase_goal :=
  match goal with
  | |- context [?a <? ?b] => destruct (Z.ltb_spec a b)
  | |- context [?a <=? ?b] => destruct (Z.leb_spec a b)
  | |- context [?a =? ?b] => destruct (Z.eqb_spec a b)
  end.

Ltac zcase_hyp :=
  match goal with
  | H : context [?a <? ?b] |- _ => destruct (Z.ltb_spec a b)
  | H : context [?a <=? ?b] |- _ => destruct (Z.leb_spec a b)
  | H : context [?a =? ?b] |- _ => destruct (Z.eqb_spec a b)
  end.

Ltac zcases := repeat (zcase_goal; cbn [andb orb negb] in *; try lia).
Ltac zcases_in := repeat (zcase_hyp; cbn [andb orb negb] in *; try lia; try discriminate).

(** * Machine integers

    An unsigned [w]-bit integer is a [Z] in [0, 2^w).  The wrap-around of
    [wrapping_add]/[wrapping_sub], of an [as] cast and of a plain [+ - *] in a
    release build is [x mod 2^w]. *)

Definition is_u8 (x : Z) : Prop := 0 <= x < 256.
Definition is_u16 (x : Z) : Prop := 0 <= x < 65536.
Definition is_u32 (x : Z) : Prop := 0 <= x < 4294967296.
Definition is_u64 (x : Z) : Prop := 0 <= x < 18446744073709551616.

Definition to_u8 (x : Z) : Z := x mod 256.
Definition to_u16 (x : Z) : Z := x mod 65536.
Definition to_u32 (x : Z) : Z := x mod 4294967296.
Definition to_u64 (x : Z) : Z := x mod 18446744073709551616.

Notation "a +32 b" := (to_u32 (a + b)) (at level 50, left associativity) : xray_scope.
Notation "a -32 b" := (to_u32 (a - b)) (at level 50, left associativity) : xray_scope.
Notation "a *32 b" := (to_u32 (a * b)) (at level 40, left associativity) : xray_scope.

Lemma to_u8_range x : is_u8 (to_u8 x).
Proof. unfold is_u8, to_u8. apply Z.mod_pos_bound. lia. Qed.
Lemma to_u16_range x : is_u16 (to_u16 x).
Proof. unfold is_u16, to_u16. apply Z.mod_pos_bound. lia. Qed.
Lemma to_u32_range x : is_u32 (to_u32 x).
Proof. unfold is_u32, to_u32. apply Z.mod_pos_bound. lia. Qed.

Lemma to_u8_small x : is_u8 x -> to_u8 x = x.
Proof. unfold is_u8, to_u8. intros. apply Z.mod_small. lia. Qed.
Lemma to_u16_small x : is_u16 x -> to_u16 x = x.
Proof. unfold is_u16, to_u16. intros. apply Z.mod_small. lia. Qed.
Lemma to_u32_small x : is_u32 x -> to_u32 x = x.
Proof. unfold is_u32, to_u32. intros. apply Z.mod_small. lia. Qed.

(** The two cases of a wrapping subtraction of 32-bit values. *)
Lemma wsub32_ge a b : is_u32 a -> is_u32 b -> b <= a -> a -32 b = a - b.
Proof. unfold is_u32. intros. apply to_u32_small. unfold is_u32. lia. Qed.
Lemma wsub32_lt a b : is_u32 a -> is_u32 b -> a < b -> a -32 b = a - b + 4294967296.
Proof.
  unfold is_u32, to_u32. intros.
  rewrite <- (Z.mod_add _ 1) by lia. rewrite Z.mod_small; lia.
Qed.

#[export] Hint Resolve to_u8_range to_u16_range to_u32_range : xray.

(** * Lengths, slices and indexing with machine-size arguments

    A [usize] length, offset or count is a [Z]; [l[: a, b ]] is the Rust
    slice [&l[a..b]] and [l @ i] the element [l[i]] (both used behind the
    guard that the code checks first). *)

Definition zlen {A} (l : list A) : Z := Z.of_nat (length l).
Definition ztake {A} (n : Z) (l : list A) : list A := take (Z.to_nat n) l.
Definition zdrop {A} (n : Z) (l : list A) : list A := drop (Z.to_nat n) l.
Definition slice {A} (a b : Z) (l : list A) : list A := ztake (b - a) (zdrop a l).
Definition zrepeat {A} (n : Z) (x : A) : list A := replicate (Z.to_nat n) x.
Definition byte_at (l : list Z) (i : Z) : Z := nth (Z.to_nat i) l 0.

Notation "l [: a , b ]" := (slice a b l) (at level 1, left associativity, a at level 50, b at level 50, format "l [: a ,  b ]") : xray_scope.
Notation "l @ i" := (byte_at l i) (at level 25, no associativity) : xray_scope.

Arguments zlen : simpl never.
Arguments ztake : simpl never.
Arguments zdrop : simpl never.
Arguments slice : simpl never.
Arguments zrepeat : simpl never.
Arguments byte_at : simpl never.

Section zlist.
Context {A : Type}.
Implicit Types (l k : list A) (n m a b : Z).

Lemma zlen_nonneg l : 0 <= zlen l.
Proof. unfold zlen. lia. Qed.
Lemma zlen_nil : zlen (@nil A) = 0.
Proof. reflexivity. Qed.
Lemma zlen_cons (x : A) l : zlen (x :: l) = 1 + zlen l.
Proof. unfold zlen. cbn [length]. lia. Qed.
Lemma zlen_cons_eqb0 (x : A) l : (zlen (x :: l) =? 0) = false.
Proof. apply Z.eqb_neq. unfold zlen. cbn [length]. lia. Qed.
Lemma zlen_app l k : zlen (l ++ k) = zlen l + zlen k.
Proof. unfold zlen. rewrite length_app. lia. Qed.
Lemma zlen_take n l : zlen (ztake n l) = Z.min (Z.max 0 n) (zlen l).
Proof. unfold zlen, ztake. rewrite length_take. lia. Qed.
Lemma zlen_drop n l : zlen (zdrop n l) = Z.max 0 (zlen l - Z.max 0 n).
Proof. unfold zlen, zdrop. rewrite length_drop. lia. Qed.
Lemma zlen_repeat n (x : A) : zlen (zrepeat n x) = Z.max 0 n.
Proof. unfold zlen, zrepeat. rewrite length_replicate. lia. Qed.
Lemma zlen_slice a b l : zlen (slice a b l) = Z.min (Z.max 0 (b - a)) (Z.max 0 (zlen l - Z.max 0 a)).
Proof. unfold slice. rewrite zlen_take, zlen_drop. lia. Qed.
Lemma zlen_zero l : zlen l <= 0 -> l = [].
Proof. destruct l; [done|]. rewrite zlen_cons. pose proof (zlen_nonneg l). lia. Qed.

Lemma ztake_drop n l : ztake n l ++ zdrop n l = l.
Proof. apply take_drop. Qed.
Lemma ztake_ge n l : zlen l <= n -> ztake n l = l.
Proof. unfold zlen, ztake. intros. apply take_ge. lia. Qed.
Lemma zdrop_ge n l : zlen l <= n -> zdrop n l = [].
Proof. unfold zlen, zdrop. intros. apply drop_ge. lia. Qed.
Lemma ztake_le0 n l : n <= 0 -> ztake n l = [].
Proof. unfold ztake. intros. replace (Z.to_nat n) with 0%nat by lia. done. Qed.
Lemma zdrop_le0 n l : n <= 0 -> zdrop n l = l.
Proof. unfold zdrop. intros. replace (Z.to_nat n) with 0%nat by lia. done. Qed.
Lemma ztake_app_le n l k : n <= zlen l -> ztake n (l ++ k) = ztake n l.
Proof. unfold zlen, ztake. intros. apply take_app_le. lia. Qed.
Lemma ztake_app_ge n l k : zlen l <= n -> ztake n (l ++ k) = l ++ ztake (n - zlen l) k.
Proof.
    unfold zlen, ztake. intros. rewrite take_app_ge by lia.
    do 2 f_equal. lia.
  Qed.
Lemma ztake_app n l k : n = zlen l -> ztake n (l ++ k) = l.
Proof. intros ->. rewrite ztake_app_le, ztake_ge; auto; lia. Qed.
Lemma zdrop_app_le n l k : n <= zlen l -> zdrop n (l ++ k) = zdrop n l ++ k.
Proof. unfold zlen, zdrop. intros. apply drop_app_le. lia. Qed.
Lemma zdrop_app_ge n l k : zlen l <= n -> zdrop n (l ++ k) = zdrop (n - zlen l) k.
Proof. unfold zlen, zdrop. intros. rewrite drop_app_ge by lia. f_equal. lia. Qed.
Lemma zdrop_app n l k : n = zlen l -> zdrop n (l ++ k) = k.
Proof. intros ->. rewrite zdrop_app_ge, zdrop_le0; auto; lia. Qed.
Lemma ztake_take n m l : ztake n (ztake m l) = ztake (Z.min n m) l.
Proof. unfold ztake. rewrite take_take. f_equal. lia. Qed.
Lemma zdrop_drop n m l : 0 <= n -> 0 <= m -> zdrop n (zdrop m l) = zdrop (m + n) l.
Proof. unfold zdrop. intros. rewrite drop_drop. f_equal. lia. Qed.
Lemma ztake_drop_comm n m l : 0 <= n -> 0 <= m -> ztake n (zdrop m l) = zdrop m (ztake (m + n) l).
Proof.
    unfold ztake, zdrop. intros. rewrite take_drop_commute. do 2 f_equal. lia.
  Qed.

  (** Slicing a concatenation, the two steps every parser proof takes. *)
Lemma slice_app_skip a b l k :
    zlen l <= a -> slice a b (l ++ k) = slice (a - zlen l) (b - zlen l) k.
Proof.
    intros. unfold slice. rewrite zdrop_app_ge by lia. f_equal. lia.
  Qed.
Lemma slice_cons a b (x : A) l : 1 <= a -> slice a b (x :: l) = slice (a - 1) (b - 1) l.
Proof. intros H. exact (slice_app_skip a b [x] l H). Qed.
Lemma ztake_cons n (x : A) l : 1 <= n -> ztake n (x :: l) = x :: ztake (n - 1) l.
Proof. intros H. exact (ztake_app_ge n [x] l H). Qed.
Lemma zdrop_1_cons (x : A) l : zdrop 1 (x :: l) = l.
Proof. reflexivity. Qed.
Lemma slice_0 b l : slice 0 b l = ztake b l.
Proof. unfold slice. by rewrite zdrop_le0, Z.sub_0_r by lia. Qed.
Lemma slice_app_head b l k : b = zlen l -> slice 0 b (l ++ k) = l.
Proof. intros. unfold slice. rewrite zdrop_le0, Z.sub_0_r, ztake_app; auto; lia. Qed.
Lemma slice_all b l : b = zlen l -> slice 0 b l = l.
Proof. intros. unfold slice. rewrite zdrop_le0, Z.sub_0_r, ztake_ge; auto; lia. Qed.
Lemma slice_app_l a b l k : 0 <= a -> b <= zlen l -> slice a b (l ++ k) = slice a b l.
Proof.
    intros. unfold slice. destruct (decide (b <= a)).
    { by rewrite !ztake_le0 by lia. }
    rewrite zdrop_app_le by lia. rewrite ztake_app_le; auto.
    rewrite zlen_drop. lia.
  Qed.

Lemma zlen_Forall (P : A -> Prop) n l : Forall P l -> Forall P (ztake n l).
Proof. apply Forall_take. Qed.
Lemma zdrop_Forall (P : A -> Prop) n l : Forall P l -> Forall P (zdrop n l).
Proof. apply Forall_drop. Qed.
Lemma slice_Forall (P : A -> Prop) a b l : Forall P l -> Forall P (slice a b l).
Proof. intros. by apply Forall_take, Forall_drop. Qed.
End zlist.

Lemma zlen_map {A B} (f : A -> B) (l : list A) : zlen (map f l) = zlen l.
Proof. unfold zlen. by rewrite length_map. Qed.
Lemma zlen_filter_le {A} (f : A -> bool) (l : list A) : zlen (List.filter f l) <= zlen l.
Proof. unfold zlen. pose proof (filter_length_le f l). lia. Qed.

#[export] Hint Resolve zlen_nonneg zlen_Forall zdrop_Forall slice_Forall : xray.
#[export] Hint Rewrite @zlen_cons @zlen_app @zlen_take @zlen_drop @zlen_repeat @zlen_slice @zlen_map : zlen.

(** Normalise the lengths in sight, pose their signs, then [lia]. *)
Ltac zlen_nils :=
  repeat match goal with
  | |- context [@zlen ?A []] => change (@zlen A []) with 0
  | H : context [@zlen ?A []] |- _ => change (@zlen A []) with 0 in H
  end.
Ltac zlen_facts :=
  repeat match goal with
  | |- context [zlen ?l] =>
      lazymatch goal with
      | _ : 0 <= zlen l |- _ => fail
      | _ => pose proof (zlen_nonneg l)
      end
  | H : context [zlen ?l] |- _ =>
      lazymatch goal with
      | _ : 0 <= zlen l |- _ => fail
      | _ => pose proof (zlen_nonneg l)
      end
  end.
Ltac zlens := autorewrite with zlen in *; zlen_nils.
Ltac zlia := zlens; zlen_facts; lia.

(** * Results

    [Result<T, E>]: a sum with its own names, a monad through stdpp's
    [MRet]/[MBind], so that the [?] operator of the code is [x ← m; k].
    A function that may panic returns an [option], [None] being the panic. *)

Inductive result (E A : Type) : Type :=
| Ok (a : A)
| Err (e : E).
Arguments Ok {E A} a.
Arguments Err {E A} e.

#[export] Instance result_ret E : MRet (result E) := fun A a => Ok a.
#[export] Instance result_bind E : MBind (result E) :=
  fun A B f m => match m with Ok a => f a | Err e => Err e end.
#[export] Instance result_fmap E : FMap (result E) :=
  fun A B f m => match m with Ok a => Ok (f a) | Err e => Err e end.

(** [opt.ok_or(e)] *)
Definition ok_or {E A} (e : E) (m : option A) : result E A :=
  match m with Some a => Ok a | None => Err e end.

Definition is_ok {E A} (r : result E A) : bool :=
  match r with Ok _ => true | Err _ => false end.

#[export] Instance result_eq_dec `{EqDecision E, EqDecision A} : EqDecision (result E A).
Proof. solve_decision. Defined.
