(* ===== verification/Bytes.v ===== *)
(** Bytes on the wire: big-endian integers ([to_be_bytes]/[from_be_bytes]) with
    their two-way inverse and bound lemmas, and the UTF-8 validity test of
    [std::str::from_utf8].  These are the language's own operations; the files of
    the components use them and map nothing to this file. *)
From stdpp Require Import base tactics option list numbers.
From S2P Require Import Prelude.

Abbreviation bytes := (list Z).
Abbreviation bytes_ok := (Forall is_u8).

(** * Big-endian integers *)

Fixpoint be_bytes (n : nat) (v : Z) : bytes :=
  match n with
  | O => []
  | S k => to_u8 (v / 256 ^ Z.of_nat k) :: be_bytes k v
  end.

Definition be_val (l : bytes) : Z := fold_left (fun acc b => acc * 256 + b) l 0.

Definition be16 (v : Z) : bytes := be_bytes 2 v.
Definition be32 (v : Z) : bytes := be_bytes 4 v.
Definition be64 (v : Z) : bytes := be_bytes 8 v.

Arguments be_val : simpl never.
Arguments be16 : simpl never.
Arguments be32 : simpl never.
Arguments be64 : simpl never.

Lemma be_bytes_length n v : length (be_bytes n v) = n.
Proof. induction n; cbn; congruence. Qed.

Lemma be_bytes_ok n v : bytes_ok (be_bytes n v).
Proof. induction n; cbn; constructor; auto with xray. Qed.

Lemma be_fold acc l :
  fold_left (fun acc b => acc * 256 + b) l acc = acc * 256 ^ zlen l + be_val l.
Proof.
  unfold be_val. revert acc. induction l as [|b l IH]; intros acc; cbn [fold_left].
  - zlia.
  - rewrite IH, (IH (0 * 256 + b)), zlen_cons, Z.pow_add_r by zlia. lia.
Qed.

Lemma be_val_nil : be_val [] = 0.
Proof. reflexivity. Qed.
Lemma be_val_cons b l : be_val (b :: l) = b * 256 ^ zlen l + be_val l.
Proof. unfold be_val at 1. cbn [fold_left]. rewrite be_fold. lia. Qed.
Lemma be_val_app l1 l2 : be_val (l1 ++ l2) = be_val l1 * 256 ^ zlen l2 + be_val l2.
Proof. unfold be_val at 1. rewrite fold_left_app. apply be_fold. Qed.

Lemma be_val_bytes n v : be_val (be_bytes n v) = v mod 256 ^ Z.of_nat n.
Proof.
  induction n as [|n IH]; cbn [be_bytes].
  - cbn. by rewrite Z.mod_1_r.
  - rewrite be_val_cons, IH. unfold zlen. rewrite be_bytes_length.
    replace (Z.of_nat (S n)) with (Z.of_nat n + 1) by lia.
    rewrite Z.pow_add_r, Z.pow_1_r by lia.
    rewrite Z.rem_mul_r by lia. unfold to_u8. lia.
Qed.

Lemma be_val_range l : bytes_ok l -> 0 <= be_val l < 256 ^ zlen l.
Proof.
  induction 1 as [|b l Hb _ IH].
  - rewrite be_val_nil. zlens. lia.
  - rewrite be_val_cons, zlen_cons, Z.pow_add_r by zlia.
    unfold is_u8 in Hb. rewrite Z.pow_1_r.
    set (p := 256 ^ zlen l) in *. nia.
Qed.

Lemma be_bytes_mod n k v : (n <= k)%nat -> be_bytes n (v mod 256 ^ Z.of_nat k) = be_bytes n v.
Proof.
  induction n as [|n IH]; intros Hle; cbn [be_bytes]; [done|].
  f_equal; [|apply IH; lia].
  unfold to_u8.
  replace (Z.of_nat k) with (Z.of_nat n + (1 + (Z.of_nat k - Z.of_nat n - 1))) by lia.
  rewrite !Z.pow_add_r, Z.pow_1_r by lia.
  rewrite Z.rem_mul_r by (try apply Z.pow_pos_nonneg; lia).
  rewrite (Z.mul_comm (256 ^ Z.of_nat n) (_ mod _)), Z.div_add by (apply Z.pow_nonzero; lia).
  rewrite Z.div_small by (apply Z.mod_pos_bound, Z.pow_pos_nonneg; lia).
  rewrite Z.add_0_l, Z.rem_mul_r by (try apply Z.pow_pos_nonneg; lia).
  rewrite (Z.mul_comm 256), Z.mod_add, Z.mod_mod by lia. done.
Qed.

Lemma be_bytes_val l : bytes_ok l -> be_bytes (length l) (be_val l) = l.
Proof.
  induction 1 as [|b l Hb Hl IH]; [done|]. cbn [length be_bytes].
  pose proof (be_val_range l Hl) as Hr. unfold zlen in Hr.
  rewrite be_val_cons. unfold zlen.
  rewrite Z.div_add_l by (apply Z.pow_nonzero; lia).
  rewrite Z.div_small, Z.add_0_r, to_u8_small by done.
  f_equal. rewrite <- (be_bytes_mod _ (length l)) by lia.
  rewrite Z.add_comm, Z.mod_add by (apply Z.pow_nonzero; lia).
  rewrite Z.mod_small; done.
Qed.

Lemma be_bytes_val_n n l : bytes_ok l -> length l = n -> be_bytes n (be_val l) = l.
Proof. intros ? <-. by apply be_bytes_val. Qed.

Lemma be16_val v : is_u16 v -> be_val (be16 v) = v.
Proof. intros. unfold be16. rewrite be_val_bytes. by apply Z.mod_small. Qed.
Lemma be32_val v : is_u32 v -> be_val (be32 v) = v.
Proof. intros. unfold be32. rewrite be_val_bytes. by apply Z.mod_small. Qed.
Lemma be64_val v : is_u64 v -> be_val (be64 v) = v.
Proof. intros. unfold be64. rewrite be_val_bytes. by apply Z.mod_small. Qed.

Lemma be16_len v : zlen (be16 v) = 2.
Proof. reflexivity. Qed.
Lemma be32_len v : zlen (be32 v) = 4.
Proof. reflexivity. Qed.
Lemma be64_len v : zlen (be64 v) = 8.
Proof. reflexivity. Qed.

Lemma be_val_u16 l : bytes_ok l -> zlen l = 2 -> is_u16 (be_val l).
Proof. intros H Hl. pose proof (be_val_range l H). rewrite Hl in *. unfold is_u16. lia. Qed.
Lemma be_val_u32 l : bytes_ok l -> zlen l = 4 -> is_u32 (be_val l).
Proof. intros H Hl. pose proof (be_val_range l H). rewrite Hl in *. unfold is_u32. lia. Qed.
Lemma be16_of_val l : bytes_ok l -> zlen l = 2 -> be16 (be_val l) = l.
Proof. intros ? Hl. apply be_bytes_val_n; auto. unfold zlen in Hl. lia. Qed.
Lemma be32_of_val l : bytes_ok l -> zlen l = 4 -> be32 (be_val l) = l.
Proof. intros ? Hl. apply be_bytes_val_n; auto. unfold zlen in Hl. lia. Qed.

Lemma byte_at_ok l i : bytes_ok l -> is_u8 (l @ i).
Proof.
  intros H. unfold byte_at. destruct (nth_in_or_default (Z.to_nat i) l 0) as [Hin|E].
  - by apply (proj1 (List.Forall_forall _ _) H).
  - rewrite E. unfold is_u8. lia.
Qed.

#[export] Hint Resolve be_bytes_ok byte_at_ok be_val_u16 be_val_u32 : xray.
#[export] Hint Rewrite be16_len be32_len be64_len : zlen.

(** Element [i] of a concatenation. *)
Lemma byte_at_skip l k i : zlen l <= i -> (l ++ k) @ i = k @ (i - zlen l).
Proof.
  unfold byte_at, zlen. intros. rewrite app_nth2 by lia. f_equal. lia.
Qed.
Lemma byte_at_cons b l : (b :: l) @ 0 = b.
Proof. reflexivity. Qed.
Lemma byte_at_slice l a b i : 0 <= a -> 0 <= i -> i < b - a -> l[: a, b] @ i = l @ (a + i).
Proof.
  intros. unfold byte_at, slice, ztake, zdrop.
  rewrite nth_firstn.
  destruct (Nat.ltb_spec (Z.to_nat i) (Z.to_nat (b - a))); [|lia].
  rewrite nth_skipn. f_equal. lia.
Qed.

(** * UTF-8 validity *)

Definition utf8_cont (b : Z) : bool := (128 <=? b) && (b <=? 191).
Definition byte_in (lo hi b : Z) : bool := (lo <=? b) && (b <=? hi).

Fixpoint utf8_valid (l : bytes) : bool :=
  match l with
  | [] => true
  | b :: r =>
      if b <? 128 then utf8_valid r
      else if byte_in 194 223 b then
        match r with c :: r' => utf8_cont c && utf8_valid r' | _ => false end
      else if byte_in 224 239 b then
        match r with
        | c :: d :: r' =>
            (if b =? 224 then byte_in 160 191 c
             else if b =? 237 then byte_in 128 159 c else utf8_cont c)
            && utf8_cont d && utf8_valid r'
        | _ => false
        end
      else if byte_in 240 244 b then
        match r with
        | c :: d :: e :: r' =>
            (if b =? 240 then byte_in 144 191 c
             else if b =? 244 then byte_in 128 143 c else utf8_cont c)
            && utf8_cont d && utf8_cont e && utf8_valid r'
        | _ => false
        end
      else false
  end.

(** A Rust [String]/[&str], as its bytes. *)
Definition str_ok (s : bytes) : Prop := bytes_ok s /\ utf8_valid s = true.
