(* ===== verification/NetTypes.v ===== *)
(** Network value types of [xray-common] ([net/address.rs], [net/port.rs],
    [net/destination.rs], [net/network.rs]), the option mask ([bitmask/mod.rs]) and
    the big-endian helpers ([serial/mod.rs]).

    An [Ipv4Addr]/[Ipv6Addr] is its octets, a [String] its UTF-8 bytes; the
    well-formedness predicates say which byte lists those are. *)
From stdpp Require Import base tactics option list numbers.
From S2P Require Import Prelude Bytes.

(** * Addresses *)

(** [std::net::IpAddr] and [SocketAddr]; the addresses are octets. *)
Inductive IpAddr : Type :=
| V4 (octets : bytes)
| V6 (octets : bytes).

Inductive SocketAddr : Type :=
| SockV4 (octets : bytes) (port : Z)
| SockV6 (octets : bytes) (port flowinfo scope_id : Z).

Inductive Address : Type :=
| IPv4 (octets : bytes)
| IPv6 (octets : bytes)
| Domain (name : bytes).

#[export] Instance IpAddr_eq_dec : EqDecision IpAddr.
Proof. solve_decision. Defined.
#[export] Instance SocketAddr_eq_dec : EqDecision SocketAddr.
Proof. solve_decision. Defined.
#[export] Instance Address_eq_dec : EqDecision Address.
Proof. solve_decision. Defined.

Definition octets_ok (n : Z) (o : bytes) : Prop := bytes_ok o /\ zlen o = n.

Definition address_ok (a : Address) : Prop :=
  match a with
  | IPv4 o => octets_ok 4 o
  | IPv6 o => octets_ok 16 o
  | Domain s => str_ok s
  end.

Definition Address_ipv4 (addr : bytes) : Address := IPv4 addr.
Definition Address_ipv6 (addr : bytes) : Address := IPv6 addr.
Definition Address_new_domain (domain : bytes) : Address := Domain domain.
Definition Address_from_ipv4_bytes (b : bytes) : Address := IPv4 b.
Definition Address_from_ipv6_bytes (b : bytes) : Address := IPv6 b.

Definition Address_is_ipv4 (a : Address) : bool := match a with IPv4 _ => true | _ => false end.
Definition Address_is_ipv6 (a : Address) : bool := match a with IPv6 _ => true | _ => false end.
Definition Address_is_domain (a : Address) : bool := match a with Domain _ => true | _ => false end.

Definition Address_ip (a : Address) : option IpAddr :=
  match a with
  | IPv4 addr => Some (V4 addr)
  | IPv6 addr => Some (V6 addr)
  | Domain _ => None
  end.

Definition Address_as_domain (a : Address) : option bytes :=
  match a with Domain d => Some d | _ => None end.
Definition Address_ipv4_bytes (a : Address) : option bytes :=
  match a with IPv4 addr => Some addr | _ => None end.
Definition Address_ipv6_bytes (a : Address) : option bytes :=
  match a with IPv6 addr => Some addr | _ => None end.

(** [impl From<IpAddr> for Address] *)
Definition Address_from_IpAddr (addr : IpAddr) : Address :=
  match addr with V4 v4 => IPv4 v4 | V6 v6 => IPv6 v6 end.

Record IPOrDomain : Type := IPOrDomain_new { IPOrDomain_address : Address }.

Definition IPOrDomain_into_address (x : IPOrDomain) : Address := IPOrDomain_address x.
Definition IPOrDomain_as_ip (x : IPOrDomain) : option IpAddr := Address_ip (IPOrDomain_address x).
Definition IPOrDomain_as_domain (x : IPOrDomain) : option bytes :=
  Address_as_domain (IPOrDomain_address x).

(** * Ports *)

Record Port : Type := Port_new { Port_value : Z }.

#[export] Instance Port_eq_dec : EqDecision Port.
Proof. solve_decision. Defined.

Definition port_ok (p : Port) : Prop := is_u16 (Port_value p).
Definition Port_MAX : Port := Port_new 65535.
Definition Port_MIN : Port := Port_new 0.
Definition Port_is_valid (p : Port) : bool := 0 <? Port_value p.

Record PortRange : Type := PortRange_new { PortRange_from_port : Port; PortRange_to_port : Port }.

Definition PortRange_contains (r : PortRange) (port : Port) : bool :=
  (Port_value (PortRange_from_port r) <=? Port_value port)
  && (Port_value port <=? Port_value (PortRange_to_port r)).

Record MemoryPortRange : Type := MemoryPortRange_from_range { MemoryPortRange_into_range : PortRange }.

Definition MemoryPortRange_new (from to : Port) : MemoryPortRange :=
  MemoryPortRange_from_range (PortRange_new from to).
Definition MemoryPortRange_contains (r : MemoryPortRange) (port : Port) : bool :=
  PortRange_contains (MemoryPortRange_into_range r) port.

Record MemoryPortList : Type := MemoryPortList_new { MemoryPortList_ranges : list PortRange }.

Definition MemoryPortList_empty : MemoryPortList := MemoryPortList_new [].
Definition MemoryPortList_contains (l : MemoryPortList) (port : Port) : bool :=
  existsb (fun r => PortRange_contains r port) (MemoryPortList_ranges l).

(** * Networks and destinations *)

Inductive Network : Type := TCP | UDP | Unix.

#[export] Instance Network_eq_dec : EqDecision Network.
Proof. solve_decision. Defined.

Record Destination : Type := Destination_new {
  Destination_address : Address;
  Destination_port : Port;
  Destination_network : Network;
}.

#[export] Instance Destination_eq_dec : EqDecision Destination.
Proof. solve_decision. Defined.

Definition destination_ok (d : Destination) : Prop :=
  address_ok (Destination_address d) /\ port_ok (Destination_port d).

Definition Destination_tcp (a : Address) (p : Port) : Destination := Destination_new a p TCP.
Definition Destination_udp (a : Address) (p : Port) : Destination := Destination_new a p UDP.
Definition Destination_is_tcp (d : Destination) : bool := bool_decide (Destination_network d = TCP).
Definition Destination_is_udp (d : Destination) : bool := bool_decide (Destination_network d = UDP).
Definition Destination_with_network (d : Destination) (n : Network) : Destination :=
  Destination_new (Destination_address d) (Destination_port d) n.

Record Endpoint : Type := Endpoint_new { Endpoint_address : Address; Endpoint_port : Port }.

(** * The option mask *)

Record Bitmask : Type := Bitmask_new { Bitmask_bits : Z }.

#[export] Instance Bitmask_eq_dec : EqDecision Bitmask.
Proof. solve_decision. Defined.

Definition Bitmask_default : Bitmask := Bitmask_new 0.
Definition Bitmask_has (m : Bitmask) (bit : Z) : bool := negb (Z.land (Bitmask_bits m) bit =? 0).
Definition Bitmask_set (m : Bitmask) (bit : Z) : Bitmask := Bitmask_new (Z.lor (Bitmask_bits m) bit).
Definition Bitmask_clear (m : Bitmask) (bit : Z) : Bitmask :=
  Bitmask_new (Z.land (Bitmask_bits m) (255 - bit)).
Definition Bitmask_toggle (m : Bitmask) (bit : Z) : Bitmask := Bitmask_new (Z.lxor (Bitmask_bits m) bit).

(** * Big-endian helpers *)

Definition read_uint16 (data : bytes) : option Z :=
  if zlen data <? 2 then None else Some (be_val data[: 0, 2]).
Definition write_uint16 (value : Z) : bytes := be16 value.
Definition read_uint64 (data : bytes) : option Z :=
  if zlen data <? 8 then None else Some (be_val data[: 0, 8]).
Definition write_uint64 (value : Z) : bytes := be64 value.

(** * Lemmas *)

Lemma MemoryPortList_contains_spec l p :
  MemoryPortList_contains l p = true <->
  exists r, r ∈ MemoryPortList_ranges l /\
    Port_value (PortRange_from_port r) <= Port_value p <= Port_value (PortRange_to_port r).
Proof.
  unfold MemoryPortList_contains. rewrite existsb_exists.
  split; intros (r & Hin & Hr); exists r; rewrite <- ?list_elem_of_In in *; (split; [done|]);
    unfold PortRange_contains in *; zcases_in; zcases; lia.
Qed.

Lemma Bitmask_set_has m bit : bit <> 0 -> Bitmask_has (Bitmask_set m bit) bit = true.
Proof.
  unfold Bitmask_has, Bitmask_set. cbn. intros Hne.
  rewrite Z.land_lor_distr_l, Z.land_diag.
  destruct (Z.eqb_spec (Z.lor (Z.land (Bitmask_bits m) bit) bit) 0) as [E|]; [|done].
  apply Z.lor_eq_0_iff in E. tauto.
Qed.

Lemma read_write_uint16 v rest : is_u16 v -> read_uint16 (write_uint16 v ++ rest) = Some v.
Proof.
  intros. unfold read_uint16, write_uint16. zlens. zcases; [zlia|].
  by rewrite slice_app_head, be16_val by done.
Qed.

Lemma read_write_uint64 v rest : is_u64 v -> read_uint64 (write_uint64 v ++ rest) = Some v.
Proof.
  intros. unfold read_uint64, write_uint64. zlens. zcases; [zlia|].
  by rewrite slice_app_head, be64_val by done.
Qed.
