(* ===== verification/BytesMut.v ===== *)
(** The interface of the third-party crate [bytes] that [xray-buf] is written
    against.  [BytesMut] is not part of the repository, so it is a type parameter
    [M] with its operations ([BytesMutOps]) and the documented behaviour the code
    relies on ([BytesMutLaws]); [Bytes], an immutable byte string, is its contents.
    [LBytes] is a concrete instance, which shows that the laws can hold and lets the
    witnesses of the other files compute. *)
From stdpp Require Import base tactics option list numbers.
From S2P Require Import Prelude Bytes.

Class BytesMutOps (M : Type) : Type := {
  (** the [len()] initialised bytes *)
  bm_data : M -> bytes;
  bm_capacity : M -> Z;
  (** [BytesMut::new()], [BytesMut::with_capacity(n)] *)
  bm_new : M;
  bm_with_capacity : Z -> M;
  (** [unsafe set_len(n)] *)
  bm_set_len : Z -> M -> M;
  (** [m[at..at + src.len()].copy_from_slice(src)] *)
  bm_copy_at : Z -> bytes -> M -> M;
  (** [resize(new_len, value)] *)
  bm_resize : Z -> Z -> M -> M;
  (** [extend_from_slice] *)
  bm_extend : bytes -> M -> M;
  (** [clear()] *)
  bm_clear : M -> M;
  (** [Buf::advance(n)] *)
  bm_advance : Z -> M -> M;
  (** [split_to(n)]: (the front, self afterwards) *)
  bm_split_to : Z -> M -> M * M;
  (** [Bytes::try_into_mut()]: [None] when the bytes are shared *)
  bm_try_from : bytes -> option M;
}.

Abbreviation bm_len m := (zlen (bm_data m)).

Class BytesMutLaws (M : Type) `{BytesMutOps M} : Prop := {
  bm_len_cap m : bm_len m <= bm_capacity m;
  bm_new_data : bm_data bm_new = [];
  bm_wc_data n : bm_data (bm_with_capacity n) = [];
  bm_wc_cap n : n <= bm_capacity (bm_with_capacity n);
  bm_set_len_grow n m : bm_len m <= n <= bm_capacity m ->
    exists junk, bm_data (bm_set_len n m) = bm_data m ++ junk /\ zlen junk = n - bm_len m;
  bm_set_len_cap n m : n <= bm_capacity m -> bm_capacity (bm_set_len n m) = bm_capacity m;
  bm_copy_data at' src m : 0 <= at' -> at' + zlen src <= bm_len m ->
    bm_data (bm_copy_at at' src m) =
      ztake at' (bm_data m) ++ src ++ zdrop (at' + zlen src) (bm_data m);
  bm_copy_cap at' src m : 0 <= at' -> at' + zlen src <= bm_len m ->
    bm_capacity (bm_copy_at at' src m) = bm_capacity m;
  bm_resize_data n v m : 0 <= n ->
    bm_data (bm_resize n v m) = ztake n (bm_data m) ++ zrepeat (n - bm_len m) v;
  bm_extend_data src m : bm_data (bm_extend src m) = bm_data m ++ src;
  bm_clear_data m : bm_data (bm_clear m) = [];
  bm_clear_cap m : bm_capacity (bm_clear m) = bm_capacity m;
  bm_advance_data n m : 0 <= n <= bm_len m -> bm_data (bm_advance n m) = zdrop n (bm_data m);
  bm_split_front n m : 0 <= n <= bm_len m -> bm_data (bm_split_to n m).1 = ztake n (bm_data m);
  bm_split_rest n m : 0 <= n <= bm_len m -> bm_data (bm_split_to n m).2 = zdrop n (bm_data m);
  bm_try_data b m : bm_try_from b = Some m -> bm_data m = b;
}.

(** The allocation pool as [Buffer] sees it ([alloc::alloc]): an empty block of at
    least the requested capacity.  [Pool] discharges it for every reachable pool. *)
Class BufAlloc (M : Type) `{BytesMutOps M} : Type := {
  pool_alloc : Z -> M;
  pool_alloc_data n : bm_data (pool_alloc n) = [];
  pool_alloc_cap n : n <= bm_capacity (pool_alloc n);
}.

(** * A concrete instance *)

Record LBytes : Type := { lb_data : bytes; lb_cap : Z }.

Definition lb_capacity (m : LBytes) : Z := Z.max (lb_cap m) (zlen (lb_data m)).
Definition lb_keep (d : bytes) (m : LBytes) : LBytes := {| lb_data := d; lb_cap := lb_capacity m |}.

#[export] Instance lb_ops : BytesMutOps LBytes := {|
  bm_data := lb_data;
  bm_capacity := lb_capacity;
  bm_new := {| lb_data := []; lb_cap := 0 |};
  bm_with_capacity n := {| lb_data := []; lb_cap := n |};
  bm_set_len n m := lb_keep (ztake n (lb_data m) ++ zrepeat (n - zlen (lb_data m)) 0) m;
  bm_copy_at a src m :=
    {| lb_data := ztake a (lb_data m) ++ ztake (zlen (lb_data m) - a) src
                  ++ zdrop (a + zlen src) (lb_data m);
       lb_cap := lb_capacity m |};
  bm_resize n v m := lb_keep (ztake n (lb_data m) ++ zrepeat (n - zlen (lb_data m)) v) m;
  bm_extend src m := lb_keep (lb_data m ++ src) m;
  bm_clear m := lb_keep [] m;
  bm_advance n m := {| lb_data := zdrop n (lb_data m); lb_cap := lb_capacity m - n |};
  bm_split_to n m :=
    ({| lb_data := ztake n (lb_data m); lb_cap := n |},
     {| lb_data := zdrop n (lb_data m); lb_cap := lb_capacity m - n |});
  bm_try_from b := Some {| lb_data := b; lb_cap := zlen b |};
|}.

#[export] Instance lb_laws : BytesMutLaws LBytes.
Proof.
  split; cbn -[zlen ztake zdrop zrepeat]; unfold lb_capacity in *;
    cbn -[zlen ztake zdrop zrepeat] in *; intros; try done; try zlia.
  - exists (zrepeat (n - zlen (lb_data m)) 0).
    rewrite ztake_ge by lia. split; [done|]. zlia.
  - unfold lb_capacity. zlia.
  - rewrite (ztake_ge _ src) by lia. done.
  - unfold lb_capacity. zlia.
  - by simplify_eq.
Qed.

#[export] Instance lb_alloc : BufAlloc LBytes := {|
  pool_alloc n := {| lb_data := []; lb_cap := n |};
  pool_alloc_data n := eq_refl;
  pool_alloc_cap n := Z.le_max_l n 0;
|}.
