(* ===== verification/Buffer.v ===== *)
(** [xray-buf/src/buffer.rs]: the buffer every component moves data in.  A [Buffer]
    is a block ([Pooled], a [BytesMut]; or [Frozen], an immutable [Bytes]) with a
    read cursor [start], a write cursor [end] and an optional UDP destination; its
    contents are [store[start..end]].

    One definition per method, over the [BytesMut] interface.  A method that
    asserts returns [None] when the assertion panics; the range checks of the slices
    cannot fail on a well-formed buffer ([buffer_ok], preserved by every method). *)
From stdpp Require Import base tactics option list numbers.
From S2P Require Import Prelude Bytes NetTypes BytesMut.

Section buffer.
Context {M : Type} `{!BytesMutOps M} `{!BufAlloc M}.

(** * The structure *)

Inductive Inner : Type :=
| Pooled (m : M)
| Frozen (b : bytes).

Record Buffer : Type := mkBuffer {
  b_inner : Inner;
  b_start : Z;
  b_end : Z;
  b_udp : option SocketAddr;
}.

Definition DEFAULT_SIZE : Z := 8192.

(** The bytes of the block: [m[..]] or [b[..]]. *)
Definition inner_data (i : Inner) : bytes :=
  match i with Pooled m => bm_data m | Frozen b => b end.

Definition Buffer_new : Buffer := mkBuffer (Pooled (pool_alloc DEFAULT_SIZE)) 0 0 None.

Definition Buffer_with_capacity (size : Z) : Buffer :=
  mkBuffer (Pooled (bm_with_capacity size)) 0 0 None.

Definition Buffer_from_bytes (data : M) : Buffer :=
  mkBuffer (Pooled data) 0 (bm_len data) None.

Definition Buffer_from_bytes_frozen (data : bytes) : Buffer :=
  mkBuffer (Frozen data) 0 (zlen data) None.

Definition Buffer_from_vec (data : bytes) : Buffer :=
  mkBuffer (Frozen data) 0 (zlen data) None.

(** Copy on write: the [BytesMut] that [pooled_mut] leaves in the buffer. *)
Definition Buffer_pooled_mut (b : Buffer) : M :=
  match b_inner b with
  | Frozen data =>
      match bm_try_from data with
      | Some vec => vec
      | None => bm_extend data (bm_with_capacity (zlen data))
      end
  | Pooled m => m
  end.

(** * Reading *)

Definition Buffer_len (b : Buffer) : Z := b_end b - b_start b.
Definition Buffer_is_empty (b : Buffer) : bool := b_start b =? b_end b.
Definition Buffer_bytes (b : Buffer) : bytes := (inner_data (b_inner b))[: b_start b, b_end b].

Definition Buffer_byte (index : Z) (b : Buffer) : option Z :=
  if index <? Buffer_len b then Some (Buffer_bytes b @ index) else None.

Definition Buffer_set_byte (index value : Z) (b : Buffer) : option Buffer :=
  if index <? Buffer_len b then
    let idx := b_start b + index in
    Some (mkBuffer (Pooled (bm_copy_at idx [value] (Buffer_pooled_mut b)))
            (b_start b) (b_end b) (b_udp b))
  else None.

Definition Buffer_advance (n : Z) (b : Buffer) : option Buffer :=
  if n <=? Buffer_len b
  then Some (mkBuffer (b_inner b) (b_start b + n) (b_end b) (b_udp b))
  else None.

(** [read_to(dst)]: the bytes copied to the front of [dst], whose length is [dst_len]. *)
Definition Buffer_read_to (dst_len : Z) (b : Buffer) : bytes * Buffer :=
  let n := Z.min (Buffer_len b) dst_len in
  (ztake n (Buffer_bytes b), mkBuffer (b_inner b) (b_start b + n) (b_end b) (b_udp b)).

Definition Buffer_read_byte (b : Buffer) : option Z * Buffer :=
  if Buffer_is_empty b then (None, b)
  else (Some (Buffer_bytes b @ 0), mkBuffer (b_inner b) (b_start b + 1) (b_end b) (b_udp b)).

(** * Writing *)

Definition Buffer_capacity (b : Buffer) : Z :=
  match b_inner b with Pooled m => bm_capacity m | Frozen d => zlen d end.

Definition Buffer_free (b : Buffer) : Z := Buffer_capacity b - b_end b.

(** [if new_end > m.len() { m.set_len(new_end) }] *)
Definition extend_to (new_end : Z) (m : M) : M :=
  if bm_len m <? new_end then bm_set_len new_end m else m.

(** The writable region is exposed by growing [len] to the capacity; the result is
    its (uninitialised or stale) contents. *)
Definition Buffer_writable_bytes (b : Buffer) : bytes * Buffer :=
  let m := Buffer_pooled_mut b in
  let m := if bm_len m <? bm_capacity m then bm_set_len (bm_capacity m) m else m in
  (zdrop (b_end b) (bm_data m), mkBuffer (Pooled m) (b_start b) (b_end b) (b_udp b)).

Definition Buffer_advance_write (n : Z) (b : Buffer) : option Buffer :=
  let new_end := b_end b + n in
  if new_end <=? Buffer_capacity b
  then Some (mkBuffer (Pooled (extend_to new_end (Buffer_pooled_mut b))) (b_start b) new_end (b_udp b))
  else None.

Definition Buffer_write_from (src : bytes) (b : Buffer) : Z * Buffer :=
  let available := Buffer_free b in
  let n := Z.min (zlen src) available in
  if n =? 0 then (0, b)
  else
    let new_end := b_end b + n in
    let m := extend_to new_end (Buffer_pooled_mut b) in
    let m := bm_copy_at (b_end b) (ztake n src) m in
    (n, mkBuffer (Pooled m) (b_start b) new_end (b_udp b)).

Definition Buffer_write_byte (v : Z) (b : Buffer) : bool * Buffer :=
  if Buffer_free b =? 0 then (false, b)
  else
    let new_end := b_end b + 1 in
    let m := extend_to new_end (Buffer_pooled_mut b) in
    let m := bm_copy_at (b_end b) [v] m in
    (true, mkBuffer (Pooled m) (b_start b) new_end (b_udp b)).

Definition Buffer_put (data : bytes) (b : Buffer) : Buffer :=
  let data_len := zlen data in
  if data_len =? 0 then b
  else
    let new_end := b_end b + data_len in
    let m := Buffer_pooled_mut b in
    let m := if bm_capacity m <? new_end then bm_resize new_end 0 m else m in
    let m := extend_to new_end m in
    let m := bm_copy_at (b_end b) data m in
    mkBuffer (Pooled m) (b_start b) new_end (b_udp b).

(** * Tools *)

Definition Buffer_clear (b : Buffer) : Buffer :=
  match b_inner b with
  | Pooled m => mkBuffer (Pooled m) 0 0 None
  | Frozen _ => mkBuffer (Pooled (pool_alloc DEFAULT_SIZE)) 0 0 None
  end.

Definition Buffer_truncate (n : Z) (b : Buffer) : Buffer :=
  if n <? Buffer_len b
  then mkBuffer (b_inner b) (b_start b) (b_start b + n) (b_udp b)
  else b.

Definition Buffer_udp (b : Buffer) : option SocketAddr := b_udp b.
Definition Buffer_set_udp (dest : option SocketAddr) (b : Buffer) : Buffer :=
  mkBuffer (b_inner b) (b_start b) (b_end b) dest.

(** [m.advance(start)] when [start > 0] *)
Definition drop_read (start : Z) (m : M) : M := if 0 <? start then bm_advance start m else m.

(** (the front, self afterwards) *)
Definition Buffer_split_to (n : Z) (b : Buffer) : option (Buffer * Buffer) :=
  if n <=? Buffer_len b then
    let split_end := b_start b + n in
    let remaining := Buffer_len b - n in
    match b_inner b with
    | Pooled m =>
        let '(front, m) := bm_split_to n (drop_read (b_start b) m) in
        Some (mkBuffer (Pooled front) 0 n None, mkBuffer (Pooled m) 0 remaining (b_udp b))
    | Frozen d =>
        Some (mkBuffer (Frozen d[: b_start b, split_end]) 0 n None,
              mkBuffer (Frozen d) split_end (b_end b) (b_udp b))
    end
  else None.

Definition Buffer_split_off (n : Z) (b : Buffer) : option (Buffer * Buffer) :=
  if n <=? Buffer_len b then
    let split_end := b_start b + n in
    let remaining := Buffer_len b - n in
    match b_inner b with
    | Pooled m =>
        let '(front, m) := bm_split_to n (drop_read (b_start b) m) in
        Some (mkBuffer (Pooled front) 0 n None, mkBuffer (Pooled m) 0 remaining (b_udp b))
    | Frozen d =>
        Some (mkBuffer (Frozen d[: b_start b, split_end]) 0 n None,
              mkBuffer (Frozen d) split_end (b_end b) (b_udp b))
    end
  else None.

(** [m.split().freeze()] takes all the initialised bytes after [start]. *)
Definition Buffer_into_bytes (b : Buffer) : bytes :=
  match b_inner b with
  | Pooled m => bm_data (drop_read (b_start b) m)
  | Frozen d => d[: b_start b, b_end b]
  end.

Definition Buffer_resize (new_len : Z) (b : Buffer) : Buffer :=
  let current := Buffer_len b in
  if new_len <=? current
  then mkBuffer (b_inner b) (b_start b) (b_start b + new_len) (b_udp b)
  else
    let extra := new_len - current in
    let needed := b_end b + extra in
    let m := Buffer_pooled_mut b in
    let m := if bm_len m <? needed then bm_resize needed 0 m
             else bm_copy_at (b_end b) (zrepeat (needed - b_end b) 0) m in
    mkBuffer (Pooled m) (b_start b) needed (b_udp b).

Definition Buffer_release (b : Buffer) : Buffer :=
  match b_inner b with
  | Pooled _ => mkBuffer (Pooled bm_new) 0 0 None
  | Frozen _ => mkBuffer (Frozen []) 0 0 None
  end.

Definition Buffer_is_released (b : Buffer) : bool :=
  match b_inner b with
  | Pooled m => bm_capacity m =? 0
  | Frozen d => zlen d =? 0
  end.

(** * Well-formedness *)

Definition buffer_ok (b : Buffer) : Prop :=
  0 <= b_start b <= b_end b /\ b_end b <= zlen (inner_data (b_inner b)).

End buffer.

Arguments Inner M : clear implicits.
Arguments Buffer M : clear implicits.
Arguments inner_data {M _} !i.
