(* ===== verification/BufferProps.v ===== *)
(** Correctness of [Buffer]: well-formedness is preserved by every method, each
    method has its byte-queue meaning, and the whole interface refines an abstract
    byte queue. *)
From stdpp Require Import base tactics option list numbers.
From S2P Require Import Prelude Bytes NetTypes BytesMut Buffer.

Section buffer_props.
Context {M : Type} `{!BytesMutOps M} `{!BytesMutLaws M} `{!BufAlloc M}.
Implicit Types (b : Buffer M) (m : M).

Lemma pooled_mut_data b : bm_data (Buffer_pooled_mut b) = inner_data (b_inner b).
Proof.
  unfold Buffer_pooled_mut. destruct (b_inner b) as [m|d]; [done|]. cbn.
  destruct (bm_try_from d) eqn:E; [by apply bm_try_data|].
  by rewrite bm_extend_data, bm_wc_data.
Qed.

Lemma pooled_mut_cap b : Buffer_capacity b <= bm_capacity (Buffer_pooled_mut b).
Proof.
  pose proof (bm_len_cap (Buffer_pooled_mut b)) as H. rewrite pooled_mut_data in H.
  unfold Buffer_capacity, Buffer_pooled_mut in *. destruct (b_inner b); cbn in *; lia.
Qed.

Lemma capacity_ge_len b : zlen (inner_data (b_inner b)) <= Buffer_capacity b.
Proof.
  unfold Buffer_capacity. destruct (b_inner b) as [m|d]; cbn; [apply bm_len_cap|lia].
Qed.

Lemma buffer_free_nonneg b : buffer_ok b -> 0 <= Buffer_free b.
Proof. unfold buffer_ok, Buffer_free. pose proof (capacity_ge_len b). lia. Qed.

Lemma buffer_bytes_len b : buffer_ok b -> zlen (Buffer_bytes b) = Buffer_len b.
Proof. unfold buffer_ok, Buffer_bytes, Buffer_len. intros. zlia. Qed.

Lemma buffer_len_nonneg b : buffer_ok b -> 0 <= Buffer_len b.
Proof. unfold buffer_ok, Buffer_len. lia. Qed.

(** [extend_to] keeps the initialised prefix. *)
Lemma extend_to_spec n m : n <= bm_capacity m -> exists junk,
  bm_data (extend_to n m) = bm_data m ++ junk /\
  zlen (bm_data (extend_to n m)) = Z.max n (bm_len m) /\
  bm_capacity (extend_to n m) = bm_capacity m.
Proof.
  intros Hn. unfold extend_to. destruct (Z.ltb_spec (bm_len m) n) as [Hlt|Hge].
  - destruct (bm_set_len_grow n m) as (junk & -> & Hj); [lia|].
    exists junk. rewrite bm_set_len_cap by done. split; [done|]. split; [zlia|done].
  - exists []. rewrite app_nil_r. split; [done|]. split; [lia|done].
Qed.

(** The one step behind every write: growing to [e + |src|] and copying [src] at
    [e] appends [src] to the window [s..e]. *)
Lemma write_at_end s e src m :
  0 <= s <= e -> e <= bm_len m -> e + zlen src <= bm_capacity m ->
  let m' := bm_copy_at e src (extend_to (e + zlen src) m) in
  (bm_data m')[: s, e + zlen src] = (bm_data m)[: s, e] ++ src /\
  e + zlen src <= bm_len m' /\ bm_capacity m' = bm_capacity m.
Proof.
  intros Hs He Hcap. cbn zeta.
  destruct (extend_to_spec (e + zlen src) m Hcap) as (junk & Hd & Hl & Hc).
  pose proof (zlen_nonneg src).
  rewrite bm_copy_data by lia. rewrite bm_copy_cap by lia.
  split; [|split; [zlia|done]].
  rewrite Hd. rewrite ztake_app_le by lia.
  unfold slice. rewrite zdrop_app_le by zlia.
  rewrite ztake_app_ge by zlia. f_equal.
  - rewrite ztake_drop_comm by lia. f_equal. f_equal. lia.
  - rewrite ztake_app by zlia. done.
Qed.

(** * Writing *)

Lemma write_from_spec src b : buffer_ok b ->
  let '(n, b') := Buffer_write_from src b in
  n = Z.min (zlen src) (Buffer_free b) /\
  Buffer_bytes b' = Buffer_bytes b ++ ztake n src /\
  buffer_ok b' /\ Buffer_free b - n <= Buffer_free b' /\ b_udp b' = b_udp b.
Proof.
  intros Hok. pose proof (buffer_free_nonneg b Hok) as Hf.
  unfold Buffer_write_from. set (n := Z.min (zlen src) (Buffer_free b)).
  pose proof (zlen_nonneg src).
  destruct (Z.eqb_spec n 0) as [E|E].
  { rewrite ztake_le0, app_nil_r by lia. repeat (split; [done||lia|]). done. }
  pose proof (pooled_mut_cap b) as Hcap. pose proof (pooled_mut_data b) as Hd.
  assert (Hn : zlen (ztake n src) = n) by zlia.
  destruct Hok as [? ?]. unfold Buffer_free in *.
  pose proof (write_at_end (b_start b) (b_end b) (ztake n src) (Buffer_pooled_mut b)) as Hw.
  rewrite Hn, Hd in Hw. destruct Hw as (Hw & Hl & Hc); [lia..|].
  split; [done|]. split; [exact Hw|]. split; [split; cbn; lia|].
  split; [|done]. unfold Buffer_capacity at 2. cbn. rewrite Hc. lia.
Qed.

Lemma write_byte_spec v b : buffer_ok b ->
  let '(ok, b') := Buffer_write_byte v b in
  ok = (0 <? Buffer_free b) /\
  Buffer_bytes b' = Buffer_bytes b ++ (if ok then [v] else []) /\
  buffer_ok b' /\ Buffer_free b - 1 <= Buffer_free b' /\ b_udp b' = b_udp b.
Proof.
  intros Hok. pose proof (buffer_free_nonneg b Hok) as Hf.
  unfold Buffer_write_byte. destruct (Z.eqb_spec (Buffer_free b) 0) as [E|E].
  { rewrite E, app_nil_r. repeat (split; [done||lia|]). done. }
  pose proof (pooled_mut_cap b) as Hcap. pose proof (pooled_mut_data b) as Hd.
  destruct Hok as [? ?]. unfold Buffer_free in *.
  pose proof (write_at_end (b_start b) (b_end b) [v] (Buffer_pooled_mut b)) as Hw.
  change (zlen [v]) with 1 in Hw. rewrite Hd in Hw. destruct Hw as (Hw & Hl & Hc); [lia..|].
  split; [zcases; done|]. split; [exact Hw|]. split; [split; cbn; lia|].
  split; [|done]. unfold Buffer_capacity at 2. cbn. rewrite Hc. lia.
Qed.

Lemma put_spec data b : buffer_ok b ->
  Buffer_bytes (Buffer_put data b) = Buffer_bytes b ++ data /\
  buffer_ok (Buffer_put data b) /\ b_udp (Buffer_put data b) = b_udp b.
Proof.
  intros [H1 H2]. unfold Buffer_put. pose proof (zlen_nonneg data).
  destruct (Z.eqb_spec (zlen data) 0) as [E|E].
  { apply Z.eq_le_incl, zlen_zero in E as ->. by rewrite app_nil_r. }
  set (m1 := if _ <? _ then _ else _).
  pose proof (pooled_mut_data b) as Hd.
  assert (exists tail, bm_data m1 = inner_data (b_inner b) ++ tail /\
            b_end b + zlen data <= bm_capacity m1) as (tail & Hm1 & Hc1).
  { unfold m1. destruct (Z.ltb_spec (bm_capacity (Buffer_pooled_mut b)) (b_end b + zlen data)).
    - exists (zrepeat (b_end b + zlen data - bm_len (Buffer_pooled_mut b)) 0).
      pose proof (bm_len_cap (Buffer_pooled_mut b)).
      pose proof (bm_len_cap (bm_resize (b_end b + zlen data) 0 (Buffer_pooled_mut b))) as Hc.
      rewrite bm_resize_data in * by lia.
      rewrite ztake_ge in * by lia. rewrite Hd in *. split; [done|]. zlia.
    - exists []. rewrite app_nil_r. split; [done|lia]. }
  destruct (write_at_end (b_start b) (b_end b) data m1) as (Hw & Hl & _);
    [lia|rewrite Hm1; zlia|done|].
  split; [|split; [split; cbn; lia|done]].
  unfold Buffer_bytes at 1. cbn. rewrite Hw, Hm1.
  unfold Buffer_bytes. rewrite slice_app_l by lia. done.
Qed.

(** [writable_bytes], filling it, [advance_write]: the way a system call writes. *)
Lemma writable_fill_spec src b : buffer_ok b -> zlen src <= Buffer_free b ->
  let '(w, b1) := Buffer_writable_bytes b in
  zlen src <= zlen w /\ buffer_ok b1 /\
  match b_inner b1 with
  | Pooled m =>
      exists b2, Buffer_advance_write (zlen src)
        (mkBuffer (Pooled (bm_copy_at (b_end b1) src m)) (b_start b1) (b_end b1) (b_udp b1)) = Some b2 /\
      Buffer_bytes b2 = Buffer_bytes b ++ src /\ buffer_ok b2 /\ Buffer_free b - zlen src <= Buffer_free b2
  | Frozen _ => False
  end.
Proof.
  intros [H1 H2] Hsrc. unfold Buffer_writable_bytes. cbn.
  set (m1 := if _ <? _ then _ else _). pose proof (zlen_nonneg src).
  pose proof (pooled_mut_data b) as Hd. pose proof (pooled_mut_cap b) as Hcap.
  pose proof (bm_len_cap (Buffer_pooled_mut b)) as Hlc.
  assert (exists junk, bm_data m1 = inner_data (b_inner b) ++ junk /\
    bm_len m1 = bm_capacity m1 /\ bm_capacity m1 = bm_capacity (Buffer_pooled_mut b)) as (junk & Hm & Hl & Hc).
  { unfold m1. destruct (Z.ltb_spec (bm_len (Buffer_pooled_mut b)) (bm_capacity (Buffer_pooled_mut b))).
    - destruct (bm_set_len_grow (bm_capacity (Buffer_pooled_mut b)) (Buffer_pooled_mut b))
        as (junk & Hj & Hlj); [lia|].
      exists junk. rewrite bm_set_len_cap by lia. rewrite Hj, Hd. split; [done|]. split; [rewrite <- Hd; zlia|done].
    - exists []. rewrite app_nil_r, Hd. split; [done|]. rewrite <- Hd. lia. }
  clearbody m1. unfold Buffer_free in Hsrc.
  split; [zlia|]. split; [split; [done|]; cbn; rewrite Hm; zlia|].
  unfold Buffer_advance_write. cbn. rewrite bm_copy_cap by zlia.
  destruct (Z.leb_spec (b_end b + zlen src) (bm_capacity m1)); [|lia].
  assert (He : extend_to (b_end b + zlen src) (bm_copy_at (b_end b) src m1) = bm_copy_at (b_end b) src m1).
  { unfold extend_to. rewrite bm_copy_data by zlia.
    destruct (Z.ltb_spec (zlen (ztake (b_end b) (bm_data m1) ++ src ++ zdrop (b_end b + zlen src) (bm_data m1))) (b_end b + zlen src)); [zlia|done]. }
  destruct (write_at_end (b_start b) (b_end b) src m1) as (Hw & Hl2 & _); [lia|rewrite Hm; zlia|lia|].
  assert (He1 : extend_to (b_end b + zlen src) m1 = m1) by (unfold extend_to; destruct (Z.ltb_spec (bm_len m1) (b_end b + zlen src)); [lia|done]).
  rewrite He1 in *.
  eexists. split; [done|]. unfold Buffer_bytes, Buffer_pooled_mut, buffer_ok, Buffer_free, Buffer_capacity at 2. cbn.
  rewrite He, bm_copy_cap, Hc by zlia. split; [|lia]. rewrite Hw, Hm, slice_app_l by lia. done.
Qed.

(** * Reading, splitting *)

Lemma slice_move s e n (l : bytes) : 0 <= s <= e -> e <= zlen l -> 0 <= n <= e - s ->
  l[: s + n, e] = zdrop n l[: s, e] /\ l[: s, s + n] = ztake n l[: s, e].
Proof.
  intros. unfold slice. split.
  - rewrite (ztake_drop_comm (e - s)) by lia. rewrite zdrop_drop by lia.
    rewrite ztake_drop_comm by lia. f_equal. f_equal. lia.
  - rewrite ztake_take. f_equal. lia.
Qed.

Lemma advance_spec n b : buffer_ok b -> 0 <= n ->
  match Buffer_advance n b with
  | Some b' => n <= zlen (Buffer_bytes b) /\ Buffer_bytes b' = zdrop n (Buffer_bytes b) /\
               buffer_ok b' /\ Buffer_free b' = Buffer_free b
  | None => zlen (Buffer_bytes b) < n
  end.
Proof.
  intros Hok Hn. rewrite (buffer_bytes_len b Hok). unfold Buffer_advance.
  destruct (Z.leb_spec n (Buffer_len b)) as [Hle|]; [|lia].
  destruct Hok as [H1 H2]. unfold Buffer_len in *. split; [done|].
  split; [unfold Buffer_bytes; cbn; apply slice_move; lia|]. split; [split; cbn; lia|done].
Qed.

Lemma read_to_spec n b : buffer_ok b -> 0 <= n ->
  let '(out, b') := Buffer_read_to n b in
  out = ztake n (Buffer_bytes b) /\ Buffer_bytes b' = zdrop n (Buffer_bytes b) /\
  buffer_ok b' /\ Buffer_free b' = Buffer_free b.
Proof.
  intros Hok Hn. unfold Buffer_read_to.
  pose proof (buffer_len_nonneg b Hok). pose proof (buffer_bytes_len b Hok) as Hl.
  destruct Hok as [H1 H2]. split; [|split; [|split; [split; cbn; unfold Buffer_len in *; lia|done]]].
  - rewrite <- Hl. destruct (Z.min_spec (zlen (Buffer_bytes b)) n) as [[? ->]|[? ->]]; [|done].
    by rewrite !ztake_ge by lia.
  - unfold Buffer_bytes at 1. cbn.
    destruct (slice_move (b_start b) (b_end b) (Z.min (Buffer_len b) n) (inner_data (b_inner b)))
      as [-> _]; [lia|lia|unfold Buffer_len in *; lia|].
    fold (Buffer_bytes b). rewrite <- Hl.
    destruct (Z.min_spec (zlen (Buffer_bytes b)) n) as [[? ->]|[? ->]]; [|done].
    by rewrite !zdrop_ge by lia.
Qed.

Lemma read_byte_spec b : buffer_ok b ->
  let '(r, b') := Buffer_read_byte b in
  r = head (Buffer_bytes b) /\ Buffer_bytes b' = tail (Buffer_bytes b) /\
  buffer_ok b' /\ Buffer_free b' = Buffer_free b.
Proof.
  intros Hok. unfold Buffer_read_byte, Buffer_is_empty.
  pose proof (buffer_bytes_len b Hok) as Hl. unfold Buffer_len in Hl.
  destruct (Z.eqb_spec (b_start b) (b_end b)) as [E|E].
  { assert (Buffer_bytes b = []) as -> by (apply zlen_zero; lia). done. }
  destruct Hok as [H1 H2]. unfold Buffer_bytes at 3. cbn.
  destruct (slice_move (b_start b) (b_end b) 1 (inner_data (b_inner b))) as [-> _]; [lia..|].
  fold (Buffer_bytes b). split; [|split; [|split; [split; cbn; lia|done]]];
    destruct (Buffer_bytes b); zlens; try lia; done.
Qed.

Lemma truncate_spec n b : buffer_ok b -> 0 <= n ->
  Buffer_bytes (Buffer_truncate n b) = ztake n (Buffer_bytes b) /\ buffer_ok (Buffer_truncate n b).
Proof.
  intros Hok Hn. unfold Buffer_truncate. pose proof (buffer_bytes_len b Hok) as Hl.
  destruct (Z.ltb_spec n (Buffer_len b)); [|by rewrite ztake_ge by lia].
  destruct Hok as [H1 H2]. unfold Buffer_len in *.
  split; [|split; cbn; lia]. unfold Buffer_bytes; cbn. apply slice_move; lia.
Qed.

Lemma clear_spec b : Buffer_bytes (Buffer_clear b) = [] /\ buffer_ok (Buffer_clear b) /\
  b_udp (Buffer_clear b) = None.
Proof.
  unfold Buffer_clear, buffer_ok, Buffer_bytes.
  destruct (b_inner b); cbn; (split; [by apply ztake_le0|]); (split; [|done]); zlia.
Qed.

Lemma with_capacity_spec n : 0 <= n -> let b := @Buffer_with_capacity M _ n in
  buffer_ok b /\ Buffer_bytes b = [] /\ n <= Buffer_free b.
Proof.
  intros Hn. unfold Buffer_with_capacity, buffer_ok, Buffer_bytes, Buffer_free, Buffer_capacity. cbn.
  rewrite bm_wc_data. pose proof (bm_wc_cap (M:=M) n). split_and!; [lia|lia|zlia|done|lia].
Qed.

Lemma new_spec : Buffer_bytes (@Buffer_new M _ _) = [] /\ buffer_ok (@Buffer_new M _ _) /\
  DEFAULT_SIZE <= Buffer_free (@Buffer_new M _ _).
Proof.
  unfold Buffer_new, Buffer_bytes, buffer_ok, Buffer_free. cbn.
  pose proof (pool_alloc_cap DEFAULT_SIZE). split; [by apply ztake_le0|]. split; [zlia|lia].
Qed.

Lemma drop_read_data s m : 0 <= s <= bm_len m -> bm_data (drop_read s m) = zdrop s (bm_data m).
Proof.
  intros. unfold drop_read. destruct (Z.ltb_spec 0 s); [by apply bm_advance_data|].
  by rewrite zdrop_le0 by lia.
Qed.

Lemma split_to_spec n b : buffer_ok b -> 0 <= n ->
  match Buffer_split_to n b with
  | Some (front, b') =>
      n <= zlen (Buffer_bytes b) /\
      Buffer_bytes front = ztake n (Buffer_bytes b) /\ Buffer_bytes b' = zdrop n (Buffer_bytes b) /\
      buffer_ok front /\ buffer_ok b' /\ b_udp front = None /\ b_udp b' = b_udp b
  | None => zlen (Buffer_bytes b) < n
  end.
Proof.
  intros Hok Hn. rewrite (buffer_bytes_len b Hok). unfold Buffer_split_to.
  destruct (Z.leb_spec n (Buffer_len b)) as [Hle|]; [|lia].
  destruct Hok as [H1 H2]. unfold Buffer_len, Buffer_bytes, buffer_ok in *.
  destruct (slice_move (b_start b) (b_end b) n (inner_data (b_inner b))) as [Hd Ht]; [lia..|].
  destruct (b_inner b) as [m|d]; cbn in *.
  - pose proof (drop_read_data (b_start b) m) as Hdr.
    pose proof (bm_split_front n (drop_read (b_start b) m)) as Hf.
    pose proof (bm_split_rest n (drop_read (b_start b) m)) as Hr.
    rewrite Hdr in Hf, Hr by lia. destruct (bm_split_to n _) as [front rest]. cbn in *.
    rewrite Hf, Hr by zlia. split; [lia|].
    split; [|split; [|split; [|split; [|done]]]].
    + rewrite slice_all by zlia. rewrite <- Ht. unfold slice. f_equal. lia.
    + rewrite <- Hd. unfold slice. rewrite zdrop_le0 by lia. rewrite zdrop_drop by lia. f_equal. lia.
    + zlia.
    + zlia.
  - split; [lia|]. split; [|split; [done|split; [|split; [|done]]]].
    + rewrite slice_all by zlia. done.
    + zlia.
    + zlia.
Qed.

Lemma split_off_is_split_to n b : Buffer_split_off n b = Buffer_split_to n b.
Proof. reflexivity. Qed.

Lemma set_byte_spec i v b : buffer_ok b -> 0 <= i ->
  match Buffer_set_byte i v b with
  | Some b' => i < zlen (Buffer_bytes b) /\
      Buffer_bytes b' = ztake i (Buffer_bytes b) ++ [v] ++ zdrop (i + 1) (Buffer_bytes b) /\ buffer_ok b'
  | None => zlen (Buffer_bytes b) <= i
  end.
Proof.
  intros Hok Hi. rewrite (buffer_bytes_len b Hok). unfold Buffer_set_byte.
  destruct (Z.ltb_spec i (Buffer_len b)) as [Hle|]; [|lia].
  destruct Hok as [H1 H2]. unfold Buffer_len, Buffer_bytes, buffer_ok in *. cbn.
  pose proof (pooled_mut_data b) as Hd. set (d := inner_data (b_inner b)) in *.
  rewrite bm_copy_data, Hd by (rewrite ?Hd; zlia). change (zlen [v]) with 1.
  split; [done|]. split; [|zlia]. unfold slice.
  rewrite zdrop_app_le by zlia. rewrite ztake_app_ge by zlia. f_equal.
  { rewrite ztake_take, ztake_drop_comm by lia. do 2 f_equal. lia. }
  rewrite ztake_app_ge by zlia. f_equal.
  rewrite (ztake_drop_comm (b_end b - b_start b)) by lia. rewrite zdrop_drop by lia.
  rewrite ztake_drop_comm by zlia. f_equal; [lia|f_equal; zlia].
Qed.

(** * Taking the block, growing the window *)

(** What lies behind the write cursor: bytes of the block outside the window. *)
Definition stale_tail b : bytes := zdrop (b_end b) (inner_data (b_inner b)).

Lemma window_then_tail b : buffer_ok b ->
  zdrop (b_start b) (inner_data (b_inner b)) = Buffer_bytes b ++ stale_tail b.
Proof.
  intros [H1 H2]. unfold Buffer_bytes, stale_tail, slice.
  rewrite <- (ztake_drop (b_end b - b_start b) (zdrop (b_start b) _)) at 1. f_equal.
  rewrite zdrop_drop by lia. f_equal. lia.
Qed.

Lemma into_bytes_spec b : buffer_ok b ->
  Buffer_into_bytes b =
    Buffer_bytes b ++ match b_inner b with Pooled _ => stale_tail b | Frozen _ => [] end.
Proof.
  intros Hok. pose proof (window_then_tail b Hok) as Hw. destruct Hok as [H1 H2].
  unfold Buffer_into_bytes. destruct (b_inner b) as [m|d] eqn:E; cbn in *.
  - by rewrite drop_read_data by lia.
  - unfold Buffer_bytes. rewrite E. by rewrite app_nil_r.
Qed.

Lemma resize_spec n b : buffer_ok b -> 0 <= n ->
  let b' := Buffer_resize n b in
  buffer_ok b' /\ zlen (Buffer_bytes b') = n /\
  Buffer_bytes b' =
    if n <=? Buffer_len b then ztake n (Buffer_bytes b)
    else if zlen (inner_data (b_inner b)) <? b_start b + n
    then Buffer_bytes b ++ stale_tail b ++ zrepeat (b_start b + n - zlen (inner_data (b_inner b))) 0
    else Buffer_bytes b ++ zrepeat (n - Buffer_len b) 0.
Proof.
  intros Hok Hn. cbn zeta.
  pose proof (buffer_bytes_len b Hok) as Hbl. pose proof (window_then_tail b Hok) as Hwt.
  assert (Hok' : buffer_ok (Buffer_resize n b)); [|split; [done|]].
  { destruct Hok as [H1 H2]. unfold Buffer_resize, Buffer_len in *.
    pose proof (pooled_mut_data b) as Hd.
    destruct (Z.leb_spec n (b_end b - b_start b)); [split; cbn; lia|].
    split; cbn; [lia|]. destruct (Z.ltb_spec (bm_len (Buffer_pooled_mut b)) (b_end b + (n - (b_end b - b_start b))));
      [rewrite bm_resize_data by lia|rewrite bm_copy_data by zlia]; zlia. }
  assert (Hl : zlen (Buffer_bytes (Buffer_resize n b)) = n); [|split; [done|]].
  { rewrite buffer_bytes_len by done. unfold Buffer_resize, Buffer_len. zcases; cbn; lia. }
  destruct Hok as [H1 H2]. unfold Buffer_resize, Buffer_len in *.
  destruct (Z.leb_spec n (b_end b - b_start b)) as [Hle|Hgt].
  { unfold Buffer_bytes; cbn. apply slice_move; lia. }
  pose proof (pooled_mut_data b) as Hd. rewrite Hd.
  replace (b_end b + (n - (b_end b - b_start b))) with (b_start b + n) by lia.
  unfold Buffer_bytes at 1. destruct (Z.ltb_spec (zlen (inner_data (b_inner b))) (b_start b + n)) as [Hlt|Hge]; cbn.
  - rewrite bm_resize_data, Hd by lia. rewrite (ztake_ge _ (inner_data _)) by lia.
    unfold slice. rewrite zdrop_app_le, Hwt, <- app_assoc by lia.
    apply ztake_ge. pose proof (f_equal zlen Hwt). zlia.
  - rewrite bm_copy_data, Hd by (rewrite ?Hd; zlia).
    unfold Buffer_bytes, slice. rewrite zdrop_app_le by zlia.
    rewrite ztake_app_ge by zlia. f_equal.
    { rewrite ztake_drop_comm by lia. do 2 f_equal. lia. }
    rewrite ztake_app_ge by zlia. rewrite (ztake_le0 _ (zdrop _ _)), app_nil_r by zlia.
    f_equal. lia.
Qed.

(** Taking the block and growing it, exactly.  [into_bytes] of a pooled buffer
    returns the contents followed by whatever initialised bytes lie behind the write
    cursor (a frozen one returns the contents only); [resize] beyond the initialised
    bytes exposes those same bytes before its zeroes, and pads with zeroes alone only
    while it stays within them. *)
Theorem buffer_stale_tail_exposed n b : buffer_ok b -> Buffer_len b < n ->
  Buffer_into_bytes b = Buffer_bytes b ++ match b_inner b with Pooled _ => stale_tail b | Frozen _ => [] end /\
  buffer_ok (Buffer_resize n b) /\ zlen (Buffer_bytes (Buffer_resize n b)) = n /\
  Buffer_bytes (Buffer_resize n b) =
    if zlen (inner_data (b_inner b)) <? b_start b + n
    then Buffer_bytes b ++ stale_tail b ++ zrepeat (b_start b + n - zlen (inner_data (b_inner b))) 0
    else Buffer_bytes b ++ zrepeat (n - Buffer_len b) 0.
Proof.
  intros Hok Hn. split; [by apply into_bytes_spec|].
  destruct (resize_spec n b Hok) as (? & ? & E); [pose proof (buffer_len_nonneg b Hok); lia|].
  destruct (Z.leb_spec n (Buffer_len b)); [lia|]. auto.
Qed.

(** * The abstract byte queue

    What a [Buffer] promises: a queue of bytes with some room left.  A bounded write
    takes exactly what fits, [put] always everything, a read takes from the front,
    and only [advance], [split_to] and [set_byte] can panic. *)

Record queue : Type := mkQueue { q_data : bytes; q_room : Z }.

Inductive buf_op : Type :=
| OpWrite (src : bytes)
| OpWriteByte (v : Z)
| OpPut (src : bytes)
| OpRead (n : Z)
| OpReadByte
| OpAdvance (n : Z)
| OpTruncate (n : Z)
| OpSplitTo (n : Z)
| OpSetByte (i v : Z)
| OpClear.

Inductive buf_ret : Type :=
| RetUnit
| RetCount (n : Z)
| RetBool (ok : bool)
| RetBytes (out : bytes)
| RetByte (r : option Z).

Definition op_ok (op : buf_op) : Prop :=
  match op with
  | OpRead n | OpAdvance n | OpTruncate n | OpSplitTo n | OpSetByte n _ => 0 <= n
  | _ => True
  end.

(** One call on the concrete buffer; [None] is a panic. *)
Definition buf_step (op : buf_op) (b : Buffer M) : option (buf_ret * Buffer M) :=
  match op with
  | OpWrite src => let '(n, b') := Buffer_write_from src b in Some (RetCount n, b')
  | OpWriteByte v => let '(ok, b') := Buffer_write_byte v b in Some (RetBool ok, b')
  | OpPut src => Some (RetUnit, Buffer_put src b)
  | OpRead n => let '(out, b') := Buffer_read_to n b in Some (RetBytes out, b')
  | OpReadByte => let '(r, b') := Buffer_read_byte b in Some (RetByte r, b')
  | OpAdvance n => b' ← Buffer_advance n b; Some (RetUnit, b')
  | OpTruncate n => Some (RetUnit, Buffer_truncate n b)
  | OpSplitTo n => '(front, b') ← Buffer_split_to n b; Some (RetBytes (Buffer_bytes front), b')
  | OpSetByte i v => b' ← Buffer_set_byte i v b; Some (RetUnit, b')
  | OpClear => Some (RetUnit, Buffer_clear b)
  end.

(** The same calls on the abstract queue. *)
Inductive queue_step : buf_op -> queue -> buf_ret -> queue -> Prop :=
| QWrite src q r n r' : n = Z.min (zlen src) r -> r - n <= r' ->
    queue_step (OpWrite src) (mkQueue q r) (RetCount n) (mkQueue (q ++ ztake n src) r')
| QWriteByte v q r r' : 0 < r -> r - 1 <= r' ->
    queue_step (OpWriteByte v) (mkQueue q r) (RetBool true) (mkQueue (q ++ [v]) r')
| QWriteFull v q :
    queue_step (OpWriteByte v) (mkQueue q 0) (RetBool false) (mkQueue q 0)
| QPut src q r r' : 0 <= r' ->
    queue_step (OpPut src) (mkQueue q r) RetUnit (mkQueue (q ++ src) r')
| QRead n q r :
    queue_step (OpRead n) (mkQueue q r) (RetBytes (ztake n q)) (mkQueue (zdrop n q) r)
| QReadByte q r :
    queue_step OpReadByte (mkQueue q r) (RetByte (head q)) (mkQueue (tail q) r)
| QAdvance n q r : n <= zlen q ->
    queue_step (OpAdvance n) (mkQueue q r) RetUnit (mkQueue (zdrop n q) r)
| QTruncate n q r r' : 0 <= r' ->
    queue_step (OpTruncate n) (mkQueue q r) RetUnit (mkQueue (ztake n q) r')
| QSplitTo n q r r' : n <= zlen q -> 0 <= r' ->
    queue_step (OpSplitTo n) (mkQueue q r) (RetBytes (ztake n q)) (mkQueue (zdrop n q) r')
| QSetByte i v q r r' : i < zlen q -> 0 <= r' ->
    queue_step (OpSetByte i v) (mkQueue q r) RetUnit
      (mkQueue (ztake i q ++ [v] ++ zdrop (i + 1) q) r')
| QClear q r r' : 0 <= r' ->
    queue_step OpClear (mkQueue q r) RetUnit (mkQueue [] r').

Definition queue_panics (op : buf_op) (q : queue) : Prop :=
  match op with
  | OpAdvance n | OpSplitTo n => zlen (q_data q) < n
  | OpSetByte i _ => zlen (q_data q) <= i
  | _ => False
  end.

Definition queue_of b : queue := mkQueue (Buffer_bytes b) (Buffer_free b).

Lemma buf_step_refines op b : buffer_ok b -> op_ok op ->
  match buf_step op b with
  | Some (r, b') => queue_step op (queue_of b) r (queue_of b') /\ buffer_ok b'
  | None => queue_panics op (queue_of b)
  end.
Proof.
  intros Hok Hop. unfold queue_of.
  destruct op as [src|v|src|n| |n|n|n|i v|]; unfold buf_step, op_ok, queue_panics in *.
  - pose proof (write_from_spec src b Hok) as H. destruct (Buffer_write_from src b) as [n b'].
    destruct H as (-> & -> & ? & ? & _). split; [by constructor|done].
  - pose proof (write_byte_spec v b Hok) as H. pose proof (buffer_free_nonneg b Hok).
    destruct (Buffer_write_byte v b) as [ok b'] eqn:E. destruct H as (-> & Hb & ? & ? & _).
    destruct (Z.ltb_spec 0 (Buffer_free b)) as [|Hz].
    + rewrite Hb. split; [by constructor|done].
    + assert (Hz' : Buffer_free b = 0) by lia. unfold Buffer_write_byte in E.
      rewrite Hz' in E. cbn in E. simplify_eq. rewrite Hz'. split; [constructor|done].
  - destruct (put_spec src b Hok) as (-> & ? & _). split; [|done].
    constructor. by apply buffer_free_nonneg.
  - pose proof (read_to_spec n b Hok Hop) as H. destruct (Buffer_read_to n b) as [out b'].
    destruct H as (-> & -> & ? & ->). split; [constructor|done].
  - pose proof (read_byte_spec b Hok) as H. destruct (Buffer_read_byte b) as [out b'].
    destruct H as (-> & -> & ? & ->). split; [constructor|done].
  - pose proof (advance_spec n b Hok Hop) as H. destruct (Buffer_advance n b) as [b'|]; cbn; [|done].
    destruct H as (? & -> & ? & ->). split; [by constructor|done].
  - destruct (truncate_spec n b Hok Hop) as (-> & ?). split; [|done].
    constructor. by apply buffer_free_nonneg.
  - pose proof (split_to_spec n b Hok Hop) as H.
    destruct (Buffer_split_to n b) as [[front b']|]; cbn; [|done].
    destruct H as (? & -> & -> & ? & ? & _). split; [|done].
    constructor; [done|by apply buffer_free_nonneg].
  - pose proof (set_byte_spec i v b Hok Hop) as H. destruct (Buffer_set_byte i v b) as [b'|]; cbn; [|done].
    destruct H as (? & -> & ?). split; [|done]. constructor; [done|by apply buffer_free_nonneg].
  - destruct (clear_spec b) as (-> & ? & _). split; [|done].
    constructor. by apply buffer_free_nonneg.
Qed.

(** Whole sequences of calls. *)
Fixpoint buf_run (ops : list buf_op) (b : Buffer M) : list buf_ret * option (Buffer M) :=
  match ops with
  | [] => ([], Some b)
  | op :: ops =>
      match buf_step op b with
      | Some (r, b') => let '(rs, fin) := buf_run ops b' in (r :: rs, fin)
      | None => ([], None)
      end
  end.

Inductive queue_run : list buf_op -> queue -> list buf_ret -> option queue -> Prop :=
| QRnil q : queue_run [] q [] (Some q)
| QRstep op ops q r q' rs fin :
    queue_step op q r q' -> queue_run ops q' rs fin -> queue_run (op :: ops) q (r :: rs) fin
| QRpanic op ops q : queue_panics op q -> queue_run (op :: ops) q [] None.


End buffer_props.
