(* ===== verification/MultiBuffer.v ===== *)
(** [xray-buf/src/multi.rs]: [MultiBuffer], a list of [Buffer]s read and written as
    one byte stream.  Loops over the vector are structural; the two [while] loops
    that allocate take fuel and return [None] when it runs out, which
    [merge_bytes_spec] and [compact_spec] exclude. *)
From stdpp Require Import base tactics option list numbers.
From S2P Require Import Prelude Bytes NetTypes BytesMut Buffer BufferProps.

Section multi.
Context {M : Type} `{!BytesMutOps M} `{!BufAlloc M}.

Record MultiBuffer : Type := MultiBuffer_from_buffers { mb_buffers : list (Buffer M) }.

Definition MultiBuffer_new : MultiBuffer := MultiBuffer_from_buffers [].
Definition MultiBuffer_from_buffer (b : Buffer M) : MultiBuffer := MultiBuffer_from_buffers [b].
Definition MultiBuffer_push (b : Buffer M) (mb : MultiBuffer) : MultiBuffer :=
  MultiBuffer_from_buffers (mb_buffers mb ++ [b]).

(** [self.buffers.iter().map(|b| b.len()).sum()] *)
Definition total_len (bs : list (Buffer M)) : Z := foldr (fun b n => Buffer_len b + n) 0 bs.

Definition MultiBuffer_len (mb : MultiBuffer) : Z := total_len (mb_buffers mb).
Definition MultiBuffer_is_empty (mb : MultiBuffer) : bool :=
  bool_decide (mb_buffers mb = []) || (MultiBuffer_len mb =? 0).
Definition MultiBuffer_buffer_count (mb : MultiBuffer) : Z := zlen (mb_buffers mb).

(** * Splitting *)

(** The counting loop of [split_bytes]: (what remains, whole buffers to take). *)
Fixpoint count_full (bs : list (Buffer M)) (remaining : Z) : Z * nat :=
  match bs with
  | [] => (remaining, O)
  | b :: bs =>
      if remaining <=? Buffer_len b then (remaining, O)
      else let '(r, k) := count_full bs (remaining - Buffer_len b) in (r, S k)
  end.

(** [front.split_to(n)] on the first remaining buffer, pushed to the result. *)
Definition split_front (n : Z) (taken rest : list (Buffer M)) : option (MultiBuffer * MultiBuffer) :=
  match rest with
  | [] => Some (MultiBuffer_from_buffers taken, MultiBuffer_from_buffers [])
  | front :: tl =>
      '(partial, front) ← Buffer_split_to n front;
      Some (MultiBuffer_from_buffers (taken ++ [partial]), MultiBuffer_from_buffers (front :: tl))
  end.

(** (result, self afterwards); [None] if [split_to] panics. *)
Definition MultiBuffer_split_bytes (n : Z) (mb : MultiBuffer) : option (MultiBuffer * MultiBuffer) :=
  if n =? 0 then Some (MultiBuffer_new, mb)
  else
    let '(remaining, k) := count_full (mb_buffers mb) n in
    let taken := take k (mb_buffers mb) in
    let rest := drop k (mb_buffers mb) in
    if 0 <? remaining then split_front remaining taken rest
    else Some (MultiBuffer_from_buffers taken, MultiBuffer_from_buffers rest).

(** [split_first_bytes(dst)]: (the bytes copied, self afterwards). *)
Definition MultiBuffer_split_first_bytes (dst_len : Z) (mb : MultiBuffer) : bytes * MultiBuffer :=
  match mb_buffers mb with
  | [] => ([], mb)
  | first :: tl =>
      let n := Z.min (zlen (Buffer_bytes first)) dst_len in
      (ztake n (Buffer_bytes first), MultiBuffer_from_buffers tl)
  end.

Definition MultiBuffer_split_first (mb : MultiBuffer) : option (Buffer M) * MultiBuffer :=
  match mb_buffers mb with
  | [] => (None, mb)
  | first :: tl => (Some first, MultiBuffer_from_buffers tl)
  end.

(** The counting loop of [split_size]: (bytes accumulated, whole buffers to take). *)
Fixpoint count_upto (bs : list (Buffer M)) (size accumulated : Z) : Z * nat :=
  match bs with
  | [] => (accumulated, O)
  | b :: bs =>
      if size <? accumulated + Buffer_len b then (accumulated, O)
      else let '(a, k) := count_upto bs size (accumulated + Buffer_len b) in (a, S k)
  end.

Definition MultiBuffer_split_size (size : Z) (mb : MultiBuffer) : option (MultiBuffer * MultiBuffer) :=
  if size =? 0 then Some (MultiBuffer_new, mb)
  else
    let '(accumulated, k) := count_upto (mb_buffers mb) size 0 in
    let taken := take k (mb_buffers mb) in
    let rest := drop k (mb_buffers mb) in
    if accumulated <? size then split_front (size - accumulated) taken rest
    else Some (MultiBuffer_from_buffers taken, MultiBuffer_from_buffers rest).

(** * Merging *)

Definition MultiBuffer_merge (other mb : MultiBuffer) : MultiBuffer :=
  MultiBuffer_from_buffers (mb_buffers mb ++ mb_buffers other).

(** [while !remaining.is_empty()]: one fresh buffer per turn. *)
Fixpoint fill_new (fuel : nat) (remaining : bytes) : option (list (Buffer M)) :=
  match remaining, fuel with
  | [], _ => Some []
  | _, O => None
  | _, S fuel =>
      let '(written, buf) := Buffer_write_from remaining Buffer_new in
      bs ← fill_new fuel (zdrop written remaining); Some (buf :: bs)
  end.

(** [self.buffers.last_mut()] *)
Fixpoint write_last (data : bytes) (bs : list (Buffer M)) : bytes * list (Buffer M) :=
  match bs with
  | [] => (data, [])
  | [b] => let '(written, b') := Buffer_write_from data b in (zdrop written data, [b'])
  | b :: bs => let '(rest, bs') := write_last data bs in (rest, b :: bs')
  end.

Definition MultiBuffer_merge_bytes (data : bytes) (mb : MultiBuffer) : option MultiBuffer :=
  if zlen data =? 0 then Some mb
  else
    let '(remaining, bs) := write_last data (mb_buffers mb) in
    new ← fill_new (length remaining) remaining; Some (MultiBuffer_from_buffers (bs ++ new)).

(** The inner [while] of [compact] over one buffer's bytes; the state is
    [(compacted, current)]. *)
Fixpoint compact_one (fuel : nat) (data : bytes) (st : list (Buffer M) * Buffer M)
    : option (list (Buffer M) * Buffer M) :=
  match data, fuel with
  | [], _ => Some st
  | _, O => None
  | _, S fuel =>
      let '(compacted, current) := st in
      let '(written, current) := Buffer_write_from data current in
      let data := zdrop written data in
      if (Buffer_free current =? 0) && (0 <? zlen data)
      then compact_one fuel data (compacted ++ [current], Buffer_new)
      else compact_one fuel data (compacted, current)
  end.

Fixpoint compact_all (bs : list (Buffer M)) (st : list (Buffer M) * Buffer M)
    : option (list (Buffer M) * Buffer M) :=
  match bs with
  | [] => Some st
  | b :: bs =>
      st ← compact_one (S (length (Buffer_bytes b))) (Buffer_bytes b) st; compact_all bs st
  end.

Definition MultiBuffer_release (mb : MultiBuffer) : MultiBuffer := MultiBuffer_new.

Definition MultiBuffer_compact (mb : MultiBuffer) : option MultiBuffer :=
  if zlen (mb_buffers mb) <=? 1 then Some mb
  else if total_len (mb_buffers mb) =? 0 then Some (MultiBuffer_release mb)
  else
    '(compacted, current) ← compact_all (mb_buffers mb) ([], Buffer_new);
    Some (MultiBuffer_from_buffers
            (if Buffer_is_empty current then compacted else compacted ++ [current])).

(** * Reading and copying *)

(** A front buffer that is not emptied has filled [dst], which ends the loop. *)
Fixpoint read_loop (bs : list (Buffer M)) (dst_len : Z) : bytes * list (Buffer M) :=
  match bs with
  | [] => ([], [])
  | front :: tl =>
      if 0 <? dst_len then
        let '(out, front) := Buffer_read_to dst_len front in
        if Buffer_is_empty front then
          let '(out', bs') := read_loop tl (dst_len - zlen out) in (out ++ out', bs')
        else (out, front :: tl)
      else ([], front :: tl)
  end.

Definition MultiBuffer_read_to (dst_len : Z) (mb : MultiBuffer) : bytes * MultiBuffer :=
  let '(out, bs) := read_loop (mb_buffers mb) dst_len in (out, MultiBuffer_from_buffers bs).

Definition MultiBuffer_write_from (src : bytes) (mb : MultiBuffer) : option (Z * MultiBuffer) :=
  mb' ← MultiBuffer_merge_bytes src mb; Some (zlen src, mb').

(** The bytes copied to the front of [dst], of length [dst_len]. *)
Fixpoint copy_loop (bs : list (Buffer M)) (offset dst_len : Z) : bytes :=
  match bs with
  | [] => []
  | b :: bs =>
      let buf_len := Buffer_len b in
      if buf_len <=? offset then copy_loop bs (offset - buf_len) dst_len
      else
        let available := buf_len - offset in
        let to_copy := Z.min available dst_len in
        (Buffer_bytes b)[: offset, offset + to_copy]
        ++ (if dst_len <=? to_copy then [] else copy_loop bs 0 (dst_len - to_copy))
  end.

Definition MultiBuffer_copy_to_slice (offset dst_len : Z) (mb : MultiBuffer) : bytes :=
  copy_loop (mb_buffers mb) offset dst_len.

Definition MultiBuffer_to_vec (mb : MultiBuffer) : bytes :=
  concat (map Buffer_bytes (mb_buffers mb)).

Definition MultiBuffer_into_vec (mb : MultiBuffer) : bytes :=
  concat (map Buffer_bytes (mb_buffers mb)).

(** * The stream it denotes *)

Definition stream (bs : list (Buffer M)) : bytes := concat (map Buffer_bytes bs).
Definition multi_ok (mb : MultiBuffer) : Prop := Forall buffer_ok (mb_buffers mb).

End multi.

Arguments MultiBuffer M : clear implicits.
Arguments stream {M _} bs : simpl never.
Arguments total_len {M} bs : simpl never.
