(* ===== verification/MultiBufferProps.v ===== *)
(** Correctness of [MultiBuffer]: every operation acts on the concatenated byte
    stream as its name says, never panics on well-formed buffers and its loops
    terminate. *)
From stdpp Require Import base tactics option list numbers.
From S2P Require Import Prelude Bytes NetTypes BytesMut Buffer BufferProps MultiBuffer.

Section multi_props.
Context {M : Type} `{!BytesMutOps M} `{!BytesMutLaws M} `{!BufAlloc M}.
Implicit Types (b : Buffer M) (bs : list (Buffer M)) (mb : MultiBuffer M).

Abbreviation mb_stream mb := (stream (mb_buffers mb)).

Lemma stream_nil : stream (@nil (Buffer M)) = [].
Proof. reflexivity. Qed.
Lemma stream_cons b bs : stream (b :: bs) = Buffer_bytes b ++ stream bs.
Proof. reflexivity. Qed.
Lemma stream_app bs1 bs2 : stream (bs1 ++ bs2) = stream bs1 ++ stream bs2.
Proof. unfold stream. by rewrite map_app, concat_app. Qed.
Lemma stream_one b : stream [b] = Buffer_bytes b.
Proof. unfold stream. cbn. by rewrite app_nil_r. Qed.

Lemma total_len_stream bs : Forall buffer_ok bs -> total_len bs = zlen (stream bs).
Proof.
  induction 1 as [|b bs Hb _ IH]; [done|].
  rewrite stream_cons, zlen_app, buffer_bytes_len by done.
  change (total_len (b :: bs)) with (Buffer_len b + total_len bs). lia.
Qed.

(** * Splitting *)

Lemma count_full_spec bs n : Forall buffer_ok bs -> 0 < n ->
  let '(r, k) := count_full bs n in
  0 < r /\ n = r + zlen (stream (take k bs)) /\
  match drop k bs with [] => True | b :: _ => r <= zlen (Buffer_bytes b) end.
Proof.
  intros Hok. revert n. induction Hok as [|b bs Hb _ IH]; intros n Hn; cbn [count_full].
  { cbn [take drop]. rewrite stream_nil. repeat split; [lia|zlia]. }
  rewrite <- (buffer_bytes_len b Hb).
  destruct (Z.leb_spec n (zlen (Buffer_bytes b))) as [|Hlt].
  { cbn [take drop]. rewrite stream_nil. repeat split; [lia|zlia|lia]. }
  specialize (IH (n - zlen (Buffer_bytes b))).
  destruct (count_full bs _) as [r k]. destruct IH as (? & ? & ?); [lia|].
  cbn [take drop]. rewrite stream_cons, zlen_app. repeat split; [lia|lia|done].
Qed.

Lemma count_upto_spec bs size acc : Forall buffer_ok bs -> acc <= size ->
  let '(a, k) := count_upto bs size acc in
  a <= size /\ a = acc + zlen (stream (take k bs)) /\
  match drop k bs with [] => True | b :: _ => size - a < zlen (Buffer_bytes b) end.
Proof.
  intros Hok. revert acc. induction Hok as [|b bs Hb _ IH]; intros acc Ha; cbn [count_upto].
  { cbn [take drop]. rewrite stream_nil. repeat split; [lia|zlia]. }
  rewrite <- (buffer_bytes_len b Hb).
  destruct (Z.ltb_spec size (acc + zlen (Buffer_bytes b))) as [|Hge].
  { cbn [take drop]. rewrite stream_nil. repeat split; [lia|zlia|lia]. }
  specialize (IH (acc + zlen (Buffer_bytes b))).
  destruct (count_upto bs _ _) as [a k]. destruct IH as (? & ? & ?); [lia|].
  cbn [take drop]. rewrite stream_cons, zlen_app. repeat split; [lia|lia|done].
Qed.

Lemma split_front_spec n taken rest : Forall buffer_ok taken -> Forall buffer_ok rest -> 0 <= n ->
  match rest with [] => True | b :: _ => n <= zlen (Buffer_bytes b) end ->
  exists r s, split_front n taken rest = Some (r, s) /\ multi_ok r /\ multi_ok s /\
    mb_stream r = stream taken ++ ztake n (stream rest) /\ mb_stream s = zdrop n (stream rest).
Proof.
  intros Ht Hr Hn Hle. unfold split_front. destruct rest as [|front tl].
  { eexists _, _. split; [done|]. split; [done|]. split; [constructor|]. cbn.
    rewrite stream_nil. unfold ztake, zdrop. by rewrite take_nil, drop_nil, app_nil_r. }
  inversion Hr as [|? ? Hf Htl]; subst. pose proof (split_to_spec n front Hf Hn) as H.
  destruct (Buffer_split_to n front) as [[partial front']|]; [|lia].
  destruct H as (_ & Hp & Hd & Hpo & Hdo & _). cbn.
  eexists _, _. split; [done|]. unfold multi_ok. cbn.
  split; [by apply Forall_app; auto|]. split; [by constructor|].
  rewrite stream_app, stream_one, !stream_cons, Hp, Hd.
  by rewrite ztake_app_le, zdrop_app_le by done.
Qed.

Lemma split_at bs k n r : n = r + zlen (stream (take k bs)) -> 0 <= r ->
  stream (take k bs) ++ ztake r (stream (drop k bs)) = ztake n (stream bs) /\
  zdrop r (stream (drop k bs)) = zdrop n (stream bs).
Proof.
  intros Hn Hr. pose proof (zlen_nonneg (stream (take k bs))).
  assert (Hs : stream bs = stream (take k bs) ++ stream (drop k bs)) by (by rewrite <- stream_app, take_drop).
  rewrite Hs, ztake_app_ge, zdrop_app_ge by lia.
  split; repeat f_equal; lia.
Qed.

Lemma split_bytes_spec n mb : multi_ok mb -> 0 <= n ->
  exists r s, MultiBuffer_split_bytes n mb = Some (r, s) /\ multi_ok r /\ multi_ok s /\
    mb_stream r = ztake n (mb_stream mb) /\ mb_stream s = zdrop n (mb_stream mb).
Proof.
  intros Hok Hn. unfold MultiBuffer_split_bytes.
  destruct (Z.eqb_spec n 0) as [->|Hne].
  { eexists _, _. split; [done|]. split; [constructor|]. split; [done|]. by rewrite ztake_le0, zdrop_le0. }
  pose proof (count_full_spec (mb_buffers mb) n Hok ltac:(lia)) as H.
  destruct (count_full (mb_buffers mb) n) as [r k]. destruct H as (Hr & Hk & Hf).
  destruct (Z.ltb_spec 0 r); [|lia].
  destruct (split_front_spec r (take k (mb_buffers mb)) (drop k (mb_buffers mb)))
    as (a & c & -> & ? & ? & Ha & Hc); [by apply Forall_take|by apply Forall_drop|lia|done|].
  destruct (split_at (mb_buffers mb) k n r Hk) as [E1 E2]; [lia|].
  rewrite E1 in Ha. rewrite E2 in Hc. by eexists _, _.
Qed.

Lemma split_size_spec n mb : multi_ok mb -> 0 <= n ->
  exists r s, MultiBuffer_split_size n mb = Some (r, s) /\ multi_ok r /\ multi_ok s /\
    mb_stream r = ztake n (mb_stream mb) /\ mb_stream s = zdrop n (mb_stream mb).
Proof.
  intros Hok Hn. unfold MultiBuffer_split_size.
  destruct (Z.eqb_spec n 0) as [->|Hne].
  { eexists _, _. split; [done|]. split; [constructor|]. split; [done|]. by rewrite ztake_le0, zdrop_le0. }
  pose proof (count_upto_spec (mb_buffers mb) n 0 Hok Hn) as H.
  destruct (count_upto (mb_buffers mb) n 0) as [a k]. destruct H as (Ha & Hk & Hf).
  assert (Ht : Forall buffer_ok (take k (mb_buffers mb))) by (by apply Forall_take).
  assert (Hd : Forall buffer_ok (drop k (mb_buffers mb))) by (by apply Forall_drop).
  destruct (split_at (mb_buffers mb) k n (n - a)) as [E1 E2]; [lia|lia|].
  destruct (Z.ltb_spec a n).
  - destruct (split_front_spec (n - a) (take k (mb_buffers mb)) (drop k (mb_buffers mb)))
      as (r & c & -> & ? & ? & Hr & Hc); [done|done|lia|destruct (drop k _); [done|lia]|].
    rewrite E1 in Hr. rewrite E2 in Hc. by eexists _, _.
  - replace (n - a) with 0 in * by lia. rewrite ztake_le0, zdrop_le0, app_nil_r in * by lia.
    rewrite <- E1, <- E2. by eexists _, _.
Qed.

(** * Merging *)

Lemma write_new remaining : 0 < zlen remaining ->
  let '(n, b) := Buffer_write_from remaining (@Buffer_new M _ _) in
  0 < n <= zlen remaining /\ Buffer_bytes b = ztake n remaining /\ buffer_ok b.
Proof.
  intros Hl. destruct (new_spec (M:=M)) as (Hb & Hok & Hf).
  pose proof (write_from_spec remaining Buffer_new Hok) as H.
  destruct (Buffer_write_from remaining Buffer_new) as [n b].
  destruct H as (-> & -> & ? & _). rewrite Hb. unfold DEFAULT_SIZE in Hf. split; [lia|]. done.
Qed.

Lemma fill_new_spec fuel remaining : (length remaining <= fuel)%nat ->
  exists bs, fill_new fuel remaining = Some bs /\ stream bs = remaining /\ Forall buffer_ok bs.
Proof.
  revert remaining. induction fuel as [|fuel IH]; intros remaining Hf.
  { destruct remaining; cbn in *; [|lia]. by eexists. }
  destruct remaining as [|x remaining]; [by eexists|]. cbn [fill_new].
  pose proof (write_new (x :: remaining)) as H.
  destruct (Buffer_write_from (x :: remaining) Buffer_new) as [n b].
  destruct H as (Hn & Hb & Hok); [zlia|].
  destruct (IH (zdrop n (x :: remaining))) as (bs & -> & Hs & Hbs).
  { unfold zdrop, zlen in *. rewrite length_drop. lia. }
  cbn. eexists. split; [done|]. split; [|by constructor].
  by rewrite stream_cons, Hb, Hs, ztake_drop.
Qed.

Lemma write_last_spec data bs : Forall buffer_ok bs ->
  let '(rest, bs') := write_last data bs in
  stream bs' ++ rest = stream bs ++ data /\ Forall buffer_ok bs'.
Proof.
  induction 1 as [|b bs Hb Hbs IH]; cbn [write_last]; [done|].
  destruct bs as [|b2 bs].
  - pose proof (write_from_spec data b Hb) as H. destruct (Buffer_write_from data b) as [n b'].
    destruct H as (_ & Hb' & ? & _). rewrite !stream_one, Hb', <- app_assoc, ztake_drop. auto.
  - destruct (write_last data (b2 :: bs)) as [rest bs']. destruct IH as [IH ?].
    rewrite !(stream_cons b), <- !app_assoc, IH. auto.
Qed.

Lemma merge_bytes_spec data mb : multi_ok mb ->
  exists mb', MultiBuffer_merge_bytes data mb = Some mb' /\ multi_ok mb' /\
    mb_stream mb' = mb_stream mb ++ data.
Proof.
  intros Hok. unfold MultiBuffer_merge_bytes.
  destruct (Z.eqb_spec (zlen data) 0) as [E|_].
  { apply Z.eq_le_incl, zlen_zero in E as ->. eexists. rewrite app_nil_r. done. }
  pose proof (write_last_spec data (mb_buffers mb) Hok) as H.
  destruct (write_last data (mb_buffers mb)) as [rest bs]. destruct H as [Hs Hbs].
  destruct (fill_new_spec (length rest) rest) as (new & -> & Hn & Hno); [done|].
  cbn. eexists. split; [done|]. unfold multi_ok. cbn.
  rewrite stream_app, Hn. split; [by apply Forall_app|done].
Qed.

Definition full_ok b : Prop := buffer_ok b /\ Buffer_free b = 0.

Lemma compact_one_spec fuel data compacted current :
  Forall full_ok compacted -> buffer_ok current ->
  (length data + (if (Buffer_free current =? 0)%Z then 1 else 0) <= fuel)%nat ->
  exists compacted' current', compact_one fuel data (compacted, current) = Some (compacted', current') /\
    stream compacted' ++ Buffer_bytes current' = (stream compacted ++ Buffer_bytes current) ++ data /\
    Forall full_ok compacted' /\ buffer_ok current'.
Proof.
  revert data compacted current. induction fuel as [|fuel IH]; intros data compacted current Hc Hok Hf.
  { destruct data; [|cbn in Hf; lia]. eexists _, _. rewrite app_nil_r. done. }
  destruct data as [|x data]; [eexists _, _; rewrite app_nil_r; done|]. cbn [compact_one].
  pose proof (buffer_free_nonneg current Hok) as Hfree.
  pose proof (write_from_spec (x :: data) current Hok) as H.
  destruct (Buffer_write_from (x :: data) current) as [n c1].
  destruct H as (Hn & Hb & Hok1 & Hroom & _). pose proof (zlen_nonneg data).
  assert (Hlen : length (zdrop n (x :: data)) = (S (length data) - Z.to_nat n)%nat)
    by (unfold zdrop; rewrite length_drop; done).
  assert (Heq : (stream compacted ++ Buffer_bytes c1) ++ zdrop n (x :: data) =
                (stream compacted ++ Buffer_bytes current) ++ x :: data).
  { rewrite Hb, <- !app_assoc. do 2 f_equal. by rewrite ztake_drop. }
  autorewrite with zlen in Hn. cbn [length] in Hf.
  destruct (Z.eqb_spec (Buffer_free c1) 0) as [E1|E1]; cbn [andb];
    [destruct (Z.ltb_spec 0 (zlen (zdrop n (x :: data)))) as [Hm|Hm]|].
  - destruct (new_spec (M:=M)) as (Hnb & Hnok & Hnf). unfold DEFAULT_SIZE in Hnf.
    destruct (IH (zdrop n (x :: data)) (compacted ++ [c1]) Buffer_new) as (c' & d' & -> & Hs & ? & ?).
    + apply Forall_app. split; [done|]. constructor; [by split|constructor].
    + done.
    + rewrite Hlen. destruct (Z.eqb_spec (Buffer_free (@Buffer_new M _ _)) 0); [lia|].
      destruct (Z.eqb_spec (Buffer_free current) 0); lia.
    + eexists _, _. split; [done|]. split; [|done].
      rewrite Hs, stream_app, stream_one, Hnb, app_nil_r. done.
  - apply zlen_zero in Hm. rewrite Hm in *. rewrite app_nil_r in Heq.
    exists compacted, c1. rewrite <- Heq. by destruct fuel.
  - destruct (IH (zdrop n (x :: data)) compacted c1 Hc Hok1) as (c' & d' & -> & Hs & ? & ?).
    + rewrite Hlen. destruct (Z.eqb_spec (Buffer_free c1) 0); [lia|].
      destruct (Z.eqb_spec (Buffer_free current) 0); lia.
    + eexists _, _. rewrite Hs, Heq. done.
Qed.

Lemma compact_all_spec bs compacted current :
  Forall buffer_ok bs -> Forall full_ok compacted -> buffer_ok current ->
  exists compacted' current', compact_all bs (compacted, current) = Some (compacted', current') /\
    stream compacted' ++ Buffer_bytes current' = (stream compacted ++ Buffer_bytes current) ++ stream bs /\
    Forall full_ok compacted' /\ buffer_ok current'.
Proof.
  intros Hbs. revert compacted current. induction Hbs as [|b bs Hb _ IH]; intros c d Hc Hd.
  { exists c, d. rewrite stream_nil, app_nil_r. done. }
  cbn [compact_all]. destruct (compact_one_spec (S (length (Buffer_bytes b))) (Buffer_bytes b) c d)
    as (c1 & d1 & -> & Hs & Hc1 & Hd1); [done|done|destruct (Buffer_free d =? 0); lia|].
  cbn. destruct (IH c1 d1 Hc1 Hd1) as (c2 & d2 & -> & Hs2 & ? & ?).
  eexists _, _. rewrite Hs2, Hs, stream_cons, !app_assoc. done.
Qed.

Lemma full_is_ok bs : Forall full_ok bs -> Forall buffer_ok bs.
Proof. apply Forall_impl. by intros b [? _]. Qed.

(** [compact] terminates, keeps the stream, and leaves every buffer but the last
    one full. *)
Lemma compact_spec mb : multi_ok mb ->
  exists mb', MultiBuffer_compact mb = Some mb' /\ multi_ok mb' /\ mb_stream mb' = mb_stream mb /\
    (1 < zlen (mb_buffers mb) ->
     exists full last, mb_buffers mb' = full ++ last /\ Forall full_ok full /\ (length last <= 1)%nat).
Proof.
  intros Hok. unfold MultiBuffer_compact.
  destruct (Z.leb_spec (zlen (mb_buffers mb)) 1); [eexists; split; [done|]; repeat split; [done|lia]|].
  destruct (Z.eqb_spec (total_len (mb_buffers mb)) 0) as [E|_].
  { rewrite total_len_stream in E by done. apply Z.eq_le_incl, zlen_zero in E.
    eexists. split; [done|]. split; [constructor|]. split; [by rewrite E|].
    intros _. exists [], []. split_and!; [done|constructor|cbn; lia]. }
  destruct (new_spec (M:=M)) as (Hnb & Hnok & _).
  destruct (compact_all_spec (mb_buffers mb) [] Buffer_new Hok) as (c & d & -> & Hs & Hc & Hd);
    [constructor|done|]. cbn. rewrite Hnb, stream_nil in Hs. cbn in Hs.
  eexists. split; [done|]. unfold multi_ok. cbn.
  assert (Hcok : Forall buffer_ok c) by (by apply full_is_ok).
  unfold Buffer_is_empty. destruct (Z.eqb_spec (b_start d) (b_end d)) as [E|E].
  - assert (Hd0 : Buffer_bytes d = []) by (apply zlen_zero; rewrite buffer_bytes_len by done; unfold Buffer_len; lia).
    rewrite Hd0, app_nil_r in Hs. split; [done|]. split; [done|]. intros _. exists c, [].
    rewrite app_nil_r. split_and!; [done|done|cbn; lia].
  - rewrite stream_app, stream_one. split; [by apply Forall_app; auto|]. split; [done|].
    intros _. exists c, [d]. split_and!; [done|done|cbn; lia].
Qed.

(** * Reading *)

Lemma read_loop_spec bs n : Forall buffer_ok bs -> 0 <= n ->
  let '(out, bs') := read_loop bs n in
  out = ztake n (stream bs) /\ stream bs' = zdrop n (stream bs) /\ Forall buffer_ok bs'.
Proof.
  intros Hok. revert n. induction Hok as [|b bs Hb Hbs IH]; intros n Hn; cbn [read_loop].
  { rewrite stream_nil. unfold ztake, zdrop. by rewrite take_nil, drop_nil. }
  destruct (Z.ltb_spec 0 n) as [Hpos|].
  2: { rewrite ztake_le0, zdrop_le0 by lia. auto. }
  pose proof (read_to_spec n b Hb Hn) as H. destruct (Buffer_read_to n b) as [out b'].
  destruct H as (Ho & Hb' & Hok' & _). rewrite stream_cons.
  unfold Buffer_is_empty. pose proof (buffer_bytes_len b' Hok') as Hl. unfold Buffer_len in Hl.
  rewrite Hb' in Hl. autorewrite with zlen in Hl. zlen_facts.
  destruct (Z.eqb_spec (b_start b') (b_end b')) as [E|E].
  - assert (zlen (Buffer_bytes b) <= n) by lia.
    rewrite ztake_ge in Ho by lia. subst out.
    specialize (IH (n - zlen (Buffer_bytes b))). destruct (read_loop bs _) as [out' bs'].
    destruct IH as (-> & -> & ?); [lia|]. by rewrite ztake_app_ge, zdrop_app_ge by lia.
  - assert (n < zlen (Buffer_bytes b)) by lia.
    rewrite stream_cons, Hb', ztake_app_le, zdrop_app_le by lia. auto.
Qed.

Lemma read_to_multi_spec n mb : multi_ok mb -> 0 <= n ->
  let '(out, mb') := MultiBuffer_read_to n mb in
  out = ztake n (mb_stream mb) /\ mb_stream mb' = zdrop n (mb_stream mb) /\ multi_ok mb'.
Proof.
  intros Hok Hn. unfold MultiBuffer_read_to. pose proof (read_loop_spec _ _ Hok Hn) as H.
  by destruct (read_loop (mb_buffers mb) n).
Qed.

Lemma copy_loop_spec bs off n : Forall buffer_ok bs -> 0 <= off -> 0 <= n ->
  copy_loop bs off n = (stream bs)[: off, off + n].
Proof.
  intros Hok. revert off n. induction Hok as [|b bs Hb Hbs IH]; intros off n Ho Hn; cbn [copy_loop].
  { rewrite stream_nil. unfold slice, ztake, zdrop. by rewrite drop_nil, take_nil. }
  rewrite <- (buffer_bytes_len b Hb), stream_cons. pose proof (zlen_nonneg (Buffer_bytes b)).
  destruct (Z.leb_spec (zlen (Buffer_bytes b)) off).
  { rewrite slice_app_skip, IH by lia. f_equal. lia. }
  destruct (Z.leb_spec n (Z.min (zlen (Buffer_bytes b) - off) n)).
  { rewrite app_nil_r, Z.min_r, slice_app_l by lia. done. }
  rewrite Z.min_l, IH by lia. unfold slice. rewrite zdrop_app_le, ztake_app_ge, (zdrop_le0 0) by zlia.
  replace (off + n - off) with n by lia. rewrite (ztake_ge (_ + _ - _)) by zlia.
  f_equal. f_equal. zlia.
Qed.

Lemma into_vec_spec mb : MultiBuffer_into_vec mb = MultiBuffer_to_vec mb.
Proof. reflexivity. Qed.

(** Splitting a [MultiBuffer] at [n] bytes, by [split_bytes] or by [split_size],
    never panics and cuts the byte stream at exactly [n] (or at its end): what is
    returned is the first [n] bytes, what stays is the rest, and both are well
    formed. *)
Theorem multibuffer_split_cuts_stream n mb : multi_ok mb -> 0 <= n ->
  (exists r s, MultiBuffer_split_bytes n mb = Some (r, s) /\ multi_ok r /\ multi_ok s /\
     MultiBuffer_to_vec r = ztake n (MultiBuffer_to_vec mb) /\
     MultiBuffer_to_vec s = zdrop n (MultiBuffer_to_vec mb)) /\
  (exists r s, MultiBuffer_split_size n mb = Some (r, s) /\ multi_ok r /\ multi_ok s /\
     MultiBuffer_to_vec r = ztake n (MultiBuffer_to_vec mb) /\
     MultiBuffer_to_vec s = zdrop n (MultiBuffer_to_vec mb)).
Proof. intros Hok Hn. split; [by apply split_bytes_spec|by apply split_size_spec]. Qed.

(** [merge_bytes] and [compact] terminate and are stream operations: the first
    appends its argument, the second keeps the stream while leaving every buffer but
    the last one full. *)
Theorem multibuffer_merge_compact data mb : multi_ok mb ->
  exists mb1 mb2, MultiBuffer_merge_bytes data mb = Some mb1 /\ MultiBuffer_compact mb1 = Some mb2 /\
    MultiBuffer_to_vec mb1 = MultiBuffer_to_vec mb ++ data /\
    MultiBuffer_to_vec mb2 = MultiBuffer_to_vec mb ++ data /\ multi_ok mb2 /\
    (1 < MultiBuffer_buffer_count mb1 ->
     exists full last, mb_buffers mb2 = full ++ last /\ (length last <= 1)%nat /\
       Forall (fun b => Buffer_free b = 0) full).
Proof.
  intros Hok. destruct (merge_bytes_spec data mb Hok) as (mb1 & H1 & Hok1 & Hs1).
  destruct (compact_spec mb1 Hok1) as (mb2 & H2 & Hok2 & Hs2 & Hfull).
  exists mb1, mb2. unfold MultiBuffer_to_vec. fold (stream (mb_buffers mb1)).
  fold (stream (mb_buffers mb2)). fold (stream (mb_buffers mb)). rewrite Hs2, Hs1.
  repeat (split; [done|]). intros Hc. destruct (Hfull Hc) as (full & last & -> & Hf & Hl).
  exists full, last. split; [done|]. split; [done|]. eapply Forall_impl; [|exact Hf]. by intros b [_ ?].
Qed.

(** Reading: [read_to] moves the first [dst.len()] bytes of the stream out, in
    order, and [copy_to_slice] copies the bytes at an offset without moving any. *)
Theorem multibuffer_read_fifo n off mb : multi_ok mb -> 0 <= n -> 0 <= off ->
  (MultiBuffer_read_to n mb).1 = ztake n (MultiBuffer_to_vec mb) /\
  MultiBuffer_to_vec (MultiBuffer_read_to n mb).2 = zdrop n (MultiBuffer_to_vec mb) /\
  multi_ok (MultiBuffer_read_to n mb).2 /\
  MultiBuffer_copy_to_slice off n mb = ztake n (zdrop off (MultiBuffer_to_vec mb)).
Proof.
  intros Hok Hn Ho. pose proof (read_to_multi_spec n mb Hok Hn) as H.
  destruct (MultiBuffer_read_to n mb) as [out mb']. destruct H as (-> & Hs & ?).
  split; [done|]. split; [exact Hs|]. split; [done|].
  unfold MultiBuffer_copy_to_slice. rewrite copy_loop_spec by done.
  unfold slice. f_equal. lia.
Qed.

End multi_props.
