(* ===== verification/AddrCodec.v ===== *)
(** [xray-common/src/protocol/address_parser.rs]: addresses and ports on the wire,
    written into a [Buffer] and parsed from a byte slice. *)
From stdpp Require Import base tactics option list numbers.
From S2P Require Import Prelude Bytes NetTypes BytesMut Buffer BufferProps.

Definition ADDR_TYPE_IPV4 : Z := 1.
Definition ADDR_TYPE_DOMAIN : Z := 2.
Definition ADDR_TYPE_IPV6 : Z := 3.

(** * Writing *)

Section serializer.
Context {M : Type} `{!BytesMutOps M} `{!BufAlloc M}.

Abbreviation write src b := (snd (Buffer_write_from src b)).
Abbreviation put_byte v b := (snd (Buffer_write_byte v b)).

Definition write_address (addr : Address) (buf : Buffer M) : Buffer M :=
  match addr with
  | IPv4 v4 =>
      let buf := put_byte ADDR_TYPE_IPV4 buf in
      write v4 buf
  | Domain domain =>
      let buf := put_byte ADDR_TYPE_DOMAIN buf in
      let len := to_u8 (zlen domain) in
      let buf := put_byte len buf in
      write domain buf
  | IPv6 v6 =>
      let buf := put_byte ADDR_TYPE_IPV6 buf in
      write v6 buf
  end.

Definition write_port_address (port : Port) (addr : Address) (buf : Buffer M) : Buffer M :=
  write_address addr (write (be16 (Port_value port)) buf).

Definition write_address_port (addr : Address) (port : Port) (buf : Buffer M) : Buffer M :=
  write (be16 (Port_value port)) (write_address addr buf).
End serializer.

(** * Parsing *)

(** [data[0]] is read behind the emptiness test. *)
Definition read_address (data : bytes) : option (Address * Z) :=
  if zlen data =? 0 then None
  else if data @ 0 =? ADDR_TYPE_IPV4 then
    if zlen data <? 1 + 4 then None
    else Some (Address_from_ipv4_bytes data[: 1, 5], 5)
  else if data @ 0 =? ADDR_TYPE_DOMAIN then
    if zlen data <? 2 then None
    else
      let domain_len := data @ 1 in
      if zlen data <? 2 + domain_len then None
      else
        let domain_str := data[: 2, 2 + domain_len] in
        if utf8_valid domain_str
        then Some (Address_new_domain domain_str, 2 + domain_len)
        else None
  else if data @ 0 =? ADDR_TYPE_IPV6 then
    if zlen data <? 1 + 16 then None
    else Some (Address_from_ipv6_bytes data[: 1, 17], 17)
  else None.

Definition read_port (data : bytes) : option Port :=
  if zlen data <? 2 then None else Some (Port_new (be_val data[: 0, 2])).

Definition parse_port_address (data : bytes) : option (Port * Address * Z) :=
  port ← read_port data;
  '(addr, addr_len) ← read_address (zdrop 2 data);
  Some (port, addr, 2 + addr_len).

Definition parse_address_port (data : bytes) : option (Address * Port * Z) :=
  '(addr, addr_len) ← read_address data;
  port ← read_port (zdrop addr_len data);
  Some (addr, port, addr_len + 2).

(** * The wire form *)

Definition addr_wire (a : Address) : bytes :=
  match a with
  | IPv4 o => ADDR_TYPE_IPV4 :: o
  | Domain s => ADDR_TYPE_DOMAIN :: to_u8 (zlen s) :: s
  | IPv6 o => ADDR_TYPE_IPV6 :: o
  end.

(** A domain's length fits its one-byte prefix. *)
Definition encodable (a : Address) : Prop :=
  address_ok a /\ match a with Domain s => zlen s <= 255 | _ => True end.

Lemma read_address_wire a rest : encodable a ->
  read_address (addr_wire a ++ rest) = Some (a, zlen (addr_wire a)).
Proof.
  intros [Hok Hlen]. unfold read_address.
  destruct a as [o|o|s]; cbn [addr_wire app]; rewrite byte_at_cons, zlen_cons_eqb0; cbn [Z.eqb ADDR_TYPE_IPV4 ADDR_TYPE_DOMAIN ADDR_TYPE_IPV6 Pos.eqb].
  - destruct Hok as [_ Ho]. zlens. zcase_goal; [zlen_facts; lia|].
    rewrite slice_cons, slice_app_head by zlia. by rewrite Ho.
  - destruct Hok as [_ Ho]. zlens. zcase_goal; [zlen_facts; lia|].
    rewrite slice_cons, slice_app_head by zlia. by rewrite Ho.
  - pose proof (zlen_nonneg s). pose proof (zlen_nonneg rest).
    rewrite to_u8_small by (unfold is_u8; lia).
    change ((ADDR_TYPE_DOMAIN :: zlen s :: s ++ rest) @ 1) with (zlen s).
    zlens. do 2 (zcase_goal; [lia|]).
    rewrite !slice_cons, slice_app_head by lia.
    destruct Hok as [_ ->]. unfold Address_new_domain. do 2 f_equal. lia.
Qed.

Lemma read_address_inv data a n : bytes_ok data -> read_address data = Some (a, n) ->
  encodable a /\ n = zlen (addr_wire a) /\ addr_wire a = ztake n data.
Proof.
  intros Hb. unfold read_address, encodable.
  destruct data as [|t data]; [done|]. rewrite byte_at_cons.
  rewrite zlen_cons_eqb0.
  inversion Hb as [|? ? Ht Hd]; subst.
  assert (Hs : forall k, 0 <= k -> (t :: data)[: 1, 1 + k] = ztake k data /\
                         ztake (1 + k) (t :: data) = t :: ztake k data).
  { intros k Hk. rewrite slice_cons, ztake_cons, slice_0 by lia. split; [|f_equal]; f_equal; lia. }
  destruct (Z.eqb_spec t ADDR_TYPE_IPV4) as [->|_].
  { destruct (Z.ltb_spec (zlen (ADDR_TYPE_IPV4 :: data)) (1 + 4)) as [|Hl]; [done|].
    intros [= <- <-]. destruct (Hs 4) as [E1 E2]; [lia|]. change (1 + 4) with 5 in *. rewrite E1, E2. zlens.
    split; [|split; [cbn; zlia|done]]. unfold address_ok, octets_ok.
    split; [|done]. split; [auto with xray|zlia]. }
  destruct (Z.eqb_spec t ADDR_TYPE_DOMAIN) as [->|_].
  { destruct data as [|l data]; [done|]. inversion Hd as [|? ? Hl Hd']; subst.
    unfold is_u8 in Hl. change ((ADDR_TYPE_DOMAIN :: l :: data) @ 1) with l.
    destruct (Z.ltb_spec (zlen (ADDR_TYPE_DOMAIN :: l :: data)) 2) as [|_]; [done|].
    destruct (Z.ltb_spec (zlen (ADDR_TYPE_DOMAIN :: l :: data)) (2 + l)) as [|Hl2]; [done|].
    rewrite !slice_cons by lia. rewrite slice_0.
    destruct (utf8_valid _) eqn:Hu; [|done]. intros [= <- <-].
    replace (2 + l - 1 - 1) with l in * by lia.
    assert (Hsl : zlen (ztake l data) = l) by zlia. unfold Address_new_domain. cbn [addr_wire address_ok].
    rewrite Hsl, to_u8_small by (unfold is_u8; lia). split; [|split; [zlia|]].
    - split; [split; [auto with xray|done]|lia].
    - rewrite !ztake_cons by lia. do 3 f_equal. lia. }
  destruct (Z.eqb_spec t ADDR_TYPE_IPV6) as [->|_]; [|done].
  destruct (Z.ltb_spec (zlen (ADDR_TYPE_IPV6 :: data)) (1 + 16)) as [|Hl]; [done|].
  intros [= <- <-]. destruct (Hs 16) as [E1 E2]; [lia|]. change (1 + 16) with 17 in *. rewrite E1, E2. zlens.
  split; [|split; [cbn; zlia|done]]. unfold address_ok, octets_ok.
  split; [|done]. split; [auto with xray|zlia].
Qed.

Lemma addr_wire_ok a : address_ok a -> bytes_ok (addr_wire a).
Proof.
  assert (Ht : is_u8 1 /\ is_u8 2 /\ is_u8 3) by (unfold is_u8; lia).
  destruct a as [o|o|s]; cbn [addr_wire address_ok]; intros [H ?];
    constructor; try apply Ht.
  - apply H.
  - apply H.
  - constructor; [auto with xray|exact H].
Qed.

Lemma addr_wire_len_pos a : 1 <= zlen (addr_wire a).
Proof. destruct a; cbn [addr_wire]; zlia. Qed.

Lemma read_port_wire p rest : port_ok p -> read_port (be16 (Port_value p) ++ rest) = Some p.
Proof.
  intros Hp. unfold read_port. zlens. zlen_facts. zcase_goal; [lia|].
  rewrite slice_app_head, be16_val by done. by destruct p.
Qed.

Lemma read_port_inv data p : bytes_ok data -> read_port data = Some p ->
  port_ok p /\ be16 (Port_value p) = ztake 2 data /\ 2 <= zlen data.
Proof.
  intros Hb. unfold read_port. destruct (Z.ltb_spec (zlen data) 2); [done|]. intros [= <-].
  rewrite slice_0. assert (zlen (ztake 2 data) = 2) by zlia. unfold port_ok. cbn [Port_value].
  rewrite be16_of_val by auto with xray. auto with xray.
Qed.

Definition port_addr_wire (p : Port) (a : Address) : bytes := be16 (Port_value p) ++ addr_wire a.

Lemma parse_port_address_wire p a rest : port_ok p -> encodable a ->
  parse_port_address (port_addr_wire p a ++ rest) = Some (p, a, zlen (port_addr_wire p a)).
Proof.
  intros Hp Ha. unfold parse_port_address, port_addr_wire. rewrite <- app_assoc.
  rewrite read_port_wire by done. cbn. rewrite zdrop_app by done.
  rewrite read_address_wire by done. cbn. by rewrite zlen_app.
Qed.

Lemma parse_port_address_inv data p a n : bytes_ok data -> parse_port_address data = Some (p, a, n) ->
  port_ok p /\ encodable a /\ n = zlen (port_addr_wire p a) /\ port_addr_wire p a = ztake n data /\
  n <= zlen data.
Proof.
  intros Hb. unfold parse_port_address.
  destruct (read_port data) as [p'|] eqn:Ep; [|done]. cbn.
  destruct (read_address (zdrop 2 data)) as [[a' k]|] eqn:Ea; [|done]. cbn. intros [= <- <- <-].
  apply read_port_inv in Ep as (Hp & Hw & Hl); [|done].
  apply read_address_inv in Ea as (Ha & -> & Haw); [|auto with xray].
  unfold port_addr_wire. rewrite zlen_app, be16_len. split_and!; [done|done|done| |].
  - pose proof (addr_wire_len_pos a') as Hpos. revert Haw Hpos. generalize (zlen (addr_wire a')).
    intros k Haw Hpos. rewrite Hw, Haw.
    assert (Ht : zlen (ztake 2 data) = 2) by zlia.
    transitivity (ztake (2 + k) (ztake 2 data ++ zdrop 2 data)); [|by rewrite (ztake_drop 2 data)].
    rewrite ztake_app_ge by lia. do 2 f_equal. lia.
  - pose proof (f_equal zlen Haw) as E. autorewrite with zlen in E. pose proof (addr_wire_len_pos a'). lia.
Qed.

Section serializer_props.
Context {M : Type} `{!BytesMutOps M} `{!BytesMutLaws M} `{!BufAlloc M}.
Implicit Types b : Buffer M.

(** A write that fits appends all of its argument. *)
Lemma write_fits src b : buffer_ok b -> zlen src <= Buffer_free b ->
  let b' := (Buffer_write_from src b).2 in
  Buffer_bytes b' = Buffer_bytes b ++ src /\ buffer_ok b' /\ Buffer_free b - zlen src <= Buffer_free b'.
Proof.
  intros Hok Hf. pose proof (write_from_spec src b Hok) as H.
  destruct (Buffer_write_from src b) as [n b']. destruct H as (-> & Hb & ? & ? & _). cbn.
  rewrite Z.min_l in * by lia. rewrite Hb, ztake_ge by lia. auto.
Qed.

Lemma byte_fits v b : buffer_ok b -> 1 <= Buffer_free b ->
  let b' := (Buffer_write_byte v b).2 in
  Buffer_bytes b' = Buffer_bytes b ++ [v] /\ buffer_ok b' /\ Buffer_free b - 1 <= Buffer_free b'.
Proof.
  intros Hok Hf. pose proof (write_byte_spec v b Hok) as H.
  destruct (Buffer_write_byte v b) as [ok b']. destruct H as (-> & Hb & ? & ? & _). cbn.
  destruct (Z.ltb_spec 0 (Buffer_free b)); [auto|lia].
Qed.

Lemma write_address_fits a b : buffer_ok b -> zlen (addr_wire a) <= Buffer_free b ->
  let b' := write_address a b in
  Buffer_bytes b' = Buffer_bytes b ++ addr_wire a /\ buffer_ok b' /\
  Buffer_free b - zlen (addr_wire a) <= Buffer_free b'.
Proof.
  intros Hok Hf. destruct a as [o|o|s]; cbn [addr_wire write_address] in *; zlens; zlen_facts.
  - destruct (byte_fits ADDR_TYPE_IPV4 b Hok) as (E1 & H1 & F1); [lia|].
    destruct (write_fits o _ H1) as (E2 & H2 & F2); [lia|].
    rewrite E2, E1, <- app_assoc. split; [done|]. split; [done|lia].
  - destruct (byte_fits ADDR_TYPE_IPV6 b Hok) as (E1 & H1 & F1); [lia|].
    destruct (write_fits o _ H1) as (E2 & H2 & F2); [lia|].
    rewrite E2, E1, <- app_assoc. split; [done|]. split; [done|lia].
  - destruct (byte_fits ADDR_TYPE_DOMAIN b Hok) as (E1 & H1 & F1); [lia|].
    destruct (byte_fits (to_u8 (zlen s)) _ H1) as (E2 & H2 & F2); [lia|].
    destruct (write_fits s _ H2) as (E3 & H3 & F3); [lia|].
    rewrite E3, E2, E1, <- !app_assoc. split; [done|]. split; [done|lia].
Qed.

Lemma write_port_address_fits p a b : buffer_ok b -> zlen (port_addr_wire p a) <= Buffer_free b ->
  let b' := write_port_address p a b in
  Buffer_bytes b' = Buffer_bytes b ++ port_addr_wire p a /\ buffer_ok b'.
Proof.
  intros Hok Hf. unfold port_addr_wire, write_port_address in *. zlens. zlen_facts.
  destruct (write_fits (be16 (Port_value p)) b Hok) as (E1 & H1 & F1); [zlia|].
  rewrite be16_len in F1. destruct (write_address_fits a _ H1) as (E2 & H2 & _); [lia|].
  rewrite E2, E1, app_assoc. auto.
Qed.

Lemma write_address_port_fits p a b : buffer_ok b -> 2 + zlen (addr_wire a) <= Buffer_free b ->
  let b' := write_address_port a p b in
  Buffer_bytes b' = Buffer_bytes b ++ addr_wire a ++ be16 (Port_value p) /\ buffer_ok b'.
Proof.
  intros Hok Hf. unfold write_address_port.
  destruct (write_address_fits a b Hok) as (E1 & H1 & F1); [lia|].
  destruct (write_fits (be16 (Port_value p)) _ H1) as (E2 & H2 & _); [zlia|].
  rewrite E2, E1, app_assoc. auto.
Qed.

(** the two address formats round-trip through a buffer with room: writing an
    address (a domain of at most 255 bytes) and a port, in either order, then parsing
    what was appended, followed by anything, gives them back with the exact number of
    bytes written. *)
Theorem address_port_roundtrip p a b rest :
  buffer_ok b -> Buffer_bytes b = [] -> port_ok p -> encodable a ->
  2 + zlen (addr_wire a) <= Buffer_free b ->
  let n := 2 + zlen (addr_wire a) in
  parse_port_address (Buffer_bytes (write_port_address p a b) ++ rest) = Some (p, a, n) /\
  parse_address_port (Buffer_bytes (write_address_port a p b) ++ rest) = Some (a, p, n) /\
  zlen (Buffer_bytes (write_port_address p a b)) = n /\
  zlen (Buffer_bytes (write_address_port a p b)) = n.
Proof.
  intros Hok He Hp Ha Hf. cbn zeta.
  destruct (write_port_address_fits p a b Hok) as [E1 _]; [unfold port_addr_wire; zlia|].
  destruct (write_address_port_fits p a b Hok Hf) as [E2 _].
  rewrite E1, E2, He. cbn [app].
  rewrite parse_port_address_wire by done. unfold port_addr_wire, parse_address_port. zlens.
  rewrite <- app_assoc, read_address_wire by done. cbn. rewrite zdrop_app by done.
  rewrite read_port_wire by done. cbn. split_and!; [done| |lia|lia]. do 2 f_equal. lia.
Qed.
End serializer_props.

(** Parsing is canonical: whatever [parse_port_address] accepts is a well-formed
    port and encodable address, and the bytes it consumed are exactly the bytes the
    serializer writes for them. *)
Theorem parse_port_address_canonical data p a n :
  bytes_ok data -> parse_port_address data = Some (p, a, n) ->
  port_ok p /\ encodable a /\ port_addr_wire p a = ztake n data /\ n = zlen (port_addr_wire p a) /\ n <= zlen data.
Proof. intros Hb H. destruct (parse_port_address_inv data p a n Hb H) as (? & ? & ? & ? & ?). auto. Qed.
