(* ===== verification/MuxFrame.v ===== *)
(** [xray-mux/src/frame.rs]: the metadata header of a Mux frame, its wire form, its
    serializer (into a caller's [Vec]) and its parsers (from a slice, or from a
    [Read]). *)
From Stdlib Require Import String List.
From stdpp Require Import base tactics option list numbers.
From S2P Require Import Prelude Bytes NetTypes BytesMut Buffer BufferProps AddrCodec.

(** * Constants and enumerations *)

Definition MAX_METADATA_LEN : Z := 512.
Definition OPTION_DATA : Z := 1.
Definition OPTION_ERROR : Z := 2.

Inductive SessionStatus : Type := StNew | StKeep | StEnd | StKeepAlive.

#[export] Instance SessionStatus_eq_dec : EqDecision SessionStatus.
Proof. solve_decision. Defined.

Definition SessionStatus_from_byte (byte : Z) : option SessionStatus :=
  if byte =? 1 then Some StNew
  else if byte =? 2 then Some StKeep
  else if byte =? 3 then Some StEnd
  else if byte =? 4 then Some StKeepAlive
  else None.

Definition SessionStatus_to_byte (s : SessionStatus) : Z :=
  match s with StNew => 1 | StKeep => 2 | StEnd => 3 | StKeepAlive => 4 end.

Inductive DataType : Type := DtStream | DtPacket.

Definition DataType_from_byte (byte : Z) : option DataType :=
  if byte =? 1 then Some DtStream else if byte =? 2 then Some DtPacket else None.

Definition DataType_to_byte (d : DataType) : Z := match d with DtStream => 1 | DtPacket => 2 end.

Definition DataType_from_network (network : Network) : option DataType :=
  match network with TCP => Some DtStream | UDP => Some DtPacket | Unix => None end.

Inductive TargetNetwork : Type := TnTCP | TnUDP.

#[export] Instance TargetNetwork_eq_dec : EqDecision TargetNetwork.
Proof. solve_decision. Defined.

Definition TargetNetwork_from_byte (byte : Z) : option TargetNetwork :=
  if byte =? 1 then Some TnTCP else if byte =? 2 then Some TnUDP else None.

Definition TargetNetwork_to_byte (t : TargetNetwork) : Z := match t with TnTCP => 1 | TnUDP => 2 end.

Definition TargetNetwork_from_network (network : Network) : option TargetNetwork :=
  match network with TCP => Some TnTCP | UDP => Some TnUDP | Unix => None end.

Definition TargetNetwork_to_network (t : TargetNetwork) : Network :=
  match t with TnTCP => TCP | TnUDP => UDP end.

Inductive MuxError : Type :=
| MetadataTooLong (n : Z)
| InvalidSessionStatus (b : Z)
| InvalidTargetNetwork (b : Z)
| AddressParseFailed
| MuxIo (msg : string)
| InsufficientData (expected actual : Z).

(** * Frame metadata *)

Record FrameMetadata : Type := mkFrame {
  fm_session_id : Z;
  fm_session_status : SessionStatus;
  fm_option : Bitmask;
  fm_target : option Destination;
  fm_source : option Destination;
  fm_local : option Destination;
  fm_global_id : option bytes;
}.

#[export] Instance FrameMetadata_eq_dec : EqDecision FrameMetadata.
Proof. solve_decision. Defined.

Definition FrameMetadata_new (session_id : Z) (st : SessionStatus) (option : Bitmask) : FrameMetadata :=
  mkFrame session_id st option None None None None.

Definition FrameMetadata_new_session (session_id : Z) (target : Destination) : FrameMetadata :=
  mkFrame session_id StNew (Bitmask_set Bitmask_default OPTION_DATA) (Some target) None None None.

Definition FrameMetadata_end_session (session_id : Z) : FrameMetadata :=
  mkFrame session_id StEnd Bitmask_default None None None None.

Definition FrameMetadata_keep_alive (session_id : Z) : FrameMetadata :=
  mkFrame session_id StKeepAlive Bitmask_default None None None None.

Definition FrameMetadata_keep_with_udp_target (session_id : Z) (target : Destination) : FrameMetadata :=
  mkFrame session_id StKeep (Bitmask_set Bitmask_default OPTION_DATA) (Some target) None None None.

Definition FrameMetadata_set_inbound (source local : Destination) (m : FrameMetadata) : FrameMetadata :=
  mkFrame (fm_session_id m) (fm_session_status m) (fm_option m) (fm_target m)
    (Some source) (Some local) (fm_global_id m).

Definition FrameMetadata_set_target (target : Destination) (m : FrameMetadata) : FrameMetadata :=
  mkFrame (fm_session_id m) (fm_session_status m) (fm_option m) (Some target)
    (fm_source m) (fm_local m) (fm_global_id m).

Definition FrameMetadata_set_global_id (id : bytes) (m : FrameMetadata) : FrameMetadata :=
  mkFrame (fm_session_id m) (fm_session_status m) (fm_option m) (fm_target m)
    (fm_source m) (fm_local m) (Some id).

Definition FrameMetadata_set_option (bit : Z) (m : FrameMetadata) : FrameMetadata :=
  mkFrame (fm_session_id m) (fm_session_status m) (Bitmask_set (fm_option m) bit) (fm_target m)
    (fm_source m) (fm_local m) (fm_global_id m).

Definition FrameMetadata_has_data (m : FrameMetadata) : bool := Bitmask_has (fm_option m) OPTION_DATA.
Definition FrameMetadata_has_error (m : FrameMetadata) : bool := Bitmask_has (fm_option m) OPTION_ERROR.

Definition FrameMetadata_is_udp_target (m : FrameMetadata) : bool :=
  match fm_target m with
  | Some t => bool_decide (Destination_network t = UDP)
  | None => false
  end.

(** * Writing into a [Vec<u8>]

    A writer extends the vector and may fail; what was pushed before an error stays
    in the vector, as in the code. *)

Definition vec_writer : Type := bytes -> bytes * result MuxError unit.

Definition vw_push (bs : bytes) : vec_writer := fun out => (out ++ bs, Ok tt).
Definition vw_ok : vec_writer := fun out => (out, Ok tt).
Definition vw_fail (e : MuxError) : vec_writer := fun out => (out, Err e).
Definition vw_seq (w1 w2 : vec_writer) : vec_writer := fun out =>
  match w1 out with
  | (out, Ok _) => w2 out
  | (out, Err e) => (out, Err e)
  end.

Notation "w1 ;;; w2" := (vw_seq w1 w2) (at level 100, w2 at level 200, right associativity) : xray_scope.

Section writing.
Context (M : Type) `{!BytesMutOps M} `{!BufAlloc M}.

(** [Err] carries the domain's length plus 7; the port and address go through an
    exactly sized [Buffer]. *)
Definition write_target_to_vec (target : Destination) : vec_writer :=
  match TargetNetwork_from_network (Destination_network target) with
  | None => vw_fail (MuxIo "unsupported mux target network: Unix")
  | Some net =>
      vw_push [TargetNetwork_to_byte net];;;
      let port_address (addr_wire_len : Z) : vec_writer :=
        let addr_buf := @Buffer_with_capacity M _ (2 + 1 + addr_wire_len) in
        vw_push (Buffer_bytes (write_port_address (Destination_port target) (Destination_address target) addr_buf)) in
      match Destination_address target with
      | IPv4 _ => port_address 4
      | IPv6 _ => port_address 16
      | Domain d =>
          if 255 <? zlen d then vw_fail (MetadataTooLong (4 + 3 + zlen d))
          else port_address (1 + zlen d)
      end
  end.

Definition write_inbound_to_vec (source : Destination) (local : option Destination) : vec_writer :=
  match TargetNetwork_from_network (Destination_network source) with
  | None => vw_ok
  | Some _ =>
      write_target_to_vec source;;;
      match local with
      | Some local =>
          match TargetNetwork_from_network (Destination_network local) with
          | Some _ => write_target_to_vec local
          | None => vw_ok
          end
      | None => vw_ok
      end
  end.

(** The status-dependent part of [write_bytes_into]. *)
Definition write_optional (m : FrameMetadata) : vec_writer :=
  match fm_session_status m with
  | StNew =>
      (match fm_target m with Some target => write_target_to_vec target | None => vw_ok end);;;
      match fm_source m with
      | Some source => write_inbound_to_vec source (fm_local m)
      | None =>
          if FrameMetadata_is_udp_target m then
            match fm_global_id m with Some gid => vw_push gid | None => vw_ok end
          else vw_ok
      end
  | StKeep =>
      match fm_target m with
      | Some target =>
          if bool_decide (Destination_network target = UDP) then write_target_to_vec target else vw_ok
      | None => vw_ok
      end
  | _ => vw_ok
  end.

(** The vector is cleared first; the length is filled in at the end. *)
Definition FrameMetadata_write_bytes_into (m : FrameMetadata) : vec_writer := fun _ =>
  (vw_push [0; 0];;;
   vw_push (write_uint16 (fm_session_id m));;;
   vw_push [SessionStatus_to_byte (fm_session_status m)];;;
   vw_push [Bitmask_bits (fm_option m)];;;
   write_optional m;;;
   fun out =>
     let content_len := zlen out - 2 in
     if MAX_METADATA_LEN <? content_len then (out, Err (MetadataTooLong content_len))
     else (write_uint16 (to_u16 content_len) ++ zdrop 2 out, Ok tt)) [].

Definition FrameMetadata_to_bytes (m : FrameMetadata) : result MuxError bytes :=
  match FrameMetadata_write_bytes_into m [] with
  | (out, Ok _) => Ok out
  | (_, Err e) => Err e
  end.

(** [write_to]: the [Write] object is its state [W] with its [write_all]. *)
Definition FrameMetadata_write_to {W} (write_all : bytes -> W -> result string W)
    (m : FrameMetadata) (writer : W) : result MuxError W :=
  out ← FrameMetadata_to_bytes m;
  match write_all out writer with
  | Ok w => Ok w
  | Err msg => Err (MuxIo msg)
  end.
End writing.

(** * Parsing *)

Definition read_target (data : bytes) : result MuxError (Destination * Z) :=
  if zlen data =? 0 then Err (InsufficientData 1 0)
  else
    net ← ok_or (InvalidTargetNetwork (data @ 0)) (TargetNetwork_from_byte (data @ 0));
    let network := TargetNetwork_to_network net in
    '(port, addr, addr_consumed) ← ok_or AddressParseFailed (parse_port_address (zdrop 1 data));
    Ok (Destination_new addr port network, 1 + addr_consumed).

(** [offset >= data.len() || data[offset] == 0] *)
Definition at_padding (offset : Z) (data : bytes) : bool :=
  (zlen data <=? offset) || (data @ offset =? 0).

Definition set_source (m : FrameMetadata) (source : Destination) : FrameMetadata :=
  mkFrame (fm_session_id m) (fm_session_status m) (fm_option m) (fm_target m)
    (Some source) (fm_local m) (fm_global_id m).
Definition set_local (m : FrameMetadata) (local : Destination) : FrameMetadata :=
  mkFrame (fm_session_id m) (fm_session_status m) (fm_option m) (fm_target m)
    (fm_source m) (Some local) (fm_global_id m).

Definition parse_source_and_local (m : FrameMetadata) (data : bytes) : result MuxError FrameMetadata :=
  let offset := 0 in
  if at_padding offset data then Ok m
  else
    '(source, consumed) ← read_target (zdrop offset data);
    let m := set_source m source in
    let offset := offset + consumed in
    if at_padding offset data then Ok m
    else
      '(local, _) ← read_target (zdrop offset data);
      Ok (set_local m local).

Definition FrameMetadata_parse_body (body : bytes) (read_source_and_local : bool)
    : result MuxError FrameMetadata :=
  if zlen body <? 4 then Err (InsufficientData 4 (zlen body))
  else
    let session_id := be_val body[: 0, 2] in
    session_status ← ok_or (InvalidSessionStatus (body @ 2)) (SessionStatus_from_byte (body @ 2));
    let option := Bitmask_new (body @ 3) in
    let m := FrameMetadata_new session_id session_status option in
    let offset := 4 in
    match session_status with
    | StNew =>
        '(m, offset) ←
          (if offset <? zlen body then
             '(target, consumed) ← read_target (zdrop offset body);
             Ok (FrameMetadata_set_target target m, offset + consumed)
           else Ok (m, offset));
        if read_source_and_local then parse_source_and_local m (zdrop offset body)
        else if FrameMetadata_has_data m && FrameMetadata_is_udp_target m
                && (8 <=? Z.max 0 (zlen body - offset))
        then Ok (FrameMetadata_set_global_id body[: offset, offset + 8] m)
        else Ok m
    | StKeep =>
        if offset <? zlen body then
          if bool_decide (TargetNetwork_from_byte (body @ offset) = Some TnUDP) then
            '(target, _) ← read_target (zdrop offset body);
            Ok (FrameMetadata_set_target target m)
          else Ok m
        else Ok m
    | _ => Ok m
    end.

Definition FrameMetadata_read_from_bytes_impl (data : bytes) (read_source_and_local : bool)
    : result MuxError (FrameMetadata * Z) :=
  if zlen data <? 2 then Err (InsufficientData 2 (zlen data))
  else
    meta_len ← ok_or (InsufficientData 2 (Z.min (zlen data) 2)) (read_uint16 data);
    if MAX_METADATA_LEN <? meta_len then Err (MetadataTooLong meta_len)
    else if zlen data <? 2 + meta_len then Err (InsufficientData (2 + meta_len) (zlen data))
    else
      let body := data[: 2, 2 + meta_len] in
      m ← FrameMetadata_parse_body body read_source_and_local;
      Ok (m, 2 + meta_len).

Definition FrameMetadata_read_from_bytes (data : bytes) : result MuxError (FrameMetadata * Z) :=
  FrameMetadata_read_from_bytes_impl data false.
Definition FrameMetadata_read_from_bytes_with_source (data : bytes) : result MuxError (FrameMetadata * Z) :=
  FrameMetadata_read_from_bytes_impl data true.

(** [read_from]: the [Read] object is its state [R] with its [read_exact]. *)
Definition FrameMetadata_read_from {R} (read_exact : Z -> R -> result string (bytes * R))
    (reader : R) : result MuxError (FrameMetadata * R) :=
  match read_exact 2 reader with
  | Err msg => Err (MuxIo msg)
  | Ok (len_buf, reader) =>
      let meta_len := be_val len_buf in
      if MAX_METADATA_LEN <? meta_len then Err (MetadataTooLong meta_len)
      else
        match read_exact meta_len reader with
        | Err msg => Err (MuxIo msg)
        | Ok (body, reader) =>
            m ← FrameMetadata_parse_body body false; Ok (m, reader)
        end
  end.

(** The standard library's [Read for &[u8]]. *)
Definition slice_read_exact (n : Z) (r : bytes) : result string (bytes * bytes) :=
  if zlen r <? n then Err "failed to fill whole buffer"%string else Ok (ztake n r, zdrop n r).
