(* ===== verification/MuxFrameProps.v ===== *)
(** The Mux frame header: its wire form as a function of the frame, the serializer
    against it (errors included), both round trips, the agreement of the two parsers
    and the stability of parsed frames. *)
From Stdlib Require Import String List.
From stdpp Require Import base tactics option list numbers.
From S2P Require Import Prelude Bytes NetTypes BytesMut Buffer BufferProps AddrCodec MuxFrame.

(** * The wire form *)

Definition target_wire (t : Destination) : bytes :=
  match TargetNetwork_from_network (Destination_network t) with
  | Some net => [TargetNetwork_to_byte net]
  | None => []
  end ++ port_addr_wire (Destination_port t) (Destination_address t).

(** Why a destination cannot be put in a frame. *)
Definition target_fault (t : Destination) : option MuxError :=
  match Destination_network t with
  | Unix => Some (MuxIo "unsupported mux target network: Unix")
  | _ =>
      match Destination_address t with
      | Domain d => if 255 <? zlen d then Some (MetadataTooLong (7 + zlen d)) else None
      | _ => None
      end
  end.

Definition on_wire_network (t : Destination) : bool := negb (bool_decide (Destination_network t = Unix)).

Definition keep_if {A} (p : A -> bool) (o : option A) : option A :=
  match o with Some x => if p x then Some x else None | None => None end.
Definition opt_list {A} (o : option A) : list A := match o with Some x => [x] | None => [] end.

(** The destinations a frame writes, in order, and the global id. *)
Definition written_targets (m : FrameMetadata) : list Destination :=
  match fm_session_status m with
  | StNew =>
      opt_list (fm_target m) ++
      match keep_if on_wire_network (fm_source m) with
      | Some source => source :: opt_list (keep_if on_wire_network (fm_local m))
      | None => []
      end
  | StKeep => opt_list (keep_if Destination_is_udp (fm_target m))
  | _ => []
  end.

Definition written_gid (m : FrameMetadata) : bytes :=
  match fm_session_status m, fm_source m with
  | StNew, None => if FrameMetadata_is_udp_target m then default [] (fm_global_id m) else []
  | _, _ => []
  end.

Definition frame_body (m : FrameMetadata) : bytes :=
  be16 (fm_session_id m) ++ [SessionStatus_to_byte (fm_session_status m)] ++ [Bitmask_bits (fm_option m)]
  ++ concat (map target_wire (written_targets m)) ++ written_gid m.

Definition first_fault (ts : list Destination) : option MuxError := head (omap target_fault ts).

(** * The serializer *)

Section writer.
Context {M : Type} `{!BytesMutOps M} `{!BytesMutLaws M} `{!BufAlloc M}.

Lemma addr_wire_len_exact a n : address_ok a ->
  n = match a with IPv4 _ => 4 | IPv6 _ => 16 | Domain d => 1 + zlen d end ->
  zlen (addr_wire a) = 1 + n.
Proof. intros Ha ->. destruct a; cbn [addr_wire]; [destruct Ha|destruct Ha|]; zlia. Qed.

Lemma write_target_spec t out : destination_ok t ->
  match target_fault t with
  | None => write_target_to_vec M t out = (out ++ target_wire t, Ok tt)
  | Some e => (write_target_to_vec M t out).2 = Err e
  end.
Proof.
  intros [Ha Hp]. unfold target_fault, write_target_to_vec, target_wire.
  assert (Hw : forall n, n = match Destination_address t with IPv4 _ => 4 | IPv6 _ => 16 | Domain d => 1 + zlen d end ->
    Buffer_bytes (write_port_address (Destination_port t) (Destination_address t)
      (@Buffer_with_capacity M _ (2 + 1 + n))) = port_addr_wire (Destination_port t) (Destination_address t)).
  { intros n En. pose proof (addr_wire_len_exact _ n Ha En) as Hl.
    pose proof (zlen_nonneg (addr_wire (Destination_address t))).
    destruct (with_capacity_spec (2 + 1 + n)) as (Hok & He & Hf); [lia|].
    destruct (write_port_address_fits (Destination_port t) (Destination_address t) _ Hok) as [E _].
    - unfold port_addr_wire. zlia.
    - by rewrite E, He. }
  destruct (Destination_network t); cbn [TargetNetwork_from_network]; [| |done];
    destruct (Destination_address t) as [o|o|d]; unfold vw_seq, vw_push, vw_fail;
    try (rewrite <- app_assoc, Hw by done; done);
    zcases; try (rewrite <- app_assoc, Hw by done; done); cbn; do 2 f_equal; lia.
Qed.

(** Sequences of targets. *)
Fixpoint write_targets (ts : list Destination) : vec_writer :=
  match ts with
  | [] => vw_ok
  | t :: ts => write_target_to_vec M t;;; write_targets ts
  end.

Lemma write_targets_spec ts k out : Forall destination_ok ts ->
  match first_fault ts with
  | None => (write_targets ts;;; k) out = k (out ++ concat (map target_wire ts))
  | Some e => ((write_targets ts;;; k) out).2 = Err e
  end.
Proof.
  unfold first_fault. intros Hts. revert out.
  induction Hts as [|t ts Ht _ IH]; intros out; cbn [omap list_omap head write_targets map concat].
  { unfold vw_seq, vw_ok. by rewrite app_nil_r. }
  pose proof (write_target_spec t out Ht) as Hw.
  destruct (target_fault t) as [e|]; cbn [head].
  - unfold vw_seq in *. destruct (write_target_to_vec M t out) as [o r]. cbn in Hw. by rewrite Hw.
  - specialize (IH (out ++ target_wire t)). unfold vw_seq in *. rewrite Hw.
    rewrite <- app_assoc in IH. exact IH.
Qed.
End writer.

(** * Well-formed frames: the ranges the Rust types guarantee *)

Record frame_ok (m : FrameMetadata) : Prop := {
  fok_id : is_u16 (fm_session_id m);
  fok_option : is_u8 (Bitmask_bits (fm_option m));
  fok_target : Forall destination_ok (opt_list (fm_target m));
  fok_source : Forall destination_ok (opt_list (fm_source m));
  fok_local : Forall destination_ok (opt_list (fm_local m));
  fok_gid : Forall (octets_ok 8) (opt_list (fm_global_id m));
}.

Lemma keep_if_ok {A} (p : A -> bool) (P : A -> Prop) o :
  Forall P (opt_list o) -> Forall P (opt_list (keep_if p o)).
Proof. destruct o as [x|]; cbn; [|done]. destruct (p x); [done|constructor]. Qed.

Lemma written_targets_ok m : frame_ok m -> Forall destination_ok (written_targets m).
Proof.
  intros [_ _ Ht Hs Hl _]. unfold written_targets.
  destruct (fm_session_status m); [|by apply keep_if_ok|constructor|constructor].
  apply Forall_app. split; [done|]. pose proof (keep_if_ok on_wire_network _ _ Hs) as Hs'.
  destruct (keep_if on_wire_network (fm_source m)); [|constructor].
  inversion Hs'; subst. constructor; [done|]. by apply keep_if_ok.
Qed.

Lemma on_wire_TargetNetwork t :
  on_wire_network t = match TargetNetwork_from_network (Destination_network t) with Some _ => true | None => false end.
Proof. unfold on_wire_network. by destruct (Destination_network t). Qed.

Section writer_props.
Context {M : Type} `{!BytesMutOps M} `{!BytesMutLaws M} `{!BufAlloc M}.

(** [write_optional] is the sequence of the written targets and the global id. *)
Lemma write_optional_targets m k out :
  (write_optional M m;;; k) out = (write_targets (M:=M) (written_targets m);;; vw_push (written_gid m);;; k) out.
Proof.
  destruct m as [sid st op [t|] src loc gid];
    unfold write_optional, written_targets, written_gid, write_inbound_to_vec,
      FrameMetadata_is_udp_target, Destination_is_udp; cbn [fm_session_status fm_target fm_source fm_local fm_global_id];
    destruct st, src as [s|]; cbn [keep_if];
    repeat first
      [ reflexivity
      | progress (cbn [write_targets opt_list keep_if app]; unfold vw_seq, vw_push, vw_ok)
      | rewrite on_wire_TargetNetwork
      | rewrite app_nil_r
      | match goal with
        | |- context [match write_target_to_vec M ?t ?o with _ => _ end] => destruct (write_target_to_vec M t o) as [? [[]|]]
        | |- context [match TargetNetwork_from_network ?n with _ => _ end] => destruct (TargetNetwork_from_network n)
        | |- context [bool_decide ?P] => destruct (bool_decide P)
        | |- context [match loc with _ => _ end] => destruct loc
        | |- context [match gid with _ => _ end] => destruct gid
        | |- context [keep_if _ loc] => destruct loc
        | |- context [default _ gid] => destruct gid; cbn [default]
        end ].
Qed.

Lemma vw_push_seq bs k out : (vw_push bs;;; k) out = k (out ++ bs).
Proof. reflexivity. Qed.

Lemma frame_to_bytes_exact m : frame_ok m ->
  FrameMetadata_to_bytes M m =
    match first_fault (written_targets m) with
    | Some e => Err e
    | None =>
        if 512 <? zlen (frame_body m) then Err (MetadataTooLong (zlen (frame_body m)))
        else Ok (be16 (zlen (frame_body m)) ++ frame_body m)
    end.
Proof.
  intros Hok. unfold FrameMetadata_to_bytes, FrameMetadata_write_bytes_into.
  rewrite !vw_push_seq, write_optional_targets. cbn [app].
  match goal with |- context [(write_targets _;;; ?k) ?o] =>
    pose proof (write_targets_spec (M:=M) (written_targets m) k o (written_targets_ok m Hok)) as Hw;
    destruct (first_fault (written_targets m)) as [e|];
      [by destruct ((write_targets (written_targets m);;; k) o) as [o' r]; cbn in Hw; subst r|rewrite Hw; clear Hw]
  end.
  rewrite vw_push_seq. unfold write_uint16, MAX_METADATA_LEN.
  match goal with |- context [zlen ?o - 2] => replace o with ([0; 0] ++ frame_body m) end.
  2: { unfold frame_body. cbn [app]. rewrite <- !app_assoc. done. }
  replace (zlen ([0; 0] ++ frame_body m) - 2) with (zlen (frame_body m)) by zlia.
  zcases; [done|]. pose proof (zlen_nonneg (frame_body m)).
  rewrite zdrop_app, to_u16_small by (unfold is_u16; try done; lia). done.
Qed.

(** the serializer is exact: it fails with the error of the first destination it
    has to write that a frame cannot carry (a Unix network, a domain over 255 bytes),
    else with [MetadataTooLong] when the header would exceed 512 bytes, and
    otherwise produces the big-endian length followed by exactly that many bytes of
    the wire form; the caller's vector is overwritten, whatever it held. *)
Theorem mux_frame_to_bytes_exact m scratch : frame_ok m ->
  FrameMetadata_to_bytes M m =
    match first_fault (written_targets m) with
    | Some e => Err e
    | None =>
        if 512 <? zlen (frame_body m) then Err (MetadataTooLong (zlen (frame_body m)))
        else Ok (be16 (zlen (frame_body m)) ++ frame_body m)
    end /\
  FrameMetadata_write_bytes_into M m scratch = FrameMetadata_write_bytes_into M m [].
Proof. intros Hok. split; [by apply frame_to_bytes_exact|done]. Qed.
End writer_props.

(** * The parsers *)

Lemma fault_none_encodable t : destination_ok t -> target_fault t = None ->
  encodable (Destination_address t) /\ port_ok (Destination_port t) /\
  exists net, TargetNetwork_from_network (Destination_network t) = Some net.
Proof.
  intros [Ha Hp] Hf. unfold target_fault, encodable in *.
  destruct (Destination_network t); [| |done];
    (split; [split; [done|]|split; [done|by eexists]]);
    destruct (Destination_address t); try done; zcases_in.
Qed.

Lemma read_target_wire t rest : destination_ok t -> target_fault t = None ->
  read_target (target_wire t ++ rest) = Ok (t, zlen (target_wire t)).
Proof.
  intros Hok Hf. destruct (fault_none_encodable t Hok Hf) as (Ha & Hp & net & Hn).
  unfold read_target, target_wire. rewrite Hn, <- !app_assoc. cbn [app].
  rewrite zlen_cons_eqb0, byte_at_cons.
  replace (TargetNetwork_from_byte (TargetNetwork_to_byte net)) with (Some net) by by destruct net.
  cbn. rewrite zdrop_1_cons, parse_port_address_wire by done. cbn.
  do 2 f_equal; [|zlia].
  destruct t as [ad po nw]; cbn in *. f_equal. by destruct nw, net.
Qed.

Lemma target_wire_head t : target_fault t = None -> exists b w, target_wire t = b :: w /\
  TargetNetwork_from_network (Destination_network t) = TargetNetwork_from_byte b /\ b <> 0.
Proof.
  unfold target_fault, target_wire. destruct (Destination_network t); [| |done]; intros _; cbn [TargetNetwork_from_network app];
    eexists _, _; (split; [reflexivity|]); by cbn.
Qed.

(** The parser after the four fixed bytes, on what follows them. *)
Definition parse_tail (m : FrameMetadata) (tl : bytes) (src : bool) : result MuxError FrameMetadata :=
  match fm_session_status m with
  | StNew =>
      '(m, k) ←
        (if 0 <? zlen tl then
           '(target, consumed) ← read_target tl; Ok (FrameMetadata_set_target target m, consumed)
         else Ok (m, 0));
      if src then parse_source_and_local m (zdrop k tl)
      else if FrameMetadata_has_data m && FrameMetadata_is_udp_target m && (8 <=? zlen tl - k)
      then Ok (FrameMetadata_set_global_id tl[: k, k + 8] m)
      else Ok m
  | StKeep =>
      if 0 <? zlen tl then
        if bool_decide (TargetNetwork_from_byte (tl @ 0) = Some TnUDP) then
          '(target, _) ← read_target tl; Ok (FrameMetadata_set_target target m)
        else Ok m
      else Ok m
  | _ => Ok m
  end.

Lemma read_target_consumed data t n : read_target data = Ok (t, n) -> bytes_ok data ->
  destination_ok t /\ target_fault t = None /\ n = zlen (target_wire t) /\ target_wire t = ztake n data /\
  n <= zlen data /\ 0 < n.
Proof.
  unfold read_target. intros H Hb. destruct data as [|b data]; [done|].
  rewrite zlen_cons_eqb0, byte_at_cons in H.
  destruct (TargetNetwork_from_byte b) as [net|] eqn:En; [|done]. cbn in H.
  destruct (parse_port_address (zdrop 1 (b :: data))) as [[[p a] k]|] eqn:Ep; [|done].
  cbn in H. simplify_eq. rewrite zdrop_1_cons in Ep.
  inversion Hb; subst.
  apply parse_port_address_inv in Ep as (Hp & Ha & -> & Hw & Hl); [|done].
  assert (Hnet : TargetNetwork_from_network (TargetNetwork_to_network net) = Some net) by by destruct net.
  assert (Hbyte : TargetNetwork_to_byte net = b).
  { unfold TargetNetwork_from_byte in En. destruct net; zcases_in; by simplify_eq. }
  unfold target_wire, target_fault, destination_ok. cbn [Destination_network Destination_address Destination_port].
  rewrite Hnet, Hbyte. zlens. zlen_facts. cbn [app]. destruct Ha as [Ha Hd].
  split_and!; [done|done| |lia| |lia|lia].
  - destruct net; cbn; destruct a; try done; by zcases.
  - rewrite ztake_cons by lia. f_equal. rewrite Hw at 1. f_equal. lia.
Qed.

Lemma parse_body_tail id st op tl src : is_u16 id -> bytes_ok tl ->
  FrameMetadata_parse_body (be16 id ++ [st] ++ [op] ++ tl) src =
    match SessionStatus_from_byte st with
    | Some s => parse_tail (FrameMetadata_new id s (Bitmask_new op)) tl src
    | None => Err (InvalidSessionStatus st)
    end.
Proof.
  intros Hid Htl. unfold FrameMetadata_parse_body, parse_tail. set (body := be16 id ++ _).
  assert (Hl : zlen body = 4 + zlen tl) by (unfold body; zlia).
  assert (Hd : forall k, 0 <= k -> zdrop (4 + k) body = zdrop k tl).
  { intros k Hk. unfold body. rewrite zdrop_app_ge by zlia. rewrite !app_assoc, zdrop_app_ge by zlia.
    f_equal. zlia. }
  assert (Hs : forall k, 0 <= k -> body[: 4 + k, 4 + k + 8] = tl[: k, k + 8]).
  { intros k Hk. unfold slice. rewrite Hd by done. f_equal. lia. }
  change (body @ 4) with (tl @ 0). change (body @ 2) with st. change (body @ 3) with op.
  replace (be_val body[: 0, 2]) with id by (unfold body; rewrite slice_app_head, be16_val by done; done).
  pose proof (zlen_nonneg tl). rewrite Hl. zcase_goal; [lia|].
  pose proof (Hd 0 (Z.le_refl 0)) as Hd0. rewrite (zdrop_le0 0) in Hd0 by lia. change (4 + 0) with 4 in Hd0.
  replace (4 <? 4 + zlen tl) with (0 <? zlen tl) by (zcases; lia). rewrite Hd0.
  destruct (SessionStatus_from_byte st) as [[]|]; cbn; try done.
  destruct (Z.ltb_spec 0 (zlen tl)).
  - destruct (read_target tl) as [[t k]|e] eqn:Er; [|done]. cbn.
    apply read_target_consumed in Er as (_ & _ & _ & _ & ? & ?); [|done].
    rewrite Hd, Hs, Z.max_r by lia. replace (4 + zlen tl - (4 + k)) with (zlen tl - k) by lia. done.
  - replace tl with (@nil Z) in * by (symmetry; apply zlen_zero; lia). unfold mbind, result_bind.
    rewrite Hd0, (zdrop_le0 0) by lia. destruct src; [done|].
    unfold FrameMetadata_is_udp_target. cbn. by rewrite !andb_false_r.
Qed.

(** * What a parser sees of a serialized frame *)

Definition plain_view (m : FrameMetadata) : FrameMetadata :=
  let hdr := FrameMetadata_new (fm_session_id m) (fm_session_status m) (fm_option m) in
  match fm_session_status m with
  | StNew =>
      mkFrame (fm_session_id m) StNew (fm_option m) (fm_target m) None None
        (if FrameMetadata_has_data m && FrameMetadata_is_udp_target m then fm_global_id m else None)
  | StKeep =>
      match keep_if Destination_is_udp (fm_target m) with
      | Some t => FrameMetadata_set_target t hdr
      | None => hdr
      end
  | _ => hdr
  end.

Definition reverse_view (m : FrameMetadata) : FrameMetadata :=
  match fm_session_status m with
  | StNew =>
      let source := keep_if on_wire_network (fm_source m) in
      mkFrame (fm_session_id m) StNew (fm_option m) (fm_target m) source
        (match source with Some _ => keep_if on_wire_network (fm_local m) | None => None end) None
  | _ => plain_view m
  end.

Lemma first_fault_cons t ts : first_fault (t :: ts) = None -> target_fault t = None /\ first_fault ts = None.
Proof. unfold first_fault. cbn. by destruct (target_fault t). Qed.

Lemma target_wire_pos t : 0 < zlen (target_wire t).
Proof. unfold target_wire, port_addr_wire. zlia. Qed.

Lemma target_wire_pad t rest : target_fault t = None -> at_padding 0 (target_wire t ++ rest) = false.
Proof.
  intros Hf. destruct (target_wire_head t Hf) as (b & w & -> & _ & Hb). unfold at_padding. cbn [app].
  rewrite byte_at_cons. destruct (Z.leb_spec (zlen (b :: w ++ rest)) 0); [zlia|]. by apply Z.eqb_neq.
Qed.

Lemma at_padding_shift n l k : n = zlen l -> at_padding n (l ++ k) = at_padding 0 k.
Proof.
  intros ->. unfold at_padding. rewrite byte_at_skip, Z.sub_diag by lia. f_equal. zcases; zlia.
Qed.

Lemma keep_udp_fault o : first_fault (opt_list (keep_if Destination_is_udp o)) = None ->
  match keep_if Destination_is_udp o with Some t => target_fault t = None | None => True end.
Proof. destruct (keep_if _ o); [|done]. by intros [? _]%first_fault_cons. Qed.

(** The two parsers after the fixed bytes, on the status-dependent part. *)
Lemma parse_tail_keep m src : frame_ok m -> fm_session_status m = StKeep ->
  first_fault (written_targets m) = None ->
  parse_tail (FrameMetadata_new (fm_session_id m) StKeep (fm_option m))
    (concat (map target_wire (written_targets m)) ++ written_gid m) src = Ok (plain_view m).
Proof.
  intros Hok Hst. pose proof (keep_if_ok Destination_is_udp _ _ (fok_target _ Hok)) as Ht.
  unfold written_targets, written_gid, plain_view, parse_tail. rewrite Hst. intros Hf%keep_udp_fault.
  cbn [FrameMetadata_new fm_session_status].
  destruct (keep_if Destination_is_udp (fm_target m)) as [t|] eqn:Ek; [|done].
  inversion Ht; subst. cbn [opt_list map concat]. rewrite !app_nil_r.
  destruct (target_wire_head t Hf) as (b & w & Hw & Hn & _). pose proof (target_wire_pos t).
  zcase_goal; [|lia]. rewrite bool_decide_true.
  - pose proof (read_target_wire t []) as Hr. rewrite app_nil_r in Hr. by rewrite Hr by done.
  - rewrite Hw. cbn [byte_at nth Z.to_nat]. change ((b :: w) @ 0) with b. rewrite <- Hn.
    destruct (fm_target m) as [t'|]; cbn in Ek; [|done]. unfold Destination_is_udp in Ek.
    case_bool_decide as E; [|done]. simplify_eq. by rewrite E.
Qed.

Lemma parse_tail_plain m : frame_ok m -> fm_session_status m = StNew -> fm_source m = None ->
  first_fault (written_targets m) = None ->
  parse_tail (FrameMetadata_new (fm_session_id m) StNew (fm_option m))
    (concat (map target_wire (written_targets m)) ++ written_gid m) false = Ok (plain_view m).
Proof.
  intros Hok Hst Hsrc. pose proof (fok_target _ Hok) as Ht. pose proof (fok_gid _ Hok) as Hg.
  clear Hok. destruct m as [sid st op tg sr loc gid].
  cbn [fm_session_status fm_source fm_target fm_global_id] in *. subst.
  unfold written_targets, written_gid, plain_view, parse_tail, FrameMetadata_is_udp_target, FrameMetadata_has_data.
  cbn [fm_session_id fm_session_status fm_source fm_target fm_option fm_global_id FrameMetadata_new
       FrameMetadata_set_target keep_if]. rewrite app_nil_r.
  destruct tg as [t|]; cbn [opt_list map concat] in *.
  - intros [Hf _]%first_fault_cons. inversion Ht; subst. rewrite app_nil_r.
    pose proof (target_wire_pos t). zlens. zlen_facts. zcase_goal; [|lia].
    rewrite read_target_wire by done. unfold mbind, result_bind.
    cbn [FrameMetadata_new FrameMetadata_set_target fm_target fm_option].
    rewrite Z.add_simpl_l, slice_app_skip, Z.sub_diag, Z.add_simpl_l by lia.
    destruct (Bitmask_has op OPTION_DATA), (bool_decide (Destination_network t = UDP)); cbn [andb]; try done.
    destruct gid as [g|]; cbn [default]; [|done].
    inversion Hg as [|? ? [_ Hgl]]; subst. unfold id. by rewrite Hgl, slice_all by done.
  - intros _. unfold mbind, result_bind. replace (0 <? _) with false by done. cbn. by rewrite !andb_false_r.
Qed.

Lemma parse_source_local_wire m m0 : frame_ok m -> fm_source m0 = None -> fm_local m0 = None ->
  let source := keep_if on_wire_network (fm_source m) in
  let ts := match source with Some s => s :: opt_list (keep_if on_wire_network (fm_local m)) | None => [] end in
  first_fault ts = None ->
  parse_source_and_local m0 (concat (map target_wire ts)) =
    Ok (mkFrame (fm_session_id m0) (fm_session_status m0) (fm_option m0) (fm_target m0) source
          (match source with Some _ => keep_if on_wire_network (fm_local m) | None => None end) (fm_global_id m0)).
Proof.
  intros Hok Hs0 Hl0. pose proof (keep_if_ok on_wire_network _ _ (fok_source _ Hok)) as Hs.
  pose proof (keep_if_ok on_wire_network _ _ (fok_local _ Hok)) as Hl. cbn zeta.
  unfold parse_source_and_local. destruct m0 as [sid st op tg s0 l0 g0]; cbn in Hs0, Hl0; subst.
  destruct (keep_if on_wire_network (fm_source m)) as [s|]; [|done]. cbn [map concat opt_list] in *.
  intros [Hf Hfl]%first_fault_cons. inversion Hs; subst.
  rewrite target_wire_pad, (zdrop_le0 0), read_target_wire by done. unfold mbind, result_bind.
  rewrite Z.add_0_l, at_padding_shift, zdrop_app by done.
  destruct (keep_if on_wire_network (fm_local m)) as [l|]; [|done]. cbn [map concat opt_list] in *.
  apply first_fault_cons in Hfl as [Hfl _]. inversion Hl; subst.
  by rewrite target_wire_pad, read_target_wire by done.
Qed.

Lemma parse_tail_reverse m : frame_ok m -> fm_session_status m = StNew ->
  (is_Some (fm_source m) -> is_Some (fm_target m)) -> (fm_source m = None -> written_gid m = []) ->
  first_fault (written_targets m) = None ->
  parse_tail (FrameMetadata_new (fm_session_id m) StNew (fm_option m))
    (concat (map target_wire (written_targets m)) ++ written_gid m) true = Ok (reverse_view m).
Proof.
  intros Hok Hst Hsrc Hgid. pose proof (fok_target _ Hok) as Ht.
  assert (Hg : written_gid m = []).
  { destruct (fm_source m) eqn:E; [|by apply Hgid]. unfold written_gid. by rewrite Hst, E. }
  rewrite Hg, app_nil_r. unfold written_targets, reverse_view, parse_tail. rewrite Hst.
  cbn [FrameMetadata_new fm_session_status].
  destruct (fm_target m) as [t|]; cbn [opt_list map concat app].
  - intros [Hf Hfs]%first_fault_cons. inversion Ht; subst. pose proof (target_wire_pos t).
    zlens. zlen_facts. zcase_goal; [|lia].
    rewrite read_target_wire by done. unfold mbind, result_bind. rewrite zdrop_app by done.
    by rewrite (parse_source_local_wire m) by done.
  - intros _. destruct (fm_source m) as [s|]; [|done].
    destruct Hsrc as [? ?]; [by eexists|done].
Qed.

Lemma frame_tail_ok m : frame_ok m -> bytes_ok (concat (map target_wire (written_targets m)) ++ written_gid m).
Proof.
  intros Hok. apply Forall_app. split.
  - pose proof (written_targets_ok m Hok) as Hts. induction Hts as [|t ts [Ha Hp] _ IH]; [constructor|].
    cbn [map concat]. apply Forall_app. split; [|done]. unfold target_wire, port_addr_wire.
    apply Forall_app. split; [|apply Forall_app; split; [unfold be16; auto with xray|by apply addr_wire_ok]].
    destruct (TargetNetwork_from_network _) as [[]|]; repeat constructor; cbn; lia.
  - unfold written_gid. destruct (fm_session_status m), (fm_source m); try constructor.
    destruct (FrameMetadata_is_udp_target m); [|constructor].
    pose proof (fok_gid _ Hok) as Hg. destruct (fm_global_id m); [|constructor].
    by inversion Hg as [|? ? [? _]].
Qed.

(** Reading a serialized header: the length prefix selects exactly the body. *)
Lemma read_impl_wire body rest src : bytes_ok body -> zlen body <= 512 ->
  FrameMetadata_read_from_bytes_impl ((be16 (zlen body) ++ body) ++ rest) src =
    match FrameMetadata_parse_body body src with
    | Ok m => Ok (m, zlen (be16 (zlen body) ++ body))
    | Err e => Err e
    end.
Proof.
  intros Hb Hl. unfold FrameMetadata_read_from_bytes_impl, MAX_METADATA_LEN. rewrite <- app_assoc.
  change read_uint16 with read_uint16. fold (write_uint16 (zlen body)).
  zlen_facts. rewrite read_write_uint16 by (unfold is_u16; lia). cbn [ok_or].
  unfold mbind, result_bind, write_uint16. zlens.
  do 3 (zcase_goal; [zlen_facts; lia|]).
  rewrite slice_app_skip by done. rewrite be16_len.
  rewrite slice_app_head by lia. by destruct (FrameMetadata_parse_body body src).
Qed.

Lemma SessionStatus_roundtrip s : SessionStatus_from_byte (SessionStatus_to_byte s) = Some s.
Proof. by destruct s. Qed.

Lemma SessionStatus_inv b s : SessionStatus_from_byte b = Some s -> SessionStatus_to_byte s = b.
Proof. unfold SessionStatus_from_byte. intros H. zcases_in; by simplify_eq. Qed.

Lemma frame_body_ok m : frame_ok m -> bytes_ok (frame_body m).
Proof.
  intros Hok. unfold frame_body. apply Forall_app. split; [unfold be16; auto with xray|].
  repeat (apply Forall_app; split); try apply frame_tail_ok; try done.
  - constructor; [|constructor]. destruct (fm_session_status m); cbn; unfold is_u8; lia.
  - constructor; [by apply Hok|constructor].
  - pose proof (frame_tail_ok m Hok) as H. by apply Forall_app in H as [? _].
  - pose proof (frame_tail_ok m Hok) as H. by apply Forall_app in H as [_ ?].
Qed.

(** The parser of the body on a serialized body. *)
Lemma parse_frame_body m src v : frame_ok m ->
  parse_tail (FrameMetadata_new (fm_session_id m) (fm_session_status m) (fm_option m))
    (concat (map target_wire (written_targets m)) ++ written_gid m) src = Ok v ->
  FrameMetadata_parse_body (frame_body m) src = Ok v.
Proof.
  intros Hok Hv. unfold frame_body. rewrite parse_body_tail by (try apply Hok; by apply frame_tail_ok).
  rewrite SessionStatus_roundtrip. by destruct (fm_option m).
Qed.

Lemma parse_body_plain m : frame_ok m -> (fm_session_status m = StNew -> fm_source m = None) ->
  first_fault (written_targets m) = None ->
  FrameMetadata_parse_body (frame_body m) false = Ok (plain_view m).
Proof.
  intros Hok Hsrc Hf. apply parse_frame_body; [done|].
  destruct (fm_session_status m) eqn:Hst.
  - by apply parse_tail_plain; auto.
  - by apply parse_tail_keep.
  - unfold plain_view. by rewrite Hst.
  - unfold plain_view. by rewrite Hst.
Qed.

Lemma parse_body_reverse m : frame_ok m ->
  (fm_session_status m = StNew -> is_Some (fm_source m) -> is_Some (fm_target m)) ->
  (fm_source m = None -> written_gid m = []) -> first_fault (written_targets m) = None ->
  FrameMetadata_parse_body (frame_body m) true = Ok (reverse_view m).
Proof.
  intros Hok Hsrc Hg Hf. apply parse_frame_body; [done|].
  destruct (fm_session_status m) eqn:Hst.
  - by apply parse_tail_reverse; auto.
  - rewrite parse_tail_keep by done. unfold reverse_view. by rewrite Hst.
  - unfold reverse_view, plain_view. by rewrite Hst.
  - unfold reverse_view, plain_view. by rewrite Hst.
Qed.

(** What a parsed body is. *)
Lemma set_target_ok t id st op : is_u16 id -> is_u8 op -> destination_ok t ->
  frame_ok (FrameMetadata_set_target t (FrameMetadata_new id st (Bitmask_new op))).
Proof. intros. split; cbn; auto using Forall_cons_2, Forall_nil_2. Qed.

Lemma hdr_ok id st op : is_u16 id -> is_u8 op -> frame_ok (FrameMetadata_new id st (Bitmask_new op)).
Proof. intros. split; cbn; auto. Qed.

Definition parsed_shape (m : FrameMetadata) (tl : bytes) : Prop :=
  frame_ok m /\ fm_source m = None /\ first_fault (written_targets m) = None /\ plain_view m = m /\
  zlen (concat (map target_wire (written_targets m)) ++ written_gid m) <= zlen tl.

Lemma hdr_shape id st op tl : is_u16 id -> is_u8 op ->
  parsed_shape (FrameMetadata_new id st (Bitmask_new op)) tl.
Proof.
  intros Hid Hop. split; [by apply hdr_ok|]. pose proof (zlen_nonneg tl).
  destruct st; split_and!; try done; unfold plain_view; cbn; by rewrite ?andb_false_r.
Qed.

Lemma parse_tail_shape id st op tl m : is_u16 id -> is_u8 op -> bytes_ok tl ->
  parse_tail (FrameMetadata_new id st (Bitmask_new op)) tl false = Ok m -> parsed_shape m tl.
Proof.
  intros Hid Hop Htl. unfold parse_tail. cbn [FrameMetadata_new fm_session_status].
  assert (Hone : forall t n, read_target tl = Ok (t, n) -> target_fault t = None /\ destination_ok t /\
    n = zlen (target_wire t) /\ zlen (target_wire t) <= zlen tl /\ first_fault [t] = None).
  { intros t n Hr. apply read_target_consumed in Hr as (? & Hf & -> & _ & ? & _); [|done].
    unfold first_fault. cbn. by rewrite Hf. }
  destruct st.
  - destruct (Z.ltb_spec 0 (zlen tl)) as [Hpos|].
    2: { unfold mbind, result_bind, FrameMetadata_is_udp_target. cbn. rewrite andb_false_r.
         intros [= <-]. by apply hdr_shape. }
    destruct (read_target tl) as [[t n]|] eqn:Er; [|done]. unfold mbind, result_bind.
    destruct (Hone t n eq_refl) as (Hf & Ht & -> & Hl & Hff).
    destruct (FrameMetadata_has_data _ && _) eqn:E1, (8 <=? zlen tl - zlen (target_wire t)) eqn:E3;
      cbn [andb]; intros [= <-]; (split; [|split; [done|split; [exact Hff|]]]);
      try (by apply set_target_ok);
      unfold plain_view, written_targets, written_gid, FrameMetadata_has_data, FrameMetadata_is_udp_target in *;
      cbn in *.
    2: { rewrite E1. apply andb_true_iff in E1 as [_ ->]. rewrite app_nil_r. split; [done|zlia]. }
    2-4: destruct (Bitmask_has _ _), (bool_decide _); (split; [done|rewrite ?app_nil_r; lia]).
    assert (Hg : octets_ok 8 tl[: zlen (target_wire t), zlen (target_wire t) + 8]).
    { apply Z.leb_le in E3. pose proof (target_wire_pos t). split; [auto with xray|zlia]. }
    split; cbn; auto.
  - destruct (Z.ltb_spec 0 (zlen tl)) as [Hpos|]; [|intros [= <-]; by apply hdr_shape].
    case_bool_decide as Hb; [|intros [= <-]; by apply hdr_shape].
    destruct (read_target tl) as [[t n]|] eqn:Er; [|done]. intros [= <-].
    destruct (Hone t n eq_refl) as (Hf & Ht & -> & Hl & Hff).
    assert (Hu : Destination_is_udp t = true).
    { destruct (target_wire_head t Hf) as (b & w & Hw & Hn & _).
      apply read_target_consumed in Er as (_ & _ & _ & Hpre & _ & Hp1); [|done].
      assert (Hb0 : tl @ 0 = b).
      { destruct tl as [|b' tl]; [done|]. rewrite ztake_cons, Hw in Hpre by lia.
        by injection Hpre as ->. }
      rewrite Hb0, <- Hn in Hb. unfold Destination_is_udp.
      destruct (Destination_network t); cbn in *; done. }
    split; [by apply set_target_ok|]. split; [done|].
    unfold written_targets, written_gid, plain_view. cbn. rewrite Hu. cbn. rewrite !app_nil_r.
    split; [exact Hff|]. split; [done|lia].
  - intros [= <-]. by apply hdr_shape.
  - intros [= <-]. by apply hdr_shape.
Qed.

Lemma bytes_split4 body : 4 <= zlen body ->
  body = body[: 0, 2] ++ [body @ 2] ++ [body @ 3] ++ zdrop 4 body.
Proof.
  intros Hl. do 4 (destruct body as [|? body]; [zlens; lia|]; rewrite ?zlen_cons in Hl). done.
Qed.

Lemma parse_body_shape body m : bytes_ok body -> FrameMetadata_parse_body body false = Ok m ->
  frame_ok m /\ fm_source m = None /\ first_fault (written_targets m) = None /\ plain_view m = m /\
  4 <= zlen (frame_body m) <= zlen body.
Proof.
  intros Hb Hp.
  destruct (Z.ltb_spec (zlen body) 4) as [Hlt|Hge].
  { unfold FrameMetadata_parse_body in Hp. destruct (Z.ltb_spec (zlen body) 4); [done|lia]. }
  pose proof (bytes_split4 body Hge) as Hs.
  assert (Hh : bytes_ok body[: 0, 2] /\ zlen body[: 0, 2] = 2) by (split; [auto with xray|zlia]).
  destruct Hh as [Hhb Hhl].
  pose proof (be16_of_val _ Hhb Hhl) as H16. pose proof (be_val_u16 _ Hhb Hhl) as Hid.
  rewrite Hs, <- H16, parse_body_tail in Hp by auto with xray.
  destruct (SessionStatus_from_byte (body @ 2)) as [st|]; [|done].
  apply parse_tail_shape in Hp as (Hok & Hsrc & Hf & Hv & Hl); [|auto with xray..].
  split_and!; try done; unfold frame_body; rewrite !zlen_app, be16_len; rewrite zlen_app in Hl;
    zlens; zlen_facts; lia.
Qed.

Section frame_theorems.
Context {M : Type} `{!BytesMutOps M} `{!BytesMutLaws M} `{!BufAlloc M}.

Lemma to_bytes_ok_inv m out : frame_ok m -> FrameMetadata_to_bytes M m = Ok out ->
  first_fault (written_targets m) = None /\ zlen (frame_body m) <= 512 /\
  out = be16 (zlen (frame_body m)) ++ frame_body m.
Proof.
  intros Hok Ho. rewrite frame_to_bytes_exact in Ho by done.
  destruct (first_fault (written_targets m)); [done|].
  destruct (Z.ltb_spec 512 (zlen (frame_body m))); [done|]. by simplify_eq.
Qed.


(** Whatever header the plain parser accepts is a well-formed frame that lies
    within the data and within 2 + 512 bytes, and it is stable: serializing it
    succeeds, is no longer than what was consumed, and parses back to the very same
    frame. *)
Theorem mux_frame_parse_stable data m n : bytes_ok data ->
  FrameMetadata_read_from_bytes data = Ok (m, n) ->
  frame_ok m /\ 6 <= n <= 514 /\ n <= zlen data /\
  exists out, FrameMetadata_to_bytes M m = Ok out /\ zlen out <= n /\
    FrameMetadata_read_from_bytes out = Ok (m, zlen out).
Proof.
  intros Hb. unfold FrameMetadata_read_from_bytes, FrameMetadata_read_from_bytes_impl, read_uint16, MAX_METADATA_LEN.
  destruct (Z.ltb_spec (zlen data) 2) as [|H2]; [done|]. cbn [ok_or]. unfold mbind at 1, result_bind at 1.
  set (len := be_val data[: 0, 2]).
  assert (Hlen : 0 <= len) by (assert (is_u16 len) as [? _] by (apply be_val_u16; [auto with xray|zlia]); done).
  destruct (Z.ltb_spec 512 len) as [|H512]; [done|]. destruct (Z.ltb_spec (zlen data) (2 + len)) as [|Hd]; [done|].
  destruct (FrameMetadata_parse_body _ false) as [m'|] eqn:Ep; [|done]. intros [= <- <-].
  apply parse_body_shape in Ep as (Hok & Hsrc & Hf & Hv & Hl); [|auto with xray].
  assert (Hbl : zlen data[: 2, 2 + len] = len) by zlia. rewrite Hbl in Hl.
  split; [done|]. split; [lia|]. split; [done|].
  exists (be16 (zlen (frame_body m')) ++ frame_body m'). split_and!.
  - rewrite frame_to_bytes_exact, Hf by done. by zcases.
  - zlia.
  - pose proof (read_impl_wire (frame_body m') [] false) as Hr. rewrite app_nil_r in Hr.
    etransitivity; [apply Hr; [by apply frame_body_ok|lia]|]. by rewrite parse_body_plain, Hv.
Qed.
End frame_theorems.

(** C37: [read_from] on a byte stream is [read_from_bytes] with the stream advanced by
    the bytes consumed; the same errors, a short stream being reported as an I/O
    error instead of [InsufficientData]. *)
Theorem mux_read_from_equiv data : bytes_ok data ->
  FrameMetadata_read_from slice_read_exact data =
    match FrameMetadata_read_from_bytes data with
    | Ok (m, n) => Ok (m, zdrop n data)
    | Err e =>
        if (zlen data <? 2) ||
           (negb (512 <? be_val data[: 0, 2]) && (zlen data <? 2 + be_val data[: 0, 2]))
        then Err (MuxIo "failed to fill whole buffer") else Err e
    end.
Proof.
  intros Hb. unfold FrameMetadata_read_from, FrameMetadata_read_from_bytes, FrameMetadata_read_from_bytes_impl,
    slice_read_exact, read_uint16, MAX_METADATA_LEN.
  destruct (Z.ltb_spec (zlen data) 2) as [|H2]; [done|]. cbn [ok_or orb]. unfold mbind, result_bind.
  rewrite slice_0. set (len := be_val _).
  assert (Hlen : 0 <= len) by (assert (is_u16 len) as [? _] by (apply be_val_u16; [auto with xray|zlia]); done).
  destruct (Z.ltb_spec 512 len) as [|H512]; [done|]. cbn [negb andb].
  rewrite zlen_drop. replace (Z.max 0 (zlen data - Z.max 0 2) <? len) with (zlen data <? 2 + len) by (zcases; lia).
  destruct (Z.ltb_spec (zlen data) (2 + len)) as [|Hd]; [done|].
  unfold slice. rewrite Z.add_simpl_l.
  destruct (FrameMetadata_parse_body _ false); [|done]. by rewrite zdrop_drop by lia.
Qed.
