(* ===== verification/KcpSegment.v ===== *)
(** [xray-transport-kcp/src/segment.rs]: the three KCP segment types, their
    serialization into a caller's slice and the datagram parser.  A payload is a
    [Buffer].  A slice write out of range panics ([None]). *)
From stdpp Require Import base tactics option list numbers.
From S2P Require Import Prelude Bytes NetTypes BytesMut Buffer BufferProps.

(** [buf[at..at + src.len()].copy_from_slice(src)] *)
Definition copy_at (at' : Z) (src buf : bytes) : option bytes :=
  if at' + zlen src <=? zlen buf
  then Some (ztake at' buf ++ src ++ zdrop (at' + zlen src) buf)
  else None.

Inductive Command : Type := CmdAck | CmdData | CmdTerminate | CmdPing.

#[export] Instance Command_eq_dec : EqDecision Command.
Proof. solve_decision. Defined.

Definition Command_from_u8 (v : Z) : option Command :=
  if v =? 0 then Some CmdAck
  else if v =? 1 then Some CmdData
  else if v =? 2 then Some CmdTerminate
  else if v =? 3 then Some CmdPing
  else None.

Definition Command_to_u8 (c : Command) : Z :=
  match c with CmdAck => 0 | CmdData => 1 | CmdTerminate => 2 | CmdPing => 3 end.

Definition SEGMENT_OPTION_CLOSE : Z := 1.
Definition DATA_SEGMENT_OVERHEAD : Z := 18.
Definition ACK_NUMBER_LIMIT : Z := 128.

(** * ACK segments *)

Record AckSegment : Type := mkAckSegment {
  ak_conv : Z;
  ak_option : Z;
  ak_receiving_window : Z;
  ak_receiving_next : Z;
  ak_timestamp : Z;
  ak_number_list : list Z;
  ak_limit : Z;
}.

Definition AckSegment_new (limit : Z) : AckSegment :=
  mkAckSegment 0 0 0 0 0 [] (Z.min (Z.max limit 1) ACK_NUMBER_LIMIT).

Definition AckSegment_put_number (n : Z) (s : AckSegment) : AckSegment :=
  mkAckSegment (ak_conv s) (ak_option s) (ak_receiving_window s) (ak_receiving_next s)
    (ak_timestamp s) (ak_number_list s ++ [n]) (ak_limit s).

Definition AckSegment_put_timestamp (timestamp : Z) (s : AckSegment) : AckSegment :=
  if timestamp -32 ak_timestamp s <? 2147483647
  then mkAckSegment (ak_conv s) (ak_option s) (ak_receiving_window s) (ak_receiving_next s)
         timestamp (ak_number_list s) (ak_limit s)
  else s.

Definition AckSegment_is_full (s : AckSegment) : bool := zlen (ak_number_list s) =? ak_limit s.
Definition AckSegment_is_empty (s : AckSegment) : bool := zlen (ak_number_list s) =? 0.
Definition AckSegment_release (s : AckSegment) : AckSegment :=
  mkAckSegment (ak_conv s) (ak_option s) (ak_receiving_window s) (ak_receiving_next s)
    (ak_timestamp s) [] (ak_limit s).
Definition AckSegment_byte_size (s : AckSegment) : Z := 17 + zlen (ak_number_list s) * 4.

(** The loop over [number_list], from offset [n]. *)
Fixpoint serialize_numbers (n : Z) (l : list Z) (buf : bytes) : option bytes :=
  match l with
  | [] => Some buf
  | num :: l => buf ← copy_at n (be32 num) buf; serialize_numbers (n + 4) l buf
  end.

Definition AckSegment_serialize (s : AckSegment) (buf : bytes) : option bytes :=
  buf ← copy_at 0 (be16 (ak_conv s)) buf;
  buf ← copy_at 2 [Command_to_u8 CmdAck] buf;
  buf ← copy_at 3 [ak_option s] buf;
  buf ← copy_at 4 (be32 (ak_receiving_window s)) buf;
  buf ← copy_at 8 (be32 (ak_receiving_next s)) buf;
  buf ← copy_at 12 (be32 (ak_timestamp s)) buf;
  buf ← copy_at 16 [to_u8 (zlen (ak_number_list s))] buf;
  serialize_numbers 17 (ak_number_list s) buf.

(** The [for i in 0..count] loop: [count] numbers from offset [off]. *)
Fixpoint parse_numbers (count : nat) (off : Z) (body : bytes) : list Z :=
  match count with
  | O => []
  | S count => be_val body[: off, off + 4] :: parse_numbers count (off + 4) body
  end.

(** (valid, consumed, self afterwards) *)
Definition AckSegment_parse (conv opt : Z) (body : bytes) (s : AckSegment) : bool * Z * AckSegment :=
  if zlen body <? 13 then
    (false, 0, mkAckSegment conv opt (ak_receiving_window s) (ak_receiving_next s) (ak_timestamp s)
                 (ak_number_list s) (ak_limit s))
  else
    let receiving_window := be_val body[: 0, 4] in
    let receiving_next := be_val body[: 4, 8] in
    let timestamp := be_val body[: 8, 12] in
    let count := body @ 12 in
    if zlen body <? 13 + count * 4 then
      (false, 0, mkAckSegment conv opt receiving_window receiving_next timestamp
                   (ak_number_list s) (ak_limit s))
    else
      (true, 13 + count * 4,
       mkAckSegment conv opt receiving_window receiving_next timestamp
         (parse_numbers (Z.to_nat count) 13 body) (ak_limit s)).

(** * Command segments *)

Record CmdOnlySegment : Type := mkCmdOnlySegment {
  co_conv : Z;
  co_cmd : Command;
  co_option : Z;
  co_sending_next : Z;
  co_receiving_next : Z;
  co_peer_rto : Z;
}.

Definition CmdOnlySegment_new : CmdOnlySegment := mkCmdOnlySegment 0 CmdPing 0 0 0 0.
Definition CmdOnlySegment_byte_size (s : CmdOnlySegment) : Z := 16.

Definition CmdOnlySegment_serialize (s : CmdOnlySegment) (buf : bytes) : option bytes :=
  buf ← copy_at 0 (be16 (co_conv s)) buf;
  buf ← copy_at 2 [Command_to_u8 (co_cmd s)] buf;
  buf ← copy_at 3 [co_option s] buf;
  buf ← copy_at 4 (be32 (co_sending_next s)) buf;
  buf ← copy_at 8 (be32 (co_receiving_next s)) buf;
  copy_at 12 (be32 (co_peer_rto s)) buf.

Definition CmdOnlySegment_parse (conv : Z) (cmd : Command) (opt : Z) (body : bytes) (s : CmdOnlySegment)
    : bool * Z * CmdOnlySegment :=
  if zlen body <? 12 then
    (false, 0, mkCmdOnlySegment conv cmd opt (co_sending_next s) (co_receiving_next s) (co_peer_rto s))
  else
    (true, 12, mkCmdOnlySegment conv cmd opt (be_val body[: 0, 4]) (be_val body[: 4, 8])
                 (be_val body[: 8, 12])).

(** * Data segments *)

Section data_segment.
Context {M : Type} `{!BytesMutOps M} `{!BufAlloc M}.

Record DataSegment : Type := mkDataSegment {
  ds_conv : Z;
  ds_option : Z;
  ds_timestamp : Z;
  ds_number : Z;
  ds_sending_next : Z;
  ds_payload : option (Buffer M);
  ds_timeout : Z;
  ds_transmit : Z;
}.

Definition DataSegment_new : DataSegment := mkDataSegment 0 0 0 0 0 None 0 0.

Definition DataSegment_set_payload (p : option (Buffer M)) (s : DataSegment) : DataSegment :=
  mkDataSegment (ds_conv s) (ds_option s) (ds_timestamp s) (ds_number s) (ds_sending_next s) p
    (ds_timeout s) (ds_transmit s).

Definition DataSegment_detach (s : DataSegment) : option (Buffer M) * DataSegment :=
  (ds_payload s, DataSegment_set_payload None s).

(** [data()]: the payload, allocated if absent. *)
Definition DataSegment_data (s : DataSegment) : Buffer M := default Buffer_new (ds_payload s).

Definition DataSegment_release (s : DataSegment) : DataSegment := DataSegment_set_payload None s.

(** [self.payload.as_ref().map_or(0, |b| b.len())] *)
Definition payload_len (s : DataSegment) : Z :=
  match ds_payload s with Some b => Buffer_len b | None => 0 end.

Definition DataSegment_byte_size (s : DataSegment) : Z := DATA_SEGMENT_OVERHEAD + payload_len s.

Definition DataSegment_serialize (s : DataSegment) (buf : bytes) : option bytes :=
  buf ← copy_at 0 (be16 (ds_conv s)) buf;
  buf ← copy_at 2 [Command_to_u8 CmdData] buf;
  buf ← copy_at 3 [ds_option s] buf;
  buf ← copy_at 4 (be32 (ds_timestamp s)) buf;
  buf ← copy_at 8 (be32 (ds_number s)) buf;
  buf ← copy_at 12 (be32 (ds_sending_next s)) buf;
  buf ← copy_at 16 (be16 (to_u16 (payload_len s))) buf;
  match ds_payload s with
  | Some b => copy_at 18 (Buffer_bytes b) buf
  | None => Some buf
  end.

Definition DataSegment_parse (conv opt : Z) (body : bytes) (s : DataSegment) : bool * Z * DataSegment :=
  if zlen body <? 14 then
    (false, 0, mkDataSegment conv opt (ds_timestamp s) (ds_number s) (ds_sending_next s)
                 (ds_payload s) (ds_timeout s) (ds_transmit s))
  else
    let timestamp := be_val body[: 0, 4] in
    let number := be_val body[: 4, 8] in
    let sending_next := be_val body[: 8, 12] in
    let data_len := be_val body[: 12, 14] in
    if zlen body <? 14 + data_len then
      (false, 0, mkDataSegment conv opt timestamp number sending_next
                   (ds_payload s) (ds_timeout s) (ds_transmit s))
    else
      let payload := Buffer_clear (DataSegment_data s) in
      let '(_, payload) := Buffer_write_from body[: 14, 14 + data_len] payload in
      (true, 14 + data_len,
       mkDataSegment conv opt timestamp number sending_next (Some payload) (ds_timeout s) (ds_transmit s)).

(** * The tagged union and the parser *)

Inductive SegmentKind : Type :=
| KData (s : DataSegment)
| KAck (s : AckSegment)
| KCmd (s : CmdOnlySegment).

Definition SegmentKind_conversation (k : SegmentKind) : Z :=
  match k with KData s => ds_conv s | KAck s => ak_conv s | KCmd s => co_conv s end.

Definition SegmentKind_command (k : SegmentKind) : Command :=
  match k with KData _ => CmdData | KAck _ => CmdAck | KCmd s => co_cmd s end.

(** The [Segment] trait's methods, dispatched on the kind. *)
Definition Segment_byte_size (k : SegmentKind) : Z :=
  match k with
  | KData s => DataSegment_byte_size s
  | KAck s => AckSegment_byte_size s
  | KCmd s => CmdOnlySegment_byte_size s
  end.

Definition Segment_serialize (k : SegmentKind) (buf : bytes) : option bytes :=
  match k with
  | KData s => DataSegment_serialize s buf
  | KAck s => AckSegment_serialize s buf
  | KCmd s => CmdOnlySegment_serialize s buf
  end.

Definition read_segment (buf : bytes) : option (SegmentKind * Z) :=
  if zlen buf <? 4 then None
  else
    let conv := be_val buf[: 0, 2] in
    cmd ← Command_from_u8 (buf @ 2);
    let opt := buf @ 3 in
    let body := zdrop 4 buf in
    let '(valid, consumed_body, seg) :=
      match cmd with
      | CmdData =>
          let '(v, n, s) := DataSegment_parse conv opt body DataSegment_new in (v, n, KData s)
      | CmdAck =>
          let '(v, n, s) := AckSegment_parse conv opt body (AckSegment_new ACK_NUMBER_LIMIT) in (v, n, KAck s)
      | CmdTerminate | CmdPing =>
          let '(v, n, s) := CmdOnlySegment_parse conv cmd opt body CmdOnlySegment_new in (v, n, KCmd s)
      end in
    if negb valid then None else Some (seg, 4 + consumed_body).

End data_segment.

Arguments DataSegment M : clear implicits.
Arguments SegmentKind M : clear implicits.
