(* ===== verification/KcpSegmentProps.v ===== *)
(** KCP segments: the wire form, the serializer against it, the round trip through
    [read_segment] and the canonical form of what it accepts. *)
From stdpp Require Import base tactics option list numbers.
From S2P Require Import Prelude Bytes NetTypes BytesMut Buffer BufferProps KcpSegment.

(** * Writing at contiguous offsets *)

Lemma copy_next n src w r : n = zlen w -> zlen src <= zlen r ->
  copy_at n src (w ++ r) = Some ((w ++ src) ++ zdrop (zlen src) r).
Proof.
  intros -> Hl. unfold copy_at. rewrite zlen_app. zlen_facts. zcases.
  rewrite ztake_app, zdrop_app_ge by lia. rewrite <- app_assoc. do 3 f_equal.
  f_equal. lia.
Qed.

Definition numbers_wire (l : list Z) : bytes := concat (map be32 l).

Lemma numbers_wire_len l : zlen (numbers_wire l) = zlen l * 4.
Proof. induction l as [|n l IH]; [done|]. unfold numbers_wire in *. cbn [map concat]. zlens. lia. Qed.

Lemma serialize_numbers_spec n l w r : n = zlen w -> zlen l * 4 <= zlen r ->
  serialize_numbers n l (w ++ r) = Some ((w ++ numbers_wire l) ++ zdrop (zlen l * 4) r).
Proof.
  revert n w r. induction l as [|x l IH]; intros n w r -> Hl; cbn [serialize_numbers].
  { rewrite zdrop_le0 by zlia. unfold numbers_wire. cbn. by rewrite app_nil_r. }
  rewrite zlen_cons in Hl. pose proof (zlen_nonneg l).
  rewrite copy_next by zlia. cbn [mbind option_bind].
  rewrite IH by zlia. unfold numbers_wire. cbn [map concat]. rewrite app_assoc, be32_len, zdrop_drop by lia.
  do 3 f_equal. zlia.
Qed.

Lemma parse_numbers_wire l pre rest : Forall is_u32 l ->
  parse_numbers (length l) (zlen pre) (pre ++ numbers_wire l ++ rest) = l.
Proof.
  intros Hl. revert pre. induction Hl as [|x l Hx _ IH]; intros pre; [done|].
  cbn [length parse_numbers]. unfold numbers_wire. cbn [map concat]. f_equal.
  - rewrite slice_app_skip, Z.sub_diag, Z.add_simpl_l by lia.
    rewrite <- app_assoc, slice_app_head by done. by apply be32_val.
  - rewrite <- app_assoc, (app_assoc pre). replace (zlen pre + 4) with (zlen (pre ++ be32 x)) by zlia.
    apply IH.
Qed.

Lemma parse_numbers_inv count off body : bytes_ok body -> 0 <= off -> off + Z.of_nat count * 4 <= zlen body ->
  numbers_wire (parse_numbers count off body) = body[: off, off + Z.of_nat count * 4] /\
  length (parse_numbers count off body) = count /\ Forall is_u32 (parse_numbers count off body).
Proof.
  intros Hb. revert off. induction count as [|k IH]; intros off Ho Hl; cbn [parse_numbers length].
  { split; [|split; [done|constructor]]. unfold slice. by rewrite ztake_le0 by lia. }
  destruct (IH (off + 4)) as (E & Hk & Hu); [lia|lia|].
  assert (H4 : zlen body[: off, off + 4] = 4) by zlia.
  split; [|split; [by rewrite Hk|constructor; [auto with xray|done]]].
  unfold numbers_wire in *. cbn [map concat]. rewrite E, be32_of_val by auto with xray.
  unfold slice. rewrite <- (zdrop_drop 4 off) by lia.
  rewrite <- (ztake_drop 4 (zdrop off body)) at 3. rewrite ztake_app_ge by zlia.
  f_equal; [f_equal; lia|]. f_equal. zlia.
Qed.

Section kcp_segment_props.
Context {M : Type} `{!BytesMutOps M} `{!BytesMutLaws M} `{!BufAlloc M}.
Implicit Types (s : DataSegment M) (k : SegmentKind M).

(** * The wire form *)

Definition payload_bytes s : bytes := match ds_payload s with Some b => Buffer_bytes b | None => [] end.

Definition data_wire s : bytes :=
  be16 (ds_conv s) ++ [1] ++ [ds_option s] ++ be32 (ds_timestamp s) ++ be32 (ds_number s)
  ++ be32 (ds_sending_next s) ++ be16 (to_u16 (zlen (payload_bytes s))) ++ payload_bytes s.

Definition ack_wire (a : AckSegment) : bytes :=
  be16 (ak_conv a) ++ [0] ++ [ak_option a] ++ be32 (ak_receiving_window a) ++ be32 (ak_receiving_next a)
  ++ be32 (ak_timestamp a) ++ [to_u8 (zlen (ak_number_list a))] ++ numbers_wire (ak_number_list a).

Definition cmd_wire (c : CmdOnlySegment) : bytes :=
  be16 (co_conv c) ++ [Command_to_u8 (co_cmd c)] ++ [co_option c] ++ be32 (co_sending_next c)
  ++ be32 (co_receiving_next c) ++ be32 (co_peer_rto c).

Definition segment_wire k : bytes :=
  match k with KData s => data_wire s | KAck a => ack_wire a | KCmd c => cmd_wire c end.

(** * Well-formed segments: the ranges of the Rust types *)

Definition data_ok s : Prop :=
  is_u16 (ds_conv s) /\ is_u8 (ds_option s) /\ is_u32 (ds_timestamp s) /\ is_u32 (ds_number s) /\
  is_u32 (ds_sending_next s) /\ match ds_payload s with Some b => buffer_ok b | None => True end.

Definition ack_ok (a : AckSegment) : Prop :=
  is_u16 (ak_conv a) /\ is_u8 (ak_option a) /\ is_u32 (ak_receiving_window a) /\
  is_u32 (ak_receiving_next a) /\ is_u32 (ak_timestamp a) /\ Forall is_u32 (ak_number_list a).

Definition cmd_ok (c : CmdOnlySegment) : Prop :=
  is_u16 (co_conv c) /\ is_u8 (co_option c) /\ is_u32 (co_sending_next c) /\
  is_u32 (co_receiving_next c) /\ is_u32 (co_peer_rto c) /\ (co_cmd c = CmdTerminate \/ co_cmd c = CmdPing).

Definition segment_ok k : Prop :=
  match k with KData s => data_ok s | KAck a => ack_ok a | KCmd c => cmd_ok c end.

Lemma payload_len_bytes s : data_ok s -> payload_len s = zlen (payload_bytes s).
Proof.
  intros (_ & _ & _ & _ & _ & Hp). unfold payload_len, payload_bytes.
  destruct (ds_payload s) as [b|]; [|done]. by rewrite buffer_bytes_len.
Qed.

Lemma segment_wire_len k : segment_ok k -> zlen (segment_wire k) = Segment_byte_size k.
Proof.
  destruct k as [s|a|c]; cbn [segment_ok segment_wire Segment_byte_size]; intros Hok.
  - unfold data_wire, DataSegment_byte_size, DATA_SEGMENT_OVERHEAD. rewrite payload_len_bytes by done. zlia.
  - unfold ack_wire, AckSegment_byte_size. zlens. rewrite numbers_wire_len. lia.
  - unfold cmd_wire, CmdOnlySegment_byte_size. zlia.
Qed.

(** One write after another. *)
Ltac copy_chain :=
  repeat (rewrite copy_next by zlia; cbn [mbind option_bind]).

Lemma serialize_spec k buf : segment_ok k -> Segment_byte_size k <= zlen buf ->
  Segment_serialize k buf = Some (segment_wire k ++ zdrop (Segment_byte_size k) buf).
Proof.
  intros Hok. rewrite <- segment_wire_len by done. rewrite <- (app_nil_l buf) at 2.
  destruct k as [s|a|c]; cbn [segment_ok segment_wire Segment_serialize] in *.
  - unfold DataSegment_serialize, data_wire. rewrite payload_len_bytes by done.
    generalize (to_u16 (zlen (payload_bytes s))). intros len. unfold payload_bytes.
    destruct (ds_payload s) as [b|]; zlens; intros Hl; zlen_facts; copy_chain;
      rewrite ?app_nil_l, <- !app_assoc, ?zdrop_drop by zlia; do 2 f_equal; cbn [app];
      rewrite ?app_nil_r; repeat f_equal; zlia.
  - unfold AckSegment_serialize, ack_wire. zlens. rewrite numbers_wire_len. intros Hl. zlen_facts. copy_chain.
    rewrite serialize_numbers_spec by zlia.
    rewrite ?app_nil_l, <- !app_assoc, ?zdrop_drop by zlia. repeat f_equal; zlia.
  - unfold CmdOnlySegment_serialize, cmd_wire. zlens. intros Hl. copy_chain.
    rewrite ?app_nil_l, <- !app_assoc, ?zdrop_drop by zlia. repeat f_equal; zlia.
Qed.

(** * Parsing *)

(** A fresh payload filled with [src]. *)
Lemma fresh_fill src : let '(n, b) := Buffer_write_from src (Buffer_clear (@Buffer_new M _ _)) in
  buffer_ok b /\ (zlen src <= DEFAULT_SIZE -> Buffer_bytes b = src).
Proof.
  destruct (clear_spec (@Buffer_new M _ _)) as (Hb & Hok & Hf).
  pose proof (write_from_spec src _ Hok) as H. destruct (Buffer_write_from src _) as [n b].
  destruct H as (-> & Hb' & Hok' & _). split; [done|]. intros Hl.
  rewrite Hb', Hb. cbn [app]. apply ztake_ge. enough (DEFAULT_SIZE <= Buffer_free (Buffer_clear (@Buffer_new M _ _))) by lia.
  unfold Buffer_clear, Buffer_new, Buffer_free, Buffer_capacity. cbn.
  pose proof (pool_alloc_cap (M:=M) DEFAULT_SIZE). lia.
Qed.

(** What a receiver holds of a sent segment: the same fields and payload bytes; the
    sender's private fields are reset. *)
Definition received_as k k' : Prop :=
  match k, k' with
  | KData s, KData s' =>
      ds_conv s' = ds_conv s /\ ds_option s' = ds_option s /\ ds_timestamp s' = ds_timestamp s /\
      ds_number s' = ds_number s /\ ds_sending_next s' = ds_sending_next s /\
      payload_bytes s' = payload_bytes s /\ (exists b, ds_payload s' = Some b /\ buffer_ok b) /\
      ds_timeout s' = 0 /\ ds_transmit s' = 0
  | KAck a, KAck a' =>
      a' = mkAckSegment (ak_conv a) (ak_option a) (ak_receiving_window a) (ak_receiving_next a)
             (ak_timestamp a) (ak_number_list a) ACK_NUMBER_LIMIT
  | KCmd c, KCmd c' => c' = c
  | _, _ => False
  end.

(** The sizes the wire's counters carry. *)
Definition wire_fits k : Prop :=
  match k with
  | KData s => zlen (payload_bytes s) <= DEFAULT_SIZE
  | KAck a => zlen (ak_number_list a) <= 255
  | KCmd _ => True
  end.

Lemma read_segment_data s rest : data_ok s -> zlen (payload_bytes s) <= DEFAULT_SIZE ->
  exists s', read_segment (data_wire s ++ rest) = Some (KData s', zlen (data_wire s)) /\
    received_as (KData s) (KData s').
Proof.
  intros (Hc & Ho & Ht & Hn & Hs & _) Hl. unfold DEFAULT_SIZE in Hl. pose proof (zlen_nonneg (payload_bytes s)) as Hp.
  unfold read_segment, data_wire. rewrite <- !app_assoc.
  destruct (Z.ltb_spec (zlen (be16 (ds_conv s) ++ [1] ++ [ds_option s] ++ be32 (ds_timestamp s) ++
    be32 (ds_number s) ++ be32 (ds_sending_next s) ++ be16 (to_u16 (zlen (payload_bytes s))) ++
    payload_bytes s ++ rest)) 4); [zlia|].
  change (_ @ 2) with 1. change (_ @ 3) with (ds_option s). cbn [Command_from_u8 Z.eqb Pos.eqb mbind option_bind].
  rewrite slice_app_head, be16_val by done.
  match goal with |- context [zdrop 4 ?w] => change (zdrop 4 w) with (be32 (ds_timestamp s) ++
    be32 (ds_number s) ++ be32 (ds_sending_next s) ++ be16 (to_u16 (zlen (payload_bytes s))) ++
    payload_bytes s ++ rest) end.
  set (body := be32 (ds_timestamp s) ++ _). unfold DataSegment_parse.
  assert (Hbl : zlen body = 14 + zlen (payload_bytes s) + zlen rest) by (unfold body; zlia).
  change (body[: 0, 4]) with (be32 (ds_timestamp s)). change (body[: 4, 8]) with (be32 (ds_number s)).
  change (body[: 8, 12]) with (be32 (ds_sending_next s)).
  change (body[: 12, 14]) with (be16 (to_u16 (zlen (payload_bytes s)))).
  rewrite !be32_val, be16_val, to_u16_small by (try done; unfold is_u16; try lia; rewrite to_u16_small; unfold is_u16; lia).
  pose proof (zlen_nonneg rest). rewrite Hbl. do 2 (zcase_goal; [lia|]).
  replace (body[: 14, 14 + zlen (payload_bytes s)]) with (payload_bytes s).
  2: { unfold slice. rewrite Z.add_simpl_l. change (zdrop 14 body) with (payload_bytes s ++ rest).
       by rewrite ztake_app. }
  pose proof (fresh_fill (payload_bytes s)) as Hf. cbn [DataSegment_data DataSegment_new ds_payload default].
  unfold DataSegment_data. cbn [DataSegment_new ds_payload default].
  destruct (Buffer_write_from (payload_bytes s) _) as [n b]. destruct Hf as [Hb Hf].
  cbn [negb]. eexists. split; [do 2 f_equal; zlia|]. cbn. split_and!; try done; [|by eexists].
  unfold payload_bytes at 1. cbn. by apply Hf.
Qed.

Lemma read_segment_ack a rest : ack_ok a -> zlen (ak_number_list a) <= 255 ->
  exists a', read_segment (M:=M) (ack_wire a ++ rest) = Some (KAck a', zlen (ack_wire a)) /\
    received_as (KAck a) (KAck a').
Proof.
  intros (Hc & Ho & Hw & Hn & Ht & Hl) Hlen. pose proof (zlen_nonneg (ak_number_list a)) as Hp.
  unfold read_segment, ack_wire. rewrite <- !app_assoc.
  destruct (Z.ltb_spec (zlen (be16 (ak_conv a) ++ [0] ++ [ak_option a] ++ be32 (ak_receiving_window a) ++
    be32 (ak_receiving_next a) ++ be32 (ak_timestamp a) ++ [to_u8 (zlen (ak_number_list a))] ++
    numbers_wire (ak_number_list a) ++ rest)) 4); [zlia|].
  change (_ @ 2) with 0. change (_ @ 3) with (ak_option a). cbn [Command_from_u8 Z.eqb Pos.eqb mbind option_bind].
  rewrite slice_app_head, be16_val by done.
  match goal with |- context [zdrop 4 ?w] => change (zdrop 4 w) with (be32 (ak_receiving_window a) ++
    be32 (ak_receiving_next a) ++ be32 (ak_timestamp a) ++ [to_u8 (zlen (ak_number_list a))] ++
    numbers_wire (ak_number_list a) ++ rest) end.
  set (body := be32 (ak_receiving_window a) ++ _). unfold AckSegment_parse.
  assert (Hbl : zlen body = 13 + zlen (ak_number_list a) * 4 + zlen rest).
  { unfold body. zlens. rewrite numbers_wire_len. lia. }
  change (body[: 0, 4]) with (be32 (ak_receiving_window a)). change (body[: 4, 8]) with (be32 (ak_receiving_next a)).
  change (body[: 8, 12]) with (be32 (ak_timestamp a)). change (body @ 12) with (to_u8 (zlen (ak_number_list a))).
  rewrite !be32_val, to_u8_small by (try done; unfold is_u8; lia).
  pose proof (zlen_nonneg rest). rewrite Hbl. do 2 (zcase_goal; [lia|]).
  replace (parse_numbers _ 13 body) with (ak_number_list a).
  2: { replace (Z.to_nat (zlen (ak_number_list a))) with (length (ak_number_list a)) by (unfold zlen; lia).
       symmetry. exact (parse_numbers_wire (ak_number_list a) (be32 (ak_receiving_window a) ++
         be32 (ak_receiving_next a) ++ be32 (ak_timestamp a) ++ [to_u8 (zlen (ak_number_list a))]) rest Hl). }
  cbn [negb]. eexists. split; [|reflexivity]. do 2 f_equal. zlens. rewrite numbers_wire_len. lia.
Qed.

Lemma read_segment_cmd c rest : cmd_ok c ->
  read_segment (M:=M) (cmd_wire c ++ rest) = Some (KCmd c, zlen (cmd_wire c)).
Proof.
  intros (Hc & Ho & Hs & Hr & Hp & Hcmd). unfold read_segment, cmd_wire. rewrite <- !app_assoc.
  destruct (Z.ltb_spec (zlen (be16 (co_conv c) ++ [Command_to_u8 (co_cmd c)] ++ [co_option c] ++
    be32 (co_sending_next c) ++ be32 (co_receiving_next c) ++ be32 (co_peer_rto c) ++ rest)) 4); [zlia|].
  change (_ @ 2) with (Command_to_u8 (co_cmd c)). change (_ @ 3) with (co_option c).
  replace (Command_from_u8 (Command_to_u8 (co_cmd c))) with (Some (co_cmd c)) by (by destruct (co_cmd c)).
  cbn [mbind option_bind]. rewrite slice_app_head, be16_val by done.
  match goal with |- context [zdrop 4 ?w] => change (zdrop 4 w) with
    (be32 (co_sending_next c) ++ be32 (co_receiving_next c) ++ be32 (co_peer_rto c) ++ rest) end.
  set (body := be32 (co_sending_next c) ++ _). unfold CmdOnlySegment_parse.
  assert (Hbl : zlen body = 12 + zlen rest) by (unfold body; zlia).
  change (body[: 0, 4]) with (be32 (co_sending_next c)). change (body[: 4, 8]) with (be32 (co_receiving_next c)).
  change (body[: 8, 12]) with (be32 (co_peer_rto c)). rewrite !be32_val by done.
  pose proof (zlen_nonneg rest). rewrite Hbl. zcase_goal; [lia|].
  destruct c as [cv cm op sn rn pr]; cbn [co_cmd co_conv co_option co_sending_next co_receiving_next co_peer_rto] in *.
  destruct Hcmd as [-> | ->]; cbn [negb]; do 2 f_equal; zlia.
Qed.

Lemma read_segment_wire k rest : segment_ok k -> wire_fits k ->
  exists k', read_segment (segment_wire k ++ rest) = Some (k', zlen (segment_wire k)) /\ received_as k k'.
Proof.
  intros Hok Hf. destruct k as [s|a|c]; cbn [segment_wire segment_ok wire_fits] in *.
  - destruct (read_segment_data s rest Hok Hf) as (s' & ? & ?). by exists (KData s').
  - destruct (read_segment_ack a rest Hok Hf) as (a' & ? & ?). by exists (KAck a').
  - exists (KCmd c). by rewrite read_segment_cmd.
Qed.

(** KCP datagrams round-trip: serializing a well-formed segment into any slice
    that is long enough succeeds and writes exactly [byte_size] bytes, leaving the
    rest of the slice; parsing the slice consumes exactly those bytes and yields the
    same segment (same payload bytes or acknowledged numbers). *)
Theorem kcp_segment_roundtrip k buf : segment_ok k -> wire_fits k -> Segment_byte_size k <= zlen buf ->
  exists out k', Segment_serialize k buf = Some out /\
    zdrop (Segment_byte_size k) out = zdrop (Segment_byte_size k) buf /\
    read_segment out = Some (k', Segment_byte_size k) /\ received_as k k'.
Proof.
  intros Hok Hf Hl. destruct (read_segment_wire k (zdrop (Segment_byte_size k) buf) Hok Hf) as (k' & Hr & Hs).
  exists (segment_wire k ++ zdrop (Segment_byte_size k) buf), k'.
  rewrite (segment_wire_len k Hok) in Hr. rewrite serialize_spec by done.
  rewrite zdrop_app by (by rewrite segment_wire_len). done.
Qed.

(** * What the parser accepts *)

Lemma Command_inv b c : Command_from_u8 b = Some c -> Command_to_u8 c = b.
Proof. unfold Command_from_u8. intros H. zcases_in; by simplify_eq. Qed.

(** The three-way cut every parser makes. *)
Lemma bytes_cut a b (l : bytes) : 0 <= a <= b -> b <= zlen l -> ztake b l = ztake a l ++ l[: a, b].
Proof.
  intros Ha Hb. unfold slice. rewrite <- (ztake_drop a l) at 1. rewrite ztake_app_ge by zlia.
  f_equal. f_equal. zlia.
Qed.

Lemma field32 l a : bytes_ok l -> 0 <= a -> a + 4 <= zlen l ->
  is_u32 (be_val l[: a, a + 4]) /\ be32 (be_val l[: a, a + 4]) = l[: a, a + 4].
Proof.
  intros Hb Ha Hl. assert (zlen l[: a, a + 4] = 4) by zlia. assert (bytes_ok l[: a, a + 4]) by auto with xray.
  split; [by apply be_val_u32|by apply be32_of_val].
Qed.

Lemma field16 l a : bytes_ok l -> 0 <= a -> a + 2 <= zlen l ->
  is_u16 (be_val l[: a, a + 2]) /\ be16 (be_val l[: a, a + 2]) = l[: a, a + 2].
Proof.
  intros Hb Ha Hl. assert (zlen l[: a, a + 2] = 2) by zlia. assert (bytes_ok l[: a, a + 2]) by auto with xray.
  split; [by apply be_val_u16|by apply be16_of_val].
Qed.

Lemma field8 (l : bytes) a : bytes_ok l -> 0 <= a -> a + 1 <= zlen l -> is_u8 (l @ a) /\ [l @ a] = l[: a, a + 1].
Proof.
  intros Hb Ha Hl. split; [auto with xray|].
  assert (H1 : zlen l[: a, a + 1] = 1) by zlia.
  pose proof (byte_at_slice l a (a + 1) 0) as H0. rewrite Z.add_0_r in H0. rewrite <- H0 by lia.
  destruct l[: a, a + 1] as [|x [|y t]]; zlens; [lia|done|zlen_facts; lia].
Qed.

(** The common header, consumed. *)
Lemma header_cut buf : bytes_ok buf -> 4 <= zlen buf ->
  is_u16 (be_val buf[: 0, 2]) /\ is_u8 (buf @ 3) /\ bytes_ok (zdrop 4 buf) /\
  forall n, 0 <= n -> ztake (4 + n) buf = be16 (be_val buf[: 0, 2]) ++ [buf @ 2] ++ [buf @ 3] ++ ztake n (zdrop 4 buf).
Proof.
  intros Hb Hl. destruct (field16 buf 0) as [H16 E16]; [done|lia|lia|]. change (0 + 2) with 2 in *.
  destruct (field8 buf 2) as [_ E2]; [done|lia|lia|]. destruct (field8 buf 3) as [H3 E3]; [done|lia|lia|].
  split_and!; [done|done|auto with xray|]. intros n Hn. rewrite E16.
  rewrite E2, E3, ztake_drop_comm by lia.
  rewrite <- (ztake_drop 4 (ztake (4 + n) buf)) at 1. rewrite ztake_take, !app_assoc.
  rewrite Z.min_l by lia. f_equal. rewrite !slice_0.
  rewrite (bytes_cut 3 4), (bytes_cut 2 3) by lia. done.
Qed.

Lemma parse_data_inv conv opt body n s : bytes_ok body -> is_u16 conv -> is_u8 opt ->
  DataSegment_parse conv opt body (DataSegment_new (M:=M)) = (true, n, s) ->
  data_ok s /\ 14 <= n <= zlen body /\
  (n <= 14 + DEFAULT_SIZE -> data_wire s = be16 conv ++ [1] ++ [opt] ++ ztake n body).
Proof.
  intros Hb Hc Ho. unfold DataSegment_parse.
  destruct (Z.ltb_spec (zlen body) 14) as [|H14]; [done|].
  destruct (field32 body 0) as [T1 E1]; [done|lia|lia|]. destruct (field32 body 4) as [T2 E2]; [done|lia|lia|].
  destruct (field32 body 8) as [T3 E3]; [done|lia|lia|]. destruct (field16 body 12) as [T4 E4]; [done|lia|lia|].
  change (0 + 4) with 4 in *. change (4 + 4) with 8 in *. change (8 + 4) with 12 in *. change (12 + 2) with 14 in *.
  set (len := be_val body[: 12, 14]) in *. destruct (Z.ltb_spec (zlen body) (14 + len)) as [|Hl]; [done|].
  pose proof (fresh_fill body[: 14, 14 + len]) as Hf. unfold DataSegment_data. cbn [DataSegment_new ds_payload default].
  unfold is_u16 in T4. assert (Hsl : zlen body[: 14, 14 + len] = len) by zlia. rewrite Hsl in Hf.
  destruct (Buffer_write_from body[: 14, 14 + len] _) as [w b]. destruct Hf as [Hok Hf].
  intros [= <- <-]. unfold data_ok. cbn. split_and!; try done; [lia|].
  intros Hd. unfold data_wire, payload_bytes. cbn. rewrite Hf, Hsl by lia.
  rewrite to_u16_small, E1, E2, E3, E4 by done. do 3 f_equal.
  rewrite (bytes_cut 14), (bytes_cut 12 14), (bytes_cut 8 12), (bytes_cut 4 8), <- !app_assoc, slice_0 by lia. done.
Qed.

Lemma parse_ack_inv conv opt body n a : bytes_ok body -> is_u16 conv -> is_u8 opt ->
  AckSegment_parse conv opt body (AckSegment_new ACK_NUMBER_LIMIT) = (true, n, a) ->
  ack_ok a /\ 13 <= n <= zlen body /\ ack_wire a = be16 conv ++ [0] ++ [opt] ++ ztake n body.
Proof.
  intros Hb Hc Ho. unfold AckSegment_parse.
  destruct (Z.ltb_spec (zlen body) 13) as [|H14]; [done|].
  destruct (field32 body 0) as [T1 E1]; [done|lia|lia|]. destruct (field32 body 4) as [T2 E2]; [done|lia|lia|].
  destruct (field32 body 8) as [T3 E3]; [done|lia|lia|]. destruct (field8 body 12) as [T4 E4]; [done|lia|lia|].
  change (0 + 4) with 4 in *. change (4 + 4) with 8 in *. change (8 + 4) with 12 in *. change (12 + 1) with 13 in *.
  set (count := body @ 12) in *. destruct (Z.ltb_spec (zlen body) (13 + count * 4)) as [|Hl]; [done|].
  unfold is_u8 in T4. destruct (parse_numbers_inv (Z.to_nat count) 13 body) as (E & Hk & Hu); [done|lia|lia|].
  intros [= <- <-]. unfold ack_ok, ack_wire.
  cbn [ak_conv ak_option ak_receiving_window ak_receiving_next ak_timestamp ak_number_list]. split_and!; try done; [lia|].
  rewrite E, E1, E2, E3. replace (zlen (parse_numbers _ _ _)) with count by (unfold zlen; lia).
  rewrite to_u8_small, E4 by done. do 3 f_equal. replace (13 + Z.of_nat (Z.to_nat count) * 4) with (13 + count * 4) by lia.
  rewrite (bytes_cut 13), (bytes_cut 12 13), (bytes_cut 8 12), (bytes_cut 4 8), <- !app_assoc, slice_0 by lia. done.
Qed.

Lemma parse_cmd_inv conv cmd opt body n c : bytes_ok body -> is_u16 conv -> is_u8 opt ->
  cmd = CmdTerminate \/ cmd = CmdPing ->
  CmdOnlySegment_parse conv cmd opt body CmdOnlySegment_new = (true, n, c) ->
  cmd_ok c /\ n = 12 /\ 12 <= zlen body /\ cmd_wire c = be16 conv ++ [Command_to_u8 cmd] ++ [opt] ++ ztake n body.
Proof.
  intros Hb Hc Ho Hcmd. unfold CmdOnlySegment_parse.
  destruct (Z.ltb_spec (zlen body) 12) as [|H14]; [done|].
  destruct (field32 body 0) as [T1 E1]; [done|lia|lia|]. destruct (field32 body 4) as [T2 E2]; [done|lia|lia|].
  destruct (field32 body 8) as [T3 E3]; [done|lia|lia|].
  change (0 + 4) with 4 in *. change (4 + 4) with 8 in *. change (8 + 4) with 12 in *.
  intros [= <- <-]. unfold cmd_ok, cmd_wire. cbn. split_and!; try done.
  rewrite E1, E2, E3. do 3 f_equal.
  rewrite (bytes_cut 8 12), (bytes_cut 4 8), <- !app_assoc, slice_0 by lia. done.
Qed.

(** [read_segment] is canonical and stays in bounds: what it accepts is well
    formed, lies within the datagram, and the bytes consumed are exactly the bytes the
    segment serializes to, provided a data payload fits the 8192 bytes that a fresh
    buffer is sure to hold. *)
Theorem kcp_read_segment_canonical buf k n : bytes_ok buf -> read_segment (M:=M) buf = Some (k, n) ->
  segment_ok k /\ 16 <= n <= zlen buf /\ (n <= DATA_SEGMENT_OVERHEAD + DEFAULT_SIZE -> segment_wire k = ztake n buf).
Proof.
  intros Hb. unfold read_segment, DATA_SEGMENT_OVERHEAD.
  destruct (Z.ltb_spec (zlen buf) 4) as [|H4]; [done|].
  destruct (header_cut buf Hb H4) as (Hc & Ho & Hbd & Hcut).
  destruct (Command_from_u8 (buf @ 2)) as [cmd|] eqn:Ecmd; [|done]. apply Command_inv in Ecmd.
  assert (Hdl : zlen (zdrop 4 buf) = zlen buf - 4) by zlia. cbn [mbind option_bind].
  destruct cmd.
  - destruct (AckSegment_parse _ _ _ _) as [[[] m] a] eqn:E; [|done]. intros [= <- <-].
    apply parse_ack_inv in E as (Hok & Hn & Hw); [|done..]. split_and!; [done|lia|lia|].
    intros _. cbn [segment_wire]. rewrite Hw, Hcut, <- Ecmd by lia. done.
  - destruct (DataSegment_parse _ _ _ _) as [[[] m] s] eqn:E; [|done]. intros [= <- <-].
    apply parse_data_inv in E as (Hok & Hn & Hw); [|done..]. split_and!; [done|lia|lia|].
    intros Hd. cbn [segment_wire]. rewrite Hw, Hcut, <- Ecmd by lia. done.
  - destruct (CmdOnlySegment_parse _ _ _ _ _) as [[[] m] c] eqn:E; [|done]. intros [= <- <-].
    apply parse_cmd_inv in E as (Hok & -> & Hn & Hw); [|auto..]. split_and!; [done|lia|lia|].
    intros _. cbn [segment_wire]. rewrite Hw, Hcut, <- Ecmd by lia. done.
  - destruct (CmdOnlySegment_parse _ _ _ _ _) as [[[] m] c] eqn:E; [|done]. intros [= <- <-].
    apply parse_cmd_inv in E as (Hok & -> & Hn & Hw); [|auto..]. split_and!; [done|lia|lia|].
    intros _. cbn [segment_wire]. rewrite Hw, Hcut, <- Ecmd by lia. done.
Qed.
End kcp_segment_props.
