(* ===== verification/KcpBase.v ===== *)
(** The small KCP components: [config.rs] (derived sizes), [round_trip.rs] (the RTO
    estimator), [state.rs] (the six connection states) and [output.rs] (the segment
    writers).  [+ - *] on [u32] wrap, as in a release build. *)
From stdpp Require Import base tactics option list numbers.
From S2P Require Import Prelude Bytes NetTypes BytesMut Buffer BufferProps KcpSegment KcpSegmentProps.

(** * Configuration *)

(** The fields the code reads of the generated protobuf message. *)
Record Config : Type := mkConfig {
  cfg_mtu : Z;
  cfg_tti : Z;
  cfg_uplink_capacity : Z;
  cfg_downlink_capacity : Z;
  cfg_cwnd_multiplier : Z;
  cfg_max_sending_window : Z;
}.

Definition default_config : Config := mkConfig 1350 50 5 20 1 (2 * 1024 * 1024).

Definition in_flight_size (capacity : Z) (c : Config) : Z :=
  let mtu := Z.max (cfg_mtu c) 1 in
  let tti := Z.min (Z.max (cfg_tti c) 1) 1000 in
  let size := capacity *32 1024 *32 1024 / mtu / (1000 / tti) in
  if size <? 8 then 8 else size.

Definition get_sending_in_flight_size (c : Config) : Z := in_flight_size (cfg_uplink_capacity c) c.
Definition get_receiving_in_flight_size (c : Config) : Z := in_flight_size (cfg_downlink_capacity c) c.
Definition get_sending_buffer_size (c : Config) : Z := cfg_max_sending_window c / Z.max (cfg_mtu c) 1.

Definition config_ok (c : Config) : Prop :=
  is_u32 (cfg_mtu c) /\ is_u32 (cfg_tti c) /\ is_u32 (cfg_uplink_capacity c) /\
  is_u32 (cfg_downlink_capacity c) /\ is_u32 (cfg_cwnd_multiplier c) /\ is_u32 (cfg_max_sending_window c).

(** Whatever the configuration, the in-flight sizes are at least 8 and fit a [u32]. *)
Lemma in_flight_size_bounds cap c : config_ok c -> is_u32 (in_flight_size cap c) /\ 8 <= in_flight_size cap c.
Proof.
  intros _. unfold in_flight_size. set (t := cap *32 1024 *32 1024).
  assert (Ht : is_u32 t) by apply to_u32_range. unfold is_u32 in *.
  set (m := Z.max (cfg_mtu c) 1). set (d := 1000 / Z.min (Z.max (cfg_tti c) 1) 1000).
  assert (1 <= d) by (apply Z.div_le_lower_bound; lia). assert (1 <= m) by lia.
  assert (0 <= t / m <= t).
  { split; [apply Z.div_pos; lia|]. apply Z.div_le_upper_bound; nia. }
  assert (0 <= t / m / d <= t / m).
  { split; [apply Z.div_pos; lia|]. apply Z.div_le_upper_bound; nia. }
  zcases; lia.
Qed.

(** * Round-trip estimation *)

Record RoundTrip : Type := mkRoundTrip {
  rt_variation : Z;
  rt_srtt : Z;
  rt_rto : Z;
  rt_min_rtt : Z;
  rt_updated : Z;
}.

Definition RoundTripInfo_new (min_rtt : Z) : RoundTrip := mkRoundTrip 0 0 100 min_rtt 0.

Definition RoundTripInfo_update_peer_rto (rto current : Z) (r : RoundTrip) : RoundTrip :=
  if current -32 rt_updated r <? 3000 then r
  else mkRoundTrip (rt_variation r) (rt_srtt r) rto (rt_min_rtt r) current.

Definition abs_diff (a b : Z) : Z := if a <? b then b - a else a - b.

Definition RoundTripInfo_update (rtt current : Z) (r : RoundTrip) : RoundTrip :=
  if 2147483647 <? rtt then r
  else
    let '(srtt, variation) :=
      if rt_srtt r =? 0 then (rtt, rtt / 2)
      else
        let delta := abs_diff (rt_srtt r) rtt in
        let variation := (3 *32 rt_variation r +32 delta) / 4 in
        let srtt := (7 *32 rt_srtt r +32 rtt) / 8 in
        (if srtt <? rt_min_rtt r then rt_min_rtt r else srtt, variation) in
    let rto := if rt_min_rtt r <? 4 *32 variation then srtt +32 4 *32 variation else srtt +32 variation in
    let rto := if 10000 <? rto then 10000 else rto in
    mkRoundTrip variation srtt (rto *32 5 / 4) (rt_min_rtt r) current.

Definition RoundTripInfo_timeout (r : RoundTrip) : Z := rt_rto r.
Definition RoundTripInfo_smoothed_time (r : RoundTrip) : Z := rt_srtt r.

(** * States *)

Inductive State : Type := Active | ReadyToClose | PeerClosed | Terminating | PeerTerminating | Terminated.

#[export] Instance State_eq_dec : EqDecision State.
Proof. solve_decision. Defined.

Definition State_to_i32 (s : State) : Z :=
  match s with
  | Active => 0 | ReadyToClose => 1 | PeerClosed => 2 | Terminating => 3 | PeerTerminating => 4 | Terminated => 5
  end.

Definition State_from_i32 (v : Z) : option State :=
  if v =? 0 then Some Active
  else if v =? 1 then Some ReadyToClose
  else if v =? 2 then Some PeerClosed
  else if v =? 3 then Some Terminating
  else if v =? 4 then Some PeerTerminating
  else if v =? 5 then Some Terminated
  else None.

Definition State_is (s : State) (candidates : list State) : bool := bool_decide (s ∈ candidates).
Definition State_is_locally_closed (s : State) : bool :=
  match s with ReadyToClose | Terminating | Terminated => true | _ => false end.
Definition State_is_terminated (s : State) : bool := match s with Terminated => true | _ => false end.

(** * Output *)

Section output.
Context {M : Type} `{!BytesMutOps M} `{!BytesMutLaws M} `{!BufAlloc M} {W E : Type}.

(** [SimpleSegmentWriter]: the underlying writer's state and the scratch vector. *)
Record SimpleSegmentWriter : Type := mkSimpleWriter { sw_writer : W; sw_scratch : bytes }.

Definition SimpleSegmentWriter_new (writer : W) : SimpleSegmentWriter := mkSimpleWriter writer [].

(** [None]: [serialize] panics. *)
Definition SimpleSegmentWriter_write_segment (write_all : bytes -> W -> result E unit * W)
    (seg : SegmentKind M) (w : SimpleSegmentWriter) : option (result E unit * SimpleSegmentWriter) :=
  let size := Segment_byte_size seg in
  let scratch := if zlen (sw_scratch w) <? size
                 then sw_scratch w ++ zrepeat (size - zlen (sw_scratch w)) 0 else sw_scratch w in
  front ← Segment_serialize seg (ztake size scratch);
  let scratch := front ++ zdrop size scratch in
  let '(r, inner) := write_all (ztake size scratch) (sw_writer w) in
  Some (r, mkSimpleWriter inner scratch).

(** [RetryableWriter]: [retries + 1] attempts; the result of the loop and the inner
    writer's state ([S]); the sleeps between attempts are not modelled. *)
Fixpoint retry_loop {S} (write : S -> result E unit * S) (attempts : nat) (last_err : E) (s : S)
    : result E unit * S :=
  match attempts with
  | O => (Err last_err, s)
  | Datatypes.S k =>
      match write s with
      | (Ok _, s) => (Ok tt, s)
      | (Err e, s) => retry_loop write k e s
      end
  end.

Definition RetryableWriter_write_segment {S} (exhausted : E) (retries : Z)
    (write : SegmentKind M -> S -> result E unit * S) (seg : SegmentKind M) (s : S) : result E unit * S :=
  retry_loop (write seg) (Z.to_nat (retries + 1)) exhausted s.
End output.

Arguments SimpleSegmentWriter W : clear implicits.

(** * The estimator *)

(** The estimator over the integers, from the algorithm's description (RFC 6298 with
    the KCP coefficients). *)
Definition rtt_spec (rtt : Z) (r : RoundTrip) : Z * Z * Z :=
  let variation := if rt_srtt r =? 0 then rtt / 2 else (3 * rt_variation r + Z.abs (rt_srtt r - rtt)) / 4 in
  let srtt := if rt_srtt r =? 0 then rtt else Z.max (rt_min_rtt r) ((7 * rt_srtt r + rtt) / 8) in
  let raw := if rt_min_rtt r <? 4 * variation then srtt + 4 * variation else srtt + variation in
  (variation, srtt, Z.min 10000 raw * 5 / 4).

(** The state between samples shorter than ten seconds, for an update interval of at
    most ten seconds. *)
Definition rtt_ok (r : RoundTrip) : Prop :=
  0 <= rt_variation r <= 10000 /\ 0 <= rt_srtt r <= 10000 /\ 0 <= rt_min_rtt r <= 10000 /\
  is_u32 (rt_rto r) /\ is_u32 (rt_updated r).

Lemma to_u32_id x : 0 <= x < 4294967296 -> to_u32 x = x.
Proof. intros. by apply to_u32_small. Qed.

Lemma abs_diff_spec a b : abs_diff a b = Z.abs (a - b).
Proof. unfold abs_diff. zcases. Qed.

Lemma div_bounds x d lo hi : 0 < d -> lo * d <= x -> x < (hi + 1) * d -> lo <= x / d <= hi.
Proof.
  intros Hd Hl Hh. split; [apply Z.div_le_lower_bound; lia|].
  assert (x / d < hi + 1) by (apply Z.div_lt_upper_bound; lia). lia.
Qed.

Lemma update_rto_exact srtt variation min : 0 <= srtt <= 10000 -> 0 <= variation <= 10000 ->
  (let rto := if min <? 4 *32 variation then srtt +32 4 *32 variation else srtt +32 variation in
   (if 10000 <? rto then 10000 else rto) *32 5 / 4) =
  Z.min 10000 (if min <? 4 * variation then srtt + 4 * variation else srtt + variation) * 5 / 4.
Proof.
  intros Hs Hv. cbn zeta. rewrite !(to_u32_id (4 * variation)), !(to_u32_id (srtt + _)) by lia.
  set (raw := if min <? 4 * variation then _ else _).
  assert (0 <= raw <= 50000) by (unfold raw; zcases; lia).
  replace (if 10000 <? raw then 10000 else raw) with (Z.min 10000 raw) by (zcases; lia).
  by rewrite to_u32_id by lia.
Qed.

Lemma rtt_update_exact rtt current r : rtt_ok r -> 0 <= rtt < 10000 -> is_u32 current ->
  let r' := RoundTripInfo_update rtt current r in
  (rt_variation r', rt_srtt r', rt_rto r') = rtt_spec rtt r /\ rtt_ok r' /\
  rt_updated r' = current /\ rt_min_rtt r' = rt_min_rtt r /\ 0 <= rt_rto r' <= 12500.
Proof.
  intros (Hv & Hs & Hm & _ & _) Hr Hc. cbn zeta. unfold RoundTripInfo_update, rtt_spec.
  rewrite abs_diff_spec. zcase_goal; [lia|].
  rewrite !(to_u32_id (3 * _)), !(to_u32_id (3 * _ + _)), !(to_u32_id (7 * _)), !(to_u32_id (7 * _ + _)) by lia.
  assert (Hv' : 0 <= (3 * rt_variation r + Z.abs (rt_srtt r - rtt)) / 4 <= 10000) by (apply div_bounds; lia).
  assert (Hs' : 0 <= (7 * rt_srtt r + rtt) / 8 <= 10000) by (apply div_bounds; lia).
  assert (Hh : 0 <= rtt / 2 <= 10000) by (apply div_bounds; lia).
  set (pair := if rt_srtt r =? 0 then _ else _).
  set (v := if rt_srtt r =? 0 then rtt / 2 else _). set (s := if rt_srtt r =? 0 then rtt else _).
  assert (E : pair = (s, v)).
  { unfold pair, s, v. destruct (rt_srtt r =? 0); [done|]. f_equal. zcases; lia. }
  rewrite E. assert (0 <= s <= 10000 /\ 0 <= v <= 10000) as [Hsb Hvb] by (unfold s, v; zcase_goal; lia).
  rewrite (update_rto_exact s v) by done. cbn.
  set (raw := if rt_min_rtt r <? 4 * v then _ else _).
  assert (0 <= raw) by (unfold raw; zcases; lia).
  assert (0 <= Z.min 10000 raw * 5 / 4 <= 12500) by (apply div_bounds; lia).
  unfold rtt_ok, is_u32 in *. cbn. split_and!; try done; lia.
Qed.

(** the RTO estimator never wraps: for a sample under ten seconds (the only ones
    the sender feeds it) the 32-bit computation equals the integer formula, the state
    stays in its bounds, the new RTO is at most 12500 ms, and after the first sample
    the smoothed RTT is at least the update interval. *)
Theorem kcp_rtt_update_exact rtt current r : rtt_ok r -> 0 <= rtt < 10000 -> is_u32 current ->
  let r' := RoundTripInfo_update rtt current r in
  (rt_variation r', RoundTripInfo_smoothed_time r', RoundTripInfo_timeout r') = rtt_spec rtt r /\
  rtt_ok r' /\ RoundTripInfo_timeout r' <= 12500 /\
  (rt_srtt r <> 0 -> rt_min_rtt r <= RoundTripInfo_smoothed_time r').
Proof.
  intros Hok Hr Hc. cbn zeta. destruct (rtt_update_exact rtt current r Hok Hr Hc) as (E & Hok' & _ & _ & Hb).
  split; [exact E|]. split; [done|]. split; [apply Hb|]. intros Hne.
  unfold RoundTripInfo_smoothed_time. injection E as _ -> _. unfold rtt_spec. zcases; lia.
Qed.

(** * The writers *)

Section writers.
Context {M : Type} `{!BytesMutOps M} `{!BytesMutLaws M} `{!BufAlloc M} {W E : Type}.

(** The segment writer never panics and hands exactly the segment's wire form to
    the underlying writer, once, whatever its scratch vector held before. *)
Theorem kcp_simple_writer_exact (write_all : bytes -> W -> result E unit * W) (seg : SegmentKind M) w :
  segment_ok seg ->
  exists scratch, SimpleSegmentWriter_write_segment write_all seg w =
    Some ((write_all (segment_wire seg) (sw_writer w)).1,
          mkSimpleWriter (write_all (segment_wire seg) (sw_writer w)).2 scratch).
Proof.
  intros Hok. unfold SimpleSegmentWriter_write_segment.
  pose proof (segment_wire_len seg Hok) as Hl. pose proof (zlen_nonneg (segment_wire seg)).
  set (scratch := if _ <? _ then _ else _).
  assert (Hs : Segment_byte_size seg <= zlen scratch) by (unfold scratch; zcases; zlia).
  rewrite serialize_spec by (try done; zlia). cbn [mbind option_bind].
  rewrite zdrop_ge, app_nil_r by zlia. rewrite ztake_app by done.
  eexists. by destruct (write_all (segment_wire seg) (sw_writer w)).
Qed.

(** The retrying writer gives up only after [retries + 1] failures. *)
Lemma retry_loop_spec {S} (write : S -> result E unit * S) n e s :
  is_ok (retry_loop write n e s).1 = true <->
  exists i, (i < n)%nat /\ is_ok (write (Nat.iter i (fun s => (write s).2) s)).1 = true.
Proof.
  revert e s. induction n as [|n IH]; intros e s; cbn [retry_loop].
  { split; [done|]. intros (i & Hi & _). lia. }
  destruct (write s) as [[[]|e'] s'] eqn:Ew.
  - split; [|done]. intros _. exists 0%nat. cbn. rewrite Ew. split; [lia|done].
  - rewrite IH. split; intros (i & Hi & Hok).
    + exists (Datatypes.S i). split; [lia|]. rewrite Nat.iter_succ_r, Ew. exact Hok.
    + destruct i as [|i]; [cbn in Hok; by rewrite Ew in Hok|].
      exists i. split; [lia|]. by rewrite Nat.iter_succ_r, Ew in Hok.
Qed.
End writers.
