(* ===== verification/KcpSending.v ===== *)
(** [xray-transport-kcp/src/sending.rs]: the window of unacknowledged data segments and
    the worker around it.  The [VecDeque] is a list, the mutex-guarded [Inner] a
    record; the shared RTO estimator is passed to the calls that read or update it. *)
From stdpp Require Import base tactics option list numbers.
From S2P Require Import Prelude Bytes NetTypes BytesMut Buffer BufferProps KcpSegment KcpSegmentProps KcpBase.

Section sending.
Context {M : Type} `{!BytesMutOps M} `{!BufAlloc M}.

(** * The window *)

Record SendingWindow : Type := mkSendingWindow {
  sw_cache : list (DataSegment M);
  sw_total_in_flight_size : Z;
}.

Definition SendingWindow_new : SendingWindow := mkSendingWindow [] 0.
Definition SendingWindow_release (w : SendingWindow) : SendingWindow :=
  mkSendingWindow [] (sw_total_in_flight_size w).
Definition SendingWindow_len (w : SendingWindow) : Z := to_u32 (zlen (sw_cache w)).
Definition SendingWindow_is_empty (w : SendingWindow) : bool := zlen (sw_cache w) =? 0.

Definition SendingWindow_push (number : Z) (payload : Buffer M) (w : SendingWindow) : SendingWindow :=
  mkSendingWindow (sw_cache w ++ [mkDataSegment 0 0 0 number 0 (Some payload) 0 0]) (sw_total_in_flight_size w).

Definition SendingWindow_first_number (w : SendingWindow) : option Z := ds_number <$> head (sw_cache w).

Fixpoint drop_before (una : Z) (l : list (DataSegment M)) : list (DataSegment M) :=
  match l with
  | [] => []
  | s :: tl => if una <=? ds_number s then s :: tl else drop_before una tl
  end.

Definition SendingWindow_clear_before (una : Z) (w : SendingWindow) : SendingWindow :=
  mkSendingWindow (drop_before una (sw_cache w)) (sw_total_in_flight_size w).

Definition DataSegment_set_timeout (t : Z) (s : DataSegment M) : DataSegment M :=
  mkDataSegment (ds_conv s) (ds_option s) (ds_timestamp s) (ds_number s) (ds_sending_next s) (ds_payload s)
    t (ds_transmit s).

(** The loop of [handle_fast_ack], up to its [break]. *)
Fixpoint fast_ack_loop (number rto : Z) (l : list (DataSegment M)) : list (DataSegment M) :=
  match l with
  | [] => []
  | s :: tl =>
      if (number =? ds_number s) || (2147483647 <? number -32 ds_number s) then s :: tl
      else
        let s' := if (0 <? ds_transmit s) && (rto / 3 <? ds_timeout s)
                  then DataSegment_set_timeout (ds_timeout s - rto / 3) s else s in
        s' :: fast_ack_loop number rto tl
  end.

Definition SendingWindow_handle_fast_ack (number rto : Z) (w : SendingWindow) : SendingWindow :=
  if SendingWindow_is_empty w then w
  else mkSendingWindow (fast_ack_loop number rto (sw_cache w)) (sw_total_in_flight_size w).

(** [iter().position(...)] and [remove(idx)]: the first segment of that number. *)
Fixpoint remove_number (number : Z) (l : list (DataSegment M)) : option (list (DataSegment M)) :=
  match l with
  | [] => None
  | s :: tl => if ds_number s =? number then Some tl else (s ::.) <$> remove_number number tl
  end.

Definition SendingWindow_remove (number : Z) (w : SendingWindow) : bool * SendingWindow :=
  match remove_number number (sw_cache w) with
  | Some cache =>
      (true, mkSendingWindow cache
               (if 0 <? sw_total_in_flight_size w then sw_total_in_flight_size w - 1
                else sw_total_in_flight_size w))
  | None => (false, w)
  end.

Definition clone_for_send (s : DataSegment M) : DataSegment M :=
  mkDataSegment (ds_conv s) (ds_option s) (ds_timestamp s) (ds_number s) (ds_sending_next s)
    ((fun b => (Buffer_write_from (Buffer_bytes b) Buffer_new).2) <$> ds_payload s)
    (ds_timeout s) (ds_transmit s).

Record FlushPreparation : Type := mkFlushPreparation {
  fp_to_send : list (DataSegment M);
  fp_lost : Z;
  fp_in_flight : Z;
  fp_total_in_flight_size : Z;
}.

(** The segment as the loop of [prepare_flush] leaves it when it is sent. *)
Definition stamp (current rto conv : Z) (state : State) (first_unacknowledged : Z) (s : DataSegment M)
    : DataSegment M :=
  mkDataSegment conv (if bool_decide (state = ReadyToClose) then SEGMENT_OPTION_CLOSE else 0) current
    (ds_number s) first_unacknowledged (ds_payload s) (current +32 rto) (ds_transmit s +32 1).

(** The loop over the cache; the accumulator is (lost, in_flight, total) and the
    result (cache, to_send, lost, in_flight, total). *)
Fixpoint prepare_loop (current rto max_in_flight conv : Z) (state : State) (first_unacknowledged : Z)
    (l : list (DataSegment M)) (lost in_flight total : Z)
    : list (DataSegment M) * list (DataSegment M) * Z * Z * Z :=
  match l with
  | [] => ([], [], lost, in_flight, total)
  | s :: tl =>
      if 2147483647 <=? current -32 ds_timeout s then
        let '(c, ts, lost, in_flight, total) :=
          prepare_loop current rto max_in_flight conv state first_unacknowledged tl lost in_flight total in
        (s :: c, ts, lost, in_flight, total)
      else
        let '(lost, total) := if ds_transmit s =? 0 then (lost, total +32 1) else (lost +32 1, total) in
        let s := stamp current rto conv state first_unacknowledged s in
        let in_flight := in_flight +32 1 in
        if max_in_flight <=? in_flight then (s :: tl, [clone_for_send s], lost, in_flight, total)
        else
          let '(c, ts, lost, in_flight, total) :=
            prepare_loop current rto max_in_flight conv state first_unacknowledged tl lost in_flight total in
          (s :: c, clone_for_send s :: ts, lost, in_flight, total)
  end.

Definition SendingWindow_prepare_flush (current rto max_in_flight conv : Z) (state : State)
    (first_unacknowledged : Z) (w : SendingWindow) : FlushPreparation * SendingWindow :=
  let '(cache, to_send, lost, in_flight, total) :=
    prepare_loop current rto max_in_flight conv state first_unacknowledged (sw_cache w) 0 0
      (sw_total_in_flight_size w) in
  (mkFlushPreparation to_send lost in_flight total, mkSendingWindow cache total).

(** * The congestion window *)

Definition adjust_control_window (current loss_rate : Z) (config : Config) : Z :=
  let new_cwnd := current in
  let new_cwnd := if 15 <=? loss_rate then 3 *32 new_cwnd / 4 else new_cwnd in
  let new_cwnd := if loss_rate <=? 5 then new_cwnd +32 new_cwnd / 4 else new_cwnd in
  let new_cwnd := if new_cwnd <? 16 then 16 else new_cwnd in
  let max_cwnd := get_sending_in_flight_size config in
  if max_cwnd <? new_cwnd then max_cwnd else new_cwnd.

(** * The worker *)

Record SendingInner : Type := mkSendingInner {
  si_window : SendingWindow;
  si_first_unacknowledged : Z;
  si_next_number : Z;
  si_remote_next_number : Z;
  si_control_window : Z;
  si_window_size : Z;
  si_first_unacknowledged_updated : bool;
  si_closed : bool;
}.

Definition SendingWorker_new (config : Config) : SendingInner :=
  mkSendingInner SendingWindow_new 0 0 32 (get_sending_in_flight_size config)
    (get_sending_buffer_size config) false false.

Definition si_set_window (w : SendingWindow) (i : SendingInner) : SendingInner :=
  mkSendingInner w (si_first_unacknowledged i) (si_next_number i) (si_remote_next_number i)
    (si_control_window i) (si_window_size i) (si_first_unacknowledged_updated i) (si_closed i).

Definition SendingWorker_release (i : SendingInner) : SendingInner :=
  mkSendingInner (SendingWindow_release (si_window i)) (si_first_unacknowledged i) (si_next_number i)
    (si_remote_next_number i) (si_control_window i) (si_window_size i) (si_first_unacknowledged_updated i) true.

Definition find_first_unacknowledged (i : SendingInner) : SendingInner :=
  let first := si_first_unacknowledged i in
  let una := default (si_next_number i) (SendingWindow_first_number (si_window i)) in
  mkSendingInner (si_window i) una (si_next_number i) (si_remote_next_number i) (si_control_window i)
    (si_window_size i) (if negb (first =? una) then true else si_first_unacknowledged_updated i) (si_closed i).

Definition SendingWorker_process_receiving_next (next_number : Z) (i : SendingInner) : SendingInner :=
  find_first_unacknowledged (si_set_window (SendingWindow_clear_before next_number (si_window i)) i).

Definition process_ack (number : Z) (i : SendingInner) : bool * SendingInner :=
  let too_low := 2147483647 <? number -32 si_first_unacknowledged i in
  let too_high := number -32 si_next_number i <? 2147483647 in
  if too_low || too_high then (false, i)
  else
    let '(removed, w) := SendingWindow_remove number (si_window i) in
    let i := si_set_window w i in
    (removed, if removed then find_first_unacknowledged i else i).

(** The loop over the acknowledged numbers: (maxack, maxack_removed, self). *)
Fixpoint ack_loop (numbers : list Z) (maxack : Z) (maxack_removed : bool) (i : SendingInner)
    : Z * bool * SendingInner :=
  match numbers with
  | [] => (maxack, maxack_removed, i)
  | number :: numbers =>
      let '(removed, i) := process_ack number i in
      if maxack <? number then ack_loop numbers number removed i
      else ack_loop numbers maxack maxack_removed i
  end.

Definition si_set_remote_next (n : Z) (i : SendingInner) : SendingInner :=
  mkSendingInner (si_window i) (si_first_unacknowledged i) (si_next_number i) n (si_control_window i)
    (si_window_size i) (si_first_unacknowledged_updated i) (si_closed i).

(** (self, the RTO estimator afterwards) *)
Definition SendingWorker_process_ack_segment (current : Z) (ack : AckSegment) (rto : Z)
    (i : SendingInner) (rtt : RoundTrip) : SendingInner * RoundTrip :=
  if si_closed i then (i, rtt)
  else
    let i := if si_remote_next_number i <? ak_receiving_window ack
             then si_set_remote_next (ak_receiving_window ack) i else i in
    let i := si_set_window (SendingWindow_clear_before (ak_receiving_next ack) (si_window i)) i in
    let i := find_first_unacknowledged i in
    if AckSegment_is_empty ack then (i, rtt)
    else
      let '(maxack, maxack_removed, i) := ack_loop (ak_number_list ack) 0 false i in
      let i := if maxack_removed
               then si_set_window (SendingWindow_handle_fast_ack maxack rto (si_window i)) i else i in
      if maxack_removed then
        let diff := current -32 ak_timestamp ack in
        (i, if diff <? 10000 then RoundTripInfo_update diff current rtt else rtt)
      else (i, rtt).

Definition SendingWorker_push (payload : Buffer M) (i : SendingInner) : bool * SendingInner :=
  if si_closed i then (false, i)
  else if si_window_size i <? SendingWindow_len (si_window i) then (false, i)
  else
    let next := si_next_number i in
    (true, mkSendingInner (SendingWindow_push next payload (si_window i)) (si_first_unacknowledged i)
             (next +32 1) (si_remote_next_number i) (si_control_window i) (si_window_size i)
             (si_first_unacknowledged_updated i) (si_closed i)).

(** [saturating_mul] *)
Definition sat_mul32 (a b : Z) : Z := Z.min 4294967295 (a * b).

(** The effective congestion window of a flush. *)
Definition flush_cwnd (config : Config) (i : SendingInner) : Z :=
  let cwnd := get_sending_in_flight_size config in
  let una_diff := si_remote_next_number i -32 si_first_unacknowledged i in
  let cwnd := if una_diff <? cwnd then una_diff else cwnd in
  let cwnd := if si_control_window i <? cwnd then si_control_window i else cwnd in
  sat_mul32 cwnd (Z.max (cfg_cwnd_multiplier config) 1).

(** [flush_with_writer]: (the segments given to the writer, in order; [needs_ping];
    self).  [first_unacknowledged_updated] is cleared before it is read. *)
Definition SendingWorker_flush_with_writer (current conv : Z) (config : Config) (rtt : RoundTrip)
    (state : State) (i : SendingInner) : list (DataSegment M) * bool * SendingInner :=
  if si_closed i then ([], false, i)
  else
    let cwnd := flush_cwnd config i in
    let rto := RoundTripInfo_timeout rtt in
    let '(prep, w) := SendingWindow_prepare_flush current rto cwnd conv state
                        (si_first_unacknowledged i) (si_window i) in
    let control_window :=
      if (0 <? fp_in_flight prep) && (0 <? fp_total_in_flight_size prep) then
        let rate := fp_lost prep *32 100 / fp_total_in_flight_size prep in
        adjust_control_window (si_control_window i) rate config
      else si_control_window i in
    let cleared := false in
    let updated := cleared in
    (fp_to_send prep, updated,
     mkSendingInner w (si_first_unacknowledged i) (si_next_number i) (si_remote_next_number i)
       control_window (si_window_size i) false (si_closed i)).

Definition SendingWorker_close_write (i : SendingInner) : SendingInner :=
  si_set_window (SendingWindow_clear_before 4294967295 (si_window i)) i.

Definition SendingWorker_is_empty (i : SendingInner) : bool := SendingWindow_is_empty (si_window i).
Definition SendingWorker_update_necessary (i : SendingInner) : bool := negb (SendingWorker_is_empty i).

End sending.

Arguments SendingWindow M : clear implicits.
Arguments SendingInner M : clear implicits.
Arguments FlushPreparation M : clear implicits.
