(* ===== verification/KcpReceiving.v ===== *)
(** [xray-transport-kcp/src/receiving.rs]: the reorder window (a [HashMap], here a
    [gmap]), the list of acknowledgements to send (three parallel vectors) and the
    worker around them. *)
From stdpp Require Import base tactics option list numbers gmap.
From S2P Require Import Prelude Bytes NetTypes BytesMut Buffer BufferProps MultiBuffer.
From S2P Require Import KcpSegment KcpSegmentProps KcpBase.

(** * The acknowledgement list *)

Record AckList : Type := mkAckList {
  al_timestamps : list Z;
  al_numbers : list Z;
  al_next_flush : list Z;
  al_flush_candidates : list Z;
  al_candidates_cap : Z;
  al_dirty : bool;
  al_mss : Z;
}.

Definition AckList_new (mss : Z) : AckList := mkAckList [] [] [] [] 128 false mss.

Definition AckList_add (number timestamp : Z) (l : AckList) : AckList :=
  mkAckList (al_timestamps l ++ [timestamp]) (al_numbers l ++ [number]) (al_next_flush l ++ [0])
    (al_flush_candidates l) (al_candidates_cap l) true (al_mss l).

(** The compaction loop of [clear]: [i] runs over the indices, [count] is the write
    position; the three vectors are updated in place. *)
Fixpoint clear_loop (una : Z) (fuel i count : nat) (ns ts fs : list Z) : nat * list Z * list Z * list Z :=
  match fuel with
  | O => (count, ns, ts, fs)
  | S fuel =>
      if ns !!! i <? una then clear_loop una fuel (S i) count ns ts fs
      else
        let '(ns, ts, fs) :=
          if negb (Nat.eqb i count)
          then (<[count := ns !!! i]> ns, <[count := ts !!! i]> ts, <[count := fs !!! i]> fs)
          else (ns, ts, fs) in
        clear_loop una fuel (S i) (S count) ns ts fs
  end.

Definition AckList_clear (una : Z) (l : AckList) : AckList :=
  let len := length (al_numbers l) in
  let '(count, ns, ts, fs) := clear_loop una len 0 0 (al_numbers l) (al_timestamps l) (al_next_flush l) in
  if Nat.ltb count len
  then mkAckList (take count ts) (take count ns) (take count fs) (al_flush_candidates l)
         (al_candidates_cap l) true (al_mss l)
  else mkAckList ts ns fs (al_flush_candidates l) (al_candidates_cap l) (al_dirty l) (al_mss l).

(** The state of the scan of [flush]. *)
Record FlushScan : Type := mkFlushScan {
  fs_next_flush : list Z;
  fs_candidates : list Z;
  fs_out : list AckSegment;
  fs_seg : AckSegment;
  fs_dirty : bool;
}.

(** One turn of the scan, for index [i]. *)
Definition flush_turn (numbers timestamps : list Z) (cap limit current rto : Z) (i : nat) (s : FlushScan)
    : FlushScan :=
  if current <? fs_next_flush s !!! i then
    mkFlushScan (fs_next_flush s)
      (if zlen (fs_candidates s) <? cap then fs_candidates s ++ [numbers !!! i] else fs_candidates s)
      (fs_out s) (fs_seg s) (fs_dirty s)
  else
    let seg := AckSegment_put_timestamp (timestamps !!! i) (AckSegment_put_number (numbers !!! i) (fs_seg s)) in
    let timeout := rto / 2 in
    let timeout := if timeout <? 20 then 20 else timeout in
    let next_flush := <[i := current +32 timeout]> (fs_next_flush s) in
    if AckSegment_is_full seg
    then mkFlushScan next_flush (fs_candidates s) (fs_out s ++ [seg]) (AckSegment_new limit) false
    else mkFlushScan next_flush (fs_candidates s) (fs_out s) seg (fs_dirty s).

(** [for i in 0..len] *)
Fixpoint flush_scan (numbers timestamps : list Z) (cap limit current rto : Z) (n i : nat) (s : FlushScan)
    : FlushScan :=
  match n with
  | O => s
  | S n =>
      flush_scan numbers timestamps cap limit current rto n (S i)
        (flush_turn numbers timestamps cap limit current rto i s)
  end.

(** Candidates fill the remaining room of the last segment. *)
Fixpoint fill_candidates (cands : list Z) (seg : AckSegment) : AckSegment :=
  match cands with
  | [] => seg
  | number :: cands =>
      if AckSegment_is_full seg then seg else fill_candidates cands (AckSegment_put_number number seg)
  end.

Definition AckList_flush (current rto : Z) (l : AckList) : list AckSegment * AckList :=
  let limit := Z.max 0 (al_mss l - 17) / 4 in
  let s := flush_scan (al_numbers l) (al_timestamps l) (al_candidates_cap l) limit current rto
             (length (al_numbers l)) 0
             (mkFlushScan (al_next_flush l) [] [] (AckSegment_new limit) (al_dirty l)) in
  let last := fs_dirty s || negb (AckSegment_is_empty (fs_seg s)) in
  let out := if last then fs_out s ++ [fill_candidates (fs_candidates s) (fs_seg s)] else fs_out s in
  (out, mkAckList (al_timestamps l) (al_numbers l) (fs_next_flush s) (fs_candidates s) (al_candidates_cap l)
          (if last then false else fs_dirty s) (al_mss l)).

Definition AckList_pending_len (l : AckList) : Z := zlen (al_numbers l).

(** * The window and the worker *)

Section receiving.
Context {M : Type} `{!BytesMutOps M} `{!BufAlloc M}.

Abbreviation Window := (gmap Z (DataSegment M)).

(** [set]: the segment handed back when the number is already there. *)
Definition ReceivingWindow_set (id : Z) (value : DataSegment M) (w : Window) : option (DataSegment M) * Window :=
  match w !! id with
  | Some _ => (Some value, w)
  | None => (None, <[id := value]> w)
  end.
Definition ReceivingWindow_has (id : Z) (w : Window) : bool := bool_decide (is_Some (w !! id)).
Definition ReceivingWindow_remove (id : Z) (w : Window) : option (DataSegment M) * Window :=
  (w !! id, delete id w).

Record ReceivingWorker : Type := mkReceivingWorker {
  rw_window : Window;
  rw_acklist : AckList;
  rw_next_number : Z;
  rw_window_size : Z;
  rw_left_over : option (MultiBuffer M);
}.

Definition ReceivingWorker_new (config : Config) (mss : Z) : ReceivingWorker :=
  mkReceivingWorker ∅ (AckList_new mss) 0 (get_receiving_in_flight_size config) None.

Definition ReceivingWorker_release (r : ReceivingWorker) : ReceivingWorker :=
  mkReceivingWorker (rw_window r) (rw_acklist r) (rw_next_number r) (rw_window_size r) None.

Definition rw_set_acklist (l : AckList) (r : ReceivingWorker) : ReceivingWorker :=
  mkReceivingWorker (rw_window r) l (rw_next_number r) (rw_window_size r) (rw_left_over r).

Definition ReceivingWorker_process_sending_next (number : Z) (r : ReceivingWorker) : ReceivingWorker :=
  rw_set_acklist (AckList_clear number (rw_acklist r)) r.

Definition ReceivingWorker_process_segment (seg : DataSegment M) (r : ReceivingWorker) : ReceivingWorker :=
  let number := ds_number seg in
  let idx := number -32 rw_next_number r in
  if rw_window_size r <=? idx then r
  else
    let acklist := AckList_clear (ds_sending_next seg) (rw_acklist r) in
    let acklist := AckList_add number (ds_timestamp seg) acklist in
    let '(_, window) := ReceivingWindow_set (ds_number seg) seg (rw_window r) in
    mkReceivingWorker window acklist (rw_next_number r) (rw_window_size r) (rw_left_over r).

(** The [loop] of [read_multi_buffer]: it ends because every turn removes an entry, so
    the size of the window bounds it. *)
Fixpoint drain (fuel : nat) (w : Window) (next : Z) (mb : MultiBuffer M) : Window * Z * MultiBuffer M :=
  match fuel with
  | O => (w, next, mb)
  | S fuel =>
      match ReceivingWindow_remove next w with
      | (None, w) => (w, next, mb)
      | (Some seg, w) =>
          let '(payload, _) := DataSegment_detach seg in
          drain fuel w (next +32 1)
            (match payload with Some buf => MultiBuffer_push buf mb | None => mb end)
      end
  end.

Definition ReceivingWorker_read_multi_buffer (r : ReceivingWorker) : MultiBuffer M * ReceivingWorker :=
  match rw_left_over r with
  | Some mb => (mb, mkReceivingWorker (rw_window r) (rw_acklist r) (rw_next_number r) (rw_window_size r) None)
  | None =>
      let '(w, next, mb) := drain (S (size (rw_window r))) (rw_window r) (rw_next_number r) MultiBuffer_new in
      (mb, mkReceivingWorker w (rw_acklist r) next (rw_window_size r) None)
  end.

(** [read(b)]: the bytes written to the front of [b], of length [want]; [None] if
    [split_bytes] panics.  An empty [mb] is dropped. *)
Definition ReceivingWorker_read (want : Z) (r : ReceivingWorker) : option (bytes * ReceivingWorker) :=
  let '(mb, r) := ReceivingWorker_read_multi_buffer r in
  if MultiBuffer_is_empty mb then Some ([], r)
  else
    '(split, mb) ← MultiBuffer_split_bytes want mb;
    Some (concat (map Buffer_bytes (mb_buffers split)),
          if negb (MultiBuffer_is_empty mb)
          then mkReceivingWorker (rw_window r) (rw_acklist r) (rw_next_number r) (rw_window_size r) (Some mb)
          else r).

Definition ReceivingWorker_is_data_available (r : ReceivingWorker) : bool :=
  ReceivingWindow_has (rw_next_number r) (rw_window r).
Definition ReceivingWorker_update_necessary (r : ReceivingWorker) : bool :=
  0 <? AckList_pending_len (rw_acklist r).

(** [flush]: the acknowledgements to send, with the worker's fields filled in. *)
Definition ReceivingWorker_flush (current conv : Z) (rtt : RoundTrip) (state : State) (r : ReceivingWorker)
    : list AckSegment * ReceivingWorker :=
  let rto := RoundTripInfo_timeout rtt in
  let next_number := rw_next_number r in
  let window_size := rw_window_size r in
  let '(segments, acklist) := AckList_flush current rto (rw_acklist r) in
  let option := if bool_decide (state = ReadyToClose) then SEGMENT_OPTION_CLOSE else 0 in
  (map (fun seg => mkAckSegment conv option (next_number +32 window_size) next_number (ak_timestamp seg)
                     (ak_number_list seg) (ak_limit seg)) segments,
   rw_set_acklist acklist r).

Definition ReceivingWorker_close_read (r : ReceivingWorker) : ReceivingWorker := r.

End receiving.

Arguments ReceivingWorker M : clear implicits.
