(* ===== verification/KcpConnection.v ===== *)
(** [xray-transport-kcp/src/connection.rs]: the connection that ties the workers, the
    RTO estimator and the state machine together.

    A call happens at one instant: [now] is what [elapsed()] reads during it.  What a
    call does outside the connection, in order, is its [cn_trace]: segments given to
    the writer (whose result the code ignores), [notify_one] on the two [Notify]s,
    calls to the optional updaters and [closer.close()].  The background tasks of the
    updaters and the async wait loop are not modelled; they only call [flush] and
    re-check [read]/[write]. *)
From stdpp Require Import base tactics option list numbers gmap.
From S2P Require Import Prelude Bytes NetTypes BytesMut Buffer BufferProps MultiBuffer.
From S2P Require Import KcpSegment KcpSegmentProps KcpBase KcpSending KcpReceiving.

Definition STALE_TIMEOUT_MS : Z := 30000.
Definition PING_INTERVAL_MS : Z := 3000.
Definition TERMINATING_TIMEOUT_MS : Z := 8000.
Definition PEER_TERMINATING_TIMEOUT_MS : Z := 4000.
Definition READY_TO_CLOSE_TIMEOUT_MS : Z := 15000.

Inductive KcpError : Type := ClosedConnection.

Section connection.
Context {M : Type} `{!BytesMutOps M} `{!BufAlloc M}.

Inductive Event : Type :=
| EvSegment (s : SegmentKind M)
| EvNotifyInput
| EvNotifyOutput
| EvWakeData
| EvWakePing
| EvPingInterval (ms : Z)
| EvCloseSocket.

Record Connection : Type := mkConnection {
  cn_conv : Z;
  cn_state : State;
  cn_state_begin_time : Z;
  cn_last_incoming_time : Z;
  cn_last_ping_time : Z;
  cn_mss : Z;
  cn_round_trip : RoundTrip;
  cn_config : Config;
  cn_sending : SendingInner M;
  cn_receiving : ReceivingWorker M;
  cn_trace : list Event;
}.

Definition cn_emit (es : list Event) (c : Connection) : Connection :=
  mkConnection (cn_conv c) (cn_state c) (cn_state_begin_time c) (cn_last_incoming_time c) (cn_last_ping_time c)
    (cn_mss c) (cn_round_trip c) (cn_config c) (cn_sending c) (cn_receiving c) (cn_trace c ++ es).
Definition cn_enter (s : State) (now : Z) (c : Connection) : Connection :=
  mkConnection (cn_conv c) s now (cn_last_incoming_time c) (cn_last_ping_time c)
    (cn_mss c) (cn_round_trip c) (cn_config c) (cn_sending c) (cn_receiving c) (cn_trace c).
Definition cn_set_incoming (now : Z) (c : Connection) : Connection :=
  mkConnection (cn_conv c) (cn_state c) (cn_state_begin_time c) now (cn_last_ping_time c)
    (cn_mss c) (cn_round_trip c) (cn_config c) (cn_sending c) (cn_receiving c) (cn_trace c).
Definition cn_set_ping (now : Z) (c : Connection) : Connection :=
  mkConnection (cn_conv c) (cn_state c) (cn_state_begin_time c) (cn_last_incoming_time c) now
    (cn_mss c) (cn_round_trip c) (cn_config c) (cn_sending c) (cn_receiving c) (cn_trace c).
Definition cn_set_rtt (r : RoundTrip) (c : Connection) : Connection :=
  mkConnection (cn_conv c) (cn_state c) (cn_state_begin_time c) (cn_last_incoming_time c) (cn_last_ping_time c)
    (cn_mss c) r (cn_config c) (cn_sending c) (cn_receiving c) (cn_trace c).
Definition cn_set_sending (s : SendingInner M) (c : Connection) : Connection :=
  mkConnection (cn_conv c) (cn_state c) (cn_state_begin_time c) (cn_last_incoming_time c) (cn_last_ping_time c)
    (cn_mss c) (cn_round_trip c) (cn_config c) s (cn_receiving c) (cn_trace c).
Definition cn_set_receiving (r : ReceivingWorker M) (c : Connection) : Connection :=
  mkConnection (cn_conv c) (cn_state c) (cn_state_begin_time c) (cn_last_incoming_time c) (cn_last_ping_time c)
    (cn_mss c) (cn_round_trip c) (cn_config c) (cn_sending c) r (cn_trace c).

(** [build]: a new connection, without its updaters' tasks; [ping_updater.wake_up_arc()]
    when there are updaters. *)
Definition Connection_build (conv : Z) (config : Config) (with_updaters : bool) : Connection :=
  let mss := Z.max 0 (cfg_mtu config - DATA_SEGMENT_OVERHEAD) in
  mkConnection conv Active 0 0 0 mss (RoundTripInfo_new (cfg_tti config)) config
    (SendingWorker_new config) (ReceivingWorker_new config (mss + DATA_SEGMENT_OVERHEAD))
    (if with_updaters then [EvWakePing] else []).

Definition close_write (c : Connection) : Connection :=
  cn_set_sending (SendingWorker_close_write (cn_sending c)) c.
Definition close_read (c : Connection) : Connection :=
  cn_set_receiving (ReceivingWorker_close_read (cn_receiving c)) c.

Definition Connection_terminate (c : Connection) : Connection :=
  let c := cn_emit [EvNotifyInput; EvNotifyOutput; EvCloseSocket] c in
  let c := cn_set_sending (SendingWorker_release (cn_sending c)) c in
  cn_set_receiving (ReceivingWorker_release (cn_receiving c)) c.

Definition Connection_set_state (state : State) (now : Z) (c : Connection) : Connection :=
  let c := cn_enter state now c in
  match state with
  | ReadyToClose => close_read c
  | PeerClosed => close_write c
  | Terminating => cn_emit [EvPingInterval 1000] (close_write (close_read c))
  | PeerTerminating => cn_emit [EvPingInterval 1000] (close_write c)
  | Terminated =>
      Connection_terminate (cn_emit [EvPingInterval 1000; EvWakeData; EvWakePing] (close_write (close_read c)))
  | Active => c
  end.

Definition Connection_close (now : Z) (c : Connection) : result KcpError unit * Connection :=
  let c := cn_emit [EvNotifyInput; EvNotifyOutput] c in
  match cn_state c with
  | ReadyToClose | Terminating | Terminated => (Err ClosedConnection, c)
  | Active => (Ok tt, Connection_set_state ReadyToClose now c)
  | PeerClosed => (Ok tt, Connection_set_state Terminating now c)
  | PeerTerminating => (Ok tt, Connection_set_state Terminated now c)
  end.

Definition Connection_on_peer_closed (now : Z) (c : Connection) : Connection :=
  match cn_state c with
  | ReadyToClose => Connection_set_state Terminating now c
  | Active => Connection_set_state PeerClosed now c
  | _ => c
  end.

Definition Connection_handle_option (opt now : Z) (c : Connection) : Connection :=
  if Z.land opt SEGMENT_OPTION_CLOSE =? SEGMENT_OPTION_CLOSE then Connection_on_peer_closed now c else c.

(** The three arms of [input], after the conversation test. *)
Definition input_data (data : DataSegment M) (current : Z) (c : Connection) : Connection :=
  let c := Connection_handle_option (ds_option data) current c in
  let c := cn_set_receiving (ReceivingWorker_process_segment data (cn_receiving c)) c in
  let c := if ReceivingWorker_is_data_available (cn_receiving c) then cn_emit [EvNotifyInput] c else c in
  cn_emit [EvWakeData] c.

Definition input_ack (ack : AckSegment) (current : Z) (c : Connection) : Connection :=
  let rto := RoundTripInfo_timeout (cn_round_trip c) in
  let c := Connection_handle_option (ak_option ack) current c in
  let '(s, rtt) := SendingWorker_process_ack_segment current ack rto (cn_sending c) (cn_round_trip c) in
  cn_emit [EvNotifyOutput; EvWakeData] (cn_set_rtt rtt (cn_set_sending s c)).

Definition input_cmd (cmd : CmdOnlySegment) (current : Z) (c : Connection) : Connection :=
  let opt := co_option cmd in
  let terminate := bool_decide (co_cmd cmd = CmdTerminate) in
  let c := Connection_handle_option opt current c in
  let c :=
    if terminate then
      match cn_state c with
      | Active | PeerClosed => Connection_set_state PeerTerminating current c
      | ReadyToClose => Connection_set_state Terminating current c
      | Terminating => Connection_set_state Terminated current c
      | _ => c
      end
    else c in
  let c := if (opt =? SEGMENT_OPTION_CLOSE) || terminate
           then cn_emit [EvNotifyInput; EvNotifyOutput] c else c in
  let c := cn_set_sending (SendingWorker_process_receiving_next (co_receiving_next cmd) (cn_sending c)) c in
  let c := cn_set_receiving (ReceivingWorker_process_sending_next (co_sending_next cmd) (cn_receiving c)) c in
  cn_set_rtt (RoundTripInfo_update_peer_rto (co_peer_rto cmd) current (cn_round_trip c)) c.

Definition input_one (seg : SegmentKind M) (current : Z) (c : Connection) : Connection :=
  match seg with
  | KData data => input_data data current c
  | KAck ack => input_ack ack current c
  | KCmd cmd => input_cmd cmd current c
  end.

(** The [for] loop, up to its [break]. *)
Fixpoint input_loop (segments : list (SegmentKind M)) (current : Z) (c : Connection) : Connection :=
  match segments with
  | [] => c
  | seg :: segments =>
      if negb (SegmentKind_conversation seg =? cn_conv c) then c
      else input_loop segments current (input_one seg current c)
  end.

Definition Connection_input (segments : list (SegmentKind M)) (now : Z) (c : Connection) : Connection :=
  input_loop segments now (cn_set_incoming now c).

Definition ping_inner (current : Z) (cmd : Command) (c : Connection) : Connection :=
  let seg := mkCmdOnlySegment (cn_conv c) cmd
               (if bool_decide (cn_state c = ReadyToClose) then SEGMENT_OPTION_CLOSE else 0)
               (si_first_unacknowledged (cn_sending c)) (rw_next_number (cn_receiving c))
               (RoundTripInfo_timeout (cn_round_trip c)) in
  cn_set_ping current (cn_emit [EvSegment (KCmd seg)] c).

(** The tail of [flush_inner]: the workers, then the keep-alive ping. *)
Definition flush_workers (current : Z) (c : Connection) : Connection :=
  let '(acks, r) := ReceivingWorker_flush current (cn_conv c) (cn_round_trip c) (cn_state c) (cn_receiving c) in
  let c := cn_emit (map (fun a => EvSegment (KAck a)) acks) (cn_set_receiving r c) in
  let '(segs, _, s) := SendingWorker_flush_with_writer current (cn_conv c) (cn_config c) (cn_round_trip c)
                         (cn_state c) (cn_sending c) in
  let c := cn_emit (map (fun d => EvSegment (KData d)) segs) (cn_set_sending s c) in
  if PING_INTERVAL_MS <=? current -32 cn_last_ping_time c then ping_inner current CmdPing c else c.

(** The transition into [Terminating] that three places of [flush_inner] make. *)
Definition start_terminating (current : Z) (c : Connection) : Connection :=
  close_write (close_read (cn_enter Terminating current c)).

(** The first transition of [flush_inner]: an active connection that has heard nothing
    for thirty seconds starts closing. *)
Definition close_if_stale (current : Z) (c : Connection) : Connection :=
  if bool_decide (cn_state c = Active)
     && (STALE_TIMEOUT_MS <=? current -32 cn_last_incoming_time c)
  then close_read (cn_enter ReadyToClose current (cn_emit [EvNotifyInput; EvNotifyOutput] c))
  else c.

(** [flush_inner] calls itself after entering [Terminating]; [None] when the fuel of
    that recursion runs out. *)
Fixpoint flush_inner (fuel : nat) (current : Z) (c : Connection) : option Connection :=
  match fuel with
  | O => None
  | S fuel =>
      if bool_decide (cn_state c = Terminated) then Some c
      else
        let c := close_if_stale current c in
        if bool_decide (cn_state c = ReadyToClose) && SendingWorker_is_empty (cn_sending c)
        then flush_inner fuel current (start_terminating current c)
        else if bool_decide (cn_state c = Terminating) then
          let c := ping_inner current CmdTerminate c in
          Some
            (if TERMINATING_TIMEOUT_MS <? current -32 cn_state_begin_time c then
               let c := close_write (close_read (cn_enter Terminated current c)) in
               Connection_terminate c
             else c)
        else if bool_decide (cn_state c = PeerTerminating)
                && (PEER_TERMINATING_TIMEOUT_MS <? current -32 cn_state_begin_time c)
        then flush_inner fuel current (start_terminating current c)
        else if bool_decide (cn_state c = ReadyToClose)
                && (READY_TO_CLOSE_TIMEOUT_MS <? current -32 cn_state_begin_time c)
        then flush_inner fuel current (start_terminating current c)
        else Some (flush_workers current c)
  end.

Definition Connection_flush (now : Z) (c : Connection) : option Connection := flush_inner 2 now c.

(** (result, connection); [None] if the read panics. *)
Definition Connection_read (want : Z) (c : Connection) : option (result KcpError bytes * Connection) :=
  if State_is (cn_state c) [ReadyToClose; Terminating; Terminated] then Some (Err ClosedConnection, c)
  else
    '(out, r) ← ReceivingWorker_read want (cn_receiving c);
    let c := cn_set_receiving r c in
    Some (Ok out, if 0 <? zlen out then cn_emit [EvWakeData] c else c).

(** The chunk loop of [write]: bytes written and the worker.  A turn either takes bytes
    or, when [mss] is 0, only fills the window, so the bytes and the room of the
    window bound it. *)
Fixpoint write_loop (fuel : nat) (mss written : Z) (b : bytes) (i : SendingInner M)
    : option (Z * SendingInner M) :=
  if written <? zlen b then
    match fuel with
    | O => None
    | S fuel =>
        let end_ := Z.min (written + mss) (zlen b) in
        let buf := (Buffer_write_from b[: written, end_] Buffer_new).2 in
        let '(pushed, i) := SendingWorker_push buf i in
        if negb pushed then Some (written, i) else write_loop fuel mss end_ b i
    end
  else Some (written, i).

Definition Connection_write (b : bytes) (c : Connection) : option (result KcpError Z * Connection) :=
  if negb (bool_decide (cn_state c = Active)) then Some (Err ClosedConnection, c)
  else
    '(written, i) ← write_loop (length b + Z.to_nat (si_window_size (cn_sending c)) + 2) (cn_mss c) 0 b (cn_sending c);
    let c := cn_set_sending i c in
    Some (Ok written, if 0 <? written then cn_emit [EvWakeData] c else c).

End connection.

Arguments Connection M : clear implicits.
Arguments Event M : clear implicits.
