(* ===== verification/KcpSendingProps.v ===== *)
(** The sending side: what a flush sends, the congestion window's bounds, the window
    invariant and what an acknowledgement removes. *)
From stdpp Require Import base tactics option list numbers sorting.
From S2P Require Import Prelude Bytes NetTypes BytesMut Buffer BufferProps KcpSegment KcpSegmentProps KcpBase KcpSending.

Section sending_props.
Context {M : Type} `{!BytesMutOps M} `{!BytesMutLaws M} `{!BufAlloc M}.
Implicit Types (s : DataSegment M) (l : list (DataSegment M)) (i : SendingInner M).

(** * What a flush sends *)

(** The segment's timer has run out ([current - timeout] in the lower half range). *)
Definition due (current : Z) s : bool := negb (2147483647 <=? current -32 ds_timeout s).

Definition key s : Z * option (Buffer M) := (ds_number s, ds_payload s).

Definition retransmitted s : bool := negb (ds_transmit s =? 0).

(** The accumulators count without wrapping while the list fits. *)
Lemma prepare_loop_spec current rto mx conv st una l lost infl total :
  0 <= infl -> infl + zlen l < 4294967296 -> 0 <= lost <= infl ->
  infl = 0 \/ infl < mx ->
  let '(c, ts, lost', infl', total') := prepare_loop current rto mx conv st una l lost infl total in
  let sent := ztake (Z.max 1 (mx - infl)) (List.filter (due current) l) in
  ts = map (fun s => clone_for_send (stamp current rto conv st una s)) sent /\
  map key c = map key l /\ infl' = infl + zlen ts /\
  lost' = lost + zlen (List.filter retransmitted sent).
Proof.
  revert lost infl total. induction l as [|s l IH]; intros lost infl total Hi Hn Hlo Hmx; cbn [prepare_loop List.filter].
  { unfold ztake. rewrite take_nil. cbn. zlens. split_and!; (done || lia). }
  rewrite zlen_cons in Hn. pose proof (zlen_nonneg l).
  replace (due current s) with (negb (2147483647 <=? current -32 ds_timeout s)) by done.
  destruct (2147483647 <=? current -32 ds_timeout s); cbn [negb].
  - specialize (IH lost infl total ltac:(lia) ltac:(lia) ltac:(lia) Hmx).
    destruct (prepare_loop _ _ _ _ _ _ l lost infl total) as [[[[c ts] lo] inf] to].
    destruct IH as (-> & Hc & -> & ->). cbn [map]. rewrite Hc. done.
  - set (lo := if ds_transmit s =? 0 then _ else _).
    assert (Hlt : lo = (if retransmitted s then lost + 1 else lost, if retransmitted s then total else total +32 1)).
    { unfold lo, retransmitted. destruct (ds_transmit s =? 0); cbn; [done|]. rewrite to_u32_id by lia. done. }
    rewrite Hlt. clear lo Hlt. rewrite (to_u32_id (infl + 1)) by lia.
    rewrite ztake_cons by lia. destruct (Z.leb_spec mx (infl + 1)).
    + rewrite ztake_le0 by lia. cbn [map List.filter]. split_and!; try done.
      destruct (retransmitted s); zlens; lia.
    + specialize (IH (if retransmitted s then lost + 1 else lost) (infl + 1)
        (if retransmitted s then total else total +32 1) ltac:(lia) ltac:(lia)
        ltac:(destruct (retransmitted s); lia) ltac:(lia)).
      destruct (prepare_loop _ _ _ _ _ _ l _ _ _) as [[[[c ts] lo'] inf] to].
      replace (Z.max 1 (mx - infl) - 1) with (Z.max 1 (mx - (infl + 1))) by lia.
      destruct IH as (-> & Hc & -> & ->). cbn [map List.filter]. rewrite Hc.
      split_and!; [done|done|zlia|]. destruct (retransmitted s); zlens; lia.
Qed.

Lemma prepare_flush_spec current rto mx conv st una (w : SendingWindow M) :
  zlen (sw_cache w) < 4294967296 ->
  let '(prep, w') := SendingWindow_prepare_flush current rto mx conv st una w in
  let sent := ztake (Z.max 1 mx) (List.filter (due current) (sw_cache w)) in
  fp_to_send prep = map (fun s => clone_for_send (stamp current rto conv st una s)) sent /\
  map key (sw_cache w') = map key (sw_cache w) /\
  fp_in_flight prep = zlen sent /\ zlen sent <= Z.max 1 mx /\
  fp_lost prep = zlen (List.filter retransmitted sent).
Proof.
  intros Hl. unfold SendingWindow_prepare_flush.
  pose proof (prepare_loop_spec current rto mx conv st una (sw_cache w) 0 0 (sw_total_in_flight_size w)
    ltac:(lia) ltac:(lia) ltac:(lia) ltac:(by left)) as H.
  destruct (prepare_loop _ _ _ _ _ _ _ _ _ _) as [[[[c ts] lo] inf] to]. rewrite Z.sub_0_r in H.
  destruct H as (-> & Hc & -> & ->). cbn. split_and!; try done; zlia.
Qed.

(** A flush sends exactly the segments whose timer has run out, oldest first, at
    most [max(1, max_in_flight)] of them, each a stamped copy of the window's segment;
    the window keeps every number and payload; [in_flight] is the number sent and
    [lost] the number of retransmissions among them. *)
Theorem kcp_prepare_flush_exact current rto mx conv st una (w : SendingWindow M) :
  zlen (sw_cache w) < 4294967296 ->
  let '(prep, w') := SendingWindow_prepare_flush current rto mx conv st una w in
  let sent := ztake (Z.max 1 mx) (List.filter (due current) (sw_cache w)) in
  fp_to_send prep = map (fun s => clone_for_send (stamp current rto conv st una s)) sent /\
  map key (sw_cache w') = map key (sw_cache w) /\
  fp_in_flight prep = zlen sent /\ zlen sent <= Z.max 1 mx /\
  fp_lost prep = zlen (List.filter retransmitted sent).
Proof. apply prepare_flush_spec. Qed.

(** * The congestion window *)

(** C40: whatever the loss rate and even if the 32-bit arithmetic wraps, the control
    window stays between 16 (or the configured maximum, if smaller) and the configured
    in-flight size; within the configured size it computes the intended
    three-quarters / five-quarters rule exactly. *)
Theorem kcp_control_window_bounds cur rate cfg : config_ok cfg -> is_u32 cur -> 0 <= rate ->
  let mx := get_sending_in_flight_size cfg in
  let w := adjust_control_window cur rate cfg in
  Z.min 16 mx <= w <= mx /\
  (cur <= mx -> mx <= 1073741823 ->
   w = Z.min mx (Z.max 16 (if rate <=? 5 then cur + cur / 4 else if 15 <=? rate then 3 * cur / 4 else cur))).
Proof.
  intros Hc Hu Hr. cbn zeta. destruct (in_flight_size_bounds (cfg_uplink_capacity cfg) cfg Hc) as [Hm1 Hm2].
  fold (get_sending_in_flight_size cfg) in *. unfold adjust_control_window. unfold is_u32 in *.
  split; [zcases|]. intros Hle Hmx.
  assert (0 <= cur / 4 <= 1073741823) by (apply div_bounds; lia).
  rewrite (to_u32_id (3 * cur)) by lia.
  assert (0 <= 3 * cur / 4 <= cur) by (split; [apply Z.div_pos; lia|apply Z.div_le_upper_bound; lia]).
  destruct (Z.leb_spec 15 rate), (Z.leb_spec rate 5); rewrite ?to_u32_id by lia; zcases; zcases_in.
Qed.

(** * The window invariant *)

Definition numbers l : list Z := map ds_number l.

(** Numbers strictly increase and lie between the first unacknowledged and the next
    one; the counters have not wrapped. *)
Record sending_ok i : Prop := {
  so_sorted : StronglySorted Z.lt (numbers (sw_cache (si_window i)));
  so_range : Forall (fun n => si_first_unacknowledged i <= n < si_next_number i) (numbers (sw_cache (si_window i)));
  so_una : 0 <= si_first_unacknowledged i <= si_next_number i;
  so_next : si_next_number i < 4294967296;
}.

Lemma numbers_filter (f : Z -> bool) l : numbers (List.filter (fun s => f (ds_number s)) l) = List.filter f (numbers l).
Proof. unfold numbers. induction l as [|s l IH]; cbn; [done|]. destruct (f (ds_number s)); cbn; by rewrite IH. Qed.

Lemma filter_Forall {A} (P : A -> Prop) (f : A -> bool) (l : list A) : Forall P l -> Forall P (List.filter f l).
Proof. induction 1; cbn; [done|]. destruct (f x); auto. Qed.

Lemma filter_sorted (f : Z -> bool) (l : list Z) : StronglySorted Z.lt l -> StronglySorted Z.lt (List.filter f l).
Proof.
  induction 1 as [|x l Hs IH Hx]; cbn; [constructor|]. destruct (f x); [|done].
  constructor; [done|]. by apply filter_Forall.
Qed.

Lemma filter_all {A} (f : A -> bool) (l : list A) : Forall (fun x => f x = true) l -> List.filter f l = l.
Proof. induction 1 as [|x l Hx _ IH]; cbn; [done|]. by rewrite Hx, IH. Qed.

Lemma filter_filter_and {A} (f g : A -> bool) (l : list A) :
  List.filter f (List.filter g l) = List.filter (fun x => g x && f x) l.
Proof. induction l as [|x l IH]; cbn; [done|]. destruct (g x); cbn; [destruct (f x)|]; by rewrite IH. Qed.

Lemma map_filter_key (f : Z -> bool) l :
  map key (List.filter (fun s => f (ds_number s)) l) = List.filter (fun p => f p.1) (map key l).
Proof. induction l as [|s l IH]; cbn; [done|]. destruct (f (ds_number s)); cbn; by rewrite IH. Qed.

Lemma drop_before_filter una l : StronglySorted Z.lt (numbers l) ->
  drop_before una l = List.filter (fun s => una <=? ds_number s) l.
Proof.
  induction l as [|s l IH]; [done|]. cbn. intros Hs. inversion Hs as [|? ? Hs' Hx]; subst.
  destruct (Z.leb_spec una (ds_number s)); [|by apply IH].
  f_equal. symmetry. apply filter_all. apply (proj1 (List.Forall_map _ _ _)) in Hx. eapply Forall_impl; [exact Hx|].
  intros x Hlt. cbn in Hlt. apply Z.leb_le. lia.
Qed.

Lemma remove_number_filter n l : StronglySorted Z.lt (numbers l) ->
  remove_number n l = if bool_decide (n ∈ numbers l)
                      then Some (List.filter (fun s => negb (ds_number s =? n)) l) else None.
Proof.
  induction l as [|s l IH]; cbn; [done|]. intros Hs. inversion Hs as [|? ? Hs' Hx]; subst.
  destruct (Z.eqb_spec (ds_number s) n) as [<-|Hne]; cbn.
  - rewrite bool_decide_true by (by left). f_equal. symmetry. apply filter_all.
    apply (proj1 (List.Forall_map _ _ _)) in Hx. eapply Forall_impl; [exact Hx|]. intros x Hlt. cbn in Hlt.
    destruct (Z.eqb_spec (ds_number x) (ds_number s)); [lia|done].
  - rewrite IH by done. case_bool_decide as Hin; cbn.
    + by rewrite bool_decide_true by (by right).
    + rewrite bool_decide_false; [done|]. by intros [?|?]%elem_of_cons.
Qed.

(** Keeping only the segments whose number passes [f]. *)
Definition keep_numbers (f : Z -> bool) l := List.filter (fun s => f (ds_number s)) l.

Lemma head_numbers_una l una next : Forall (fun n => una <= n < next) (numbers l) -> una <= next ->
  una <= default next (ds_number <$> head l) <= next.
Proof. destruct l as [|s l]; cbn; [lia|]. inversion 1; subst. lia. Qed.

Lemma first_bound l next : StronglySorted Z.lt (numbers l) -> Forall (fun n => n < next) (numbers l) ->
  Forall (fun n => default next (ds_number <$> head l) <= n < next) (numbers l).
Proof.
  destruct l as [|s l]; cbn; [constructor|]. intros Hs Hf. inversion Hs as [|? ? _ Hx]; subst.
  inversion Hf as [|? ? H1 H2]; subst. constructor; [lia|].
  apply Forall_forall. intros n Hn. rewrite Forall_forall in Hx, H2. specialize (Hx n Hn). specialize (H2 n Hn). lia.
Qed.

(** Dropping segments and recomputing the first unacknowledged number keeps the
    invariant. *)
Lemma find_first_ok f i w : sending_ok i -> sw_cache w = keep_numbers f (sw_cache (si_window i)) ->
  let i' := find_first_unacknowledged (si_set_window w i) in
  sending_ok i' /\ si_first_unacknowledged i <= si_first_unacknowledged i'.
Proof.
  intros [Hs Hr Hu Hn] Hw. cbn zeta. unfold find_first_unacknowledged. cbn.
  unfold SendingWindow_first_number. rewrite Hw.
  assert (Hs' : StronglySorted Z.lt (numbers (keep_numbers f (sw_cache (si_window i)))))
    by (unfold keep_numbers; rewrite numbers_filter; by apply filter_sorted).
  assert (Hr' : Forall (fun n => si_first_unacknowledged i <= n < si_next_number i)
                  (numbers (keep_numbers f (sw_cache (si_window i)))))
    by (unfold keep_numbers; rewrite numbers_filter; by apply filter_Forall).
  pose proof (head_numbers_una _ _ _ Hr' ltac:(lia)) as Hh. split; [|cbn; lia].
  split; cbn; rewrite ?Hw; [done| |lia|lia].
  apply first_bound; [done|]. eapply Forall_impl; [exact Hr'|]. cbn. lia.
Qed.

Lemma process_ack_exact n i : sending_ok i -> si_next_number i - si_first_unacknowledged i <= 2147483647 -> is_u32 n ->
  let '(removed, i') := process_ack n i in
  removed = bool_decide (n ∈ numbers (sw_cache (si_window i))) /\ sending_ok i' /\
  sw_cache (si_window i') = keep_numbers (fun x => negb (x =? n)) (sw_cache (si_window i)) /\
  si_next_number i' = si_next_number i /\ si_first_unacknowledged i <= si_first_unacknowledged i' /\
  si_remote_next_number i' = si_remote_next_number i /\ si_closed i' = si_closed i.
Proof.
  intros Hok Hd Hn. unfold process_ack. destruct (Hok) as [Hs Hr Hu Hx].
  assert (Hmiss : ~ n ∈ numbers (sw_cache (si_window i)) ->
    sw_cache (si_window i) = keep_numbers (fun x => negb (x =? n)) (sw_cache (si_window i))).
  { intros Hni. unfold keep_numbers. symmetry. apply filter_all. apply Forall_forall. intros s Hin.
    destruct (Z.eqb_spec (ds_number s) n) as [<-|]; [|done]. destruct Hni. by apply list_elem_of_fmap_2. }
  unfold is_u32 in Hn. unfold SendingWindow_remove. rewrite remove_number_filter by done.
  case_bool_decide as Hin.
  - assert (Hb : si_first_unacknowledged i <= n < si_next_number i) by (by rewrite Forall_forall in Hr; apply Hr).
    rewrite (wsub32_ge n), (wsub32_lt n (si_next_number i)) by (unfold is_u32; lia).
    do 2 (zcase_goal; [lia|]). cbn [orb].
    set (w := mkSendingWindow _ _). destruct (find_first_ok (fun x => negb (x =? n)) i w Hok eq_refl) as [Hok' Hge].
    split_and!; done.
  - assert (Hsame : false = false /\ sending_ok i /\
      sw_cache (si_window i) = keep_numbers (fun x => negb (x =? n)) (sw_cache (si_window i)) /\
      si_next_number i = si_next_number i /\ si_first_unacknowledged i <= si_first_unacknowledged i /\
      si_remote_next_number i = si_remote_next_number i /\ si_closed i = si_closed i)
      by (split_and!; auto; lia).
    destruct (_ || _); [exact Hsame|]. destruct i as [[] ? ? ? ? ? ? ?]. exact Hsame.
Qed.

Lemma keep_keep f g l : keep_numbers f (keep_numbers g l) = keep_numbers (fun n => g n && f n) l.
Proof. unfold keep_numbers. apply filter_filter_and. Qed.

Lemma keep_ext f g l : (forall n, f n = g n) -> keep_numbers f l = keep_numbers g l.
Proof. intros H. unfold keep_numbers. apply filter_ext. intros s. apply H. Qed.

Lemma ack_loop_exact ns mx rm i : sending_ok i ->
  si_next_number i - si_first_unacknowledged i <= 2147483647 -> Forall is_u32 ns ->
  let '(_, _, i') := ack_loop ns mx rm i in
  sending_ok i' /\
  sw_cache (si_window i') = keep_numbers (fun n => negb (bool_decide (n ∈ ns))) (sw_cache (si_window i)) /\
  si_next_number i' = si_next_number i /\ si_first_unacknowledged i <= si_first_unacknowledged i' /\
  si_remote_next_number i' = si_remote_next_number i /\ si_closed i' = si_closed i.
Proof.
  intros Hok Hd Hns. revert mx rm i Hok Hd. induction Hns as [|n ns Hn _ IH]; intros mx rm i Hok Hd; cbn [ack_loop].
  { split_and!; try done; try lia. unfold keep_numbers. symmetry. apply filter_all.
    apply Forall_forall. intros s _. by rewrite bool_decide_false by (apply not_elem_of_nil). }
  pose proof (process_ack_exact n i Hok Hd Hn) as H. destruct (process_ack n i) as [r i1].
  destruct H as (_ & Hok1 & Hc1 & Hn1 & Hu1 & Hr1 & Hcl1).
  assert (Hgo : forall mx rm, let '(_, _, i') := ack_loop ns mx rm i1 in
    sending_ok i' /\
    sw_cache (si_window i') = keep_numbers (fun x => negb (bool_decide (x ∈ n :: ns))) (sw_cache (si_window i)) /\
    si_next_number i' = si_next_number i /\ si_first_unacknowledged i <= si_first_unacknowledged i' /\
    si_remote_next_number i' = si_remote_next_number i /\ si_closed i' = si_closed i).
  { intros mx' rm'. specialize (IH mx' rm' i1 Hok1 ltac:(lia)). destruct (ack_loop ns mx' rm' i1) as [[? ?] i'].
    destruct IH as (? & Hc & ? & ? & ? & ?). split_and!; try congruence; try done; try lia.
    rewrite Hc, Hc1, keep_keep. apply keep_ext. intros x. destruct (Z.eqb_spec x n) as [->|Hne]; cbn.
    - by rewrite bool_decide_true by (by left).
    - f_equal. apply bool_decide_ext. rewrite elem_of_cons. split; [by right|by intros [?|?]]. }
  destruct (mx <? n); apply Hgo.
Qed.

Lemma fast_ack_keys n rto l : map key (fast_ack_loop n rto l) = map key l.
Proof.
  induction l as [|s l IH]; cbn; [done|]. destruct (_ || _); [done|]. cbn. rewrite IH. f_equal.
  by destruct (_ && _).
Qed.

Lemma numbers_keys l : numbers l = map fst (map key l).
Proof. unfold numbers. by rewrite map_map. Qed.

(** The invariant only looks at numbers. *)
Lemma sending_ok_same_keys i w : sending_ok i -> map key (sw_cache w) = map key (sw_cache (si_window i)) ->
  sending_ok (si_set_window w i).
Proof. intros [Hs Hr Hu Hn] Hk. rewrite numbers_keys, <- Hk, <- numbers_keys in Hs, Hr. by split. Qed.

Lemma clear_before_keep una i : sending_ok i ->
  sw_cache (SendingWindow_clear_before una (si_window i)) = keep_numbers (fun n => una <=? n) (sw_cache (si_window i)).
Proof. intros Hok. cbn. unfold keep_numbers. apply drop_before_filter, Hok. Qed.

(** What is left after an acknowledgement. *)
Definition unacked (ack : AckSegment) (n : Z) : bool :=
  (ak_receiving_next ack <=? n) && negb (bool_decide (n ∈ ak_number_list ack)).

Lemma process_ack_segment_exact current ack rto i rtt :
  sending_ok i -> si_closed i = false -> ack_ok ack ->
  si_next_number i - si_first_unacknowledged i <= 2147483647 ->
  let i' := (SendingWorker_process_ack_segment current ack rto i rtt).1 in
  sending_ok i' /\
  map key (sw_cache (si_window i')) = List.filter (fun p => unacked ack p.1) (map key (sw_cache (si_window i))) /\
  si_next_number i' = si_next_number i /\ si_first_unacknowledged i <= si_first_unacknowledged i' /\
  si_remote_next_number i' = Z.max (si_remote_next_number i) (ak_receiving_window ack) /\ si_closed i' = false.
Proof.
  intros Hok Hcl (_ & _ & _ & _ & _ & Hl) Hd. cbn zeta. unfold SendingWorker_process_ack_segment. rewrite Hcl.
  set (i1 := if si_remote_next_number i <? ak_receiving_window ack then _ else i).
  assert (H1 : sending_ok i1 /\ si_window i1 = si_window i /\ si_next_number i1 = si_next_number i /\
    si_first_unacknowledged i1 = si_first_unacknowledged i /\ si_closed i1 = false /\
    si_remote_next_number i1 = Z.max (si_remote_next_number i) (ak_receiving_window ack)).
  { unfold i1. destruct Hok as [Hs Hr Hu Hn].
    destruct (Z.ltb_spec (si_remote_next_number i) (ak_receiving_window ack));
      (split; [by split|]); split_and!; try done; cbn; lia. }
  clearbody i1. destruct H1 as (Hok1 & Hw1 & Hn1 & Hu1 & Hc1 & Hrn1).
  set (w2 := SendingWindow_clear_before _ _). set (i2 := find_first_unacknowledged _).
  pose proof (clear_before_keep (ak_receiving_next ack) i1 Hok1) as Hw2.
  destruct (find_first_ok _ i1 w2 Hok1 Hw2) as [Hok2 Hu2]. fold i2 in Hok2, Hu2.
  assert (H2 : sw_cache (si_window i2) = keep_numbers (fun n => ak_receiving_next ack <=? n) (sw_cache (si_window i)) /\
    si_next_number i2 = si_next_number i /\ si_closed i2 = false /\
    si_remote_next_number i2 = Z.max (si_remote_next_number i) (ak_receiving_window ack)).
  { unfold i2. cbn [find_first_unacknowledged si_set_window si_window si_next_number si_closed si_remote_next_number].
    rewrite <- Hw1. split; [exact Hw2|]. done. }
  clearbody i2. clear w2 Hw2. destruct H2 as (Hw2 & Hn2 & Hc2 & Hrn2).
  destruct (AckSegment_is_empty ack) eqn:Ee.
  - cbn [fst]. split_and!; try done; try lia. rewrite Hw2. unfold keep_numbers.
    rewrite (map_filter_key (fun n => ak_receiving_next ack <=? n)). apply filter_ext. intros p. unfold unacked.
    unfold AckSegment_is_empty in Ee. apply Z.eqb_eq, Z.eq_le_incl, zlen_zero in Ee. rewrite Ee.
    rewrite bool_decide_false by (apply not_elem_of_nil). by rewrite andb_true_r.
  - pose proof (ack_loop_exact (ak_number_list ack) 0 false i2 Hok2 ltac:(lia) Hl) as H3.
    destruct (ack_loop _ _ _ _) as [[mx rm] i3]. destruct H3 as (Hok3 & Hw3 & Hn3 & Hu3 & Hrn3 & Hc3).
    assert (Hk : map key (sw_cache (si_window i3)) =
      List.filter (fun p => unacked ack p.1) (map key (sw_cache (si_window i)))).
    { rewrite Hw3, Hw2, keep_keep. unfold keep_numbers, unacked.
      exact (map_filter_key (fun n => (ak_receiving_next ack <=? n) && negb (bool_decide (n ∈ ak_number_list ack))) _). }
    destruct rm; cbn [fst].
    + set (w4 := SendingWindow_handle_fast_ack _ _ _).
      assert (Hk4 : map key (sw_cache w4) = map key (sw_cache (si_window i3))).
      { unfold w4, SendingWindow_handle_fast_ack. destruct (SendingWindow_is_empty _); [done|]. apply fast_ack_keys. }
      split; [by apply sending_ok_same_keys|]. cbn. rewrite Hk4. split_and!; [done|lia|lia|lia|congruence].
    + split_and!; [done|done|lia|lia|lia|congruence].
Qed.

(** Without the bound on the span of the window nothing but acknowledged segments is
    removed. *)
Lemma process_ack_weak n i : sending_ok i ->
  let '(_, i') := process_ack n i in
  sending_ok i' /\ (exists f, sw_cache (si_window i') = keep_numbers f (sw_cache (si_window i)) /\
    forall x, x <> n -> f x = true) /\
  si_next_number i' = si_next_number i /\ si_closed i' = si_closed i.
Proof.
  intros Hok. unfold process_ack.
  assert (Hsame : sending_ok i /\ (exists f, sw_cache (si_window i) = keep_numbers f (sw_cache (si_window i)) /\
    forall x, x <> n -> f x = true) /\ si_next_number i = si_next_number i /\ si_closed i = si_closed i).
  { split; [done|]. split; [|done]. exists (fun _ => true). split; [|done].
    unfold keep_numbers. symmetry. apply filter_all. by apply Forall_forall. }
  destruct (_ || _); [exact Hsame|]. unfold SendingWindow_remove. rewrite remove_number_filter by apply Hok.
  case_bool_decide.
  - set (w := mkSendingWindow _ _). destruct (find_first_ok (fun x => negb (x =? n)) i w Hok eq_refl) as [Hok' _].
    split; [done|]. split; [|done]. exists (fun x => negb (x =? n)). split; [done|].
    intros x Hx. by apply negb_true_iff, Z.eqb_neq.
  - destruct i as [[] ? ? ? ? ? ? ?]. exact Hsame.
Qed.

Lemma ack_loop_weak ns mx rm i : sending_ok i ->
  let '(_, _, i') := ack_loop ns mx rm i in
  sending_ok i' /\ (exists f, sw_cache (si_window i') = keep_numbers f (sw_cache (si_window i)) /\
    forall x, x ∉ ns -> f x = true) /\
  si_next_number i' = si_next_number i /\ si_closed i' = si_closed i.
Proof.
  revert mx rm i. induction ns as [|n ns IH]; intros mx rm i Hok; cbn [ack_loop].
  { split; [done|]. split; [|done]. exists (fun _ => true). split; [|done].
    unfold keep_numbers. symmetry. apply filter_all. by apply Forall_forall. }
  pose proof (process_ack_weak n i Hok) as H. destruct (process_ack n i) as [r i1].
  destruct H as (Hok1 & (f & Hf & Hfx) & Hn1 & Hc1).
  assert (Hgo : forall mx rm, let '(_, _, i') := ack_loop ns mx rm i1 in
    sending_ok i' /\ (exists f, sw_cache (si_window i') = keep_numbers f (sw_cache (si_window i)) /\
      forall x, x ∉ n :: ns -> f x = true) /\
    si_next_number i' = si_next_number i /\ si_closed i' = si_closed i).
  { intros mx' rm'. specialize (IH mx' rm' i1 Hok1). destruct (ack_loop ns mx' rm' i1) as [[? ?] i'].
    destruct IH as (? & (g & Hg & Hgx) & ? & ?). split; [done|]. split; [|split; congruence].
    exists (fun x => f x && g x). split; [by rewrite Hg, Hf, keep_keep|].
    intros x Hx. apply not_elem_of_cons in Hx as [??]. by rewrite Hfx, Hgx. }
  destruct (mx <? n); apply Hgo.
Qed.

Lemma process_ack_segment_weak current ack rto i rtt : sending_ok i -> si_closed i = false ->
  let i' := (SendingWorker_process_ack_segment current ack rto i rtt).1 in
  sending_ok i' /\
  (exists f, map key (sw_cache (si_window i')) = List.filter (fun p => f p.1) (map key (sw_cache (si_window i))) /\
     forall x, unacked ack x = true -> f x = true) /\
  si_next_number i' = si_next_number i /\ si_closed i' = false.
Proof.
  intros Hok Hcl. cbn zeta. unfold SendingWorker_process_ack_segment. rewrite Hcl.
  set (i1 := if si_remote_next_number i <? ak_receiving_window ack then _ else i).
  assert (H1 : sending_ok i1 /\ si_window i1 = si_window i /\ si_next_number i1 = si_next_number i /\ si_closed i1 = false).
  { unfold i1. destruct Hok as [Hs Hr Hu Hn]. destruct (_ <? _); (split; [by split|]); split_and!; done. }
  clearbody i1. destruct H1 as (Hok1 & Hw1 & Hn1 & Hc1).
  set (w2 := SendingWindow_clear_before _ _). set (i2 := find_first_unacknowledged _).
  pose proof (clear_before_keep (ak_receiving_next ack) i1 Hok1) as Hw2.
  destruct (find_first_ok _ i1 w2 Hok1 Hw2) as [Hok2 _]. fold i2 in Hok2.
  assert (H2 : sw_cache (si_window i2) = keep_numbers (fun n => ak_receiving_next ack <=? n) (sw_cache (si_window i)) /\
    si_next_number i2 = si_next_number i /\ si_closed i2 = false).
  { unfold i2. cbn [find_first_unacknowledged si_set_window si_window si_next_number si_closed].
    rewrite <- Hw1. split; [exact Hw2|]. done. }
  clearbody i2. clear w2 Hw2. destruct H2 as (Hw2 & Hn2 & Hc2).
  destruct (AckSegment_is_empty ack).
  - cbn [fst]. split; [done|]. split; [|done]. exists (fun n => ak_receiving_next ack <=? n). split.
    + rewrite Hw2. unfold keep_numbers. by rewrite (map_filter_key (fun n => ak_receiving_next ack <=? n)).
    + unfold unacked. intros x [? _]%andb_true_iff. done.
  - pose proof (ack_loop_weak (ak_number_list ack) 0 false i2 Hok2) as H3.
    destruct (ack_loop _ _ _ _) as [[mx rm] i3]. destruct H3 as (Hok3 & (f & Hf & Hfx) & Hn3 & Hc3).
    assert (Hk : exists f, map key (sw_cache (si_window i3)) =
        List.filter (fun p => f p.1) (map key (sw_cache (si_window i))) /\
      forall x, unacked ack x = true -> f x = true).
    { exists (fun n => (ak_receiving_next ack <=? n) && f n). split.
      - rewrite Hf, Hw2, keep_keep. exact (map_filter_key (fun n => (ak_receiving_next ack <=? n) && f n) _).
      - unfold unacked. intros x [-> Hx]%andb_true_iff. apply Hfx.
        by apply negb_true_iff, bool_decide_eq_false in Hx. }
    destruct rm; cbn [fst]; (split; [|split; [|split; [cbn; congruence|cbn; congruence]]]); try done.
    + apply sending_ok_same_keys; [done|]. unfold SendingWindow_handle_fast_ack.
      destruct (SendingWindow_is_empty _); [done|]. apply fast_ack_keys.
    + destruct Hk as (g & Hg & Hgx). exists g. split; [|done]. rewrite <- Hg. cbn.
      unfold SendingWindow_handle_fast_ack. destruct (SendingWindow_is_empty _); [done|]. apply fast_ack_keys.
Qed.

(** A flush keeps the window's numbers and payloads, so its invariant. *)
Lemma sorted_length (l : list Z) a b : StronglySorted Z.lt l -> Forall (fun n => a <= n < b) l -> a <= b -> zlen l <= b - a.
Proof.
  intros Hs. revert a. induction Hs as [|x l _ IH Hx]; intros a Hr Hab; [zlia|].
  inversion Hr as [|? ? H1 H2]; subst. specialize (IH (x + 1)). rewrite zlen_cons.
  enough (zlen l <= b - (x + 1)) by lia. apply IH; [|lia].
  apply Forall_forall. intros n Hn. rewrite Forall_forall in Hx, H2. specialize (Hx n Hn). specialize (H2 n Hn). lia.
Qed.

Lemma window_length i : sending_ok i -> zlen (sw_cache (si_window i)) < 4294967296.
Proof.
  intros [Hs Hr Hu Hn]. pose proof (sorted_length _ _ _ Hs Hr ltac:(lia)) as H.
  unfold numbers in H. rewrite zlen_map in H. lia.
Qed.

Lemma flush_with_writer_spec current conv cfg rtt st i : sending_ok i -> si_closed i = false ->
  let '(segs, _, i') := SendingWorker_flush_with_writer current conv cfg rtt st i in
  (exists sent, segs = map (fun s => clone_for_send (stamp current (RoundTripInfo_timeout rtt) conv st
                                       (si_first_unacknowledged i) s)) sent /\
     forall s, s ∈ sent -> s ∈ sw_cache (si_window i)) /\
  map key (sw_cache (si_window i')) = map key (sw_cache (si_window i)) /\
  sending_ok i' /\ si_next_number i' = si_next_number i /\ si_closed i' = false.
Proof.
  intros Hok Hcl. unfold SendingWorker_flush_with_writer. rewrite Hcl.
  pose proof (prepare_flush_spec current (RoundTripInfo_timeout rtt) (flush_cwnd cfg i) conv st
    (si_first_unacknowledged i) (si_window i) (window_length i Hok)) as H.
  destruct (SendingWindow_prepare_flush _ _ _ _ _ _ _) as [prep w]. destruct H as (Hs & Hk & _).
  split; [|split; [exact Hk|split; [|done]]].
  - eexists. split; [exact Hs|]. intros s Hin. unfold ztake in Hin.
    apply (subseteq_take _ _) in Hin. rewrite list_elem_of_In, filter_In, <- list_elem_of_In in Hin. apply Hin.
  - destruct (sending_ok_same_keys i w Hok Hk) as [S1 S2 S3 S4]. by split.
Qed.

(** an acknowledgement removes from the sending window exactly the segments it
    acknowledges, those numbered below its [receiving_next] or listed in it; every
    other segment stays, in order and with its payload; the window invariant holds
    again, the first unacknowledged number only moves forward and the peer's window
    limit only grows. *)
Theorem kcp_ack_removes_exactly current ack rto i rtt :
  sending_ok i -> si_closed i = false -> ack_ok ack ->
  si_next_number i - si_first_unacknowledged i <= 2147483647 ->
  let i' := (SendingWorker_process_ack_segment current ack rto i rtt).1 in
  map key (sw_cache (si_window i')) = List.filter (fun p => unacked ack p.1) (map key (sw_cache (si_window i))) /\
  sending_ok i' /\ si_first_unacknowledged i <= si_first_unacknowledged i' /\
  si_remote_next_number i' = Z.max (si_remote_next_number i) (ak_receiving_window ack).
Proof.
  intros Hok Hcl Ha Hd. cbn zeta.
  destruct (process_ack_segment_exact current ack rto i rtt Hok Hcl Ha Hd) as (? & ? & ? & ? & ? & ?). auto.
Qed.
End sending_props.

#[global] Arguments numbers : simpl never.
