(* ===== verification/KcpReceivingProps.v ===== *)
(** The receiving side: the acknowledgement list (its compaction is a filter, its flush
    acknowledges everything due within the segment size) and in-order delivery. *)
From stdpp Require Import base tactics option list numbers gmap.
From S2P Require Import Prelude Bytes NetTypes BytesMut Buffer BufferProps MultiBuffer MultiBufferProps.
From S2P Require Import KcpSegment KcpSegmentProps KcpBase KcpReceiving.

(** * The acknowledgement list *)

(** The three vectors read together: (number, (timestamp, next flush)). *)
Definition entries (l : AckList) : list (Z * (Z * Z)) :=
  zip (al_numbers l) (zip (al_timestamps l) (al_next_flush l)).

Definition aligned (l : AckList) : Prop :=
  length (al_timestamps l) = length (al_numbers l) /\ length (al_next_flush l) = length (al_numbers l).

(** The values whose key passes. *)
Definition select (una : Z) (ks vs : list Z) : list Z :=
  map snd (List.filter (fun p => una <=? p.1) (zip ks vs)).

(** One turn of the compaction on one vector. *)
Definition moved (i count : nat) (l : list Z) : list Z :=
  if negb (Nat.eqb i count) then <[count := l !!! i]> l else l.

Lemma moved_spec i count l : (count <= i)%nat -> (i < length l)%nat ->
  length (moved i count l) = length l /\
  take (S count) (moved i count l) = take count l ++ [l !!! i] /\
  drop (S i) (moved i count l) = drop (S i) l.
Proof.
  intros Hc Hi. unfold moved. destruct (Nat.eqb_spec i count) as [->|Hne]; cbn [negb].
  - split; [done|]. split; [|done]. apply take_S_r. by apply list_lookup_lookup_total_lt.
  - rewrite length_insert. split; [done|]. split.
    + rewrite (take_S_r _ _ (l !!! i)) by (apply list_lookup_insert_eq; lia).
      by rewrite take_insert_ge by lia.
    + apply drop_insert_lt. lia.
Qed.

Lemma drop_lookup (l : list Z) i : (i < length l)%nat -> drop i l = l !!! i :: drop (S i) l.
Proof. intros Hi. apply drop_S. by apply list_lookup_lookup_total_lt. Qed.

Lemma clear_loop_spec una fuel i count ns ts fs : (count <= i)%nat -> (i + fuel)%nat = length ns ->
  length ts = length ns -> length fs = length ns ->
  let '(count', ns', ts', fs') := clear_loop una fuel i count ns ts fs in
  (count' <= length ns)%nat /\
  take count' ns' = take count ns ++ select una (drop i ns) (drop i ns) /\
  take count' ts' = take count ts ++ select una (drop i ns) (drop i ts) /\
  take count' fs' = take count fs ++ select una (drop i ns) (drop i fs) /\
  length ns' = length ns /\ length ts' = length ns /\ length fs' = length ns.
Proof.
  revert i count ns ts fs. induction fuel as [|fuel IH]; intros i count ns ts fs Hc Hlen Ht Hf; cbn [clear_loop].
  { rewrite !(drop_ge _ i) by lia. cbn. rewrite !app_nil_r. split_and!; (done || lia). }
  rewrite !(drop_lookup _ i) by lia. unfold select. cbn [zip_with List.filter fst].
  destruct (Z.ltb_spec (ns !!! i) una).
  - specialize (IH (S i) count ns ts fs ltac:(lia) ltac:(lia) Ht Hf).
    destruct (clear_loop una fuel (S i) count ns ts fs) as [[[c n'] t'] f'].
    destruct (Z.leb_spec una (ns !!! i)); [lia|]. exact IH.
  - destruct (Z.leb_spec una (ns !!! i)); [|lia]. cbn [map snd].
    set (tr := if negb (Nat.eqb i count) then _ else _).
    assert (Htr : tr = (moved i count ns, moved i count ts, moved i count fs))
      by (unfold tr, moved; by destruct (Nat.eqb i count)).
    rewrite Htr.
    destruct (moved_spec i count ns) as (L1 & T1 & D1); [lia|lia|].
    destruct (moved_spec i count ts) as (L2 & T2 & D2); [lia|lia|].
    destruct (moved_spec i count fs) as (L3 & T3 & D3); [lia|lia|].
    specialize (IH (S i) (S count) (moved i count ns) (moved i count ts) (moved i count fs)
                  ltac:(lia) ltac:(lia) ltac:(lia) ltac:(lia)).
    destruct (clear_loop una fuel (S i) (S count) _ _ _) as [[[c n'] t'] f'].
    rewrite D1, D2, D3, T1, T2, T3, L1, <- !app_assoc in IH. exact IH.
Qed.

Lemma select_zip una ks vs ws : length vs = length ks -> length ws = length ks ->
  zip (select una ks ks) (zip (select una ks vs) (select una ks ws)) =
    List.filter (fun p => una <=? p.1) (zip ks (zip vs ws)).
Proof.
  unfold select. revert vs ws. induction ks as [|k ks IH]; intros [|v vs] [|w ws]; cbn; try done.
  intros [= Hv] [= Hw]. destruct (una <=? k); cbn; by rewrite IH.
Qed.

Lemma select_length una ks vs : length vs = length ks -> length (select una ks vs) = length (select una ks ks).
Proof.
  unfold select. revert vs. induction ks as [|k ks IH]; intros [|v vs]; cbn; try done.
  intros [= Hv]. destruct (una <=? k); cbn; by rewrite IH.
Qed.

Lemma acklist_clear_spec una l : aligned l ->
  let l' := AckList_clear una l in
  aligned l' /\ entries l' = List.filter (fun e => una <=? e.1) (entries l) /\
  al_dirty l' = al_dirty l || (AckList_pending_len l' <? AckList_pending_len l).
Proof.
  intros [Ht Hf]. cbn zeta. unfold AckList_clear, aligned, entries, AckList_pending_len.
  pose proof (clear_loop_spec una (length (al_numbers l)) 0 0 (al_numbers l) (al_timestamps l) (al_next_flush l)
    ltac:(lia) ltac:(lia) Ht Hf) as H.
  destruct (clear_loop una _ 0 0 _ _ _) as [[[c ns] ts] fs]. rewrite !drop_0, !take_0 in H.
  destruct H as (Hc & Hn' & Ht' & Hf' & Ln & Lt & Lf). cbn [app] in *.
  pose proof (select_length una _ _ Ht) as St. pose proof (select_length una _ _ Hf) as Sf.
  assert (Hcl : length (take c ns) = c) by (rewrite length_take; lia).
  destruct (Nat.ltb_spec c (length (al_numbers l))); cbn [al_numbers al_timestamps al_next_flush al_dirty].
  - rewrite Hn' in *. rewrite Ht', Hf'. split; [lia|]. split; [by apply select_zip|].
    unfold zlen. zcases.
  - rewrite !take_ge in Hn', Ht', Hf' by lia. subst ns ts fs. split; [lia|]. split; [by apply select_zip|].
    unfold zlen. zcases. by rewrite orb_false_r.
Qed.

(** The in-place compaction of the three vectors is a filter: [clear(una)] keeps
    exactly the entries numbered [una] or more, in order and still aligned, and marks
    the list dirty exactly when it removed something. *)
Theorem kcp_acklist_clear_is_filter una l : aligned l ->
  let l' := AckList_clear una l in
  aligned l' /\ entries l' = List.filter (fun e => una <=? e.1) (entries l) /\
  al_dirty l' = al_dirty l || (AckList_pending_len l' <? AckList_pending_len l).
Proof. apply acklist_clear_spec. Qed.

(** * Flushing the list *)

Definition seg_limit (mss : Z) : Z := Z.min (Z.max (Z.max 0 (mss - 17) / 4) 1) ACK_NUMBER_LIMIT.
Definition next_turn (current rto : Z) : Z := current +32 Z.max 20 (rto / 2).

(** What a flush does to one entry's timer. *)
Definition new_timer (current rto nf : Z) : Z := if nf <=? current then next_turn current rto else nf.

(** The numbers due, and those that wait. *)
Definition due_numbers (current : Z) (ns fs : list Z) : list Z :=
  map fst (List.filter (fun p => p.2 <=? current) (zip ns fs)).
Definition waiting_numbers (current : Z) (ns fs : list Z) : list Z :=
  map fst (List.filter (fun p => negb (p.2 <=? current)) (zip ns fs)).

Definition listed (out : list AckSegment) : list Z := concat (map ak_number_list out).

Lemma put_timestamp_numbers t s : ak_number_list (AckSegment_put_timestamp t s) = ak_number_list s /\
  ak_limit (AckSegment_put_timestamp t s) = ak_limit s.
Proof. unfold AckSegment_put_timestamp. by destruct (_ <? _). Qed.

(** The scan from index [i]: the emitted segments are full, the open one is not. *)
Definition scan_ok (L : Z) (s : FlushScan) : Prop :=
  Forall (fun a => zlen (ak_number_list a) = L) (fs_out s) /\
  zlen (ak_number_list (fs_seg s)) < L /\ ak_limit (fs_seg s) = L.

Lemma flush_turn_spec ns ts cap limit current rto i s : (i < length ns)%nat ->
  length (fs_next_flush s) = length ns ->
  let L := Z.min (Z.max limit 1) ACK_NUMBER_LIMIT in
  scan_ok L s ->
  let s' := flush_turn ns ts cap limit current rto i s in
  let f := fs_next_flush s !!! i in
  scan_ok L s' /\
  fs_next_flush s' = <[i := new_timer current rto f]> (fs_next_flush s) /\
  listed (fs_out s') ++ ak_number_list (fs_seg s') =
    (listed (fs_out s) ++ ak_number_list (fs_seg s)) ++ (if f <=? current then [ns !!! i] else []) /\
  fs_candidates s' = (if (f <=? current) || negb (zlen (fs_candidates s) <? cap) then fs_candidates s
                      else fs_candidates s ++ [ns !!! i]).
Proof.
  intros Hi Hlf L (Hout & Hseg & Hlim). cbn zeta. unfold flush_turn, new_timer.
  set (f := fs_next_flush s !!! i).
  destruct (Z.ltb_spec current f), (Z.leb_spec f current); try lia; cbn [orb].
  - cbn. rewrite list_insert_id by (apply list_lookup_lookup_total_lt; lia).
    rewrite app_nil_r. split; [by split_and!|]. split; [done|]. split; [done|]. by destruct (_ <? _).
  - replace (if rto / 2 <? 20 then 20 else rto / 2) with (Z.max 20 (rto / 2)) by (zcases; lia).
    set (seg := AckSegment_put_timestamp _ _).
    assert (Hn : ak_number_list seg = ak_number_list (fs_seg s) ++ [ns !!! i] /\ ak_limit seg = L).
    { unfold seg. destruct (put_timestamp_numbers (ts !!! i) (AckSegment_put_number (ns !!! i) (fs_seg s))) as [-> ->]. done. }
    destruct Hn as [Hn Hl]. unfold AckSegment_is_full. rewrite Hl.
    assert (HL : 1 <= L) by (unfold L, ACK_NUMBER_LIMIT; lia).
    destruct (Z.eqb_spec (zlen (ak_number_list seg)) L) as [E|E]; cbn.
    + split; [|split; [done|split; [|done]]].
      * split; [apply Forall_app; split; [done|by constructor]|]. cbn. zlens. split; [lia|done].
      * unfold listed. rewrite map_app, concat_app. cbn. by rewrite !app_nil_r, Hn, app_assoc.
    + split; [|split; [done|split; [|done]]].
      * split; [done|]. cbn. rewrite Hn in *. zlens. split; [lia|done].
      * by rewrite Hn, app_assoc.
Qed.

Lemma flush_scan_spec ns ts cap limit current rto n i s : (i + n)%nat = length ns ->
  length (fs_next_flush s) = length ns ->
  let L := Z.min (Z.max limit 1) ACK_NUMBER_LIMIT in
  scan_ok L s ->
  let s' := flush_scan ns ts cap limit current rto n i s in
  let tl := drop i (fs_next_flush s) in
  scan_ok L s' /\
  fs_next_flush s' = take i (fs_next_flush s) ++ map (new_timer current rto) tl /\
  listed (fs_out s') ++ ak_number_list (fs_seg s') =
    (listed (fs_out s) ++ ak_number_list (fs_seg s)) ++ due_numbers current (drop i ns) tl /\
  fs_candidates s' = fs_candidates s ++ ztake (cap - zlen (fs_candidates s)) (waiting_numbers current (drop i ns) tl).
Proof.
  intros Hlen Hlf L Hok. revert i s Hlen Hlf Hok. induction n as [|n IH]; intros i s Hlen Hlf Hok; cbn [flush_scan]; cbn zeta.
  { rewrite !(drop_ge _ i) by lia. cbn. rewrite !app_nil_r, take_ge by lia.
    split_and!; try done. unfold ztake. by rewrite take_nil, app_nil_r. }
  destruct (flush_turn_spec ns ts cap limit current rto i s ltac:(lia) Hlf Hok) as (Hok1 & Hf1 & Hl1 & Hc1).
  set (s1 := flush_turn ns ts cap limit current rto i s) in *.
  assert (Hlf1 : length (fs_next_flush s1) = length ns) by (rewrite Hf1, length_insert; done).
  destruct (IH (S i) s1 ltac:(lia) Hlf1 Hok1) as (Hok' & Hf' & Hl' & Hc').
  assert (Hd : drop (S i) (fs_next_flush s1) = drop (S i) (fs_next_flush s)) by (rewrite Hf1; apply drop_insert_lt; lia).
  assert (Ht : take (S i) (fs_next_flush s1) =
    take i (fs_next_flush s) ++ [new_timer current rto (fs_next_flush s !!! i)]).
  { rewrite Hf1. rewrite (take_S_r _ _ (new_timer current rto (fs_next_flush s !!! i))) by (apply list_lookup_insert_eq; lia).
    by rewrite take_insert_ge by lia. }
  rewrite Hd in *. rewrite Ht in Hf'. rewrite (drop_lookup ns i), (drop_lookup (fs_next_flush s) i) by lia.
  unfold due_numbers, waiting_numbers in *. cbn [zip_with List.filter map snd].
  split; [done|]. split; [by rewrite Hf', <- app_assoc|].
  destruct (Z.leb_spec (fs_next_flush s !!! i) current); cbn [negb orb map fst] in *.
  - split; [by rewrite Hl', Hl1, <- app_assoc|]. by rewrite Hc', Hc1.
  - split; [by rewrite Hl', Hl1, app_nil_r|].
    destruct (Z.ltb_spec (zlen (fs_candidates s)) cap); cbn [negb] in Hc1; rewrite Hc', Hc1.
    + rewrite ztake_cons, <- app_assoc by lia. do 3 f_equal. zlia.
    + by rewrite !ztake_le0 by lia.
Qed.

Lemma fill_candidates_spec cands seg : zlen (ak_number_list seg) <= ak_limit seg ->
  ak_number_list (fill_candidates cands seg) =
    ak_number_list seg ++ ztake (ak_limit seg - zlen (ak_number_list seg)) cands.
Proof.
  revert seg. induction cands as [|c cs IH]; intros seg Hl; cbn [fill_candidates].
  { unfold ztake. by rewrite take_nil, app_nil_r. }
  unfold AckSegment_is_full. destruct (Z.eqb_spec (zlen (ak_number_list seg)) (ak_limit seg)).
  - by rewrite ztake_le0, app_nil_r by lia.
  - rewrite IH by (cbn; zlia). cbn. rewrite <- app_assoc. cbn. rewrite (ztake_cons _ c) by lia. do 3 f_equal. zlia.
Qed.

Lemma seg_limit_fits mss a : 21 <= mss -> zlen (ak_number_list a) <= seg_limit mss -> AckSegment_byte_size a <= mss.
Proof.
  unfold seg_limit, AckSegment_byte_size, ACK_NUMBER_LIMIT. intros Hm Ha.
  pose proof (Z.mul_div_le (Z.max 0 (mss - 17)) 4). lia.
Qed.

Lemma acklist_flush_spec current rto l : aligned l ->
  let '(out, l') := AckList_flush current rto l in
  (exists k, listed out = due_numbers current (al_numbers l) (al_next_flush l)
             ++ take k (waiting_numbers current (al_numbers l) (al_next_flush l))) /\
  Forall (fun a => zlen (ak_number_list a) <= seg_limit (al_mss l) /\
                   (21 <= al_mss l -> AckSegment_byte_size a <= al_mss l)) out /\
  aligned l' /\ al_numbers l' = al_numbers l /\ al_timestamps l' = al_timestamps l /\
  al_next_flush l' = map (new_timer current rto) (al_next_flush l).
Proof.
  intros [Ht Hf]. unfold AckList_flush. set (limit := Z.max 0 (al_mss l - 17) / 4).
  destruct (flush_scan_spec (al_numbers l) (al_timestamps l) (al_candidates_cap l) limit current rto
    (length (al_numbers l)) 0 (mkFlushScan (al_next_flush l) [] [] (AckSegment_new limit) (al_dirty l)))
    as ((Ho & Hs & Hl) & Hn & Hd & Hc); [done|done| |].
  { split; [constructor|]. cbn. unfold ACK_NUMBER_LIMIT. zlens. split; [lia|done]. }
  set (s := flush_scan _ _ _ _ _ _ _ _ _) in *. cbn [fs_next_flush fs_out fs_seg fs_candidates] in *.
  rewrite !drop_0 in *. rewrite take_0 in Hn. cbn in Hn, Hd, Hc. fold (seg_limit (al_mss l)) in *.
  assert (Hsz : forall a, zlen (ak_number_list a) <= seg_limit (al_mss l) ->
    zlen (ak_number_list a) <= seg_limit (al_mss l) /\ (21 <= al_mss l -> AckSegment_byte_size a <= al_mss l)).
  { intros a Ha. split; [done|]. intros Hm. by apply seg_limit_fits. }
  assert (Hout : Forall (fun a => zlen (ak_number_list a) <= seg_limit (al_mss l) /\
                   (21 <= al_mss l -> AckSegment_byte_size a <= al_mss l)) (fs_out s)).
  { eapply Forall_impl; [exact Ho|]. intros a Ha. apply Hsz. unfold seg_limit. fold limit. cbn in Ha. lia. }
  cbn [al_numbers al_timestamps al_next_flush]. unfold aligned. cbn [al_numbers al_timestamps al_next_flush].
  rewrite Hn, length_map. change (ak_limit (AckSegment_new limit)) with (seg_limit (al_mss l)) in *.
  destruct (fs_dirty s || negb (AckSegment_is_empty (fs_seg s))) eqn:El; split_and!; try done.
  - pose proof (fill_candidates_spec (fs_candidates s) (fs_seg s) ltac:(lia)) as Hfc.
    unfold listed in *. rewrite map_app, concat_app. cbn [map concat]. rewrite app_nil_r, Hfc, app_assoc, Hd.
    rewrite Hc. unfold ztake. rewrite take_take. by eexists.
  - apply Forall_app. split; [done|]. constructor; [|constructor]. apply Hsz.
    rewrite fill_candidates_spec by lia. zlens. unfold seg_limit. fold limit. cbn in Hs. lia.
  - apply orb_false_iff in El as [_ El]. unfold AckSegment_is_empty in El. apply negb_false_iff, Z.eqb_eq in El.
    rewrite (zlen_zero (ak_number_list (fs_seg s))), app_nil_r in Hd by lia.
    exists 0%nat. by rewrite take_0, app_nil_r.
Qed.

(** a flush acknowledges every due number, in order, then as many waiting numbers
    as fit the last segment, and nothing else; every segment lists at most [limit]
    numbers, so it fits the segment size; each due entry is rescheduled by
    max(20, rto/2) and the others keep their timer; the pending entries stay. *)
Theorem kcp_acklist_flush_exact current rto l : aligned l ->
  let '(out, l') := AckList_flush current rto l in
  (exists k, listed out = due_numbers current (al_numbers l) (al_next_flush l)
             ++ take k (waiting_numbers current (al_numbers l) (al_next_flush l))) /\
  Forall (fun a => zlen (ak_number_list a) <= seg_limit (al_mss l) /\
                   (21 <= al_mss l -> AckSegment_byte_size a <= al_mss l)) out /\
  aligned l' /\ al_numbers l' = al_numbers l /\ al_timestamps l' = al_timestamps l /\
  al_next_flush l' = map (new_timer current rto) (al_next_flush l).
Proof. apply acklist_flush_spec. Qed.

(** * Timestamps and numbers of the emitted segments *)

Lemma put_timestamp_ok t a : is_u32 t -> is_u32 (ak_timestamp a) -> is_u32 (ak_timestamp (AckSegment_put_timestamp t a)).
Proof. intros. unfold AckSegment_put_timestamp. by destruct (_ <? _). Qed.

Lemma flush_scan_timestamps ns ts cap limit current rto n i s : Forall is_u32 ts ->
  Forall (fun a => is_u32 (ak_timestamp a)) (fs_out s) -> is_u32 (ak_timestamp (fs_seg s)) ->
  let s' := flush_scan ns ts cap limit current rto n i s in
  Forall (fun a => is_u32 (ak_timestamp a)) (fs_out s') /\ is_u32 (ak_timestamp (fs_seg s')).
Proof.
  intros Hts. revert i s. induction n as [|n IH]; intros i s Ho Hs; cbn [flush_scan]; [done|].
  assert (H0 : is_u32 (ts !!! i)).
  { destruct (ts !! i) as [t|] eqn:E.
    - rewrite (list_lookup_total_correct _ _ _ E). eapply Forall_lookup_1; eauto.
    - rewrite list_lookup_total_alt, E. cbn. unfold is_u32. lia. }
  assert (Hp : is_u32 (ak_timestamp (AckSegment_put_timestamp (ts !!! i) (AckSegment_put_number (ns !!! i) (fs_seg s)))))
    by (by apply put_timestamp_ok).
  apply IH; unfold flush_turn; destruct (_ <? _); try done; destruct (AckSegment_is_full _); cbn; try done.
  apply Forall_app. auto.
Qed.

Lemma fill_candidates_timestamp cands a : ak_timestamp (fill_candidates cands a) = ak_timestamp a.
Proof.
  revert a. induction cands as [|c cs IH]; intros a; cbn [fill_candidates]; [done|].
  destruct (AckSegment_is_full a); [done|]. by rewrite IH.
Qed.

Lemma acklist_flush_timestamps current rto l : Forall is_u32 (al_timestamps l) ->
  Forall (fun a => is_u32 (ak_timestamp a)) (AckList_flush current rto l).1.
Proof.
  intros Hts. unfold AckList_flush.
  destruct (flush_scan_timestamps (al_numbers l) (al_timestamps l) (al_candidates_cap l) (Z.max 0 (al_mss l - 17) / 4)
    current rto (length (al_numbers l)) 0 (mkFlushScan (al_next_flush l) [] []
      (AckSegment_new (Z.max 0 (al_mss l - 17) / 4)) (al_dirty l)) Hts) as [Ho Hs].
  { constructor. }
  { cbn. unfold is_u32. lia. }
  cbn [fst]. destruct (_ || _); [|done]. apply Forall_app. split; [done|]. constructor; [|constructor].
  by rewrite fill_candidates_timestamp.
Qed.

Lemma due_or_waiting_subset (f : Z * Z -> bool) (ns fs : list Z) n :
  n ∈ map fst (List.filter f (zip ns fs)) -> n ∈ ns.
Proof.
  rewrite list_elem_of_In, in_map_iff. intros ([a b] & <- & [Hin _]%filter_In). cbn.
  rewrite <- list_elem_of_In in Hin. by apply elem_of_zip_l in Hin.
Qed.

(** Only pending numbers are ever acknowledged. *)
Lemma acklist_flush_numbers current rto l a n : aligned l ->
  a ∈ (AckList_flush current rto l).1 -> n ∈ ak_number_list a -> n ∈ al_numbers l.
Proof.
  intros Hal Ha Hn. pose proof (acklist_flush_spec current rto l Hal) as H.
  destruct (AckList_flush current rto l) as [out l']. cbn in Ha. destruct H as ([k Hl] & _).
  assert (Hin : n ∈ listed out).
  { unfold listed. rewrite list_elem_of_In, in_concat. exists (ak_number_list a).
    rewrite <- !list_elem_of_In. split; [|done]. by apply list_elem_of_fmap_2. }
  rewrite Hl, elem_of_app in Hin. destruct Hin as [Hin|Hin].
  - eapply due_or_waiting_subset, Hin.
  - apply (subseteq_take _ _) in Hin. eapply due_or_waiting_subset, Hin.
Qed.

Lemma acklist_clear_subset una l : aligned l ->
  aligned (AckList_clear una l) /\
  (forall n, n ∈ al_numbers (AckList_clear una l) -> n ∈ al_numbers l) /\
  (forall t, t ∈ al_timestamps (AckList_clear una l) -> t ∈ al_timestamps l).
Proof.
  intros Hal. destruct (acklist_clear_spec una l Hal) as ([Ht Hf] & He & _). split; [by split|].
  set (l' := AckList_clear una l) in *.
  assert (Hz : forall e, e ∈ entries l' -> e ∈ entries l).
  { intros e. rewrite He, !list_elem_of_In, filter_In. by intros [? _]. }
  unfold entries in Hz. split; intros x Hx.
  - assert (Hl : length (zip (al_timestamps l') (al_next_flush l')) = length (al_numbers l')) by (rewrite length_zip; lia).
    rewrite <- (fst_zip (al_numbers l') (zip (al_timestamps l') (al_next_flush l'))) in Hx by lia.
    apply list_elem_of_fmap in Hx as ([n tf] & -> & Hin). apply Hz, elem_of_zip_l in Hin. done.
  - assert (Hl : length (zip (al_timestamps l') (al_next_flush l')) = length (al_numbers l')) by (rewrite length_zip; lia).
    rewrite <- (fst_zip (al_timestamps l') (al_next_flush l')) in Hx by lia.
    rewrite <- (snd_zip (al_numbers l') (zip (al_timestamps l') (al_next_flush l'))) in Hx by lia.
    apply list_elem_of_fmap in Hx as ([t f] & -> & Hin). apply list_elem_of_fmap in Hin as ([n tf] & Ee & Hin).
    cbn in Ee. subst tf. apply Hz in Hin. apply elem_of_zip_r in Hin. by apply elem_of_zip_l in Hin.
Qed.
