(* ===== verification/KcpConnectionProps.v ===== *)
(** The connection's state machine: the calls as a step relation, its edges, what holds
    once it has terminated, the termination of [flush] and of an idle connection. *)
From stdpp Require Import base tactics option list numbers gmap relations.
From S2P Require Import Prelude Bytes NetTypes BytesMut Buffer BufferProps MultiBuffer.
From S2P Require Import KcpSegment KcpSegmentProps KcpBase KcpSending KcpReceiving KcpConnection.

(** * The state graph of [state.rs] *)

Inductive kcp_edge : State -> State -> Prop :=
| EdLocalClose : kcp_edge Active ReadyToClose
| EdPeerClose : kcp_edge Active PeerClosed
| EdPeerTerminate : kcp_edge Active PeerTerminating
| EdBothClosed : kcp_edge ReadyToClose Terminating
| EdPeerThenLocal : kcp_edge PeerClosed Terminating
| EdPeerThenTerminate : kcp_edge PeerClosed PeerTerminating
| EdPeerTimeout : kcp_edge PeerTerminating Terminating
| EdPeerTermClose : kcp_edge PeerTerminating Terminated
| EdFinish : kcp_edge Terminating Terminated.

Definition kcp_reach : State -> State -> Prop := rtc kcp_edge.

#[local] Hint Constructors kcp_edge : xray.

Lemma reach_one s t : kcp_edge s t -> kcp_reach s t.
Proof. apply rtc_once. Qed.
#[local] Hint Resolve reach_one : xray.

Lemma reach_terminated t : kcp_reach Terminated t -> t = Terminated.
Proof. intros H. inversion H as [|? ? ? He]; subst; [done|inversion He]. Qed.

Lemma edge_locally_closed s t : kcp_edge s t -> State_is_locally_closed s = true -> State_is_locally_closed t = true.
Proof. by destruct 1. Qed.

Lemma reach_locally_closed s t : kcp_reach s t -> State_is_locally_closed s = true -> State_is_locally_closed t = true.
Proof. induction 1 as [|s u t He _ IH]; [done|]. intros Hs. eapply IH, edge_locally_closed; eauto. Qed.

(** Edges only go up, so the graph has no cycle. *)
Definition state_rank (s : State) : nat :=
  match s with Active => 0 | ReadyToClose => 1 | PeerClosed => 1 | PeerTerminating => 2 | Terminating => 3 | Terminated => 4 end.
Lemma edge_rank s t : kcp_edge s t -> (state_rank s < state_rank t)%nat.
Proof. destruct 1; cbn; lia. Qed.

Section conn_props.
Context {M : Type} `{!BytesMutOps M} `{!BytesMutLaws M} `{!BufAlloc M}.
Implicit Types c : Connection M.

(** * What holds after termination *)

Definition released c : Prop :=
  EvCloseSocket ∈ cn_trace c /\ si_closed (cn_sending c) = true /\
  sw_cache (si_window (cn_sending c)) = [] /\ rw_left_over (cn_receiving c) = None.

Definition conn_inv c : Prop := cn_state c = Terminated -> released c.

(** A call's effect on the state and on a terminated connection's resources. *)
Definition step_ok c c' : Prop :=
  kcp_reach (cn_state c) (cn_state c') /\ cn_conv c' = cn_conv c /\ (conn_inv c -> conn_inv c').

Lemma step_ok_refl c : step_ok c c.
Proof. split; [constructor|done]. Qed.
Lemma step_ok_trans c1 c2 c3 : step_ok c1 c2 -> step_ok c2 c3 -> step_ok c1 c3.
Proof. intros (H1 & E1 & I1) (H2 & E2 & I2). split; [by etrans|]. split; [congruence|auto]. Qed.

(** Changes that leave the state alone and cannot undo a release. *)
Lemma step_ok_inner c c' : cn_state c' = cn_state c -> cn_conv c' = cn_conv c ->
  (released c -> released c') -> step_ok c c'.
Proof.
  intros Hs Hc Hr. split; [rewrite Hs; constructor|]. split; [done|].
  intros Hi Ht. apply Hr, Hi. congruence.
Qed.

Lemma emit_ok es c : step_ok c (cn_emit es c).
Proof.
  apply step_ok_inner; [done..|]. intros (H1 & H2). split; [|done]. cbn. apply elem_of_app. by left.
Qed.

Lemma terminate_released c : released (Connection_terminate c).
Proof. unfold released. cbn. split_and!; [|done..]. apply elem_of_app. right. do 2 right. by left. Qed.

Lemma set_state_ok s now c : kcp_edge (cn_state c) s -> step_ok c (Connection_set_state s now c).
Proof.
  intros He. split; [destruct s; by apply reach_one|]. split; [by destruct s|].
  intros _ Ht. destruct s; try discriminate. apply terminate_released.
Qed.

Lemma close_ok now c : step_ok c (Connection_close now c).2.
Proof.
  eapply step_ok_trans; [apply (emit_ok [EvNotifyInput; EvNotifyOutput])|]. unfold Connection_close.
  change (cn_state (cn_emit _ c)) with (cn_state c).
  destruct (cn_state c) eqn:E; cbn [snd]; try apply step_ok_refl; apply set_state_ok; cbn; rewrite E; constructor.
Qed.

Lemma handle_option_ok opt now c : step_ok c (Connection_handle_option opt now c).
Proof.
  unfold Connection_handle_option, Connection_on_peer_closed. destruct (_ =? _); [|apply step_ok_refl].
  destruct (cn_state c) eqn:E; try apply step_ok_refl; apply set_state_ok; rewrite E; constructor.
Qed.

Lemma process_segment_left seg (r : ReceivingWorker M) : rw_left_over (ReceivingWorker_process_segment seg r) = rw_left_over r.
Proof.
  unfold ReceivingWorker_process_segment, ReceivingWindow_set. destruct (_ <=? _); [done|]. by destruct (_ !! _).
Qed.

Lemma input_data_ok d now c : step_ok c (input_data d now c).
Proof.
  unfold input_data. set (c1 := Connection_handle_option _ now c).
  eapply (step_ok_trans _ c1); [apply handle_option_ok|]. set (c2 := cn_set_receiving _ c1).
  assert (H2 : step_ok c1 c2).
  { apply step_ok_inner; [done..|]. intros (? & ? & ? & H). split_and!; try done. cbn. by rewrite process_segment_left. }
  eapply step_ok_trans; [exact H2|]. eapply step_ok_trans; [|apply emit_ok].
  destruct (ReceivingWorker_is_data_available _); [apply emit_ok|apply step_ok_refl].
Qed.

Lemma input_ack_ok a now c : step_ok c (input_ack a now c).
Proof.
  unfold input_ack. set (c1 := Connection_handle_option _ now c).
  eapply (step_ok_trans _ c1); [apply handle_option_ok|].
  destruct (SendingWorker_process_ack_segment _ _ _ _ _) as [s rtt] eqn:E.
  apply (step_ok_trans _ (cn_set_rtt rtt (cn_set_sending s c1))); [|apply emit_ok].
  apply step_ok_inner; [done..|]. intros (H1 & H2 & H3 & H4). unfold SendingWorker_process_ack_segment in E. rewrite H2 in E. injection E as <- <-.
  split_and!; done.
Qed.

Lemma input_cmd_ok m now c : step_ok c (input_cmd m now c).
Proof.
  unfold input_cmd. set (c1 := Connection_handle_option _ now c).
  apply (step_ok_trans _ c1); [apply handle_option_ok|]. set (c2 := if bool_decide _ then _ else c1).
  assert (H2 : step_ok c1 c2).
  { unfold c2. destruct (bool_decide _); [|apply step_ok_refl].
    destruct (cn_state c1) eqn:E; try apply step_ok_refl; apply set_state_ok; rewrite E; constructor. }
  eapply step_ok_trans; [exact H2|]. clearbody c2. clear H2 c1. set (c3 := if _ || _ then _ else c2).
  assert (H3 : step_ok c2 c3) by (unfold c3; destruct (_ || _); [apply emit_ok|apply step_ok_refl]).
  eapply step_ok_trans; [exact H3|]. clearbody c3.
  apply step_ok_inner; [done..|]. intros (H1 & H4 & H5 & H6). split_and!; try done. cbn. by rewrite H5.
Qed.

Lemma input_ok segs now c : step_ok c (Connection_input segs now c).
Proof.
  unfold Connection_input. apply (step_ok_trans _ (cn_set_incoming now c)); [by apply step_ok_inner|].
  generalize (cn_set_incoming now c). clear c.
  induction segs as [|s segs IH]; intros c; cbn [input_loop]; [apply step_ok_refl|].
  destruct (negb _); [apply step_ok_refl|]. eapply step_ok_trans; [|apply IH].
  destruct s; [apply input_data_ok|apply input_ack_ok|apply input_cmd_ok].
Qed.

(** * Flush *)

Lemma ping_ok now cmd c : step_ok c (ping_inner now cmd c).
Proof.
  unfold ping_inner. match goal with |- step_ok _ (cn_set_ping _ ?c1) => apply (step_ok_trans _ c1) end;
    [apply emit_ok|by apply step_ok_inner].
Qed.

(** What the flush of the workers leaves alone. *)
Lemma flush_workers_frame now c :
  cn_state (flush_workers now c) = cn_state c /\ cn_state_begin_time (flush_workers now c) = cn_state_begin_time c /\
  cn_last_incoming_time (flush_workers now c) = cn_last_incoming_time c /\
  cn_conv (flush_workers now c) = cn_conv c.
Proof.
  unfold flush_workers. destruct (ReceivingWorker_flush _ _ _ _ _) as [acks r].
  destruct (SendingWorker_flush_with_writer _ _ _ _ _ _) as [[segs p] s]. by destruct (_ <=? _).
Qed.

Lemma flush_workers_ok now c : cn_state c <> Terminated -> step_ok c (flush_workers now c).
Proof.
  intros Hne. destruct (flush_workers_frame now c) as (Hs & _ & _ & Hc). split; [rewrite Hs; constructor|].
  split; [done|]. intros _ Ht. congruence.
Qed.

Lemma start_terminating_ok now c : kcp_edge (cn_state c) Terminating -> step_ok c (start_terminating now c).
Proof. intros He. split; [by apply reach_one|]. split; [done|]. by intros _ [=]. Qed.

Lemma close_if_stale_ok now c : step_ok c (close_if_stale now c).
Proof.
  unfold close_if_stale. destruct (bool_decide (cn_state c = Active)) eqn:E; [|apply step_ok_refl].
  destruct (_ <=? _); [|apply step_ok_refl]. apply bool_decide_eq_true in E. cbn [andb].
  split; [apply reach_one; rewrite E; constructor|]. split; [done|]. by intros _ [=].
Qed.

Lemma close_if_stale_other now c : cn_state c <> Active -> close_if_stale now c = c.
Proof. intros H. unfold close_if_stale. by rewrite bool_decide_false. Qed.

Lemma close_if_stale_open now c : cn_state c = Active \/ cn_state c = ReadyToClose ->
  cn_state (close_if_stale now c) = Active \/ cn_state (close_if_stale now c) = ReadyToClose.
Proof. intros H. unfold close_if_stale. destruct (bool_decide _ && _); [by right|done]. Qed.

(** What a flush does after the stale check, by the state found there; the inner call
    ends at once because the state is then [Terminating]. *)
Definition finish_terminating now c : Connection M :=
  let c := ping_inner now CmdTerminate c in
  if TERMINATING_TIMEOUT_MS <? now -32 cn_state_begin_time c
  then Connection_terminate (close_write (close_read (cn_enter Terminated now c))) else c.

Definition flush_result now c : Connection M :=
  match cn_state c with
  | Terminated => c
  | Terminating => finish_terminating now c
  | PeerTerminating =>
      if PEER_TERMINATING_TIMEOUT_MS <? now -32 cn_state_begin_time c
      then finish_terminating now (start_terminating now c) else flush_workers now c
  | PeerClosed => flush_workers now c
  | Active | ReadyToClose =>
      let c1 := close_if_stale now c in
      if bool_decide (cn_state c1 = ReadyToClose) &&
         (SendingWorker_is_empty (cn_sending c1) ||
          (READY_TO_CLOSE_TIMEOUT_MS <? now -32 cn_state_begin_time c1))
      then finish_terminating now (start_terminating now c1) else flush_workers now c1
  end.

Ltac state_tests E :=
  repeat first [rewrite E | rewrite bool_decide_true by done | rewrite bool_decide_false by done
               | progress cbn [andb orb]].

Lemma flush_terminating fuel now c : cn_state c = Terminating ->
  flush_inner (S fuel) now c = Some (finish_terminating now c).
Proof. intros E. cbn [flush_inner]. rewrite close_if_stale_other by (by rewrite E). by state_tests E. Qed.

Lemma flush_exact fuel now c : flush_inner (S (S fuel)) now c = Some (flush_result now c).
Proof.
  assert (Hst : forall c, flush_inner (S fuel) now (start_terminating now c) =
    Some (finish_terminating now (start_terminating now c))) by (intros; by apply flush_terminating).
  remember (S fuel) as k eqn:Ek. unfold flush_result.
  destruct (cn_state c) eqn:E; cbn [flush_inner].
  1-2: rewrite E, bool_decide_false by done; pose proof (close_if_stale_open now c (ltac:(auto))) as Hopen;
    set (c1 := close_if_stale now c) in *; destruct Hopen as [E1|E1]; state_tests E1; [done|];
    destruct (SendingWorker_is_empty _); cbn [orb]; [apply Hst|];
    destruct (_ <? _); [apply Hst|done].
  all: rewrite ?close_if_stale_other by (by rewrite E); state_tests E; try done.
  destruct (_ <? _); [apply Hst|done].
Qed.

Lemma finish_terminating_ok now c : cn_state c = Terminating -> step_ok c (finish_terminating now c).
Proof.
  intros E. unfold finish_terminating. eapply step_ok_trans; [apply (ping_ok now CmdTerminate)|].
  destruct (_ <? _); [|apply step_ok_refl].
  split; [apply reach_one; cbn; rewrite E; constructor|]. split; [done|]. intros _ _. apply terminate_released.
Qed.

Lemma terminating_ok now c : kcp_edge (cn_state c) Terminating ->
  step_ok c (finish_terminating now (start_terminating now c)).
Proof.
  intros He. eapply step_ok_trans; [by apply (start_terminating_ok now)|]. by apply finish_terminating_ok.
Qed.

Lemma flush_result_ok now c : step_ok c (flush_result now c).
Proof.
  unfold flush_result. destruct (cn_state c) eqn:E; try apply step_ok_refl.
  1-2: eapply step_ok_trans; [apply (close_if_stale_ok now)|];
    destruct (bool_decide _ && _) eqn:Eb;
    [apply andb_true_iff in Eb as [Eb%bool_decide_eq_true _]; apply terminating_ok; rewrite Eb; apply EdBothClosed
    |apply flush_workers_ok; destruct (close_if_stale_open now c) as [-> | ->]; auto].
  - apply flush_workers_ok. congruence.
  - by apply finish_terminating_ok.
  - destruct (_ <? _); [apply terminating_ok; rewrite E; constructor|apply flush_workers_ok; congruence].
Qed.

Lemma read_ok n c r c' : Connection_read n c = Some (r, c') -> step_ok c c'.
Proof.
  unfold Connection_read, State_is. case_bool_decide as Hs; [intros [= _ <-]; apply step_ok_refl|].
  destruct (ReceivingWorker_read n (cn_receiving c)) as [[out rw]|]; [|done]. cbn [mbind option_bind].
  intros [= _ <-]. apply (step_ok_trans _ (cn_set_receiving rw c)).
  - split; [constructor|]. split; [done|]. intros _ Ht. cbn in Ht. rewrite Ht in Hs. destruct Hs.
    do 2 right. by left.
  - destruct (_ <? _); [apply emit_ok|apply step_ok_refl].
Qed.

Lemma write_ok b c r c' : Connection_write b c = Some (r, c') -> step_ok c c'.
Proof.
  unfold Connection_write. case_bool_decide as Hs; cbn [negb]; [|intros [= _ <-]; apply step_ok_refl].
  destruct (write_loop _ _ _ _ _) as [[n i]|]; [|done]. cbn [mbind option_bind].
  intros [= _ <-]. apply (step_ok_trans _ (cn_set_sending i c)).
  - split; [constructor|]. split; [done|]. intros _ Ht. cbn in Ht. congruence.
  - destruct (_ <? _); [apply emit_ok|apply step_ok_refl].
Qed.

(** * The step relation *)

Inductive conn_step : Connection M -> Connection M -> Prop :=
| CsInput segs now c : conn_step c (Connection_input segs now c)
| CsFlush now c c' : Connection_flush now c = Some c' -> conn_step c c'
| CsClose now c : conn_step c (Connection_close now c).2
| CsRead n c r c' : Connection_read n c = Some (r, c') -> conn_step c c'
| CsWrite b c r c' : Connection_write b c = Some (r, c') -> conn_step c c'.

Lemma conn_step_ok c c' : conn_step c c' -> step_ok c c'.
Proof.
  destruct 1 as [| | |? ? ? ? H|? ? ? ? H].
  - apply input_ok.
  - unfold Connection_flush in *. rewrite flush_exact in *. simplify_eq. apply flush_result_ok.
  - apply close_ok.
  - by eapply read_ok.
  - by eapply write_ok.
Qed.

Lemma conn_steps_ok c c' : rtc conn_step c c' -> step_ok c c'.
Proof.
  induction 1 as [|c1 c2 c3 H _ IH]; [apply step_ok_refl|].
  eapply step_ok_trans; [by apply conn_step_ok|done].
Qed.


(** [flush] always returns: its recursion is at most one deep, so any fuel from two
    on gives the same result, and that result is the table of [flush_result]. *)
Theorem kcp_flush_terminates fuel now c :
  flush_inner (S (S fuel)) now c = Connection_flush now c /\ Connection_flush now c = Some (flush_result now c).
Proof. unfold Connection_flush. by rewrite !flush_exact. Qed.

(** * Idle connections end *)

Lemma elapsed_sub now t : 0 <= t <= now -> now < 4294967296 -> now -32 t = now - t.
Proof. intros. apply wsub32_ge; unfold is_u32; lia. Qed.

Lemma finish_terminating_begin now c : cn_state c = Terminating -> 0 <= cn_state_begin_time c <= now -> now < 4294967296 ->
  let c' := finish_terminating now c in
  if 8000 <? now - cn_state_begin_time c then cn_state c' = Terminated
  else cn_state c' = Terminating /\ cn_state_begin_time c' = cn_state_begin_time c.
Proof.
  intros E Hb Hn. cbn zeta. unfold finish_terminating, TERMINATING_TIMEOUT_MS.
  change (cn_state_begin_time (ping_inner now CmdTerminate c)) with (cn_state_begin_time c).
  rewrite elapsed_sub by lia. by destruct (_ <? _).
Qed.

(** Where a flush can leave an idle connection: not [Active], and begun by [now]. *)
Definition closing_since c (t : Z) : Prop :=
  cn_state c = Terminated \/
  ((cn_state c = ReadyToClose \/ cn_state c = PeerTerminating \/ cn_state c = Terminating) /\
   0 <= cn_state_begin_time c <= t).

Lemma terminating_begin now c : 0 <= now < 4294967296 ->
  let c' := finish_terminating now (start_terminating now c) in
  cn_state c' = Terminating /\ cn_state_begin_time c' = now.
Proof.
  intros Hn. cbn zeta. pose proof (finish_terminating_begin now (start_terminating now c) eq_refl) as H.
  cbn in H. specialize (H ltac:(lia) ltac:(lia)). rewrite Z.sub_diag in H. exact H.
Qed.

Lemma flush_stale now c : cn_state c <> PeerClosed -> 0 <= cn_state_begin_time c <= now ->
  0 <= cn_last_incoming_time c -> 30000 <= now - cn_last_incoming_time c -> now < 4294967296 ->
  closing_since (flush_result now c) now.
Proof.
  intros Hp Hb Hl Hs Hn. unfold flush_result, closing_since.
  assert (Hopen : forall c1, cn_state c1 = ReadyToClose -> 0 <= cn_state_begin_time c1 <= now ->
    let c' := if bool_decide (cn_state c1 = ReadyToClose) && (SendingWorker_is_empty (cn_sending c1) ||
        (READY_TO_CLOSE_TIMEOUT_MS <? now -32 cn_state_begin_time c1))
      then finish_terminating now (start_terminating now c1) else flush_workers now c1 in
    closing_since c' now).
  { intros c1 E Hb1. cbn zeta. unfold closing_since. destruct (_ && _).
    - destruct (terminating_begin now c1) as [-> ->]; [lia|]. right. split; [auto|lia].
    - destruct (flush_workers_frame now c1) as (-> & -> & _ & _). right. auto. }
  destruct (cn_state c) eqn:E; [| |done| | |].
  - apply Hopen; unfold close_if_stale; rewrite bool_decide_true by done; unfold STALE_TIMEOUT_MS;
      rewrite elapsed_sub by lia; destruct (Z.leb_spec 30000 (now - cn_last_incoming_time c)); cbn; (done || lia).
  - rewrite close_if_stale_other by (by rewrite E). by apply Hopen.
  - pose proof (finish_terminating_begin now c E Hb Hn) as H. destruct (_ <? _); [by left|].
    destruct H as [-> ->]. right. auto.
  - destruct (_ <? _).
    + destruct (terminating_begin now c) as [-> ->]; [lia|]. right. split; [auto|lia].
    + destruct (flush_workers_frame now c) as (-> & -> & _ & _). right. auto.
  - by left.
Qed.

Lemma flush_after_close t now c : closing_since c t -> t + 15000 < now < 4294967296 ->
  cn_state (flush_result now c) = Terminated \/
  (cn_state (flush_result now c) = Terminating /\ cn_state_begin_time (flush_result now c) = now).
Proof.
  intros [E|[Hs Hb]] Hn; unfold flush_result; [rewrite E; by left|].
  destruct Hs as [E|[E|E]]; rewrite E.
  - right. rewrite close_if_stale_other by (by rewrite E). rewrite E, bool_decide_true by done. cbn [andb].
    unfold READY_TO_CLOSE_TIMEOUT_MS. rewrite elapsed_sub by lia.
    destruct (Z.ltb_spec 15000 (now - cn_state_begin_time c)); [|lia]. rewrite orb_true_r.
    apply terminating_begin. lia.
  - right. unfold PEER_TERMINATING_TIMEOUT_MS. rewrite elapsed_sub by lia.
    destruct (Z.ltb_spec 4000 (now - cn_state_begin_time c)); [|lia]. apply terminating_begin. lia.
  - left. pose proof (finish_terminating_begin now c E ltac:(lia) ltac:(lia)) as H.
    destruct (Z.ltb_spec 8000 (now - cn_state_begin_time c)); [done|lia].
Qed.

(** C39: an idle connection ends: when nothing has arrived for thirty seconds, three
    flushes (the second more than 15 s, the third more than 8 s later, before the
    millisecond clock wraps) take any connection that is not waiting for the
    application's own close ([PeerClosed]) to [Terminated], and its socket is closed. *)
Theorem kcp_idle_terminates t1 t2 t3 c : conn_inv c -> cn_state c <> PeerClosed ->
  0 <= cn_state_begin_time c <= t1 -> 0 <= cn_last_incoming_time c -> 30000 <= t1 - cn_last_incoming_time c ->
  t1 + 15000 < t2 -> t2 + 8000 < t3 -> t3 < 4294967296 ->
  exists c1 c2 c3, Connection_flush t1 c = Some c1 /\ Connection_flush t2 c1 = Some c2 /\
    Connection_flush t3 c2 = Some c3 /\ cn_state c3 = Terminated /\ EvCloseSocket ∈ cn_trace c3.
Proof.
  intros Hi Hp Hb Hl Hs H2 H3 H4. unfold Connection_flush.
  set (c1 := flush_result t1 c). set (c2 := flush_result t2 c1). set (c3 := flush_result t3 c2).
  exists c1, c2, c3. rewrite !flush_exact. do 3 (split; [done|]).
  pose proof (flush_stale t1 c Hp Hb Hl Hs ltac:(lia)) as Hc1. fold c1 in Hc1.
  pose proof (flush_after_close t1 t2 c1 Hc1 ltac:(lia)) as Hc2. fold c2 in Hc2.
  assert (E3 : cn_state c3 = Terminated).
  { unfold c3, flush_result. destruct Hc2 as [E|[E Eb]]; rewrite E; [done|].
    pose proof (finish_terminating_begin t3 c2 E ltac:(lia) ltac:(lia)) as H.
    destruct (Z.ltb_spec 8000 (t3 - cn_state_begin_time c2)); [done|lia]. }
  split; [done|]. apply (flush_result_ok t3 c2); [|done]. apply (flush_result_ok t2 c1), (flush_result_ok t1 c), Hi.
Qed.
End conn_props.
