(* ===== verification/KcpSystem.v ===== *)
(** Two KCP workers and the network between them: one side pushes payloads, flushes
    and processes acknowledgements, the other processes data segments, is read from
    and flushes acknowledgements.  The network keeps every datagram ever sent and
    delivers any of them, any number of times, in any order, or never.

    Safety: what is read is always a prefix of what was pushed.  No loss: a segment
    leaves the sender's window only once the receiver has it, so an empty window
    means that the receiver can read everything that was pushed. *)
From stdpp Require Import base tactics option list numbers gmap relations sorting.
From S2P Require Import Prelude Bytes NetTypes BytesMut Buffer BufferProps MultiBuffer MultiBufferProps.
From S2P Require Import KcpSegment KcpSegmentProps KcpBase KcpSending KcpSendingProps.
From S2P Require Import KcpReceiving KcpReceivingProps.

Section system.
Context {M : Type} `{!BytesMutOps M} `{!BytesMutLaws M} `{!BufAlloc M}.
Implicit Types (s : DataSegment M) (pushed : list bytes).

(** * What a segment stands for *)

(** The segment carries the payload that was pushed under its number. *)
Definition carries pushed s : Prop :=
  0 <= ds_number s /\ pushed !! Z.to_nat (ds_number s) = Some (payload_bytes s) /\
  exists b, ds_payload s = Some b /\ buffer_ok b.

Lemma carries_more pushed p s : carries pushed s -> carries (pushed ++ [p]) s.
Proof. intros (? & Hl & ?). split; [done|]. split; [by apply lookup_app_l_Some|done]. Qed.

Lemma carries_key pushed s s' : key s' = key s -> carries pushed s -> carries pushed s'.
Proof. unfold key, carries, payload_bytes. intros [= -> ->]. done. Qed.

(** The buffer [write] fills for a chunk. *)
Definition fill (p : bytes) : Buffer M := (Buffer_write_from p Buffer_new).2.

Lemma fill_spec p : buffer_ok (fill p) /\ (zlen p <= DEFAULT_SIZE -> Buffer_bytes (fill p) = p).
Proof.
  destruct (new_spec (M:=M)) as (Hb & Hok & Hf). pose proof (write_from_spec p _ Hok) as H. unfold fill.
  destruct (Buffer_write_from p Buffer_new) as [n b]. destruct H as (-> & Hb' & Hok' & _). cbn. split; [done|].
  intros Hl. rewrite Hb', Hb. cbn [app]. apply ztake_ge. lia.
Qed.

Lemma clone_carries pushed s : Forall (fun p => zlen p <= DEFAULT_SIZE) pushed -> carries pushed s ->
  carries pushed (clone_for_send s).
Proof.
  intros Hsm (Hn & Hl & b & Hb & Hok). split; [done|].
  assert (Hp : payload_bytes s = Buffer_bytes b) by (unfold payload_bytes; by rewrite Hb).
  assert (Hlen : zlen (Buffer_bytes b) <= DEFAULT_SIZE).
  { rewrite <- Hp. eapply (Forall_lookup_1 (fun p => zlen p <= DEFAULT_SIZE)); eauto. }
  pose proof (fill_spec (Buffer_bytes b)) as [Hfo Hfb].
  unfold payload_bytes. cbn. rewrite Hb. cbn. fold (fill (Buffer_bytes b)). rewrite Hfb by done.
  split; [|by eexists]. by rewrite <- Hp.
Qed.

(** * Draining the receiving window *)

Definition window_ok pushed (w : gmap Z (DataSegment M)) : Prop :=
  map_Forall (fun id s => ds_number s = id /\ carries pushed s) w.

Definition prefix_bytes (k : Z) pushed : bytes := concat (ztake k pushed).

Lemma prefix_bytes_S k pushed p : 0 <= k -> pushed !! Z.to_nat k = Some p ->
  prefix_bytes (k + 1) pushed = prefix_bytes k pushed ++ p.
Proof.
  intros Hk Hp. unfold prefix_bytes, ztake. replace (Z.to_nat (k + 1)) with (S (Z.to_nat k)) by lia.
  rewrite (take_S_r _ _ _ Hp), concat_app. cbn. by rewrite app_nil_r.
Qed.

Lemma lookup_lt_zlen {A} (l : list A) k x : l !! Z.to_nat k = Some x -> 0 <= k -> k < zlen l.
Proof. intros H%lookup_lt_Some Hk. unfold zlen. lia. Qed.

Lemma drain_spec pushed fuel w next (mb : MultiBuffer M) : window_ok pushed w -> (size w < fuel)%nat ->
  0 <= next <= zlen pushed -> zlen pushed < 4294967296 -> multi_ok mb ->
  let '(w', next', mb') := drain fuel w next mb in
  w' !! next' = None /\ window_ok pushed w' /\ next <= next' <= zlen pushed /\ multi_ok mb' /\
  (exists D, stream (mb_buffers mb') = stream (mb_buffers mb) ++ D /\
             prefix_bytes next' pushed = prefix_bytes next pushed ++ D) /\
  (forall id, next' <= id -> w' !! id = w !! id).
Proof.
  revert w next mb. induction fuel as [|fuel IH]; intros w next mb Hw Hs Hn Hp Hmb; [lia|].
  cbn [drain]. unfold ReceivingWindow_remove. destruct (w !! next) as [s|] eqn:E.
  2: { rewrite delete_id by done. split_and!; try done; try lia. exists []. by rewrite !app_nil_r. }
  pose proof (map_Forall_lookup_1 _ _ _ _ Hw E) as [Hid (Hsn & Hl & b & Hb & Hbok)]. rewrite Hid in Hl.
  assert (Hlt : next < zlen pushed) by (eapply lookup_lt_zlen; [exact Hl|lia]).
  unfold DataSegment_detach. rewrite Hb, to_u32_id by lia.
  assert (Hpb : payload_bytes s = Buffer_bytes b) by (unfold payload_bytes; by rewrite Hb).
  assert (Hsz : size w = S (size (delete next w))).
  { rewrite <- (insert_delete_id w next s) at 1 by done. apply map_size_insert_None, lookup_delete_eq. }
  specialize (IH (delete next w) (next + 1) (MultiBuffer_push b mb)
    (map_Forall_delete _ _ _ Hw) ltac:(lia) ltac:(lia) Hp).
  destruct (drain fuel (delete next w) (next + 1) (MultiBuffer_push b mb)) as [[w' next'] mb'].
  destruct IH as (H1 & H2 & H3 & H4 & (D & HD & HP) & H5).
  { unfold multi_ok, MultiBuffer_push. cbn. apply Forall_app. split; [done|by constructor]. }
  split_and!; try done; try lia.
  - exists (Buffer_bytes b ++ D). split.
    + rewrite HD. unfold MultiBuffer_push. cbn. rewrite stream_app, stream_one. by rewrite app_assoc.
    + by rewrite HP, (prefix_bytes_S next pushed (payload_bytes s)), Hpb, app_assoc by (lia || done).
  - intros id Hid'. rewrite H5, lookup_delete_ne by lia. done.
Qed.

(** * The system *)

Record Sys : Type := mkSys {
  sy_snd : SendingInner M;
  sy_rtt : RoundTrip;
  sy_data : list bytes;
  sy_rcv : ReceivingWorker M;
  sy_acks : list bytes;
  sy_pushed : list bytes;
  sy_delivered : bytes;
}.

Definition left_stream (r : ReceivingWorker M) : bytes :=
  match rw_left_over r with Some mb => stream (mb_buffers mb) | None => [] end.

(** Everything that reads would return now. *)
Definition readable (r : ReceivingWorker M) : bytes :=
  let '(_, _, mb) := drain (S (size (rw_window r))) (rw_window r) (rw_next_number r) MultiBuffer_new in
  left_stream r ++ stream (mb_buffers mb).

Definition sys_init (cfg : Config) (rtt : RoundTrip) (mss : Z) : Sys :=
  mkSys (SendingWorker_new cfg) rtt [] (ReceivingWorker_new cfg mss) [] [] [].

Section steps.
Context (cfg : Config) (conv : Z).

Inductive sys_step : Sys -> Sys -> Prop :=
| SyPush snd rtt data rcv acks pushed out p snd' :
    zlen p <= DEFAULT_SIZE -> zlen pushed + 1 < 4294967296 ->
    SendingWorker_push (fill p) snd = (true, snd') ->
    sys_step (mkSys snd rtt data rcv acks pushed out) (mkSys snd' rtt data rcv acks (pushed ++ [p]) out)
| SyFlush snd rtt data rcv acks pushed out now st segs ping snd' :
    is_u32 now -> SendingWorker_flush_with_writer now conv cfg rtt st snd = (segs, ping, snd') ->
    sys_step (mkSys snd rtt data rcv acks pushed out)
             (mkSys snd' rtt (data ++ map data_wire segs) rcv acks pushed out)
| SyDeliver snd rtt data rcv acks pushed out w seg n :
    w ∈ data -> read_segment w = Some (KData seg, n) ->
    sys_step (mkSys snd rtt data rcv acks pushed out)
             (mkSys snd rtt data (ReceivingWorker_process_segment seg rcv) acks pushed out)
| SyRead snd rtt data rcv acks pushed out want got rcv' :
    0 <= want -> ReceivingWorker_read want rcv = Some (got, rcv') ->
    sys_step (mkSys snd rtt data rcv acks pushed out) (mkSys snd rtt data rcv' acks pushed (out ++ got))
| SyAckFlush snd rtt data rcv acks pushed out now rtt' st segs rcv' :
    is_u32 now -> ReceivingWorker_flush now conv rtt' st rcv = (segs, rcv') ->
    sys_step (mkSys snd rtt data rcv acks pushed out)
             (mkSys snd rtt data rcv' (acks ++ map ack_wire segs) pushed out)
| SyAck snd rtt data rcv acks pushed out now w ack n snd' rtt' :
    w ∈ acks -> read_segment (M:=M) w = Some (KAck ack, n) ->
    SendingWorker_process_ack_segment now ack (RoundTripInfo_timeout rtt) snd rtt = (snd', rtt') ->
    sys_step (mkSys snd rtt data rcv acks pushed out) (mkSys snd' rtt' data rcv acks pushed out).

(** * The invariant *)

Definition received (r : ReceivingWorker M) (n : Z) : Prop := n < rw_next_number r \/ is_Some (rw_window r !! n).

Definition data_datagram pushed (w : bytes) : Prop :=
  exists s, w = data_wire s /\ data_ok s /\ zlen (payload_bytes s) <= DEFAULT_SIZE /\ carries pushed s.

(** Every acknowledgement is about numbers the receiver has. *)
Definition ack_datagram (r : ReceivingWorker M) (w : bytes) : Prop :=
  exists a, w = ack_wire a /\ ack_ok a /\ zlen (ak_number_list a) <= 255 /\
    ak_receiving_next a <= rw_next_number r /\ forall n, n ∈ ak_number_list a -> received r n.

Record sender_inv (i : SendingInner M) pushed : Prop := {
  sv_ok : sending_ok i;
  sv_open : si_closed i = false;
  sv_next : si_next_number i = zlen pushed;
  sv_carries : Forall (carries pushed) (sw_cache (si_window i));
  sv_small : Forall (fun p => zlen p <= DEFAULT_SIZE) pushed;
}.

Record receiver_inv (r : ReceivingWorker M) pushed (out : bytes) : Prop := {
  rv_window : window_ok pushed (rw_window r);
  rv_next : 0 <= rw_next_number r <= zlen pushed;
  rv_left : match rw_left_over r with Some mb => multi_ok mb | None => True end;
  rv_out : out ++ left_stream r = prefix_bytes (rw_next_number r) pushed;
  rv_aligned : aligned (rw_acklist r);
  rv_acked : forall n, n ∈ al_numbers (rw_acklist r) -> received r n /\ is_u32 n;
  rv_times : Forall is_u32 (al_timestamps (rw_acklist r));
}.

Record sys_inv (y : Sys) : Prop := {
  iv_snd : sender_inv (sy_snd y) (sy_pushed y);
  iv_rcv : receiver_inv (sy_rcv y) (sy_pushed y) (sy_delivered y);
  iv_data : Forall (data_datagram (sy_pushed y)) (sy_data y);
  iv_acks : Forall (ack_datagram (sy_rcv y)) (sy_acks y);
  iv_loss : forall n, 0 <= n < zlen (sy_pushed y) ->
    n ∈ numbers (sw_cache (si_window (sy_snd y))) \/ received (sy_rcv y) n;
}.

Definition grows (r r' : ReceivingWorker M) : Prop :=
  rw_next_number r <= rw_next_number r' /\ forall n, received r n -> received r' n.

Lemma grows_refl r : grows r r.
Proof. by split. Qed.

Lemma ack_datagram_grows r r' w : grows r r' -> ack_datagram r w -> ack_datagram r' w.
Proof.
  intros [Hn Hr] (a & -> & Ha & Hl & Hrn & Hin). exists a. split_and!; auto; lia.
Qed.

Lemma data_datagram_more pushed p w : data_datagram pushed w -> data_datagram (pushed ++ [p]) w.
Proof. intros (s & ? & ? & ? & ?). exists s. split_and!; auto using carries_more. Qed.

Lemma prefix_bytes_more k pushed p : k <= zlen pushed -> prefix_bytes k (pushed ++ [p]) = prefix_bytes k pushed.
Proof. intros. unfold prefix_bytes. by rewrite ztake_app_le. Qed.

Lemma receiver_more r pushed out p : receiver_inv r pushed out -> receiver_inv r (pushed ++ [p]) out.
Proof.
  intros [Hw Hn Hl Ho Ha Hk Ht]. split; try done.
  - eapply map_Forall_impl; [exact Hw|]. intros id s [? ?]. split; [done|by apply carries_more].
  - rewrite zlen_app. zlia.
  - rewrite prefix_bytes_more by lia. done.
Qed.

Lemma sorted_snoc (l : list Z) x : StronglySorted Z.lt l -> Forall (fun n => n < x) l -> StronglySorted Z.lt (l ++ [x]).
Proof.
  induction 1 as [|y l Hs IH Hy]; cbn; intros Hf; [repeat constructor|]. inversion Hf; subst.
  constructor; [by apply IH|]. apply Forall_app. split; [done|by constructor].
Qed.

(** * Every step keeps the invariant *)

Lemma push_inv i i' pushed p : sender_inv i pushed -> zlen p <= DEFAULT_SIZE -> zlen pushed + 1 < 4294967296 ->
  SendingWorker_push (fill p) i = (true, i') ->
  sender_inv i' (pushed ++ [p]) /\
  numbers (sw_cache (si_window i')) = numbers (sw_cache (si_window i)) ++ [zlen pushed].
Proof.
  intros [[Hs Hr Hu Hn] Hcl Hnx Hc Hsm] Hp Hb. unfold SendingWorker_push. rewrite Hcl.
  destruct (_ <? _); [done|]. intros [= <-]. cbn. pose proof (zlen_nonneg pushed).
  assert (Hnum : numbers (sw_cache (si_window i) ++ [mkDataSegment 0 0 0 (si_next_number i) 0 (Some (fill p)) 0 0]) =
    numbers (sw_cache (si_window i)) ++ [zlen pushed]) by (unfold numbers; rewrite map_app; cbn; by rewrite Hnx).
  split; [|exact Hnum]. rewrite to_u32_id by lia. split; cbn; try done.
  - split; cbn; rewrite ?Hnum; try lia.
    + apply sorted_snoc; [done|]. eapply Forall_impl; [exact Hr|]. cbn. lia.
    + apply Forall_app. split; [|constructor; [lia|constructor]]. eapply Forall_impl; [exact Hr|]. cbn. lia.
  - rewrite Hnx, zlen_app. zlia.
  - apply Forall_app. split; [eapply Forall_impl; [exact Hc|]; intros; by apply carries_more|].
    constructor; [|constructor]. split; [cbn; lia|]. cbn. destruct (fill_spec p) as [Hf Hfb]. split; [|by eexists].
    unfold payload_bytes. cbn. rewrite Hfb by done. rewrite Hnx. apply list_lookup_middle. unfold zlen. lia.
  - apply Forall_app. split; [done|by constructor].
Qed.

Lemma flush_inv i i' pushed now rtt st segs ping : is_u16 conv -> is_u32 now -> sender_inv i pushed ->
  SendingWorker_flush_with_writer now conv cfg rtt st i = (segs, ping, i') ->
  sender_inv i' pushed /\ Forall (data_datagram pushed) (map data_wire segs) /\
  numbers (sw_cache (si_window i')) = numbers (sw_cache (si_window i)).
Proof.
  intros Hcv Hnow [Hok Hcl Hnx Hc Hsm] E.
  pose proof (flush_with_writer_spec now conv cfg rtt st i Hok Hcl) as H. rewrite E in H.
  destruct H as ((sent & -> & Hsent) & Hk & Hok' & Hn' & Hcl').
  split; [|split].
  - split; try done; [congruence|].
    apply Forall_forall. intros s Hin. assert (Hks : key s ∈ map key (sw_cache (si_window i))).
    { rewrite <- Hk. by apply list_elem_of_fmap_2. }
    apply list_elem_of_fmap in Hks as (s0 & E0 & Hin0). apply (carries_key _ s0); [done|].
    rewrite Forall_forall in Hc. by apply Hc.
  - apply Forall_forall. intros w Hin. rewrite map_map in Hin. apply list_elem_of_fmap in Hin as (s & -> & Hin).
    apply Hsent in Hin. rewrite Forall_forall in Hc. specialize (Hc s Hin).
    pose proof (clone_carries pushed (stamp now (RoundTripInfo_timeout rtt) conv st (si_first_unacknowledged i) s) Hsm Hc) as Hcc.
    eexists. split; [done|]. destruct Hc as (Hn0 & Hl & _). destruct Hcc as (Hn1 & Hl1 & b & Hb1 & Hbok).
    destruct Hok as [_ Hr Hu Hn]. rewrite Forall_forall in Hr. specialize (Hr (ds_number s) ltac:(by apply list_elem_of_fmap_2)).
    split; [|split].
    + unfold data_ok. rewrite Hb1. cbn. unfold SEGMENT_OPTION_CLOSE, is_u8, is_u32 in *.
      split_and!; try done; try lia; destruct (bool_decide _); lia.
    + eapply (Forall_lookup_1 (fun p => zlen p <= DEFAULT_SIZE)); eauto.
    + split; [done|]. split; [done|]. by exists b.
  - by rewrite !numbers_keys, Hk.
Qed.

Lemma process_segment_inv r pushed out s : receiver_inv r pushed out -> data_ok s -> carries pushed s ->
  receiver_inv (ReceivingWorker_process_segment s r) pushed out /\ grows r (ReceivingWorker_process_segment s r).
Proof.
  intros Hr Hs Hc. unfold ReceivingWorker_process_segment.
  destruct (_ <=? _); [split; [done|apply grows_refl]|].
  destruct Hr as [Hw Hn Hl Ho Ha Hk Ht].
  destruct (acklist_clear_subset (ds_sending_next s) (rw_acklist r) Ha) as (Ha' & Hk' & Ht').
  set (al := AckList_clear _ _) in *. unfold ReceivingWindow_set.
  set (win := match rw_window r !! ds_number s with Some _ => rw_window r | None => <[ds_number s := s]> (rw_window r) end).
  replace (let '(_, window) := match rw_window r !! ds_number s with
             | Some _ => (Some s, rw_window r) | None => (None, <[ds_number s := s]> (rw_window r)) end in
           mkReceivingWorker window (AckList_add (ds_number s) (ds_timestamp s) al) (rw_next_number r)
             (rw_window_size r) (rw_left_over r))
    with (mkReceivingWorker win (AckList_add (ds_number s) (ds_timestamp s) al) (rw_next_number r)
             (rw_window_size r) (rw_left_over r)) by (unfold win; by destruct (rw_window r !! ds_number s)).
  assert (Hwin : forall id, is_Some (rw_window r !! id) -> is_Some (win !! id)).
  { intros id Hid. unfold win. destruct (rw_window r !! ds_number s); [done|].
    destruct (decide (ds_number s = id)) as [->|]; [rewrite lookup_insert_eq; by eexists|by rewrite lookup_insert_ne]. }
  assert (Hnew : is_Some (win !! ds_number s)).
  { unfold win. destruct (rw_window r !! ds_number s) eqn:E; [rewrite E; by eexists|]. rewrite lookup_insert_eq. by eexists. }
  destruct Hs as (_ & _ & Hts & Hnum & _).
  split; [|split; [cbn; lia|]; intros n [Hlt|Hin]; [by left|right; by apply Hwin]].
  split; cbn; try done.
  - unfold win. destruct (rw_window r !! ds_number s); [done|]. apply map_Forall_insert_2; [by split|done].
  - destruct Ha' as [A1 A2]. split; cbn; rewrite !length_app; cbn; lia.
  - intros n Hin. rewrite elem_of_app in Hin. destruct Hin as [Hin|Hin].
    + apply Hk', Hk in Hin as [[Hlt|Hin] Hu]; split; try done; [by left|right; by apply Hwin].
    + apply list_elem_of_singleton in Hin as ->. split; [right; exact Hnew|done].
  - apply Forall_app. split; [|by constructor]. apply Forall_forall. intros t Hin. apply Ht' in Hin.
    rewrite Forall_forall in Ht. by apply Ht.
Qed.

Lemma is_empty_stream (mb : MultiBuffer M) : multi_ok mb -> MultiBuffer_is_empty mb = true -> stream (mb_buffers mb) = [].
Proof.
  intros Hok. unfold MultiBuffer_is_empty, MultiBuffer_len. rewrite total_len_stream by done.
  intros [H|H]%orb_true_iff; [by apply bool_decide_eq_true in H as ->|].
  apply zlen_zero. apply Z.eqb_eq in H. lia.
Qed.

(** Taking everything that is in order. *)
Lemma read_multi_buffer_inv r pushed out : receiver_inv r pushed out -> zlen pushed < 4294967296 ->
  let '(mb, r') := ReceivingWorker_read_multi_buffer r in
  receiver_inv r' pushed (out ++ stream (mb_buffers mb)) /\ grows r r' /\ multi_ok mb /\ rw_left_over r' = None.
Proof.
  intros [Hw Hn Hl Ho Ha Hk Ht] Hp. unfold ReceivingWorker_read_multi_buffer. unfold left_stream in Ho.
  destruct (rw_left_over r) as [mb|] eqn:E.
  { split; [|split; [by split|done]]. split; cbn; try done. unfold left_stream. cbn. by rewrite app_nil_r. }
  pose proof (drain_spec pushed (S (size (rw_window r))) (rw_window r) (rw_next_number r) MultiBuffer_new
    Hw ltac:(lia) Hn Hp ltac:(constructor)) as H.
  destruct (drain _ _ _ _) as [[w' next'] mb]. destruct H as (_ & Hw' & Hn' & Hmb & (D & HD & HP) & Hid).
  assert (Hg : forall n, received r n -> n < next' \/ is_Some (w' !! n)).
  { intros n [Hlt|Hin]; [left; lia|]. destruct (Z.ltb_spec n next'); [by left|]. right. by rewrite Hid by lia. }
  split; [|split; [split; [cbn; lia|exact Hg]|done]].
  split; cbn; try done; [lia| |].
  - unfold left_stream. cbn. rewrite HD, HP, !app_nil_r in *. cbn. by rewrite <- Ho.
  - intros n Hin. apply Hk in Hin as [Hin Hu]. split; [by apply Hg|done].
Qed.

Lemma read_inv r r' pushed out want got : receiver_inv r pushed out -> zlen pushed < 4294967296 -> 0 <= want ->
  ReceivingWorker_read want r = Some (got, r') -> receiver_inv r' pushed (out ++ got) /\ grows r r'.
Proof.
  intros Hr Hp Hwant. unfold ReceivingWorker_read.
  pose proof (read_multi_buffer_inv r pushed out Hr Hp) as H.
  destruct (ReceivingWorker_read_multi_buffer r) as [mb r1]. destruct H as (Hr1 & Hg & Hmb & Hl1).
  destruct (MultiBuffer_is_empty mb) eqn:Ee.
  { intros [= <- <-]. rewrite (is_empty_stream mb Hmb Ee) in Hr1. done. }
  destruct (split_bytes_spec want mb Hmb Hwant) as (r2 & s2 & -> & Hok2 & Hoks & Hsr & Hss).
  cbn [mbind option_bind]. intros [= <- <-]. fold (stream (mb_buffers r2)).
  assert (Hcat : stream (mb_buffers mb) = stream (mb_buffers r2) ++ stream (mb_buffers s2)).
  { rewrite Hsr, Hss. by rewrite ztake_drop. }
  destruct Hr1 as [Hw Hn Hl Ho Ha Hk Ht]. unfold left_stream in Ho. rewrite Hl1, app_nil_r in Ho.
  destruct (MultiBuffer_is_empty s2) eqn:Es; cbn [negb].
  - rewrite (is_empty_stream s2 Hoks Es), app_nil_r in Hcat. split; [|exact Hg].
    split; try done. unfold left_stream. rewrite Hl1, app_nil_r. by rewrite <- Hcat.
  - split; [|exact Hg]. split; cbn; try done. unfold left_stream. cbn. by rewrite <- app_assoc, <- Hcat.
Qed.

Lemma ack_flush_inv r r' pushed out now rtt st segs : is_u16 conv -> is_u32 now -> zlen pushed < 4294967296 ->
  receiver_inv r pushed out -> ReceivingWorker_flush now conv rtt st r = (segs, r') ->
  receiver_inv r' pushed out /\ grows r r' /\ Forall (ack_datagram r') (map ack_wire segs).
Proof.
  intros Hcv Hnow Hp [Hw Hn Hl Ho Ha Hk Ht]. unfold ReceivingWorker_flush.
  pose proof (acklist_flush_spec now (RoundTripInfo_timeout rtt) (rw_acklist r) Ha) as Hs.
  pose proof (acklist_flush_timestamps now (RoundTripInfo_timeout rtt) (rw_acklist r) Ht) as Hts.
  pose proof (fun a n => acklist_flush_numbers now (RoundTripInfo_timeout rtt) (rw_acklist r) a n Ha) as Hnum.
  destruct (AckList_flush now (RoundTripInfo_timeout rtt) (rw_acklist r)) as [out' al'].
  destruct Hs as (_ & Hlim & Ha' & Hns & Htm & _). cbn [fst] in *. intros [= <- <-].
  split; [|split; [by split|]].
  - split; cbn; try done; [by rewrite Hns|by rewrite Htm].
  - apply Forall_forall. intros w Hin. rewrite map_map in Hin. apply list_elem_of_fmap in Hin as (a & -> & Hin).
    rewrite Forall_forall in Hlim, Hts. destruct (Hlim a Hin) as [Hlen _]. specialize (Hts a Hin).
    eexists. split; [done|]. cbn. split_and!.
    + unfold ack_ok. cbn. unfold SEGMENT_OPTION_CLOSE. split_and!; try done.
      * unfold is_u8. destruct (bool_decide _); lia.
      * apply to_u32_range.
      * unfold is_u32. lia.
      * apply Forall_forall. intros n Hn'. by apply Hk, (Hnum a n).
    + unfold seg_limit, ACK_NUMBER_LIMIT in Hlen. lia.
    + lia.
    + intros n Hn'. by apply Hk, (Hnum a n).
Qed.

(** What remains in the window after a truthful acknowledgement is what was not
    received. *)
Lemma ack_inv i pushed now ack rto rtt (r : ReceivingWorker M) : sender_inv i pushed ->
  ak_receiving_next ack <= rw_next_number r -> (forall n, n ∈ ak_number_list ack -> received r n) ->
  let i' := (SendingWorker_process_ack_segment now ack rto i rtt).1 in
  sender_inv i' pushed /\
  forall n, n ∈ numbers (sw_cache (si_window i)) -> n ∈ numbers (sw_cache (si_window i')) \/ received r n.
Proof.
  intros [Hok Hcl Hnx Hc Hsm] Hrn Hin. cbn zeta.
  destruct (process_ack_segment_weak now ack rto i rtt Hok Hcl) as (Hok' & (f & Hf & Hfx) & Hn' & Hcl').
  set (i' := (SendingWorker_process_ack_segment now ack rto i rtt).1) in *.
  split.
  - split; try done; [congruence|]. apply Forall_forall. intros s Hs.
    assert (Hks : key s ∈ map key (sw_cache (si_window i'))) by (by apply list_elem_of_fmap_2).
    rewrite Hf, list_elem_of_In, filter_In, <- list_elem_of_In in Hks. destruct Hks as [Hks _].
    apply list_elem_of_fmap in Hks as (s0 & E0 & Hin0). apply (carries_key _ s0); [done|].
    rewrite Forall_forall in Hc. by apply Hc.
  - intros n Hn. destruct (unacked ack n) eqn:Eu.
    + left. rewrite numbers_keys, Hf. rewrite numbers_keys in Hn.
      apply list_elem_of_fmap in Hn as ([n' pl] & -> & Hkey). 
      apply list_elem_of_fmap. exists (n', pl). split; [done|].
      rewrite list_elem_of_In, filter_In, <- list_elem_of_In. split; [done|]. by apply Hfx.
    + right. unfold unacked in Eu. apply andb_false_iff in Eu as [Eu|Eu].
      * left. apply Z.leb_gt in Eu. lia.
      * apply negb_false_iff, bool_decide_eq_true in Eu. by apply Hin.
Qed.

(** A received data datagram is one that was sent. *)
Lemma datagram_data pushed w seg n : data_datagram pushed w -> read_segment (M:=M) w = Some (KData seg, n) ->
  data_ok seg /\ carries pushed seg.
Proof.
  intros (s & -> & Hok & Hl & Hc & Hk & _) Hr.
  destruct (read_segment_data s [] Hok Hl) as (s' & Hr' & Hrec). rewrite app_nil_r in Hr'.
  rewrite Hr in Hr'. injection Hr' as -> _. cbn in Hrec.
  destruct Hrec as (E1 & E2 & E3 & E4 & E5 & E6 & (b & Eb & Hb) & _).
  destruct Hok as (H1 & H2 & H3 & H4 & H5 & _). unfold data_ok, carries.
  rewrite E1, E2, E3, E4, E5, E6, Eb. split_and!; try done. by exists b.
Qed.

Lemma datagram_ack r w ack n : ack_datagram r w -> read_segment (M:=M) w = Some (KAck ack, n) ->
  ak_receiving_next ack <= rw_next_number r /\ (forall n, n ∈ ak_number_list ack -> received r n).
Proof.
  intros (a & -> & Hok & Hl & Hrn & Hin) Hr.
  destruct (read_segment_ack (M:=M) a [] Hok Hl) as (a' & Hr' & Hrec). rewrite app_nil_r in Hr'.
  rewrite Hr in Hr'. injection Hr' as -> _. cbn in Hrec. by subst a'.
Qed.

Lemma sys_step_inv y y' : is_u16 conv -> sys_inv y -> sys_step y y' -> sys_inv y'.
Proof.
  intros Hcv [Hs Hr Hd Ha Hloss] Hstep. destruct Hstep; cbn in *.
  - destruct (push_inv snd snd' pushed p Hs) as [Hs' Hnum]; [done..|].
    split; cbn; try done.
    + by apply receiver_more.
    + eapply Forall_impl; [exact Hd|]. intros. by apply data_datagram_more.
    + intros n Hn. rewrite zlen_app in Hn. change (zlen [p]) with 1 in Hn. rewrite Hnum, elem_of_app.
      destruct (Z.eqb_spec n (zlen pushed)) as [->|]; [left; right; by left|].
      destruct (Hloss n ltac:(lia)); [left; by left|by right].
  - destruct (flush_inv snd snd' pushed now rtt st segs ping) as (Hs' & Hd' & Hnum); [done..|].
    split; cbn; try done; [by apply Forall_app|]. by rewrite Hnum.
  - rewrite Forall_forall in Hd. destruct (datagram_data pushed w seg n) as [Hok Hc]; [by apply Hd|done|].
    destruct (process_segment_inv rcv pushed out seg Hr Hok Hc) as [Hr' Hg].
    split; cbn; try done; [by apply Forall_forall| |].
    + eapply Forall_impl; [exact Ha|]. intros. by apply (ack_datagram_grows rcv).
    + intros k Hk. destruct (Hloss k Hk); [by left|right; by apply Hg].
  - destruct Hs as [Hok Hcl Hnx Hc Hsm]. pose proof (so_next _ Hok) as Hlt. rewrite Hnx in Hlt.
    destruct (read_inv rcv rcv' pushed out want got Hr Hlt) as [Hr' Hg]; [done..|].
    split; cbn; try done.
    + eapply Forall_impl; [exact Ha|]. intros. by apply (ack_datagram_grows rcv).
    + intros k Hk. destruct (Hloss k Hk); [by left|right; by apply Hg].
  - destruct Hs as [Hok Hcl Hnx Hc Hsm]. pose proof (so_next _ Hok) as Hlt. rewrite Hnx in Hlt.
    destruct (ack_flush_inv rcv rcv' pushed out now rtt' st segs) as (Hr' & Hg & Ha'); [done..|].
    split; cbn; try done.
    + apply Forall_app. split; [|done]. eapply Forall_impl; [exact Ha|]. intros. by apply (ack_datagram_grows rcv).
    + intros k Hk. destruct (Hloss k Hk); [by left|right; by apply Hg].
  - rewrite Forall_forall in Ha. destruct (datagram_ack rcv w ack n) as [Hrn Hin]; [by apply Ha|done|].
    destruct (ack_inv snd pushed now ack (RoundTripInfo_timeout rtt) rtt rcv Hs Hrn Hin) as [Hs' Hkeep].
    replace (SendingWorker_process_ack_segment now ack (RoundTripInfo_timeout rtt) snd rtt) with (snd', rtt') in *.
    cbn [fst] in *. split; cbn; try done; [by apply Forall_forall|].
    intros k Hk. destruct (Hloss k Hk) as [Hw|]; [by apply Hkeep|by right].
Qed.

Lemma sys_init_inv rtt mss : sys_inv (sys_init cfg rtt mss).
Proof.
  split; cbn; [split; cbn|split; cbn|constructor|constructor|intros n Hn; zlens; lia]; try done.
  all: try (intros n Hin; by apply not_elem_of_nil in Hin).
  all: split; cbn; try done; constructor.
Qed.

Lemma sys_reach_inv rtt mss y : is_u16 conv -> rtc sys_step (sys_init cfg rtt mss) y -> sys_inv y.
Proof.
  intros Hcv H. pose proof (sys_init_inv rtt mss) as Hi. induction H as [|x y z Hs _ IH]; [done|].
  apply IH. by eapply sys_step_inv.
Qed.
End steps.

(** C1: reliable in-order delivery: over any interleaving of pushes, flushes, reads
    and acknowledgements, with the network losing, duplicating and reordering
    datagrams in both directions, the bytes read so far are a prefix of the bytes
    pushed, for up to 2^32 - 1 pushes of at most 8192 bytes. *)
Theorem kcp_in_order_delivery cfg conv rtt mss y : is_u16 conv ->
  rtc (sys_step cfg conv) (sys_init cfg rtt mss) y ->
  sy_delivered y `prefix_of` concat (sy_pushed y).
Proof.
  intros Hcv H. destruct (sys_reach_inv cfg conv rtt mss y Hcv H) as [_ [_ _ _ Ho _ _ _] _ _ _].
  unfold prefix_bytes in Ho. exists (left_stream (sy_rcv y) ++ concat (zdrop (rw_next_number (sy_rcv y)) (sy_pushed y))).
  rewrite app_assoc, Ho, <- concat_app. by rewrite ztake_drop.
Qed.

(** C2: nothing is lost: in the same system a number leaves the sending window only
    when the receiver has its payload, so once the window is empty the bytes read
    together with the bytes the receiver can read now are everything pushed. *)
Theorem kcp_no_loss cfg conv rtt mss y : is_u16 conv ->
  rtc (sys_step cfg conv) (sys_init cfg rtt mss) y ->
  sw_cache (si_window (sy_snd y)) = [] ->
  sy_delivered y ++ readable (sy_rcv y) = concat (sy_pushed y).
Proof.
  intros Hcv H He. destruct (sys_reach_inv cfg conv rtt mss y Hcv H) as [Hs [Hw Hn Hl Ho _ _ _] _ _ Hloss].
  rewrite He in Hloss. unfold readable. destruct Hs as [Hok _ Hnx _ _]. pose proof (so_next _ Hok) as Hlt. rewrite Hnx in Hlt.
  pose proof (drain_spec (sy_pushed y) (S (size (rw_window (sy_rcv y)))) (rw_window (sy_rcv y)) (rw_next_number (sy_rcv y))
    MultiBuffer_new Hw ltac:(lia) Hn Hlt ltac:(constructor)) as Hd.
  destruct (drain _ _ _ _) as [[w' next'] mb]. destruct Hd as (Hnone & _ & Hn' & _ & (D & HD & HP) & Hid).
  assert (E : next' = zlen (sy_pushed y)).
  { destruct (Z.eqb_spec next' (zlen (sy_pushed y))) as [|Hne]; [done|].
    destruct (Hloss next' ltac:(lia)) as [Hin|[Hin|[s Hin]]]; [by apply not_elem_of_nil in Hin|lia|].
    rewrite <- Hid, Hnone in Hin by lia. done. }
  rewrite app_assoc, Ho, HD. cbn [MultiBuffer_new mb_buffers]. rewrite stream_nil. cbn [app]. rewrite <- HP, E.
  unfold prefix_bytes. by rewrite ztake_ge by lia.
Qed.
End system.
