(* ===== verification/Pool.v ===== *)
(** [xray-buf/src/alloc.rs]: the tiered block pool.  A call runs in one thread, with
    that thread's cache, on the shared shards; the shard counter and the time of the
    last sweep are the two atomics.  The trace messages are not modelled. *)
From Stdlib Require Import List.
From stdpp Require Import base tactics option list numbers relations.
From S2P Require Import Prelude Bytes BytesMut.

Definition TIER_SIZES : list Z := [2048; 8192; 32768; 131072].
Definition TLS_MAX_PER_TIER : Z := 8.
Definition SHARD_COUNT : Z := 8.
Definition SHARD_MAX_PER_TIER : Z := 64.
Definition SWEEP_INTERVAL_MS : Z := 60000.

(** The smallest tier that holds [size], searched from tier [i]. *)
Fixpoint select_tier_from (tiers : list Z) (i : nat) (size : Z) : option nat :=
  match tiers with
  | [] => None
  | tier_size :: tiers => if size <=? tier_size then Some i else select_tier_from tiers (S i) size
  end.
Definition select_tier (size : Z) : option nat := select_tier_from TIER_SIZES 0 size.

Section pool.
Context {M : Type} `{!BytesMutOps M}.

(** The four free lists of a thread's cache or of a shard; the vectors are stacks, top
    first. *)
Abbreviation Tiers := (list (list M)).

Record Shared : Type := mkShared {
  sh_shards : list Tiers;
  sh_index : Z;
  sh_last_sweep : Z;
}.

Definition Shard_new : Tiers := [[]; []; []; []].
Definition Shared_new : Shared := mkShared (replicate 8 Shard_new) 0 0.

(** [maybe_sweep(now)]: [fetch_max] on the shared time, then half of each tier is kept
    ([truncate] drops the top of the stack). *)
Definition maybe_sweep (now last : Z) (shard : Tiers) : Tiers * Z :=
  let last' := Z.max last now in
  if Z.max 0 (now - last) <? SWEEP_INTERVAL_MS then (shard, last')
  else (map (fun tier => let keep := zlen tier / 2 in zdrop (zlen tier - keep) tier) shard, last').

(** [SHARD_INDEX.fetch_add(1) % SHARD_COUNT]; the counter is a [usize]. *)
Definition next_shard (g : Shared) : nat * Shared :=
  (Z.to_nat (sh_index g mod SHARD_COUNT), mkShared (sh_shards g) (to_u64 (sh_index g + 1)) (sh_last_sweep g)).

(** (the block, the thread's cache, the shared state) *)
Definition pool_alloc_in (size : Z) (tls : Tiers) (g : Shared) : M * Tiers * Shared :=
  match select_tier size with
  | Some tier =>
      let tier_size := TIER_SIZES !!! tier in
      match tls !!! tier with
      | buf :: rest => (bm_clear buf, <[tier := rest]> tls, g)
      | [] =>
          let '(shard_idx, g) := next_shard g in
          let shard := sh_shards g !!! shard_idx in
          match shard !!! tier with
          | buf :: rest =>
              (bm_clear buf, tls,
               mkShared (<[shard_idx := <[tier := rest]> shard]> (sh_shards g)) (sh_index g) (sh_last_sweep g))
          | [] => (bm_with_capacity tier_size, tls, g)
          end
      end
  | None => (bm_with_capacity size, tls, g)
  end.

Definition pool_release (now : Z) (buf : M) (tls : Tiers) (g : Shared) : Tiers * Shared :=
  let capacity := bm_capacity buf in
  match select_tier capacity with
  | Some tier =>
      if negb (capacity =? TIER_SIZES !!! tier) then (tls, g)
      else
        let buf := bm_clear buf in
        if zlen (tls !!! tier) <? TLS_MAX_PER_TIER
        then (<[tier := buf :: tls !!! tier]> tls, g)
        else
          let '(shard_idx, g) := next_shard g in
          let '(shard, last) := maybe_sweep now (sh_last_sweep g) (sh_shards g !!! shard_idx) in
          let shard := if zlen (shard !!! tier) <? SHARD_MAX_PER_TIER
                       then <[tier := buf :: shard !!! tier]> shard else shard in
          (tls, mkShared (<[shard_idx := shard]> (sh_shards g)) (sh_index g) last)
  | None => (tls, g)
  end.

Definition pool_clear (tls : Tiers) (g : Shared) : Tiers * Shared :=
  (map (fun _ => []) tls, mkShared (map (map (fun _ => [])) (sh_shards g)) (sh_index g) (sh_last_sweep g)).
End pool.

Arguments Shared M : clear implicits.

(** * Properties *)

Lemma select_tier_spec size : match select_tier size with
  | Some t => (t < 4)%nat /\ size <= TIER_SIZES !!! t /\ (forall u, (u < t)%nat -> TIER_SIZES !!! u < size)
  | None => 131072 < size
  end.
Proof.
  unfold select_tier. cbn [select_tier_from TIER_SIZES].
  destruct (Z.leb_spec size 2048); [split; [lia|]; split; [done|lia]|].
  destruct (Z.leb_spec size 8192); [split; [lia|]; split; [done|]|].
  { intros [|u] Hu; [cbn; lia|lia]. }
  destruct (Z.leb_spec size 32768); [split; [lia|]; split; [done|]|].
  { intros [|[|u]] Hu; [cbn; lia|cbn; lia|lia]. }
  destruct (Z.leb_spec size 131072); [split; [lia|]; split; [done|]|lia].
  intros [|[|[|u]]] Hu; [cbn; lia|cbn; lia|cbn; lia|lia].
Qed.

Section pool_props.
Context {M : Type} `{!BytesMutOps M} `{!BytesMutLaws M}.
Implicit Types (tls : list (list M)) (g : Shared M).

(** The blocks kept for tier [t] have exactly its size, and there are at most [mx]. *)
Definition tiers_ok (mx : Z) (ts : list (list M)) : Prop :=
  length ts = 4%nat /\
  forall t, (t < 4)%nat -> zlen (ts !!! t) <= mx /\ Forall (fun m => bm_capacity m = TIER_SIZES !!! t) (ts !!! t).

Definition shared_ok g : Prop :=
  length (sh_shards g) = 8%nat /\ Forall (tiers_ok SHARD_MAX_PER_TIER) (sh_shards g) /\ 0 <= sh_index g.

Lemma tiers_ok_insert mx ts t l : tiers_ok mx ts -> (t < 4)%nat -> zlen l <= mx ->
  Forall (fun m => bm_capacity m = TIER_SIZES !!! t) l -> tiers_ok mx (<[t := l]> ts).
Proof.
  intros [Hl Ht] Hlt Hm Hf. split; [by rewrite length_insert|]. intros u Hu.
  destruct (decide (t = u)) as [->|Hne].
  - rewrite list_lookup_total_insert_eq by lia. done.
  - rewrite list_lookup_total_insert_ne by done. by apply Ht.
Qed.

Lemma next_shard_spec g : shared_ok g ->
  let '(i, g') := next_shard g in
  (i < 8)%nat /\ shared_ok g' /\ sh_shards g' = sh_shards g /\ sh_last_sweep g' = sh_last_sweep g.
Proof.
  intros (Hl & Hf & Hi). unfold next_shard, SHARD_COUNT.
  pose proof (Z.mod_pos_bound (sh_index g) 8 ltac:(lia)). split; [lia|]. split; [|done].
  split; [done|]. split; [done|]. cbn. unfold to_u64. apply Z.mod_pos_bound. lia.
Qed.

Lemma shard_lookup g i : shared_ok g -> (i < 8)%nat -> tiers_ok SHARD_MAX_PER_TIER (sh_shards g !!! i).
Proof.
  intros (Hl & Hf & _) Hi. destruct (lookup_lt_is_Some_2 (sh_shards g) i) as [ts Hts]; [lia|].
  rewrite (list_lookup_total_correct _ _ _ Hts). by eapply Forall_lookup_1.
Qed.

Lemma sweep_ok now last ts : tiers_ok SHARD_MAX_PER_TIER ts -> tiers_ok SHARD_MAX_PER_TIER (maybe_sweep now last ts).1.
Proof.
  intros [Hl Ht]. unfold maybe_sweep. destruct (_ <? _); [by split|]. cbn. split; [by rewrite length_map|].
  intros t Hlt. destruct (lookup_lt_is_Some_2 ts t) as [l Hts]; [lia|].
  destruct (Ht t Hlt) as [Hm Hf]. rewrite (list_lookup_total_correct _ _ _ Hts) in Hm, Hf.
  rewrite (list_lookup_total_correct _ _ (zdrop (zlen l - zlen l / 2) l)) by (by rewrite list_lookup_fmap, Hts).
  split; [|auto with xray]. rewrite zlen_drop. pose proof (zlen_nonneg l). unfold SHARD_MAX_PER_TIER in *. lia.
Qed.

(** All the blocks the pool holds. *)
Definition shared_blocks g : list M := concat (map (@concat M) (sh_shards g)).

(** One allocation: the block handed out, and what the pool keeps. *)
Lemma concat_insert_cons (ts : list (list M)) t b l : ts !! t = Some (b :: l) ->
  concat ts ≡ₚ b :: concat (<[t := l]> ts).
Proof.
  revert t. induction ts as [|x ts IH]; intros [|t]; cbn; try done.
  - by intros [= ->].
  - intros H. rewrite (IH _ H). by rewrite Permutation_middle.
Qed.

Lemma concat_insert_push (ts : list (list M)) t b l : ts !! t = Some l ->
  concat (<[t := b :: l]> ts) ≡ₚ b :: concat ts.
Proof.
  revert t. induction ts as [|x ts IH]; intros [|t]; cbn; try done.
  - by intros [= ->].
  - intros H. rewrite (IH _ H). by rewrite <- Permutation_middle.
Qed.

Lemma concat_map_insert (ss : list (list (list M))) i ts ts' b : ss !! i = Some ts ->
  concat ts ≡ₚ b :: concat ts' -> concat (map (@concat M) ss) ≡ₚ b :: concat (map (@concat M) (<[i := ts']> ss)).
Proof.
  revert i. induction ss as [|x ss IH]; intros [|i]; cbn; try done.
  - intros [= ->] H. by rewrite H.
  - intros H Hp. rewrite (IH _ H Hp). by rewrite Permutation_middle.
Qed.

Lemma pool_alloc_spec size tls g : tiers_ok TLS_MAX_PER_TIER tls -> shared_ok g ->
  let '(m, tls', g') := pool_alloc_in size tls g in
  bm_data m = [] /\ size <= bm_capacity m /\ tiers_ok TLS_MAX_PER_TIER tls' /\ shared_ok g' /\
  ((exists old, m = bm_clear old /\
      concat tls ++ shared_blocks g ≡ₚ old :: concat tls' ++ shared_blocks g') \/
   (concat tls' = concat tls /\ shared_blocks g' = shared_blocks g)).
Proof.
  intros Ht Hg. unfold pool_alloc_in. pose proof (select_tier_spec size) as Hs.
  destruct (select_tier size) as [t|].
  2: { split_and!; try done; [apply bm_wc_data|apply bm_wc_cap|by right]. }
  destruct Hs as (Ht4 & Hsz & _). destruct (Ht) as [Hlt Htt]. destruct (Htt t Ht4) as [Hm Hf].
  destruct (lookup_lt_is_Some_2 tls t) as [l Hl]; [lia|]. rewrite (list_lookup_total_correct _ _ _ Hl) in *.
  destruct l as [|b rest].
  - pose proof (next_shard_spec g Hg) as Hn. destruct (next_shard g) as [i g1].
    destruct Hn as (Hi & Hg1 & Hsh & _).
    pose proof (shard_lookup g1 i Hg1 Hi) as Hts. destruct (lookup_lt_is_Some_2 (sh_shards g1) i) as [ts Hts1].
    { destruct Hg1 as (-> & _). lia. }
    rewrite (list_lookup_total_correct _ _ _ Hts1) in *. destruct (Hts) as [Hl4 Htt1]. destruct (Htt1 t Ht4) as [Hm1 Hf1].
    destruct (lookup_lt_is_Some_2 ts t) as [l1 Hl1]; [lia|]. rewrite (list_lookup_total_correct _ _ _ Hl1) in *.
    assert (Hbl : shared_blocks g1 = shared_blocks g) by (unfold shared_blocks; by rewrite Hsh).
    destruct l1 as [|b rest].
    + split_and!; try done; [apply bm_wc_data| |by right]. etrans; [exact Hsz|apply bm_wc_cap].
    + inversion Hf1; subst. rewrite zlen_cons in Hm1. pose proof (zlen_nonneg rest).
      split; [apply bm_clear_data|]. split; [rewrite bm_clear_cap; lia|]. split; [done|].
      split.
      * destruct Hg1 as (G1 & G2 & G3). split; [cbn; by rewrite length_insert|]. split; [|done]. cbn.
        apply Forall_insert; [done|]. apply tiers_ok_insert; (done || lia).
      * left. exists b. split; [done|]. rewrite <- Hbl. unfold shared_blocks at 1. cbn.
        rewrite (concat_map_insert _ _ _ (<[t:=rest]> ts) b Hts1) by (by apply concat_insert_cons).
        by rewrite <- Permutation_middle.
  - inversion Hf; subst. rewrite zlen_cons in Hm. pose proof (zlen_nonneg rest).
    split; [apply bm_clear_data|]. split; [rewrite bm_clear_cap; lia|].
    split; [apply tiers_ok_insert; (done || lia)|]. split; [done|].
    left. exists b. split; [done|]. by rewrite (concat_insert_cons _ _ _ _ Hl).
Qed.

Lemma submseteq_concat_map (f : list M -> list M) (ts : list (list M)) : (forall l, f l ⊆+ l) ->
  concat (map f ts) ⊆+ concat ts.
Proof. intros Hf. induction ts as [|l ts IH]; cbn; [done|]. by apply submseteq_app. Qed.

Lemma sweep_blocks now last (ts : list (list M)) : concat (maybe_sweep now last ts).1 ⊆+ concat ts.
Proof.
  unfold maybe_sweep. destruct (_ <? _); [done|]. cbn. apply submseteq_concat_map. intros l.
  apply sublist_submseteq. unfold zdrop. apply sublist_drop.
Qed.

Lemma concat_map_insert_sub (ss : list (list (list M))) i ts ts' b : ss !! i = Some ts ->
  concat ts' ⊆+ b :: concat ts -> concat (map (@concat M) (<[i := ts']> ss)) ⊆+ b :: concat (map (@concat M) ss).
Proof.
  revert i. induction ss as [|x ss IH]; intros [|i]; cbn; try done.
  - intros [= ->] H. rewrite (app_comm_cons _ _ b). by apply submseteq_app.
  - intros H Hp. rewrite (Permutation_middle (concat x) _ b). apply submseteq_app; [done|]. by apply (IH i).
Qed.

Lemma pool_release_spec now buf tls g : tiers_ok TLS_MAX_PER_TIER tls -> shared_ok g ->
  let '(tls', g') := pool_release now buf tls g in
  tiers_ok TLS_MAX_PER_TIER tls' /\ shared_ok g' /\
  concat tls' ++ shared_blocks g' ⊆+ bm_clear buf :: concat tls ++ shared_blocks g.
Proof.
  intros Ht Hg. unfold pool_release. pose proof (select_tier_spec (bm_capacity buf)) as Hs.
  destruct (select_tier (bm_capacity buf)) as [t|]; [|split_and!; try done; by apply submseteq_cons].
  destruct Hs as (Ht4 & _ & _). destruct (Z.eqb_spec (bm_capacity buf) (TIER_SIZES !!! t)) as [Hcap|]; cbn [negb];
    [|split_and!; try done; by apply submseteq_cons].
  destruct (Ht) as [Hlt Htt]. destruct (Htt t Ht4) as [Hm Hf].
  destruct (lookup_lt_is_Some_2 tls t) as [l Hl]; [lia|]. rewrite (list_lookup_total_correct _ _ _ Hl) in *.
  destruct (Z.ltb_spec (zlen l) TLS_MAX_PER_TIER).
  - split; [apply tiers_ok_insert; try done; [zlia|constructor; [by rewrite bm_clear_cap|done]]|]. split; [done|].
    by rewrite (concat_insert_push _ _ _ _ Hl).
  - pose proof (next_shard_spec g Hg) as Hn. destruct (next_shard g) as [i g1].
    destruct Hn as (Hi & Hg1 & Hsh & _).
    pose proof (shard_lookup g1 i Hg1 Hi) as Hts. destruct (lookup_lt_is_Some_2 (sh_shards g1) i) as [ts Hts1].
    { destruct Hg1 as (-> & _). lia. }
    rewrite (list_lookup_total_correct _ _ _ Hts1) in *.
    pose proof (sweep_ok now (sh_last_sweep g1) ts Hts) as Hok. pose proof (sweep_blocks now (sh_last_sweep g1) ts) as Hsub.
    destruct (maybe_sweep now (sh_last_sweep g1) ts) as [ts2 last]. cbn [fst] in *.
    destruct (Hok) as [Hl2 Htt2]. destruct (Htt2 t Ht4) as [Hm2 Hf2].
    destruct (lookup_lt_is_Some_2 ts2 t) as [l2 Hl2t]; [lia|]. rewrite (list_lookup_total_correct _ _ _ Hl2t) in *.
    set (ts3 := if _ <? _ then _ else ts2).
    assert (H3 : tiers_ok SHARD_MAX_PER_TIER ts3 /\ concat ts3 ⊆+ bm_clear buf :: concat ts).
    { unfold ts3. destruct (Z.ltb_spec (zlen l2) SHARD_MAX_PER_TIER).
      - split; [apply tiers_ok_insert; try done; [zlia|constructor; [by rewrite bm_clear_cap|done]]|].
        rewrite (concat_insert_push _ _ _ _ Hl2t). by apply submseteq_skip.
      - split; [done|]. by apply submseteq_cons. }
    destruct H3 as [H3 H4]. split; [done|]. split.
    + destruct Hg1 as (G1 & G2 & G3). split; [cbn; by rewrite length_insert|]. split; [|done]. cbn. by apply Forall_insert.
    + rewrite (Permutation_middle (concat tls) _ (bm_clear buf)). apply submseteq_app; [done|].
      unfold shared_blocks. cbn. rewrite <- Hsh. by apply (concat_map_insert_sub _ _ ts).
Qed.

Lemma tiers_ok_new mx : 0 <= mx -> tiers_ok mx Shard_new.
Proof.
  intros Hm. split; [done|]. intros t Ht.
  do 4 (destruct t as [|t]; [split; [exact Hm|constructor]|]). lia.
Qed.

Lemma clear_tiers_ok mx (ts : list (list M)) : 0 <= mx -> length ts = 4%nat -> tiers_ok mx (map (fun _ => []) ts).
Proof.
  intros Hm Hl. assert (E : map (fun _ : list M => @nil M) ts = Shard_new) by (by do 5 (destruct ts as [|? ts]; [done|]); done).
  rewrite E. by apply tiers_ok_new.
Qed.

(** * Threads sharing the pool *)

(** Each thread has its own cache. *)
Record World : Type := mkWorld { wo_tls : nat -> list (list M); wo_shared : Shared M }.

Definition world_init : World := mkWorld (fun _ => Shard_new) Shared_new.

Definition set_tls (i : nat) (ts : list (list M)) (f : nat -> list (list M)) : nat -> list (list M) :=
  fun j => if Nat.eqb j i then ts else f j.

Inductive pool_step : World -> World -> Prop :=
| PsAlloc i size w m tls g : pool_alloc_in size (wo_tls w i) (wo_shared w) = (m, tls, g) ->
    pool_step w (mkWorld (set_tls i tls (wo_tls w)) g)
| PsRelease i now buf w tls g : pool_release now buf (wo_tls w i) (wo_shared w) = (tls, g) ->
    pool_step w (mkWorld (set_tls i tls (wo_tls w)) g)
| PsClear i w tls g : pool_clear (wo_tls w i) (wo_shared w) = (tls, g) ->
    pool_step w (mkWorld (set_tls i tls (wo_tls w)) g).

Definition world_ok (w : World) : Prop :=
  (forall i, tiers_ok TLS_MAX_PER_TIER (wo_tls w i)) /\ shared_ok (wo_shared w).

Lemma set_tls_ok i ts w g : world_ok w -> tiers_ok TLS_MAX_PER_TIER ts -> shared_ok g ->
  world_ok (mkWorld (set_tls i ts (wo_tls w)) g).
Proof. intros [Hw _] Ht Hg. split; [|done]. intros j. cbn. unfold set_tls. by destruct (Nat.eqb j i). Qed.

Lemma pool_step_ok w w' : pool_step w w' -> world_ok w -> world_ok w'.
Proof.
  intros Hs Hw. destruct Hs as [i size w m tls g E|i now buf w tls g E|i w tls g E]; destruct (Hw) as [Ht Hg].
  - pose proof (pool_alloc_spec size (wo_tls w i) (wo_shared w) (Ht i) Hg) as H. rewrite E in H.
    destruct H as (_ & _ & ? & ? & _). by apply set_tls_ok.
  - pose proof (pool_release_spec now buf (wo_tls w i) (wo_shared w) (Ht i) Hg) as H. rewrite E in H.
    destruct H as (? & ? & _). by apply set_tls_ok.
  - unfold pool_clear in E. simplify_eq. apply set_tls_ok; [done|apply clear_tiers_ok; [done|apply Ht]|].
    destruct Hg as (G1 & G2 & G3). split; [cbn; by rewrite length_map|]. split; [|done]. cbn.
    apply Forall_fmap. eapply Forall_impl; [exact G2|]. intros ts [Hl _]. by apply clear_tiers_ok.
Qed.

Lemma world_init_ok : world_ok world_init.
Proof.
  split; [intros i; by apply tiers_ok_new|]. split; [done|]. split; [|cbn; lia].
  cbn [Shared_new sh_shards world_init wo_shared]. apply Forall_replicate. by apply tiers_ok_new.
Qed.

Lemma pool_reach_ok w : rtc pool_step world_init w -> world_ok w.
Proof. intros H. pose proof world_init_ok as Hi. induction H; eauto using pool_step_ok. Qed.

(** C38: after any interleaving of allocations, releases and clears by any threads,
    an allocation returns an empty block of at least the requested capacity, and the
    pool stays bounded: at most 8 blocks per tier in a thread's cache and 64 per tier
    in a shard, each of exactly its tier's capacity. *)
Theorem pool_alloc_contract w i size : rtc pool_step world_init w ->
  let '(m, _, _) := pool_alloc_in size (wo_tls w i) (wo_shared w) in
  bm_data m = [] /\ size <= bm_capacity m /\ world_ok w.
Proof.
  intros H. pose proof (pool_reach_ok w H) as Hw. destruct (Hw) as [Ht Hg].
  pose proof (pool_alloc_spec size (wo_tls w i) (wo_shared w) (Ht i) Hg) as Hs.
  destruct (pool_alloc_in _ _ _) as [[m tls] g]. destruct Hs as (? & ? & _). auto.
Qed.

(** A pooled block has one owner: an allocation either takes one block out of the
    pool (and returns it cleared) or leaves the pool as it was and creates a block; a
    release adds at most the released block and never copies another. *)
Theorem pool_single_owner w i size now buf : rtc pool_step world_init w ->
  (let '(m, tls', g') := pool_alloc_in size (wo_tls w i) (wo_shared w) in
   (exists old, m = bm_clear old /\
      concat (wo_tls w i) ++ shared_blocks (wo_shared w) ≡ₚ old :: concat tls' ++ shared_blocks g') \/
   (concat tls' = concat (wo_tls w i) /\ shared_blocks g' = shared_blocks (wo_shared w))) /\
  (let '(tls', g') := pool_release now buf (wo_tls w i) (wo_shared w) in
   concat tls' ++ shared_blocks g' ⊆+ bm_clear buf :: concat (wo_tls w i) ++ shared_blocks (wo_shared w)).
Proof.
  intros H. destruct (pool_reach_ok w H) as [Ht Hg].
  pose proof (pool_alloc_spec size (wo_tls w i) (wo_shared w) (Ht i) Hg) as Ha.
  pose proof (pool_release_spec now buf (wo_tls w i) (wo_shared w) (Ht i) Hg) as Hr.
  destruct (pool_alloc_in _ _ _) as [[m tls] g]. destruct (pool_release _ _ _ _) as [tls' g'].
  destruct Ha as (_ & _ & _ & _ & Ha). destruct Hr as (_ & _ & Hr). by split.
Qed.

(** Releases that reach a shard, one after the other, each on a shard of its own. *)
Fixpoint sweeps (calls : list (Z * list (list M))) (last : Z) : list (list (list M)) :=
  match calls with
  | [] => []
  | (now, shard) :: calls => let '(shard, last) := maybe_sweep now last shard in shard :: sweeps calls last
  end.

Fixpoint busy (last : Z) (times : list Z) : Prop :=
  match times with
  | [] => True
  | now :: times => last <= now < last + SWEEP_INTERVAL_MS /\ busy now times
  end.

(** The sweep measures from the last release, not from the last sweep: while
    releases reach the shards less than a minute apart, no shard is ever shrunk, for
    however long. *)
Theorem pool_busy_never_sweeps calls last : busy last (map fst calls) -> sweeps calls last = map snd calls.
Proof.
  revert last. induction calls as [|[now shard] calls IH]; intros last; cbn [map fst snd busy sweeps]; [done|].
  intros [Hb Hr]. unfold maybe_sweep. destruct (Z.ltb_spec (Z.max 0 (now - last)) SWEEP_INTERVAL_MS); [|lia].
  rewrite Z.max_r by lia. by rewrite IH.
Qed.
End pool_props.

(** Every reachable pool implements the allocation interface of [Buffer]. *)
Definition pool_buf_alloc {M} `{!BytesMutOps M} `{!BytesMutLaws M} (w : World) (i : nat)
    (Hw : world_ok (M:=M) w) : BufAlloc M.
Proof.
  refine {| pool_alloc n := (pool_alloc_in n (wo_tls w i) (wo_shared w)).1.1 |}.
  - intros n. destruct Hw as [Ht Hg]. pose proof (pool_alloc_spec n (wo_tls w i) (wo_shared w) (Ht i) Hg) as H.
    destruct (pool_alloc_in _ _ _) as [[m tls] g]. apply H.
  - intros n. destruct Hw as [Ht Hg]. pose proof (pool_alloc_spec n (wo_tls w i) (wo_shared w) (Ht i) Hg) as H.
    destruct (pool_alloc_in _ _ _) as [[m tls] g]. apply H.
Defined.
