(* ===== verification/Xudp.v ===== *)
(** [xray-xudp/src/packet.rs]: the framing of UDP packets over one byte stream, and
    [compute_global_id] of [lib.rs].  A frame is [length(2) session_id(2)=0 status opt]
    followed by an optional target and, in a New frame, an 8-byte global id; a data
    length and the data follow the frame.

    The [Write] and [Read] objects are their states [W] and [R] with their [write_all]
    and [read_exact], which may fail; the [scratch] vectors are overwritten by each
    call and hold nothing between calls. *)
From Stdlib Require Import String.
From stdpp Require Import base tactics option list numbers.
From S2P Require Import Prelude Bytes NetTypes BytesMut Buffer AddrCodec.

Definition STATUS_NEW : Z := 1.
Definition STATUS_KEEP : Z := 2.
Definition STATUS_KEEP_ALIVE : Z := 4.
Definition OPT_DATA : Z := 1.
Definition NETWORK_UDP : Z := 2.
Definition MIN_META_LEN : Z := 4.
Definition GLOBAL_ID_LEN : Z := 8.
Definition MAX_DATA_LEN : Z := 8192 - 666.

(** [std::io::Error], as far as the code looks at it: its kind. *)
Inductive IoError : Type :=
| UnexpectedEof
| OtherIo (msg : string).

Inductive PacketError : Type :=
| MetadataTooShort (n : Z)
| InvalidStatus (byte : Z)
| AddressParseFailed (msg : string)
| PacketIo (e : IoError).

Inductive FrameStatus : Type := FsNew | FsKeep | FsKeepAlive.

#[export] Instance FrameStatus_eq_dec : EqDecision FrameStatus.
Proof. solve_decision. Defined.

Definition FrameStatus_to_byte (s : FrameStatus) : Z :=
  match s with FsNew => STATUS_NEW | FsKeep => STATUS_KEEP | FsKeepAlive => STATUS_KEEP_ALIVE end.

Definition FrameStatus_from_byte (b : Z) : option FrameStatus :=
  if b =? STATUS_NEW then Some FsNew
  else if b =? STATUS_KEEP then Some FsKeep
  else if b =? STATUS_KEEP_ALIVE then Some FsKeepAlive
  else None.

(** [FrameMetadata] of this crate. *)
Record XudpMetadata : Type := mkXudp {
  xm_status : FrameStatus;
  xm_has_data : bool;
  xm_target : option Destination;
  xm_global_id : option bytes;
}.

Definition XudpMetadata_new_udp (address : Address) (port : Port) (global_id : bytes) : XudpMetadata :=
  mkXudp FsNew true (Some (Destination_udp address port)) (Some global_id).
Definition XudpMetadata_keep_udp (address : Address) (port : Port) : XudpMetadata :=
  mkXudp FsKeep true (Some (Destination_udp address port)) None.
Definition XudpMetadata_keep_alive : XudpMetadata := mkXudp FsKeepAlive false None None.

Definition XudpMetadata_set_target (t : Destination) (m : XudpMetadata) : XudpMetadata :=
  mkXudp (xm_status m) (xm_has_data m) (Some t) (xm_global_id m).
Definition XudpMetadata_set_global_id (id : bytes) (m : XudpMetadata) : XudpMetadata :=
  mkXudp (xm_status m) (xm_has_data m) (xm_target m) (Some id).

(** * Frames *)

Section frames.
Context (M : Type) `{!BytesMutOps M} `{!BufAlloc M}.

(** The target, if it is a UDP one: its network byte, then port and address through a
    buffer of 32 bytes. *)
Definition target_field (t : option Destination) : bytes :=
  match t with
  | Some t =>
      if bool_decide (Destination_network t = UDP) then
        let addr_buf := @Buffer_with_capacity M _ 32 in
        [NETWORK_UDP] ++ Buffer_bytes (write_port_address (Destination_port t) (Destination_address t) addr_buf)
      else []
  | None => []
  end.

Definition global_id_field (m : XudpMetadata) : bytes :=
  match xm_status m with FsNew => default [] (xm_global_id m) | _ => [] end.

(** The vector is cleared first; the length is filled in at the end. *)
Definition XudpMetadata_write_bytes_into (m : XudpMetadata) (_ : bytes) : bytes :=
  let out := [0; 0; 0; 0] ++ [FrameStatus_to_byte (xm_status m)] ++ [if xm_has_data m then OPT_DATA else 0]
             ++ target_field (xm_target m) ++ global_id_field m in
  let body_len := to_u16 (zlen out - 2) in
  be16 body_len ++ zdrop 2 out.

Definition XudpMetadata_to_bytes (m : XudpMetadata) : bytes := XudpMetadata_write_bytes_into m [].

Definition XudpMetadata_write_to {W} (write_all : bytes -> W -> result IoError unit * W) (m : XudpMetadata) (w : W)
    : result PacketError unit * W :=
  match write_all (XudpMetadata_to_bytes m) w with
  | (Ok _, w) => (Ok tt, w)
  | (Err e, w) => (Err (PacketIo e), w)
  end.
End frames.

Definition parse_body_target (body : bytes) (status : FrameStatus)
    : result PacketError (option Destination * option bytes) :=
  let off := 4 in
  match status with
  | FsNew =>
      if (off <? zlen body) && (body @ off =? NETWORK_UDP) then
        let off := off + 1 in
        '(port, addr, consumed) ← ok_or (AddressParseFailed "New frame") (parse_port_address (zdrop off body));
        let off := off + consumed in
        Ok (Some (Destination_udp addr port),
            if off + GLOBAL_ID_LEN <=? zlen body then Some body[: off, off + GLOBAL_ID_LEN] else None)
      else Ok (None, None)
  | FsKeep =>
      if (off <? zlen body) && (body @ off =? NETWORK_UDP) then
        let off := off + 1 in
        '(port, addr, _) ← ok_or (AddressParseFailed "Keep frame") (parse_port_address (zdrop off body));
        Ok (Some (Destination_udp addr port), None)
      else Ok (None, None)
  | FsKeepAlive => Ok (None, None)
  end.

(** The part that [from_bytes] and [read_from] share: the body to the metadata. *)
Definition parse_xudp_body (body : bytes) : result PacketError XudpMetadata :=
  let status_byte := body @ 2 in
  status ← ok_or (InvalidStatus status_byte) (FrameStatus_from_byte status_byte);
  let has_data := negb (Z.land (body @ 3) OPT_DATA =? 0) in
  '(target, global_id) ← parse_body_target body status;
  Ok (mkXudp status has_data target global_id).

Definition XudpMetadata_from_bytes (data : bytes) : result PacketError (XudpMetadata * Z) :=
  if zlen data <? 2 then Err (MetadataTooShort (zlen data))
  else
    let body_len := be_val data[: 0, 2] in
    if body_len <? MIN_META_LEN then Err (MetadataTooShort body_len)
    else if zlen data <? 2 + body_len then Err (MetadataTooShort (zlen data))
    else
      m ← parse_xudp_body data[: 2, 2 + body_len];
      Ok (m, 2 + body_len).

Definition XudpMetadata_read_from {R} (read_exact : Z -> R -> result IoError bytes * R) (r : R)
    : result PacketError XudpMetadata * R :=
  match read_exact 2 r with
  | (Err e, r) => (Err (PacketIo e), r)
  | (Ok len_buf, r) =>
      let body_len := be_val len_buf in
      if body_len <? MIN_META_LEN then (Err (MetadataTooShort body_len), r)
      else
        match read_exact body_len r with
        | (Err e, r) => (Err (PacketIo e), r)
        | (Ok body, r) => (parse_xudp_body body, r)
        end
  end.

(** * Packets *)

Record PacketWriter (W : Type) : Type := mkPacketWriter {
  pw_writer : W;
  pw_dest : Destination;
  pw_global_id : bytes;
  pw_new_sent : bool;
}.
Arguments mkPacketWriter {W}.
Arguments pw_writer {W}.
Arguments pw_dest {W}.
Arguments pw_global_id {W}.
Arguments pw_new_sent {W}.

Section packet_writer.
Context (M : Type) `{!BytesMutOps M} `{!BufAlloc M}.
Context {W : Type} (write_all : bytes -> W -> result IoError unit * W).

Definition PacketWriter_new (writer : W) (dest : Destination) (global_id : bytes) : PacketWriter W :=
  mkPacketWriter writer dest global_id false.

(** The [?] operator on successive writes: the first error ends the call. *)
Fixpoint write_chunks (chunks : list bytes) (w : W) : result PacketError unit * W :=
  match chunks with
  | [] => (Ok tt, w)
  | c :: chunks =>
      match write_all c w with
      | (Ok _, w) => write_chunks chunks w
      | (Err e, w) => (Err (PacketIo e), w)
      end
  end.

(** [write_packet_with_udp_target]; [write_packet] is the same code with the writer's
    own destination. *)
Definition PacketWriter_write_packet_with_udp_target (data : bytes) (udp : Destination) (p : PacketWriter W)
    : result PacketError unit * PacketWriter W :=
  if (zlen data =? 0) || (MAX_DATA_LEN <? zlen data) then (Ok tt, p)
  else
    let '(new_sent, meta) :=
      if negb (pw_new_sent p) && bool_decide (Destination_network (pw_dest p) = UDP)
      then (true, XudpMetadata_new_udp (Destination_address (pw_dest p)) (Destination_port (pw_dest p)) (pw_global_id p))
      else (pw_new_sent p, XudpMetadata_keep_udp (Destination_address udp) (Destination_port udp)) in
    let '(r, w) := write_chunks [XudpMetadata_to_bytes M meta; be16 (to_u16 (zlen data)); data] (pw_writer p) in
    (r, mkPacketWriter w (pw_dest p) (pw_global_id p) new_sent).

Definition PacketWriter_write_packet (data : bytes) (p : PacketWriter W) : result PacketError unit * PacketWriter W :=
  PacketWriter_write_packet_with_udp_target data (pw_dest p) p.
End packet_writer.

Record PacketData : Type := mkPacketData { pd_data : bytes; pd_udp_target : option Destination }.

Section packet_reader.
Context {R : Type} (read_exact : Z -> R -> result IoError bytes * R).

(** One turn of the loop of [read_packet]: [None] when it [continue]s. *)
Definition read_packet_turn (r : R) : option (result PacketError (option PacketData)) * R :=
  match read_exact 2 r with
  | (Err UnexpectedEof, r) => (Some (Ok None), r)
  | (Err e, r) => (Some (Err (PacketIo e)), r)
  | (Ok len_buf, r) =>
      let body_len := be_val len_buf in
      if body_len <? MIN_META_LEN then (Some (Err (MetadataTooShort body_len)), r)
      else
        match read_exact body_len r with
        | (Err e, r) => (Some (Err (PacketIo e)), r)
        | (Ok body, r) =>
            match XudpMetadata_from_bytes (len_buf ++ body) with
            | Err e => (Some (Err e), r)
            | Ok (meta, _) =>
                let udp_target := xm_target meta in
                let finish r :=
                  if bool_decide (xm_status meta = FsKeepAlive) then (None, r) else (Some (Ok None), r) in
                if xm_has_data meta then
                  match read_exact 2 r with
                  | (Err e, r) => (Some (Err (PacketIo e)), r)
                  | (Ok dl, r) =>
                      let len := be_val dl in
                      if 0 <? len then
                        match read_exact len r with
                        | (Err e, r) => (Some (Err (PacketIo e)), r)
                        | (Ok data, r) => (Some (Ok (Some (mkPacketData data udp_target))), r)
                        end
                      else finish r
                  end
                else finish r
            end
        end
  end.

(** [None]: the fuel ran out on keep-alive frames. *)
Fixpoint PacketReader_read_packet (fuel : nat) (r : R) : option (result PacketError (option PacketData) * R) :=
  match fuel with
  | O => None
  | S fuel =>
      match read_packet_turn r with
      | (Some res, r) => Some (res, r)
      | (None, r) => PacketReader_read_packet fuel r
      end
  end.
End packet_reader.

(** * The global id

    [blake3] is the third-party derive-key hash of (context, input). *)

Record GlobalIdInput : Type := mkGlobalIdInput { gi_source : bytes; gi_source_network : Network; gi_cone : bool }.

Definition compute_global_id (blake3 : string -> bytes -> bytes) (input : GlobalIdInput) (base_key : bytes) : bytes :=
  if negb (gi_cone input) then zrepeat GLOBAL_ID_LEN 0
  else if negb (bool_decide (gi_source_network input = UDP)) then zrepeat GLOBAL_ID_LEN 0
  else ztake GLOBAL_ID_LEN (blake3 "xray-xudp-global-id"%string (gi_source input ++ base_key)).
