(* ===== verification/XudpProps.v ===== *)
(** XUDP packets: what a writer puts on a stream, interleaved with keep-alive frames, a
    reader takes off it, packet by packet; and the frames that the fixed 32-byte
    address buffer breaks. *)
From Stdlib Require Import String List.
From stdpp Require Import base tactics option list numbers.
From S2P Require Import Prelude Bytes NetTypes BytesMut Buffer BufferProps AddrCodec Xudp.

(** * The wire form *)

Definition udp_fits (a : Address) (p : Port) : Prop :=
  port_ok p /\ encodable a /\ zlen (port_addr_wire p a) <= 32.

Definition xudp_wire (s : FrameStatus) (has_data : bool) (target gid : bytes) : bytes :=
  let body := [0; 0; FrameStatus_to_byte s; if has_data then OPT_DATA else 0] ++ target ++ gid in
  be16 (zlen body) ++ body.

(** [Vec<u8>] as a [Write], [&[u8]] as a [Read]. *)
Definition vec_write_all (c w : bytes) : result IoError unit * bytes := (Ok tt, w ++ c).
Definition slice_read (n : Z) (r : bytes) : result IoError bytes * bytes :=
  if zlen r <? n then (Err UnexpectedEof, []) else (Ok (ztake n r), zdrop n r).

Lemma slice_read_app n l r : n = zlen l -> slice_read n (l ++ r) = (Ok l, r).
Proof.
  intros ->. unfold slice_read. zlens. zlen_facts. zcase_goal; [lia|].
  by rewrite ztake_app, zdrop_app.
Qed.

Lemma drop_two (a b : Z) l : zdrop 2 (a :: b :: l) = l.
Proof. reflexivity. Qed.
Lemma drop_five (a b c d e : Z) l : zdrop (4 + 1) (a :: b :: c :: d :: e :: l) = l.
Proof. reflexivity. Qed.

Lemma FrameStatus_roundtrip s : FrameStatus_from_byte (FrameStatus_to_byte s) = Some s.
Proof. by destruct s. Qed.

Section frames.
Context {M : Type} `{!BytesMutOps M} `{!BytesMutLaws M} `{!BufAlloc M}.

Lemma target_field_fits a p : udp_fits a p ->
  target_field M (Some (Destination_udp a p)) = NETWORK_UDP :: port_addr_wire p a.
Proof.
  intros (Hp & Ha & Hl). unfold target_field. rewrite bool_decide_eq_true_2 by done.
  destruct (with_capacity_spec (M:=M) 32) as (Hok & He & Hf); [lia|].
  destruct (write_port_address_fits p a _ Hok) as [E _]; [lia|].
  by rewrite He in E; cbn in E |- *; rewrite E.
Qed.

Lemma to_bytes_wire m : zlen (target_field M (xm_target m)) + zlen (global_id_field m) < 65000 ->
  XudpMetadata_to_bytes M m =
    xudp_wire (xm_status m) (xm_has_data m) (target_field M (xm_target m)) (global_id_field m).
Proof.
  intros Hl. unfold XudpMetadata_to_bytes, XudpMetadata_write_bytes_into, xudp_wire. cbv zeta.
  cbn [app]. rewrite drop_two. f_equal.
  rewrite to_u16_small; [|unfold is_u16; zlia]. f_equal. zlia.
Qed.

(** Parsing a frame is parsing its body. *)
Lemma from_bytes_wire s (has_data : bool) target gid rest :
  zlen target + zlen gid < 65000 ->
  XudpMetadata_from_bytes (xudp_wire s has_data target gid ++ rest) =
    match parse_body_target ([0; 0; FrameStatus_to_byte s; if has_data then OPT_DATA else 0] ++ target ++ gid) s with
    | Ok (t, g) => Ok (mkXudp s has_data t g, zlen (xudp_wire s has_data target gid))
    | Err e => Err e
    end.
Proof.
  intros Hl. unfold XudpMetadata_from_bytes, xudp_wire.
  set (body := [0; 0; _; _] ++ _) in *. cbv zeta.
  assert (Hb : zlen body = 4 + zlen target + zlen gid) by (unfold body; zlia).
  rewrite <- app_assoc. rewrite slice_app_head by done. pose proof (zlen_nonneg target). pose proof (zlen_nonneg gid).
  rewrite be16_val by (unfold is_u16; lia). unfold MIN_META_LEN. zlens. zlen_facts. zcases.
  rewrite slice_app_skip, slice_app_head by zlia.
  unfold parse_xudp_body. change (body @ 2) with (FrameStatus_to_byte s).
  rewrite FrameStatus_roundtrip. cbn [ok_or mbind result_bind].
  change (body @ 3) with (if has_data then OPT_DATA else 0).
  destruct (parse_body_target body s) as [[t g]|e]; [|done]. cbn. do 2 f_equal. by destruct has_data.
Qed.

Lemma parse_new_target p a gid d : udp_fits a p -> zlen gid = 8 ->
  parse_body_target ([0; 0; 1; d] ++ (NETWORK_UDP :: port_addr_wire p a) ++ gid) FsNew =
    Ok (Some (Destination_udp a p), Some gid).
Proof.
  intros (Hp & Ha & _) Hg. unfold parse_body_target. cbn [app].
  zlens. zlen_facts. zcase_goal; [|lia]. cbn [andb].
  change ((_ :: _ :: _ :: _ :: NETWORK_UDP :: _) @ 4) with NETWORK_UDP. cbn [Z.eqb NETWORK_UDP Pos.eqb].
  rewrite drop_five.
  rewrite parse_port_address_wire by done. cbn [ok_or mbind result_bind].
  unfold GLOBAL_ID_LEN. zlens. zlen_facts. zcase_goal; [|lia].
  do 3 f_equal. rewrite !slice_cons by lia.
  rewrite slice_app_skip by lia.
  match goal with |- context [slice ?x ?y gid] => replace x with 0 by lia; replace y with 8 by lia end.
  by rewrite slice_all.
Qed.

Lemma parse_keep_target p a d : udp_fits a p ->
  parse_body_target ([0; 0; 2; d] ++ (NETWORK_UDP :: port_addr_wire p a) ++ []) FsKeep =
    Ok (Some (Destination_udp a p), None).
Proof.
  intros (Hp & Ha & _). unfold parse_body_target. cbn [app].
  zlens. zlen_facts. zcase_goal; [|lia]. cbn [andb].
  change ((_ :: _ :: _ :: _ :: NETWORK_UDP :: _) @ 4) with NETWORK_UDP. cbn [Z.eqb NETWORK_UDP Pos.eqb].
  rewrite drop_five.
  by rewrite parse_port_address_wire.
Qed.

Lemma new_udp_roundtrip p a gid rest : udp_fits a p -> zlen gid = 8 ->
  XudpMetadata_from_bytes (XudpMetadata_to_bytes M (XudpMetadata_new_udp a p gid) ++ rest) =
    Ok (XudpMetadata_new_udp a p gid, zlen (XudpMetadata_to_bytes M (XudpMetadata_new_udp a p gid))).
Proof.
  intros Hu Hg. pose proof (proj2 (proj2 Hu)).
  pose proof (target_field_fits a p Hu) as Ht.
  rewrite to_bytes_wire.
  - cbn [xm_target xm_status xm_has_data XudpMetadata_new_udp]. rewrite Ht. rewrite from_bytes_wire by (cbn; zlia).
    cbn [FrameStatus_to_byte global_id_field XudpMetadata_new_udp xm_status xm_global_id default].
    by rewrite parse_new_target.
  - cbn [xm_target XudpMetadata_new_udp]. rewrite Ht. cbn. zlia.
Qed.

Lemma keep_udp_roundtrip p a rest : udp_fits a p ->
  XudpMetadata_from_bytes (XudpMetadata_to_bytes M (XudpMetadata_keep_udp a p) ++ rest) =
    Ok (XudpMetadata_keep_udp a p, zlen (XudpMetadata_to_bytes M (XudpMetadata_keep_udp a p))).
Proof.
  intros Hu. pose proof (proj2 (proj2 Hu)).
  pose proof (target_field_fits a p Hu) as Ht.
  rewrite to_bytes_wire.
  - cbn [xm_target xm_status xm_has_data XudpMetadata_keep_udp]. rewrite Ht. rewrite from_bytes_wire by (cbn; zlia).
    cbn [FrameStatus_to_byte global_id_field XudpMetadata_keep_udp xm_status xm_global_id default].
    by rewrite parse_keep_target.
  - cbn [xm_target XudpMetadata_keep_udp]. rewrite Ht. cbn. zlia.
Qed.

Lemma keep_alive_roundtrip rest :
  XudpMetadata_from_bytes (XudpMetadata_to_bytes M XudpMetadata_keep_alive ++ rest) = Ok (XudpMetadata_keep_alive, 6).
Proof.
  rewrite to_bytes_wire by (cbn; zlia).
  exact (from_bytes_wire FsKeepAlive false [] [] rest eq_refl).
Qed.

(** * One turn of the reader *)

Definition has_frame (m : XudpMetadata) : Prop := forall rest,
  XudpMetadata_from_bytes (XudpMetadata_to_bytes M m ++ rest) = Ok (m, zlen (XudpMetadata_to_bytes M m)).

(** The frame's bytes as the reader takes them: a length and that many bytes. *)
Lemma frame_cut m : has_frame m -> exists body, XudpMetadata_to_bytes M m = be16 (zlen body) ++ body /\
  4 <= zlen body < 65536.
Proof.
  intros H. specialize (H []). rewrite app_nil_r in H.
  unfold XudpMetadata_to_bytes, XudpMetadata_write_bytes_into in *. cbv zeta in *. cbn [app] in *.
  rewrite drop_two in *. set (body := 0 :: 0 :: FrameStatus_to_byte (xm_status m) :: _) in *.
  replace (zlen (0 :: 0 :: body) - 2) with (zlen body) in * by zlia.
  assert (Hb : 4 <= zlen body) by (unfold body; zlia). clearbody body.
  exists body. revert H. unfold XudpMetadata_from_bytes. zlens. zlen_facts. zcase_goal; [lia|].
  rewrite slice_app_head by done. rewrite be16_val by (unfold is_u16, to_u16; apply Z.mod_pos_bound; lia).
  pose proof (Z.mod_pos_bound (zlen body) 65536 ltac:(lia)). fold (to_u16 (zlen body)) in *.
  destruct (_ <? MIN_META_LEN); [done|].
  destruct (2 + zlen body <? 2 + to_u16 (zlen body)); [done|].
  destruct (parse_xudp_body _); cbn; [|done]. intros [= _ E].
  assert (E' : to_u16 (zlen body) = zlen body) by lia. rewrite E'. split; [done|]. lia.
Qed.

Lemma turn_packet m data rest : has_frame m -> xm_has_data m = true -> 0 < zlen data <= MAX_DATA_LEN ->
  read_packet_turn slice_read (XudpMetadata_to_bytes M m ++ be16 (to_u16 (zlen data)) ++ data ++ rest) =
    (Some (Ok (Some (mkPacketData data (xm_target m)))), rest).
Proof.
  intros Hm Hd Hl. unfold MAX_DATA_LEN in Hl. unfold read_packet_turn.
  destruct (frame_cut m Hm) as (body & E & Hb). specialize (Hm []). rewrite app_nil_r in Hm. rewrite E in *.
  rewrite <- app_assoc, slice_read_app by done. rewrite be16_val by (unfold is_u16; lia). unfold MIN_META_LEN. zcases.
  rewrite slice_read_app by done. rewrite Hm, Hd.
  rewrite slice_read_app by done. rewrite to_u16_small by (unfold is_u16; lia).
  rewrite be16_val by (unfold is_u16; lia). zcases. by rewrite slice_read_app.
Qed.

Lemma turn_keep_alive rest :
  read_packet_turn slice_read (XudpMetadata_to_bytes M XudpMetadata_keep_alive ++ rest) = (None, rest).
Proof.
  assert (Hm : has_frame XudpMetadata_keep_alive).
  { intros r. rewrite keep_alive_roundtrip, to_bytes_wire; [done|cbn; zlia]. }
  unfold read_packet_turn. destruct (frame_cut _ Hm) as (body & E & Hb).
  specialize (Hm []). rewrite app_nil_r in Hm. rewrite E in *.
  rewrite <- app_assoc, slice_read_app by done. rewrite be16_val by (unfold is_u16; lia). unfold MIN_META_LEN. zcases.
  rewrite slice_read_app by done. by rewrite Hm.
Qed.

(** * A whole session *)

(** What one side does: write a packet to the writer's destination or to another one,
    or send a keep-alive frame. *)
Inductive xudp_op : Type :=
| XoPacket (data : bytes)
| XoPacketTo (data : bytes) (udp : Destination)
| XoKeepAlive.

Definition xudp_run_op (p : PacketWriter bytes) (op : xudp_op) : PacketWriter bytes :=
  match op with
  | XoPacket data => (PacketWriter_write_packet M vec_write_all data p).2
  | XoPacketTo data udp => (PacketWriter_write_packet_with_udp_target M vec_write_all data udp p).2
  | XoKeepAlive => mkPacketWriter (pw_writer p ++ XudpMetadata_to_bytes M XudpMetadata_keep_alive)
                     (pw_dest p) (pw_global_id p) (pw_new_sent p)
  end.

Definition xudp_run (ops : list xudp_op) (p : PacketWriter bytes) : PacketWriter bytes :=
  fold_left xudp_run_op ops p.

(** What the other side should see. *)
Definition as_udp (d : Destination) : Destination := Destination_udp (Destination_address d) (Destination_port d).

Fixpoint xudp_expected (dest : Destination) (new_sent : bool) (ops : list xudp_op) : list PacketData :=
  match ops with
  | [] => []
  | op :: ops =>
      let packet data udp :=
        if (0 <? zlen data) && (zlen data <=? MAX_DATA_LEN) then
          let first := negb new_sent && bool_decide (Destination_network dest = UDP) in
          mkPacketData data (Some (if first then as_udp dest else as_udp udp))
          :: xudp_expected dest (new_sent || first) ops
        else xudp_expected dest new_sent ops in
      match op with
      | XoPacket data => packet data dest
      | XoPacketTo data udp => packet data udp
      | XoKeepAlive => xudp_expected dest new_sent ops
      end
  end.

(** Reading packets until the reader reports the end of the stream. *)
Fixpoint xudp_read_all (n fuel : nat) (r : bytes) : option (list PacketData * bytes) :=
  match n with
  | O => None
  | S n =>
      '(res, r) ← PacketReader_read_packet slice_read fuel r;
      match res with
      | Ok (Some pd) => '(pds, r) ← xudp_read_all n fuel r; Some (pd :: pds, r)
      | Ok None => Some ([], r)
      | Err _ => None
      end
  end.

Definition dest_fits (d : Destination) : Prop := udp_fits (Destination_address d) (Destination_port d).
Definition xudp_op_ok (op : xudp_op) : Prop :=
  match op with XoPacketTo _ udp => dest_fits udp | _ => True end.

Lemma vec_write_chunks cs w : write_chunks vec_write_all cs w = (Ok tt, w ++ concat cs).
Proof.
  revert w. induction cs as [|c cs IH]; intros w; cbn; [by rewrite app_nil_r|].
  by rewrite IH, <- app_assoc.
Qed.

(** A writer call appends a frame that carries the packet and its target, or nothing. *)
Lemma write_to_spec data udp p : dest_fits (pw_dest p) -> zlen (pw_global_id p) = 8 -> dest_fits udp ->
  let p' := (PacketWriter_write_packet_with_udp_target M vec_write_all data udp p).2 in
  let first := negb (pw_new_sent p) && bool_decide (Destination_network (pw_dest p) = UDP) in
  if (0 <? zlen data) && (zlen data <=? MAX_DATA_LEN) then
    exists m, has_frame m /\ xm_has_data m = true /\
     xm_target m = Some (if first then as_udp (pw_dest p) else as_udp udp) /\
     p' = mkPacketWriter (pw_writer p ++ XudpMetadata_to_bytes M m ++ be16 (to_u16 (zlen data)) ++ data)
             (pw_dest p) (pw_global_id p) (pw_new_sent p || first)
  else p' = p.
Proof.
  intros Hd Hg Hu. cbv zeta. unfold PacketWriter_write_packet_with_udp_target. pose proof (zlen_nonneg data).
  destruct (Z.ltb_spec 0 (zlen data)), (Z.leb_spec (zlen data) MAX_DATA_LEN); cbn [andb];
    destruct (Z.eqb_spec (zlen data) 0), (Z.ltb_spec MAX_DATA_LEN (zlen data)); cbn [orb]; try lia; try done.
  destruct (negb (pw_new_sent p) && bool_decide _) eqn:Ef; rewrite vec_write_chunks; cbn.
  - exists (XudpMetadata_new_udp (Destination_address (pw_dest p)) (Destination_port (pw_dest p)) (pw_global_id p)).
    split; [intros r; by apply new_udp_roundtrip|]. split; [done|]. split; [done|].
    by rewrite app_nil_r, orb_true_r.
  - exists (XudpMetadata_keep_udp (Destination_address udp) (Destination_port udp)).
    split; [intros r; by apply keep_udp_roundtrip|]. split; [done|]. split; [done|].
    by rewrite app_nil_r, orb_false_r.
Qed.

Lemma read_packet_more f f' r x : PacketReader_read_packet slice_read f r = Some x -> (f <= f')%nat ->
  PacketReader_read_packet slice_read f' r = Some x.
Proof.
  revert f' r. induction f as [|f IH]; intros f' r; [done|]. destruct f' as [|f']; [lia|]. cbn.
  destruct (read_packet_turn slice_read r) as [[res|] r']; [done|]. intros H Hf. apply IH; [done|lia].
Qed.

Lemma read_all_more n n' f f' r x : xudp_read_all n f r = Some x -> (n <= n')%nat -> (f <= f')%nat ->
  xudp_read_all n' f' r = Some x.
Proof.
  revert n' r x. induction n as [|n IH]; intros n' r x; [done|]. destruct n' as [|n']; [lia|]. cbn. intros H Hn Hf.
  destruct (PacketReader_read_packet slice_read f r) as [[res r']|] eqn:E; [|done].
  rewrite (read_packet_more _ _ _ _ E Hf). cbn in *. destruct res as [[pd|]|]; [|done|done].
  destruct (xudp_read_all n f r') as [[pds r'']|] eqn:E'; [|done]. by rewrite (IH n' _ _ E') by lia.
Qed.

Lemma read_all_packet n f m data rest pds r : has_frame m -> xm_has_data m = true ->
  0 < zlen data <= MAX_DATA_LEN -> xudp_read_all n (S f) rest = Some (pds, r) ->
  xudp_read_all (S n) (S f) (XudpMetadata_to_bytes M m ++ be16 (to_u16 (zlen data)) ++ data ++ rest) =
    Some (mkPacketData data (xm_target m) :: pds, r).
Proof.
  intros Hm Hd Hl Hr. cbn [xudp_read_all PacketReader_read_packet]. rewrite turn_packet by done. cbn [mbind option_bind].
  by rewrite Hr.
Qed.

Lemma read_all_keep_alive n f rest x : xudp_read_all n f rest = Some x ->
  xudp_read_all n (S f) (XudpMetadata_to_bytes M XudpMetadata_keep_alive ++ rest) = Some x.
Proof.
  destruct n as [|n]; [done|]. cbn [xudp_read_all PacketReader_read_packet]. rewrite turn_keep_alive.
  destruct (PacketReader_read_packet slice_read f rest) as [[res r']|] eqn:E; [|done]. cbn.
  destruct res as [[pd|]|]; [|done|done].
  destruct (xudp_read_all n f r') as [[pds r'']|] eqn:E'; [|done]. intros <-.
  by rewrite (read_all_more _ n _ (S f) _ _ E') by lia.
Qed.

(** The writer's stream after the calls is what it was, then bytes from which the
    expected packets are read. *)
Definition xudp_sends (p : PacketWriter bytes) (ops : list xudp_op) : Prop :=
  exists out, pw_writer (xudp_run ops p) = pw_writer p ++ out /\
   xudp_read_all (S (length ops)) (S (length ops)) out =
      Some (xudp_expected (pw_dest p) (pw_new_sent p) ops, []).

Lemma sends_packet data udp p ops : dest_fits (pw_dest p) -> zlen (pw_global_id p) = 8 -> dest_fits udp ->
  (forall p', pw_dest p' = pw_dest p -> pw_global_id p' = pw_global_id p -> xudp_sends p' ops) ->
  xudp_sends p (XoPacketTo data udp :: ops).
Proof.
  intros Hd Hg Hu IH. unfold xudp_sends. pose proof (write_to_spec data udp p Hd Hg Hu) as H. cbv zeta in H.
  change (xudp_run (XoPacketTo data udp :: ops) p) with
    (xudp_run ops (PacketWriter_write_packet_with_udp_target M vec_write_all data udp p).2).
  cbn [xudp_expected]. destruct ((0 <? zlen data) && (zlen data <=? MAX_DATA_LEN)) eqn:El.
  - destruct H as (m & Hm & Hhd & Ht & ->).
    edestruct IH as (out & E & R); [| |rewrite E; cbn [pw_writer pw_dest pw_new_sent] in *]; [done..|].
    exists (XudpMetadata_to_bytes M m ++ be16 (to_u16 (zlen data)) ++ data ++ out).
    split; [by rewrite <- !app_assoc|]. rewrite <- Ht. apply read_all_packet; [done|done|lia|].
    eapply read_all_more; [exact R|cbn; lia..].
  - rewrite H. destruct (IH p) as (out & E & R); [done..|]. exists out. split; [done|].
    eapply read_all_more; [exact R|cbn; lia..].
Qed.

Lemma xudp_run_spec ops p : dest_fits (pw_dest p) -> zlen (pw_global_id p) = 8 -> Forall xudp_op_ok ops ->
  xudp_sends p ops.
Proof.
  revert p. induction ops as [|op ops IH]; intros p Hd Hg Hops.
  { exists []. by rewrite app_nil_r. }
  inversion_clear Hops as [|? ? Hop Hops'].
  assert (IH' : forall p', pw_dest p' = pw_dest p -> pw_global_id p' = pw_global_id p -> xudp_sends p' ops).
  { intros p' E1 E2. apply IH; [by rewrite E1|by rewrite E2|done]. }
  destruct op as [data|data udp|].
  - exact (sends_packet data (pw_dest p) p ops Hd Hg Hd IH').
  - exact (sends_packet data udp p ops Hd Hg Hop IH').
  - edestruct IH' as (out & E & R); [| |unfold xudp_sends]; cycle 2.
    { exists (XudpMetadata_to_bytes M XudpMetadata_keep_alive ++ out). split.
      - etransitivity; [exact E|]. cbn. by rewrite app_assoc.
      - apply read_all_keep_alive. eapply read_all_more; [exact R|cbn; lia..]. }
    all: done.
Qed.


(** * The address buffer *)

Definition pooled (b : Buffer M) : Prop := match b_inner b with Pooled _ => True | Frozen _ => False end.

(** On a pooled buffer a write takes exactly the room it fills. *)
Lemma write_room src b : buffer_ok b -> pooled b ->
  let b' := (Buffer_write_from src b).2 in
  let n := Z.min (zlen src) (Buffer_free b) in
  Buffer_bytes b' = Buffer_bytes b ++ ztake n src /\ Buffer_free b' = Buffer_free b - n /\ buffer_ok b' /\ pooled b'.
Proof.
  intros Hok Hp. pose proof (write_from_spec src b Hok) as H. pose proof (buffer_free_nonneg b Hok).
  pose proof (zlen_nonneg src). cbv zeta. revert H. unfold Buffer_write_from.
  destruct (Z.eqb_spec (Z.min (zlen src) (Buffer_free b)) 0) as [E|E]; cbn [snd]; intros (_ & Hb & Hok' & _).
  { rewrite E. split_and!; [exact Hb|lia|done|done]. }
  split; [exact Hb|]. split; [|done]. unfold Buffer_free, Buffer_capacity, pooled, Buffer_pooled_mut in *.
  destruct (b_inner b) as [m|d] eqn:Ei; [|done]. cbn [b_inner b_end].
  destruct (extend_to_spec (b_end b + Z.min (zlen src) (bm_capacity m - b_end b)) m) as (junk & Hd & Hl & Hc); [lia|].
  destruct Hok as [? _]. rewrite bm_copy_cap; [rewrite Hc; lia|lia|rewrite Hl; zlia].
Qed.

Lemma byte_room v b : buffer_ok b -> pooled b -> 1 <= Buffer_free b ->
  let b' := (Buffer_write_byte v b).2 in
  Buffer_bytes b' = Buffer_bytes b ++ [v] /\ Buffer_free b' = Buffer_free b - 1 /\ buffer_ok b' /\ pooled b'.
Proof.
  intros Hok Hp Hf. cbv zeta. replace (Buffer_write_byte v b).2 with (Buffer_write_from [v] b).2.
  { pose proof (write_room [v] b Hok Hp) as H. cbv zeta in H. change (zlen [v]) with 1 in H.
    rewrite Z.min_l in H by lia. exact H. }
  unfold Buffer_write_from, Buffer_write_byte. change (zlen [v]) with 1. rewrite Z.min_l by lia.
  destruct (Z.eqb_spec (Buffer_free b) 0); [lia|]. done.
Qed.

Section long_domain.
Context (Hcap : bm_capacity (bm_with_capacity (M:=M) 32) = 32).

(** Port, type and length take four of the 32 bytes; a domain is cut to the other 28. *)
Lemma target_field_cut s p : 28 < zlen s ->
  target_field M (Some (Destination_udp (Domain s) p)) =
    NETWORK_UDP :: be16 (Port_value p) ++ ADDR_TYPE_DOMAIN :: to_u8 (zlen s) :: ztake 28 s.
Proof.
  intros Hs. unfold target_field. rewrite bool_decide_eq_true_2 by done. cbn [Destination_port Destination_address Destination_udp].
  unfold write_port_address, write_address. cbv zeta. set (b0 := Buffer_with_capacity 32).
  assert (H0 : buffer_ok b0 /\ Buffer_bytes b0 = [] /\ pooled b0 /\ Buffer_free b0 = 32).
  { destruct (with_capacity_spec (M:=M) 32) as (? & ? & ?); [lia|]. split_and!; [done..|].
    unfold b0, Buffer_free, Buffer_capacity. cbn. rewrite Hcap. done. }
  destruct H0 as (K0 & E0 & P0 & F0).
  destruct (write_room (be16 (Port_value p)) b0 K0 P0) as (E1 & F1 & K1 & P1). rewrite be16_len, F0 in F1, E1.
  set (b1 := (Buffer_write_from (be16 _) b0).2) in *.
  destruct (byte_room ADDR_TYPE_DOMAIN b1 K1 P1) as (E2 & F2 & K2 & P2); [lia|].
  set (b2 := (Buffer_write_byte _ b1).2) in *.
  destruct (byte_room (to_u8 (zlen s)) b2 K2 P2) as (E3 & F3 & K3 & P3); [lia|].
  set (b3 := (Buffer_write_byte _ b2).2) in *.
  destruct (write_room s b3 K3 P3) as (E4 & _). rewrite E4, E3, E2, E1, E0.
  replace (Z.min (zlen s) (Buffer_free b3)) with 28 by lia.
  rewrite ztake_ge by (rewrite be16_len; lia). cbn [app]. by rewrite <- !app_assoc.
Qed.

(** A cut domain followed by fewer bytes than it lacks does not parse. *)
Lemma parse_cut_domain s p tail : zlen s <= 255 -> 28 + zlen tail < zlen s ->
  parse_port_address (be16 (Port_value p) ++ (ADDR_TYPE_DOMAIN :: to_u8 (zlen s) :: ztake 28 s) ++ tail) = None.
Proof.
  intros Hs Ht. unfold parse_port_address, read_port. zlens. zlen_facts. zcase_goal; [lia|]. cbn [mbind option_bind].
  rewrite zdrop_app by done. cbn [app]. unfold read_address. rewrite byte_at_cons, zlen_cons_eqb0.
  cbn [Z.eqb ADDR_TYPE_IPV4 ADDR_TYPE_DOMAIN Pos.eqb].
  change ((_ :: to_u8 (zlen s) :: ztake 28 s ++ tail) @ 1) with (to_u8 (zlen s)).
  rewrite to_u8_small by (unfold is_u8; lia). zlens. zcase_goal; [lia|]. zcase_goal; [done|lia].
Qed.

Lemma parse_cut_target s p status status_byte tail d : zlen s <= 255 -> 28 + zlen tail < zlen s -> status <> FsKeepAlive ->
  parse_body_target ([0; 0; status_byte; d] ++
      (NETWORK_UDP :: be16 (Port_value p) ++ ADDR_TYPE_DOMAIN :: to_u8 (zlen s) :: ztake 28 s) ++ tail) status =
    Err (AddressParseFailed (match status with FsNew => "New frame" | _ => "Keep frame" end)).
Proof.
  intros Hs Ht Hk. unfold parse_body_target.
  destruct status; [| |done]; cbn [app]; zlens; zlen_facts; (zcase_goal; [|lia]); cbn [andb];
    change ((_ :: _ :: _ :: _ :: NETWORK_UDP :: _) @ 4) with NETWORK_UDP; cbn [Z.eqb NETWORK_UDP Pos.eqb];
    rewrite drop_five, <- app_assoc, parse_cut_domain by done; done.
Qed.

(** The 32-byte buffer that the address is written through cuts a domain of more
    than 28 bytes while the length byte still announces all of it: every Keep frame
    for such a domain, and every New frame for one of more than 36 bytes, is rejected
    by the parser (between the two, the global id is read as the end of the domain). *)
Theorem xudp_long_domain_rejected s p gid rest : zlen s <= 255 -> zlen gid = 8 ->
  (36 < zlen s ->
   XudpMetadata_from_bytes (XudpMetadata_to_bytes M (XudpMetadata_new_udp (Domain s) p gid) ++ rest) =
     Err (AddressParseFailed "New frame")) /\
  (28 < zlen s ->
   XudpMetadata_from_bytes (XudpMetadata_to_bytes M (XudpMetadata_keep_udp (Domain s) p) ++ rest) =
     Err (AddressParseFailed "Keep frame")).
Proof.
  intros Hs Hg. split; intros Hl.
  - pose proof (target_field_cut s p ltac:(lia)) as Ht.
    rewrite to_bytes_wire; cbn [xm_target XudpMetadata_new_udp]; rewrite Ht; [|cbn; zlia].
    rewrite from_bytes_wire by (cbn; zlia).
    cbn [FrameStatus_to_byte global_id_field XudpMetadata_new_udp xm_status xm_global_id default].
    rewrite parse_cut_target; [done|lia|cbn; lia|done].
  - pose proof (target_field_cut s p ltac:(lia)) as Ht.
    rewrite to_bytes_wire; cbn [xm_target XudpMetadata_keep_udp]; rewrite Ht; [|cbn; zlia].
    rewrite from_bytes_wire by (cbn; zlia).
    cbn [FrameStatus_to_byte global_id_field XudpMetadata_keep_udp xm_status xm_global_id default].
    rewrite parse_cut_target; [done|lia|zlia|done].
Qed.
End long_domain.
End frames.
