(* ===== verification/BufIO.v ===== *)
(** [xray-buf/src/io.rs], [reader.rs] and [writer.rs]: the [Reader] and [Writer] traits
    as classes, and the two adapters with an internal cache that the multiplexer and
    the handlers read and write through.

    An implementation of a trait is a state with its operation; an [await]ed call runs
    to its end.  [ReaderLaws] and [WriterLaws] say what a lossless byte stream promises:
    what is read, in order, is what is pending; what a successful write is given is
    appended to what was written. *)
From Stdlib Require Import String List.
From stdpp Require Import base tactics option list numbers.
From S2P Require Import Prelude Bytes NetTypes BytesMut Buffer BufferProps MultiBuffer MultiBufferProps.

(** [io::Error] *)
Inductive BufError : Type :=
| ReadError (msg : string)
| WriteError (msg : string)
| TimeoutError
| Interrupted
| Eof.

Definition is_read_error (err : BufError) : bool := match err with ReadError _ => true | _ => false end.
Definition is_write_error (err : BufError) : bool := match err with WriteError _ => true | _ => false end.

Section io.
Context (M : Type) `{!BytesMutOps M} `{!BufAlloc M}.

Class Reader (R : Type) : Type := {
  read_multi_buffer : R -> result BufError (MultiBuffer M) * R;
}.

Class Writer (W : Type) : Type := {
  write_multi_buffer : MultiBuffer M -> W -> result BufError unit * W;
  shutdown : W -> W;
}.

(** A lossless reader of a finite byte string; an empty read is the end. *)
Class ReaderLaws (R : Type) `{!Reader R} : Type := {
  pending : R -> bytes;
  read_law r : exists mb r', read_multi_buffer r = (Ok mb, r') /\ multi_ok mb /\
    MultiBuffer_to_vec mb ++ pending r' = pending r /\
    (MultiBuffer_to_vec mb = [] -> pending r = []);
}.

(** A writer that appends what it is given when it succeeds. *)
Class WriterLaws (W : Type) `{!Writer W} : Type := {
  written : W -> bytes;
  write_law mb w w' : write_multi_buffer mb w = (Ok tt, w') ->
    written w' = written w ++ MultiBuffer_to_vec mb;
}.
End io.

Arguments read_multi_buffer {M R _}.
Arguments write_multi_buffer {M W _}.
Arguments shutdown {M W _}.
Arguments pending {M _ R _ _}.
Arguments read_law {M _ R _ _}.
Arguments written {M _ W _ _}.
Arguments write_law {M _ W _ _}.

(** * BufferedReader *)

Section buffered_reader.
Context {M : Type} `{!BytesMutOps M} `{!BufAlloc M}.
Context {R : Type} `{!Reader M R}.

Record BufferedReader : Type := mkBufferedReader {
  br_reader : R;
  br_buffer : MultiBuffer M;
  br_interrupted : bool;
}.

Definition BufferedReader_new (reader : R) : BufferedReader := mkBufferedReader reader MultiBuffer_new false.

(** [read(dst)]: the bytes copied into [dst]. *)
Definition BufferedReader_read (dst_len : Z) (b : BufferedReader) : bytes * BufferedReader :=
  if dst_len =? 0 then ([], b)
  else if negb (MultiBuffer_is_empty (br_buffer b)) then
    let '(out, mb) := MultiBuffer_read_to dst_len (br_buffer b) in
    (out, mkBufferedReader (br_reader b) mb (br_interrupted b))
  else
    match read_multi_buffer (br_reader b) with
    | (Ok mb, r) =>
        if MultiBuffer_is_empty mb then ([], mkBufferedReader r (br_buffer b) (br_interrupted b))
        else
          let '(out, buffer) := MultiBuffer_read_to dst_len (MultiBuffer_merge mb (br_buffer b)) in
          (out, mkBufferedReader r buffer (br_interrupted b))
    | (Err _, r) => ([], mkBufferedReader r (br_buffer b) (br_interrupted b))
    end.

(** [None] when a split panics. *)
Definition BufferedReader_read_multi_buffer (b : BufferedReader)
    : option (result BufError (MultiBuffer M) * BufferedReader) :=
  if br_interrupted b then Some (Err Interrupted, b)
  else if negb (MultiBuffer_is_empty (br_buffer b)) then
    '(res, buffer) ← MultiBuffer_split_bytes (MultiBuffer_len (br_buffer b)) (br_buffer b);
    Some (Ok res, mkBufferedReader (br_reader b) buffer (br_interrupted b))
  else
    let '(res, r) := read_multi_buffer (br_reader b) in
    Some (res, mkBufferedReader r (br_buffer b) (br_interrupted b)).

Definition BufferedReader_read_at_most (size : Z) (b : BufferedReader)
    : option (result BufError (MultiBuffer M) * BufferedReader) :=
  if br_interrupted b then Some (Err Interrupted, b)
  else if size =? 0 then Some (Ok MultiBuffer_new, b)
  else if negb (MultiBuffer_is_empty (br_buffer b)) then
    '(res, buffer) ← MultiBuffer_split_bytes size (br_buffer b);
    Some (Ok res, mkBufferedReader (br_reader b) buffer (br_interrupted b))
  else
    match read_multi_buffer (br_reader b) with
    | (Err e, r) => Some (Err e, mkBufferedReader r (br_buffer b) (br_interrupted b))
    | (Ok mb, r) =>
        if MultiBuffer_len mb <=? size then Some (Ok mb, mkBufferedReader r (br_buffer b) (br_interrupted b))
        else
          '(res, mb) ← MultiBuffer_split_bytes size mb;
          Some (Ok res, mkBufferedReader r (MultiBuffer_merge mb (br_buffer b)) (br_interrupted b))
    end.

Definition BufferedReader_write_to {W} `{!Writer M W} (writer : W) (b : BufferedReader)
    : option (result BufError unit * W * BufferedReader) :=
  if negb (MultiBuffer_is_empty (br_buffer b)) then
    '(mb, buffer) ← MultiBuffer_split_bytes (MultiBuffer_len (br_buffer b)) (br_buffer b);
    let '(res, w) := write_multi_buffer mb writer in
    Some (res, w, mkBufferedReader (br_reader b) buffer (br_interrupted b))
  else Some (Ok tt, writer, b).

Definition BufferedReader_interrupt (b : BufferedReader) : BufferedReader :=
  mkBufferedReader (br_reader b) (br_buffer b) true.
Definition BufferedReader_close (b : BufferedReader) : BufferedReader :=
  mkBufferedReader (br_reader b) (MultiBuffer_release (br_buffer b)) (br_interrupted b).
End buffered_reader.

Arguments BufferedReader M R : clear implicits.

(** * BufferedWriter *)

Section buffered_writer.
Context {M : Type} `{!BytesMutOps M} `{!BufAlloc M}.
Context {W : Type} `{!Writer M W}.

Record BufferedWriter : Type := mkBufferedWriter {
  bw_writer : W;
  bw_buffer : option (Buffer M);
  bw_buffered : bool;
  bw_flush_next : bool;
}.

Definition BufferedWriter_new (writer : W) : BufferedWriter := mkBufferedWriter writer None true false.

Definition bw_set_buffer (b : option (Buffer M)) (w : BufferedWriter) : BufferedWriter :=
  mkBufferedWriter (bw_writer w) b (bw_buffered w) (bw_flush_next w).

(** [self.writer.write_multi_buffer(mb)] *)
Definition bw_direct (mb : MultiBuffer M) (w : BufferedWriter) : result BufError unit * BufferedWriter :=
  let '(res, writer) := write_multi_buffer mb (bw_writer w) in
  (res, mkBufferedWriter writer (bw_buffer w) (bw_buffered w) (bw_flush_next w)).

(** The cache is taken out first, and lost if the write fails. *)
Definition BufferedWriter_flush (w : BufferedWriter) : result BufError unit * BufferedWriter :=
  match bw_buffer w with
  | Some buf =>
      let w := bw_set_buffer None w in
      if negb (Buffer_is_empty buf) then bw_direct (MultiBuffer_from_buffer buf) w else (Ok tt, w)
  | None => (Ok tt, w)
  end.

(** The [?] operator on the result of a write. *)
Definition bw_then (step : result BufError unit * BufferedWriter)
    (k : BufferedWriter -> result BufError unit * BufferedWriter) : result BufError unit * BufferedWriter :=
  match step with
  | (Ok _, w) => k w
  | (Err e, w) => (Err e, w)
  end.

(** The last part of [write_buffer], with no cache left: a buffer at most half full
    becomes the cache, a fuller one goes out. *)
Definition bw_store (buf : Buffer M) (w : BufferedWriter) : result BufError unit * BufferedWriter :=
  if Buffer_len buf <=? Buffer_capacity buf / 2 then (Ok tt, bw_set_buffer (Some buf) w)
  else bw_direct (MultiBuffer_from_buffer buf) w.

Definition BufferedWriter_write_buffer (buf : Buffer M) (w : BufferedWriter) : result BufError unit * BufferedWriter :=
  if negb (bw_buffered w) then bw_direct (MultiBuffer_from_buffer buf) w
  else
    bw_then
      (if bw_flush_next w then
         bw_then (BufferedWriter_flush w) (fun w =>
           (Ok tt, mkBufferedWriter (bw_writer w) (bw_buffer w) (bw_buffered w) false))
       else (Ok tt, w)) (fun w =>
    match bw_buffer w with
    | Some inner =>
        if Buffer_len buf <=? Buffer_free inner
        then (Ok tt, bw_set_buffer (Some (snd (Buffer_write_from (Buffer_bytes buf) inner))) w)
        else bw_then (BufferedWriter_flush w) (bw_store buf)
    | None => bw_store buf w
    end).

Fixpoint bw_write_all (bufs : list (Buffer M)) (w : BufferedWriter) : result BufError unit * BufferedWriter :=
  match bufs with
  | [] => (Ok tt, w)
  | buf :: bufs => bw_then (BufferedWriter_write_buffer buf w) (bw_write_all bufs)
  end.

Definition BufferedWriter_write_multi_buffer (mb : MultiBuffer M) (w : BufferedWriter)
    : result BufError unit * BufferedWriter := bw_write_all (mb_buffers mb) w.

Definition BufferedWriter_write_multi_buffer_direct (mb : MultiBuffer M) (w : BufferedWriter)
    : result BufError unit * BufferedWriter := bw_then (BufferedWriter_flush w) (bw_direct mb).

Definition BufferedWriter_set_buffered (buffered : bool) (w : BufferedWriter) : BufferedWriter :=
  mkBufferedWriter (bw_writer w) (bw_buffer w) buffered (bw_flush_next w).
Definition BufferedWriter_set_flush_next (w : BufferedWriter) : BufferedWriter :=
  mkBufferedWriter (bw_writer w) (bw_buffer w) (bw_buffered w) true.
Definition BufferedWriter_shutdown (w : BufferedWriter) : BufferedWriter :=
  mkBufferedWriter (shutdown (bw_writer w)) (bw_buffer w) (bw_buffered w) (bw_flush_next w).

(** [impl Writer for BufferedWriter] *)
#[export] Instance BufferedWriter_Writer : Writer M BufferedWriter := {
  write_multi_buffer := BufferedWriter_write_multi_buffer;
  shutdown := BufferedWriter_shutdown;
}.
End buffered_writer.

Arguments BufferedWriter M W : clear implicits.

(** * Writers without a cache *)

(** [Discard] *)
Definition Discard_write_multi_buffer {M} (mb : MultiBuffer M) (w : unit) : result BufError unit * unit := (Ok tt, w).

(** [write_sequential]: the buffers one by one, empty ones skipped, over
    [AsyncWrite::write_all]; the first error ends the call. *)
Fixpoint write_sequential {M} `{!BytesMutOps M} {W} (write_all : bytes -> W -> result BufError unit * W)
    (buffers : list (Buffer M)) (w : W) : result BufError unit * W :=
  match buffers with
  | [] => (Ok tt, w)
  | buf :: buffers =>
      if zlen (Buffer_bytes buf) =? 0 then write_sequential write_all buffers w
      else
        match write_all (Buffer_bytes buf) w with
        | (Ok _, w) => write_sequential write_all buffers w
        | (Err e, w) => (Err e, w)
        end
  end.

(** [slices[0].advance(rem)] and [slices.remove(0)], after a vectored write of [rem]
    bytes. *)
Fixpoint advance_slices (rem : Z) (slices : list bytes) : list bytes :=
  match slices with
  | [] => []
  | s :: tl =>
      if 0 <? rem then
        if zlen s <=? rem then advance_slices (rem - zlen s) tl else zdrop rem s :: tl
      else s :: tl
  end.

(** [write_vectored_all]: [write_vectored] says how many bytes of the concatenation it
    took.  [None]: the fuel ran out. *)
Fixpoint vectored_loop {W} (write_vectored : list bytes -> W -> result BufError Z * W) (fuel : nat)
    (slices : list bytes) (w : W) : option (result BufError unit * W) :=
  match slices with
  | [] => Some (Ok tt, w)
  | _ =>
      match fuel with
      | O => None
      | S fuel =>
          match write_vectored slices w with
          | (Err e, w) => Some (Err e, w)
          | (Ok n, w) =>
              if n =? 0 then Some (Err (WriteError "write_vectored returned 0"), w)
              else vectored_loop write_vectored fuel (advance_slices n slices) w
          end
      end
  end.

Definition write_vectored_all {M} `{!BytesMutOps M} {W} (write_vectored : list bytes -> W -> result BufError Z * W)
    (fuel : nat) (buffers : list (Buffer M)) (w : W) : option (result BufError unit * W) :=
  vectored_loop write_vectored fuel
    (List.filter (fun s => negb (zlen s =? 0)) (map Buffer_bytes buffers)) w.
