(* ===== verification/BufIOProps.v ===== *)
(** The buffered reader and writer over lossless streams: nothing is lost, duplicated or
    reordered, whatever mix of calls is made; and the vectored write. *)
From Stdlib Require Import String List.
From stdpp Require Import base tactics option list numbers.
From S2P Require Import Prelude Bytes NetTypes BytesMut Buffer BufferProps MultiBuffer MultiBufferProps BufIO.

(** * Reading *)

Section reader.
Context {M : Type} `{!BytesMutOps M} `{!BytesMutLaws M} `{!BufAlloc M}.
Context {R : Type} `{HR : !Reader M R} `{!ReaderLaws M R}.
Implicit Types b : BufferedReader M R.

(** What is still to come: the cache, then the reader. *)
Definition br_pending b : bytes := MultiBuffer_to_vec (br_buffer b) ++ pending (br_reader b).
Definition br_ok b : Prop := multi_ok (br_buffer b) /\ br_interrupted b = false.

Lemma mb_is_empty_stream (mb : MultiBuffer M) : multi_ok mb ->
  MultiBuffer_is_empty mb = true -> MultiBuffer_to_vec mb = [].
Proof.
  intros Hok. unfold MultiBuffer_is_empty, MultiBuffer_len. rewrite total_len_stream by done.
  intros [H|H]%orb_true_iff.
  - destruct mb as [[|]]; [done|]. cbn in H. done.
  - apply Z.eqb_eq in H. apply zlen_zero. change (MultiBuffer_to_vec mb) with (stream (mb_buffers mb)). lia.
Qed.

Lemma mb_not_empty_stream (mb : MultiBuffer M) : multi_ok mb ->
  MultiBuffer_is_empty mb = false -> MultiBuffer_to_vec mb <> [].
Proof.
  intros Hok H E. unfold MultiBuffer_is_empty, MultiBuffer_len in H. rewrite total_len_stream in H by done.
  change (MultiBuffer_to_vec mb) with (stream (mb_buffers mb)) in E. rewrite E in H.
  by rewrite orb_true_r in H.
Qed.

Lemma multi_ok_merge (mb1 mb2 : MultiBuffer M) : multi_ok mb1 -> multi_ok mb2 -> multi_ok (MultiBuffer_merge mb2 mb1).
Proof. intros H1 H2. apply Forall_app. auto. Qed.

Lemma to_vec_merge (mb1 mb2 : MultiBuffer M) :
  MultiBuffer_to_vec (MultiBuffer_merge mb2 mb1) = MultiBuffer_to_vec mb1 ++ MultiBuffer_to_vec mb2.
Proof. unfold MultiBuffer_to_vec, MultiBuffer_merge. cbn. by rewrite map_app, concat_app. Qed.

(** The common part of the three reads: a cut of the stream at the front. *)
Lemma read_to_cut n (mb : MultiBuffer M) : multi_ok mb -> 0 <= n ->
  let '(out, mb') := MultiBuffer_read_to n mb in
  out ++ MultiBuffer_to_vec mb' = MultiBuffer_to_vec mb /\ zlen out <= n /\ multi_ok mb' /\
  (0 < n -> MultiBuffer_to_vec mb <> [] -> out <> []).
Proof.
  intros Hok Hn. pose proof (read_to_multi_spec n mb Hok Hn) as H.
  destruct (MultiBuffer_read_to n mb) as [out mb']. destruct H as (-> & Hs & Hok').
  change (stream (mb_buffers ?m)) with (MultiBuffer_to_vec m) in *. rewrite Hs, ztake_drop.
  split_and!; [done|zlia|done|]. intros Hp Hne E. apply (f_equal zlen) in E.
  destruct (MultiBuffer_to_vec mb); [done|]. zlens. zlen_facts. lia.
Qed.

Lemma bufreader_read_spec n b : br_ok b -> 0 <= n ->
  let '(out, b') := BufferedReader_read n b in
  out ++ br_pending b' = br_pending b /\ zlen out <= n /\ br_ok b' /\
  (0 < n -> out = [] -> br_pending b = []).
Proof.
  intros [Hok Hi] Hn. unfold BufferedReader_read, br_ok, br_pending.
  destruct (Z.eqb_spec n 0) as [->|Hn0]. { split_and!; [done|done|done|done|lia]. }
  destruct (MultiBuffer_is_empty (br_buffer b)) eqn:Ee; cbn [negb].
  - apply (mb_is_empty_stream _ Hok) in Ee as E0. rewrite E0. cbn [app].
    destruct (read_law (br_reader b)) as (mb & r' & -> & Hmb & Hp & He).
    destruct (MultiBuffer_is_empty mb) eqn:Em.
    + apply (mb_is_empty_stream _ Hmb) in Em. rewrite Em in Hp, He. cbn [br_buffer br_reader br_interrupted].
      rewrite E0. split_and!; [exact Hp|cbn; zlia|done|done|auto].
    + pose proof (multi_ok_merge _ _ Hok Hmb) as Hm.
      pose proof (read_to_cut n _ Hm ltac:(lia)) as H. destruct (MultiBuffer_read_to n _) as [out mb'].
      rewrite to_vec_merge, E0 in H. destruct H as (Hc & Hl & Hok' & Hne). cbn [br_buffer br_reader br_interrupted].
      split_and!; [by rewrite app_assoc, Hc|done|done|done|].
      intros Hp' ->. destruct Hne; [lia| |done]. by apply mb_not_empty_stream.
  - pose proof (read_to_cut n _ Hok ltac:(lia)) as H. destruct (MultiBuffer_read_to n _) as [out mb'].
    destruct H as (Hc & Hl & Hok' & Hne). cbn [br_buffer br_reader br_interrupted].
    split_and!; [by rewrite app_assoc, Hc|done|done|done|].
    intros Hp' ->. destruct Hne; [lia| |done]. by apply mb_not_empty_stream.
Qed.

(** A batch read gives a non-empty prefix, or the stream is over. *)
Definition batch_read b (o : option (result BufError (MultiBuffer M) * BufferedReader M R)) : Prop :=
  exists mb b', o = Some (Ok mb, b') /\ MultiBuffer_to_vec mb ++ br_pending b' = br_pending b /\ br_ok b' /\
    multi_ok mb /\ (MultiBuffer_to_vec mb = [] -> br_pending b = []).

Lemma bufreader_read_multi_spec b : br_ok b -> batch_read b (BufferedReader_read_multi_buffer b).
Proof.
  intros [Hok Hi]. unfold batch_read, BufferedReader_read_multi_buffer, br_ok, br_pending. rewrite Hi.
  destruct (MultiBuffer_is_empty (br_buffer b)) eqn:Ee; cbn [negb].
  - apply (mb_is_empty_stream _ Hok) in Ee as E0. rewrite E0. cbn [app].
    destruct (read_law (br_reader b)) as (mb & r' & -> & Hmb & Hp & He).
    eexists _, _. split; [done|]. cbn. rewrite E0. done.
  - assert (Hl : 0 <= MultiBuffer_len (br_buffer b)).
    { unfold MultiBuffer_len. rewrite total_len_stream by done. zlia. }
    destruct (split_bytes_spec _ _ Hok Hl) as (r & s & -> & Hr & Hs & Er & Es).
    eexists _, _. split; [done|]. cbn. change (stream (mb_buffers ?m)) with (MultiBuffer_to_vec m) in *.
    rewrite Er, Es, app_assoc, ztake_drop. split_and!; [done..|].
    intros E. exfalso. apply (mb_not_empty_stream _ Hok Ee).
    unfold MultiBuffer_len in E. rewrite total_len_stream, ztake_ge in E; [done| |done].
    change (stream (mb_buffers ?m)) with (MultiBuffer_to_vec m). lia.
Qed.

Lemma bufreader_at_most_spec n b : br_ok b -> 0 < n -> batch_read b (BufferedReader_read_at_most n b) /\
  forall mb b', BufferedReader_read_at_most n b = Some (Ok mb, b') -> zlen (MultiBuffer_to_vec mb) <= n.
Proof.
  intros [Hok Hi] Hn. unfold batch_read, BufferedReader_read_at_most, br_ok, br_pending. rewrite Hi.
  destruct (Z.eqb_spec n 0); [lia|]. destruct (MultiBuffer_is_empty (br_buffer b)) eqn:Ee; cbn [negb].
  - apply (mb_is_empty_stream _ Hok) in Ee as E0. rewrite E0. cbn [app].
    destruct (read_law (br_reader b)) as (mb & r' & -> & Hmb & Hp & He).
    assert (El : MultiBuffer_len mb = zlen (MultiBuffer_to_vec mb)) by (apply total_len_stream; done).
    destruct (Z.leb_spec (MultiBuffer_len mb) n) as [Hl|Hl].
    { split; [|by intros ?? [= <- <-]; lia]. eexists _, _. split; [done|]. cbn. rewrite E0. done. }
    destruct (split_bytes_spec n _ Hmb ltac:(lia)) as (x & s & -> & Hx & Hs & Ex & Es).
    change (stream (mb_buffers ?m)) with (MultiBuffer_to_vec m) in *. cbn [mbind option_bind].
    split; [|intros ?? [= <- <-]; rewrite Ex; zlia].
    eexists _, _. split; [done|]. cbn [br_buffer br_reader br_interrupted].
    rewrite to_vec_merge, E0, Ex, Es. cbn [app]. rewrite app_assoc, ztake_drop.
    split_and!; [done|by apply multi_ok_merge|done|done|].
    intros E. apply (f_equal zlen) in E. zlens. zlen_facts. lia.
  - destruct (split_bytes_spec n _ Hok ltac:(lia)) as (x & s & -> & Hx & Hs & Ex & Es).
    change (stream (mb_buffers ?m)) with (MultiBuffer_to_vec m) in *. cbn [mbind option_bind].
    split; [|intros ?? [= <- <-]; rewrite Ex; zlia].
    eexists _, _. split; [done|]. cbn. rewrite Ex, Es, app_assoc, ztake_drop. split_and!; [done..|].
    intros E. apply (f_equal zlen) in E. pose proof (mb_not_empty_stream _ Hok Ee) as Hne.
    destruct (MultiBuffer_to_vec (br_buffer b)); [done|]. zlens. zlen_facts. lia.
Qed.

(** Any mix of the three reads. *)
Inductive br_step : BufferedReader M R -> bytes -> BufferedReader M R -> Prop :=
| BrRead n b out b' : 0 < n -> BufferedReader_read n b = (out, b') -> br_step b out b'
| BrBatch b mb b' : BufferedReader_read_multi_buffer b = Some (Ok mb, b') -> br_step b (MultiBuffer_to_vec mb) b'
| BrAtMost n b mb b' : 0 < n -> BufferedReader_read_at_most n b = Some (Ok mb, b') ->
    br_step b (MultiBuffer_to_vec mb) b'.

Inductive br_steps : BufferedReader M R -> bytes -> BufferedReader M R -> Prop :=
| BrsNil b : br_steps b [] b
| BrsStep b out b' out' b'' : br_step b out b' -> br_steps b' out' b'' -> br_steps b (out ++ out') b''.

Lemma br_step_spec b out b' : br_step b out b' -> br_ok b ->
  br_ok b' /\ out ++ br_pending b' = br_pending b /\ (out = [] -> br_pending b = []).
Proof.
  intros H Hok. destruct H as [n b out b' Hn E|b mb b' E|n b mb b' Hn E].
  - pose proof (bufreader_read_spec n b Hok ltac:(lia)) as H. rewrite E in H. destruct H as (? & ? & ? & ?). auto.
  - destruct (bufreader_read_multi_spec b Hok) as (? & ? & E' & ? & ? & ? & ?). rewrite E in E'. by simplify_eq.
  - destruct (bufreader_at_most_spec n b Hok Hn) as [(? & ? & E' & ? & ? & ? & ?) _]. rewrite E in E'. by simplify_eq.
Qed.

End reader.

(** * Writing *)

Section writer.
Context {M : Type} `{!BytesMutOps M} `{!BytesMutLaws M} `{!BufAlloc M}.
Context {W : Type} `{HW : !Writer M W} `{!WriterLaws M W}.
Implicit Types (w : BufferedWriter M W) (b : Buffer M).

Definition bw_cached w : bytes := match bw_buffer w with Some b => Buffer_bytes b | None => [] end.
Definition bw_cache_ok w : Prop := match bw_buffer w with Some b => buffer_ok b | None => True end.

(** Everything accepted so far: what went out, then the cache. *)
Definition bw_stream w : bytes := written (bw_writer w) ++ bw_cached w.

(** Without buffering there is nothing in the cache. *)
Definition bw_ok w : Prop := bw_cache_ok w /\ (bw_buffered w = false -> bw_cached w = []).

Lemma bw_direct_spec mb w w' : bw_direct mb w = (Ok tt, w') ->
  written (bw_writer w') = written (bw_writer w) ++ MultiBuffer_to_vec mb /\
  bw_buffer w' = bw_buffer w /\ bw_buffered w' = bw_buffered w.
Proof.
  unfold bw_direct. destruct (write_multi_buffer mb (bw_writer w)) as [res x] eqn:E. intros [= -> <-].
  by apply write_law in E.
Qed.

Lemma bw_then_ok step k w' : bw_then step k = (Ok tt, w') -> exists w, step = (Ok tt, w) /\ k w = (Ok tt, w').
Proof. destruct step as [[[]|e] w]; cbn; [eauto|done]. Qed.

Lemma one_buffer b : MultiBuffer_to_vec (MultiBuffer_from_buffer b) = Buffer_bytes b.
Proof. apply app_nil_r. Qed.

Lemma bw_flush_spec w w' : bw_cache_ok w -> BufferedWriter_flush w = (Ok tt, w') ->
  written (bw_writer w') = bw_stream w /\ bw_buffer w' = None /\ bw_buffered w' = bw_buffered w.
Proof.
  unfold BufferedWriter_flush, bw_stream, bw_cached, bw_cache_ok. intros Hok.
  destruct (bw_buffer w) as [b|] eqn:Eb; cycle 1.
  { intros [= <-]. by rewrite app_nil_r. }
  destruct (Buffer_is_empty b) eqn:Ee; cbn [negb].
  - intros [= <-]. cbn. split_and!; [|done|done].
    assert (Hn : Buffer_bytes b = []); [|by rewrite Hn, app_nil_r].
    apply zlen_zero. rewrite buffer_bytes_len by done. unfold Buffer_is_empty in Ee. unfold Buffer_len. lia.
  - intros (E & E1 & E2)%bw_direct_spec. rewrite one_buffer in E. auto.
Qed.

Lemma bw_store_spec b w w' : buffer_ok b -> bw_buffer w = None -> bw_store b w = (Ok tt, w') ->
  bw_stream w' = written (bw_writer w) ++ Buffer_bytes b /\ bw_cache_ok w' /\ bw_buffered w' = bw_buffered w.
Proof.
  intros Hok Hn. unfold bw_store. destruct (_ <=? _).
  - intros [= <-]. done.
  - intros (E & E1 & E2)%bw_direct_spec. rewrite one_buffer in E. unfold bw_stream, bw_cached, bw_cache_ok.
    rewrite E1, Hn, E, app_nil_r. done.
Qed.

Lemma bw_write_buffer_spec b w w' : bw_ok w -> buffer_ok b -> BufferedWriter_write_buffer b w = (Ok tt, w') ->
  bw_stream w' = bw_stream w ++ Buffer_bytes b /\ bw_ok w'.
Proof.
  intros [Hc Hu] Hb. unfold BufferedWriter_write_buffer.
  destruct (bw_buffered w) eqn:Ebd; cbn [negb]; cycle 1.
  { intros (E & E1 & E2)%bw_direct_spec. rewrite one_buffer in E. specialize (Hu eq_refl).
    unfold bw_stream, bw_ok, bw_cache_ok, bw_cached in *. rewrite E1, E2, E, Hu, !app_nil_r. auto. }
  intros (w1 & H1 & H2)%bw_then_ok.
  assert (Hw1 : bw_stream w1 = bw_stream w /\ bw_cache_ok w1 /\ bw_buffered w1 = true).
  { destruct (bw_flush_next w); [|by simplify_eq].
    apply bw_then_ok in H1 as (w2 & (E & E1 & E2)%bw_flush_spec & [= <-]); [|done].
    unfold bw_stream at 1, bw_cached, bw_cache_ok. cbn. rewrite E1, E, E2, app_nil_r. done. }
  clear H1 Hu Hc. destruct Hw1 as (<- & Hc & Hbd). clear w Ebd.
  assert (Hfin : forall w0, bw_stream w0 = written (bw_writer w0) -> bw_buffer w0 = None -> bw_buffered w0 = true ->
    written (bw_writer w0) = bw_stream w1 -> bw_store b w0 = (Ok tt, w') ->
    bw_stream w' = bw_stream w1 ++ Buffer_bytes b /\ bw_ok w').
  { intros w0 _ Hn Hb0 Hw (E & Hok & Ebd)%bw_store_spec; [|done|done]. rewrite E, Hw.
    split; [done|]. split; [done|]. rewrite Ebd, Hb0. done. }
  destruct (bw_buffer w1) as [inner|] eqn:Ei; cycle 1.
  { apply (Hfin w1); [|done|done| |done]; unfold bw_stream, bw_cached; by rewrite Ei, app_nil_r. }
  destruct (Z.leb_spec (Buffer_len b) (Buffer_free inner)) as [Hl|Hl].
  - injection H2 as <-. unfold bw_cache_ok in Hc. rewrite Ei in Hc. pose proof (write_from_spec (Buffer_bytes b) inner Hc) as H.
    destruct (Buffer_write_from (Buffer_bytes b) inner) as [n inner']. destruct H as (-> & Eb & Hok' & _ & _).
    rewrite buffer_bytes_len, Z.min_l in Eb by done. rewrite ztake_ge in Eb by (rewrite buffer_bytes_len by done; lia).
    unfold bw_stream, bw_cached, bw_ok, bw_cache_ok, bw_set_buffer. cbn. rewrite Ei, Eb, app_assoc.
    split; [done|]. split; [done|]. rewrite Hbd. done.
  - apply bw_then_ok in H2 as (w2 & (E & E1 & E2)%bw_flush_spec & H2); [|done].
    apply (Hfin w2); [|done|by rewrite E2|done|done]. unfold bw_stream, bw_cached. by rewrite E1, app_nil_r.
Qed.

Lemma bw_write_all_spec bs w w' : bw_ok w -> Forall buffer_ok bs -> bw_write_all bs w = (Ok tt, w') ->
  bw_stream w' = bw_stream w ++ stream bs /\ bw_ok w'.
Proof.
  revert w. induction bs as [|b bs IH]; intros w Hw Hbs; cbn.
  { intros [= <-]. rewrite stream_nil, app_nil_r. done. }
  inversion_clear Hbs. intros (w1 & H1 & H2)%bw_then_ok.
  apply bw_write_buffer_spec in H1 as [E Hok]; [|done|done]. destruct (IH w1 Hok) as [E' ?]; [done|done|].
  split; [|done]. rewrite E', E, stream_cons, app_assoc. done.
Qed.

(** The calls, each with the bytes it accepts; leaving the buffered mode is allowed
    when the cache is empty. *)
Inductive bw_step : BufferedWriter M W -> bytes -> BufferedWriter M W -> Prop :=
| BwBuffer b w w' : buffer_ok b -> BufferedWriter_write_buffer b w = (Ok tt, w') -> bw_step w (Buffer_bytes b) w'
| BwMulti mb w w' : multi_ok mb -> BufferedWriter_write_multi_buffer mb w = (Ok tt, w') ->
    bw_step w (MultiBuffer_to_vec mb) w'
| BwDirect mb w w' : BufferedWriter_write_multi_buffer_direct mb w = (Ok tt, w') ->
    bw_step w (MultiBuffer_to_vec mb) w'
| BwFlush w w' : BufferedWriter_flush w = (Ok tt, w') -> bw_step w [] w'
| BwFlushNext w : bw_step w [] (BufferedWriter_set_flush_next w)
| BwSetBuffered w : bw_step w [] (BufferedWriter_set_buffered true w)
| BwSetUnbuffered w : bw_cached w = [] -> bw_step w [] (BufferedWriter_set_buffered false w).

Inductive bw_steps : BufferedWriter M W -> bytes -> BufferedWriter M W -> Prop :=
| BwsNil w : bw_steps w [] w
| BwsStep w out w' out' w'' : bw_step w out w' -> bw_steps w' out' w'' -> bw_steps w (out ++ out') w''.

Lemma bw_step_spec w out w' : bw_step w out w' -> bw_ok w -> bw_stream w' = bw_stream w ++ out /\ bw_ok w'.
Proof.
  intros H Hok. destruct H as [b w w' Hb H|mb w w' Hmb H|mb w w' H|w w' H|w|w|w Hc].
  - by apply bw_write_buffer_spec.
  - by apply bw_write_all_spec.
  - apply bw_then_ok in H as (w1 & (E & E1 & E2)%bw_flush_spec & (F & F1 & F2)%bw_direct_spec); [|apply Hok].
    unfold bw_stream at 1, bw_ok, bw_cache_ok, bw_cached. rewrite F1, E1, F, E, app_nil_r. done.
  - apply bw_flush_spec in H as (E & E1 & E2); [|apply Hok].
    unfold bw_stream at 1, bw_ok, bw_cache_ok, bw_cached. rewrite E1, E. by rewrite !app_nil_r.
  - rewrite app_nil_r. done.
  - rewrite app_nil_r. split; [done|]. split; [apply Hok|done].
  - rewrite app_nil_r. split; [done|]. split; [apply Hok|done].
Qed.

(** A buffered writer keeps the order: over a writer that appends what it is given,
    whatever mix of calls succeeds (single buffers, batches, direct batches, flushes,
    mode changes, the buffered mode being left with an empty cache only), what went
    out followed by the cache is exactly what was accepted, in order; and a flush
    sends all of it. *)
Theorem bufwriter_order (x : W) out w : bw_steps (BufferedWriter_new x) out w ->
  written (bw_writer w) ++ bw_cached w = written x ++ out /\
  (forall w', BufferedWriter_flush w = (Ok tt, w') ->
     written (bw_writer w') = written x ++ out /\ bw_cached w' = []).
Proof.
  intros H. assert (H0 : bw_ok (BufferedWriter_new x)) by done.
  assert (Hs : bw_ok w /\ bw_stream w = bw_stream (BufferedWriter_new x) ++ out).
  { induction H as [|w1 o1 w2 o2 w3 H1 H2 IH]; [by rewrite app_nil_r|].
    destruct (bw_step_spec _ _ _ H1 H0) as [E Hok]. destruct (IH Hok) as [? ->]. by rewrite E, app_assoc. }
  destruct Hs as [Hok Hs]. unfold bw_stream in Hs at 2. cbn in Hs. rewrite app_nil_r in Hs.
  split; [done|]. intros w' (E & E1 & _)%bw_flush_spec; [|apply Hok]. rewrite E, Hs. unfold bw_cached. by rewrite E1.
Qed.

(** Leaving the buffered mode does not flush: a small buffer written before it is
    overtaken by whatever is written after it, until the next flush. *)
Theorem bufwriter_unbuffer_reorders (x : W) b1 b2 w1 w2 w3 :
  buffer_ok b1 -> Buffer_bytes b1 <> [] -> Buffer_len b1 <= Buffer_capacity b1 / 2 ->
  BufferedWriter_write_buffer b1 (BufferedWriter_new x) = (Ok tt, w1) ->
  BufferedWriter_write_buffer b2 (BufferedWriter_set_buffered false w1) = (Ok tt, w2) ->
  BufferedWriter_flush w2 = (Ok tt, w3) ->
  written (bw_writer w3) = written x ++ Buffer_bytes b2 ++ Buffer_bytes b1.
Proof.
  intros Hb1 Hne Hl H1 H2 H3. unfold BufferedWriter_write_buffer in H1, H2. cbn in H1, H2.
  unfold bw_store in H1. destruct (Z.leb_spec (Buffer_len b1) (Buffer_capacity b1 / 2)); [|lia].
  injection H1 as <-. apply bw_direct_spec in H2 as (E & E1 & _). rewrite one_buffer in E. cbn in E, E1.
  apply bw_flush_spec in H3 as (E3 & _); [|unfold bw_cache_ok; by rewrite E1].
  rewrite E3. unfold bw_stream, bw_cached. by rewrite E1, E, app_assoc.
Qed.
End writer.

(** * The vectored write *)

Section vectored.
Context {M : Type} `{!BytesMutOps M} `{!BytesMutLaws M} `{!BufAlloc M}.
Context {W : Type} (sent : W -> bytes) (write_vectored : list bytes -> W -> result BufError Z * W).

(** [poll_write_vectored]: takes the first [n] bytes of the slices. *)
Hypothesis write_vectored_law : forall slices w n w', write_vectored slices w = (Ok n, w') ->
  0 <= n <= zlen (concat slices) /\ sent w' = sent w ++ ztake n (concat slices).

Lemma advance_slices_spec n slices : 0 <= n <= zlen (concat slices) -> Forall (fun s => s <> []) slices ->
  concat (advance_slices n slices) = zdrop n (concat slices) /\ Forall (fun s => s <> []) (advance_slices n slices).
Proof.
  revert n. induction slices as [|s tl IH]; intros n Hn Hne; cbn [advance_slices concat].
  { split; [|done]. rewrite zdrop_ge; [done|apply Hn]. }
  inversion_clear Hne as [|? ? Hs Htl]. cbn [concat] in Hn. zlens.
  destruct (Z.ltb_spec 0 n); [|rewrite zdrop_le0 by lia; auto].
  destruct (Z.leb_spec (zlen s) n).
  - rewrite zdrop_app_ge by lia. apply IH; [lia|done].
  - rewrite zdrop_app_le by lia. cbn [concat]. split; [done|]. constructor; [|done].
    intros E. apply (f_equal zlen) in E. zlens. zlen_facts. lia.
Qed.

Lemma concat_nonempty (slices : list bytes) : Forall (fun s => s <> []) slices -> slices <> [] -> 0 < zlen (concat slices).
Proof.
  intros H Hne. destruct H as [|s tl Hs _]; [done|]. cbn [concat]. destruct s; [done|]. zlens. zlen_facts. lia.
Qed.

Lemma vectored_loop_spec fuel slices w : zlen (concat slices) <= Z.of_nat fuel -> Forall (fun s => s <> []) slices ->
  exists res w', vectored_loop write_vectored fuel slices w = Some (res, w') /\
    (res = Ok tt -> sent w' = sent w ++ concat slices).
Proof.
  revert slices w. induction fuel as [|fuel IH]; intros slices w Hf Hne; cbn [vectored_loop].
  - destruct slices as [|s tl]; [|pose proof (concat_nonempty _ Hne ltac:(done)); lia].
    eexists _, _. split; [done|]. cbn. by rewrite app_nil_r.
  - destruct slices as [|s tl]; [eexists _, _; split; [done|]; cbn; by rewrite app_nil_r|].
    destruct (write_vectored (s :: tl) w) as [[n|e] w'] eqn:E; [|eauto; eexists _, _; done].
    apply write_vectored_law in E as [Hn Es]. destruct (Z.eqb_spec n 0); [eexists _, _; done|].
    destruct (advance_slices_spec n (s :: tl)) as [Ec Hne']; [done|done|].
    destruct (IH (advance_slices n (s :: tl)) w') as (res & w'' & H1 & H2); [rewrite Ec; zlia|done|].
    eexists _, _. split; [exact H1|]. intros Hr. rewrite (H2 Hr), Es, Ec, <- app_assoc. f_equal. apply ztake_drop.
Qed.

Lemma concat_filter_nonempty (l : list bytes) :
  concat (List.filter (fun s => negb (zlen s =? 0)) l) = concat l /\
  Forall (fun s => s <> []) (List.filter (fun s => negb (zlen s =? 0)) l).
Proof.
  induction l as [|s l [IH1 IH2]]; [auto|]. cbn. destruct s as [|x s]; cbn [app]; [auto|].
  rewrite zlen_cons_eqb0. cbn. rewrite IH1. auto.
Qed.

(** The vectored write terminates, after at most as many calls as there are bytes,
    whatever partial counts the sink returns, and when it reports success exactly the
    bytes of the buffers, in order, have been taken: what the sequential write sends. *)
Theorem vectored_write_complete (buffers : list (Buffer M)) w :
  let fuel := length (stream buffers) in
  exists res w', write_vectored_all write_vectored fuel buffers w = Some (res, w') /\
    (res = Ok tt -> sent w' = sent w ++ stream buffers).
Proof.
  cbv zeta. unfold write_vectored_all. destruct (concat_filter_nonempty (map Buffer_bytes buffers)) as [E Hne].
  destruct (vectored_loop_spec (length (stream buffers))
              (List.filter (fun s => negb (zlen s =? 0)) (map Buffer_bytes buffers)) w) as (res & w' & H1 & H2).
  - rewrite E. unfold zlen, stream. lia.
  - exact Hne.
  - eexists _, _. split; [exact H1|]. rewrite E in H2. exact H2.
Qed.
End vectored.
