(* ===== verification/MuxChannel.v ===== *)
(** [xray-mux/src/writer.rs] and the frame reader of [client.rs]: how the sessions of a
    worker share one carrier.  A [MuxWriter] turns what a session writes into frames
    (header, length, data), each handed to the carrier in one write; [read_frame] takes
    frames off the carrier's [BufferedReader].

    [DebugFmt] is the derived [Debug] text that the error messages quote. *)
From Stdlib Require Import String List.
From stdpp Require Import base tactics option list numbers.
From S2P Require Import Prelude Bytes NetTypes BytesMut Buffer BufferProps MultiBuffer MuxFrame BufIO.

Class DebugFmt (A : Type) : Type := debug_fmt : A -> string.

(** [session.rs]: [TransferType] *)
Inductive TransferType : Type := TtStream | TtPacket.

#[export] Instance TransferType_eq_dec : EqDecision TransferType.
Proof. solve_decision. Defined.

Definition TransferType_from_byte (byte : Z) : option TransferType :=
  if byte =? 0 then Some TtStream else if byte =? 1 then Some TtPacket else None.
Definition TransferType_to_byte (t : TransferType) : Z := match t with TtStream => 0 | TtPacket => 1 end.

Definition STREAM_CHUNK_SIZE : Z := 8 * 1024.

Section mux_writer.
Context {M : Type} `{!BytesMutOps M} `{!BufAlloc M}.
Context {W : Type} `{!Writer M W} `{!DebugFmt MuxError} `{!DebugFmt BufError}.

Record MuxWriter : Type := mkMuxWriter {
  mw_dest : option Destination;
  mw_writer : BufferedWriter M W;
  mw_id : Z;
  mw_followup : bool;
  mw_has_error : bool;
  mw_transfer_type : TransferType;
  mw_global_id : option bytes;
  mw_inbound : option (Destination * Destination);
}.

Definition MuxWriter_new (id : Z) (dest : Destination) (writer : W) (tt' : TransferType) (global_id : option bytes)
    : MuxWriter :=
  mkMuxWriter (Some dest) (BufferedWriter_new writer) id false false tt' global_id None.
Definition MuxWriter_with_inbound (source local : Destination) (w : MuxWriter) : MuxWriter :=
  mkMuxWriter (mw_dest w) (mw_writer w) (mw_id w) (mw_followup w) (mw_has_error w) (mw_transfer_type w)
    (mw_global_id w) (Some (source, local)).
Definition MuxWriter_new_response_writer (id : Z) (writer : W) (tt' : TransferType) : MuxWriter :=
  mkMuxWriter None (BufferedWriter_new writer) id true false tt' None None.
Definition MuxWriter_set_global_id (id : bytes) (w : MuxWriter) : MuxWriter :=
  mkMuxWriter (mw_dest w) (mw_writer w) (mw_id w) (mw_followup w) (mw_has_error w) (mw_transfer_type w)
    (Some id) (mw_inbound w).
Definition MuxWriter_set_error (w : MuxWriter) : MuxWriter :=
  mkMuxWriter (mw_dest w) (mw_writer w) (mw_id w) (mw_followup w) true (mw_transfer_type w)
    (mw_global_id w) (mw_inbound w).

Definition mw_set_writer (x : BufferedWriter M W) (w : MuxWriter) : MuxWriter :=
  mkMuxWriter (mw_dest w) x (mw_id w) (mw_followup w) (mw_has_error w) (mw_transfer_type w)
    (mw_global_id w) (mw_inbound w).
Definition mw_set_followup (w : MuxWriter) : MuxWriter :=
  mkMuxWriter (mw_dest w) (mw_writer w) (mw_id w) true (mw_has_error w) (mw_transfer_type w)
    (mw_global_id w) (mw_inbound w).

Definition MuxWriter_get_next_frame_meta (w : MuxWriter) : FrameMetadata * MuxWriter :=
  let status := if mw_followup w then StKeep else StNew in
  let meta := FrameMetadata_new (mw_id w) status Bitmask_default in
  let meta := match mw_dest w with Some dest => FrameMetadata_set_target dest meta | None => meta end in
  let meta := match mw_global_id w with Some gid => FrameMetadata_set_global_id gid meta | None => meta end in
  let meta :=
    if bool_decide (status = StNew) then
      match mw_inbound w with
      | Some (source, local) => FrameMetadata_set_inbound source local meta
      | None => meta
      end
    else meta in
  (meta, mw_set_followup w).

(** [writable_bytes], a copy to its front, [advance_write]: [None] when the assertion on
    the room fails. *)
Definition fill_spare (src : bytes) (b : Buffer M) : option (Buffer M) :=
  let '(spare, b) := Buffer_writable_bytes b in
  if zlen src <=? zlen spare then
    match b_inner b with
    | Pooled m =>
        Buffer_advance_write (zlen src) (mkBuffer (Pooled (bm_copy_at (b_end b) src m)) (b_start b) (b_end b) (b_udp b))
    | Frozen _ => None
    end
  else None.

(** [write_multi_buffer_direct] with the error text of the caller. *)
Definition carrier_write (what : string) (mb : MultiBuffer M) (x : BufferedWriter M W)
    : result MuxError unit * BufferedWriter M W :=
  match BufferedWriter_write_multi_buffer_direct mb x with
  | (Ok _, x) => (Ok tt, x)
  | (Err e, x) => (Err (MuxIo (what ++ debug_fmt e)), x)
  end.

(** A header alone, in a fresh buffer ([write_meta_only], [close]). *)
Definition write_header (meta_what write_what : string) (meta : FrameMetadata) (x : BufferedWriter M W)
    : option (result MuxError unit * BufferedWriter M W) :=
  match FrameMetadata_write_bytes_into M meta [] with
  | (_, Err e) => Some (Err (MuxIo (meta_what ++ debug_fmt e)), x)
  | (scratch, Ok _) =>
      frame ← fill_spare scratch Buffer_new;
      Some (carrier_write write_what (MultiBuffer_from_buffer frame) x)
  end.

Definition write_meta_with_frame (meta : FrameMetadata) (data : MultiBuffer M) (x : BufferedWriter M W)
    : option (result MuxError unit * BufferedWriter M W) :=
  let data_len := to_u16 (MultiBuffer_len data) in
  match FrameMetadata_write_bytes_into M meta [] with
  | (_, Err e) => Some (Err (MuxIo ("meta: " ++ debug_fmt e)), x)
  | (scratch, Ok _) =>
      frame ← fill_spare (scratch ++ be16 data_len) Buffer_new;
      Some (carrier_write "write: " (MultiBuffer_from_buffers (frame :: mb_buffers data)) x)
  end.

Definition mw_lift (w : MuxWriter) (o : option (result MuxError unit * BufferedWriter M W))
    : option (result MuxError unit * MuxWriter) :=
  '(res, x) ← o; Some (res, mw_set_writer x w).

Definition MuxWriter_write_meta_only (w : MuxWriter) : option (result MuxError unit * MuxWriter) :=
  let '(meta, w) := MuxWriter_get_next_frame_meta w in
  mw_lift w (write_header "meta: " "write: " meta (mw_writer w)).

Definition MuxWriter_write_data (data : MultiBuffer M) (w : MuxWriter) : option (result MuxError unit * MuxWriter) :=
  let '(meta, w) := MuxWriter_get_next_frame_meta w in
  mw_lift w (write_meta_with_frame (FrameMetadata_set_option OPTION_DATA meta) data (mw_writer w)).

(** The chunk of one turn: up to 8 KiB of a stream, one buffer of a packet session;
    [None] inside when there is no buffer left. *)
Definition next_chunk (t : TransferType) (mb : MultiBuffer M) : option (option (MultiBuffer M) * MultiBuffer M) :=
  match t with
  | TtStream =>
      '(c, mb) ← MultiBuffer_split_size STREAM_CHUNK_SIZE mb;
      Some (Some c, mb)
  | TtPacket =>
      let '(first, mb) := MultiBuffer_split_first mb in
      Some (MultiBuffer_from_buffer <$> first, mb)
  end.

(** The [while] loop of [write]; [None] is a panic or the end of the fuel. *)
Fixpoint mux_write_loop (fuel : nat) (mb : MultiBuffer M) (w : MuxWriter) : option (result MuxError unit * MuxWriter) :=
  if MultiBuffer_is_empty mb then Some (Ok tt, w)
  else
    match fuel with
    | O => None
    | S fuel =>
        '(chunk, mb) ← next_chunk (mw_transfer_type w) mb;
        match chunk with
        | None => Some (Ok tt, w)
        | Some chunk =>
            '(res, w) ← MuxWriter_write_data chunk w;
            match res with
            | Ok _ => mux_write_loop fuel mb w
            | Err e => Some (Err e, w)
            end
        end
    end.

(** A turn takes bytes or at least one buffer. *)
Definition MuxWriter_write (mb : MultiBuffer M) (w : MuxWriter) : option (result MuxError unit * MuxWriter) :=
  if MultiBuffer_is_empty mb then MuxWriter_write_meta_only w
  else mux_write_loop (length (stream (mb_buffers mb)) + length (mb_buffers mb)) mb w.

Definition MuxWriter_close (w : MuxWriter) : option (result MuxError unit * MuxWriter) :=
  let option := if mw_has_error w then Bitmask_set Bitmask_default OPTION_ERROR else Bitmask_default in
  let meta := FrameMetadata_new (mw_id w) StEnd option in
  mw_lift w (write_header "close meta: " "close write: " meta (mw_writer w)).
End mux_writer.

Arguments MuxWriter M W : clear implicits.

(** * Reading frames: [client.rs]

    The [String] errors, by the place that makes them. *)

Inductive CarrierError : Type :=
| CarrierEof
| EofAtOffset (off n : Z)
| ExceedsCapacity (n off : Z)
| MetaTooLarge (n : Z)
| ParseMeta (e : MuxError).

Section frame_reader.
Context {M : Type} `{!BytesMutOps M} `{!BufAlloc M}.
Context {R : Type} `{!Reader M R}.

Definition eof_at (off n : Z) : CarrierError := if off =? 0 then CarrierEof else EofAtOffset off n.

(** [read_exact(buf)], with what has been read so far; a turn reads at least a byte. *)
Fixpoint read_exact_loop (fuel : nat) (n : Z) (got : bytes) (b : BufferedReader M R)
    : option (result CarrierError bytes * BufferedReader M R) :=
  if zlen got <? n then
    match fuel with
    | O => None
    | S fuel =>
        let '(out, b) := BufferedReader_read (n - zlen got) b in
        if zlen out =? 0 then Some (Err (eof_at (zlen got) n), b)
        else read_exact_loop fuel n (got ++ out) b
    end
  else Some (Ok got, b).

Definition client_read_exact (n : Z) (b : BufferedReader M R) : option (result CarrierError bytes * BufferedReader M R) :=
  read_exact_loop (Z.to_nat n) n [] b.

(** [read_exact_buffer(dst, n)]: straight into the spare room of [dst]. *)
Fixpoint read_into_loop (fuel : nat) (n off : Z) (dst : Buffer M) (b : BufferedReader M R)
    : option (result CarrierError (Buffer M) * BufferedReader M R) :=
  if off <? n then
    match fuel with
    | O => None
    | S fuel =>
        if zlen (Buffer_writable_bytes dst).1 <? n - off then Some (Err (ExceedsCapacity n off), b)
        else
          let '(out, b) := BufferedReader_read (n - off) b in
          if zlen out =? 0 then Some (Err (eof_at off n), b)
          else
            dst ← fill_spare out dst;
            read_into_loop fuel n (off + zlen out) dst b
    end
  else Some (Ok dst, b).

Definition read_exact_buffer (dst : Buffer M) (n : Z) (b : BufferedReader M R)
    : option (result CarrierError (Buffer M) * BufferedReader M R) :=
  read_into_loop (Z.to_nat n) n 0 dst b.

(** The [?] operator on a step that may also panic. *)
Definition rd_then {A B} (step : option (result CarrierError A * BufferedReader M R))
    (k : A -> BufferedReader M R -> option (result CarrierError B * BufferedReader M R))
    : option (result CarrierError B * BufferedReader M R) :=
  '(res, b) ← step;
  match res with
  | Ok a => k a b
  | Err e => Some (Err e, b)
  end.

Definition read_frame (b : BufferedReader M R)
    : option (result CarrierError (FrameMetadata * Buffer M) * BufferedReader M R) :=
  rd_then (client_read_exact 2 b) (fun len_buf b =>
    let meta_len := be_val len_buf in
    if MAX_METADATA_LEN <? meta_len then Some (Err (MetaTooLarge meta_len), b)
    else
      let board := (Buffer_write_from len_buf Buffer_new).2 in
      rd_then (read_exact_buffer board meta_len b) (fun board b =>
        match FrameMetadata_read_from_bytes (Buffer_bytes board) with
        | Err e => Some (Err (ParseMeta e), b)
        | Ok (meta, _) =>
            if FrameMetadata_has_data meta then
              rd_then (client_read_exact 2 b) (fun size_buf b =>
                rd_then (read_exact_buffer Buffer_new (be_val size_buf) b) (fun payload b =>
                  Some (Ok (meta, payload), b)))
            else Some (Ok (meta, Buffer_with_capacity 0), b)
        end)).
End frame_reader.
