(* ===== verification/MuxChannelProps.v ===== *)
(** Sessions over one carrier: what a [MuxWriter] hands the carrier, what [read_frame]
    takes off it, and that the sessions' streams come out unmixed and in order,
    however their frames interleave and however the carrier is cut into reads. *)
From Stdlib Require Import String List.
From stdpp Require Import base tactics option list numbers.
From S2P Require Import Prelude Bytes NetTypes BytesMut Buffer BufferProps MultiBuffer MultiBufferProps.
From S2P Require Import AddrCodec MuxFrame MuxFrameProps BufIO BufIOProps MuxChannel.

(** * Interleavings

    [merges ls r]: [r] takes the elements of the lists [ls], each list in its order. *)

Inductive merges {A} : list (list A) -> list A -> Prop :=
| merges_done ls : Forall (fun l => l = []) ls -> merges ls []
| merges_take ls i x l r : ls !! i = Some (x :: l) -> merges (<[i := l]> ls) r -> merges ls (x :: r).

Lemma merges_map {A B} (g : A -> B) ls es : merges (map (map g) ls) es -> exists fs, es = map g fs /\ merges ls fs.
Proof.
  remember (map (map g) ls) as gls eqn:E. intros H. revert ls E. induction H as [gls Hn|gls i y l r Hi _ IH]; intros ls ->.
  - exists []. split; [done|]. constructor. apply Forall_map in Hn. eapply Forall_impl; [|exact Hn]. by intros [].
  - rewrite list_lookup_fmap in Hi. destruct (ls !! i) as [[|x l']|] eqn:Ei; [done| |done]. cbn in Hi. simplify_eq.
    destruct (IH (<[i := l']> ls)) as (fs & -> & Hm); [symmetry; apply list_fmap_insert|].
    exists (x :: fs). split; [done|]. by eapply merges_take.
Qed.

Lemma merges_Forall {A} (P : A -> Prop) ls r : merges ls r -> Forall (Forall P) ls -> Forall P r.
Proof.
  induction 1 as [|ls i x l r Hi _ IH]; intros Hp; [constructor|].
  pose proof (Forall_lookup_1 _ _ _ _ Hp Hi) as Hx. inversion_clear Hx. constructor; [done|]. apply IH. by apply Forall_insert.
Qed.

(** The elements with one list's key are that list. *)
Lemma merges_filter {A} (key : A -> Z) ks ls r : merges ls r -> NoDup ks ->
  Forall2 (fun k l => Forall (fun x => key x = k) l) ks ls ->
  Forall2 (fun k l => filter (fun x => key x = k) r = l) ks ls.
Proof.
  intros H Hn. induction H as [ls He|ls i x l r Hi _ IH]; intros Hk.
  - revert He. clear Hn. induction Hk; intros He; constructor; inversion_clear He; [done|by apply IHHk].
  - destruct (Forall2_lookup_r _ _ _ _ _ Hk Hi) as (k & Eki & Hx). inversion_clear Hx as [|? ? Ekx Hl].
    assert (Hk' : Forall2 (fun k l => Forall (fun x => key x = k) l) ks (<[i := l]> ls)).
    { rewrite <- (list_insert_id ks i k) by done. by apply Forall2_insert. }
    specialize (IH Hk'). apply Forall2_same_length_lookup_2.
    { by apply Forall2_length in Hk. }
    intros j kj lj Ej El. pose proof (lookup_lt_Some _ _ _ Hi). destruct (decide (i = j)) as [->|Hij].
    + simplify_eq. rewrite filter_cons_True by done. f_equal.
      eapply Forall2_lookup_lr in IH; [exact IH|done|by rewrite list_lookup_insert_eq].
    + rewrite filter_cons_False.
      * eapply Forall2_lookup_lr in IH; [exact IH|done|by rewrite list_lookup_insert_ne].
      * intros E. apply Hij. eapply NoDup_lookup; [exact Hn|exact Eki|by rewrite Ej, <- E, Ekx].
Qed.

Lemma Forall_choose {A B} (R : A -> B -> Prop) l : Forall (fun x => exists y, R x y) l -> exists ys, Forall2 R l ys.
Proof. induction 1 as [|x l [y Hy] _ [ys IH]]; eauto using Forall2_nil_2, Forall2_cons_2. Qed.

(** * Frames with their data *)

Abbreviation Frame := (FrameMetadata * bytes)%type.

Definition frame_wire (f : Frame) : bytes :=
  be16 (zlen (frame_body f.1)) ++ frame_body f.1 ++
  if FrameMetadata_has_data f.1 then be16 (zlen f.2) ++ f.2 else [].

(** The carrier can take the header. *)
Definition header_sendable (m : FrameMetadata) : Prop :=
  frame_ok m /\ first_fault (written_targets m) = None /\ zlen (frame_body m) <= 512 /\
  (fm_session_status m = StNew -> fm_source m = None).

Definition frame_sendable (f : Frame) : Prop :=
  header_sendable f.1 /\ zlen f.2 <= DEFAULT_SIZE /\ (FrameMetadata_has_data f.1 = false -> f.2 = []).

Section channel.
Context {M : Type} `{!BytesMutOps M} `{!BytesMutLaws M} `{!BufAlloc M}.

Lemma fill_spare_spec src b : buffer_ok b -> zlen src <= Buffer_free b ->
  exists b', fill_spare src b = Some b' /\ Buffer_bytes b' = Buffer_bytes b ++ src /\ buffer_ok b' /\
    Buffer_free b - zlen src <= Buffer_free b' /\ zlen src <= zlen (Buffer_writable_bytes (M:=M) b).1.
Proof.
  intros Hok Hl. pose proof (writable_fill_spec src b Hok Hl) as H. unfold fill_spare.
  destruct (Buffer_writable_bytes b) as [spare b1]. destruct H as (Hs & _ & H). cbn [fst].
  destruct (Z.leb_spec (zlen src) (zlen spare)); [|lia].
  destruct (b_inner b1); [|done]. destruct H as (b2 & -> & ? & ? & ?). eauto 10.
Qed.

Lemma new_room : buffer_ok (@Buffer_new M _ _) /\ Buffer_bytes (@Buffer_new M _ _) = [] /\
  DEFAULT_SIZE <= Buffer_free (@Buffer_new M _ _).
Proof. destruct new_spec as (? & ? & ?). auto. Qed.

(** * Reading *)

Section reading.
Context {R : Type} `{HR : !Reader M R} `{!ReaderLaws M R}.
Implicit Types b : BufferedReader M R.

(** [b'] is [b] with [bs] read off its front. *)
Definition advanced b (bs : bytes) b' : Prop := br_ok b' /\ br_pending b = bs ++ br_pending b'.

Lemma read_exact_loop_spec fuel n got b : br_ok b -> n - zlen got <= Z.of_nat fuel -> zlen got <= n ->
  n - zlen got <= zlen (br_pending b) ->
  exists b', read_exact_loop fuel n got b = Some (Ok (got ++ ztake (n - zlen got) (br_pending b)), b') /\
    advanced b (ztake (n - zlen got) (br_pending b)) b'.
Proof.
  revert got b. induction fuel as [|fuel IH]; intros got b Hok Hf Hg Hp; cbn [read_exact_loop].
  - destruct (Z.ltb_spec (zlen got) n); [lia|]. rewrite ztake_le0, app_nil_r by lia. eexists. done.
  - destruct (Z.ltb_spec (zlen got) n); [|rewrite ztake_le0, app_nil_r by lia; eexists; done].
    pose proof (bufreader_read_spec (n - zlen got) b Hok ltac:(lia)) as Hr.
    destruct (BufferedReader_read (n - zlen got) b) as [out b1]. destruct Hr as (Hs & Hl & Hok1 & He).
    destruct (Z.eqb_spec (zlen out) 0) as [E0|E0].
    { rewrite He in Hp; [zlia|lia|]. apply zlen_zero. lia. }
    assert (Hlp : zlen (br_pending b) = zlen out + zlen (br_pending b1)) by (rewrite <- Hs; zlia).
    pose proof (zlen_nonneg out).
    destruct (IH (got ++ out) b1 Hok1) as (b2 & E & Hok2 & Ha); [zlia..|].
    exists b2. rewrite E. clear E. rewrite <- Hs. zlens.
    rewrite ztake_app_ge by lia. replace (n - (zlen got + zlen out)) with (n - zlen got - zlen out) in * by lia.
    split; [by rewrite app_assoc|]. split; [done|]. by rewrite <- Hs, <- app_assoc, <- Ha.
Qed.

Lemma client_read_exact_spec n b bs rest : br_ok b -> br_pending b = bs ++ rest -> n = zlen bs ->
  exists b', client_read_exact n b = Some (Ok bs, b') /\ br_ok b' /\ br_pending b' = rest.
Proof.
  intros Hok Hp ->. unfold client_read_exact. pose proof (zlen_nonneg bs).
  destruct (read_exact_loop_spec (Z.to_nat (zlen bs)) (zlen bs) [] b Hok) as (b' & E & Hok' & Ha);
    [cbn; zlia|zlia|rewrite Hp; zlia|].
  change (zlen []) with 0 in *. rewrite Z.sub_0_r, Hp, ztake_app in * by done. exists b'.
  split; [exact E|]. split; [done|]. by apply app_inv_head in Ha.
Qed.

Lemma read_into_loop_spec fuel n off dst b : br_ok b -> buffer_ok dst -> n - off <= Z.of_nat fuel -> 0 <= off <= n ->
  n - off <= Buffer_free dst -> n - off <= zlen (br_pending b) ->
  exists dst' b', read_into_loop fuel n off dst b = Some (Ok dst', b') /\
    Buffer_bytes dst' = Buffer_bytes dst ++ ztake (n - off) (br_pending b) /\ buffer_ok dst' /\
    advanced b (ztake (n - off) (br_pending b)) b'.
Proof.
  revert off dst b. induction fuel as [|fuel IH]; intros off dst b Hok Hd Hf Ho Hr Hp; cbn [read_into_loop].
  - destruct (Z.ltb_spec off n); [lia|]. rewrite ztake_le0, app_nil_r by lia. eexists _, _. done.
  - destruct (Z.ltb_spec off n); [|rewrite ztake_le0, app_nil_r by lia; eexists _, _; done].
    destruct (fill_spare_spec (zrepeat (n - off) 0) dst Hd) as (_ & _ & _ & _ & _ & Hroom); [zlia|].
    rewrite zlen_repeat in Hroom. destruct (Z.ltb_spec (zlen (Buffer_writable_bytes dst).1) (n - off)); [lia|].
    pose proof (bufreader_read_spec (n - off) b Hok ltac:(lia)) as Hrd.
    destruct (BufferedReader_read (n - off) b) as [out b1]. destruct Hrd as (Hs & Hl & Hok1 & He).
    destruct (Z.eqb_spec (zlen out) 0) as [E0|E0].
    { rewrite He in Hp; [zlia|lia|]. apply zlen_zero. lia. }
    assert (Hlp : zlen (br_pending b) = zlen out + zlen (br_pending b1)) by (rewrite <- Hs; zlia).
    pose proof (zlen_nonneg out).
    destruct (fill_spare_spec out dst Hd) as (dst1 & -> & Eb & Hd1 & Hf1 & _); [lia|]. cbn [mbind option_bind].
    destruct (IH (off + zlen out) dst1 b1 Hok1 Hd1) as (dst2 & b2 & E & Eb2 & Hd2 & Hok2 & Ha); [lia..|].
    exists dst2, b2. rewrite E. clear E. split; [done|]. rewrite Eb2, Eb, <- Hs.
    rewrite ztake_app_ge by lia. replace (n - (off + zlen out)) with (n - off - zlen out) in * by lia.
    split; [by rewrite app_assoc|]. split; [done|]. split; [done|]. by rewrite <- Hs, <- app_assoc, <- Ha.
Qed.

Lemma read_exact_buffer_spec dst n b bs rest : br_ok b -> buffer_ok dst -> br_pending b = bs ++ rest -> n = zlen bs ->
  n <= Buffer_free dst ->
  exists dst' b', read_exact_buffer dst n b = Some (Ok dst', b') /\ Buffer_bytes dst' = Buffer_bytes dst ++ bs /\
    buffer_ok dst' /\ br_ok b' /\ br_pending b' = rest.
Proof.
  intros Hok Hd Hp -> Hr. unfold read_exact_buffer. pose proof (zlen_nonneg bs).
  destruct (read_into_loop_spec (Z.to_nat (zlen bs)) (zlen bs) 0 dst b Hok Hd) as (dst' & b' & E & Eb & Hd' & Hok' & Ha);
    [lia|lia|lia|rewrite Hp; zlia|].
  rewrite Z.sub_0_r, Hp, ztake_app in * by done. exists dst', b'.
  split_and!; [exact E|done|done|done|]. by apply app_inv_head in Ha.
Qed.

(** One frame off the front of the carrier. *)
Lemma read_frame_spec f b rest : br_ok b -> br_pending b = frame_wire f ++ rest -> frame_sendable f ->
  exists payload b', read_frame b = Some (Ok (plain_view f.1, payload), b') /\ Buffer_bytes payload = f.2 /\
    br_ok b' /\ br_pending b' = rest.
Proof.
  destruct f as [m d]. unfold frame_wire, frame_sendable. cbn [fst snd].
  intros Hok Hp ((Hfm & Hff & Hl & Hsrc) & Hd & Hnd). rewrite <- !app_assoc in Hp.
  pose proof (zlen_nonneg (frame_body m)). pose proof (zlen_nonneg d). unfold DEFAULT_SIZE in Hd.
  unfold read_frame. destruct (client_read_exact_spec 2 b _ _ Hok Hp) as (b1 & -> & Hok1 & Hp1); [done|].
  cbn [rd_then mbind option_bind]. rewrite be16_val by (unfold is_u16; lia). unfold MAX_METADATA_LEN. zcases.
  destruct new_room as (Hnok & Hnb & Hnr).
  unfold DEFAULT_SIZE in Hnr.
  destruct (write_fits (be16 (zlen (frame_body m))) _ Hnok) as (Eb & Hbok & Hbf); [rewrite be16_len; lia|].
  rewrite be16_len in Hbf. rewrite Hnb in Eb. cbn [app] in Eb.
  destruct (read_exact_buffer_spec _ _ b1 _ _ Hok1 Hbok Hp1 eq_refl) as (board & b2 & -> & Ebd & _ & Hok2 & Hp2); [lia|].
  cbn [rd_then mbind option_bind]. rewrite Ebd, Eb.
  assert (Hparse : FrameMetadata_read_from_bytes (be16 (zlen (frame_body m)) ++ frame_body m) =
                   Ok (plain_view m, zlen (be16 (zlen (frame_body m)) ++ frame_body m))).
  { unfold FrameMetadata_read_from_bytes.
    rewrite <- (app_nil_r (be16 _ ++ _)), read_impl_wire, parse_body_plain, app_nil_r by (done || by apply frame_body_ok).
    done. }
  rewrite Hparse. assert (Hhd : FrameMetadata_has_data (plain_view m) = FrameMetadata_has_data m).
  { unfold plain_view. destruct (fm_session_status m); try done. by destruct (keep_if _ _). }
  rewrite Hhd. destruct (FrameMetadata_has_data m) eqn:Ehd.
  - rewrite <- app_assoc in Hp2.
    destruct (client_read_exact_spec 2 b2 _ _ Hok2 Hp2) as (b3 & -> & Hok3 & Hp3); [done|].
    cbn [rd_then mbind option_bind]. rewrite be16_val by (unfold is_u16; lia).
    destruct (read_exact_buffer_spec Buffer_new (zlen d) b3 d rest Hok3 Hnok Hp3 eq_refl)
      as (payload & b4 & -> & Epl & _ & Hok4 & Hp4); [lia|].
    cbn [rd_then mbind option_bind]. eexists _, _. split; [done|]. by rewrite Epl, Hnb.
  - eexists _, _. split; [done|]. rewrite Hnd by done. destruct (with_capacity_spec (M:=M) 0) as (_ & -> & _); [lia|].
    split_and!; done.
Qed.

(** Reading frames until the clean end of the carrier. *)
Fixpoint read_frames (n : nat) b : option (list Frame * CarrierError) :=
  match n with
  | O => None
  | S n =>
      '(res, b) ← read_frame b;
      match res with
      | Err e => Some ([], e)
      | Ok (meta, payload) => '(fs, e) ← read_frames n b; Some ((meta, Buffer_bytes payload) :: fs, e)
      end
  end.

Lemma read_frame_eof b : br_ok b -> br_pending b = [] -> exists b', read_frame b = Some (Err CarrierEof, b').
Proof.
  intros Hok Hp. pose proof (bufreader_read_spec 2 b Hok ltac:(lia)) as Hr.
  assert (E : exists b', client_read_exact 2 b = Some (Err CarrierEof, b')).
  { unfold client_read_exact. change (Z.to_nat 2) with 2%nat. cbn [read_exact_loop].
    change (zlen [] <? 2) with true. change (2 - zlen []) with 2.
    destruct (BufferedReader_read 2 b) as [out b1]. destruct Hr as (Hs & _). rewrite Hp in Hs.
    apply app_eq_nil in Hs as [-> _]. eauto. }
  destruct E as [b' E]. exists b'. unfold read_frame. by rewrite E.
Qed.

Lemma read_frames_spec n fs b : br_ok b -> br_pending b = concat (map frame_wire fs) -> Forall frame_sendable fs ->
  (length fs < n)%nat ->
  read_frames n b = Some (map (fun f => (plain_view f.1, f.2)) fs, CarrierEof).
Proof.
  revert n b. induction fs as [|f fs IH]; intros n b Hok Hp Hfs Hn; (destruct n as [|n]; [cbn in Hn; lia|]);
    cbn [read_frames map].
  - destruct (read_frame_eof b Hok Hp) as (b' & ->). done.
  - inversion_clear Hfs. cbn [map concat] in Hp.
    destruct (read_frame_spec f b _ Hok Hp) as (payload & b' & -> & Epl & Hok' & Hp'); [done|].
    cbn [mbind option_bind]. rewrite (IH n b' Hok' Hp') by (done || cbn in Hn; lia).
    cbn. by rewrite Epl.
Qed.
End reading.

(** * Writing

    The carrier as the log of the writes it was given, each of which is atomic. *)

#[export] Instance log_writer : Writer M (list bytes) := {
  write_multi_buffer mb w := (Ok tt, w ++ [MultiBuffer_to_vec mb]);
  shutdown w := w;
}.

Context `{!DebugFmt MuxError} `{!DebugFmt BufError}.
Implicit Types w : MuxWriter M (list bytes).

Definition mw_log w : list bytes := bw_writer (mw_writer w).

(** The writers of this file only write directly, so the cache stays empty. *)
Definition mw_direct w : Prop := bw_buffer (mw_writer w) = None.

(** The writer's settings are within what a frame can carry. *)
Record mw_ok w : Prop := {
  mwok_direct : mw_direct w;
  mwok_id : is_u16 (mw_id w);
  mwok_dest : Forall (fun t => destination_ok t /\ target_fault t = None) (opt_list (mw_dest w));
  mwok_gid : Forall (octets_ok 8) (opt_list (mw_global_id w));
  mwok_inbound : mw_inbound w = None;
}.

(** The header of the next frame. *)
Definition meta_at w (followup : bool) : FrameMetadata :=
  mkFrame (mw_id w) (if followup then StKeep else StNew) Bitmask_default (mw_dest w) None None (mw_global_id w).
Definition data_meta w (followup : bool) : FrameMetadata := FrameMetadata_set_option OPTION_DATA (meta_at w followup).
Definition end_meta w : FrameMetadata :=
  FrameMetadata_new (mw_id w) StEnd (if mw_has_error w then Bitmask_set Bitmask_default OPTION_ERROR else Bitmask_default).

Lemma next_meta w : mw_inbound w = None ->
  MuxWriter_get_next_frame_meta w = (meta_at w (mw_followup w), mw_set_followup w).
Proof.
  intros Hi. unfold MuxWriter_get_next_frame_meta, meta_at. rewrite Hi.
  by destruct (mw_followup w), (mw_dest w), (mw_global_id w).
Qed.

Lemma target_wire_le t : destination_ok t -> target_fault t = None -> zlen (target_wire t) <= 260.
Proof.
  intros Hok Hf. destruct (fault_none_encodable t Hok Hf) as ((Ha & Hl) & _). unfold target_wire, port_addr_wire.
  destruct (Destination_address t), (TargetNetwork_from_network _) as [[]|]; cbn [addr_wire] in *;
    try destruct Ha; zlia.
Qed.

Section own_header.
Variables (w : MuxWriter M (list bytes)) (st : SessionStatus) (op : Z).
Hypothesis Hw : mw_ok w.

Definition own_header : FrameMetadata :=
  mkFrame (mw_id w) st (Bitmask_new op) (mw_dest w) None None (mw_global_id w).

Lemma own_targets : written_targets own_header = [] \/ written_targets own_header = opt_list (mw_dest w).
Proof.
  unfold written_targets, own_header. destruct st; cbn; [rewrite app_nil_r; auto| |auto..].
  destruct (mw_dest w) as [t|]; cbn; [destruct (Destination_is_udp t)|]; auto.
Qed.

Lemma own_gid_le : zlen (written_gid own_header) <= 8.
Proof.
  pose proof (mwok_gid w Hw) as Hg. unfold written_gid, own_header, FrameMetadata_is_udp_target. destruct st; cbn; try done.
  destruct (mw_dest w) as [t|]; [|done]. destruct (bool_decide _); [|done]. destruct (mw_global_id w); cbn in *; [|done].
  apply Forall_singleton in Hg as [_ ?]. lia.
Qed.

Lemma own_targets_le : first_fault (written_targets own_header) = None /\
  zlen (concat (map target_wire (written_targets own_header))) <= 260.
Proof.
  pose proof (mwok_dest w Hw) as Hd. destruct own_targets as [-> | ->]; [done|].
  destruct (mw_dest w) as [t|]; cbn [opt_list] in *; [|done]. apply Forall_singleton in Hd as [Ht Hf].
  unfold first_fault. cbn. rewrite Hf, app_nil_r. split; [done|]. by apply target_wire_le.
Qed.

(** A header of the session's id with its target: it can be sent. *)
Lemma own_header_sendable : is_u8 op -> header_sendable own_header.
Proof.
  intros Hop. pose proof own_gid_le. destruct own_targets_le as [Hf Hl]. destruct Hw as [_ Hid Hd Hg _].
  split; [|split; [done|split; [|done]]].
  - split; cbn; auto. eapply Forall_impl; [|exact Hd]; by intros ? [].
  - unfold frame_body. zlia.
Qed.
End own_header.

Lemma own_frame_sendable w fup d : mw_ok w -> zlen d <= DEFAULT_SIZE -> frame_sendable (data_meta w fup, d).
Proof. intros Hw Hd. split; [by apply own_header_sendable|]. done. Qed.

(** * One frame *)

Lemma header_bytes m : header_sendable m ->
  FrameMetadata_write_bytes_into M m [] = (be16 (zlen (frame_body m)) ++ frame_body m, Ok tt).
Proof.
  intros (Hok & Hf & Hl & _). pose proof (frame_to_bytes_exact (M:=M) m Hok) as H. rewrite Hf in H.
  destruct (Z.ltb_spec 512 (zlen (frame_body m))); [lia|]. unfold FrameMetadata_to_bytes in H.
  destruct (FrameMetadata_write_bytes_into M m []) as [out [[]|]]; by simplify_eq.
Qed.

Definition bw_logged (x : BufferedWriter M (list bytes)) (e : bytes) : BufferedWriter M (list bytes) :=
  mkBufferedWriter (bw_writer x ++ [e]) None (bw_buffered x) (bw_flush_next x).

Lemma carrier_write_log what mb x : bw_buffer x = None ->
  carrier_write what mb x = (Ok tt, bw_logged x (MultiBuffer_to_vec mb)).
Proof.
  intros Hx. unfold carrier_write, BufferedWriter_write_multi_buffer_direct, BufferedWriter_flush. rewrite Hx. cbn.
  by rewrite Hx.
Qed.

Lemma write_header_spec a b m x : bw_buffer x = None -> header_sendable m -> FrameMetadata_has_data m = false ->
  write_header a b m x = Some (Ok tt, bw_logged x (frame_wire (m, []))).
Proof.
  intros Hx Hm Hnd. destruct (Hm) as (_ & _ & Hl & _). unfold write_header, frame_wire. cbn [fst snd]. rewrite header_bytes, Hnd by done.
  destruct new_room as (Hok & Hb & Hr). unfold DEFAULT_SIZE in Hr. pose proof (be16_len (zlen (frame_body m))).
  destruct (fill_spare_spec (be16 (zlen (frame_body m)) ++ frame_body m) Buffer_new Hok) as (b' & -> & Eb & _); [zlia|].
  cbn [mbind option_bind]. rewrite carrier_write_log by done. unfold MultiBuffer_to_vec. cbn.
  by rewrite Eb, Hb, !app_nil_r.
Qed.

Lemma write_meta_with_frame_spec m data x : bw_buffer x = None -> header_sendable m -> multi_ok data ->
  FrameMetadata_has_data m = true -> zlen (MultiBuffer_to_vec data) <= DEFAULT_SIZE ->
  write_meta_with_frame m data x = Some (Ok tt, bw_logged x (frame_wire (m, MultiBuffer_to_vec data))).
Proof.
  intros Hx Hm Hd Hhd Hl. unfold write_meta_with_frame, frame_wire. cbn [fst snd]. rewrite header_bytes, Hhd by done.
  destruct Hm as (_ & _ & Hlen & _). unfold DEFAULT_SIZE in Hl.
  destruct new_room as (Hok & Hb & Hr). unfold DEFAULT_SIZE in Hr. pose proof (be16_len (zlen (frame_body m))).
  unfold MultiBuffer_len. rewrite total_len_stream by done. change (stream (mb_buffers data)) with (MultiBuffer_to_vec data). pose proof (zlen_nonneg (MultiBuffer_to_vec data)).
  rewrite to_u16_small by (unfold is_u16; lia). pose proof (be16_len (zlen (MultiBuffer_to_vec data))).
  destruct (fill_spare_spec ((be16 (zlen (frame_body m)) ++ frame_body m) ++ be16 (zlen (MultiBuffer_to_vec data))) Buffer_new Hok)
    as (b' & -> & Eb & _); [zlia|].
  cbn [mbind option_bind]. rewrite carrier_write_log by done. unfold MultiBuffer_to_vec. cbn.
  by rewrite Eb, Hb, <- !app_assoc.
Qed.

(** * What a session writes *)

(** The writer after some entries. *)
Definition mw_after w (es : list bytes) (followup : bool) : MuxWriter M (list bytes) :=
  mkMuxWriter (mw_dest w)
    (mkBufferedWriter (mw_log w ++ es) None (bw_buffered (mw_writer w)) (bw_flush_next (mw_writer w)))
    (mw_id w) followup (mw_has_error w) (mw_transfer_type w) (mw_global_id w) (mw_inbound w).

Lemma mw_after_after w es1 f1 es2 f2 : mw_after (mw_after w es1 f1) es2 f2 = mw_after w (es1 ++ es2) f2.
Proof. unfold mw_after, mw_log. cbn. by rewrite app_assoc. Qed.

Lemma mw_after_id w : mw_ok w -> mw_after w [] (mw_followup w) = w.
Proof. intros [Hd _ _ _ _]. unfold mw_direct in Hd. destruct w as [? []]. cbn in *. subst. unfold mw_after, mw_log. cbn. by rewrite app_nil_r. Qed.

Lemma mw_after_ok w es f : mw_ok w -> mw_ok (mw_after w es f).
Proof. by intros [? ? ? ? ?]. Qed.

Lemma write_data_spec w data : mw_ok w -> multi_ok data -> zlen (MultiBuffer_to_vec data) <= DEFAULT_SIZE ->
  MuxWriter_write_data data w =
    Some (Ok tt, mw_after w [frame_wire (data_meta w (mw_followup w), MultiBuffer_to_vec data)] true).
Proof.
  intros Hw Hd Hl. unfold MuxWriter_write_data. rewrite next_meta by apply Hw. unfold mw_lift.
  rewrite write_meta_with_frame_spec; [done|apply Hw| |done|done|done]. by apply own_header_sendable.
Qed.

Lemma write_meta_only_spec w : mw_ok w ->
  MuxWriter_write_meta_only w = Some (Ok tt, mw_after w [frame_wire (meta_at w (mw_followup w), [])] true).
Proof.
  intros Hw. unfold MuxWriter_write_meta_only. rewrite next_meta by apply Hw. unfold mw_lift.
  rewrite write_header_spec; [done|apply Hw| |done]. by apply own_header_sendable.
Qed.

Lemma end_meta_sendable w : mw_ok w -> header_sendable (end_meta w) /\ FrameMetadata_has_data (end_meta w) = false.
Proof.
  intros Hw. unfold end_meta. destruct (mw_has_error w); (split; [|done]);
    (split; [apply hdr_ok; [apply Hw|by vm_compute]|split; [done|]]); (split; [|done]);
    unfold frame_body, written_targets, written_gid, FrameMetadata_new; cbn [fm_session_id fm_session_status fm_option fm_source map concat]; zlia.
Qed.

Lemma close_spec w : mw_ok w ->
  MuxWriter_close w = Some (Ok tt, mw_after w [frame_wire (end_meta w, [])] (mw_followup w)).
Proof.
  intros Hw. unfold MuxWriter_close, mw_lift. fold (end_meta w). destruct (end_meta_sendable w Hw).
  by rewrite write_header_spec by (done || apply Hw).
Qed.

(** Chunks as frames: the first opens the session when it is not open yet. *)
Fixpoint data_frames w (followup : bool) (chunks : list bytes) : list Frame :=
  match chunks with
  | [] => []
  | c :: cs => (data_meta w followup, c) :: data_frames w true cs
  end.
Lemma data_frames_after w es f fup chunks : data_frames (mw_after w es f) fup chunks = data_frames w fup chunks.
Proof. revert fup. induction chunks as [|c cs IH]; intros fup; [done|]. cbn. by rewrite IH. Qed.

Definition open_after (followup : bool) {A} (l : list A) : bool := match l with [] => followup | _ => true end.

Definition packets_fit w (mb : MultiBuffer M) : Prop :=
  mw_transfer_type w = TtPacket -> Forall (fun b => Buffer_len b <= DEFAULT_SIZE) (mb_buffers mb).
Definition write_turns w (mb : MultiBuffer M) : nat :=
  match mw_transfer_type w with
  | TtStream => length (MultiBuffer_to_vec mb)
  | TtPacket => length (mb_buffers mb)
  end.

Lemma next_chunk_spec w mb : multi_ok mb -> packets_fit w mb -> MultiBuffer_is_empty mb = false ->
  exists c mb', next_chunk (mw_transfer_type w) mb = Some (Some c, mb') /\ multi_ok c /\ multi_ok mb' /\
    packets_fit w mb' /\ MultiBuffer_to_vec mb = MultiBuffer_to_vec c ++ MultiBuffer_to_vec mb' /\
    zlen (MultiBuffer_to_vec c) <= DEFAULT_SIZE /\ (write_turns w mb' < write_turns w mb)%nat /\
    (mw_transfer_type w = TtPacket -> exists b, mb_buffers mb = b :: mb_buffers mb' /\ MultiBuffer_to_vec c = Buffer_bytes b).
Proof.
  intros Hok Hp He. pose proof (mb_not_empty_stream mb Hok He) as Hne. unfold packets_fit, write_turns, next_chunk in *.
  destruct (mw_transfer_type w).
  - destruct (split_size_spec STREAM_CHUNK_SIZE mb Hok) as (c & mb' & -> & Hc & Hm & E1 & E2); [unfold STREAM_CHUNK_SIZE; lia|].
    change (stream (mb_buffers ?x)) with (MultiBuffer_to_vec x) in *. cbn [mbind option_bind]. exists c, mb'.
    assert (0 < zlen (MultiBuffer_to_vec mb)) by (destruct (MultiBuffer_to_vec mb); [done|zlia]).
    rewrite E1, E2, ztake_drop. unfold STREAM_CHUNK_SIZE, DEFAULT_SIZE.
    split_and!; try done; [zlia|].
    enough (zlen (zdrop (8 * 1024) (MultiBuffer_to_vec mb)) < zlen (MultiBuffer_to_vec mb)) by (unfold zlen in *; lia). zlia.
  - unfold MultiBuffer_split_first. specialize (Hp eq_refl).
    destruct mb as [[|b bs]]; [done|]. cbn [mb_buffers] in *. inversion_clear Hok. inversion_clear Hp.
    eexists _, _. split; [done|]. unfold MultiBuffer_to_vec. cbn. rewrite app_nil_r.
    split_and!; try done; [apply Forall_singleton; done|by rewrite buffer_bytes_len|lia|eauto].
Qed.

Lemma write_loop_spec fuel mb w : mw_ok w -> multi_ok mb -> packets_fit w mb -> (write_turns w mb <= fuel)%nat ->
  exists chunks, mux_write_loop fuel mb w =
      Some (Ok tt, mw_after w (map frame_wire (data_frames w (mw_followup w) chunks)) (open_after (mw_followup w) chunks)) /\
    concat chunks = MultiBuffer_to_vec mb /\ Forall (fun c => zlen c <= DEFAULT_SIZE) chunks /\
    (mw_transfer_type w = TtPacket -> Forall (fun b => Buffer_bytes b <> []) (mb_buffers mb) ->
     chunks = map Buffer_bytes (mb_buffers mb)).
Proof.
  revert mb w. induction fuel as [|fuel IH]; intros mb w Hw Hok Hp Hf; cbn [mux_write_loop];
    destruct (MultiBuffer_is_empty mb) eqn:He.
  1,3: exists []; cbn [data_frames map]; rewrite mw_after_id by done; pose proof (mb_is_empty_stream mb Hok He) as E;
    (split_and!; [done|by rewrite E|constructor|]); intros _ Hn;
    destruct mb as [[|b bs]]; [done|]; inversion_clear Hn; by apply app_eq_nil in E as [? _].
  { destruct (next_chunk_spec w mb Hok Hp He) as (c & mb' & _ & _ & _ & _ & _ & _ & Ht & _). lia. }
  destruct (next_chunk_spec w mb Hok Hp He) as (c & mb' & -> & Hc & Hm & Hp' & Es & Hl & Ht & Hpk).
  cbn [mbind option_bind]. rewrite write_data_spec by done. cbn [mbind option_bind].
  set (w1 := mw_after w _ true).
  destruct (IH mb' w1) as (chunks & -> & Ec & Hfit & Hpk'); [by apply mw_after_ok|done|done|change (write_turns w1 mb') with (write_turns w mb'); lia|].
  exists (MultiBuffer_to_vec c :: chunks). unfold w1. rewrite mw_after_after. cbn [data_frames map concat].
  rewrite data_frames_after. split_and!; [by destruct chunks|by rewrite Ec|by constructor|].
  intros Htt Hn. destruct (Hpk Htt) as (b & Eb & ->). rewrite Eb in *. inversion_clear Hn. cbn. by rewrite Hpk'.
Qed.

(** A frame that opens or continues the session of [w]. *)
Definition session_frame w (f : Frame) : Prop :=
  frame_sendable f /\ fm_session_id f.1 = mw_id w /\ fm_target f.1 = mw_dest w /\ fm_session_status f.1 <> StEnd.
Definition statuses (followup : bool) (n : nat) : list SessionStatus :=
  match n with O => [] | S n => (if followup then StKeep else StNew) :: replicate n StKeep end.
Definition frame_status (f : Frame) : SessionStatus := fm_session_status f.1.

Definition writable w (mb : MultiBuffer M) : Prop := multi_ok mb /\ packets_fit w mb.
(** No write is empty, and none carries an empty datagram. *)
Definition no_empty_packet (mb : MultiBuffer M) : Prop :=
  MultiBuffer_is_empty mb = false /\ Forall (fun b => Buffer_bytes b <> []) (mb_buffers mb).

Lemma statuses_app fup n m : statuses fup n ++ statuses (match n with O => fup | S _ => true end) m = statuses fup (n + m).
Proof. destruct n; [done|]. cbn. rewrite replicate_add. by destruct m. Qed.

Lemma own_frame w (fup : bool) op d : mw_ok w -> is_u8 op -> zlen d <= DEFAULT_SIZE ->
  (Bitmask_has (Bitmask_new op) OPTION_DATA = false -> d = []) ->
  session_frame w (mkFrame (mw_id w) (if fup then StKeep else StNew) (Bitmask_new op) (mw_dest w) None None (mw_global_id w), d).
Proof.
  intros Hw Hop Hd Hn. split; [|by destruct fup]. split; [|done]. by apply (own_header_sendable w _ op).
Qed.

Lemma data_frames_session w fup chunks : mw_ok w -> Forall (fun c => zlen c <= DEFAULT_SIZE) chunks ->
  Forall (session_frame w) (data_frames w fup chunks) /\ map snd (data_frames w fup chunks) = chunks /\
  map frame_status (data_frames w fup chunks) = statuses fup (length chunks).
Proof.
  intros Hw Hc. revert fup. induction Hc as [|c cs Hc _ IH]; intros fup; [by repeat constructor|].
  destruct (IH true) as (Hs & Hd & Hst). cbn [data_frames map]. rewrite Hd, Hst.
  split; [constructor; [by apply own_frame|done]|]. split; [done|]. by destruct fup, cs.
Qed.

Lemma write_spec mb w : mw_ok w -> writable w mb ->
  exists fs, MuxWriter_write mb w = Some (Ok tt, mw_after w (map frame_wire fs) true) /\ fs <> [] /\
    Forall (session_frame w) fs /\ map frame_status fs = statuses (mw_followup w) (length fs) /\
    concat (map snd fs) = MultiBuffer_to_vec mb /\
    (mw_transfer_type w = TtPacket -> no_empty_packet mb -> map snd fs = map Buffer_bytes (mb_buffers mb)).
Proof.
  intros Hw [Hok Hp]. unfold MuxWriter_write. destruct (MultiBuffer_is_empty mb) eqn:He.
  - exists [(meta_at w (mw_followup w), [])]. rewrite write_meta_only_spec by done.
    pose proof (mb_is_empty_stream mb Hok He) as E. split_and!; try done.
    + repeat constructor; try done; try (by apply own_header_sendable). by destruct (mw_followup w).
    + intros _ [Hne _]. congruence.
  - destruct (write_loop_spec (length (stream (mb_buffers mb)) + length (mb_buffers mb)) mb w Hw Hok Hp)
      as (chunks & -> & Ec & Hc & Hpk).
    { unfold write_turns. change (MultiBuffer_to_vec mb) with (stream (mb_buffers mb)). destruct (mw_transfer_type w); lia. }
    destruct (data_frames_session w (mw_followup w) chunks Hw Hc) as (Hs & Hd & Hst).
    assert (Hne : chunks <> []) by (intros ->; by apply (mb_not_empty_stream mb Hok He)).
    exists (data_frames w (mw_followup w) chunks). rewrite Hst, Hd. split_and!; try done.
    + by destruct chunks.
    + by destruct chunks.
    + by rewrite <- (length_map snd (data_frames _ _ _)), Hd.
    + intros Htt [_ Hn]. by apply Hpk.
Qed.

(** A session: its writes, then the close. *)
Fixpoint session_run (writes : list (MultiBuffer M)) w : option (result MuxError unit * MuxWriter M (list bytes)) :=
  match writes with
  | [] => MuxWriter_close w
  | mb :: writes =>
      '(res, w) ← MuxWriter_write mb w;
      match res with
      | Ok _ => session_run writes w
      | Err e => Some (Err e, w)
      end
  end.

Lemma session_frame_after w es f fr : session_frame (mw_after w es f) fr <-> session_frame w fr.
Proof. done. Qed.

Lemma session_run_spec writes w : mw_ok w -> Forall (writable w) writes ->
  exists fs fup, session_run writes w = Some (Ok tt, mw_after w (map frame_wire (fs ++ [(end_meta w, [])])) fup) /\
    Forall (session_frame w) fs /\ map frame_status fs = statuses (mw_followup w) (length fs) /\
    concat (map snd fs) = concat (map MultiBuffer_to_vec writes) /\
    (mw_transfer_type w = TtPacket -> Forall no_empty_packet writes ->
     map snd fs = concat (map (fun mb => map Buffer_bytes (mb_buffers mb)) writes)).
Proof.
  revert w. induction writes as [|mb writes IH]; intros w Hw Hws; cbn [session_run].
  - exists [], (mw_followup w). by rewrite close_spec by done.
  - inversion_clear Hws as [|? ? Hmb Hrest]. destruct (write_spec mb w Hw Hmb) as (fs & -> & Hne & Hs & Hst & Ec & Hpk).
    cbn [mbind option_bind]. set (w1 := mw_after w _ true).
    destruct (IH w1) as (fs' & fup & -> & Hs' & Hst' & Ec' & Hpk'); [by apply mw_after_ok|done|].
    exists (fs ++ fs'), fup. unfold w1. rewrite mw_after_after, !map_app, !concat_app, Ec, Ec', Hst, Hst', <- !app_assoc.
    split_and!; try done.
    + by apply Forall_app.
    + destruct fs as [|f fs]; [done|]. cbn [mw_followup w1 mw_after] in *.
      rewrite length_app, <- statuses_app. done.
    + intros Htt Hn. inversion_clear Hn. cbn. by rewrite Hpk, Hpk'.
Qed.

(** * Many sessions, one carrier *)

Abbreviation Session := (MuxWriter M (list bytes) * list (MultiBuffer M))%type.
Implicit Types s : Session.

Definition session_ok s : Prop := mw_ok s.1 /\ mw_log s.1 = [] /\ mw_followup s.1 = false /\ Forall (writable s.1) s.2.
Definition session_log s : list bytes :=
  match session_run s.2 s.1 with Some (_, w) => mw_log w | None => [] end.
Definition session_data s : bytes := concat (map MultiBuffer_to_vec s.2).
Definition session_packets s : list bytes := concat (map (fun mb => map Buffer_bytes (mb_buffers mb)) s.2).

(** What the far side must see of a session. *)
Record received s (fs : list Frame) : Prop := {
  rcv_data : concat (map snd fs) = session_data s;
  rcv_status : exists n, map frame_status fs = statuses false n ++ [StEnd];
  rcv_target : Forall (fun f => frame_status f = StNew -> fm_target f.1 = mw_dest s.1) fs;
  rcv_error : Forall (fun f => frame_status f = StEnd -> FrameMetadata_has_error f.1 = mw_has_error s.1) fs;
  rcv_packets : mw_transfer_type s.1 = TtPacket -> Forall no_empty_packet s.2 ->
    map snd fs = session_packets s ++ [[]];
}.

Definition seen (f : Frame) : Frame := (plain_view f.1, f.2).

Lemma plain_view_fields m : fm_session_id (plain_view m) = fm_session_id m /\
  fm_session_status (plain_view m) = fm_session_status m /\ fm_option (plain_view m) = fm_option m /\
  (fm_session_status m = StNew -> fm_target (plain_view m) = fm_target m).
Proof. unfold plain_view. destruct (fm_session_status m) eqn:E; try done. by destruct (keep_if _ _); cbn; rewrite ?E. Qed.

Lemma seen_snd fs : map snd (map seen fs) = map snd fs.
Proof. by rewrite map_map. Qed.
Lemma seen_status fs : map frame_status (map seen fs) = map frame_status fs.
Proof. rewrite map_map. apply map_ext. intros [m d]. apply plain_view_fields. Qed.
Lemma seen_filter k fs : filter (fun f : Frame => fm_session_id f.1 = k) (map seen fs) =
  map seen (filter (fun f : Frame => fm_session_id f.1 = k) fs).
Proof.
  induction fs as [|f fs IH]; [done|]. cbn [map]. destruct (plain_view_fields f.1) as (Ei & _).
  destruct (decide (fm_session_id f.1 = k)).
  - rewrite !filter_cons_True by (cbn; congruence). by rewrite IH.
  - rewrite !filter_cons_False by (cbn; congruence). done.
Qed.

(** The frames a session puts on the carrier. *)
Definition session_frames s (F : list Frame) : Prop :=
  (exists w, session_run s.2 s.1 = Some (Ok tt, w)) /\ session_log s = map frame_wire F /\
  Forall frame_sendable F /\ Forall (fun f => fm_session_id f.1 = mw_id s.1) F /\ received s (map seen F).

Lemma session_frames_exist s : session_ok s -> exists F, session_frames s F.
Proof.
  intros (Hw & Hl & Hf & Hws).
  destruct (session_run_spec s.2 s.1 Hw Hws) as (fs & fup & Er & Hs & Hst & Ec & Hpk).
  exists (fs ++ [(end_meta s.1, [])]). unfold session_frames, session_log. rewrite Er.
  split; [eauto|]. split; [unfold mw_after, mw_log in *; cbn; by rewrite Hl|].
  destruct (end_meta_sendable s.1 Hw) as [He Hnd]. assert (Hem : plain_view (end_meta s.1) = end_meta s.1) by done.
  split. { apply Forall_app. split; [|by apply Forall_singleton]. eapply Forall_impl; [|exact Hs]. by intros ? (? & _). }
  split. { apply Forall_app. split; [|by apply Forall_singleton]. eapply Forall_impl; [|exact Hs]. by intros ? (_ & ? & _). }
  split; rewrite ?seen_snd, ?seen_status, ?map_app, ?concat_app.
  - cbn. by rewrite app_nil_r.
  - exists (length fs). rewrite Hst, Hf. done.
  - apply Forall_app. split; [|by repeat constructor]. apply Forall_map. eapply Forall_impl; [|exact Hs].
    intros f (_ & _ & Ht & _) Hnew. destruct (plain_view_fields f.1) as (_ & Es & _ & Et). cbn. rewrite Et; [done|].
    unfold frame_status in Hnew. cbn in Hnew. congruence.
  - apply Forall_app. split; [|].
    + apply Forall_map. eapply Forall_impl; [|exact Hs]. intros f (_ & _ & _ & Hne) He'. exfalso. apply Hne.
      destruct (plain_view_fields f.1) as (_ & Es & _). unfold frame_status in He'. cbn in He'. congruence.
    + repeat constructor. intros _. cbn. unfold FrameMetadata_has_error, end_meta. by destruct (mw_has_error s.1).
  - intros Htt Hn. by rewrite Hpk.
Qed.

Section demultiplex.
Context {R : Type} `{HR : !Reader M R} `{!ReaderLaws M R}.

(** C3: sessions multiplexed on one carrier come out unmixed.  Let sessions with distinct
    ids each run their writes and close on a carrier whose writes are atomic, in any
    interleaving of their frames: every session succeeds, and a reader of the carrier,
    however the bytes are cut into reads, gets the frames one by one up to a clean end;
    every frame belongs to a session, and the frames with a session's id are that
    session: its bytes complete and in order, one New frame (with its target), Keep
    frames, and an End frame carrying its error flag; a packet session's datagrams keep
    their boundaries. *)
Theorem mux_demultiplex ss entries (b : BufferedReader M R) :
  Forall session_ok ss -> NoDup (map (fun s => mw_id s.1) ss) -> merges (map session_log ss) entries ->
  br_ok b -> br_pending b = concat entries ->
  Forall (fun s => exists w, session_run s.2 s.1 = Some (Ok tt, w)) ss /\
  exists fs, read_frames (S (length entries)) b = Some (fs, CarrierEof) /\
    Forall (fun f => fm_session_id f.1 ∈ map (fun s => mw_id s.1) ss) fs /\
    Forall (fun s => received s (filter (fun f => fm_session_id f.1 = mw_id s.1) fs)) ss.
Proof.
  intros Hss Hn Hm Hok Hp.
  destruct (Forall_choose session_frames ss) as [FS HFS]; [eapply Forall_impl; [|exact Hss]; apply session_frames_exist|].
  assert (Elog : map session_log ss = map (map frame_wire) FS).
  { clear -HFS. induction HFS as [|s F ss FS (_ & E & _) _ IH]; [done|]. cbn. by rewrite E, IH. }
  rewrite Elog in Hm. apply merges_map in Hm as (fs & -> & Hm). rewrite length_map.
  split. { clear -HFS. induction HFS as [|s F ss FS (E & _) _ IH]; by constructor. }
  assert (Hids : Forall2 (fun k F => Forall (fun f : Frame => fm_session_id f.1 = k) F) (map (fun s => mw_id s.1) ss) FS).
  { clear -HFS. induction HFS as [|s F ss FS (_ & _ & _ & E & _) _ IH]; by constructor. }
  exists (map seen fs). split; [|split].
  - apply read_frames_spec; [done|done| |lia]. eapply merges_Forall; [exact Hm|].
    clear -HFS. induction HFS as [|s F ss FS (_ & _ & E & _) _ IH]; by constructor.
  - apply Forall_map. eapply merges_Forall; [exact Hm|]. apply Forall_lookup_2. intros i F Hi.
    destruct (Forall2_lookup_r _ _ _ _ _ Hids Hi) as (k & Ek & HF).
    eapply Forall_impl; [|exact HF]. intros f Ef. cbn. destruct (plain_view_fields f.1) as (-> & _). rewrite Ef.
    by eapply list_elem_of_lookup_2.
  - pose proof (merges_filter (fun f : Frame => fm_session_id f.1) _ _ _ Hm Hn Hids) as Hfl.
    apply Forall2_fmap_l in Hfl. clear -HFS Hfl.
    induction HFS as [|s F ss FS (_ & _ & _ & _ & Hr) _ IH]; [constructor|]. inversion_clear Hfl as [|? ? ? ? E Hfl'].
    constructor; [|by apply IH]. rewrite seen_filter. cbn in E. by rewrite E.
Qed.
End demultiplex.
End channel.
