(* ===== verification/SessionTable.v ===== *)
(** [xray-mux/src/session.rs]: the sessions of a worker, their table and the table of
    XUDP bindings.

    Sessions are shared objects ([Arc<Session>]): they live in a list, an [Arc] is an
    index into it, and no index is ever reused.  A method that takes a lock or an atomic
    flag in several places is the composition of one definition per place, so that other
    calls may run in between.  [now] is what the clock reads. *)
From Stdlib Require Import List.
From stdpp Require Import base tactics option list numbers gmap.
From S2P Require Import Prelude Bytes NetTypes BytesMut Buffer MultiBuffer MuxFrame BufIO MuxChannel.

Record ClientStrategy : Type := mkClientStrategy { max_concurrency : Z; max_connection : Z }.

Inductive XudpStatus : Type := XsInitializing | XsActive | XsExpiring.

#[export] Instance XudpStatus_eq_dec : EqDecision XudpStatus.
Proof. solve_decision. Defined.

(** [XUDP]; [xu_mux] is the weak reference to the session. *)
Record XUDP : Type := mkXUDP { xu_global_id : bytes; xu_status : XudpStatus; xu_expire : Z; xu_mux : option nat }.

Definition XUDP_new (now : Z) (global_id : bytes) : XUDP := mkXUDP global_id XsInitializing now None.
Definition XUDP_set_mux (session : nat) (x : XUDP) : XUDP :=
  mkXUDP (xu_global_id x) (xu_status x) (xu_expire x) (Some session).
Definition xudp_set_status (st : XudpStatus) (x : XUDP) : XUDP :=
  mkXUDP (xu_global_id x) st (xu_expire x) (xu_mux x).

Definition NANOS_PER_SECOND : Z := 1000000000.

Section sessions.
Context {M : Type} `{!BytesMutOps M} `{!BufAlloc M}.
Context {R W : Type} `{!Reader M R} `{!Writer M W}.

(** * Session *)

Record Session : Type := mkSession {
  se_id : Z;
  se_transfer_type : TransferType;
  se_closed_flag : bool;
  se_done : bool;
  se_input : option (BufferedReader M R);
  se_output : option (BufferedWriter M W);
  se_parent : bool;
  se_xudp : option XUDP;
  se_uplink_bytes : Z;
  se_downlink_bytes : Z;
}.

Definition Session_new (id : Z) (tt' : TransferType) : Session :=
  mkSession id tt' false false None None false None 0 0.

Definition Session_set_parent (s : Session) : Session :=
  mkSession (se_id s) (se_transfer_type s) (se_closed_flag s) (se_done s) (se_input s) (se_output s) true
    (se_xudp s) (se_uplink_bytes s) (se_downlink_bytes s).
Definition se_set_io (i : option (BufferedReader M R)) (o : option (BufferedWriter M W)) (s : Session) : Session :=
  mkSession (se_id s) (se_transfer_type s) (se_closed_flag s) (se_done s) i o (se_parent s)
    (se_xudp s) (se_uplink_bytes s) (se_downlink_bytes s).
Definition Session_set_input (reader : BufferedReader M R) (s : Session) : Session :=
  se_set_io (Some reader) (se_output s) s.
Definition Session_set_output (writer : BufferedWriter M W) (s : Session) : Session :=
  se_set_io (se_input s) (Some writer) s.
Definition se_put_xudp (x : option XUDP) (s : Session) : Session :=
  mkSession (se_id s) (se_transfer_type s) (se_closed_flag s) (se_done s) (se_input s) (se_output s) (se_parent s)
    x (se_uplink_bytes s) (se_downlink_bytes s).
Definition Session_set_xudp (x : XUDP) (s : Session) : Session := se_put_xudp (Some x) s.

Definition Session_add_uplink_bytes (n : Z) (s : Session) : Session :=
  mkSession (se_id s) (se_transfer_type s) (se_closed_flag s) (se_done s) (se_input s) (se_output s) (se_parent s)
    (se_xudp s) ((se_uplink_bytes s + n) mod 2 ^ 64) (se_downlink_bytes s).
Definition Session_add_downlink_bytes (n : Z) (s : Session) : Session :=
  mkSession (se_id s) (se_transfer_type s) (se_closed_flag s) (se_done s) (se_input s) (se_output s) (se_parent s)
    (se_xudp s) (se_uplink_bytes s) ((se_downlink_bytes s + n) mod 2 ^ 64).

(** [close], first part: the atomic swap of the flag, then the done signal. *)
Definition close_flag (s : Session) : bool * Session :=
  if se_closed_flag s then (false, s)
  else
    (true, mkSession (se_id s) (se_transfer_type s) true true (se_input s) (se_output s) (se_parent s)
             (se_xudp s) (se_uplink_bytes s) (se_downlink_bytes s)).

(** Second part: the input and the output, or the XUDP extension. *)
Definition close_io (now : Z) (s : Session) : Session :=
  match se_xudp s with
  | None =>
      se_set_io ((fun r => BufferedReader_close (BufferedReader_interrupt r)) <$> se_input s)
        ((fun w => BufferedWriter_shutdown (BufferedWriter_flush w).2) <$> se_output s) s
  | Some x =>
      if bool_decide (xu_status x = XsActive)
      then se_put_xudp (Some (mkXUDP (xu_global_id x) XsExpiring (now + 60 * NANOS_PER_SECOND) (xu_mux x))) s
      else s
  end.

(** [XUDP::interrupt], on the bound session. *)
Definition XUDP_interrupt (s : Session) : Session :=
  se_set_io (BufferedReader_interrupt <$> se_input s) ((fun w => (BufferedWriter_flush w).2) <$> se_output s) s.

(** * SessionManager *)

(** [SessionManagerShared]: the locked table, and the atomics beside it. *)
Record SessionManager : Type := mkSessionManager {
  sm_sessions : gmap Z nat;
  sm_inner_count : Z;
  sm_inner_closed : bool;
  sm_count : Z;
  sm_size : Z;
  sm_closed_flag : bool;
}.

Definition SessionManager_new : SessionManager := mkSessionManager ∅ 0 false 0 0 false.

(** The manager and every session there ever was. *)
Record Sessions : Type := mkSessions { all_sessions : list Session; manager : SessionManager }.

Definition with_manager (m : SessionManager) (w : Sessions) : Sessions := mkSessions (all_sessions w) m.
Definition with_session (h : nat) (s : Session) (w : Sessions) : Sessions :=
  mkSessions (<[h := s]> (all_sessions w)) (manager w).

(** The part that [allocate] and [add] share: count, wrap in an [Arc], insert. *)
Definition sm_insert (count : Z) (s : Session) (w : Sessions) : nat * Sessions :=
  let m := manager w in
  let h := length (all_sessions w) in
  (h, mkSessions (all_sessions w ++ [Session_set_parent s])
        (mkSessionManager (<[se_id s := h]> (sm_sessions m)) count (sm_inner_closed m) count (sm_size m + 1) (sm_closed_flag m))).

Definition SessionManager_allocate (strategy : ClientStrategy) (w : Sessions) : option nat * Sessions :=
  let m := manager w in
  if sm_inner_closed m then (None, w)
  else if (0 <? max_concurrency strategy) && (max_concurrency strategy <=? Z.of_nat (size (sm_sessions m))) then (None, w)
  else
    let max_connection := to_u16 (max_connection strategy) in
    if (0 <? max_connection) && (max_connection <=? sm_inner_count m) then (None, w)
    else
      let count := Z.min 65535 (sm_inner_count m + 1) in
      let '(h, w) := sm_insert count (Session_new count TtStream) w in
      (Some h, w).

Definition SessionManager_add (session : Session) (w : Sessions) : option nat * Sessions :=
  let m := manager w in
  if sm_inner_closed m then (None, w)
  else
    let '(h, w) := sm_insert (Z.min 65535 (sm_inner_count m + 1)) session w in
    (Some h, w).

Definition SessionManager_remove (id : Z) (m : SessionManager) : SessionManager :=
  if negb (sm_inner_closed m) && bool_decide (is_Some (sm_sessions m !! id))
  then mkSessionManager (delete id (sm_sessions m)) (sm_inner_count m) (sm_inner_closed m) (sm_count m)
         (sm_size m - 1) (sm_closed_flag m)
  else m.

Definition SessionManager_get (id : Z) (m : SessionManager) : option nat :=
  if sm_inner_closed m then None else sm_sessions m !! id.

(** Closing, with the table as it is. *)
Definition sm_close_flag (m : SessionManager) : SessionManager :=
  mkSessionManager (sm_sessions m) (sm_inner_count m) true (sm_count m) (sm_size m) true.
Definition sm_clear (m : SessionManager) : SessionManager :=
  mkSessionManager ∅ (sm_inner_count m) (sm_inner_closed m) (sm_count m) 0 (sm_closed_flag m).

Definition SessionManager_close_if_no_session_and_idle (check_size check_count : Z) (m : SessionManager)
    : bool * SessionManager :=
  if sm_inner_closed m then (true, m)
  else if negb (bool_decide (sm_sessions m = ∅)) || negb (check_size =? 0) || negb (check_count =? sm_inner_count m)
  then (false, m)
  else (true, sm_clear (sm_close_flag m)).

(** [Session::close], third part: leave the parent's table. *)
Definition close_detach (s : Session) (m : SessionManager) : SessionManager :=
  if se_parent s then SessionManager_remove (se_id s) m else m.

(** [Session::close] run in one go. *)
Definition Session_close (now : Z) (h : nat) (w : Sessions) : bool * Sessions :=
  match all_sessions w !! h with
  | None => (false, w)
  | Some s =>
      let '(first, s) := close_flag s in
      if first then
        let s := close_io now s in
        (true, with_manager (close_detach s (manager w)) (with_session h s w))
      else (false, w)
  end.

(** [SessionManager::close]: mark, close every session of the table, clear. *)
Definition SessionManager_close (now : Z) (w : Sessions) : Sessions :=
  if sm_inner_closed (manager w) then w
  else
    let handles := (map_to_list (sm_sessions (manager w))).*2 in
    let w := with_manager (sm_close_flag (manager w)) w in
    let w := fold_left (fun w h => (Session_close now h w).2) handles w in
    with_manager (sm_clear (manager w)) w.
End sessions.

Arguments Session M R W : clear implicits.
Arguments Sessions M R W : clear implicits.

(** * XUDPManager *)

Definition XUDPManager : Type := gmap bytes XUDP.

Definition XUDPManager_register (x : XUDP) (m : XUDPManager) : XUDPManager := <[xu_global_id x := x]> m.
Definition XUDPManager_unregister (global_id : bytes) (m : XUDPManager) : XUDPManager := delete global_id m.
Definition XUDPManager_get (global_id : bytes) (m : XUDPManager) : option XUDP := m !! global_id.

(** [x.status == Expiring && now >= x.expire] *)
Definition xudp_expired (now : Z) (x : XUDP) : bool :=
  bool_decide (xu_status x = XsExpiring) && (xu_expire x <=? now).
Definition XUDPManager_cleanup (now : Z) (m : XUDPManager) : XUDPManager :=
  filter (fun e => xudp_expired now e.2 = false) m.
Definition XUDPManager_len (m : XUDPManager) : nat := size m.
