(* ===== verification/SessionTableProps.v ===== *)
(** The session table under any interleaving of the calls that change it. *)
From Stdlib Require Import List.
From stdpp Require Import base tactics option list numbers gmap.
From S2P Require Import Prelude Bytes NetTypes BytesMut Buffer MultiBuffer MuxFrame BufIO MuxChannel SessionTable.

Section table.
Context {M : Type} `{!BytesMutOps M} `{!BufAlloc M}.
Context {R W : Type} `{!Reader M R} `{!Writer M W}.
Implicit Types (w : Sessions M R W) (s : Session M R W) (m : SessionManager).

(** A use of a session keeps its id, its place and its closed flag. *)
Definition same_session s s' : Prop :=
  se_id s' = se_id s /\ se_parent s' = se_parent s /\ (se_closed_flag s = true -> se_closed_flag s' = true).

(** Whether an insertion replaces the entry of a session. *)
Definition replaced (res : option nat) (id : Z) m : nat :=
  match res, sm_sessions m !! id with Some _, Some _ => 1%nat | _, _ => 0%nat end.

(** The calls, each lock region one step, with the entries replaced.  A client only
    allocates; a server adds sessions with the ids that the peer chose. *)
Inductive table_step (client : bool) : Sessions M R W -> nat -> Sessions M R W -> Prop :=
| TsAllocate strategy w res w' : SessionManager_allocate strategy w = (res, w') ->
    table_step client w (replaced res (Z.min 65535 (sm_inner_count (manager w) + 1)) (manager w)) w'
| TsAdd s w res w' : client = false -> SessionManager_add s w = (res, w') ->
    table_step client w (replaced res (se_id s) (manager w)) w'
| TsRemove id w : table_step client w 0 (with_manager (SessionManager_remove id (manager w)) w)
| TsIdle check_size check_count w :
    table_step client w 0 (with_manager (SessionManager_close_if_no_session_and_idle check_size check_count (manager w)).2 w)
| TsUse h s s' w : all_sessions w !! h = Some s -> same_session s s' -> table_step client w 0 (with_session h s' w)
| TsDetach h s w : all_sessions w !! h = Some s -> table_step client w 0 (with_manager (close_detach s (manager w)) w)
| TsClose w : table_step client w 0 (with_manager (sm_close_flag (manager w)) w)
| TsClear w : sm_inner_closed (manager w) = true -> table_step client w 0 (with_manager (sm_clear (manager w)) w).

Inductive table_reach (client : bool) : Sessions M R W -> nat -> Prop :=
| TrNew : table_reach client (mkSessions [] SessionManager_new) 0
| TrStep w k n w' : table_reach client w k -> table_step client w n w' -> table_reach client w' (k + n).

(** The parts of [Session::close] are uses of the session. *)
Lemma close_flag_same s : same_session s (close_flag s).2.
Proof. unfold close_flag. by destruct (se_closed_flag s) eqn:E. Qed.
Lemma close_io_same now s : same_session s (close_io now s).
Proof. unfold close_io. destruct (se_xudp s); [destruct (bool_decide _)|]; done. Qed.

Record table_ok (client : bool) w (k : nat) : Prop := {
  to_flag : sm_closed_flag (manager w) = sm_inner_closed (manager w);
  to_count : sm_count (manager w) = sm_inner_count (manager w);
  to_range : 0 <= sm_inner_count (manager w) <= 65535;
  to_size : sm_inner_closed (manager w) = false ->
    sm_size (manager w) = Z.of_nat (size (sm_sessions (manager w))) + Z.of_nat k;
  to_entry : forall id h, sm_sessions (manager w) !! id = Some h ->
    exists s, all_sessions w !! h = Some s /\ se_id s = id /\ se_parent s = true;
  to_client : client = true -> (k = 0%nat \/ sm_inner_count (manager w) = 65535) /\
    forall id, is_Some (sm_sessions (manager w) !! id) -> 1 <= id <= sm_inner_count (manager w);
}.

Lemma insert_ok client w k s : table_ok client w k -> sm_inner_closed (manager w) = false ->
  (client = true -> se_id s = Z.min 65535 (sm_inner_count (manager w) + 1)) ->
  table_ok client (sm_insert (Z.min 65535 (sm_inner_count (manager w) + 1)) s w).2
    (k + replaced (Some (length (all_sessions w))) (se_id s) (manager w)).
Proof.
  intros [Hf Hc Hr Hs He Hcl] Ho Hid. unfold sm_insert. cbn [snd]. split; cbn [manager all_sessions sm_closed_flag
    sm_inner_closed sm_count sm_inner_count sm_size sm_sessions]; try done.
  - lia.
  - intros _. rewrite Hs by done. unfold replaced. destruct (sm_sessions (manager w) !! se_id s) as [h|] eqn:E.
    + rewrite (map_size_insert_Some _ _ _ (mk_is_Some _ _ E)). lia.
    + rewrite map_size_insert_None by done. lia.
  - intros id h. rewrite lookup_insert_Some. intros [[<- <-]|[Hne Hx]].
    + exists (Session_set_parent s). by rewrite list_lookup_middle.
    + destruct (He id h Hx) as (s' & Hl & ?). exists s'. split; [|done]. apply lookup_app_l_Some. done.
  - intros Hcli. destruct (Hcl Hcli) as [Hk Hids]. specialize (Hid Hcli). unfold replaced. split.
    + destruct (sm_sessions (manager w) !! se_id s) as [h|] eqn:E; [|destruct Hk; [left; lia|right; lia]].
      destruct (Hids (se_id s)) as [? ?]; [by rewrite E|]. right. lia.
    + intros id. rewrite lookup_insert_is_Some. intros [<-|[_ [? ?]%Hids]]; lia.
Qed.

Lemma remove_ok client w k id : table_ok client w k ->
  table_ok client (with_manager (SessionManager_remove id (manager w)) w) k.
Proof.
  intros Ht. unfold SessionManager_remove. destruct (negb (sm_inner_closed (manager w)) && _) eqn:E; [|by destruct w].
  apply andb_true_iff in E as [_ [h Eh]%bool_decide_eq_true]. destruct Ht as [Hf Hc Hr Hs He Hcl].
  split; cbn; try done.
  - intros Ho. rewrite Hs by done. rewrite (map_size_delete_Some _ _ (mk_is_Some _ _ Eh)).
    assert (size (sm_sessions (manager w)) <> 0%nat) by (intros E%map_size_empty_inv; by rewrite E, lookup_empty in Eh).
    lia.
  - intros id' h' [_ Hh]%lookup_delete_Some. by apply He.
  - intros Hcli. destruct (Hcl Hcli) as [? Hids]. split; [done|]. intros id' [h' [_ Hh]%lookup_delete_Some]. apply Hids. eauto.
Qed.

Lemma clear_ok client w k : table_ok client w k -> sm_inner_closed (manager w) = true ->
  table_ok client (with_manager (sm_clear (manager w)) w) k.
Proof.
  intros [Hf Hc Hr Hs He Hcl] Ho. split; cbn; try done.
  - rewrite Ho. done.
  - intros Hcli. destruct (Hcl Hcli) as [? _]. split; [done|]. intros id [? Hx]. by rewrite lookup_empty in Hx.
Qed.

Lemma close_flag_ok client w k : table_ok client w k -> table_ok client (with_manager (sm_close_flag (manager w)) w) k.
Proof. by intros [Hf Hc Hr Hs He Hcl]. Qed.

Lemma use_ok client w k h s s' : table_ok client w k -> all_sessions w !! h = Some s -> same_session s s' ->
  table_ok client (with_session h s' w) k.
Proof.
  intros [Hf Hc Hr Hs He Hcl] Hl (Ei & Ep & _). split; cbn; try done.
  intros id h' (s1 & H1 & H2 & H3)%He. destruct (decide (h = h')) as [<-|Hne].
  - exists s'. rewrite list_lookup_insert_eq by (by eapply lookup_lt_Some). simplify_eq. split; [done|]. by rewrite Ei, Ep.
  - exists s1. by rewrite list_lookup_insert_ne.
Qed.

Lemma idle_ok client w k a b : table_ok client w k ->
  table_ok client (with_manager (SessionManager_close_if_no_session_and_idle a b (manager w)).2 w) k.
Proof.
  intros Ht. unfold SessionManager_close_if_no_session_and_idle. destruct (sm_inner_closed (manager w)); [by destruct w|].
  destruct (_ || _ || _); [by destruct w|]. cbn [snd].
  by apply (clear_ok client (with_manager (sm_close_flag (manager w)) w)), eq_refl; apply close_flag_ok.
Qed.

Lemma step_ok_table client w k n w' : table_ok client w k -> table_step client w n w' -> table_ok client w' (k + n).
Proof.
  intros Ht Hs. destruct Hs as [strategy w res w' Hx|s w res w' Hcl Hx|id w|a b w|h s s' w Hl Hss|h s w Hl|w|w Ho];
    rewrite ?Nat.add_0_r.
  - unfold SessionManager_allocate in Hx. destruct (sm_inner_closed (manager w)) eqn:Ho; [simplify_eq; cbn; by rewrite Nat.add_0_r|].
    do 2 (match type of Hx with context [if ?b then _ else _] => destruct b end; [simplify_eq; cbn; by rewrite Nat.add_0_r|]).
    injection Hx as <- <-. by apply (insert_ok client w k (Session_new (Z.min 65535 (sm_inner_count (manager w) + 1)) TtStream)).
  - unfold SessionManager_add in Hx. destruct (sm_inner_closed (manager w)) eqn:Ho; [simplify_eq; cbn; by rewrite Nat.add_0_r|].
    injection Hx as <- <-. apply (insert_ok client w k s); [done|done|]. intros. congruence.
  - by apply remove_ok.
  - by apply idle_ok.
  - by eapply use_ok.
  - unfold close_detach. destruct (se_parent s); [by apply remove_ok|by destruct w].
  - by apply close_flag_ok.
  - by apply clear_ok.
Qed.

Lemma table_reach_ok client w k : table_reach client w k -> table_ok client w k.
Proof.
  induction 1 as [|w k n w' _ IH Hs]; [|by eapply step_ok_table].
  split; cbn; try done.
  intros _. split; [by left|]. intros id [? Hx]. by rewrite lookup_empty in Hx.
Qed.

(** * The calls in one go *)

Lemma reach_step0 client w k w' : table_reach client w k -> table_step client w 0 w' -> table_reach client w' k.
Proof. intros Hr Hs. rewrite <- (Nat.add_0_r k). by eapply TrStep. Qed.

Lemma same_session_trans s1 s2 s3 : same_session s1 s2 -> same_session s2 s3 -> same_session s1 s3.
Proof. intros (? & ? & ?) (? & ? & ?). split; [congruence|]. split; [congruence|auto]. Qed.

Lemma session_close_reach client now h w k : table_reach client w k -> table_reach client (Session_close now h w).2 k.
Proof.
  intros Hr. unfold Session_close. destruct (all_sessions w !! h) as [s|] eqn:El; [|done].
  pose proof (close_flag_same s) as Hf. destruct (close_flag s) as [first s1]. cbn in Hf. destruct first; [|done]. cbn [snd].
  pose proof (same_session_trans _ _ _ Hf (close_io_same now s1)) as Hc.
  pose proof (reach_step0 _ _ _ _ Hr (TsUse client h s _ w El Hc)) as Hr1.
  apply (reach_step0 _ _ _ _ Hr1), (TsDetach client h (close_io now s1) (with_session h (close_io now s1) w)).
  apply list_lookup_insert_eq. by eapply lookup_lt_Some.
Qed.

Lemma session_close_closed now h w s : all_sessions w !! h = Some s ->
  exists s', all_sessions (Session_close now h w).2 !! h = Some s' /\ se_closed_flag s' = true.
Proof.
  intros El. unfold Session_close. rewrite El. unfold close_flag. destruct (se_closed_flag s) eqn:Ec; [eauto|]. cbn [snd].
  eexists. split; [apply list_lookup_insert_eq; by eapply lookup_lt_Some|]. unfold close_io. cbn.
  destruct (se_xudp s); [destruct (bool_decide _)|]; done.
Qed.

(** A closed session stays closed, and a closed manager closed. *)
Definition keeps_closed w w' : Prop :=
  (sm_inner_closed (manager w) = true -> sm_inner_closed (manager w') = true) /\
  forall h s, all_sessions w !! h = Some s -> exists s', all_sessions w' !! h = Some s' /\
    (se_closed_flag s = true -> se_closed_flag s' = true).

Lemma session_close_keeps now h w : keeps_closed w (Session_close now h w).2.
Proof.
  unfold Session_close. destruct (all_sessions w !! h) as [s|] eqn:El; [|split; eauto].
  pose proof (close_flag_same s) as Hf. destruct (close_flag s) as [first s1]. cbn in Hf. destruct first; [|split; eauto]. cbn [snd].
  destruct (same_session_trans _ _ _ Hf (close_io_same now s1)) as (_ & _ & Hc). split.
  - cbn. unfold close_detach, SessionManager_remove. destruct (se_parent _); [|done]. by destruct (_ && _).
  - intros h' s' El'. cbn. destruct (decide (h = h')) as [<-|Hne].
    + rewrite list_lookup_insert_eq by (by eapply lookup_lt_Some). simplify_eq. eauto.
    + rewrite list_lookup_insert_ne by done. eauto.
Qed.

Definition close_each now (hs : list nat) w : Sessions M R W := fold_left (fun w h => (Session_close now h w).2) hs w.

Lemma close_each_spec client now hs w k : table_reach client w k -> Forall (fun h => is_Some (all_sessions w !! h)) hs ->
  table_reach client (close_each now hs w) k /\ keeps_closed w (close_each now hs w) /\
  Forall (fun h => exists s, all_sessions (close_each now hs w) !! h = Some s /\ se_closed_flag s = true) hs.
Proof.
  revert w. induction hs as [|h hs IH]; intros w Hr Hh; [by split_and!; [|split; eauto|]|].
  inversion_clear Hh as [|? ? [s Hs] Hhs]. pose proof (session_close_keeps now h w) as [Hk1 Hk2].
  change (close_each now (h :: hs) w) with (close_each now hs (Session_close now h w).2).
  destruct (IH (Session_close now h w).2) as (H1 & [H2 H3] & H4); [by apply session_close_reach| |].
  { apply (Forall_impl _ _ _ Hhs). intros h' [s' Hs']. destruct (Hk2 h' s' Hs') as (? & ? & _). eauto. }
  split; [done|]. split; [split; [auto|]|].
  - intros h' s' Hs'. destruct (Hk2 h' s' Hs') as (s1 & E1 & ?). destruct (H3 h' s1 E1) as (s2 & ? & ?). eauto.
  - constructor; [|done]. destruct (session_close_closed now h w s Hs) as (s1 & E1 & ?).
    destruct (H3 h s1 E1) as (s2 & ? & ?). eauto.
Qed.

Lemma manager_close_spec client now w k : table_reach client w k -> sm_inner_closed (manager w) = false ->
  let w' := SessionManager_close now w in
  table_reach client w' k /\ sm_inner_closed (manager w') = true /\ sm_sessions (manager w') = ∅ /\ sm_size (manager w') = 0 /\
  forall id h, sm_sessions (manager w) !! id = Some h ->
    exists s, all_sessions w' !! h = Some s /\ se_closed_flag s = true.
Proof.
  intros Hr Ho. unfold SessionManager_close. rewrite Ho. cbv zeta.
  set (hs := (map_to_list (sm_sessions (manager w))).*2). set (w1 := with_manager (sm_close_flag (manager w)) w).
  assert (Hhs : Forall (fun h => is_Some (all_sessions w1 !! h)) hs).
  { apply Forall_fmap, Forall_lookup_2. intros i [id h] Hi. apply list_elem_of_lookup_2, elem_of_map_to_list in Hi.
    destruct (to_entry _ _ _ (table_reach_ok _ _ _ Hr) id h Hi) as (s & ? & _). cbn. eauto. }
  pose proof (reach_step0 _ _ _ _ Hr (TsClose client w)) as Hr1.
  destruct (close_each_spec client now hs w1 k Hr1 Hhs) as (H1 & [H2 _] & H3). specialize (H2 eq_refl).
  fold (close_each now hs w1). split; [by apply (reach_step0 _ _ _ _ H1), TsClear|]. split; [done|]. split; [done|]. split; [done|].
  intros id h Hid. cbn. apply elem_of_map_to_list in Hid.
  assert (Hin : h ∈ hs) by (apply list_elem_of_fmap; by exists (id, h)).
  apply list_elem_of_lookup_1 in Hin as [i Hi]. exact (Forall_lookup_1 _ _ _ _ H3 Hi).
Qed.

(** C8: the session table under any interleaving of allocations, additions, removals,
    session closes (part by part), idle checks and closes.  The atomics beside the lock
    mirror it, the number of sessions up to the entries that an insertion has replaced;
    every entry names a session of its id that knows its parent.  So the idle check
    with a fresh snapshot closes exactly the table that is empty and where no entry was
    ever replaced: after one replacement the worker is never found idle again.  On a
    client, which only allocates, a new session gets the next id, not in the table,
    as long as fewer than 65535 were allocated; from then on every new session takes
    the id 65535.  Closing the manager closes every session of the table and leaves it
    closed and empty. *)
Theorem mux_session_table client w k : table_reach client w k ->
  sm_closed_flag (manager w) = sm_inner_closed (manager w) /\ sm_count (manager w) = sm_inner_count (manager w) /\
  (forall id h, sm_sessions (manager w) !! id = Some h ->
     exists s, all_sessions w !! h = Some s /\ se_id s = id /\ se_parent s = true) /\
  (sm_inner_closed (manager w) = false ->
     sm_size (manager w) = Z.of_nat (size (sm_sessions (manager w))) + Z.of_nat k /\
     ((SessionManager_close_if_no_session_and_idle (sm_size (manager w)) (sm_count (manager w)) (manager w)).1 = true <->
      sm_sessions (manager w) = ∅ /\ k = 0%nat)) /\
  (client = true -> forall strategy h w', SessionManager_allocate strategy w = (Some h, w') ->
     exists s, all_sessions w' !! h = Some s /\ sm_sessions (manager w') !! se_id s = Some h /\
       if sm_count (manager w) <? 65535
       then se_id s = sm_count (manager w) + 1 /\ sm_sessions (manager w) !! se_id s = None /\ k = 0%nat
       else se_id s = 65535) /\
  (sm_inner_closed (manager w) = false -> forall now, let w' := SessionManager_close now w in
     table_reach client w' k /\ sm_inner_closed (manager w') = true /\ sm_sessions (manager w') = ∅ /\
     sm_size (manager w') = 0 /\
     forall id h, sm_sessions (manager w) !! id = Some h ->
       exists s, all_sessions w' !! h = Some s /\ se_closed_flag s = true).
Proof.
  intros Hreach. destruct (table_reach_ok _ _ _ Hreach) as [Hf Hc Hr Hs He Hcl].
  split; [done|]. split; [done|]. split; [done|]. split; [|split; [|by intros; apply manager_close_spec]].
  - intros Ho. specialize (Hs Ho). split; [done|]. unfold SessionManager_close_if_no_session_and_idle. rewrite Ho, Hc, Z.eqb_refl.
    rewrite orb_false_r, Hs. split.
    + destruct (decide (sm_sessions (manager w) = ∅)) as [E|E]; [|by rewrite bool_decide_false].
      rewrite bool_decide_true, E, map_size_empty by done. cbn [negb orb]. destruct (Z.eqb_spec (Z.of_nat 0 + Z.of_nat k) 0); [|done].
      intros _. split; [done|lia].
    + intros [E ->]. by rewrite bool_decide_true, E, map_size_empty.
  - intros Hcli strategy h w' Hx. destruct (Hcl Hcli) as [Hk Hids]. unfold SessionManager_allocate in Hx.
    destruct (sm_inner_closed (manager w)); [done|].
    do 2 (match type of Hx with context [if ?b then _ else _] => destruct b end; [done|]).
    injection Hx as <- <-. eexists. split; [cbn; by rewrite list_lookup_middle|]. cbn. split; [by rewrite lookup_insert_eq|].
    rewrite Hc. destruct (Z.ltb_spec (sm_inner_count (manager w)) 65535) as [Hlt|Hge]; [|lia].
    split; [lia|]. split; [|destruct Hk; [done|lia]].
    destruct (sm_sessions (manager w) !! _) eqn:E; [|done]. destruct (Hids _ (mk_is_Some _ _ E)). lia.
Qed.
End table.
