(* ===== verification/Replay.v ===== *)
(** [xray-common/src/antireplay/mod.rs] and [xray-proxy-ss/src/ss2022/replay.rs]: the
    two-generation replay filters of VMess and Shadowsocks 2022.

    [now] is what the clock reads during a check; [Instant] is a number of nanoseconds
    and [duration_since] is zero for a later instant. *)
From Stdlib Require Import List.
From stdpp Require Import base tactics option list numbers gmap.
From S2P Require Import Prelude Bytes.

Definition SECOND : Z := 1000000000.
Definition duration_since (now earlier : Z) : Z := Z.max 0 (now - earlier).

(** * MapFilter *)

Section map_filter.
Context {T : Type} `{Countable T}.

Record MapFilter : Type := mkMapFilter {
  mf_pool_a : gset T;
  mf_pool_b : gset T;
  mf_interval : Z;
  mf_last_clean : Z;
}.

Definition MapFilter_new (now interval_secs : Z) : MapFilter := mkMapFilter ∅ ∅ (interval_secs * SECOND) now.

(** Generations change when an interval has passed since the last change. *)
Definition mf_rotate (now : Z) (f : MapFilter) : MapFilter :=
  if mf_interval f <=? duration_since now (mf_last_clean f)
  then mkMapFilter ∅ (mf_pool_a f) (mf_interval f) now
  else f.

Definition MapFilter_check (now : Z) (value : T) (f : MapFilter) : bool * MapFilter :=
  let f := mf_rotate now f in
  let fresh := negb (bool_decide (value ∈ mf_pool_a f)) && negb (bool_decide (value ∈ mf_pool_b f)) in
  if fresh
  then (true, mkMapFilter ({[ value ]} ∪ mf_pool_a f) (mf_pool_b f) (mf_interval f) (mf_last_clean f))
  else (false, f).
End map_filter.

Arguments MapFilter T {_ _}.

Definition MapFilter_default {T} `{Countable T} (now : Z) : MapFilter T := MapFilter_new now 120.

(** * SaltReplayFilter *)

Record ReplayState : Type := mkReplayState { rp_last_clean : Z; rp_pool_a : gset bytes; rp_pool_b : gset bytes }.
Record SaltReplayFilter : Type := mkSaltReplayFilter { sr_interval : Z; sr_state : ReplayState }.

Definition REPLAY_WINDOW : Z := 60 * SECOND.

Definition SaltReplayFilter_new (now interval : Z) : SaltReplayFilter :=
  mkSaltReplayFilter interval (mkReplayState now ∅ ∅).

Definition SaltReplayFilter_check (now : Z) (salt : bytes) (f : SaltReplayFilter) : bool * SaltReplayFilter :=
  let st := sr_state f in
  let st :=
    if sr_interval f <=? duration_since now (rp_last_clean st)
    then mkReplayState now ∅ (rp_pool_a st) else st in
  let replayed := bool_decide (salt ∈ rp_pool_a st) || bool_decide (salt ∈ rp_pool_b st) in
  let st :=
    if negb replayed then mkReplayState (rp_last_clean st) ({[ salt ]} ∪ rp_pool_a st) (rp_pool_b st) else st in
  (negb replayed, mkSaltReplayFilter (sr_interval f) st).

Definition SaltReplayFilter_len (f : SaltReplayFilter) : nat :=
  size (rp_pool_a (sr_state f)) + size (rp_pool_b (sr_state f)).
Definition SaltReplayFilter_is_empty (f : SaltReplayFilter) : bool := Nat.eqb (SaltReplayFilter_len f) 0.

(** The salt filter is the other one on byte strings. *)
Definition salt_view (f : SaltReplayFilter) : MapFilter bytes :=
  mkMapFilter (rp_pool_a (sr_state f)) (rp_pool_b (sr_state f)) (sr_interval f) (rp_last_clean (sr_state f)).

Lemma salt_check_view now salt f :
  let '(fresh, f') := SaltReplayFilter_check now salt f in
  MapFilter_check now salt (salt_view f) = (fresh, salt_view f').
Proof.
  unfold SaltReplayFilter_check, MapFilter_check, mf_rotate, salt_view. destruct f as [i [l a b]]. cbn.
  destruct (i <=? duration_since now l); cbn; repeat case_bool_decide; done.
Qed.

(** * The window *)

Section window.
Context {T : Type} `{Countable T}.
Implicit Types (f : MapFilter T) (h : list (Z * T)) (v : T).

(** A history of checks, and the filter after it. *)
Definition mf_after f h : MapFilter T := fold_left (fun f c => (MapFilter_check c.1 c.2 f).2) h f.
Definition verdict f h (now : Z) v : bool := (MapFilter_check now v (mf_after f h)).1.

(** The clock does not go back. *)
Fixpoint clocked (now : Z) h : Prop :=
  match h with [] => True | c :: h => now <= c.1 /\ clocked c.1 h end.

Lemma mf_after_app f h1 h2 : mf_after f (h1 ++ h2) = mf_after (mf_after f h1) h2.
Proof. unfold mf_after. apply fold_left_app. Qed.

Lemma check_interval now v f : mf_interval (MapFilter_check now v f).2 = mf_interval f.
Proof. unfold MapFilter_check, mf_rotate. destruct (_ <=? _); cbn; by destruct (_ && _). Qed.

Lemma after_interval f h : mf_interval (mf_after f h) = mf_interval f.
Proof.
  revert f. induction h as [|c h IH]; intros f; [done|].
  change (mf_after f (c :: h)) with (mf_after (MapFilter_check c.1 c.2 f).2 h). by rewrite IH, check_interval.
Qed.

(** The last change of generations is not in the future. *)
Lemma check_clean now v f : mf_last_clean f <= now -> mf_last_clean (MapFilter_check now v f).2 <= now.
Proof. unfold MapFilter_check, mf_rotate. intros Hl. destruct (_ <=? _); cbn; destruct (_ && _); cbn; lia. Qed.

(** [v], accepted at [t], is still known. *)
Definition remembers f v (t : Z) : Prop :=
  v ∈ mf_pool_a f \/ v ∈ mf_pool_b f /\ t <= mf_last_clean f.

Lemma remembers_rotate f v t now : remembers f v t -> t <= now -> mf_last_clean f <= now -> now < t + mf_interval f ->
  remembers (mf_rotate now f) v t.
Proof.
  unfold remembers, mf_rotate, duration_since. intros Hr Ht Hl Hn.
  destruct (Z.leb_spec (mf_interval f) (Z.max 0 (now - mf_last_clean f))); cbn; [|done].
  destruct Hr as [Hr|[Hr Hc]]; [auto|lia].
Qed.

Lemma remembers_check f v t now u : remembers f v t -> t <= now -> mf_last_clean f <= now -> now < t + mf_interval f ->
  remembers (MapFilter_check now u f).2 v t /\ (MapFilter_check now v f).1 = false.
Proof.
  intros Hr Ht Hl Hn. pose proof (remembers_rotate f v t now Hr Ht Hl Hn) as Hr'. unfold MapFilter_check. split.
  - destruct (_ && _); [|done]. destruct Hr' as [Hr'|[Hr' Hc]]; [left; cbn; set_solver|right; by split].
  - destruct Hr' as [Hr'|[Hr' _]]; by repeat case_bool_decide.
Qed.

Lemma remembers_after f h v t now : remembers f v t -> t <= now -> mf_last_clean f <= now -> clocked now h ->
  (forall c, In c h -> c.1 < t + mf_interval f) -> remembers (mf_after f h) v t.
Proof.
  revert f now. induction h as [|c h IH]; intros f now Hr Ht Hl Hc Hi; [done|]. destruct Hc as [Hc Hh].
  assert (Hcl : mf_last_clean f <= c.1) by lia.
  apply (IH _ c.1); [|lia|by apply check_clean|done|].
  - apply remembers_check; [done|lia|done|]. apply Hi. by left.
  - intros c' Hc'. rewrite check_interval. apply Hi. by right.
Qed.

Lemma clocked_app now h1 h2 : clocked now (h1 ++ h2) -> clocked now h1.
Proof. revert now. induction h1 as [|c h1 IH]; intros now; [done|]. cbn. intros [? ?]. eauto. Qed.

Lemma clocked_skip now h1 c h2 : clocked now (h1 ++ c :: h2) ->
  now <= c.1 /\ clocked c.1 h2 /\ forall c', In c' h1 -> now <= c'.1 <= c.1.
Proof.
  revert now. induction h1 as [|c1 h1 IH]; intros now; cbn.
  - intros [? ?]. split_and!; [done|done|]. by intros ? [].
  - intros [H1 H2]. destruct (IH _ H2) as (? & ? & Hb). split; [lia|]. split; [done|].
    intros c' [<-|Hc]; [lia|]. specialize (Hb c' Hc). lia.
Qed.

Lemma after_clean f h now : mf_last_clean f <= now -> clocked now h ->
  forall t, now <= t -> (forall c, In c h -> c.1 <= t) -> mf_last_clean (mf_after f h) <= t.
Proof.
  revert f now. induction h as [|c h IH]; intros f now Hl Hc t Ht Hb; [cbn; lia|]. destruct Hc as [Hc Hh].
  change (mf_after f (c :: h)) with (mf_after (MapFilter_check c.1 c.2 f).2 h).
  apply (IH _ c.1); [apply check_clean; lia|done|apply Hb; by left|]. intros c' Hc'. apply Hb. by right.
Qed.

(** An accepted value is in the current generation. *)
Lemma accepted_in now v f : (MapFilter_check now v f).1 = true -> v ∈ mf_pool_a (MapFilter_check now v f).2.
Proof. unfold MapFilter_check. destruct (_ && _); cbn; [set_solver|done]. Qed.

(** Only checked values are known. *)
Lemma known_check now u v f : v ∈ mf_pool_a (MapFilter_check now u f).2 \/ v ∈ mf_pool_b (MapFilter_check now u f).2 ->
  v ∈ mf_pool_a f \/ v ∈ mf_pool_b f \/ v = u /\ (MapFilter_check now u f).1 = true.
Proof. unfold MapFilter_check, mf_rotate. destruct (_ <=? _); cbn; destruct (_ && _); cbn; set_solver. Qed.

Lemma known_after f h v : v ∈ mf_pool_a (mf_after f h) \/ v ∈ mf_pool_b (mf_after f h) ->
  v ∈ mf_pool_a f \/ v ∈ mf_pool_b f \/
  exists h1 t h2, h = h1 ++ (t, v) :: h2 /\ verdict f h1 t v = true.
Proof.
  revert f. induction h as [|c h IH]; intros f Hv; [cbn in Hv; tauto|].
  change (mf_after f (c :: h)) with (mf_after (MapFilter_check c.1 c.2 f).2 h) in Hv.
  assert (Hk : v ∈ mf_pool_a (MapFilter_check c.1 c.2 f).2 \/ v ∈ mf_pool_b (MapFilter_check c.1 c.2 f).2 \/
    exists h1 t h2, h = h1 ++ (t, v) :: h2 /\ verdict (MapFilter_check c.1 c.2 f).2 h1 t v = true) by by apply IH.
  destruct Hk as [Hk|[Hk|(h1 & t & h2 & -> & Hver)]].
  - destruct (known_check c.1 c.2 v f (or_introl Hk)) as [?|[?|[-> ?]]]; [tauto|tauto|].
    right. right. exists [], c.1, h. by destruct c.
  - destruct (known_check c.1 c.2 v f (or_intror Hk)) as [?|[?|[-> ?]]]; [tauto|tauto|].
    right. right. exists [], c.1, h. by destruct c.
  - right. right. exists (c :: h1), t, h2. done.
Qed.

(** A value that is not checked does not come back into the current generation, and is
    forgotten at the next change. *)
Lemma absent_check now u v f : u <> v -> v ∉ mf_pool_a f ->
  v ∉ mf_pool_a (MapFilter_check now u f).2 /\
  (v ∉ mf_pool_b f -> v ∉ mf_pool_b (MapFilter_check now u f).2) /\
  (mf_last_clean (MapFilter_check now u f).2 = mf_last_clean f \/ v ∉ mf_pool_b (MapFilter_check now u f).2).
Proof. unfold MapFilter_check, mf_rotate. intros Hu Hv. destruct (_ <=? _); cbn; destruct (_ && _); cbn; set_solver. Qed.

Lemma absent_after f h v : (forall c, In c h -> c.2 <> v) -> v ∉ mf_pool_a f ->
  v ∉ mf_pool_a (mf_after f h) /\ (v ∉ mf_pool_b f -> v ∉ mf_pool_b (mf_after f h)) /\
  (mf_last_clean (mf_after f h) = mf_last_clean f \/ v ∉ mf_pool_b (mf_after f h)).
Proof.
  revert f. induction h as [|c h IH]; intros f Hh Hv; [cbn; tauto|].
  destruct (absent_check c.1 c.2 v f) as (Ha & Hb & Hc); [apply Hh; by left|done|].
  destruct (IH (MapFilter_check c.1 c.2 f).2) as (Ha' & Hb' & Hc'); [intros c' ?; apply Hh; by right|done|].
  change (mf_after f (c :: h)) with (mf_after (MapFilter_check c.1 c.2 f).2 h).
  split; [done|]. split; [auto|]. destruct Hc as [<-|Hc]; [destruct Hc'; auto|auto].
Qed.

(** Without a change of generations the one before it keeps its date. *)
Lemma quiet_after f h v : (forall c, In c h -> c.2 <> v) -> v ∈ mf_pool_a f ->
  (v ∉ mf_pool_a (mf_after f h)) \/ mf_last_clean (mf_after f h) = mf_last_clean f.
Proof.
  revert f. induction h as [|c h IH]; intros f Hh Hv; [by right|].
  change (mf_after f (c :: h)) with (mf_after (MapFilter_check c.1 c.2 f).2 h).
  assert (Hu : c.2 <> v) by (apply Hh; by left).
  assert (Hh' : forall c', In c' h -> c'.2 <> v) by (intros c' ?; apply Hh; by right).
  assert (Hc : v ∈ mf_pool_a (MapFilter_check c.1 c.2 f).2 /\ mf_last_clean (MapFilter_check c.1 c.2 f).2 = mf_last_clean f \/
               (v ∉ mf_pool_a (MapFilter_check c.1 c.2 f).2)).
  { unfold MapFilter_check, mf_rotate. destruct (_ <=? _); cbn; destruct (_ && _); cbn; set_solver. }
  destruct Hc as [[Hc E]|Hc].
  - destruct (IH _ Hh' Hc) as [?|E']; [by left|right; congruence].
  - left. by apply (absent_after _ h v Hh').
Qed.

(** A check an interval or more after the last change leaves what was known before out
    of the current generation. *)
Lemma rotates now u v f : u <> v -> mf_interval f <= now - mf_last_clean f ->
  v ∉ mf_pool_a (MapFilter_check now u f).2.
Proof.
  intros Hu Hi. unfold MapFilter_check, mf_rotate, duration_since.
  destruct (Z.leb_spec (mf_interval f) (Z.max 0 (now - mf_last_clean f))); [|lia]. cbn. destruct (_ && _); cbn; set_solver.
Qed.

Lemma absent_fresh now v f : v ∉ mf_pool_a f ->
  (v ∉ mf_pool_b f) \/ mf_interval f <= now - mf_last_clean f -> (MapFilter_check now v f).1 = true.
Proof.
  intros Ha Hb. unfold MapFilter_check, mf_rotate, duration_since.
  destruct (Z.leb_spec (mf_interval f) (Z.max 0 (now - mf_last_clean f))); cbn;
    (rewrite !bool_decide_false; [done|set_solver by lia|set_solver by lia]).
Qed.

Lemma current_rejected now v f : v ∈ mf_pool_a f -> (MapFilter_check now v f).1 = false.
Proof. intros Hv. unfold MapFilter_check, mf_rotate. destruct (_ <=? _); cbn; by repeat case_bool_decide. Qed.

(** The parts of the window. *)
Lemma accepted_apart f t0 h1 t h2 t' v : mf_last_clean f <= t0 -> clocked t0 (h1 ++ (t, v) :: h2 ++ [(t', v)]) ->
  verdict f h1 t v = true -> verdict f (h1 ++ (t, v) :: h2) t' v = true -> t + mf_interval f <= t'.
Proof.
  intros H0 Hc H1 H2. destruct (Z.le_gt_cases (t + mf_interval f) t') as [?|Hlt]; [done|]. exfalso.
  pose proof (clocked_skip _ _ _ _ Hc) as (Ht & Hc2 & Hb1). pose proof (clocked_skip _ _ _ _ Hc2) as (Ht' & _ & Hb2).
  set (g := mf_after f h1) in *. cbn in Ht, Ht', Hb1, Hb2.
  assert (Hg : mf_last_clean g <= t).
  { apply (after_clean f h1 t0); [done|by eapply clocked_app|done|]. intros c Hin. destruct (Hb1 c Hin). lia. }
  set (g1 := (MapFilter_check t v g).2). assert (Hg1 : mf_last_clean g1 <= t) by by apply check_clean.
  assert (Ei : mf_interval g1 = mf_interval f) by (unfold g1, g; by rewrite check_interval, after_interval).
  assert (Hr : remembers (mf_after g1 h2) v t).
  { apply (remembers_after g1 h2 v t t); [left; by apply accepted_in|lia|done|by eapply clocked_app|].
    intros c Hin. destruct (Hb2 c Hin). rewrite Ei. lia. }
  unfold verdict in H2. rewrite mf_after_app in H2. change (mf_after (mf_after f h1) ((t, v) :: h2)) with (mf_after g1 h2) in H2.
  assert (Hcl : mf_last_clean (mf_after g1 h2) <= t').
  { apply (after_clean g1 h2 t); [done|by eapply clocked_app|done|]. intros c Hin. by destruct (Hb2 c Hin). }
  destruct (remembers_check _ v t t' v Hr Ht' Hcl) as [_ E]; [|congruence].
  rewrite after_interval, Ei. lia.
Qed.

Lemma rejected_known f h t v : verdict f h t v = false -> v ∈ mf_pool_a (mf_after f h) \/ v ∈ mf_pool_b (mf_after f h).
Proof.
  intros Hv. unfold verdict, MapFilter_check, mf_rotate in Hv. destruct (_ <=? _) in Hv; cbn in Hv;
    destruct (decide (v ∈ mf_pool_a (mf_after f h))); [by left| |by left|];
    destruct (decide (v ∈ mf_pool_b (mf_after f h))); try (by right);
    rewrite !bool_decide_false in Hv by set_solver; done.
Qed.

Lemma forgotten f t0 h1 t h2 m u h3 t' v : mf_last_clean f <= t0 ->
  clocked t0 (h1 ++ (t, v) :: h2 ++ (m, u) :: h3 ++ [(t', v)]) ->
  verdict f h1 t v = true -> (forall c, In c (h2 ++ (m, u) :: h3) -> c.2 <> v) ->
  t + mf_interval f <= m -> m + mf_interval f <= t' ->
  verdict f (h1 ++ (t, v) :: h2 ++ (m, u) :: h3) t' v = true.
Proof.
  intros H0 Hc H1 Hq Hm Ht'. pose proof (clocked_skip _ _ _ _ Hc) as (Ht & Hc2 & Hb1).
  pose proof (clocked_skip _ _ _ _ Hc2) as (Htm & _ & Hb2). cbn in Ht, Htm, Hb1, Hb2.
  set (g1 := (MapFilter_check t v (mf_after f h1)).2). set (g2 := mf_after g1 h2). set (g3 := (MapFilter_check m u g2).2).
  assert (Ei : mf_interval g2 = mf_interval f) by (unfold g2, g1; by rewrite after_interval, check_interval, after_interval).
  assert (Hg1 : mf_last_clean g1 <= t).
  { apply check_clean, (after_clean f h1 t0); [done|by eapply clocked_app|done|]. intros c Hin. destruct (Hb1 c Hin). lia. }
  assert (Hg2 : mf_last_clean g2 <= m).
  { apply (after_clean g1 h2 t); [done|by eapply clocked_app|done|]. intros c Hin. destruct (Hb2 c Hin). lia. }
  assert (Hu : u <> v) by (apply (Hq (m, u)), in_or_app; right; by left).
  assert (Hg3 : v ∉ mf_pool_a g3).
  { destruct (quiet_after g1 h2 v) as [Ha|E]; [intros c Hin; apply Hq, in_or_app; by left|by apply accepted_in| |].
    - by apply (absent_check m u v g2).
    - apply rotates; [done|]. fold g2 in E. rewrite Ei, E. lia. }
  destruct (absent_after g3 h3 v) as (Ha & _ & Hb); [intros c Hin; apply Hq, in_or_app; right; by right|done|].
  assert (Hg3c : mf_last_clean g3 <= m) by by apply check_clean.
  unfold verdict. rewrite mf_after_app.
  change (mf_after (mf_after f h1) ((t, v) :: ?h)) with (mf_after g1 h). rewrite mf_after_app.
  change (mf_after (mf_after g1 h2) ((m, u) :: h3)) with (mf_after g3 h3).
  apply absent_fresh; [done|]. destruct Hb as [E|Hb]; [right|by left].
  rewrite after_interval. unfold g3 at 1. rewrite check_interval, Ei. lia.
Qed.

(** C7: the replay window.  From a new filter and over any checks with a clock that does
    not go back: a value accepted twice was accepted at least an interval apart; a
    rejected value was accepted before; and a value accepted at [t], not checked since,
    is accepted again once a check has been made an interval or more after [t] and
    another interval has passed; without such a check in between it is still rejected,
    however late. *)
Theorem replay_window t0 secs :
  let f := MapFilter_new t0 secs in
  let interval := secs * SECOND in
  (forall h1 t h2 t' v, clocked t0 (h1 ++ (t, v) :: h2 ++ [(t', v)]) ->
     verdict f h1 t v = true -> verdict f (h1 ++ (t, v) :: h2) t' v = true -> t + interval <= t') /\
  (forall h t v, verdict f h t v = false -> exists h1 t1 h2, h = h1 ++ (t1, v) :: h2 /\ verdict f h1 t1 v = true) /\
  (forall h1 t h2 m u h3 t' v, clocked t0 (h1 ++ (t, v) :: h2 ++ (m, u) :: h3 ++ [(t', v)]) ->
     verdict f h1 t v = true -> (forall c, In c (h2 ++ (m, u) :: h3) -> c.2 <> v) ->
     t + interval <= m -> m + interval <= t' ->
     verdict f (h1 ++ (t, v) :: h2 ++ (m, u) :: h3) t' v = true) /\
  (forall h1 t t' v, verdict f h1 t v = true -> verdict f (h1 ++ [(t, v)]) t' v = false).
Proof.
  split; [|split; [|split]].
  - intros h1 t h2 t' v. by apply accepted_apart.
  - intros h t v Hv%rejected_known. apply known_after in Hv as [Hk|[Hk|Hk]]; [cbn in Hk; set_solver..|done].
  - intros h1 t h2 m u h3 t' v. by apply forgotten.
  - intros h1 t t' v Ha%accepted_in. unfold verdict. rewrite mf_after_app.
    change (mf_after (mf_after ?f h1) [(t, v)]) with (MapFilter_check t v (mf_after f h1)).2. by apply current_rejected.
Qed.
End window.
