(* ===== verification/UploadQueue.v ===== *)
(** [xray-transport-splithttp/src/upload_queue.rs]: the queue that puts the packets of an
    upload, which arrive in any order, back into one byte stream.

    The channel is the list of the packets sent and not yet received.  The heap
    is the list of its elements in the order they were pushed; of equal sequence numbers
    the one pushed first is popped first.  There is one reader, and a turn of the loop of
    [read] is one step (between popping a packet and storing it the code releases the
    lock and takes it again); [RdWait] is where it awaits a notification. *)
From Stdlib Require Import List.
From stdpp Require Import base tactics option list numbers.
From S2P Require Import Prelude Bytes.

Record Packet : Type := mkPacket { pk_payload : bytes; pk_seq : Z }.

Definition Packet_new (payload : bytes) (seq : Z) : Packet := mkPacket payload seq.

(** * The heap: [BinaryHeap<BySeq>] *)

(** The element a pop returns: the first of the least sequence numbers. *)
Fixpoint heap_peek (h : list Packet) : option Packet :=
  match h with
  | [] => None
  | p :: h =>
      match heap_peek h with
      | Some q => if pk_seq p <=? pk_seq q then Some p else Some q
      | None => Some p
      end
  end.

(** The heap without that element. *)
Fixpoint heap_rest (h : list Packet) : list Packet :=
  match h with
  | [] => []
  | p :: h =>
      match heap_peek h with
      | Some q => if pk_seq p <=? pk_seq q then h else p :: heap_rest h
      | None => h
      end
  end.

(** * The queue *)

Inductive SplitHttpError : Type :=
| QueueClosed
| PacketQueueTooLarge (max current : Z).

Record UploadQueue : Type := mkUploadQueue {
  uq_heap : list Packet;
  uq_pushed : option (list Packet);
  uq_next_seq : Z;
  uq_current : option Packet;
  uq_closed : bool;
  uq_max_packets : Z;
}.

Definition UploadQueue_new (max_packets : Z) : UploadQueue := mkUploadQueue [] (Some []) 0 None false max_packets.

Definition uq_set_heap (h : list Packet) (q : UploadQueue) : UploadQueue :=
  mkUploadQueue h (uq_pushed q) (uq_next_seq q) (uq_current q) (uq_closed q) (uq_max_packets q).
Definition uq_set_pushed (c : option (list Packet)) (q : UploadQueue) : UploadQueue :=
  mkUploadQueue (uq_heap q) c (uq_next_seq q) (uq_current q) (uq_closed q) (uq_max_packets q).
Definition uq_set_current (c : option Packet) (q : UploadQueue) : UploadQueue :=
  mkUploadQueue (uq_heap q) (uq_pushed q) (uq_next_seq q) c (uq_closed q) (uq_max_packets q).
Definition uq_set_next (n : Z) (q : UploadQueue) : UploadQueue :=
  mkUploadQueue (uq_heap q) (uq_pushed q) n (uq_current q) (uq_closed q) (uq_max_packets q).
Definition uq_set_closed (q : UploadQueue) : UploadQueue :=
  mkUploadQueue (uq_heap q) None (uq_next_seq q) (uq_current q) true (uq_max_packets q).

Definition CHANNEL_CAPACITY : Z := 64.

(** [push]; [None] is a sender that waits for room in the channel. *)
Definition UploadQueue_push (packet : Packet) (q : UploadQueue) : option (result SplitHttpError unit * UploadQueue) :=
  match uq_pushed q with
  | None => Some (Err QueueClosed, q)
  | Some chan =>
      if zlen chan <? CHANNEL_CAPACITY then Some (Ok tt, uq_set_pushed (Some (chan ++ [packet])) q) else None
  end.

(** The second loop of [close]. *)
Fixpoint close_place (drained : list Packet) (q : UploadQueue) : UploadQueue :=
  match drained with
  | [] => q
  | p :: drained =>
      close_place drained
        (if (pk_seq p =? uq_next_seq q) && bool_decide (uq_current q = None)
         then uq_set_current (Some p) q else uq_set_heap (uq_heap q ++ [p]) q)
  end.

Definition UploadQueue_close (q : UploadQueue) : UploadQueue :=
  uq_set_closed (close_place (default [] (uq_pushed q)) q).

(** How a turn of [read] ends. *)
Inductive ReadTurn : Type :=
| RdReturn (r : result SplitHttpError bytes)
| RdContinue
| RdWait.

(** Part 1: bytes of the current packet; the bytes copied to [dst] are returned. *)
Definition take_current (dst_len : Z) (packet : Packet) (q : UploadQueue) : bytes * UploadQueue :=
  let n := Z.min dst_len (zlen (pk_payload packet)) in
  let q := uq_set_current None q in
  (ztake n (pk_payload packet),
   if n <? zlen (pk_payload packet)
   then uq_set_current (Some (mkPacket (zdrop n (pk_payload packet)) (pk_seq packet))) q
   else uq_set_next ((uq_next_seq q + 1) mod 2 ^ 64) q).

(** Part 3: a packet off the channel. *)
Definition pull (q : UploadQueue) : ReadTurn * UploadQueue :=
  match uq_pushed q with
  | None => (RdReturn (Ok []), q)
  | Some [] => if uq_closed q then (RdContinue, q) else (RdWait, q)
  | Some (packet :: chan) =>
      let q := uq_set_pushed (Some chan) q in
      if pk_seq packet =? uq_next_seq q then (RdContinue, uq_set_current (Some packet) q)
      else if pk_seq packet <? uq_next_seq q then (RdContinue, q)
      else
        let q := uq_set_heap (uq_heap q ++ [packet]) q in
        if uq_max_packets q <? zlen (uq_heap q)
        then (RdReturn (Err (PacketQueueTooLarge (uq_max_packets q) (zlen (uq_heap q)))), q)
        else (RdContinue, q)
  end.

Definition read_turn (dst_len : Z) (q : UploadQueue) : ReadTurn * UploadQueue :=
  match uq_current q with
  | Some packet => let '(out, q) := take_current dst_len packet q in (RdReturn (Ok out), q)
  | None =>
      match heap_peek (uq_heap q) with
      | Some top =>
          if pk_seq top =? uq_next_seq q
          then (RdContinue, uq_set_current (Some top) (uq_set_heap (heap_rest (uq_heap q)) q))
          else if uq_max_packets q <? zlen (uq_heap q)
          then (RdReturn (Err (PacketQueueTooLarge (uq_max_packets q) (zlen (uq_heap q)))), q)
          else pull q
      | None => pull q
      end
  end.

(** [read] until it returns or waits; [None]: the fuel ran out. *)
Fixpoint read_loop_uq (fuel : nat) (dst_len : Z) (q : UploadQueue)
    : option (option (result SplitHttpError bytes) * UploadQueue) :=
  match fuel with
  | O => None
  | S fuel =>
      match read_turn dst_len q with
      | (RdReturn r, q) => Some (Some r, q)
      | (RdContinue, q) => read_loop_uq fuel dst_len q
      | (RdWait, q) => Some (None, q)
      end
  end.

(** Every turn but the last two takes a packet off the channel. *)
Definition UploadQueue_read (dst_len : Z) (q : UploadQueue)
    : option (option (result SplitHttpError bytes) * UploadQueue) :=
  read_loop_uq (length (default [] (uq_pushed q)) + 2) dst_len q.
