(* ===== verification/UploadQueueProps.v ===== *)
(** The upload queue: in-order, exactly-once delivery whatever arrives, completeness when
    no packet is repeated, and what a repeated packet does. *)
From Stdlib Require Import List.
From stdpp Require Import base tactics option list numbers sorting.
From S2P Require Import Prelude Bytes UploadQueue.

(** * The heap *)

Lemma heap_peek_cons p h : exists q, heap_peek (p :: h) = Some q.
Proof. cbn. destruct (heap_peek h) as [q|]; [destruct (_ <=? _)|]; eauto. Qed.

Lemma heap_peek_spec h : match heap_peek h with
  | Some q => h ≡ₚ q :: heap_rest h /\ Forall (fun p => pk_seq q <= pk_seq p) h
  | None => h = []
  end.
Proof.
  induction h as [|p h IH]; cbn [heap_peek heap_rest]; [done|].
  destruct (heap_peek h) as [q|]; [|subst h; split; [done|by repeat constructor; lia]].
  destruct IH as [IH Hm]. destruct (Z.leb_spec (pk_seq p) (pk_seq q)).
  - split; [done|]. constructor; [lia|]. apply (Forall_impl _ _ _ Hm). cbn. intros; lia.
  - split; [|constructor; [lia|done]]. rewrite IH at 1. apply Permutation_swap.
Qed.

Section queue.
Implicit Types (q : UploadQueue) (p : Packet).

(** [data s]: the payload of the packet numbered [s], the same however often it is sent. *)
Variable data : Z -> bytes.

Definition genuine p : Prop := pk_payload p = data (pk_seq p) /\ 0 <= pk_seq p < 2 ^ 64 - 1.

(** The first [n] payloads. *)
Definition upto (n : Z) : bytes := concat (map (fun i => data (Z.of_nat i)) (seq 0 (Z.to_nat n))).

Lemma upto_S n : 0 <= n -> upto (n + 1) = upto n ++ data n.
Proof.
  intros Hn. unfold upto. replace (Z.to_nat (n + 1)) with (S (Z.to_nat n)) by lia.
  rewrite seq_S, map_app, concat_app. cbn. rewrite app_nil_r. do 3 f_equal. lia.
Qed.

Definition turn_out (t : ReadTurn) : bytes := match t with RdReturn (Ok out) => out | _ => [] end.

(** [uq_reach q out ps]: the queue after pushes, a close and turns of [read] in any order
    has returned [out] and accepted the packets [ps]. *)
Inductive uq_reach (max : Z) : UploadQueue -> bytes -> list Packet -> Prop :=
| UqNew : uq_reach max (UploadQueue_new max) [] []
| UqPush q out ps p q' : uq_reach max q out ps -> genuine p ->
    UploadQueue_push p q = Some (Ok tt, q') -> uq_reach max q' out (ps ++ [p])
| UqRefused q out ps p q' e : uq_reach max q out ps ->
    UploadQueue_push p q = Some (Err e, q') -> uq_reach max q' out ps
| UqClose q out ps : uq_reach max q out ps -> uq_reach max (UploadQueue_close q) out ps
| UqTurn q out ps n t q' : uq_reach max q out ps -> 0 <= n ->
    read_turn n q = (t, q') -> uq_reach max q' (out ++ turn_out t) ps.

Definition uq_chan q : list Packet := default [] (uq_pushed q).
Definition uq_waiting q : list Packet := uq_heap q ++ uq_chan q.

(** * Order *)

Record uq_inv q (out : bytes) : Prop := {
  uqi_genuine : Forall genuine (uq_waiting q);
  uqi_next : 0 <= uq_next_seq q <= 2 ^ 64 - 1;
  uqi_closed : uq_closed q = true -> uq_pushed q = None;
  uqi_out : match uq_current q with
            | None => out = upto (uq_next_seq q)
            | Some c => pk_seq c = uq_next_seq q /\ uq_next_seq q < 2 ^ 64 - 1 /\
                exists k, 0 <= k <= zlen (data (uq_next_seq q)) /\
                  out = upto (uq_next_seq q) ++ ztake k (data (uq_next_seq q)) /\
                  pk_payload c = zdrop k (data (uq_next_seq q))
            end;
}.

(** Making a packet with the next number the current one. *)
Lemma fresh_current q out p : genuine p -> pk_seq p = uq_next_seq q -> out = upto (uq_next_seq q) ->
  pk_seq p = uq_next_seq q /\ uq_next_seq q < 2 ^ 64 - 1 /\
  exists k, 0 <= k <= zlen (data (uq_next_seq q)) /\ out = upto (uq_next_seq q) ++ ztake k (data (uq_next_seq q)) /\
    pk_payload p = zdrop k (data (uq_next_seq q)).
Proof.
  intros [Hd Hr] <- ->. split; [done|]. split; [lia|]. exists 0. pose proof (zlen_nonneg (data (pk_seq p))).
  rewrite ztake_le0, zdrop_le0, app_nil_r by lia. split_and!; [lia|lia|done|done].
Qed.

Lemma uq_push_inv q out p q' r : uq_inv q out -> genuine p -> UploadQueue_push p q = Some (r, q') -> uq_inv q' out.
Proof.
  intros [Hg Hn Hc Ho] Hp Hpush. unfold UploadQueue_push in Hpush.
  destruct (uq_pushed q) as [chan|] eqn:E; [|by simplify_eq]. destruct (_ <? _); [|done]. simplify_eq.
  split; try done; cbn; [|by intros H%Hc]. unfold uq_waiting, uq_chan in *. rewrite E in Hg. cbn in *.
  rewrite app_assoc. apply Forall_app. split; [done|by apply Forall_singleton].
Qed.

Lemma close_place_inv drained q out : uq_inv q out -> Forall genuine drained ->
  uq_inv (close_place drained q) out.
Proof.
  revert q. induction drained as [|p drained IH]; intros q Hq Hd; cbn [close_place]; [done|].
  inversion_clear Hd as [|? ? Hp Hd']. apply IH; [|done]. destruct Hq as [Hg Hn Hc Ho].
  destruct (Z.eqb_spec (pk_seq p) (uq_next_seq q)) as [Es|]; cbn [andb].
  - destruct (bool_decide (uq_current q = None)) eqn:Eb.
    + apply bool_decide_eq_true in Eb. rewrite Eb in Ho. split; try done. by apply (fresh_current q).
    + split; try done. cbn. unfold uq_waiting, uq_chan in *. cbn. rewrite !Forall_app in *. rewrite Forall_singleton. tauto.
  - split; try done. cbn. unfold uq_waiting, uq_chan in *. cbn. rewrite !Forall_app in *. rewrite Forall_singleton. tauto.
Qed.

Lemma close_inv q out : uq_inv q out -> uq_inv (UploadQueue_close q) out.
Proof.
  intros Hq. pose proof Hq as [Hg _ _ _]. unfold uq_waiting, uq_chan in Hg. apply Forall_app in Hg as [_ Hg].
  apply (close_place_inv (default [] (uq_pushed q))) in Hq; [|done]. unfold UploadQueue_close.
  destruct Hq as [Hg' Hn Hc Ho]. split; try done. cbn. unfold uq_waiting in *. cbn.
  apply Forall_app in Hg' as [? _]. by apply Forall_app.
Qed.

Lemma take_current_inv n q out c : 0 <= n -> uq_inv q out -> uq_current q = Some c ->
  uq_inv (take_current n c q).2 (out ++ (take_current n c q).1).
Proof.
  intros Hn [Hg Hx Hc Ho] Ec. rewrite Ec in Ho. destruct Ho as (Es & Hlt & k & Hk & -> & Ep).
  unfold take_current. cbn [fst snd]. rewrite Ep. set (d := data (uq_next_seq q)) in *.
  assert (Hl : zlen (zdrop k d) = zlen d - k) by zlia. rewrite Hl.
  remember (Z.min n (zlen d - k)) as m eqn:Em. assert (Hm : 0 <= m) by lia.
  assert (Hout : (upto (uq_next_seq q) ++ ztake k d) ++ ztake m (zdrop k d) = upto (uq_next_seq q) ++ ztake (k + m) d).
  { rewrite <- app_assoc. f_equal. assert (Hk' : zlen (ztake k d) = k) by zlia.
    transitivity (ztake (k + m) (ztake k d ++ zdrop k d)); [|by rewrite ztake_drop].
    rewrite ztake_app_ge by lia. do 2 f_equal. lia. }
  rewrite Hout. destruct (Z.ltb_spec m (zlen d - k)).
  - split; try done. cbn. fold d. split; [done|]. split; [done|]. exists (k + m). split; [lia|]. split; [done|].
    by rewrite zdrop_drop by lia.
  - assert (E : (uq_next_seq q + 1) mod 2 ^ 64 = uq_next_seq q + 1) by (apply Z.mod_small; lia).
    split; try done; cbn; rewrite E; [lia|].
    rewrite upto_S, ztake_ge by lia. done.
Qed.

Lemma pull_inv q out : uq_inv q out -> uq_current q = None ->
  uq_inv (pull q).2 (out ++ turn_out (pull q).1).
Proof.
  intros Hq Ec. pose proof Hq as [Hg Hn Hc Ho]. unfold pull.
  destruct (uq_pushed q) as [[|p chan]|] eqn:E; [destruct (uq_closed q); by rewrite app_nil_r| |by rewrite app_nil_r].
  rewrite Ec in Ho. unfold uq_waiting, uq_chan in Hg. rewrite E in Hg. cbn in Hg.
  apply Forall_app in Hg as [Hh Hg]. inversion_clear Hg as [|? ? Hp Hch]. cbn [uq_set_pushed uq_next_seq].
  assert (Hcl : uq_closed q = true -> Some chan = None) by (intros H%Hc; congruence).
  destruct (Z.eqb_spec (pk_seq p) (uq_next_seq q)) as [Es|Es].
  - cbn [fst snd turn_out]. rewrite app_nil_r. split; try done; [by apply Forall_app|]. by apply (fresh_current q).
  - destruct (Z.ltb_spec (pk_seq p) (uq_next_seq q)); [|match goal with |- context [if ?b then _ else _] => destruct b end];
      cbn [fst snd turn_out]; rewrite app_nil_r; (split; [|done|done|cbn; by rewrite Ec]);
      unfold uq_waiting, uq_chan; cbn; rewrite ?Forall_app, ?Forall_singleton; tauto.
Qed.

Lemma read_turn_inv n q out : 0 <= n -> uq_inv q out ->
  uq_inv (read_turn n q).2 (out ++ turn_out (read_turn n q).1).
Proof.
  intros Hn Hq. unfold read_turn. destruct (uq_current q) as [c|] eqn:Ec.
  - pose proof (take_current_inv n q out c Hn Hq Ec). by destruct (take_current n c q).
  - pose proof (pull_inv q out Hq Ec) as Hpl. pose proof (heap_peek_spec (uq_heap q)) as Hpk.
    destruct (heap_peek (uq_heap q)) as [top|]; [|done]. destruct Hpk as [Hperm _].
    destruct (Z.eqb_spec (pk_seq top) (uq_next_seq q)) as [Es|_].
    + destruct Hq as [Hg Hx Hc Ho]. rewrite Ec in Ho. cbn [fst snd turn_out]. rewrite app_nil_r.
      unfold uq_waiting in Hg. rewrite Hperm in Hg. cbn in Hg. inversion_clear Hg as [|? ? Hp Hg'].
      split; try done. by apply (fresh_current q).
    + destruct (_ <? _); [cbn; by rewrite app_nil_r|done].
Qed.

Lemma reach_inv max q out ps : uq_reach max q out ps -> uq_inv q out.
Proof.
  induction 1 as [|q out ps p q' _ IH Hg Hp|q out ps p q' e _ IH Hp|q out ps _ IH|q out ps n t q' _ IH Hn Ht].
  - by split; cbn; try done; lia.
  - by eapply uq_push_inv.
  - unfold UploadQueue_push in Hp. destruct (uq_pushed q); [by destruct (_ <? _)|by simplify_eq].
  - by apply close_inv.
  - pose proof (read_turn_inv n q out Hn IH) as H. by rewrite Ht in H.
Qed.

(** C5: the upload is delivered in order and exactly once: whatever packets arrive, in any
    order and however often each is repeated, interleaved in any way with the reads and
    the closing, the bytes returned so far are the payloads of all the packets before
    [next_seq], in order, and the part of the next one that has been read. *)
Theorem upload_in_order max q out ps : uq_reach max q out ps ->
  0 <= uq_next_seq q /\
  exists k, out = upto (uq_next_seq q) ++ ztake k (data (uq_next_seq q)) /\
    (uq_current q = None -> out = upto (uq_next_seq q)).
Proof.
  intros [_ Hn _ Ho]%reach_inv. split; [lia|]. destruct (uq_current q) as [c|].
  - destruct Ho as (_ & _ & k & _ & -> & _). by exists k.
  - exists 0. by rewrite ztake_le0, app_nil_r by lia.
Qed.

(** * Completeness *)

(** Every packet accepted once is read, being read, or waiting. *)
Definition uq_numbers q : list Z :=
  seqZ 0 (uq_next_seq q) ++ map pk_seq (option_list (uq_current q)) ++ map pk_seq (uq_waiting q).

Record uq_acc q (ps : list Packet) : Prop := {
  uqa_perm : map pk_seq ps ≡ₚ uq_numbers q;
  uqa_nonempty : Forall (fun p => pk_payload p <> []) (option_list (uq_current q) ++ uq_waiting q);
}.

Definition distinct (ps : list Packet) : Prop := NoDup (map pk_seq ps) /\ Forall (fun p => pk_payload p <> []) ps.

Lemma distinct_prefix ps p : distinct (ps ++ [p]) -> distinct ps /\ pk_payload p <> [].
Proof.
  unfold distinct. rewrite map_app, Forall_app, Forall_singleton. intros [Hn [? ?]].
  apply NoDup_app in Hn as [? _]. done.
Qed.

Lemma waiting_not_stale q ps p : uq_acc q ps -> distinct ps -> In p (uq_waiting q) -> 0 <= pk_seq p ->
  uq_next_seq q <= pk_seq p.
Proof.
  intros [Hp _] [Hn _] Hin H0. destruct (Z.le_gt_cases (uq_next_seq q) (pk_seq p)) as [?|Hlt]; [done|].
  rewrite Hp in Hn. unfold uq_numbers in Hn. apply NoDup_app in Hn as (_ & Hd & _). exfalso.
  apply (Hd (pk_seq p)); [apply elem_of_seqZ; lia|]. apply elem_of_app. right. apply list_elem_of_fmap.
  exists p. split; [done|]. by apply list_elem_of_In.
Qed.

(** Moving packets between the heap, the channel and the current place. *)
Lemma acc_moved q q' ps : uq_acc q ps -> uq_next_seq q' = uq_next_seq q ->
  option_list (uq_current q') ++ uq_waiting q' ≡ₚ option_list (uq_current q) ++ uq_waiting q -> uq_acc q' ps.
Proof.
  intros [Hp He] En Hm. split; [|by rewrite Hm].
  rewrite Hp. unfold uq_numbers. rewrite En, <- !map_app, Hm. done.
Qed.

Lemma close_place_moved drained q :
  uq_next_seq (close_place drained q) = uq_next_seq q /\
  option_list (uq_current (close_place drained q)) ++ uq_heap (close_place drained q) ≡ₚ
    option_list (uq_current q) ++ uq_heap q ++ drained.
Proof.
  revert q. induction drained as [|p drained IH]; intros q; cbn [close_place]; [by rewrite app_nil_r|].
  destruct (_ && _) eqn:E.
  - apply andb_true_iff in E as [_ E]. apply bool_decide_eq_true in E.
    destruct (IH (uq_set_current (Some p) q)) as [-> ->]. split; [done|]. rewrite E. cbn. apply Permutation_middle.
  - destruct (IH (uq_set_heap (uq_heap q ++ [p]) q)) as [-> ->]. split; [done|]. cbn. by rewrite <- app_assoc.
Qed.

Lemma close_acc q ps : uq_acc q ps -> uq_acc (UploadQueue_close q) ps.
Proof.
  intros Hq. destruct (close_place_moved (default [] (uq_pushed q)) q) as [En Hm].
  apply (acc_moved q); [done|done|]. unfold uq_waiting, uq_chan. cbn. by rewrite app_nil_r.
Qed.

Lemma push_acc q ps p q' : uq_acc q ps -> pk_payload p <> [] -> UploadQueue_push p q = Some (Ok tt, q') ->
  uq_acc q' (ps ++ [p]).
Proof.
  intros [Hp He] Hne Hpush. unfold UploadQueue_push in Hpush. destruct (uq_pushed q) as [chan|] eqn:E; [|by simplify_eq].
  destruct (_ <? _); [|done]. simplify_eq. unfold uq_numbers, uq_waiting, uq_chan in *. rewrite E in *. cbn in *.
  split; cbn; unfold uq_numbers, uq_waiting, uq_chan; cbn.
  - rewrite map_app, Hp, !map_app, <- !app_assoc. done.
  - rewrite !app_assoc, Forall_app, Forall_singleton. rewrite !app_assoc in He. done.
Qed.

Lemma take_current_acc n q out c ps : 0 <= n -> uq_inv q out -> uq_current q = Some c -> uq_acc q ps ->
  uq_acc (take_current n c q).2 ps.
Proof.
  intros Hn [_ Hx _ Ho] Ec [Hp He]. rewrite Ec in *. destruct Ho as (Es & Hlt & _).
  unfold take_current. cbn [snd]. destruct (Z.ltb_spec (Z.min n (zlen (pk_payload c))) (zlen (pk_payload c))).
  - split; [rewrite Hp; unfold uq_numbers; cbn; by rewrite Ec|]. cbn in *. inversion_clear He. constructor; [|done].
    cbn. intros E. apply (f_equal zlen) in E. zlens. zlen_facts. lia.
  - assert (E : (uq_next_seq q + 1) mod 2 ^ 64 = uq_next_seq q + 1) by (apply Z.mod_small; lia).
    split; [|by inversion_clear He]. rewrite Hp. unfold uq_numbers. cbn. rewrite E, Ec. cbn.
    rewrite (seqZ_app 0 (uq_next_seq q) 1) by lia. cbn. rewrite <- app_assoc. cbn. by rewrite Es.
Qed.

Lemma pull_acc q out ps : uq_inv q out -> uq_current q = None -> uq_acc q ps -> distinct ps -> uq_acc (pull q).2 ps.
Proof.
  intros [Hg _ _ _] Ec Hq Hd. unfold pull. destruct (uq_pushed q) as [[|p chan]|] eqn:E; [by destruct (uq_closed q)| |done].
  assert (Hin : In p (uq_waiting q)) by (unfold uq_waiting, uq_chan; rewrite E; apply in_or_app; right; by left).
  assert (Hr : 0 <= pk_seq p).
  { rewrite List.Forall_forall in Hg. destruct (Hg p Hin). lia. }
  pose proof (waiting_not_stale q ps p Hq Hd Hin Hr) as Hst.
  cbn [uq_set_pushed uq_next_seq]. destruct (Z.eqb_spec (pk_seq p) (uq_next_seq q)) as [Es|_].
  - apply (acc_moved q); [done|done|]. unfold uq_waiting, uq_chan. rewrite E, Ec. cbn. apply Permutation_middle.
  - destruct (Z.ltb_spec (pk_seq p) (uq_next_seq q)); [lia|].
    match goal with |- context [if ?b then _ else _] => destruct b end; cbn [snd];
      (apply (acc_moved q); [done|done|]); unfold uq_waiting, uq_chan; rewrite E; cbn; by rewrite <- app_assoc.
Qed.

Lemma read_turn_acc n q out ps : 0 <= n -> uq_inv q out -> uq_acc q ps -> distinct ps -> uq_acc (read_turn n q).2 ps.
Proof.
  intros Hn Hi Hq Hd. unfold read_turn. destruct (uq_current q) as [c|] eqn:Ec.
  - pose proof (take_current_acc n q out c ps Hn Hi Ec Hq). by destruct (take_current n c q).
  - pose proof (pull_acc q out ps Hi Ec Hq Hd). pose proof (heap_peek_spec (uq_heap q)) as Hpk.
    destruct (heap_peek (uq_heap q)) as [top|]; [|done]. destruct Hpk as [Hperm _].
    destruct (Z.eqb_spec (pk_seq top) (uq_next_seq q)) as [Es|_]; [|by destruct (_ <? _)].
    apply (acc_moved q); [done|done|]. unfold uq_waiting, uq_chan. rewrite Ec. cbn. by rewrite Hperm at 2.
Qed.

Lemma reach_acc max q out ps : uq_reach max q out ps -> distinct ps -> uq_acc q ps.
Proof.
  induction 1 as [|q out ps p q' Hr IH Hg Hp|q out ps p q' e _ IH Hp|q out ps _ IH|q out ps n t q' Hr IH Hn Ht]; intros Hd.
  - by split.
  - destruct (distinct_prefix _ _ Hd). apply (push_acc q); auto.
  - unfold UploadQueue_push in Hp. destruct (uq_pushed q); [by destruct (_ <? _)|simplify_eq; auto].
  - by apply close_acc, IH.
  - pose proof (read_turn_acc n q out ps Hn (reach_inv _ _ _ _ Hr) (IH Hd) Hd) as H. by rewrite Ht in H.
Qed.

(** * The loop of [read] *)

Definition fuel_enough q (fuel : nat) : Prop :=
  match uq_current q with Some _ => (1 <= fuel)%nat | None => (length (uq_chan q) + 2 <= fuel)%nat end.

Lemma turn_progress n q out q' : uq_inv q out -> read_turn n q = (RdContinue, q') ->
  forall fuel, fuel_enough q (S fuel) -> fuel_enough q' fuel.
Proof.
  intros [_ _ Hc _] Ht fuel. unfold fuel_enough, read_turn in *. destruct (uq_current q) as [c|] eqn:Ec.
  { by destruct (take_current n c q). }
  assert (Hpull : forall q', pull q = (RdContinue, q') -> (length (uq_chan q) + 2 <= S fuel)%nat ->
    match uq_current q' with Some _ => (1 <= fuel)%nat | None => (length (uq_chan q') + 2 <= fuel)%nat end).
  { unfold pull, uq_chan. clear Ht q'. intros q' Ht Hf.
    destruct (uq_pushed q) as [[|p chan]|] eqn:E; [destruct (uq_closed q) eqn:Ecl; [by specialize (Hc eq_refl)|done]| |done].
    cbn [uq_set_pushed uq_next_seq default] in *. unfold id in Hf. cbn [length] in Hf.
    destruct (_ =? _); [simplify_eq; cbn; lia|]. destruct (_ <? _); [simplify_eq; cbn; rewrite Ec; lia|].
    match type of Ht with context [if ?b then _ else _] => destruct b end; [done|]. simplify_eq. cbn. rewrite Ec. lia. }
  destruct (heap_peek (uq_heap q)) as [top|]; [|by apply Hpull].
  destruct (_ =? _); [simplify_eq; cbn; lia|]. destruct (_ <? _); [done|by apply Hpull].
Qed.

(** The loop ends, by a last turn from a reachable state. *)
Lemma read_loop_ends max fuel n q out ps : uq_reach max q out ps -> 0 <= n -> fuel_enough q fuel ->
  exists q1 t q', uq_reach max q1 out ps /\ read_turn n q1 = (t, q') /\
    match t with
    | RdReturn r => read_loop_uq fuel n q = Some (Some r, q')
    | RdWait => read_loop_uq fuel n q = Some (None, q')
    | RdContinue => False
    end.
Proof.
  revert q. induction fuel as [|fuel IH]; intros q Hr Hn Hf.
  { unfold fuel_enough in Hf. destruct (uq_current q); lia. }
  destruct (read_turn n q) as [t q'] eqn:Et. destruct t.
  - exists q, (RdReturn r), q'. cbn [read_loop_uq]. by rewrite Et.
  - assert (Hr' : uq_reach max q' out ps).
    { pose proof (UqTurn max q out ps n RdContinue q' Hr Hn Et) as H. cbn in H. by rewrite app_nil_r in H. }
    destruct (IH q' Hr' Hn) as (q1 & t & q2 & H1 & H2 & H3).
    { by eapply (turn_progress n q out q' (reach_inv _ _ _ _ Hr) Et). }
    exists q1, t, q2. cbn [read_loop_uq]. by rewrite Et.
  - exists q, RdWait, q'. cbn [read_loop_uq]. by rewrite Et.
Qed.

(** The next packet is not in the heap. *)
Definition gap q : Prop := match heap_peek (uq_heap q) with Some top => pk_seq top <> uq_next_seq q | None => True end.

Lemma gap_not_in_heap q out ps : uq_inv q out -> uq_acc q ps -> distinct ps -> gap q ->
  uq_next_seq q ∉ map pk_seq (uq_heap q).
Proof.
  intros [Hg _ _ _] Ha Hd Hgap. unfold gap in Hgap. pose proof (heap_peek_spec (uq_heap q)) as Hpk.
  destruct (heap_peek (uq_heap q)) as [top|]; [|rewrite Hpk; by intros ?%not_elem_of_nil]. destruct Hpk as [Hperm Hmin].
  assert (Ht : uq_next_seq q <= pk_seq top).
  { assert (Hin : In top (uq_waiting q)).
    { apply list_elem_of_In. unfold uq_waiting. rewrite Hperm. apply elem_of_app. left. left. }
    rewrite List.Forall_forall in Hg. apply (waiting_not_stale q ps); try done. destruct (Hg top Hin). lia. }
  intros (p & E & Hin)%list_elem_of_fmap. rewrite List.Forall_forall in Hmin.
  specialize (Hmin p (proj1 (list_elem_of_In _ _) Hin)). cbn in Hmin. lia.
Qed.

(** With nothing in the channel either, the next packet was never accepted. *)
Lemma gap_not_accepted q out ps : uq_inv q out -> uq_acc q ps -> distinct ps -> uq_current q = None -> gap q ->
  uq_chan q = [] ->
  out = upto (uq_next_seq q) /\ (uq_next_seq q ∉ map pk_seq ps) /\
  (forall i, 0 <= i < uq_next_seq q -> i ∈ map pk_seq ps).
Proof.
  intros Hi Ha Hd Ec Hgap Hch. pose proof (gap_not_in_heap q out ps Hi Ha Hd Hgap) as Hn.
  destruct Hi as [_ _ _ Ho]. rewrite Ec in Ho. destruct Ha as [Hp _].
  unfold uq_numbers, uq_waiting in Hp. rewrite Ec, Hch, app_nil_r in Hp. cbn in Hp.
  split; [done|]. split.
  - rewrite Hp. intros [H|H]%elem_of_app; [apply elem_of_seqZ in H; lia|done].
  - intros i Hi'. rewrite Hp. apply elem_of_app. left. apply elem_of_seqZ. lia.
Qed.

(** What the last turn of a read says. *)
Definition read_result q' out ps n (res : option (result SplitHttpError bytes)) max : Prop :=
  match res with
  | Some (Ok (b :: bs)) => uq_reach max q' (out ++ b :: bs) ps /\ zlen (b :: bs) <= n
  | Some (Err e) => e = PacketQueueTooLarge (uq_max_packets q') (zlen (uq_heap q')) /\
      uq_max_packets q' < zlen (uq_heap q') /\ uq_next_seq q' ∉ map pk_seq (uq_heap q')
  | None | Some (Ok []) => out = upto (uq_next_seq q') /\ (uq_next_seq q' ∉ map pk_seq ps) /\
      (forall i, 0 <= i < uq_next_seq q' -> i ∈ map pk_seq ps)
  end.

Lemma pull_result max q out ps n t q' : uq_reach max q out ps -> distinct ps -> uq_current q = None -> gap q ->
  pull q = (t, q') ->
  match t with
  | RdReturn r => read_result q' out ps n (Some r) max
  | RdWait => read_result q' out ps n None max
  | RdContinue => True
  end.
Proof.
  intros Hr Hd Ec Hgap. pose proof (reach_inv _ _ _ _ Hr) as Hi. pose proof (reach_acc _ _ _ _ Hr Hd) as Ha.
  pose proof (gap_not_accepted q out ps Hi Ha Hd Ec Hgap) as Hna. pose proof (gap_not_in_heap q out ps Hi Ha Hd Hgap) as Hh.
  pose proof (pull_inv q out Hi Ec) as Hpi. pose proof (pull_acc q out ps Hi Ec Ha Hd) as Hpa.
  unfold pull in *. unfold uq_chan in Hna. destruct (uq_pushed q) as [[|p chan]|].
  - intros H. assert (q' = q /\ (t = RdContinue \/ t = RdWait)) as [-> [-> | ->]] by (destruct (uq_closed q); by simplify_eq; auto);
      [done|by apply Hna].
  - cbn [uq_set_pushed uq_next_seq] in *. destruct (Z.eqb_spec (pk_seq p) (uq_next_seq q)) as [|Hne]; [intros; by simplify_eq|].
    destruct (_ <? _); [intros; by simplify_eq|].
    match goal with |- context [if ?a <? ?b then _ else _] => destruct (Z.ltb_spec a b) end; intros; simplify_eq; [|done].
    cbn [uq_set_heap uq_heap uq_max_packets uq_next_seq read_result] in *. split; [done|]. split; [done|].
    rewrite map_app. intros [?|H1]%elem_of_app; [done|]. cbn in H1. apply list_elem_of_singleton in H1. done.
  - intros; simplify_eq. by apply Hna.
Qed.

(** C6: nothing is lost: with distinct, non-empty packets a read always comes to an end
    (it returns, or waits), and it waits, or reports the end, only when the next packet
    was never accepted, having delivered all those before it; it fails only when more
    packets than the limit wait behind a missing one; else it returns between one and
    [n] bytes. *)
Theorem upload_read_complete max q out ps n : uq_reach max q out ps -> distinct ps -> 0 < n ->
  exists res q', UploadQueue_read n q = Some (res, q') /\ read_result q' out ps n res max.
Proof.
  intros Hr Hd Hn. destruct (read_loop_ends max (length (default [] (uq_pushed q)) + 2) n q out ps Hr) as
    (q1 & t & q' & Hr1 & Ht & Hres); [lia|unfold fuel_enough, uq_chan; destruct (uq_current q); lia|].
  pose proof (reach_inv _ _ _ _ Hr1) as Hi. pose proof (reach_acc _ _ _ _ Hr1 Hd) as Ha.
  pose proof (UqTurn max q1 out ps n t q' Hr1 ltac:(lia) Ht) as Hr'.
  assert (Hend : match t with RdReturn r => read_result q' out ps n (Some r) max
                 | RdWait => read_result q' out ps n None max | RdContinue => True end).
  { unfold read_turn in Ht. destruct (uq_current q1) as [c|] eqn:Ec.
    - destruct Ha as [_ He]. rewrite Ec in He. inversion_clear He as [|? ? Hc _].
      destruct (take_current n c q1) as [b q2] eqn:Eb. injection Ht as <- <-.
      assert (Hb : 0 < zlen b <= n).
      { unfold take_current in Eb. injection Eb as <- _. destruct (pk_payload c); [done|]. zlens. zlen_facts. lia. }
      destruct b as [|x b]; [unfold zlen in Hb; cbn in Hb; lia|]. split; [exact Hr'|lia].
    - assert (Hpull : gap q1 -> pull q1 = (t, q') -> match t with RdReturn r => read_result q' out ps n (Some r) max
                 | RdWait => read_result q' out ps n None max | RdContinue => True end)
        by (intros; by eapply pull_result).
      unfold gap in Hpull. pose proof (gap_not_in_heap q1 out ps Hi Ha Hd) as Hh. unfold gap in Hh.
      destruct (heap_peek (uq_heap q1)) as [top|]; [|by apply Hpull].
      destruct (Z.eqb_spec (pk_seq top) (uq_next_seq q1)) as [|Hne]; [by simplify_eq|].
      destruct (Z.ltb_spec (uq_max_packets q1) (zlen (uq_heap q1))); [|by apply Hpull].
      injection Ht as <- <-. split; [done|]. split; [done|]. by apply Hh. }
  destruct t; [|done|]; eexists _, _; (split; [exact Hres|exact Hend]).
Qed.
End queue.

(** * A repeated packet *)

Section repeated.
Implicit Types (q : UploadQueue) (p : Packet).

(** The head of the heap is a packet that was already delivered, and the next one is not
    in the channel. *)
Record stuck q : Prop := {
  stuck_head : exists top, heap_peek (uq_heap q) = Some top /\ pk_seq top < uq_next_seq q;
  stuck_current : uq_current q = None;
  stuck_chan : Forall (fun p => pk_seq p <> uq_next_seq q) (uq_chan q);
  stuck_closed : uq_closed q = true -> uq_pushed q = None;
}.

Lemma stale_head_stays h p k : (exists top, heap_peek h = Some top /\ pk_seq top < k) ->
  exists top, heap_peek (h ++ [p]) = Some top /\ pk_seq top < k.
Proof.
  intros (top & Et & Hlt). pose proof (heap_peek_spec h) as H. rewrite Et in H. destruct H as [Hp _].
  pose proof (heap_peek_spec (h ++ [p])) as H. destruct (heap_peek (h ++ [p])) as [top'|] eqn:E.
  - destruct H as [_ Hm]. exists top'. split; [done|]. rewrite Hp in Hm. cbn in Hm. inversion_clear Hm. lia.
  - by destruct h.
Qed.

Lemma stuck_turn n q t q' : stuck q -> read_turn n q = (t, q') ->
  uq_next_seq q' = uq_next_seq q /\ uq_heap q `prefix_of` uq_heap q' /\ stuck q' /\ turn_out t = [] /\
  (t = RdContinue -> (length (uq_chan q') < length (uq_chan q))%nat).
Proof.
  intros Hs Ht. pose proof Hs as [Hh Hcur Hc Hcl]. unfold read_turn in Ht. rewrite Hcur in Ht.
  destruct Hh as (top & Et & Hlt). rewrite Et in Ht. destruct (Z.eqb_spec (pk_seq top) (uq_next_seq q)); [lia|].
  destruct (uq_max_packets q <? zlen (uq_heap q)); [by simplify_eq|].
  unfold pull, uq_chan in *. destruct (uq_pushed q) as [[|p chan]|] eqn:E.
  - destruct (uq_closed q); [by specialize (Hcl eq_refl)|]. by simplify_eq.
  - cbn [uq_set_pushed uq_next_seq default] in *. unfold id in *. inversion_clear Hc as [|? ? Hp Hch].
    assert (Hcl' : uq_closed q = true -> Some chan = None) by (intros H%Hcl; congruence).
    destruct (Z.eqb_spec (pk_seq p) (uq_next_seq q)); [done|].
    destruct (pk_seq p <? uq_next_seq q); [simplify_eq; cbn|].
    + split_and!; try done; [|intros _; lia]. split; try done. by exists top.
    + assert (Hst : stuck (uq_set_heap (uq_heap q ++ [p]) (uq_set_pushed (Some chan) q))).
      { split; try done. cbn. apply stale_head_stays. by exists top. }
      match type of Ht with context [if ?b then _ else _] => destruct b end; simplify_eq;
        (split_and!; [done|cbn; by apply prefix_app_r|done|done|]); [done|intros _; cbn; lia].
  - by simplify_eq.
Qed.

(** A packet received twice before its turn blocks the upload: once its first copy has
    been delivered, the second stays at the head of the heap, and no read returns
    anything that is in the heap any more, not even the next packet: every read waits,
    reports the end or fails, and the queue is as stuck as before. *)
Theorem upload_repeat_blocks n q : stuck q ->
  exists res q', UploadQueue_read n q = Some (res, q') /\ stuck q' /\
    (res = None \/ res = Some (Ok []) \/ exists e, res = Some (Err e)) /\
    uq_next_seq q' = uq_next_seq q /\ uq_heap q `prefix_of` uq_heap q'.
Proof.
  intros Hs. unfold UploadQueue_read. change (default [] (uq_pushed q)) with (uq_chan q).
  assert (Hf : (length (uq_chan q) < length (uq_chan q) + 2)%nat) by lia. revert Hf.
  generalize (length (uq_chan q) + 2)%nat. intros fuel. revert q Hs.
  induction fuel as [|fuel IH]; intros q Hs Hf; [lia|]. cbn [read_loop_uq].
  destruct (read_turn n q) as [t q'] eqn:Et. destruct (stuck_turn n q t q' Hs Et) as (En & Hp & Hs' & Ho & Hl).
  destruct t as [[out|e]| |].
  - cbn in Ho. subst out. eexists _, _. split; [done|]. eauto 10.
  - eexists _, _. split; [done|]. eauto 10.
  - destruct (IH q' Hs') as (res & q2 & -> & ? & ? & En2 & Hp2); [specialize (Hl eq_refl); lia|].
    eexists _, _. split; [done|]. split_and!; try done; [congruence|by etransitivity].
  - eexists _, _. split; [done|]. eauto 10.
Qed.
End repeated.
