(* ===== verification/StrMatch.v ===== *)
(** Strings as the matchers use them: a Rust [str] is its list of bytes.  The operations
    of the standard library that [xray-geodata/src/matcher] calls ([starts_with],
    [ends_with], [contains], [rfind], [split('.')]) and the facts about them. *)
From Stdlib Require Ascii String.
From stdpp Require Import base tactics option list list_numbers numbers.
From Stdlib Require Import ZArith Lia.
From S2P Require Import Prelude Bytes.

(** A string literal as its bytes. *)
Definition text (s : String.string) : bytes := map (fun c => Z.of_N (Ascii.N_of_ascii c)) (String.list_ascii_of_string s).

Definition DOT : Z := 46.

Fixpoint starts_with (s p : bytes) : bool :=
  match p, s with
  | [], _ => true
  | b :: p, c :: s => (c =? b) && starts_with s p
  | _, [] => false
  end.

Definition ends_with (s p : bytes) : bool :=
  (zlen p <=? zlen s) && bool_decide (zdrop (zlen s - zlen p) s = p).

Fixpoint contains (s p : bytes) : bool :=
  starts_with s p || match s with [] => false | _ :: s => contains s p end.

(** The byte offset of the last occurrence. *)
Fixpoint rfind (s p : bytes) : option Z :=
  match s with
  | [] => if starts_with s p then Some 0 else None
  | _ :: s' =>
      match rfind s' p with
      | Some i => Some (i + 1)
      | None => if starts_with s p then Some 0 else None
      end
  end.

(** [s.split('.')]: one more label than there are dots. *)
Fixpoint split_dot (s : bytes) : list bytes :=
  match s with
  | [] => [[]]
  | b :: s =>
      if b =? DOT then [] :: split_dot s
      else match split_dot s with
           | l :: ls => (b :: l) :: ls
           | [] => [[b]]
           end
  end.

(** [s.split('.').rev()] *)
Definition labels_rev (s : bytes) : list bytes := rev (split_dot s).
Arguments labels_rev : simpl never.

(** [u32::to_string] *)
Fixpoint decimal (fuel : nat) (n : Z) : bytes :=
  match fuel with
  | O => []
  | S fuel => if n <? 10 then [48 + n] else decimal fuel (n / 10) ++ [48 + n mod 10]
  end.
Definition u32_to_string (n : Z) : bytes := decimal 10 n.

(** * Lemmas *)

Lemma starts_with_spec s p : starts_with s p = true <-> exists r, s = p ++ r.
Proof.
  revert s. induction p as [|b p IH]; intros s; [cbn; split; [by exists s|by destruct s]|].
  destruct s as [|c s]; cbn; [split; [done|intros [r ?]; done]|].
  rewrite andb_true_iff, Z.eqb_eq, IH. split.
  - intros [-> [r ->]]. by exists r.
  - intros [r [= -> ->]]. eauto.
Qed.

Lemma ends_with_spec s p : ends_with s p = true <-> exists r, s = r ++ p.
Proof.
  unfold ends_with. rewrite andb_true_iff, Z.leb_le, bool_decide_eq_true. split.
  - intros [_ H]. exists (ztake (zlen s - zlen p) s). rewrite <- H at 2. by rewrite ztake_drop.
  - intros [r ->]. split; [zlia|]. apply zdrop_app. zlia.
Qed.

Lemma contains_spec s p : contains s p = true <-> exists l r, s = l ++ p ++ r.
Proof.
  induction s as [|c s IH]; cbn [contains]; rewrite orb_true_iff, starts_with_spec.
  - split; [intros [[r Hr]|?]; [by exists [], r|done]|]. intros (l & r & H). destruct l; [|done]. left. by exists r.
  - rewrite IH. split.
    + intros [[r Hr]|(l & r & ->)]; [by exists [], r|by exists (c :: l), r].
    + intros (l & r & H). destruct l as [|c' l]; [left; by exists r|]. injection H as <- ->. right. by exists l, r.
Qed.

Lemma rfind_contains s p : contains s p = match rfind s p with Some _ => true | None => false end.
Proof.
  induction s as [|c s IH]; cbn [contains rfind]; [by destruct (starts_with [] p)|].
  rewrite IH. destruct (rfind s p), (starts_with (c :: s) p); done.
Qed.

(** ** Labels *)

Definition join_dot (ls : list bytes) : bytes :=
  match ls with
  | [] => []
  | l :: ls => l ++ concat (map (cons DOT) ls)
  end.

Lemma split_dot_cons s : exists l ls, split_dot s = l :: ls.
Proof. destruct s as [|b s]; cbn; [eauto|]. destruct (b =? DOT); [eauto|]. destruct (split_dot s); eauto. Qed.

Lemma join_split s : join_dot (split_dot s) = s.
Proof.
  induction s as [|b s IH]; [done|]. cbn [split_dot]. destruct (split_dot_cons s) as (l & ls & E). rewrite E in *.
  destruct (Z.eqb_spec b DOT) as [->|]; cbn in *; by rewrite IH.
Qed.

Lemma split_dot_inj s t : split_dot s = split_dot t -> s = t.
Proof. intros H. by rewrite <- (join_split s), H, join_split. Qed.

(** A label holds no dot. *)
Definition undotted (l : bytes) : Prop := Forall (fun b => b <> DOT) l.

Lemma split_undotted s : Forall undotted (split_dot s).
Proof.
  induction s as [|b s IH]; cbn; [repeat constructor|]. destruct (Z.eqb_spec b DOT); [by constructor; [constructor|]|].
  destruct (split_dot s) as [|l ls]; [by repeat constructor|]. inversion_clear IH. constructor; [by constructor|done].
Qed.

Lemma split_app_undotted l s : undotted l ->
  split_dot (l ++ s) = match split_dot s with k :: ks => (l ++ k) :: ks | [] => [l] end.
Proof.
  induction 1 as [|b l Hb _ IH]; cbn [app split_dot].
  - by destruct (split_dot_cons s) as (? & ? & ->).
  - rewrite IH. destruct (Z.eqb_spec b DOT); [done|]. destruct (split_dot_cons s) as (? & ? & ->). done.
Qed.

Lemma split_app_dot r p : split_dot (r ++ DOT :: p) = split_dot r ++ split_dot p.
Proof.
  induction r as [|b r IH]; cbn; [done|]. rewrite IH. destruct (b =? DOT); [done|].
  by destruct (split_dot_cons r) as (? & ? & ->).
Qed.

Lemma split_uncons s l ls : split_dot s = l :: ls -> ls <> [] -> exists t, s = l ++ DOT :: t /\ split_dot t = ls.
Proof.
  revert l. induction s as [|b s IH]; intros l; cbn; [by intros [= <- <-]|].
  destruct (Z.eqb_spec b DOT) as [->|]; [intros [= <- <-] _; by exists s|].
  destruct (split_dot_cons s) as (k & ks & E). rewrite E. intros [= <- <-] Hne.
  destruct (IH k E Hne) as (t & -> & Ht). by exists t.
Qed.

(** A suffix of the labels is a suffix of the string at a label boundary. *)
Lemma split_suffix s p : split_dot p `suffix_of` split_dot s <-> s = p \/ exists r, s = r ++ DOT :: p.
Proof.
  split.
  - intros [ls H]. revert s H. induction ls as [|l ls IH]; intros s H; [left; by apply split_dot_inj|]. right.
    destruct (split_dot_cons p) as (pl & pls & Ep).
    destruct (split_uncons s l (ls ++ split_dot p)) as (t & -> & Ht); [done|rewrite Ep; by destruct ls|].
    destruct (IH t Ht) as [->|[r ->]]; [by exists l|]. exists (l ++ DOT :: r). by rewrite <- app_assoc.
  - intros [->|[r ->]]; [done|]. rewrite split_app_dot. by eexists.
Qed.

Lemma labels_rev_prefix s p : labels_rev p `prefix_of` labels_rev s <-> s = p \/ exists r, s = r ++ DOT :: p.
Proof.
  rewrite <- split_suffix. unfold labels_rev. rewrite !rev_alt. fold (reverse (split_dot p)) (reverse (split_dot s)).
  symmetry. apply suffix_prefix_reverse.
Qed.

Lemma labels_rev_inj s t : labels_rev s = labels_rev t -> s = t.
Proof. unfold labels_rev. intros H. apply split_dot_inj. by apply rev_inj. Qed.

(** The decimal form is read back. *)
Definition undecimal (l : bytes) : Z := fold_left (fun a d => a * 10 + (d - 48)) l 0.

Lemma decimal_spec fuel n : 0 <= n < 10 ^ Z.of_nat fuel -> n < 10 ^ Z.of_nat fuel ->
  (0 < fuel)%nat -> undecimal (decimal fuel n) = n /\ Forall (fun d => 48 <= d <= 57) (decimal fuel n).
Proof.
  revert n. induction fuel as [|fuel IH]; intros n Hn _ Hf; [lia|]. cbn [decimal]. destruct (Z.ltb_spec n 10) as [Hlt|Hge].
  - split; [unfold undecimal; cbn; lia|]. repeat constructor; lia.
  - pose proof (Z.mod_pos_bound n 10). destruct fuel as [|fuel]; [cbn in Hn; lia|].
    assert (Hp : 10 ^ Z.of_nat (S (S fuel)) = 10 * 10 ^ Z.of_nat (S fuel)) by (rewrite (Nat2Z.inj_succ (S fuel)), Z.pow_succ_r; lia).
    assert (Hd : 0 <= n / 10 < 10 ^ Z.of_nat (S fuel)) by (split; [apply Z.div_pos; lia|apply Z.div_lt_upper_bound; lia]).
    destruct (IH (n / 10) Hd) as [E F]; [lia|lia|]. split.
    + unfold undecimal in *. rewrite fold_left_app, E. cbn. pose proof (Z.div_mod n 10). lia.
    + apply Forall_app. split; [done|]. repeat constructor; lia.
Qed.

Lemma u32_to_string_inj n m : is_u32 n -> is_u32 m -> u32_to_string n = u32_to_string m -> n = m.
Proof.
  unfold is_u32, u32_to_string. intros Hn Hm E. destruct (decimal_spec 10 n) as [<- _]; [cbn; lia..|].
  destruct (decimal_spec 10 m) as [<- _]; [cbn; lia..|]. by rewrite E.
Qed.

Lemma u32_to_string_digits n : is_u32 n -> Forall (fun d => 48 <= d <= 57) (u32_to_string n).
Proof. unfold is_u32. intros Hn. apply (decimal_spec 10 n); cbn; lia. Qed.
