(* ===== verification/DomainMatch.v ===== *)
(** [xray-geodata/src/matcher/{mod,matchers,matcher_groups,matcher_sets,value_linear,
    index_linear,any_linear}.rs]: the string matchers, the groups that search many of
    them at once, and the linear matchers put together from them.  The crate [regex] is
    the class [RegexOps]; a [dyn Matcher] is one of the crate's four matchers. *)
From stdpp Require Import base tactics option list list_numbers numbers gmap.
From Stdlib Require Import ZArith Lia.
From S2P Require Import Prelude Bytes StrMatch.

Class RegexOps := {
  Regex : Type;
  Regex_Error : Type;
  Regex_new : bytes -> result Regex_Error Regex;
  is_match : Regex -> bytes -> bool;
}.

(** * The matchers *)

Inductive MatcherType : Type := TFull | TDomain | TSubstr | TRegex.

#[export] Instance MatcherType_eq_dec : EqDecision MatcherType.
Proof. solve_decision. Defined.

Section matchers.
Context `{RegexOps}.

Inductive MatcherError : Type :=
| RegexCompile (e : Regex_Error)
| UnknownMatcherType.

Inductive Matcher : Type :=
| FullMatcher (pattern : bytes)
| DomainMatcher (pattern : bytes)
| SubstrMatcher (pattern : bytes)
| RegexMatcher (pattern : bytes) (regex : Regex).

Definition RegexMatcher_new (pattern : bytes) : result MatcherError Matcher :=
  match Regex_new pattern with
  | Ok regex => Ok (RegexMatcher pattern regex)
  | Err e => Err (RegexCompile e)
  end.

Definition new_matcher (t : MatcherType) (pattern : bytes) : result MatcherError Matcher :=
  match t with
  | TFull => Ok (FullMatcher pattern)
  | TDomain => Ok (DomainMatcher pattern)
  | TSubstr => Ok (SubstrMatcher pattern)
  | TRegex => RegexMatcher_new pattern
  end.

Definition matcher_type (m : Matcher) : MatcherType :=
  match m with
  | FullMatcher _ => TFull
  | DomainMatcher _ => TDomain
  | SubstrMatcher _ => TSubstr
  | RegexMatcher _ _ => TRegex
  end.

Definition pattern (m : Matcher) : bytes :=
  match m with
  | FullMatcher p | DomainMatcher p | SubstrMatcher p | RegexMatcher p _ => p
  end.

Definition FullMatcher_match_str (p input : bytes) : bool := bool_decide (p = input).

Definition DomainMatcher_match_str (p input : bytes) : bool :=
  if negb (ends_with input p) then false
  else if zlen input =? zlen p then true
  else if zlen p =? 0 then false
  else input @ (zlen input - zlen p - 1) =? DOT.

Definition SubstrMatcher_match_str (p input : bytes) : bool := contains input p.

Definition match_str (m : Matcher) (input : bytes) : bool :=
  match m with
  | FullMatcher p => FullMatcher_match_str p input
  | DomainMatcher p => DomainMatcher_match_str p input
  | SubstrMatcher p => SubstrMatcher_match_str p input
  | RegexMatcher _ r => is_match r input
  end.
End matchers.

Definition composite_matches (matches : list (list Z)) : list Z :=
  match matches with
  | [] => []
  | [m] => m
  | _ => concat matches
  end.

Definition composite_matches_reverse (matches : list (list Z)) : list Z :=
  match matches with
  | [] => []
  | [m] => m
  | _ => concat (rev matches)
  end.

(** * The groups *)

(** ** [FullMatcherGroup] *)

Record FullMatcherGroup : Type := mkFullMatcherGroup { fg_matchers : gmap bytes (list Z) }.

Definition FullMatcherGroup_add (p : bytes) (value : Z) (g : FullMatcherGroup) : FullMatcherGroup :=
  mkFullMatcherGroup (<[ p := default [] (fg_matchers g !! p) ++ [value] ]> (fg_matchers g)).

Definition FullMatcherGroup_match_str (input : bytes) (g : FullMatcherGroup) : list Z := default [] (fg_matchers g !! input).
Definition FullMatcherGroup_match_any (input : bytes) (g : FullMatcherGroup) : bool :=
  bool_decide (is_Some (fg_matchers g !! input)).

(** ** [DomainMatcherGroup] *)

Inductive DomainTrieNode : Type := mkDomainTrieNode {
  tn_values : list Z;
  tn_children : gmap bytes DomainTrieNode;
}.

Definition DomainTrieNode_default : DomainTrieNode := mkDomainTrieNode [] ∅.

(** The walk of [add] down the labels, creating the nodes that are missing. *)
Fixpoint trie_add (labels : list bytes) (value : Z) (node : DomainTrieNode) : DomainTrieNode :=
  match labels with
  | [] => mkDomainTrieNode (tn_values node ++ [value]) (tn_children node)
  | label :: labels =>
      mkDomainTrieNode (tn_values node)
        (<[ label := trie_add labels value (default DomainTrieNode_default (tn_children node !! label)) ]> (tn_children node))
  end.

Definition DomainMatcherGroup_add (p : bytes) (value : Z) (root : DomainTrieNode) : DomainTrieNode :=
  trie_add (labels_rev p) value root.

Definition push_values (node : DomainTrieNode) (matches : list (list Z)) : list (list Z) :=
  match tn_values node with [] => matches | vs => matches ++ [vs] end.

Fixpoint trie_match (labels : list bytes) (node : DomainTrieNode) (matches : list (list Z)) : list Z :=
  match labels with
  | [] => concat (rev matches)
  | [] :: _ => concat matches
  | label :: labels =>
      match tn_children node !! label with
      | Some child => trie_match labels child (push_values child matches)
      | None => concat (rev matches)
      end
  end.

Definition DomainMatcherGroup_match_str (input : bytes) (root : DomainTrieNode) : list Z :=
  trie_match (labels_rev input) root (push_values root []).

Fixpoint trie_any (labels : list bytes) (node : DomainTrieNode) : bool :=
  match labels with
  | [] => false
  | [] :: _ => false
  | label :: labels =>
      match tn_children node !! label with
      | Some child => match tn_values child with [] => trie_any labels child | _ => true end
      | None => false
      end
  end.

Definition DomainMatcherGroup_match_any (input : bytes) (root : DomainTrieNode) : bool :=
  match tn_values root with [] => trie_any (labels_rev input) root | _ => true end.

(** ** [SimpleMatcherGroup] *)

Section simple.
Context `{RegexOps}.
Definition SimpleMatcherGroup : Type := list (Matcher * Z).
Definition SimpleMatcherGroup_add (m : Matcher) (value : Z) (g : SimpleMatcherGroup) : SimpleMatcherGroup :=
  g ++ [(m, value)].
Definition SimpleMatcherGroup_match_str (input : bytes) (g : SimpleMatcherGroup) : list Z :=
  map snd (List.filter (fun e => match_str e.1 input) g).
Definition SimpleMatcherGroup_match_any (input : bytes) (g : SimpleMatcherGroup) : bool :=
  existsb (fun e => match_str e.1 input) g.
End simple.

(** ** [SubstrMatcherGroup] *)

(** The standard library's stable [sort_by], the order given as "not greater". *)
Section sort_by.
Context {A : Type} (le : A -> A -> bool).
Fixpoint sort_insert (x : A) (l : list A) : list A :=
  match l with
  | [] => [x]
  | y :: l => if le x y then x :: y :: l else y :: sort_insert x l
  end.
Fixpoint sort_by (l : list A) : list A :=
  match l with
  | [] => []
  | x :: l => sort_insert x (sort_by l)
  end.
End sort_by.

Definition SubstrMatcherGroup : Type := list (bytes * Z).

Definition SubstrMatcherGroup_add (p : bytes) (value : Z) (g : SubstrMatcherGroup) : SubstrMatcherGroup := g ++ [(p, value)].

(** (position, pattern index, value); a later position first, then the earlier index. *)
Definition substr_before (a b : Z * Z * Z) : bool :=
  (b.1.1 <? a.1.1) || ((a.1.1 =? b.1.1) && (a.1.2 <=? b.1.2)).

Fixpoint substr_positions (input : bytes) (idx : Z) (g : SubstrMatcherGroup) : list (Z * Z * Z) :=
  match g with
  | [] => []
  | (p, value) :: g =>
      match rfind input p with
      | Some pos => (pos, idx, value) :: substr_positions input (idx + 1) g
      | None => substr_positions input (idx + 1) g
      end
  end.

Definition SubstrMatcherGroup_match_str (input : bytes) (g : SubstrMatcherGroup) : list Z :=
  map snd (sort_by substr_before (substr_positions input 0 g)).
Definition SubstrMatcherGroup_match_any (input : bytes) (g : SubstrMatcherGroup) : bool :=
  existsb (fun e => contains input e.1) g.

(** * The sets *)

Record FullMatcherSet : Type := mkFullMatcherSet { fs_patterns : gset bytes }.
Definition FullMatcherSet_add (p : bytes) (s : FullMatcherSet) : FullMatcherSet := mkFullMatcherSet ({[ p ]} ∪ fs_patterns s).
Definition FullMatcherSet_match_any (input : bytes) (s : FullMatcherSet) : bool := bool_decide (input ∈ fs_patterns s).

Inductive TrieNode : Type := mkTrieNode {
  ts_matched : bool;
  ts_children : gmap bytes TrieNode;
}.
Definition TrieNode_default : TrieNode := mkTrieNode false ∅.

Fixpoint set_trie_add (labels : list bytes) (node : TrieNode) : TrieNode :=
  match labels with
  | [] => mkTrieNode true (ts_children node)
  | label :: labels =>
      mkTrieNode (ts_matched node)
        (<[ label := set_trie_add labels (default TrieNode_default (ts_children node !! label)) ]> (ts_children node))
  end.

Definition DomainMatcherSet_add (p : bytes) (root : TrieNode) : TrieNode := set_trie_add (labels_rev p) root.

Fixpoint set_trie_any (labels : list bytes) (node : TrieNode) : bool :=
  match labels with
  | [] => false
  | [] :: _ => false
  | label :: labels =>
      match ts_children node !! label with
      | Some child => if ts_matched child then true else set_trie_any labels child
      | None => false
      end
  end.

Definition DomainMatcherSet_match_any (input : bytes) (root : TrieNode) : bool :=
  if ts_matched root then true else set_trie_any (labels_rev input) root.

Definition SubstrMatcherSet_match_any (input : bytes) (s : list bytes) : bool := existsb (contains input) s.

(** * The linear matchers *)

Section linear.
Context `{RegexOps}.

Definition SimpleMatcherSet_match_any (input : bytes) (s : list Matcher) : bool := existsb (fun m => match_str m input) s.

Record LinearValueMatcher : Type := mkLinearValueMatcher {
  lv_full : FullMatcherGroup;
  lv_domain : DomainTrieNode;
  lv_substr : SubstrMatcherGroup;
  lv_simple : SimpleMatcherGroup;
}.

Definition LinearValueMatcher_new : LinearValueMatcher := mkLinearValueMatcher (mkFullMatcherGroup ∅) DomainTrieNode_default [] [].

Definition LinearValueMatcher_add (m : Matcher) (value : Z) (l : LinearValueMatcher) : LinearValueMatcher :=
  match matcher_type m with
  | TFull => mkLinearValueMatcher (FullMatcherGroup_add (pattern m) value (lv_full l)) (lv_domain l) (lv_substr l) (lv_simple l)
  | TDomain => mkLinearValueMatcher (lv_full l) (DomainMatcherGroup_add (pattern m) value (lv_domain l)) (lv_substr l) (lv_simple l)
  | TSubstr => mkLinearValueMatcher (lv_full l) (lv_domain l) (SubstrMatcherGroup_add (pattern m) value (lv_substr l)) (lv_simple l)
  | TRegex => mkLinearValueMatcher (lv_full l) (lv_domain l) (lv_substr l) (SimpleMatcherGroup_add m value (lv_simple l))
  end.

Definition LinearValueMatcher_match_any (input : bytes) (l : LinearValueMatcher) : bool :=
  FullMatcherGroup_match_any input (lv_full l) || DomainMatcherGroup_match_any input (lv_domain l)
  || SubstrMatcherGroup_match_any input (lv_substr l) || SimpleMatcherGroup_match_any input (lv_simple l).

Definition LinearValueMatcher_match_str (input : bytes) (l : LinearValueMatcher) : list Z :=
  composite_matches [FullMatcherGroup_match_str input (lv_full l); DomainMatcherGroup_match_str input (lv_domain l);
                     SubstrMatcherGroup_match_str input (lv_substr l); SimpleMatcherGroup_match_str input (lv_simple l)].

(** The index matcher is the value matcher with the counter as value. *)
Record LinearIndexMatcher : Type := mkLinearIndexMatcher { li_groups : LinearValueMatcher; li_count : Z }.

Definition LinearIndexMatcher_new : LinearIndexMatcher := mkLinearIndexMatcher LinearValueMatcher_new 0.
Definition LinearIndexMatcher_add (m : Matcher) (l : LinearIndexMatcher) : Z * LinearIndexMatcher :=
  let idx := li_count l +32 1 in (idx, mkLinearIndexMatcher (LinearValueMatcher_add m idx (li_groups l)) idx).
Definition LinearIndexMatcher_match_str (input : bytes) (l : LinearIndexMatcher) : list Z :=
  LinearValueMatcher_match_str input (li_groups l).
Definition LinearIndexMatcher_match_any (input : bytes) (l : LinearIndexMatcher) : bool :=
  LinearValueMatcher_match_any input (li_groups l).

Record LinearAnyMatcher : Type := mkLinearAnyMatcher {
  la_full : FullMatcherSet;
  la_domain : TrieNode;
  la_substr : list bytes;
  la_simple : list Matcher;
}.

Definition LinearAnyMatcher_new : LinearAnyMatcher := mkLinearAnyMatcher (mkFullMatcherSet ∅) TrieNode_default [] [].

Definition LinearAnyMatcher_add (m : Matcher) (l : LinearAnyMatcher) : LinearAnyMatcher :=
  match matcher_type m with
  | TFull => mkLinearAnyMatcher (FullMatcherSet_add (pattern m) (la_full l)) (la_domain l) (la_substr l) (la_simple l)
  | TDomain => mkLinearAnyMatcher (la_full l) (DomainMatcherSet_add (pattern m) (la_domain l)) (la_substr l) (la_simple l)
  | TSubstr => mkLinearAnyMatcher (la_full l) (la_domain l) (la_substr l ++ [pattern m]) (la_simple l)
  | TRegex => mkLinearAnyMatcher (la_full l) (la_domain l) (la_substr l) (la_simple l ++ [m])
  end.

Definition LinearAnyMatcher_match_any (input : bytes) (l : LinearAnyMatcher) : bool :=
  FullMatcherSet_match_any input (la_full l) || DomainMatcherSet_match_any input (la_domain l)
  || SubstrMatcherSet_match_any input (la_substr l) || SimpleMatcherSet_match_any input (la_simple l).
End linear.
