(* ===== verification/DomainMatchProps.v ===== *)
(** What the matcher groups of [DomainMatch] find: each group against the scan of all
    its matchers one by one. *)
From stdpp Require Import base tactics option list list_numbers numbers gmap sorting.
From Stdlib Require Import ZArith Lia.
From S2P Require Import Prelude Bytes StrMatch DomainMatch.

(** * The domain matcher *)

Lemma domain_match_spec p s :
  DomainMatcher_match_str p s = true <-> s = p \/ (p <> [] /\ exists r, s = r ++ DOT :: p).
Proof.
  unfold DomainMatcher_match_str. destruct (ends_with s p) eqn:E; cbn [negb].
  - apply ends_with_spec in E as [r ->]. destruct (Z.eqb_spec (zlen (r ++ p)) (zlen p)) as [Hl|Hl].
    + split; [|done]. intros _. left. assert (r = []) as -> by (apply zlen_zero; zlia). done.
    + destruct (Z.eqb_spec (zlen p) 0) as [Hp|Hp].
      * apply Z.eq_le_incl in Hp. apply zlen_zero in Hp as ->. split; [done|]. intros [H|[? _]]; [|done].
        rewrite app_nil_r in *. subst. done.
      * assert (p <> []) by (by intros ->). destruct (exists_last (l:=r)) as (r' & b & ->); [by intros ->|].
        replace (zlen ((r' ++ [b]) ++ p) - zlen p - 1) with (zlen r') by zlia.
        rewrite <- app_assoc, byte_at_skip, Z.sub_diag by lia. cbn [app]. rewrite byte_at_cons, Z.eqb_eq. split.
        -- intros ->. right. split; [done|]. by exists r'.
        -- intros [Hs|[_ [r2 [_ Hs]%app_inj_2]]]; [|by injection Hs|done].
           apply (f_equal zlen) in Hs. zlens. pose proof (zlen_nonneg r'). lia.
  - split; [done|]. intros Hs. apply not_true_iff_false in E. destruct E. apply ends_with_spec.
    destruct Hs as [->|[_ [r ->]]]; [by exists []|]. exists (r ++ [DOT]). by rewrite <- app_assoc.
Qed.

(** * The tries *)

(** The prefixes of a label list that a walk reaches: those before an empty label. *)
Fixpoint live_prefixes (ls : list bytes) : list (list bytes) :=
  match ls with
  | [] => []
  | [] :: _ => []
  | l :: ls => [l] :: map (cons l) (live_prefixes ls)
  end.

Lemma elem_of_live k ls :
  k ∈ live_prefixes ls <-> k <> [] /\ k `prefix_of` ls /\ Forall (fun l => l <> []) k.
Proof.
  revert k. induction ls as [|l ls IH]; intros k; cbn [live_prefixes].
  - split; [by intros ?%not_elem_of_nil|]. intros (Hk & ?%prefix_nil_inv & _). done.
  - destruct l as [|b l].
    + split; [by intros ?%not_elem_of_nil|]. intros (Hk & Hp & Hf). destruct k as [|x k]; [done|].
      apply prefix_cons_inv_1 in Hp as ->. by inversion_clear Hf.
    + rewrite elem_of_cons, list_elem_of_fmap. split.
      * intros [->|(y & -> & (Hy & Hp & Hf)%IH)].
        -- split; [done|]. split; [by apply prefix_cons, prefix_nil|by repeat constructor].
        -- split; [done|]. split; [by apply prefix_cons|by constructor].
      * intros (Hk & Hp & Hf). destruct k as [|x k]; [done|]. pose proof (prefix_cons_inv_1 _ _ _ _ Hp) as ->.
        apply prefix_cons_inv_2 in Hp. inversion_clear Hf. destruct k as [|y k]; [by left|]. right. exists (y :: k).
        split; [done|]. apply IH. done.
Qed.

Lemma live_nodup ls : NoDup (live_prefixes ls).
Proof.
  induction ls as [|[|b l] ls IH]; cbn; [constructor..|]. constructor.
  - intros (k & [= <-] & (? & _)%elem_of_live)%list_elem_of_fmap. done.
  - apply NoDup_fmap_2; [|done]. by intros ? ? [= ->].
Qed.

Fixpoint trie_lookup (k : list bytes) (node : DomainTrieNode) : list Z :=
  match k with
  | [] => tn_values node
  | l :: k => match tn_children node !! l with Some child => trie_lookup k child | None => [] end
  end.

Lemma trie_lookup_default k : trie_lookup k DomainTrieNode_default = [].
Proof. by destruct k. Qed.

Lemma trie_lookup_add k k' v n :
  trie_lookup k (trie_add k' v n) = trie_lookup k n ++ (if bool_decide (k = k') then [v] else []).
Proof.
  revert k n. induction k' as [|l' k' IH]; intros k n; destruct k as [|l k]; cbn [trie_add trie_lookup tn_values tn_children].
  - done.
  - by rewrite app_nil_r.
  - by rewrite app_nil_r.
  - destruct (decide (l = l')) as [->|Hl].
    + rewrite lookup_insert_eq, IH. replace (bool_decide (l' :: k = l' :: k')) with (bool_decide (k = k'))
        by (apply bool_decide_ext; naive_solver).
      destruct (tn_children n !! l'); cbn; [done|by rewrite trie_lookup_default].
    + rewrite lookup_insert_ne by done. rewrite bool_decide_false by congruence. by rewrite app_nil_r.
Qed.

(** What the walk finds, as what is stored at the reached prefixes. *)
Definition found_at (ls : list bytes) (node : DomainTrieNode) : list (list Z) :=
  map (fun k => trie_lookup k node) (live_prefixes ls).

Lemma found_at_step b l ls node child : tn_children node !! (b :: l) = Some child ->
  found_at ((b :: l) :: ls) node = tn_values child :: found_at ls child.
Proof. intros E. unfold found_at. cbn. rewrite E. f_equal. rewrite map_map. apply map_ext. intros k. cbn. by rewrite E. Qed.

Lemma found_at_none b l ls node : tn_children node !! (b :: l) = None ->
  Forall (fun vs => vs = []) (found_at ((b :: l) :: ls) node).
Proof.
  intros E. unfold found_at. cbn. rewrite E. constructor; [done|]. rewrite map_map. apply Forall_map, Forall_true.
  intros k. cbn. by rewrite E.
Qed.

Lemma concat_nils {A} (l : list (list A)) : Forall (fun x => x = []) l -> concat l = [].
Proof. induction 1 as [|x l Hx _ IH]; [done|]. cbn. by rewrite Hx, IH. Qed.

Lemma push_values_rev node acc : concat (rev (push_values node acc)) = tn_values node ++ concat (rev acc).
Proof. unfold push_values. destruct (tn_values node); [done|]. by rewrite rev_app_distr. Qed.

Lemma push_values_fwd node acc : concat (push_values node acc) = concat acc ++ tn_values node.
Proof. unfold push_values. destruct (tn_values node); [by rewrite app_nil_r|]. rewrite concat_app. cbn. by rewrite app_nil_r. Qed.

(** Without empty labels the deepest node comes first. *)
Lemma trie_match_exact ls node acc : Forall (fun l => l <> []) ls ->
  trie_match ls node acc = concat (rev (found_at ls node)) ++ concat (rev acc).
Proof.
  intros Hf. revert node acc. induction Hf as [|l ls Hl _ IH]; intros node acc; [done|].
  destruct l as [|b l]; [done|]. cbn [trie_match]. destruct (tn_children node !! (b :: l)) as [child|] eqn:E.
  - rewrite IH, push_values_rev, (found_at_step _ _ _ _ child) by done. cbn [rev]. rewrite concat_app. cbn.
    by rewrite app_nil_r, <- app_assoc.
  - rewrite (concat_nils (rev (found_at _ _))); [done|]. apply Forall_rev. by apply found_at_none.
Qed.

Lemma concat_rev_perm {A} (l : list (list A)) : concat (rev l) ≡ₚ concat l.
Proof. induction l as [|x l IH]; cbn; [done|]. rewrite concat_app, IH. cbn. rewrite app_nil_r. apply Permutation_app_comm. Qed.

Lemma trie_match_perm ls node acc : trie_match ls node acc ≡ₚ concat acc ++ concat (found_at ls node).
Proof.
  revert node acc. induction ls as [|[|b l] ls IH]; intros node acc; cbn [trie_match];
    [by rewrite concat_rev_perm, app_nil_r|by rewrite app_nil_r|].
  destruct (tn_children node !! (b :: l)) as [child|] eqn:E.
  - rewrite IH, push_values_fwd, (found_at_step _ _ _ _ child) by done. cbn. by rewrite app_assoc.
  - by rewrite concat_rev_perm, (concat_nils (found_at _ _)), app_nil_r by by apply found_at_none.
Qed.

Lemma trie_any_spec ls node : trie_any ls node = true <-> concat (found_at ls node) <> [].
Proof.
  revert node. induction ls as [|[|b l] ls IH]; intros node; cbn [trie_any]; [done..|].
  destruct (tn_children node !! (b :: l)) as [child|] eqn:E.
  - rewrite (found_at_step _ _ _ _ child) by done. cbn. destruct (tn_values child); [apply IH|done].
  - rewrite (concat_nils (found_at _ _)) by by apply found_at_none. by split.
Qed.

(** The set's trie, in the same way. *)
Fixpoint set_trie_lookup (k : list bytes) (node : TrieNode) : bool :=
  match k with
  | [] => ts_matched node
  | l :: k => match ts_children node !! l with Some child => set_trie_lookup k child | None => false end
  end.

Lemma set_trie_lookup_add k k' n : set_trie_lookup k (set_trie_add k' n) = set_trie_lookup k n || bool_decide (k = k').
Proof.
  revert k n. induction k' as [|l' k' IH]; intros k n; destruct k as [|l k]; cbn [set_trie_add set_trie_lookup ts_matched ts_children].
  - by rewrite orb_true_r.
  - by rewrite orb_false_r.
  - by rewrite orb_false_r.
  - destruct (decide (l = l')) as [->|Hl].
    + rewrite lookup_insert_eq, IH. replace (bool_decide (l' :: k = l' :: k')) with (bool_decide (k = k'))
        by (apply bool_decide_ext; naive_solver).
      destruct (ts_children n !! l'); cbn; [done|]. by destruct k.
    + rewrite lookup_insert_ne by done. rewrite bool_decide_false by congruence. by rewrite orb_false_r.
Qed.

Lemma set_trie_any_spec ls node : set_trie_any ls node = existsb (fun k => set_trie_lookup k node) (live_prefixes ls).
Proof.
  revert node. induction ls as [|[|b l] ls IH]; intros node; cbn [set_trie_any live_prefixes existsb]; [done..|]. cbn [set_trie_lookup].
  destruct (ts_children node !! (b :: l)) as [child|] eqn:E.
  - rewrite IH. destruct (ts_matched child); [done|]. cbn [orb]. clear IH.
    induction (live_prefixes ls) as [|k ks IHk]; [done|]. cbn. by rewrite E, IHk.
  - cbn. symmetry. apply not_true_iff_false. intros (k & Hk & H)%existsb_exists.
    apply in_map_iff in Hk as (k' & <- & _). cbn in H. by rewrite E in H.
Qed.

(** * Groups built from a list of matchers *)

Section groups.
Context `{RX : RegexOps}.
Implicit Types (adds : list (Matcher * Z)) (f g : Matcher -> bool).

Definition sel f adds : list (Matcher * Z) := List.filter (fun e => f e.1) adds.
Definition of_type (t : MatcherType) (m : Matcher) : bool := bool_decide (matcher_type m = t).

(** The scan that every group stands for. *)
Definition hits (input : bytes) adds : list (Matcher * Z) := sel (fun m => match_str m input) adds.

Lemma sel_app f adds adds' : sel f (adds ++ adds') = sel f adds ++ sel f adds'.
Proof. apply List.filter_app. Qed.

Lemma sel_one f e : sel f [e] = if f e.1 then [e] else [].
Proof. done. Qed.

Lemma sel_ext f g adds : (forall e, e ∈ adds -> f e.1 = g e.1) -> sel f adds = sel g adds.
Proof. intros He. apply List.filter_ext_in. intros e Hin. apply He, list_elem_of_In, Hin. Qed.

Lemma sel_none f adds : (forall e, e ∈ adds -> f e.1 = false) -> sel f adds = [].
Proof.
  intros He. induction adds as [|e adds IH]; [done|]. cbn. rewrite He by left. apply IH. intros. apply He. by right.
Qed.

Lemma sel_split f g adds : sel f adds ≡ₚ sel (fun m => f m && g m) adds ++ sel (fun m => f m && negb (g m)) adds.
Proof.
  induction adds as [|e adds IH]; [done|]. cbn. destruct (f e.1), (g e.1); cbn; rewrite ?IH; [done| |done..].
  apply Permutation_middle.
Qed.

Lemma sel_sel f g adds : sel (fun m => f m && g m) adds = sel g (sel f adds).
Proof. induction adds as [|e adds IH]; [done|]. cbn. unfold sel in IH. destruct (f e.1); cbn; rewrite IH; [by destruct (g e.1)|done]. Qed.

(** Collecting by key, over distinct keys. *)
Lemma concat_by_key {K} `{EqDecision K} (key : Matcher -> K) f ks adds : NoDup ks ->
  concat (map (fun k => sel (fun m => f m && bool_decide (key m = k)) adds) ks) ≡ₚ sel (fun m => f m && bool_decide (key m ∈ ks)) adds.
Proof.
  induction 1 as [|k ks Hk _ IH]; cbn [map concat].
  - rewrite sel_none; [done|]. intros e _. rewrite bool_decide_false by apply not_elem_of_nil. by rewrite andb_false_r.
  - rewrite IH. rewrite (sel_split (fun m => f m && bool_decide (key m ∈ k :: ks)) (fun m => bool_decide (key m = k))).
    apply Permutation_app.
    + erewrite sel_ext; [reflexivity|]. intros e _. cbn beta. destruct (f e.1); [|done]. cbn [andb].
      destruct (decide (key e.1 = k)) as [E|E]; [|by rewrite !(bool_decide_false (key e.1 = k)), andb_false_r].
      rewrite (bool_decide_true (key e.1 = k)), bool_decide_true by (rewrite ?E; set_solver). done.
    + erewrite sel_ext; [reflexivity|]. intros e _. cbn beta. destruct (f e.1); [|done]. cbn [andb].
      destruct (decide (key e.1 = k)) as [E|E].
      * rewrite (bool_decide_true (key e.1 = k)), bool_decide_false by (rewrite ?E; done). by rewrite andb_false_r.
      * rewrite (bool_decide_false (key e.1 = k)) by done. rewrite andb_true_r. apply bool_decide_ext. set_solver.
Qed.

(** By type, in the order of the linear matchers. *)
Lemma sel_by_type f adds :
  sel f adds ≡ₚ sel (fun m => of_type TFull m && f m) adds ++ sel (fun m => of_type TDomain m && f m) adds ++
                 sel (fun m => of_type TSubstr m && f m) adds ++ sel (fun m => of_type TRegex m && f m) adds.
Proof.
  induction adds as [|e adds IH]; [done|]. unfold of_type in *. cbn. destruct (f e.1); rewrite ?andb_false_r, ?andb_true_r; [|done].
  rewrite IH. destruct (matcher_type e.1); cbn; solve_Permutation.
Qed.

(** ** The value matcher *)

Definition LinearValueMatcher_of adds : LinearValueMatcher :=
  fold_left (fun l e => LinearValueMatcher_add e.1 e.2 l) adds LinearValueMatcher_new.

Record lv_ok adds (l : LinearValueMatcher) : Prop := {
  lo_full p : fg_matchers (lv_full l) !! p =
    match map snd (sel (fun m => of_type TFull m && bool_decide (pattern m = p)) adds) with [] => None | vs => Some vs end;
  lo_domain k : trie_lookup k (lv_domain l) =
    map snd (sel (fun m => of_type TDomain m && bool_decide (labels_rev (pattern m) = k)) adds);
  lo_substr : lv_substr l = map (fun e => (pattern e.1, e.2)) (sel (of_type TSubstr) adds);
  lo_simple : lv_simple l = sel (of_type TRegex) adds;
}.

Lemma of_type_is t m : of_type t m = match t, matcher_type m with
  | TFull, TFull | TDomain, TDomain | TSubstr, TSubstr | TRegex, TRegex => true | _, _ => false end.
Proof. unfold of_type. by destruct t, (matcher_type m). Qed.

Lemma lv_add_ok adds l m v : lv_ok adds l -> lv_ok (adds ++ [(m, v)]) (LinearValueMatcher_add m v l).
Proof.
  intros [Hf Hd Hs Hr]. unfold LinearValueMatcher_add. pose proof (fun t => of_type_is t m) as Ht.
  destruct (matcher_type m) eqn:E; (split; [intros p|intros k|..]);
    cbn [lv_full lv_domain lv_substr lv_simple]; rewrite sel_app, sel_one; cbn [fst snd]; rewrite Ht;
    cbn [andb map]; rewrite ?app_nil_r; try done.
  - unfold FullMatcherGroup_add. cbn [fg_matchers]. destruct (decide (pattern m = p)) as [<-|Hne].
    + rewrite lookup_insert_eq, Hf, (bool_decide_true (pattern m = pattern m)), map_app by done. by destruct (map snd (sel _ adds)).
    + rewrite lookup_insert_ne, Hf, (bool_decide_false (pattern m = p)), app_nil_r by done. done.
  - unfold DomainMatcherGroup_add. rewrite trie_lookup_add, Hd, map_app. f_equal.
    rewrite (bool_decide_ext (k = _) (labels_rev (pattern m) = k)) by done. by destruct (bool_decide _).
  - unfold SubstrMatcherGroup_add. by rewrite Hs, map_app.
  - unfold SimpleMatcherGroup_add. by rewrite Hr.
Qed.

Lemma lv_of_ok adds : lv_ok adds (LinearValueMatcher_of adds).
Proof.
  induction adds as [|[m v] adds IH] using rev_ind.
  - split; [done| |done..]. intros k. apply trie_lookup_default.
  - unfold LinearValueMatcher_of in *. rewrite fold_left_app. by apply lv_add_ok.
Qed.

(** ** What each group finds *)

(** A name without empty labels (so not empty). *)
Definition name_ok (s : bytes) : bool := bool_decide (Forall (fun l => l <> []) (split_dot s)).

Lemma name_ok_labels s : name_ok s = true <-> Forall (fun l => l <> []) (labels_rev s).
Proof. unfold name_ok, labels_rev. rewrite bool_decide_eq_true, rev_alt. fold (reverse (split_dot s)). by rewrite Forall_reverse. Qed.

Lemma name_ok_nonempty s : name_ok s = true -> s <> [].
Proof. by intros H ->. Qed.

Lemma labels_rev_cons s : labels_rev s <> [].
Proof.
  unfold labels_rev. destruct (split_dot_cons s) as (l & ls & ->). cbn. intros H. by apply app_nil in H as [_ ?].
Qed.

(** The trie's notion of a match is the domain matcher's, for well-formed patterns. *)
Lemma live_domain_match p s : name_ok p = true ->
  DomainMatcher_match_str p s = bool_decide (labels_rev p ∈ live_prefixes (labels_rev s)).
Proof.
  intros Hp. apply eq_true_iff_eq. rewrite domain_match_spec, bool_decide_eq_true, elem_of_live, labels_rev_prefix.
  pose proof (proj1 (name_ok_labels p) Hp). pose proof (name_ok_nonempty p Hp). pose proof (labels_rev_cons p). naive_solver.
Qed.

Definition domain_hits (input : bytes) adds : list (Matcher * Z) :=
  concat (rev (map (fun k => sel (fun m => of_type TDomain m && bool_decide (labels_rev (pattern m) = k)) adds)
                 (live_prefixes (labels_rev input)))).

Definition patterns_ok adds : Prop := forall m v, (m, v) ∈ adds -> matcher_type m = TDomain -> name_ok (pattern m) = true.

Lemma domain_sel input adds : patterns_ok adds ->
  sel (fun m => of_type TDomain m && bool_decide (labels_rev (pattern m) ∈ live_prefixes (labels_rev input))) adds =
  sel (fun m => of_type TDomain m && match_str m input) adds.
Proof.
  intros Hok. apply sel_ext. intros [m v] Hin. cbn [fst]. specialize (Hok m v Hin). rewrite of_type_is. destruct m; try done.
  cbn in *. by rewrite live_domain_match by auto.
Qed.

Lemma domain_hits_perm input adds : patterns_ok adds ->
  domain_hits input adds ≡ₚ sel (fun m => of_type TDomain m && match_str m input) adds.
Proof.
  intros Hok. unfold domain_hits. rewrite concat_rev_perm, <- domain_sel by done. apply concat_by_key, live_nodup.
Qed.

Lemma map_concat {A B} (f : A -> B) ls : concat (map (map f) ls) = map f (concat ls).
Proof. symmetry. apply concat_map. Qed.

Section with_groups.
Context (input : bytes) adds (Hok : patterns_ok adds).
Let l := LinearValueMatcher_of adds.

Lemma found_at_root : found_at (labels_rev input) (lv_domain l) =
  map (map snd) (map (fun k => sel (fun m => of_type TDomain m && bool_decide (labels_rev (pattern m) = k)) adds)
                   (live_prefixes (labels_rev input))).
Proof. rewrite map_map. apply map_ext. intros k. apply (lo_domain _ _ (lv_of_ok adds)). Qed.

Lemma root_values : tn_values (lv_domain l) = [].
Proof.
  pose proof (lo_domain _ _ (lv_of_ok adds) []) as H0. cbn in H0. fold l in H0. rewrite H0. rewrite sel_none; [done|].
  intros e _. rewrite bool_decide_false by apply labels_rev_cons. by rewrite andb_false_r.
Qed.

Lemma domain_group_perm :
  DomainMatcherGroup_match_str input (lv_domain l) ≡ₚ map snd (sel (fun m => of_type TDomain m && match_str m input) adds).
Proof.
  unfold DomainMatcherGroup_match_str, push_values. rewrite root_values, trie_match_perm, found_at_root, map_concat. cbn.
  apply Permutation_map. rewrite <- domain_hits_perm by done. symmetry. apply concat_rev_perm.
Qed.

Lemma domain_group_exact : name_ok input = true ->
  DomainMatcherGroup_match_str input (lv_domain l) = map snd (domain_hits input adds).
Proof.
  intros Hi%name_ok_labels. unfold DomainMatcherGroup_match_str, push_values.
  rewrite root_values, trie_match_exact, found_at_root, <- map_rev, map_concat by done. cbn. by rewrite app_nil_r.
Qed.

Lemma domain_group_any : DomainMatcherGroup_match_any input (lv_domain l) = true <-> DomainMatcherGroup_match_str input (lv_domain l) <> [].
Proof.
  unfold DomainMatcherGroup_match_any, DomainMatcherGroup_match_str, push_values. rewrite root_values, trie_any_spec.
  pose proof (trie_match_perm (labels_rev input) (lv_domain l) []) as Hp. cbn in Hp. split; intros Hn E; destruct Hn.
  - rewrite E in Hp. by apply Permutation_nil_l in Hp.
  - rewrite E in Hp. by apply Permutation_nil_r in Hp.
Qed.

Lemma full_group_exact :
  FullMatcherGroup_match_str input (lv_full l) = map snd (sel (fun m => of_type TFull m && match_str m input) adds).
Proof.
  unfold FullMatcherGroup_match_str, l. rewrite (lo_full _ _ (lv_of_ok adds)).
  rewrite (sel_ext (fun m => of_type TFull m && match_str m input) (fun m => of_type TFull m && bool_decide (pattern m = input)));
    [by destruct (map _ _)|]. intros [m v] _. rewrite of_type_is. by destruct m.
Qed.

Lemma full_group_any : FullMatcherGroup_match_any input (lv_full l) = true <-> FullMatcherGroup_match_str input (lv_full l) <> [].
Proof.
  unfold FullMatcherGroup_match_any, FullMatcherGroup_match_str. rewrite bool_decide_eq_true.
  unfold l. rewrite (lo_full _ _ (lv_of_ok adds)). destruct (map _ _); naive_solver.
Qed.

Lemma simple_group_exact :
  SimpleMatcherGroup_match_str input (lv_simple l) = map snd (sel (fun m => of_type TRegex m && match_str m input) adds).
Proof.
  unfold SimpleMatcherGroup_match_str, l. rewrite (lo_simple _ _ (lv_of_ok adds)). by rewrite sel_sel.
Qed.

Lemma simple_group_any : SimpleMatcherGroup_match_any input (lv_simple l) = true <-> SimpleMatcherGroup_match_str input (lv_simple l) <> [].
Proof.
  unfold SimpleMatcherGroup_match_any, SimpleMatcherGroup_match_str. generalize (lv_simple l). intros g.
  induction g as [|e g IH]; cbn; [by split|]. by destruct (match_str e.1 input).
Qed.
End with_groups.

(** ** The substring group *)

Section sort_facts.
Context {A B : Type} (le : A -> A -> bool) (leb : B -> B -> bool) (f : A -> B).
Hypothesis le_f : forall x y, leb (f x) (f y) = le x y.

Lemma sort_insert_map x xs : sort_insert leb (f x) (map f xs) = map f (sort_insert le x xs).
Proof. induction xs as [|y xs IH]; cbn; [done|]. rewrite le_f. destruct (le x y); cbn; [done|by rewrite IH]. Qed.

Lemma sort_by_map xs : sort_by leb (map f xs) = map f (sort_by le xs).
Proof. induction xs as [|x xs IH]; cbn; [done|]. by rewrite IH, sort_insert_map. Qed.
End sort_facts.

Section sort_order.
Context {A : Type} (le : A -> A -> bool).

Lemma sort_insert_perm x xs : sort_insert le x xs ≡ₚ x :: xs.
Proof. induction xs as [|y xs IH]; cbn; [done|]. destruct (le x y); [done|]. rewrite IH. apply Permutation_swap. Qed.

Lemma sort_by_perm xs : sort_by le xs ≡ₚ xs.
Proof. induction xs as [|x xs IH]; cbn; [done|]. by rewrite sort_insert_perm, IH. Qed.

Hypothesis le_total : forall x y, le x y = false -> le y x = true.
Hypothesis le_trans : forall x y z, le x y = true -> le y z = true -> le x z = true.

Lemma sort_by_sorted xs : StronglySorted (fun x y => le x y = true) (sort_by le xs).
Proof.
  induction xs as [|x xs IH]; cbn; [constructor|]. induction (sort_by le xs) as [|y ys IHy]; cbn; [by repeat constructor|].
  inversion_clear IH as [|? ? Hs Hf]. destruct (le x y) eqn:E.
  - constructor; [by constructor|]. constructor; [done|]. eapply Forall_impl; [exact Hf|]. eauto.
  - constructor; [by apply IHy|]. rewrite sort_insert_perm. constructor; [by apply le_total|done].
Qed.
End sort_order.

(** The positions with the entries they are of. *)
Fixpoint substr_entries (input : bytes) (idx : Z) adds : list (Z * Z * (Matcher * Z)) :=
  match adds with
  | [] => []
  | e :: adds =>
      match rfind input (pattern e.1) with
      | Some pos => (pos, idx, e) :: substr_entries input (idx + 1) adds
      | None => substr_entries input (idx + 1) adds
      end
  end.

Definition entry_before (a b : Z * Z * (Matcher * Z)) : bool :=
  (b.1.1 <? a.1.1) || ((a.1.1 =? b.1.1) && (a.1.2 <=? b.1.2)).

Definition substr_hits (input : bytes) adds : list (Matcher * Z) :=
  map snd (sort_by entry_before (substr_entries input 0 (sel (of_type TSubstr) adds))).

Definition position (input : bytes) (m : Matcher) : Z := default 0 (rfind input (pattern m)).

Lemma substr_entries_spec input idx adds :
  substr_positions input idx (map (fun e => (pattern e.1, e.2)) adds) = map (fun x => (x.1, x.2.2)) (substr_entries input idx adds) /\ map snd (substr_entries input idx adds) = sel (fun m => contains input (pattern m)) adds /\ Forall (fun x => x.1.1 = position input x.2.1) (substr_entries input idx adds).
Proof.
  revert idx. induction adds as [|e adds IH]; intros idx; [done|]. cbn. rewrite rfind_contains.
  destruct (IH (idx + 1)) as (H1 & H2 & H3). destruct (rfind input (pattern e.1)) as [pos|] eqn:E; [|done]. cbn.
  rewrite H1, H2. split_and!; [done..|]. constructor; [|done]. unfold position. cbn. by rewrite E.
Qed.

Lemma substr_sel input adds :
  sel (fun m => contains input (pattern m)) (sel (of_type TSubstr) adds) = sel (fun m => of_type TSubstr m && match_str m input) adds.
Proof. rewrite <- sel_sel. apply sel_ext. intros [m v] _. rewrite of_type_is. by destruct m. Qed.

Lemma substr_hits_perm input adds : substr_hits input adds ≡ₚ sel (fun m => of_type TSubstr m && match_str m input) adds.
Proof. unfold substr_hits. rewrite sort_by_perm, (proj1 (proj2 (substr_entries_spec _ _ _))). by rewrite substr_sel. Qed.

Lemma substr_hits_sorted input adds :
  StronglySorted (fun a b => position input b.1 <= position input a.1) (substr_hits input adds).
Proof.
  unfold substr_hits. pose proof (proj2 (proj2 (substr_entries_spec input 0 (sel (of_type TSubstr) adds)))) as Hp.
  rewrite <- (sort_by_perm entry_before) in Hp. pose proof (sort_by_sorted entry_before) as Hs.
  specialize (Hs ltac:(unfold entry_before; intros; lia) ltac:(unfold entry_before; intros; lia) (substr_entries input 0 (sel (of_type TSubstr) adds))).
  induction Hs as [|x xs _ IH Hf]; [constructor|]. inversion_clear Hp as [|? ? Hx Hxs]. cbn. constructor; [by apply IH|].
  apply Forall_map. eapply Forall_impl; [apply Forall_and; split; [exact Hf|exact Hxs]|]. intros y [Hb Hy]. unfold entry_before in Hb. cbn. lia.
Qed.

Lemma substr_group_exact input adds :
  SubstrMatcherGroup_match_str input (lv_substr (LinearValueMatcher_of adds)) = map snd (substr_hits input adds).
Proof.
  unfold SubstrMatcherGroup_match_str. rewrite (lo_substr _ _ (lv_of_ok adds)), (proj1 (substr_entries_spec _ _ _)).
  rewrite (sort_by_map entry_before substr_before) by done. unfold substr_hits. by rewrite !map_map.
Qed.

Lemma substr_group_any input adds :
  SubstrMatcherGroup_match_any input (lv_substr (LinearValueMatcher_of adds)) = true <->
  SubstrMatcherGroup_match_str input (lv_substr (LinearValueMatcher_of adds)) <> [].
Proof.
  rewrite substr_group_exact. unfold SubstrMatcherGroup_match_any. rewrite (lo_substr _ _ (lv_of_ok adds)).
  assert (Hn : forall es : list (Matcher * Z), map snd es <> [] <-> es <> []) by (by intros []). rewrite Hn.
  assert (Hp : forall es es' : list (Matcher * Z), es ≡ₚ es' -> es <> [] <-> es' <> []).
  { intros es es' He. split; intros Hne ->; destruct Hne; [by apply Permutation_nil_r in He|by symmetry in He; apply Permutation_nil_r in He]. }
  rewrite (Hp _ _ (substr_hits_perm input adds)), <- substr_sel.
  induction (sel (of_type TSubstr) adds) as [|e es IH]; cbn; [by split|]. by destruct (contains input (pattern e.1)).
Qed.

(** ** The set of the existence matcher *)

Definition LinearAnyMatcher_of (ms : list Matcher) : LinearAnyMatcher :=
  fold_left (fun l m => LinearAnyMatcher_add m l) ms LinearAnyMatcher_new.

Record la_ok (ms : list Matcher) (l : LinearAnyMatcher) : Prop := {
  la_ok_full p : p ∈ fs_patterns (la_full l) <-> exists m, m ∈ ms /\ matcher_type m = TFull /\ pattern m = p;
  la_ok_domain k : set_trie_lookup k (la_domain l) = true <-> exists m, m ∈ ms /\ matcher_type m = TDomain /\ labels_rev (pattern m) = k;
  la_ok_substr p : p ∈ la_substr l <-> exists m, m ∈ ms /\ matcher_type m = TSubstr /\ pattern m = p;
  la_ok_simple m : m ∈ la_simple l <-> m ∈ ms /\ matcher_type m = TRegex;
}.

Lemma exists_snoc {A} (l : list A) x (P : A -> Prop) : (exists y, y ∈ l ++ [x] /\ P y) <-> (exists y, y ∈ l /\ P y) \/ P x.
Proof. setoid_rewrite elem_of_app. setoid_rewrite list_elem_of_singleton. naive_solver. Qed.

Lemma la_of_ok ms : la_ok ms (LinearAnyMatcher_of ms).
Proof.
  induction ms as [|m ms IH] using rev_ind.
  - split; cbn; intros; [split; [by intros ?%not_elem_of_empty|]|split; [by destruct k|]|split; [by intros ?%not_elem_of_nil|]|
      split; [by intros ?%not_elem_of_nil|]]; try (intros (? & []%not_elem_of_nil & _)); by intros [[]%not_elem_of_nil _].
  - unfold LinearAnyMatcher_of in *. rewrite fold_left_app. cbn. destruct IH as [Hf Hd Hs Hr].
    revert Hf Hd Hs Hr. generalize (fold_left (fun l m => LinearAnyMatcher_add m l) ms LinearAnyMatcher_new). intros l Hf Hd Hs Hr.
    assert (Hno : forall (P Q R : Prop), (P <-> Q) -> ~ R -> (P <-> Q \/ R)) by tauto.
    unfold LinearAnyMatcher_add. destruct (matcher_type m) eqn:E; (split; intros x); cbn [la_full la_domain la_substr la_simple];
      rewrite ?exists_snoc; try (apply Hno; [by auto|rewrite E; by intros [? _]]);
      try (rewrite elem_of_app, list_elem_of_singleton, Hr; split; [intros []; by auto|intros [[?| ->] ?]; [by auto|congruence]]).
    + cbn. rewrite elem_of_union, elem_of_singleton, Hf, E. naive_solver.
    + unfold DomainMatcherSet_add. rewrite set_trie_lookup_add, orb_true_iff, bool_decide_eq_true, Hd, E. naive_solver.
    + rewrite elem_of_app, list_elem_of_singleton, Hs, E. naive_solver.
    + rewrite !elem_of_app, !list_elem_of_singleton, Hr. naive_solver.
Qed.

Lemma linear_any_exists input ms : (forall m, m ∈ ms -> matcher_type m = TDomain -> name_ok (pattern m) = true) ->
  LinearAnyMatcher_match_any input (LinearAnyMatcher_of ms) = true <-> exists m, m ∈ ms /\ match_str m input = true.
Proof.
  intros Hok. destruct (la_of_ok ms) as [Hf Hd Hs Hr]. revert Hf Hd Hs Hr. generalize (LinearAnyMatcher_of ms). intros l Hf Hd Hs Hr.
  unfold LinearAnyMatcher_match_any, FullMatcherSet_match_any, DomainMatcherSet_match_any, SubstrMatcherSet_match_any, SimpleMatcherSet_match_any.
  assert (Hroot : ts_matched (la_domain l) = false).
  { apply not_true_iff_false. intros (m & _ & _ & Hm)%(Hd []). by apply labels_rev_cons in Hm. }
  rewrite Hroot, set_trie_any_spec, !orb_true_iff, bool_decide_eq_true, Hf, !existsb_exists.
  setoid_rewrite <- list_elem_of_In. setoid_rewrite Hd. setoid_rewrite Hs. setoid_rewrite Hr. split.
  - intros [[[(m & Hm & Ht & Hp)|(k & Hk & m & Hm & Ht & Hp)]|(p & (m & Hm & Ht & Hp) & Hc)]|(m & [Hm Ht] & Hc)]; exists m; (split; [done|]).
    + destruct m as [q|q|q|q r]; cbn in *; try done. by apply bool_decide_eq_true.
    + destruct m as [q|q|q|q r]; cbn in *; try done. rewrite live_domain_match by by apply (Hok (DomainMatcher q)). apply bool_decide_eq_true. by rewrite Hp.
    + destruct m as [q|q|q|q r]; cbn in *; try done. by subst.
    + done.
  - intros (m & Hm & Hc). destruct m as [q|q|q|q r]; cbn in Hc.
    + left; left; left. apply bool_decide_eq_true in Hc. by exists (FullMatcher q).
    + left; left; right. rewrite live_domain_match, bool_decide_eq_true in Hc by by apply (Hok (DomainMatcher q)). eauto 6.
    + left; right. eauto 8.
    + right. eauto.
Qed.

(** ** The index matcher *)

Definition LinearIndexMatcher_of (ms : list Matcher) : LinearIndexMatcher :=
  fold_left (fun l m => (LinearIndexMatcher_add m l).2) ms LinearIndexMatcher_new.

Definition indexed (ms : list Matcher) : list (Matcher * Z) := imap (fun i m => (m, Z.of_nat i + 1)) ms.

Lemma linear_index_of ms : zlen ms < 2 ^ 32 ->
  LinearIndexMatcher_of ms = mkLinearIndexMatcher (LinearValueMatcher_of (indexed ms)) (zlen ms).
Proof.
  unfold indexed, LinearValueMatcher_of, LinearIndexMatcher_of. induction ms as [|m ms IH] using rev_ind; intros Hl; [done|].
  zlens. rewrite fold_left_app, IH, imap_app, fold_left_app by lia. cbn. unfold LinearIndexMatcher_add. cbn. rewrite to_u32_small by (unfold is_u32; zlen_facts; lia).
  rewrite Nat.add_0_r. by rewrite Z.add_0_r.
Qed.

(** ** The linear matchers against the scan *)

(** The priority order: full before domain before substring before regular expression;
    among domains the longer pattern, among substrings the later position first. *)
Definition type_rank (t : MatcherType) : Z := match t with TFull => 0 | TDomain => 1 | TSubstr => 2 | TRegex => 3 end.

Definition ranked_before (input : bytes) (a b : Matcher * Z) : Prop :=
  type_rank (matcher_type a.1) < type_rank (matcher_type b.1) \/
  matcher_type a.1 = matcher_type b.1 /\
  match matcher_type a.1 with
  | TDomain => zlen (pattern b.1) <= zlen (pattern a.1)
  | TSubstr => position input b.1 <= position input a.1
  | _ => True
  end.

(** All matchers that match, in the order of [LinearValueMatcher::match_str]. *)
Definition ranked_hits (input : bytes) adds : list (Matcher * Z) :=
  sel (fun m => of_type TFull m && match_str m input) adds ++ domain_hits input adds ++
  substr_hits input adds ++ sel (fun m => of_type TRegex m && match_str m input) adds.

Lemma ranked_hits_perm input adds : patterns_ok adds -> ranked_hits input adds ≡ₚ hits input adds.
Proof. intros Hok. unfold ranked_hits, hits. rewrite (sel_by_type (fun m => match_str m input)), domain_hits_perm, substr_hits_perm by done. done. Qed.


Lemma StronglySorted_app_2 {A} (R : A -> A -> Prop) l k :
  StronglySorted R l -> StronglySorted R k -> (forall x y, x ∈ l -> y ∈ k -> R x y) -> StronglySorted R (l ++ k).
Proof.
  intros Hl Hk. induction Hl as [|x l _ IH Hf]; intros Hc; [done|]. cbn. constructor.
  - apply IH. intros. apply Hc; [by right|done].
  - apply Forall_app. split; [done|]. apply Forall_forall. intros. by apply Hc; [left|].
Qed.

Lemma StronglySorted_mono {A} (R R' : A -> A -> Prop) l :
  StronglySorted R l -> (forall x y, x ∈ l -> y ∈ l -> R x y -> R' x y) -> StronglySorted R' l.
Proof.
  induction 1 as [|x l Hs IH Hf]; intros Hi; [constructor|]. constructor.
  - apply IH. intros. apply Hi; [by right..|done].
  - rewrite Forall_forall in Hf |- *. intros y Hy. apply Hi; [left|by right|by apply Hf].
Qed.

Lemma StronglySorted_true {A} (l : list A) : StronglySorted (fun _ _ => True) l.
Proof. induction l; [constructor|]. constructor; [done|by apply Forall_true]. Qed.

Lemma elem_of_sel f e adds : e ∈ sel f adds <-> e ∈ adds /\ f e.1 = true.
Proof. unfold sel. rewrite !list_elem_of_In. apply filter_In. Qed.

(** The reached prefixes get longer. *)
Lemma live_sorted ls : StronglySorted (fun k k' : list bytes => k `prefix_of` k') (live_prefixes ls).
Proof.
  induction ls as [|[|b l] ls IH]; cbn; [constructor..|]. constructor.
  - induction IH as [|k ks _ IHk Hf]; cbn; [constructor|]. constructor; [done|]. apply Forall_map.
    eapply Forall_impl; [exact Hf|]. intros k' Hk. by apply prefix_cons.
  - apply Forall_map, Forall_true. intros k. apply prefix_cons, prefix_nil.
Qed.

Lemma prefix_pattern_length p q : labels_rev p `prefix_of` labels_rev q -> zlen p <= zlen q.
Proof. intros [->|[r ->]]%labels_rev_prefix; zlia. Qed.

Lemma domain_hits_sorted input adds :
  StronglySorted (fun a b => zlen (pattern b.1) <= zlen (pattern a.1)) (domain_hits input adds).
Proof.
  unfold domain_hits. induction (live_sorted (labels_rev input)) as [|k ks _ IH Hf]; [constructor|]. cbn [map rev].
  rewrite concat_app. cbn [concat]. rewrite app_nil_r. apply StronglySorted_app_2; [done| |].
  - apply (StronglySorted_mono (fun _ _ => True)).
    + apply StronglySorted_true.
    + intros x y (_ & Hx)%elem_of_sel (_ & Hy)%elem_of_sel _. apply andb_true_iff in Hx as [_ Hx], Hy as [_ Hy].
      apply bool_decide_eq_true in Hx, Hy. apply prefix_pattern_length. by rewrite Hx, Hy.
  - intros x y Hx (_ & Hy)%elem_of_sel. apply andb_true_iff in Hy as [_ Hy%bool_decide_eq_true].
    apply list_elem_of_In, in_concat in Hx as (es & Hes & Hx). apply in_rev, in_map_iff in Hes as (k' & <- & Hk').
    apply list_elem_of_In, elem_of_sel in Hx as [_ Hx]. apply andb_true_iff in Hx as [_ Hx%bool_decide_eq_true].
    rewrite Forall_forall in Hf. apply prefix_pattern_length. rewrite Hx, Hy. by apply Hf, list_elem_of_In.
Qed.

Lemma of_type_elem t e adds f : e ∈ sel (fun m => of_type t m && f m) adds -> matcher_type e.1 = t.
Proof. intros [_ Ht%andb_true_iff]%elem_of_sel. destruct Ht as [Ht _]. by apply bool_decide_eq_true in Ht. Qed.

Lemma ranked_hits_sorted input adds : patterns_ok adds -> StronglySorted (ranked_before input) (ranked_hits input adds).
Proof.
  intros Hok. pose proof (domain_hits_perm input adds Hok) as Hd. pose proof (substr_hits_perm input adds) as Hs.
  assert (Hall : forall f t, (t = TFull \/ t = TRegex) -> StronglySorted (ranked_before input) (sel (fun m => of_type t m && f m) adds)).
  { intros f t Ht. apply (StronglySorted_mono (fun _ _ => True)).
    - apply StronglySorted_true.
    - intros x y Hx%of_type_elem Hy%of_type_elem _. right. rewrite Hx, Hy. by destruct Ht as [-> | ->]. }
  assert (Htd : forall e, e ∈ domain_hits input adds -> matcher_type e.1 = TDomain) by (intros e He; rewrite Hd in He; by apply of_type_elem in He).
  assert (Hts : forall e, e ∈ substr_hits input adds -> matcher_type e.1 = TSubstr) by (intros e He; rewrite Hs in He; by apply of_type_elem in He).
  unfold ranked_hits. repeat apply StronglySorted_app_2; [by apply Hall; left| | |by apply Hall; right|..].
  - eapply StronglySorted_mono; [apply domain_hits_sorted|]. intros x y Hx%Htd Hy%Htd Hl. right. by rewrite Hx, Hy.
  - eapply StronglySorted_mono; [apply substr_hits_sorted|]. intros x y Hx%Hts Hy%Hts Hl. right. by rewrite Hx, Hy.
  - intros x y Hx%Hts Hy%of_type_elem. left. by rewrite Hx, Hy.
  - intros x y Hx%Htd [Hy%Hts|Hy%of_type_elem]%elem_of_app; left; by rewrite Hx, Hy.
  - intros x y Hx%of_type_elem [Hy%Htd|[Hy%Hts|Hy%of_type_elem]%elem_of_app]%elem_of_app; left; by rewrite Hx, Hy.
Qed.

Lemma linear_value_perm input adds : patterns_ok adds ->
  LinearValueMatcher_match_str input (LinearValueMatcher_of adds) ≡ₚ map snd (hits input adds).
Proof.
  intros Hok. unfold LinearValueMatcher_match_str. cbn [composite_matches concat].
  rewrite full_group_exact, domain_group_perm, substr_group_exact, simple_group_exact, app_nil_r by done.
  rewrite <- ranked_hits_perm by done. unfold ranked_hits. rewrite !map_app, domain_hits_perm by done. done.
Qed.

Lemma linear_value_exact input adds : name_ok input = true ->
  LinearValueMatcher_match_str input (LinearValueMatcher_of adds) = map snd (ranked_hits input adds).
Proof.
  intros Hi. unfold LinearValueMatcher_match_str. cbn [composite_matches concat].
  rewrite full_group_exact, domain_group_exact, substr_group_exact, simple_group_exact, app_nil_r by done.
  unfold ranked_hits. by rewrite !map_app.
Qed.

Lemma linear_value_any input adds :
  LinearValueMatcher_match_any input (LinearValueMatcher_of adds) = true <->
  LinearValueMatcher_match_str input (LinearValueMatcher_of adds) <> [].
Proof.
  unfold LinearValueMatcher_match_any, LinearValueMatcher_match_str. cbn [composite_matches concat].
  rewrite !orb_true_iff, full_group_any, domain_group_any, substr_group_any, simple_group_any, app_nil_r.
  assert (Ha : forall l k : list Z, l ++ k <> [] <-> l <> [] \/ k <> []).
  { intros l k. destruct l; cbn; [|naive_solver]. naive_solver. }
  rewrite !Ha. tauto.
Qed.

Lemma hits_exists input adds : hits input adds <> [] <-> exists e, e ∈ adds /\ match_str e.1 input = true.
Proof.
  setoid_rewrite <- (elem_of_sel (fun m => match_str m input)). fold (hits input adds).
  destruct (hits input adds) as [|e es]; split; [done|by intros (? & ?%not_elem_of_nil)| |done]. intros _. exists e. by left.
Qed.

Lemma perm_nonempty {A} (l k : list A) : l ≡ₚ k -> l <> [] <-> k <> [].
Proof. intros Hp. split; intros Hn ->; destruct Hn; [by apply Permutation_nil_r in Hp|by apply Permutation_nil_l in Hp]. Qed.

Lemma linear_value_exists input adds : patterns_ok adds ->
  LinearValueMatcher_match_any input (LinearValueMatcher_of adds) = true <-> exists e, e ∈ adds /\ match_str e.1 input = true.
Proof.
  intros Hok. rewrite linear_value_any, (perm_nonempty _ _ (linear_value_perm _ _ Hok)), <- hits_exists. by destruct (hits input adds).
Qed.

Lemma patterns_ok_map adds : patterns_ok adds -> forall m, m ∈ map fst adds -> matcher_type m = TDomain -> name_ok (pattern m) = true.
Proof. intros Hok m ([m' v] & -> & Hin)%list_elem_of_fmap. by apply (Hok m' v). Qed.

Lemma patterns_ok_indexed adds : patterns_ok adds -> patterns_ok (indexed (map fst adds)).
Proof.
  intros Hok m v Hin. apply (patterns_ok_map adds); [done|]. unfold indexed in Hin.
  apply elem_of_lookup_imap in Hin as (i & m' & [= -> _] & Hi). by apply list_elem_of_lookup_2 in Hi.
Qed.

(** C9: the linear matchers against a scan of all matchers one by one, for any mix of full,
    domain, substring and regular-expression matchers whose domain patterns have no empty
    labels.  The values that [match_str] returns are those of exactly the matchers that
    match, each once; for a name without empty labels they come in the order of
    priority: full, then domains from the longest pattern, then substrings from the last
    position, then regular expressions.  [match_any] and the existence matcher answer
    whether there is one, and the index matcher returns the positions of the matchers,
    counted from 1. *)
Theorem linear_matchers_scan adds input : patterns_ok adds ->
  let l := LinearValueMatcher_of adds in
  LinearValueMatcher_match_str input l ≡ₚ map snd (hits input adds) /\
  (name_ok input = true -> exists es, es ≡ₚ hits input adds /\ StronglySorted (ranked_before input) es /\
     LinearValueMatcher_match_str input l = map snd es) /\
  (LinearValueMatcher_match_any input l = true <-> exists e, e ∈ adds /\ match_str e.1 input = true) /\
  LinearAnyMatcher_match_any input (LinearAnyMatcher_of (map fst adds)) = LinearValueMatcher_match_any input l /\
  (zlen adds < 2 ^ 32 ->
     LinearIndexMatcher_match_str input (LinearIndexMatcher_of (map fst adds)) ≡ₚ map snd (hits input (indexed (map fst adds)))).
Proof.
  intros Hok l. split_and!.
  - by apply linear_value_perm.
  - intros Hi. exists (ranked_hits input adds). split_and!; [by apply ranked_hits_perm|by apply ranked_hits_sorted|by apply linear_value_exact].
  - by apply linear_value_exists.
  - apply eq_true_iff_eq. rewrite linear_any_exists by by apply patterns_ok_map. unfold l. rewrite linear_value_exists by done. split.
    + intros (m & ([m' v] & -> & Hin)%list_elem_of_fmap & Hm). by exists (m', v).
    + intros (e & Hin & Hm). exists e.1. split; [by apply list_elem_of_fmap; exists e|done].
  - intros Hl. unfold LinearIndexMatcher_match_str. rewrite linear_index_of by by rewrite zlen_map. apply linear_value_perm.
    by apply patterns_ok_indexed.
Qed.
End groups.
