(* ===== verification/Mph.v ===== *)
(** [MPHMatcherGroup] of [xray-geodata/src/matcher/matcher_groups.rs]: full and domain
    rules in a two-level table (hash, displace and compress), searched with a rolling
    hash from the end of the input.  The standard library's [DefaultHasher], whose
    algorithm its documentation leaves open, and its Unicode [to_lowercase] are the
    class [StdText]. *)
From stdpp Require Import base tactics option list list_numbers numbers gmap.
From Stdlib Require Import ZArith Lia.
From S2P Require Import Prelude Bytes StrMatch DomainMatch.

Class StdText := {
  (** What a new [DefaultHasher] finishes with after hashing the seed and the string. *)
  DefaultHasher_finish : Z -> bytes -> Z;
  to_lowercase : bytes -> bytes;
}.

Definition PRIME_RK : Z := 16777619.

Definition rk_step (hash byte : Z) : Z := (hash *32 PRIME_RK) +32 byte.

Definition rolling_hash (suffix_hash : Z) (input : bytes) : Z := fold_left rk_step (rev input) suffix_hash.

(** [usize::leading_zeros] at 64 bits. *)
Definition leading_zeros (x : Z) : Z := if x =? 0 then 64 else 63 - Z.log2 x.
Definition next_pow2 (v : Z) : Z := if v <=? 1 then 1 else Z.shiftl 1 (64 - leading_zeros (v - 1)).

Record MphRuleInfo : Type := mkMphRuleInfo { ri_rolling_hash : Z; ri_full : list Z; ri_domain : list Z }.

Record MPHMatcherGroup : Type := mkMPH {
  mph_rules : list bytes;
  mph_values : list (list Z);
  mph_level0 : list Z;
  mph_level0_mask : Z;
  mph_level1 : list Z;
  mph_level1_mask : Z;
  mph_rule_infos : option (gmap bytes MphRuleInfo);
}.

Inductive MPHMatcherGroupError : Type := BuildFailed | NotBuilt | Empty.

Definition MPHMatcherGroup_new : MPHMatcherGroup := mkMPH [[]] [[]] [] 0 [] 0 (Some ∅).

Definition ri_push (t : MatcherType) (value : Z) (i : MphRuleInfo) : MphRuleInfo :=
  match t with
  | TDomain => mkMphRuleInfo (ri_rolling_hash i) (ri_full i) (ri_domain i ++ [value])
  | _ => mkMphRuleInfo (ri_rolling_hash i) (ri_full i ++ [value]) (ri_domain i)
  end.

(** [None]: the panic of a group that is already built. *)
Definition add_pattern (suffix_hash : Z) (suffix_pattern p : bytes) (t : MatcherType) (value : Z) (g : MPHMatcherGroup)
    : option (Z * MPHMatcherGroup) :=
  let full_pattern := p ++ suffix_pattern in
  match mph_rule_infos g with
  | None => None
  | Some infos =>
      Some match infos !! full_pattern with
           | Some info =>
               (ri_rolling_hash info,
                mkMPH (mph_rules g) (mph_values g) (mph_level0 g) (mph_level0_mask g) (mph_level1 g) (mph_level1_mask g)
                  (Some (<[ full_pattern := ri_push t value info ]> infos)))
           | None =>
               let rh := rolling_hash suffix_hash p in
               (rh, mkMPH (mph_rules g ++ [full_pattern]) (mph_values g ++ [[]]) (mph_level0 g) (mph_level0_mask g)
                      (mph_level1 g) (mph_level1_mask g)
                      (Some (<[ full_pattern := ri_push t value (mkMphRuleInfo rh [] []) ]> infos)))
           end
  end.

Section mph.
Context `{StdText}.

Definition seeded_hash (seed : Z) (input : bytes) : Z := to_u32 (DefaultHasher_finish seed input).

Definition add_full_matcher (p : bytes) (value : Z) (g : MPHMatcherGroup) : option MPHMatcherGroup :=
  let p := to_lowercase p in
  snd <$> add_pattern 0 [] p TFull value g.

Definition add_domain_matcher (p : bytes) (value : Z) (g : MPHMatcherGroup) : option MPHMatcherGroup :=
  let p := to_lowercase p in
  '(hash, g) ← add_pattern 0 [] p TDomain value g;
  snd <$> add_pattern hash p [DOT] TDomain value g.

(** * Building the table *)

(** The rules from [rule_idx] on into their buckets, with their values; the flag tells
    that a rule is missing from the infos. *)
Fixpoint fill_buckets (infos : gmap bytes MphRuleInfo) (mask rule_idx : Z) (rules : list bytes)
    (buckets : list (list Z)) (values : list (list Z)) : bool * list (list Z) * list (list Z) :=
  match rules with
  | [] => (true, buckets, values)
  | rule :: rules =>
      match infos !! rule with
      | None => (false, buckets, values)
      | Some info =>
          let bucket_idx := Z.to_nat (Z.land (ri_rolling_hash info) mask) in
          fill_buckets infos mask (rule_idx + 1) rules
            (<[ bucket_idx := (buckets !!! bucket_idx) ++ [rule_idx] ]> buckets)
            (<[ Z.to_nat rule_idx := ri_full info ++ ri_domain info ]> values)
      end
  end.

Definition bucket_before (buckets : list (list Z)) (a b : nat) : bool := zlen (buckets !!! b) <=? zlen (buckets !!! a).

Section table.
Context (rules : list bytes) (mask : Z).

Definition slot (seed rule_idx : Z) : nat := Z.to_nat (Z.land (seeded_hash seed (rules !!! Z.to_nat rule_idx)) mask).

Definition roll_back (hashed : list nat) (occupied : list bool) (level1 : list Z) : list bool * list Z :=
  fold_left (fun (t : list bool * list Z) (h : nat) => (<[ h := false ]> t.1, <[ h := 0 ]> t.2)) hashed (occupied, level1).

(** One pass over a bucket: whether it ran into an occupied slot, and the tables. *)
Fixpoint place_bucket (seed : Z) (bucket : list Z) (occupied : list bool) (level1 : list Z) (hashed : list nat)
    : bool * list bool * list Z * list nat :=
  match bucket with
  | [] => (true, occupied, level1, hashed)
  | rule_idx :: bucket =>
      let mem_hash := slot seed rule_idx in
      if (occupied !!! mem_hash : bool) then
        let '(o, l) := roll_back hashed occupied level1 in (false, o, l, [])
      else place_bucket seed bucket (<[ mem_hash := true ]> occupied) (<[ mem_hash := rule_idx ]> level1) (hashed ++ [mem_hash])
  end.

(** The [while] of one bucket; [None]: the fuel ran out. *)
Fixpoint seed_loop (fuel : nat) (seed : Z) (bucket : list Z) (occupied : list bool) (level1 : list Z) (hashed : list nat)
    : option (Z * list bool * list Z) :=
  if zlen hashed =? zlen bucket then Some (seed, occupied, level1)
  else
    match fuel with
    | O => None
    | S fuel =>
        let '(ok, occupied, level1, hashed) := place_bucket seed bucket occupied level1 hashed in
        seed_loop fuel (if ok then seed else seed +32 1) bucket occupied level1 hashed
    end.

Fixpoint place_all (fuel : nat) (buckets : list (list Z)) (order : list nat) (occupied : list bool) (level0 level1 : list Z)
    : option (list Z * list Z) :=
  match order with
  | [] => Some (level0, level1)
  | b :: order =>
      match seed_loop fuel 0 (buckets !!! b) occupied level1 [] with
      | Some (seed, occupied, level1) => place_all fuel buckets order occupied (<[ b := seed ]> level0) level1
      | None => None
      end
  end.
End table.

(** [None]: a bucket's search ran out of [fuel]. *)
Definition MPHMatcherGroup_build (fuel : nat) (g : MPHMatcherGroup) : option (result MPHMatcherGroupError unit * MPHMatcherGroup) :=
  match mph_rule_infos g with
  | None => Some (Err BuildFailed, g)
  | Some infos =>
      let rule_count := Z.of_nat (size infos) in
      if rule_count =? 0 then Some (Err Empty, g)
      else
        let level0_size := Z.max (next_pow2 (rule_count / 4)) 1 in
        let level0_mask := to_u32 level0_size -32 1 in
        let level1_size := next_pow2 rule_count in
        let level1_mask := to_u32 level1_size -32 1 in
        let '(ok, buckets, values) :=
          fill_buckets infos level0_mask 1 (tail (mph_rules g)) (zrepeat level0_size []) (mph_values g) in
        if negb ok then
          Some (Err BuildFailed,
                mkMPH (mph_rules g) values (zrepeat level0_size 0) level0_mask (zrepeat level1_size 0) level1_mask None)
        else
          match place_all (mph_rules g) level1_mask fuel buckets (sort_by (bucket_before buckets) (seq 0 (length buckets)))
                  (zrepeat level1_size false) (zrepeat level0_size 0) (zrepeat level1_size 0) with
          | Some (level0, level1) => Some (Ok tt, mkMPH (mph_rules g) values level0 level0_mask level1 level1_mask None)
          | None => None
          end
  end.

(** * Searching *)

Definition mph_lookup (hash : Z) (input : bytes) (g : MPHMatcherGroup) : Z :=
  let i0 := Z.to_nat (Z.land hash (mph_level0_mask g)) in
  let seed := mph_level0 g !!! i0 in
  let i1 := Z.to_nat (Z.land (seeded_hash seed input) (mph_level1_mask g)) in
  let rule_idx := mph_level1 g !!! i1 in
  if zlen (mph_rules g) <=? rule_idx then 0
  else if bool_decide (mph_rules g !!! Z.to_nat rule_idx = input) then rule_idx else 0.

Definition is_built (g : MPHMatcherGroup) : bool :=
  bool_decide (mph_rule_infos g = None) && negb (bool_decide (mph_level0 g = [])).

(** The loop from the last byte to the first: the bytes still to come, in reverse, and
    the suffix that has been read. *)
Fixpoint mph_scan (todo suffix : bytes) (hash : Z) (g : MPHMatcherGroup) (matches : list (list Z)) : Z * list (list Z) :=
  match todo with
  | [] => (hash, matches)
  | b :: todo =>
      let hash := rk_step hash b in
      let suffix := b :: suffix in
      let idx := if b =? DOT then mph_lookup hash suffix g else 0 in
      mph_scan todo suffix hash g (if idx =? 0 then matches else matches ++ [mph_values g !!! Z.to_nat idx])
  end.

Definition MPHMatcherGroup_match_str (input : bytes) (g : MPHMatcherGroup) : list Z :=
  if negb (is_built g) then []
  else
    let '(hash, matches) := mph_scan (rev input) [] 0 g [] in
    let idx := mph_lookup hash input g in
    concat (rev (if idx =? 0 then matches else matches ++ [mph_values g !!! Z.to_nat idx])).

Fixpoint mph_scan_any (todo suffix : bytes) (hash : Z) (g : MPHMatcherGroup) : option Z :=
  match todo with
  | [] => Some hash
  | b :: todo =>
      let hash := rk_step hash b in
      let suffix := b :: suffix in
      if (b =? DOT) && negb (mph_lookup hash suffix g =? 0) then None
      else mph_scan_any todo suffix hash g
  end.

(** [None] of the scan is the early [return true]. *)
Definition MPHMatcherGroup_match_any (input : bytes) (g : MPHMatcherGroup) : bool :=
  if negb (is_built g) then false
  else
    match mph_scan_any (rev input) [] 0 g with
    | None => true
    | Some hash => negb (mph_lookup hash input g =? 0)
    end.
End mph.
