(* ===== verification/MphProps.v ===== *)
(** The two-level table of [Mph]: the seeds it finds are collision-free, every rule is
    found at its own slot, and a search returns the values of exactly the rules that
    equal the input or a suffix of it that starts with a dot. *)
From stdpp Require Import base tactics option list list_numbers numbers gmap.
From Stdlib Require Import ZArith Lia.
From S2P Require Import Prelude Bytes StrMatch DomainMatch DomainMatchProps Mph.

(** * Sizes and masks *)

Lemma next_pow2_spec v : 0 <= v <= 2 ^ 32 -> exists k, 0 <= k <= 32 /\ next_pow2 v = 2 ^ k /\ v <= 2 ^ k.
Proof.
  intros Hv. unfold next_pow2. destruct (Z.leb_spec v 1); [exists 0; cbn; lia|].
  unfold leading_zeros. destruct (Z.eqb_spec (v - 1) 0); [lia|].
  exists (Z.log2 (v - 1) + 1). pose proof (Z.log2_spec (v - 1)) as Hl. pose proof (Z.log2_nonneg (v - 1)).
  assert (Z.log2 (v - 1) < 32) by (apply Z.log2_lt_pow2; lia).
  rewrite Z.shiftl_1_l. split; [lia|]. replace (64 - (63 - Z.log2 (v - 1))) with (Z.log2 (v - 1) + 1) by lia.
  split; [done|]. unfold Z.succ in Hl. lia.
Qed.

Lemma size_mask k : 0 <= k <= 32 -> to_u32 (2 ^ k) -32 1 = Z.ones k.
Proof.
  intros Hk. rewrite Z.ones_equiv. assert (0 < 2 ^ k) by (apply Z.pow_pos_nonneg; lia).
  destruct (Z.eq_dec k 32) as [->|]; [done|]. assert (2 ^ k < 2 ^ 32) by (apply Z.pow_lt_mono_r; lia).
  unfold to_u32. rewrite (Z.mod_small (2 ^ k)) by lia. rewrite Z.mod_small by lia. lia.
Qed.

Lemma land_ones_range x k : 0 <= k -> 0 <= Z.land x (Z.ones k) < 2 ^ k.
Proof. intros Hk. rewrite Z.land_ones by done. apply Z.mod_pos_bound, Z.pow_pos_nonneg; lia. Qed.

(** * Placing the buckets *)

Section table.
Context `{StdText} (rules : list bytes) (mask : Z).
Abbreviation slot := (slot rules mask).

Definition mark (hs : list nat) (o : list bool) : list bool := fold_left (fun o h => <[ h := true ]> o) hs o.
Definition write (seed : Z) (rs : list Z) (l : list Z) : list Z := fold_left (fun l r => <[ slot seed r := r ]> l) rs l.

(** A seed that gives the rules of a bucket distinct free slots. *)
Definition separates (o : list bool) (bucket : list Z) (seed : Z) : Prop :=
  NoDup (map (slot seed) bucket) /\ Forall (fun h => o !! h = Some false) (map (slot seed) bucket).

#[export] Instance separates_dec o bucket seed : Decision (separates o bucket seed).
Proof. unfold separates. apply _. Defined.

Lemma lookup_mark hs o i : mark hs o !! i = if bool_decide (i ∈ hs) then (fun _ => true) <$> o !! i else o !! i.
Proof.
  revert o. induction hs as [|h hs IH]; intros o; cbn; [done|]. rewrite IH.
  destruct (decide (i = h)) as [->|Hn].
  - rewrite (bool_decide_true (h ∈ h :: hs)) by left. destruct (decide (h < length o)%nat) as [Hl|Hl].
    + rewrite list_lookup_insert_eq by done. destruct (lookup_lt_is_Some_2 o h Hl) as [b ->]. by destruct (bool_decide _).
    + rewrite list_insert_ge, !lookup_ge_None_2 by (rewrite ?length_insert; lia). by destruct (bool_decide _).
  - rewrite list_lookup_insert_ne by done. by rewrite (bool_decide_ext (i ∈ h :: hs) (i ∈ hs)) by set_solver.
Qed.

Lemma length_mark hs o : length (mark hs o) = length o.
Proof. revert o. induction hs as [|h hs IH]; intros o; cbn; [done|]. by rewrite IH, length_insert. Qed.
Lemma length_write seed rs l : length (write seed rs l) = length l.
Proof. unfold write. revert l. induction rs as [|r rs IH]; intros l; cbn; [done|]. by rewrite IH, length_insert. Qed.

Lemma lookup_write_other seed rs l i : i ∉ map (slot seed) rs -> write seed rs l !! i = l !! i.
Proof.
  revert l. induction rs as [|r rs IH]; intros l; cbn; [done|]. intros [Hn Hr]%not_elem_of_cons.
  unfold write in IH. by rewrite IH, list_lookup_insert_ne by done.
Qed.

Lemma lookup_write seed rs l r : NoDup (map (slot seed) rs) -> r ∈ rs -> (slot seed r < length l)%nat ->
  write seed rs l !! slot seed r = Some r.
Proof.
  revert l. induction rs as [|r' rs IH]; intros l; cbn; [by intros _ ?%not_elem_of_nil|].
  intros [Hr' Hnd]%NoDup_cons [-> |Hr]%elem_of_cons Hl.
  - change (fold_left _ rs ?x) with (write seed rs x). rewrite lookup_write_other by done. by apply list_lookup_insert_eq.
  - apply IH; [done..|]. by rewrite length_insert.
Qed.

Lemma mark_snoc hs h o : mark (hs ++ [h]) o = <[ h := true ]> (mark hs o).
Proof. unfold mark. by rewrite fold_left_app. Qed.
Lemma write_snoc seed rs r l : write seed (rs ++ [r]) l = <[ slot seed r := r ]> (write seed rs l).
Proof. unfold write. by rewrite fold_left_app. Qed.

(** Rolling back puts free slots as they were. *)
Lemma roll_back_lookup hs o l i :
  (roll_back hs o l).1 !! i = (if bool_decide (i ∈ hs) then (fun _ => false) <$> o !! i else o !! i) /\
  (roll_back hs o l).2 !! i = (if bool_decide (i ∈ hs) then (fun _ => 0) <$> l !! i else l !! i).
Proof.
  unfold roll_back. revert o l. induction hs as [|h hs IH]; intros o l; cbn; [done|].
  destruct (IH (<[h:=false]> o) (<[h:=0]> l)) as [-> ->]. clear IH.
  destruct (decide (i = h)) as [->|Hn].
  - rewrite (bool_decide_true (h ∈ h :: hs)) by left. split; match goal with |- context [<[h:=?v]> ?l] => destruct (decide (h < length l)%nat) as [Hl|Hl] end;
      try (rewrite list_lookup_insert_eq by done; destruct (lookup_lt_is_Some_2 _ h Hl) as [b ->]; by destruct (bool_decide _));
      (rewrite list_insert_ge, !lookup_ge_None_2 by (rewrite ?length_insert; lia); by destruct (bool_decide _)).
  - rewrite !list_lookup_insert_ne by done. by rewrite !(bool_decide_ext (i ∈ h :: hs) (i ∈ hs)) by set_solver.
Qed.

Definition free_zero (o : list bool) (l : list Z) : Prop := forall i, o !! i = Some false -> l !! i = Some 0.

Lemma roll_back_restores seed rs o l : free_zero o l -> Forall (fun h => o !! h = Some false) (map (slot seed) rs) ->
  roll_back (map (slot seed) rs) (mark (map (slot seed) rs) o) (write seed rs l) = (o, l).
Proof.
  intros Hz Hf. rewrite Forall_forall in Hf. rewrite (surjective_pairing (roll_back _ _ _)). f_equal; apply list_eq; intros i;
    destruct (roll_back_lookup (map (slot seed) rs) (mark (map (slot seed) rs) o) (write seed rs l) i) as [E1 E2].
  - rewrite E1, lookup_mark. destruct (decide (i ∈ map (slot seed) rs)) as [Hi|Hi].
    + rewrite !bool_decide_true by done. by rewrite (Hf i Hi).
    + by rewrite !bool_decide_false.
  - rewrite E2. destruct (decide (i ∈ map (slot seed) rs)) as [Hi|Hi].
    + rewrite bool_decide_true by done. pose proof (Hz i (Hf i Hi)) as Hli. rewrite Hli.
      destruct (lookup_lt_is_Some_2 (write seed rs l) i) as [x ->]; [|done]. rewrite length_write. by eapply lookup_lt_Some.
    + rewrite bool_decide_false by done. by apply lookup_write_other.
Qed.

(** One pass over a bucket, after [pre] has been placed. *)
Lemma place_bucket_spec seed o l pre bucket : free_zero o l ->
  separates o pre seed -> Forall (fun h => h < length o)%nat (map (slot seed) bucket) ->
  place_bucket rules mask seed bucket (mark (map (slot seed) pre) o) (write seed pre l) (map (slot seed) pre) =
  if bool_decide (separates o (pre ++ bucket) seed)
  then (true, mark (map (slot seed) (pre ++ bucket)) o, write seed (pre ++ bucket) l, map (slot seed) (pre ++ bucket))
  else (false, o, l, []).
Proof.
  intros Hz. revert pre. induction bucket as [|r bucket IH]; intros pre [Hnd Hfr] Hr; cbn [place_bucket].
  - rewrite app_nil_r. by rewrite bool_decide_true.
  - cbn in Hr. apply Forall_cons in Hr as [Hlt Hr]. destruct (lookup_lt_is_Some_2 o _ Hlt) as [b Eb].
    assert (E : mark (map (slot seed) pre) o !!! slot seed r = if bool_decide (slot seed r ∈ map (slot seed) pre) then true else b).
    { apply list_lookup_total_correct. rewrite lookup_mark, Eb. by destruct (bool_decide _). }
    rewrite E. destruct (decide (slot seed r ∉ map (slot seed) pre /\ b = false)) as [[Hni ->]|Hc].
    + rewrite bool_decide_false by done. rewrite <- mark_snoc, <- write_snoc.
      change [slot seed r] with (map (slot seed) [r]). rewrite <- map_app, IH.
      * by rewrite <- app_assoc.
      * split; rewrite map_app; [apply NoDup_app; split; [done|]; split; [cbn; set_solver|apply NoDup_singleton]|].
        apply Forall_app. split; [done|]. by repeat constructor.
      * done.
    + replace (if bool_decide (slot seed r ∈ map (slot seed) pre) then true else b) with true
        by (destruct (decide (slot seed r ∈ map (slot seed) pre)); [by rewrite bool_decide_true|rewrite bool_decide_false by done; destruct b; [done|by destruct Hc]]).
      rewrite roll_back_restores by done. rewrite bool_decide_false; [done|]. intros [Hn Hf].
      rewrite map_app in Hn, Hf. cbn in Hn, Hf. destruct Hc. split.
      * intros Hi. apply NoDup_app in Hn as (_ & Hn & _). apply (Hn _ Hi). by left.
      * apply Forall_app in Hf as [_ Hf]. inversion_clear Hf. congruence.
Qed.

(** The search of one bucket. *)
Lemma seed_loop_spec fuel seed bucket o l : free_zero o l ->
  (forall s, Forall (fun h => h < length o)%nat (map (slot s) bucket)) ->
  match seed_loop rules mask fuel seed bucket o l [] with
  | Some (s, o', l') => separates o bucket s /\ o' = mark (map (slot s) bucket) o /\ l' = write s bucket l
  | None => forall s, 0 <= seed -> seed + Z.of_nat fuel <= 2 ^ 32 -> seed <= s < seed + Z.of_nat fuel -> ~ separates o bucket s
  end.
Proof.
  intros Hz Hr. destruct bucket as [|r bucket]; [destruct fuel; (split_and!; [split; constructor|done..])|].
  assert (E0 : (zlen (@nil nat) =? zlen (r :: bucket)) = false) by (apply Z.eqb_neq; unfold zlen; cbn; lia).
  revert seed. induction fuel as [|fuel IH]; intros seed; cbn [seed_loop]; rewrite E0; [intros; lia|].
  pose proof (place_bucket_spec seed o l [] (r :: bucket) Hz) as Hp. rewrite app_nil_l in Hp.
  specialize (Hp ltac:(split; constructor) (Hr seed)).
  change (mark (map (slot seed) []) o) with o in Hp. change (write seed [] l) with l in Hp. change (map (slot seed) []) with (@nil nat) in Hp.
  rewrite Hp. clear Hp. destruct (decide (separates o (r :: bucket) seed)) as [Hs|Hs].
  - rewrite bool_decide_true by done.
    assert (El : zlen (map (slot seed) (r :: bucket)) =? zlen (r :: bucket) = true) by (rewrite zlen_map; apply Z.eqb_refl).
    destruct fuel; cbn [seed_loop]; rewrite El; done.
  - rewrite bool_decide_false by done. specialize (IH (seed +32 1)). destruct (seed_loop _ _ _ _ _ _ _ _) as [[[s o'] l']|]; [done|].
    intros s Hs0 Hf Hin. destruct (Z.eq_dec s seed) as [->|]; [done|]. rewrite to_u32_small in IH by (unfold is_u32; lia). apply IH; lia.
Qed.

(** All the buckets, one after the other. *)
Definition count_true (o : list bool) : nat := length (List.filter (fun b => b) o).

Lemma count_true_insert h o : o !! h = Some false -> count_true (<[ h := true ]> o) = S (count_true o).
Proof.
  unfold count_true. revert h. induction o as [|b o IH]; intros [|h]; cbn; [done..|by intros [= ->]|].
  intros Ho%IH. destruct b; cbn; [f_equal|]; exact Ho.
Qed.

Lemma count_true_mark hs o : NoDup hs -> Forall (fun h => o !! h = Some false) hs ->
  count_true (mark hs o) = (length hs + count_true o)%nat.
Proof.
  intros Hnd. revert o. induction Hnd as [|h hs Hh Hnd IH]; intros o Hf; [done|]. inversion_clear Hf as [|? ? Ho Hfs].
  change (mark (h :: hs) o) with (mark hs (<[ h := true ]> o)). rewrite IH; [rewrite count_true_insert by done; cbn [length]; lia|].
  rewrite Forall_forall in Hfs |- *. intros h' Hin. rewrite list_lookup_insert_ne; [by apply Hfs|]. by intros ->.
Qed.

Context (n : nat) (Hslot : forall s r, (slot s r < n)%nat) (buckets : list (list Z)).
Hypothesis Hbuckets : forall b, Forall (fun r => 0 <= r) (buckets !!! b).

Definition load (bs : list nat) : nat := sum_list_with (fun b => length (buckets !!! b)) bs.

Lemma load_cons b bs : load (b :: bs) = (length (buckets !!! b) + load bs)%nat.
Proof. done. Qed.

Record placed (finished : list nat) (o : list bool) (l0 l1 : list Z) : Prop := {
  pl_o : length o = n;
  pl_l1 : length l1 = n;
  pl_zero : free_zero o l1;
  pl_nonneg : Forall (fun r => 0 <= r) l1;
  pl_found b r : b ∈ finished -> r ∈ buckets !!! b ->
    l1 !! slot (l0 !!! b) r = Some r /\ o !! slot (l0 !!! b) r = Some true;
  pl_count : count_true o = load finished;
}.

Lemma slots_in_range s bucket : Forall (fun h => h < n)%nat (map (slot s) bucket).
Proof. apply Forall_map, Forall_true. intros r. apply Hslot. Qed.

Lemma write_nonneg s rs l : Forall (fun r => 0 <= r) rs -> Forall (fun r => 0 <= r) l -> Forall (fun r => 0 <= r) (write s rs l).
Proof.
  intros Hrs. revert l. induction Hrs as [|r rs Hr _ IH]; intros l Hl; [done|]. apply IH. by apply Forall_insert.
Qed.

Lemma placed_step finished o l0 l1 b s : placed finished o l0 l1 -> b ∉ finished -> (b < length l0)%nat ->
  separates o (buckets !!! b) s ->
  placed (b :: finished) (mark (map (slot s) (buckets !!! b)) o) (<[ b := s ]> l0) (write s (buckets !!! b) l1).
Proof.
  intros [Ho Hl Hz Hn Hf Hc] Hb Hlt [Hnd Hfree]. pose proof Hfree as Hfree'. rewrite Forall_forall in Hfree'. split.
  - by rewrite length_mark.
  - by rewrite length_write.
  - intros i. rewrite lookup_mark. destruct (decide (i ∈ map (slot s) (buckets !!! b))) as [Hi|Hi].
    + rewrite bool_decide_true by done. by destruct (o !! i).
    + rewrite bool_decide_false, lookup_write_other by done. apply Hz.
  - apply write_nonneg; [apply Hbuckets|done].
  - intros b' r [->|Hb']%elem_of_cons Hr.
    + rewrite list_lookup_total_insert_eq by done. split; [apply lookup_write; [done..|]; rewrite Hl; apply Hslot|].
      assert (Hi : slot s r ∈ map (slot s) (buckets !!! b)) by by apply list_elem_of_fmap_2.
      by rewrite lookup_mark, bool_decide_true, (Hfree' _ Hi).
    + rewrite list_lookup_total_insert_ne by (by intros ->). destruct (Hf b' r Hb' Hr) as [H1 H2].
      assert (Hi : slot (l0 !!! b') r ∉ map (slot s) (buckets !!! b)) by (intros Hi; apply Hfree' in Hi; congruence).
      by rewrite lookup_write_other, lookup_mark, bool_decide_false.
  - rewrite count_true_mark, Hc by done. cbn. by rewrite length_map.
Qed.

Lemma place_all_spec fuel order : NoDup order -> forall finished o l0 l1, placed finished o l0 l1 ->
  (forall b, b ∈ order -> b ∉ finished /\ (b < length l0)%nat) ->
  match place_all rules mask fuel buckets order o l0 l1 with
  | Some (l0', l1') => length l0' = length l0 /\ exists o', placed (rev order ++ finished) o' l0' l1'
  | None => exists b o', b ∈ order /\ length o' = n /\ (count_true o' + length (buckets !!! b) <= load order + load finished)%nat /\
      (Z.of_nat fuel <= 2 ^ 32 -> forall s, 0 <= s < Z.of_nat fuel -> ~ separates o' (buckets !!! b) s)
  end.
Proof.
  induction 1 as [|b order Hb Hnd IH]; intros finished o l0 l1 Hp Ho; cbn [place_all].
  - split; [done|]. by exists o.
  - destruct (Ho b) as [Hbf Hlt]; [by left|]. pose proof (seed_loop_spec fuel 0 (buckets !!! b) o l1 (pl_zero _ _ _ _ Hp)) as Hs.
    rewrite (pl_o _ _ _ _ Hp) in Hs. specialize (Hs (fun s => slots_in_range s _)).
    destruct (seed_loop _ _ _ _ _ _ _ _) as [[[s o'] l']|].
    + destruct Hs as (Hsep & -> & ->). pose proof (placed_step _ _ _ _ b s Hp Hbf Hlt Hsep) as Hp'.
      specialize (IH _ _ _ _ Hp'). destruct (place_all _ _ _ _ _ _ _ _) as [[l0' l1']|].
      * destruct IH as (Hl & o' & Hp2).
        { intros b' Hb'. rewrite length_insert. destruct (Ho b') as [Hn Hl]; [by right|]. split; [|done].
          intros [->|?]%elem_of_cons; done. }
        split; [by rewrite Hl, length_insert|]. exists o'. cbn [rev]. by rewrite <- app_assoc.
      * destruct IH as (b' & o' & Hb' & Hl & Hc & Hno).
        { intros b' Hb'. rewrite length_insert. destruct (Ho b') as [Hn Hl]; [by right|]. split; [|done].
          intros [->|?]%elem_of_cons; done. }
        exists b', o'. split_and!; [by right|done| |done]. rewrite load_cons in Hc |- *. lia.
    + exists b, o. split_and!; [by left|by apply (pl_o _ _ _ _ Hp)| |].
      * rewrite (pl_count _ _ _ _ Hp), load_cons. lia.
      * intros Hf s Hin. apply Hs; lia.
Qed.
End table.

(** * Adding rules *)

Lemma rolling_hash_app h p s : rolling_hash h (p ++ s) = rolling_hash (rolling_hash h s) p.
Proof. unfold rolling_hash. by rewrite rev_app_distr, fold_left_app. Qed.

Lemma rolling_hash_cons h b s : rolling_hash h (b :: s) = rk_step (rolling_hash h s) b.
Proof. change (b :: s) with ([b] ++ s). by rewrite rolling_hash_app. Qed.

(** What has been pushed: the type, the key and the value. *)
Abbreviation push := (MatcherType * bytes * Z)%type.

Definition keyed (d : bool) (k : bytes) (ps : list push) : list Z :=
  map snd (List.filter (fun p => bool_decide (p.1.1 = TDomain) && d || negb (bool_decide (p.1.1 = TDomain)) && negb d)
             (List.filter (fun p => bool_decide (p.1.2 = k)) ps)).

(** The values of a key: the full rules' before the domain rules'. *)
Definition values_at (k : bytes) (ps : list push) : list Z := keyed false k ps ++ keyed true k ps.

Lemma keyed_snoc d k ps t k' v : keyed d k (ps ++ [(t, k', v)]) =
  keyed d k ps ++ (if bool_decide (k' = k) && (bool_decide (t = TDomain) && d || negb (bool_decide (t = TDomain)) && negb d) then [v] else []).
Proof.
  unfold keyed. rewrite !List.filter_app, map_app. f_equal. cbn. destruct (bool_decide (k' = k)); [|done]. cbn.
  by destruct (bool_decide (t = TDomain) && d || _).
Qed.

Record adding (ps : list push) (g : MPHMatcherGroup) (infos : gmap bytes MphRuleInfo) (keys : list bytes) : Prop := {
  ad_infos : mph_rule_infos g = Some infos;
  ad_rules : mph_rules g = [] :: keys;
  ad_nodup : NoDup keys;
  ad_values : length (mph_values g) = length (mph_rules g);
  ad_dom k : is_Some (infos !! k) <-> k ∈ keys;
  ad_size : size infos = length keys;
  ad_info k i : infos !! k = Some i ->
    ri_rolling_hash i = rolling_hash 0 k /\ ri_full i = keyed false k ps /\ ri_domain i = keyed true k ps;
  ad_keys k : k ∈ keys <-> exists t v, (t, k, v) ∈ ps;
}.

Lemma adding_new : adding [] MPHMatcherGroup_new ∅ [].
Proof.
  split; try done; [constructor|intros k; split; [by intros []|by intros ?%not_elem_of_nil]|].
  intros k. split; [by intros ?%not_elem_of_nil|by intros (? & ? & ?%not_elem_of_nil)].
Qed.

Lemma keyed_absent d k (ps : list push) : (forall t v, (t, k, v) ∉ ps) -> keyed d k ps = [].
Proof.
  intros Hn. unfold keyed. induction ps as [|[[t k'] v] ps IH]; [done|]. cbn. rewrite bool_decide_false.
  - apply IH. intros t' v' Hin. apply (Hn t' v'). by right.
  - intros ->. apply (Hn t v). by left.
Qed.

Lemma exists_push_snoc k (ps : list push) t k' v : (exists t0 v0, (t0, k, v0) ∈ ps ++ [(t, k', v)]) <-> (exists t0 v0, (t0, k, v0) ∈ ps) \/ k = k'.
Proof. setoid_rewrite elem_of_app. setoid_rewrite list_elem_of_singleton. naive_solver. Qed.

Lemma ri_push_spec t v i k ps :
  ri_rolling_hash i = rolling_hash 0 k -> ri_full i = keyed false k ps -> ri_domain i = keyed true k ps ->
  let i' := ri_push t v i in
  ri_rolling_hash i' = rolling_hash 0 k /\ ri_full i' = keyed false k (ps ++ [(t, k, v)]) /\ ri_domain i' = keyed true k (ps ++ [(t, k, v)]).
Proof.
  intros H1 H2 H3. rewrite !keyed_snoc, bool_decide_true by done. destruct t; cbn; rewrite ?H1, ?H2, ?H3, ?app_nil_r; done.
Qed.

Lemma add_pattern_ok ps g infos keys sh sp p t v : adding ps g infos keys -> rolling_hash sh p = rolling_hash 0 (p ++ sp) ->
  exists g' infos' keys', add_pattern sh sp p t v g = Some (rolling_hash 0 (p ++ sp), g') /\
    adding (ps ++ [(t, p ++ sp, v)]) g' infos' keys'.
Proof.
  intros [Hi Hr Hnd Hv Hd Hs Hin Hk] Hh. unfold add_pattern. rewrite Hi. generalize dependent (p ++ sp). intros k Hh.
  destruct (infos !! k) as [i|] eqn:E.
  - destruct (Hin k i E) as (H1 & H2 & H3). rewrite H1. eexists _, _, keys. split; [done|]. split; cbn; try done.
    + intros k'. rewrite lookup_insert_is_Some, Hd. split; [intros [<-|[_ ?]]; [apply Hd; by rewrite E|done]|intros Hk'].
      destruct (decide (k = k')); [by left|by right].
    + rewrite map_size_insert_Some by by rewrite E. done.
    + intros k' i' [[<- <-]|[Hne Hi']]%lookup_insert_Some; [by apply ri_push_spec|].
      rewrite !keyed_snoc, bool_decide_false, !app_nil_r by done. by apply Hin.
    + intros k'. rewrite exists_push_snoc, <- Hk. split; [by left|intros [?| ->]; [done|]]. apply Hd. by rewrite E.
  - assert (Hkn : k ∉ keys) by (intros [? ?]%Hd; congruence). rewrite Hh.
    eexists _, _, (keys ++ [k]). split; [done|]. split; cbn; try done.
    + by rewrite Hr.
    + apply NoDup_app. split; [done|]. split; [set_solver|apply NoDup_singleton].
    + rewrite !length_app, Hv. done.
    + intros k'. rewrite lookup_insert_is_Some, Hd, elem_of_app, list_elem_of_singleton. destruct (decide (k = k')); naive_solver.
    + rewrite map_size_insert_None, length_app, Hs by done. cbn. lia.
    + intros k' i' [[<- <-]|[Hne Hi']]%lookup_insert_Some.
      * assert (Ha : forall d, keyed d k ps = []) by (intros d; apply keyed_absent; intros t' v' Hp; apply Hkn, Hk; eauto).
        apply ri_push_spec; cbn; by rewrite ?Ha.
      * rewrite !keyed_snoc, bool_decide_false, !app_nil_r by done. by apply Hin.
    + intros k'. rewrite exists_push_snoc, <- Hk, elem_of_app, list_elem_of_singleton. done.
Qed.

(** The pushes of a rule. *)
Definition rule_pushes `{StdText} (t : MatcherType) (p : bytes) (v : Z) : list push :=
  match t with
  | TDomain => [(TDomain, to_lowercase p, v); (TDomain, DOT :: to_lowercase p, v)]
  | _ => [(TFull, to_lowercase p, v)]
  end.

Lemma add_full_ok `{StdText} ps g infos keys p v : adding ps g infos keys ->
  exists g' infos' keys', add_full_matcher p v g = Some g' /\ adding (ps ++ rule_pushes TFull p v) g' infos' keys'.
Proof.
  intros Ha. unfold add_full_matcher. destruct (add_pattern_ok ps g infos keys 0 [] (to_lowercase p) TFull v Ha) as (g' & i' & k' & -> & Ha').
  { by rewrite app_nil_r. } rewrite app_nil_r in Ha'. by exists g', i', k'.
Qed.

Lemma add_domain_ok `{StdText} ps g infos keys p v : adding ps g infos keys ->
  exists g' infos' keys', add_domain_matcher p v g = Some g' /\ adding (ps ++ rule_pushes TDomain p v) g' infos' keys'.
Proof.
  intros Ha. unfold add_domain_matcher. destruct (add_pattern_ok ps g infos keys 0 [] (to_lowercase p) TDomain v Ha) as (g1 & i1 & k1 & -> & Ha1).
  { by rewrite app_nil_r. } rewrite app_nil_r in *. cbn [mbind option_bind].
  destruct (add_pattern_ok _ g1 i1 k1 (rolling_hash 0 (to_lowercase p)) (to_lowercase p) [DOT] TDomain v Ha1) as (g2 & i2 & k2 & -> & Ha2).
  { by rewrite rolling_hash_app. } exists g2, i2, k2. split; [done|]. by rewrite <- app_assoc in Ha2.
Qed.

(** * Filling the buckets *)

Section filling.
Context (mask : Z).

Definition bucket_of (k : bytes) : nat := Z.to_nat (Z.land (rolling_hash 0 k) mask).

Fixpoint bucket_list (idx : Z) (ks : list bytes) (b : nat) : list Z :=
  match ks with
  | [] => []
  | k :: ks => if bool_decide (bucket_of k = b) then idx :: bucket_list (idx + 1) ks b else bucket_list (idx + 1) ks b
  end.

Lemma elem_of_bucket_list idx ks b r :
  r ∈ bucket_list idx ks b <-> exists j k, ks !! j = Some k /\ r = idx + Z.of_nat j /\ bucket_of k = b.
Proof.
  revert idx. induction ks as [|k ks IH]; intros idx; cbn; [split; [by intros ?%not_elem_of_nil|by intros (? & ? & ? & _)]|].
  assert (Hstep : (exists j k0, (k :: ks) !! j = Some k0 /\ r = idx + Z.of_nat j /\ bucket_of k0 = b) <->
                  (r = idx /\ bucket_of k = b) \/ exists j k0, ks !! j = Some k0 /\ r = idx + 1 + Z.of_nat j /\ bucket_of k0 = b).
  { split.
    - intros ([|j] & k0 & E & -> & Hb); [injection E as <-; left; split; [lia|done]|right; exists j, k0; split; [done|]; split; [lia|done]].
    - intros [[-> Hb]|(j & k0 & E & -> & Hb)]; [exists 0%nat, k; split; [done|]; split; [lia|done]|exists (S j), k0; split; [done|]; split; [lia|done]]. }
  rewrite Hstep, <- IH. destruct (decide (bucket_of k = b)) as [E|E].
  - rewrite bool_decide_true, elem_of_cons by done. naive_solver.
  - rewrite bool_decide_false by done. naive_solver.
Qed.

Lemma bucket_list_nodup idx ks b : NoDup (bucket_list idx ks b) /\ Forall (fun r => idx <= r) (bucket_list idx ks b).
Proof.
  revert idx. induction ks as [|k ks IH]; intros idx; cbn; [split; constructor|]. destruct (IH (idx + 1)) as [Hn Hf].
  assert (Hf' : Forall (fun r => idx <= r) (bucket_list (idx + 1) ks b)) by (eapply Forall_impl; [exact Hf|cbn; lia]).
  destruct (bool_decide (bucket_of k = b)); [|done]. split; [|by constructor; [lia|]]. constructor; [|done].
  intros Hin. rewrite Forall_forall in Hf. specialize (Hf _ Hin). lia.
Qed.

(** Every rule is in one bucket. *)
Lemma sum_bucket_lists n idx ks : (forall k, k ∈ ks -> (bucket_of k < n)%nat) ->
  sum_list_with (fun b => length (bucket_list idx ks b)) (seq 0 n) = length ks.
Proof.
  revert idx. induction ks as [|k ks IH]; intros idx Hk; cbn.
  - induction (seq 0 n); cbn; lia.
  - rewrite <- (IH (idx + 1)) by (intros; apply Hk; by right).
    assert (Hone : forall l, NoDup l ->
      sum_list_with (fun b => length (if bool_decide (bucket_of k = b) then idx :: bucket_list (idx + 1) ks b else bucket_list (idx + 1) ks b)) l =
      ((if bool_decide (bucket_of k ∈ l) then 1 else 0) + sum_list_with (fun b => length (bucket_list (idx + 1) ks b)) l)%nat).
    { induction 1 as [|b l Hb _ IHl]; [done|]. cbn. rewrite IHl. destruct (decide (bucket_of k = b)) as [E|E].
      - rewrite !(bool_decide_true (bucket_of k = b)), (bool_decide_false (bucket_of k ∈ l)), bool_decide_true by (rewrite ?E; set_solver). cbn. lia.
      - rewrite (bool_decide_false (bucket_of k = b)) by done. rewrite (bool_decide_ext (bucket_of k ∈ b :: l) (bucket_of k ∈ l)) by set_solver. lia. }
    rewrite Hone by apply NoDup_seq. rewrite bool_decide_true; [done|]. apply elem_of_seq. specialize (Hk k ltac:(by left)). lia.
Qed.
Context (infos : gmap bytes MphRuleInfo) (ps : list push).
Hypothesis infos_ok : forall k i, infos !! k = Some i ->
  ri_rolling_hash i = rolling_hash 0 k /\ ri_full i = keyed false k ps /\ ri_domain i = keyed true k ps.

Lemma fill_buckets_spec idx ks buckets values :
  (forall k, k ∈ ks -> is_Some (infos !! k) /\ (bucket_of k < length buckets)%nat) -> 0 <= idx -> zlen values = idx + zlen ks ->
  exists buckets' values', fill_buckets infos mask idx ks buckets values = (true, buckets', values') /\
    length buckets' = length buckets /\ length values' = length values /\
    (forall b, buckets' !!! b = (buckets !!! b) ++ bucket_list idx ks b) /\
    (forall i, (i < Z.to_nat idx)%nat -> values' !! i = values !! i) /\
    (forall j k, ks !! j = Some k -> values' !! Z.to_nat (idx + Z.of_nat j) = Some (values_at k ps)).
Proof.
  revert idx buckets values. induction ks as [|k ks IH]; intros idx buckets values Hk Hidx Hl; cbn [fill_buckets].
  - exists buckets, values. split_and!; try done. intros b. by rewrite app_nil_r.
  - destruct (Hk k) as [[i Ei] Hb]; [by left|]. rewrite Ei. destruct (infos_ok k i Ei) as (H1 & H2 & H3). rewrite H1, H2, H3.
    change (keyed false k ps ++ keyed true k ps) with (values_at k ps). fold (bucket_of k).
    destruct (IH (idx + 1) (<[bucket_of k:=(buckets !!! bucket_of k) ++ [idx]]> buckets) (<[Z.to_nat idx:=values_at k ps]> values))
      as (bs' & vs' & -> & Hlb & Hlv & Hbs & Hlow & Hvs).
    { intros k' Hk'. rewrite length_insert. apply Hk. by right. } { lia. } { unfold zlen in *. rewrite length_insert. cbn in Hl. lia. }
    exists bs', vs'. split; [done|]. rewrite length_insert in Hlb, Hlv. split_and!; try done.
    + intros b. rewrite Hbs. cbn. destruct (decide (bucket_of k = b)) as [<-|E].
      * rewrite list_lookup_total_insert_eq, bool_decide_true, <- app_assoc by done. done.
      * by rewrite list_lookup_total_insert_ne, bool_decide_false.
    + intros j Hj. rewrite Hlow by lia. by rewrite list_lookup_insert_ne by lia.
    + intros [|j] k' E.
      * injection E as <-. rewrite Hlow, Z.add_0_r by lia. apply list_lookup_insert_eq. unfold zlen in Hl. cbn in Hl. lia.
      * replace (idx + Z.of_nat (S j)) with (idx + 1 + Z.of_nat j) by lia. by apply Hvs.
Qed.

End filling.

(** * The finished table *)

Section built.
Context `{StdText}.

Record built (ps : list push) (keys : list bytes) (g : MPHMatcherGroup) : Prop := {
  bt_built : is_built g = true;
  bt_hit k j : keys !! j = Some k ->
    mph_lookup (rolling_hash 0 k) k g = Z.of_nat j + 1 /\ mph_values g !!! S j = values_at k ps;
  bt_miss k : k ∉ keys -> mph_lookup (rolling_hash 0 k) k g = 0;
}.

(** A bucket of rules that none of the seeds below [fuel] separates, though there are
    free slots enough. *)
Definition inseparable (g : MPHMatcherGroup) (size : Z) (fuel : nat) : Prop :=
  exists bucket occupied, NoDup bucket /\ Forall (fun r => 1 <= r < zlen (mph_rules g)) bucket /\
    zlen occupied = size /\ Z.of_nat (count_true occupied) + zlen bucket <= size /\
    forall s, 0 <= s < Z.of_nat fuel -> ~ separates (mph_rules g) (size - 1) occupied bucket s.

Lemma load_perm buckets l l' : l ≡ₚ l' -> load buckets l = load buckets l'.
Proof. unfold load. induction 1; cbn; lia. Qed.

Section sized.
Context (keys : list bytes) (k0 k1 : Z) (buckets : list (list Z)) (Hk0 : 0 <= k0 <= 32) (Hk1 : 0 <= k1 <= 32).
Hypothesis Hnd : NoDup keys.
Hypothesis Hlb : length buckets = Z.to_nat (2 ^ k0).
Hypothesis Hbs : forall b, buckets !!! b = bucket_list (Z.ones k0) 1 keys b.
Abbreviation rules := ([] :: keys).

Lemma sized_slot s r : (slot rules (Z.ones k1) s r < Z.to_nat (2 ^ k1))%nat.
Proof using Hk1. clear - Hk1. unfold slot. pose proof (land_ones_range (seeded_hash s (rules !!! Z.to_nat r)) k1). lia. Qed.

Lemma sized_bucket k : (bucket_of (Z.ones k0) k < Z.to_nat (2 ^ k0))%nat.
Proof using Hk0. clear - Hk0. unfold bucket_of. pose proof (land_ones_range (rolling_hash 0 k) k0). lia. Qed.

Lemma sized_range b : Forall (fun r => 1 <= r < zlen rules) (buckets !!! b).
Proof using Hbs.
  clear - Hbs. rewrite Hbs, Forall_forall. intros r (j & k & Ej & -> & _)%elem_of_bucket_list. apply lookup_lt_Some in Ej. unfold zlen. cbn. lia.
Qed.

Lemma sized_nonneg b : Forall (fun r => 0 <= r) (buckets !!! b).
Proof using Hbs. clear - Hbs. eapply Forall_impl; [by apply sized_range|cbn; lia]. Qed.

Lemma sized_load order : order ≡ₚ seq 0 (length buckets) -> load buckets order = length keys.
Proof.
  intros Ho. rewrite (load_perm buckets _ _ Ho), Hlb, <- (sum_bucket_lists (Z.ones k0) (Z.to_nat (2 ^ k0)) 1 keys) by (intros; apply sized_bucket).
  unfold load. induction (seq 0 (Z.to_nat (2 ^ k0))) as [|b l IH]; cbn; [done|]. by rewrite IH, Hbs.
Qed.

Lemma placed_initial : placed rules (Z.ones k1) (Z.to_nat (2 ^ k1)) buckets [] (zrepeat (2 ^ k1) false) (zrepeat (2 ^ k0) 0) (zrepeat (2 ^ k1) 0).
Proof.
  unfold zrepeat. split; [by rewrite length_replicate|by rewrite length_replicate| | |by intros b r ?%not_elem_of_nil|].
  - intros i [_ Hl]%lookup_replicate. by apply lookup_replicate.
  - by apply Forall_replicate.
  - induction (Z.to_nat (2 ^ k1)); [done|]. done.
Qed.

(** The found and missing keys of a filled table. *)
Context (order : list nat) (o : list bool) (l0 l1 : list Z) (vs : list (list Z)).
Hypothesis Hp : placed rules (Z.ones k1) (Z.to_nat (2 ^ k1)) buckets (rev order ++ []) o l0 l1.
Hypothesis Ho : order ≡ₚ seq 0 (length buckets).
Let g := mkMPH rules vs l0 (Z.ones k0) l1 (Z.ones k1) None.

Lemma sized_hit k j : keys !! j = Some k -> mph_lookup (rolling_hash 0 k) k g = Z.of_nat j + 1.
Proof.
  intros Ej. unfold mph_lookup, g. cbn [mph_level0 mph_level0_mask mph_level1 mph_level1_mask mph_rules]. fold (bucket_of (Z.ones k0) k).
  assert (Hb : bucket_of (Z.ones k0) k ∈ rev order ++ []).
  { rewrite app_nil_r, rev_alt. fold (reverse order). rewrite elem_of_reverse, Ho, Hlb. apply elem_of_seq. pose proof (sized_bucket k). lia. }
  assert (Hr : Z.of_nat j + 1 ∈ buckets !!! bucket_of (Z.ones k0) k) by (rewrite Hbs; apply elem_of_bucket_list; exists j, k; split_and!; [done|lia|done]).
  assert (Er : rules !!! Z.to_nat (Z.of_nat j + 1) = k) by (replace (Z.to_nat (Z.of_nat j + 1)) with (S j) by lia; by apply list_lookup_total_correct).
  destruct (pl_found _ _ _ _ _ _ _ _ Hp _ _ Hb Hr) as [Hl _]. unfold slot in Hl. rewrite Er in Hl.
  rewrite (list_lookup_total_correct _ _ _ Hl), Er. apply lookup_lt_Some in Ej.
  destruct (Z.leb_spec (zlen rules) (Z.of_nat j + 1)); [unfold zlen in *; cbn in *; lia|]. by rewrite bool_decide_true.
Qed.

Lemma sized_miss h k : k ∉ keys -> mph_lookup h k g = 0.
Proof.
  intros Hn. unfold mph_lookup, g. cbn [mph_level0 mph_level0_mask mph_level1 mph_level1_mask mph_rules].
  set (x := l1 !!! _). assert (Hx : 0 <= x).
  { unfold x. pose proof (pl_nonneg _ _ _ _ _ _ _ _ Hp) as Hf. rewrite Forall_lookup_total in Hf. apply Hf.
    rewrite (pl_l1 _ _ _ _ _ _ _ _ Hp). pose proof (land_ones_range (seeded_hash (l0 !!! Z.to_nat (Z.land h (Z.ones k0))) k) k1). lia. }
  destruct (Z.leb_spec (zlen rules) x); [done|]. destruct (decide (rules !!! Z.to_nat x = k)) as [E|E]; [|by rewrite bool_decide_false].
  rewrite bool_decide_true by done. destruct (Z.eq_dec x 0) as [|Hx0]; [done|]. destruct Hn.
  replace (Z.to_nat x) with (S (Z.to_nat (x - 1))) in E by lia. cbn in E. rewrite <- E. apply list_elem_of_lookup_total_2.
  unfold zlen in *. cbn in *. lia.
Qed.
End sized.

(** Filling the buckets of a group, with the sizes that [build] chooses. *)
Lemma build_fill ps g infos keys : adding ps g infos keys -> zlen keys < 2 ^ 32 ->
  exists k0 k1 buckets values, 0 <= k0 <= 32 /\ 0 <= k1 <= 32 /\ zlen keys <= 2 ^ k1 /\
    Z.max (next_pow2 (zlen keys / 4)) 1 = 2 ^ k0 /\ next_pow2 (zlen keys) = 2 ^ k1 /\
    fill_buckets infos (Z.ones k0) 1 keys (zrepeat (2 ^ k0) []) (mph_values g) = (true, buckets, values) /\
    length buckets = Z.to_nat (2 ^ k0) /\ (forall b, buckets !!! b = bucket_list (Z.ones k0) 1 keys b) /\
    forall j k, keys !! j = Some k -> values !!! S j = values_at k ps.
Proof.
  intros [Hi Hru Hnd Hv Hd Hs Hin Hk] Hlen. pose proof (zlen_nonneg keys).
  destruct (next_pow2_spec (zlen keys / 4)) as (k0 & Hk0 & E0 & _);
    [pose proof (Z.div_le_upper_bound (zlen keys) 4 (2 ^ 32)); pose proof (Z.div_pos (zlen keys) 4); lia|].
  destruct (next_pow2_spec (zlen keys)) as (k1 & Hk1 & E1 & Hle1); [lia|].
  assert (Hp0 : 0 < 2 ^ k0) by (apply Z.pow_pos_nonneg; lia).
  assert (Hlr : length (zrepeat (2 ^ k0) (@nil Z)) = Z.to_nat (2 ^ k0)) by (unfold zrepeat; apply length_replicate).
  destruct (fill_buckets_spec (Z.ones k0) infos ps Hin 1 keys (zrepeat (2 ^ k0) []) (mph_values g))
    as (bs & vs & E & Hlb & _ & Hbs & _ & Hvs).
  { intros k Hkin. split; [by apply Hd|]. rewrite Hlr. by apply sized_bucket. } { lia. } { unfold zlen. rewrite Hv, Hru. cbn. lia. }
  exists k0, k1, bs, vs. split_and!; try done; try lia.
  - intros b. rewrite Hbs. destruct (decide (b < Z.to_nat (2 ^ k0))%nat).
    + unfold zrepeat. by rewrite lookup_total_replicate_2.
    + by rewrite list_lookup_total_alt, lookup_ge_None_2 by lia.
  - intros j k Ej%Hvs. apply list_lookup_total_correct. by replace (S j) with (Z.to_nat (1 + Z.of_nat j)) by lia.
Qed.

Lemma build_spec fuel ps g infos keys : adding ps g infos keys -> keys <> [] -> zlen keys < 2 ^ 32 -> Z.of_nat fuel <= 2 ^ 32 ->
  match MPHMatcherGroup_build fuel g with
  | Some (r, g') => r = Ok tt /\ built ps keys g'
  | None => inseparable g (next_pow2 (zlen keys)) fuel
  end.
Proof.
  intros Ha Hne Hlen Hfuel. destruct (build_fill ps g infos keys Ha Hlen) as (k0 & k1 & bs & vs & Hk0 & Hk1 & Hle & E0 & E1 & Ef & Hlb & Hbs & Hvs).
  destruct Ha as [Hi Hru Hnd _ _ Hs _ _]. unfold MPHMatcherGroup_build. rewrite Hi, Hs. change (Z.of_nat (length keys)) with (zlen keys).
  destruct (Z.eqb_spec (zlen keys) 0); [destruct keys; [done|unfold zlen in *; cbn in *; lia]|].
  rewrite E0, E1, !size_mask, Hru by lia. cbn [tail]. rewrite Ef. cbn [negb]. set (order := sort_by _ _).
  assert (Ho : order ≡ₚ seq 0 (length bs)) by apply sort_by_perm.
  pose proof (place_all_spec ([] :: keys) (Z.ones k1) _ (sized_slot keys k1 Hk1) bs (sized_nonneg keys k0 bs Hbs) fuel order) as Hp.
  specialize (Hp ltac:(rewrite Ho; apply NoDup_seq) _ _ _ _ (placed_initial keys k0 k1 bs)).
  assert (Hin : forall b, b ∈ order -> b ∉ @nil nat /\ (b < length (zrepeat (2 ^ k0) 0%Z))%nat).
  { intros b Hb. rewrite Ho in Hb. apply elem_of_seq in Hb. split; [by apply not_elem_of_nil|]. unfold zrepeat. rewrite length_replicate. lia. }
  specialize (Hp Hin). destruct (place_all _ _ _ _ _ _ _ _) as [[l0 l1]|].
  - destruct Hp as (Hl0 & o & Hp). split; [done|]. split.
    + unfold is_built. cbn. rewrite bool_decide_false; [done|]. intros ->. unfold zrepeat in Hl0. rewrite length_replicate in Hl0. cbn in Hl0.
      assert (0 < 2 ^ k0) by (apply Z.pow_pos_nonneg; lia). lia.
    + intros k j Ej. split; [by eapply (sized_hit keys k0 k1 bs)|by apply Hvs].
    + intros k Hk. by eapply sized_miss.
  - destruct Hp as (b & o & Hb & Hlo & Hc & Hno). exists (bs !!! b), o.
    assert (0 < 2 ^ k1) by (apply Z.pow_pos_nonneg; lia).
    split; [rewrite Hbs; apply bucket_list_nodup|]. split; [rewrite Hru; by eapply sized_range|]. split; [unfold zlen; lia|]. split.
    + rewrite (sized_load keys k0 bs) in Hc by done. unfold zlen in *. cbn in Hc. lia.
    + rewrite Hru. replace (2 ^ k1 - 1) with (Z.ones k1) by (rewrite Z.ones_equiv; lia). by apply Hno.
Qed.

(** * Searching *)

(** The suffixes that start with a dot, the longest first. *)
Fixpoint dot_suffixes (s : bytes) : list bytes :=
  match s with
  | [] => []
  | b :: r => if b =? DOT then s :: dot_suffixes r else dot_suffixes r
  end.

Lemma elem_of_dot_suffixes s t : t ∈ dot_suffixes s <-> exists r k, s = r ++ t /\ t = DOT :: k.
Proof.
  induction s as [|b s IH]; cbn; [split; [by intros ?%not_elem_of_nil|intros (r & k & Hs & ->); by destruct r]|].
  assert (Hc : (exists r k, b :: s = r ++ t /\ t = DOT :: k) <-> (t = b :: s /\ b = DOT) \/ exists r k, s = r ++ t /\ t = DOT :: k).
  { split.
    - intros ([|c r] & k & Hs & ->); cbn in Hs; [left; by injection Hs as -> ->|right; injection Hs as -> ->; eauto].
    - intros [[-> ->]|(r & k & -> & ->)]; [by exists [], s|by exists (b :: r), k]. }
  rewrite Hc, <- IH. destruct (Z.eqb_spec b DOT) as [->|]; [rewrite elem_of_cons|]; naive_solver.
Qed.

Section search.
Context (ps : list push) (keys : list bytes) (g : MPHMatcherGroup) (Hb : built ps keys g).
Hypothesis Hkeys : forall k, k ∈ keys <-> exists t v, (t, k, v) ∈ ps.

(** The values that a lookup contributes. *)
Lemma lookup_values k matches :
  (if mph_lookup (rolling_hash 0 k) k g =? 0 then matches else matches ++ [mph_values g !!! Z.to_nat (mph_lookup (rolling_hash 0 k) k g)]) =
  if bool_decide (k ∈ keys) then matches ++ [values_at k ps] else matches.
Proof.
  destruct (decide (k ∈ keys)) as [Hk|Hk].
  - apply list_elem_of_lookup in Hk as Hj. destruct Hj as [j Ej]. destruct (bt_hit _ _ _ Hb k j Ej) as [-> Hv].
    destruct (Z.eqb_spec (Z.of_nat j + 1) 0); [lia|]. rewrite bool_decide_true by done. by replace (Z.to_nat (Z.of_nat j + 1)) with (S j) by lia; rewrite Hv.
  - rewrite (bt_miss _ _ _ Hb k Hk), bool_decide_false by done. done.
Qed.

Lemma lookup_found k : negb (mph_lookup (rolling_hash 0 k) k g =? 0) = bool_decide (k ∈ keys).
Proof.
  destruct (decide (k ∈ keys)) as [Hk|Hk].
  - apply list_elem_of_lookup in Hk as Hj. destruct Hj as [j Ej]. destruct (bt_hit _ _ _ Hb k j Ej) as [-> Hv].
    rewrite bool_decide_true by done. destruct (Z.eqb_spec (Z.of_nat j + 1) 0); [lia|done].
  - by rewrite (bt_miss _ _ _ Hb k Hk), bool_decide_false.
Qed.

Definition present (ks : list bytes) : list bytes := List.filter (fun k => bool_decide (k ∈ keys)) ks.

Lemma values_absent k : k ∉ keys -> values_at k ps = [].
Proof. intros Hk. unfold values_at. rewrite !keyed_absent; [done|..]; intros t v Hin; apply Hk, Hkeys; eauto. Qed.

Lemma values_present ks : concat (map (fun k => values_at k ps) (present ks)) = concat (map (fun k => values_at k ps) ks).
Proof.
  induction ks as [|k ks IH]; cbn; [done|]. destruct (decide (k ∈ keys)) as [Hk|Hk].
  - rewrite bool_decide_true by done. cbn. by rewrite <- IH.
  - rewrite bool_decide_false by done. rewrite values_absent by done. exact IH.
Qed.

Lemma dot_suffixes_snoc s b : dot_suffixes (s ++ [b]) = map (fun t => t ++ [b]) (dot_suffixes s) ++ (if b =? DOT then [[b]] else []).
Proof. induction s as [|c s IH]; cbn; [done|]. rewrite IH. by destruct (c =? DOT). Qed.

Lemma scan_spec todo suffix matches :
  mph_scan (rev todo) suffix (rolling_hash 0 suffix) g matches =
  (rolling_hash 0 (todo ++ suffix),
   matches ++ rev (map (fun k => values_at k ps) (present (map (fun t => t ++ suffix) (dot_suffixes todo))))).
Proof.
  revert suffix matches. induction todo as [|b todo IH] using rev_ind; intros suffix matches; [by rewrite app_nil_r|].
  rewrite rev_app_distr. cbn [rev app mph_scan]. rewrite <- rolling_hash_cons, IH, <- app_assoc. cbn [app]. f_equal.
  rewrite dot_suffixes_snoc, map_app, map_map. unfold present. rewrite List.filter_app, map_app, rev_app_distr, app_assoc. f_equal.
  - destruct (b =? DOT); [|by rewrite app_nil_r]. rewrite lookup_values. cbn. destruct (bool_decide (b :: suffix ∈ keys)); [done|by rewrite app_nil_r].
  - do 3 f_equal. apply map_ext. intros t. by rewrite <- app_assoc.
Qed.

Lemma match_str_exact input :
  MPHMatcherGroup_match_str input g = concat (map (fun k => values_at k ps) (input :: dot_suffixes input)).
Proof.
  unfold MPHMatcherGroup_match_str. rewrite (bt_built _ _ _ Hb). cbn [negb].
  pose proof (scan_spec input [] []) as Hs. change (rolling_hash 0 []) with 0 in Hs. rewrite app_nil_r in Hs. rewrite Hs. clear Hs.
  rewrite lookup_values. cbn [app]. rewrite (map_ext (fun t => t ++ []) id) by apply app_nil_r. rewrite map_id.
  transitivity (concat (map (fun k => values_at k ps) (present (input :: dot_suffixes input)))); [|apply values_present].
  unfold present. cbn [List.filter]. destruct (bool_decide (input ∈ keys)); [rewrite rev_app_distr|]; by rewrite rev_involutive.
Qed.

Lemma scan_any_spec todo suffix :
  mph_scan_any (rev todo) suffix (rolling_hash 0 suffix) g =
  if bool_decide (Exists (fun t => t ++ suffix ∈ keys) (dot_suffixes todo)) then None else Some (rolling_hash 0 (todo ++ suffix)).
Proof.
  revert suffix. induction todo as [|b todo IH] using rev_ind; intros suffix.
  - rewrite bool_decide_false; [done|]. by intros ?%Exists_nil.
  - rewrite rev_app_distr. cbn [rev app mph_scan_any]. rewrite <- rolling_hash_cons, lookup_found, IH, <- app_assoc. cbn [app].
    assert (Hx : Exists (fun t => t ++ suffix ∈ keys) (dot_suffixes (todo ++ [b])) <->
      (b = DOT /\ b :: suffix ∈ keys) \/ Exists (fun t => t ++ b :: suffix ∈ keys) (dot_suffixes todo)).
    { rewrite dot_suffixes_snoc, Exists_app, Exists_map. setoid_rewrite <- app_assoc. cbn [app].
      destruct (Z.eqb_spec b DOT); rewrite ?Exists_cons, ?Exists_nil; tauto. }
    rewrite (bool_decide_ext _ _ Hx). destruct (Z.eqb_spec b DOT); cbn [andb].
    + destruct (decide (b :: suffix ∈ keys)); [rewrite !bool_decide_true by (done || by left); done|].
      rewrite (bool_decide_false (b :: suffix ∈ keys)) by done.
      erewrite bool_decide_ext; [reflexivity|]. clear - n. tauto.
    + erewrite bool_decide_ext; [reflexivity|]. clear - n. tauto.
Qed.

Lemma match_any_exact input : MPHMatcherGroup_match_any input g = true <-> exists k, k ∈ input :: dot_suffixes input /\ k ∈ keys.
Proof.
  unfold MPHMatcherGroup_match_any. rewrite (bt_built _ _ _ Hb). cbn [negb].
  pose proof (scan_any_spec input []) as Hs. change (rolling_hash 0 []) with 0 in Hs. rewrite Hs, app_nil_r. clear Hs.
  setoid_rewrite elem_of_cons. destruct (decide (Exists (fun t => t ++ [] ∈ keys) (dot_suffixes input))) as [He|He].
  - rewrite bool_decide_true by done. apply Exists_exists in He as (t & Ht & Hk). rewrite app_nil_r in Hk. split; [|done]. intros _. exists t. auto.
  - rewrite bool_decide_false, lookup_found, bool_decide_eq_true by done. split; [eauto|]. intros (k & [->|Hk] & Hin); [done|].
    destruct He. apply Exists_exists. exists k. by rewrite app_nil_r.
Qed.
End search.
End built.
