(* ===== verification/DomainRules.v ===== *)
(** [xray-geodata/src/matcher/domain.rs] and [weak_cache.rs]: domain rules, the matcher
    over the two-level table and the compact one, the factories with their cache of
    shared matchers, the matchers that are replaced at run time and their registry. *)
From stdpp Require Import base tactics option list list_numbers numbers gmap.
From Stdlib Require Import ZArith Lia.
From S2P Require Import Prelude Bytes StrMatch DomainMatch Mph.

(** * Rules *)

Inductive DomainType : Type := DtFull | DtDomain | DtSubstr | DtRegex.

Definition DomainType_from_i32 (value : Z) : option DomainType :=
  if value =? 0 then Some DtFull else if value =? 1 then Some DtDomain
  else if value =? 2 then Some DtSubstr else if value =? 3 then Some DtRegex else None.

Definition to_matcher_type (t : DomainType) : MatcherType :=
  match t with DtFull => TFull | DtDomain => TDomain | DtSubstr => TSubstr | DtRegex => TRegex end.

Record DomainRule : Type := mkDomainRule { dr_type : DomainType; dr_value : bytes; dr_rule_id : Z }.

(** "full", "domain", "substr", "regex" *)
Definition type_name (t : DomainType) : bytes :=
  match t with
  | DtFull => [102; 117; 108; 108]
  | DtDomain => [100; 111; 109; 97; 105; 110]
  | DtSubstr => [115; 117; 98; 115; 116; 114]
  | DtRegex => [114; 101; 103; 101; 120]
  end.

Definition COLON : Z := 58.
Definition AT : Z := 64.
Definition COMMA : Z := 44.

(** [type:value@rule_id,] for each rule. *)
Definition build_domain_rules_key (rules : list DomainRule) : bytes :=
  concat (map (fun r => type_name (dr_type r) ++ [COLON] ++ dr_value r ++ [AT] ++ u32_to_string (dr_rule_id r) ++ [COMMA]) rules).

Section rules.
Context `{RegexOps} `{StdText}.

Definition parse_domain (rule : DomainRule) : result MatcherError Matcher :=
  match dr_type rule with
  | DtFull => Ok (FullMatcher (to_lowercase (dr_value rule)))
  | DtDomain => Ok (DomainMatcher (to_lowercase (dr_value rule)))
  | DtSubstr => Ok (SubstrMatcher (to_lowercase (dr_value rule)))
  | DtRegex => RegexMatcher_new (dr_value rule)
  end.

(** * The matcher over the table *)

Record MphDomainMatcher : Type := mkMphDomainMatcher { md_mph : MPHMatcherGroup; md_simple : SimpleMatcherGroup }.

(** The loop over the rules; [None]: the panic of a built group. *)
Fixpoint mph_add_rules (rules : list DomainRule) (mph : MPHMatcherGroup) (simple : SimpleMatcherGroup)
    : option (result MatcherError (MPHMatcherGroup * SimpleMatcherGroup)) :=
  match rules with
  | [] => Some (Ok (mph, simple))
  | rule :: rules =>
      match dr_type rule with
      | DtFull =>
          match add_full_matcher (to_lowercase (dr_value rule)) (dr_rule_id rule) mph with
          | Some mph => mph_add_rules rules mph simple
          | None => None
          end
      | DtDomain =>
          match add_domain_matcher (to_lowercase (dr_value rule)) (dr_rule_id rule) mph with
          | Some mph => mph_add_rules rules mph simple
          | None => None
          end
      | DtSubstr =>
          mph_add_rules rules mph (SimpleMatcherGroup_add (SubstrMatcher (to_lowercase (dr_value rule))) (dr_rule_id rule) simple)
      | DtRegex =>
          match RegexMatcher_new (dr_value rule) with
          | Ok m => mph_add_rules rules mph (SimpleMatcherGroup_add m (dr_rule_id rule) simple)
          | Err e => Some (Err e)
          end
      end
  end.

(** [None]: a panic, or the search for a seed ran out of [fuel]. *)
Definition MphDomainMatcher_build (fuel : nat) (rules : list DomainRule) : option (result MatcherError MphDomainMatcher) :=
  match mph_add_rules rules MPHMatcherGroup_new [] with
  | None => None
  | Some (Err e) => Some (Err e)
  | Some (Ok (mph, simple)) =>
      match MPHMatcherGroup_build fuel mph with
      | None => None
      | Some (_, mph) => Some (Ok (mkMphDomainMatcher mph simple))
      end
  end.

Definition MphDomainMatcher_match_domain (input : bytes) (m : MphDomainMatcher) : list Z :=
  MPHMatcherGroup_match_str input (md_mph m) ++ SimpleMatcherGroup_match_str input (md_simple m).
Definition MphDomainMatcher_match_any (input : bytes) (m : MphDomainMatcher) : bool :=
  MPHMatcherGroup_match_any input (md_mph m) || SimpleMatcherGroup_match_any input (md_simple m).

(** * The compact matcher *)

(** The trait objects are their only method. *)
Record CompactDomainMatcher : Type := mkCompactDomainMatcher {
  cd_custom : bytes -> list Z;
  cd_matchers : list (bytes -> bool);
  cd_values : list Z;
}.

Definition CompactDomainMatcher_match_domain (input : bytes) (c : CompactDomainMatcher) : list Z :=
  fold_left (fun results m => if (m input : bool) then results ++ cd_values c else results) (cd_matchers c) (cd_custom c input).
Definition CompactDomainMatcher_match_any (input : bytes) (c : CompactDomainMatcher) : bool :=
  if negb (bool_decide (cd_custom c input = [])) then true else existsb (fun m => m input) (cd_matchers c).

Fixpoint compact_entries (rules : list DomainRule) (simple : SimpleMatcherGroup) : result MatcherError SimpleMatcherGroup :=
  match rules with
  | [] => Ok simple
  | rule :: rules =>
      match parse_domain rule with
      | Ok m => compact_entries rules (SimpleMatcherGroup_add m (dr_rule_id rule) simple)
      | Err e => Err e
      end
  end.

Definition build_compact_inner (rules : list DomainRule) : result MatcherError CompactDomainMatcher :=
  match compact_entries rules [] with
  | Ok simple => Ok (mkCompactDomainMatcher (fun input => SimpleMatcherGroup_match_str input simple) [] [])
  | Err e => Err e
  end.
End rules.

(** * The cache of shared matchers

    A [Weak] is the number of its allocation; the allocations that still have a strong
    reference are those of [wc_alive].  Dropping the last [Arc] takes one out. *)

Record WeakCacheMap (V : Type) : Type := mkWeakCacheMap {
  wc_inner : gmap bytes nat;
  wc_alive : gmap nat V;
  wc_next : nat;
}.
Arguments mkWeakCacheMap {_}.
Arguments wc_inner {_}.
Arguments wc_alive {_}.
Arguments wc_next {_}.

Section cache.
Context {V : Type}.

Definition WeakCacheMap_new : WeakCacheMap V := mkWeakCacheMap ∅ ∅ 0.

Definition WeakCacheMap_load (key : bytes) (c : WeakCacheMap V) : option nat * WeakCacheMap V :=
  match wc_inner c !! key with
  | None => (None, c)
  | Some w =>
      match wc_alive c !! w with
      | Some _ => (Some w, c)
      | None => (None, mkWeakCacheMap (delete key (wc_inner c)) (wc_alive c) (wc_next c))
      end
  end.

Definition WeakCacheMap_store (key : bytes) (arc : nat) (c : WeakCacheMap V) : WeakCacheMap V :=
  mkWeakCacheMap (<[ key := arc ]> (wc_inner c)) (wc_alive c) (wc_next c).

(** [Arc::new] *)
Definition arc_new (v : V) (c : WeakCacheMap V) : nat * WeakCacheMap V :=
  (wc_next c, mkWeakCacheMap (wc_inner c) (<[ wc_next c := v ]> (wc_alive c)) (S (wc_next c))).

Definition WeakCacheMap_get_or_insert_with (key : bytes) (init : V) (c : WeakCacheMap V) : nat * WeakCacheMap V :=
  match WeakCacheMap_load key c with
  | (Some w, c) => (w, c)
  | (None, c) => let '(arc, c) := arc_new init c in (arc, WeakCacheMap_store key arc c)
  end.

(** The last strong reference of an allocation goes. *)
Definition arc_drop (w : nat) (c : WeakCacheMap V) : WeakCacheMap V :=
  mkWeakCacheMap (wc_inner c) (delete w (wc_alive c)) (wc_next c).

Definition cleanup_expired (c : WeakCacheMap V) : nat * WeakCacheMap V :=
  let kept := filter (fun '(_, w) => is_Some (wc_alive c !! w)) (wc_inner c) in
  ((size (wc_inner c) - size kept)%nat, mkWeakCacheMap kept (wc_alive c) (wc_next c)).

(** * Factories, dynamic matchers, the registry *)

Section factory.
Context {E : Type} (build : list DomainRule -> result E V).

(** [build_matcher] of either factory: build, then share through the cache. *)
Definition build_matcher (rules : list DomainRule) (c : WeakCacheMap V) : result E nat * WeakCacheMap V :=
  let key := build_domain_rules_key rules in
  match build rules with
  | Err e => (Err e, c)
  | Ok matcher => let '(arc, c) := WeakCacheMap_get_or_insert_with key matcher c in (Ok arc, c)
  end.

(** The matcher of a dynamic matcher is the allocation it holds. *)
Record DynamicDomainMatcher : Type := mkDynamic { dm_state : option nat; dm_rules : list DomainRule }.

Definition DynamicDomainMatcher_new : DynamicDomainMatcher := mkDynamic None [].

Definition set_rules (rules : list DomainRule) (d : DynamicDomainMatcher) (c : WeakCacheMap V)
    : result E unit * DynamicDomainMatcher * WeakCacheMap V :=
  match build_matcher rules c with
  | (Err e, c) => (Err e, d, c)
  | (Ok arc, c) => (Ok tt, mkDynamic (Some arc) rules, c)
  end.

Definition DynamicDomainMatcher_update (matcher : nat) (d : DynamicDomainMatcher) : DynamicDomainMatcher :=
  mkDynamic (Some matcher) (dm_rules d).

Record DomainRegistry : Type := mkRegistry { rg_matchers : list DynamicDomainMatcher; rg_cache : WeakCacheMap V }.

Definition add_rules (rules : list DomainRule) (g : DomainRegistry) : result E nat * DomainRegistry :=
  match set_rules rules DynamicDomainMatcher_new (rg_cache g) with
  | (Err e, _, c) => (Err e, mkRegistry (rg_matchers g) c)
  | (Ok _, d, c) => (Ok (length (rg_matchers g)), mkRegistry (rg_matchers g ++ [d]) c)
  end.

Definition get_matcher (idx : nat) (g : DomainRegistry) : option DynamicDomainMatcher := rg_matchers g !! idx.

(** The loop of [reload_with]: the matchers that are done and those to come. *)
Fixpoint reload_loop (new_rules : list DomainRule) (finished todo : list DynamicDomainMatcher) (c : WeakCacheMap V)
    : result E unit * DomainRegistry :=
  match todo with
  | [] => (Ok tt, mkRegistry finished c)
  | d :: todo =>
      match set_rules new_rules d c with
      | (Err e, d, c) => (Err e, mkRegistry (finished ++ d :: todo) c)
      | (Ok _, d, c) => reload_loop new_rules (finished ++ [d]) todo c
      end
  end.

Definition reload_with (new_rules : list DomainRule) (g : DomainRegistry) : result E unit * DomainRegistry :=
  reload_loop new_rules [] (rg_matchers g) (rg_cache g).

(** [match_any]/[match_domain] of a dynamic matcher, through the matcher it holds. *)
Definition dynamic_matcher (d : DynamicDomainMatcher) (c : WeakCacheMap V) : option V :=
  match dm_state d with Some w => wc_alive c !! w | None => None end.
End factory.
End cache.
