(* ===== verification/DomainRulesProps.v ===== *)
(** The domain matcher over the table answers as the compact one does; the factories'
    cache never hands out the matcher of other rules; a reload is all or nothing. *)
From stdpp Require Import base tactics option list list_numbers numbers gmap.
From Stdlib Require Import ZArith Lia.
From S2P Require Import Prelude Bytes StrMatch DomainMatch DomainMatchProps Mph MphProps DomainRules.

(** * The two matchers *)

Section equivalence.
Context `{RX : RegexOps} `{TX : StdText}.
Implicit Types (rules : list DomainRule) (es : list (Matcher * Z)) (ps : list push).

(** The rules that the table keeps, as pushes. *)
Definition mph_pushes (rule : DomainRule) : list push :=
  match dr_type rule with
  | DtFull => rule_pushes TFull (to_lowercase (dr_value rule)) (dr_rule_id rule)
  | DtDomain => rule_pushes TDomain (to_lowercase (dr_value rule)) (dr_rule_id rule)
  | _ => []
  end.

(** The patterns that both matchers read alike: lowercasing twice changes nothing, and a
    full or domain pattern does not start with a dot and, for a domain, is not empty. *)
Definition rule_ok (rule : DomainRule) : Prop :=
  let p := to_lowercase (dr_value rule) in
  match dr_type rule with
  | DtFull => to_lowercase p = p /\ head p <> Some DOT
  | DtDomain => to_lowercase p = p /\ head p <> Some DOT /\ p <> []
  | _ => True
  end.

Definition is_table (m : Matcher) : bool := of_type TFull m || of_type TDomain m.

(** ** Adding *)

Lemma add_rules_spec rules ps g infos keys simple : adding ps g infos keys ->
  match compact_entries rules simple with
  | Ok es => exists mph infos' keys', mph_add_rules rules g (sel (fun m => negb (is_table m)) simple) =
        Some (Ok (mph, sel (fun m => negb (is_table m)) es)) /\
      adding (ps ++ concat (map mph_pushes rules)) mph infos' keys'
  | Err e => mph_add_rules rules g (sel (fun m => negb (is_table m)) simple) = Some (Err e)
  end.
Proof.
  revert ps g infos keys simple. induction rules as [|r rules IH]; intros ps g infos keys simple Ha; cbn [compact_entries mph_add_rules map concat].
  - exists g, infos, keys. by rewrite app_nil_r.
  - unfold parse_domain, mph_pushes. assert (Hs : forall m v, sel (fun m => negb (is_table m)) (SimpleMatcherGroup_add m v simple) =
      sel (fun m => negb (is_table m)) simple ++ (if is_table m then [] else [(m, v)])).
    { intros m v. unfold SimpleMatcherGroup_add. rewrite sel_app, sel_one. cbn. by destruct (is_table m). }
    destruct (dr_type r).
    + destruct (add_full_ok ps g infos keys (to_lowercase (dr_value r)) (dr_rule_id r) Ha) as (g' & i' & k' & -> & Ha').
      specialize (IH _ _ _ _ (SimpleMatcherGroup_add (FullMatcher (to_lowercase (dr_value r))) (dr_rule_id r) simple) Ha').
      rewrite Hs in IH. cbn in IH. rewrite app_nil_r in IH. by rewrite app_assoc.
    + destruct (add_domain_ok ps g infos keys (to_lowercase (dr_value r)) (dr_rule_id r) Ha) as (g' & i' & k' & -> & Ha').
      specialize (IH _ _ _ _ (SimpleMatcherGroup_add (DomainMatcher (to_lowercase (dr_value r))) (dr_rule_id r) simple) Ha').
      rewrite Hs in IH. cbn in IH. rewrite app_nil_r in IH. by rewrite app_assoc.
    + specialize (IH _ _ _ _ (SimpleMatcherGroup_add (SubstrMatcher (to_lowercase (dr_value r))) (dr_rule_id r) simple) Ha).
      rewrite Hs in IH. exact IH.
    + unfold RegexMatcher_new. destruct (Regex_new (dr_value r)) as [rx|e]; [|done].
      specialize (IH _ _ _ _ (SimpleMatcherGroup_add (RegexMatcher (dr_value r) rx) (dr_rule_id r) simple) Ha).
      rewrite Hs in IH. exact IH.
Qed.

(** ** Searching: each rule once *)

Lemma values_at_app k ps ps' : values_at k (ps ++ ps') ≡ₚ values_at k ps ++ values_at k ps'.
Proof.
  unfold values_at, keyed. rewrite !List.filter_app, !map_app. solve_Permutation.
Qed.

Lemma concat_map_perm {A B} (f g h : A -> list B) ks : (forall k, f k ≡ₚ g k ++ h k) ->
  concat (map f ks) ≡ₚ concat (map g ks) ++ concat (map h ks).
Proof. intros Hf. induction ks as [|k ks IH]; cbn; [done|]. rewrite Hf, IH. solve_Permutation. Qed.

Lemma concat_single {A} `{EqDecision A} {B} (a : A) (v : B) ks : NoDup ks ->
  concat (map (fun k => if bool_decide (a = k) then [v] else []) ks) = if bool_decide (a ∈ ks) then [v] else [].
Proof.
  induction 1 as [|k ks Hk _ IH]; [done|]. cbn. rewrite IH. destruct (decide (a = k)) as [->|Hn].
  - rewrite (bool_decide_true (k = k)), (bool_decide_false (k ∈ ks)), bool_decide_true by (done || by left). done.
  - rewrite (bool_decide_false (a = k)) by done. by rewrite (bool_decide_ext (a ∈ k :: ks) (a ∈ ks)) by set_solver.
Qed.

Lemma dot_suffixes_length t s : t ∈ dot_suffixes s -> (length t <= length s)%nat.
Proof. intros (r & k & -> & _)%elem_of_dot_suffixes. rewrite length_app. lia. Qed.

Lemma dot_suffixes_nodup s : NoDup (dot_suffixes s).
Proof.
  induction s as [|b s IH]; cbn; [constructor|]. destruct (b =? DOT); [|done]. constructor; [|done].
  intros Hin%dot_suffixes_length. cbn in Hin. lia.
Qed.

(** The keys that a search looks at. *)
Definition searched (input : bytes) : list bytes := input :: dot_suffixes input.

Lemma searched_nodup input : head input <> Some DOT -> NoDup (searched input).
Proof.
  intros Hh. constructor; [|apply dot_suffixes_nodup]. intros (r & k & Hs & Hk)%elem_of_dot_suffixes.
  assert (r = []) as -> by (apply (f_equal length) in Hs; rewrite length_app in Hs; destruct r; cbn in *; [done|lia]). by rewrite Hk in Hh.
Qed.

Lemma searched_undotted k input : head k <> Some DOT -> k ∈ searched input <-> input = k.
Proof.
  intros Hk. unfold searched. rewrite elem_of_cons, elem_of_dot_suffixes. split; [|naive_solver]. intros [->|(r & k' & _ & ->)]; done.
Qed.

Lemma searched_dotted k input : DOT :: k ∈ searched input <-> exists r, input = r ++ DOT :: k.
Proof.
  unfold searched. rewrite elem_of_cons, elem_of_dot_suffixes. split.
  - intros [<-|(r & k' & -> & [= <-])]; [by exists []|by exists r].
  - intros [r ->]. right. by exists r, k.
Qed.

Lemma values_at_single t k k' v : values_at k [(t, k', v)] = if bool_decide (k' = k) then [v] else [].
Proof. unfold values_at, keyed. cbn. destruct (bool_decide (k' = k)); [|done]. cbn. destruct (bool_decide (t = TDomain)); done. Qed.

Lemma rule_searched rule m input : rule_ok rule -> parse_domain rule = Ok m -> head input <> Some DOT ->
  concat (map (fun k => values_at k (mph_pushes rule)) (searched input)) ≡ₚ
  if is_table m && match_str m input then [dr_rule_id rule] else [].
Proof.
  unfold rule_ok, parse_domain, mph_pushes. intros Hok Hp Hi. pose proof (searched_nodup input Hi) as Hnd.
  destruct (dr_type rule); cbn [rule_pushes] in *.
  - injection Hp as <-. destruct Hok as [-> Hh]. rewrite (map_ext _ (fun k => if bool_decide (to_lowercase (dr_value rule) = k) then [dr_rule_id rule] else []))
      by (intros; apply values_at_single).
    rewrite concat_single by done. cbn. unfold FullMatcher_match_str.
    by rewrite (bool_decide_ext (_ ∈ searched input) (to_lowercase (dr_value rule) = input)) by (rewrite searched_undotted; naive_solver).
  - injection Hp as <-. destruct Hok as (-> & Hh & Hne). set (p := to_lowercase (dr_value rule)) in *.
    rewrite (concat_map_perm _ (fun k => if bool_decide (p = k) then [dr_rule_id rule] else [])
               (fun k => if bool_decide (DOT :: p = k) then [dr_rule_id rule] else [])).
    2:{ intros k. rewrite <- !(values_at_single TDomain). apply (values_at_app k [_] [_]). }
    rewrite !concat_single by done. cbn. destruct (DomainMatcher_match_str p input) eqn:E.
    + apply domain_match_spec in E as [->|[_ Hd]].
      * rewrite bool_decide_true, bool_decide_false; [done| |by left].
        intros [r Hr]%searched_dotted. apply (f_equal length) in Hr. rewrite length_app in Hr. cbn in Hr. lia.
      * rewrite bool_decide_false, bool_decide_true; [done|by apply searched_dotted|].
        intros ->%searched_undotted; [|done]. destruct Hd as [r Hr]. apply (f_equal length) in Hr. rewrite length_app in Hr. cbn in Hr. lia.
    + apply not_true_iff_false in E. rewrite domain_match_spec in E. rewrite !bool_decide_false; [done|..].
      * intros Hd%searched_dotted. destruct E. by right.
      * intros ->%searched_undotted; [|done]. destruct E. by left.
  - injection Hp as <-. by rewrite (concat_nils (map _ _)) by (apply Forall_map, Forall_true; done).
  - unfold RegexMatcher_new in Hp. destruct (Regex_new _); [injection Hp as <-|done].
    by rewrite (concat_nils (map _ _)) by (apply Forall_map, Forall_true; done).
Qed.

Lemma table_part rules input simple es : Forall rule_ok rules -> head input <> Some DOT -> compact_entries rules simple = Ok es ->
  map snd (sel (fun m => is_table m && match_str m input) es) ≡ₚ
  map snd (sel (fun m => is_table m && match_str m input) simple) ++
  concat (map (fun k => values_at k (concat (map mph_pushes rules))) (searched input)).
Proof.
  intros Hok Hi. revert simple. induction Hok as [|r rules Hr _ IH]; intros simple Hc; cbn [compact_entries map concat] in *.
  - injection Hc as <-. rewrite (concat_nils (map _ _)), app_nil_r; [done|]. apply Forall_map, Forall_true. done.
  - destruct (parse_domain r) as [m|] eqn:Ep; [|done]. rewrite (IH _ Hc). unfold SimpleMatcherGroup_add.
    rewrite sel_app, sel_one, map_app. rewrite (concat_map_perm _ _ _ _ (fun k => values_at_app k (mph_pushes r) _)), (rule_searched r m) by done.
    cbn [fst]. destruct (is_table m && match_str m input); cbn; [by rewrite <- app_assoc|by rewrite app_nil_r].
Qed.

(** ** Whether a rule is found at all *)

Definition pushed (input : bytes) ps : Prop := exists k t v, k ∈ searched input /\ (t, k, v) ∈ ps.

Lemma pushed_app input ps ps' : pushed input (ps ++ ps') <-> pushed input ps \/ pushed input ps'.
Proof. unfold pushed. setoid_rewrite elem_of_app. naive_solver. Qed.

Lemma rule_pushed rule m input : rule_ok rule -> parse_domain rule = Ok m ->
  pushed input (mph_pushes rule) <-> is_table m && match_str m input = true.
Proof.
  unfold rule_ok, parse_domain, mph_pushes, pushed. intros Hok Hp. destruct (dr_type rule); cbn [rule_pushes].
  - injection Hp as <-. destruct Hok as [-> Hh]. change (is_table _ && _) with (bool_decide (to_lowercase (dr_value rule) = input)). rewrite bool_decide_eq_true. split.
    + intros (k & t & v & Hk & [= -> -> ->]%list_elem_of_singleton). by apply searched_undotted in Hk.
    + intros ->. exists input, TFull, (dr_rule_id rule). split; [by left|by left].
  - injection Hp as <-. destruct Hok as (-> & Hh & Hne). change (is_table _ && _) with (DomainMatcher_match_str (to_lowercase (dr_value rule)) input). rewrite domain_match_spec. split.
    + intros (k & t & v & Hk & [[= -> -> ->]|[= -> -> ->]%list_elem_of_singleton]%elem_of_cons);
        [left; by apply searched_undotted in Hk|right; split; [done|by apply searched_dotted]].
    + intros [->|[_ Hd]]; [exists (to_lowercase (dr_value rule)), TDomain, (dr_rule_id rule); split; by left|].
      exists (DOT :: to_lowercase (dr_value rule)), TDomain, (dr_rule_id rule). split; [by apply searched_dotted|right; by left].
  - injection Hp as <-. split; [by intros (? & ? & ? & _ & ?%not_elem_of_nil)|done].
  - unfold RegexMatcher_new in Hp. destruct (Regex_new _); [injection Hp as <-|done]. split; [by intros (? & ? & ? & _ & ?%not_elem_of_nil)|done].
Qed.

Lemma table_any rules input simple es : Forall rule_ok rules -> compact_entries rules simple = Ok es ->
  sel (fun m => is_table m && match_str m input) es <> [] <->
  sel (fun m => is_table m && match_str m input) simple <> [] \/ pushed input (concat (map mph_pushes rules)).
Proof.
  intros Hok. revert simple. induction Hok as [|r rules Hr _ IH]; intros simple Hc; cbn [compact_entries map concat] in *.
  - injection Hc as <-. split; [by left|intros [?|(? & ? & ? & _ & ?%not_elem_of_nil)]; done].
  - destruct (parse_domain r) as [m|] eqn:Ep; [|done]. rewrite (IH _ Hc), pushed_app, (rule_pushed r m) by done.
    unfold SimpleMatcherGroup_add. rewrite sel_app, sel_one. cbn [fst].
    destruct (is_table m && match_str m input), (sel _ simple); cbn; naive_solver.
Qed.

(** ** The table after a build *)

Lemma mph_result fuel ps g infos keys : adding ps g infos keys -> zlen keys < 2 ^ 32 -> Z.of_nat fuel <= 2 ^ 32 ->
  match MPHMatcherGroup_build fuel g with
  | Some (_, g') =>
      (forall input, MPHMatcherGroup_match_str input g' = concat (map (fun k => values_at k ps) (searched input))) /\
      (forall input, MPHMatcherGroup_match_any input g' = true <-> pushed input ps)
  | None => inseparable g (next_pow2 (zlen keys)) fuel
  end.
Proof.
  intros Ha Hl Hf. assert (Hk : forall input, (exists k, k ∈ searched input /\ k ∈ keys) <-> pushed input ps).
  { intros input. unfold pushed. setoid_rewrite (ad_keys _ _ _ _ Ha). naive_solver. }
  destruct keys as [|k keys].
  - unfold MPHMatcherGroup_build. rewrite (ad_infos _ _ _ _ Ha), (ad_size _ _ _ _ Ha). cbn [length]. change (Z.of_nat 0 =? 0) with true. cbn iota.
    unfold MPHMatcherGroup_match_str, MPHMatcherGroup_match_any, is_built. rewrite (ad_infos _ _ _ _ Ha). cbn. split; intros input.
    + change (_ ++ _) with (concat (map (fun k => values_at k ps) (searched input))). symmetry. apply concat_nils, Forall_map, Forall_true. intros k. unfold values_at.
      rewrite !keyed_absent; [done|..]; intros t v Hin; apply (not_elem_of_nil k), (ad_keys _ _ _ _ Ha); eauto.
    + rewrite <- Hk. split; [done|]. by intros (k & _ & ?%not_elem_of_nil).
  - pose proof (build_spec fuel ps g infos (k :: keys) Ha ltac:(done) Hl Hf) as Hb.
    destruct (MPHMatcherGroup_build fuel g) as [[r g']|]; [|done]. destruct Hb as [_ Hb]. split; intros input.
    + by apply (match_str_exact ps (k :: keys)); [|apply (ad_keys _ _ _ _ Ha)].
    + rewrite <- Hk. by apply (match_any_exact ps).
Qed.

(** ** The two matchers *)

Lemma simple_rest input es : sel (fun m => match_str m input) (sel (fun m => negb (is_table m)) es) =
  sel (fun m => negb (is_table m) && match_str m input) es.
Proof. by rewrite sel_sel. Qed.

Lemma hits_by_table input es :
  hits input es ≡ₚ sel (fun m => is_table m && match_str m input) es ++ sel (fun m => negb (is_table m) && match_str m input) es.
Proof.
  unfold hits. rewrite (sel_split _ is_table). apply Permutation_app; (erewrite sel_ext; [reflexivity|]); intros; apply andb_comm.
Qed.

Lemma simple_any_nonempty input es : SimpleMatcherGroup_match_any input es = true <-> hits input es <> [].
Proof.
  unfold SimpleMatcherGroup_match_any, hits, sel. induction es as [|e es IH]; cbn; [by split|]. by destruct (match_str e.1 input).
Qed.

Lemma app_nonempty {A} (l k : list A) : l ++ k <> [] <-> l <> [] \/ k <> [].
Proof. destruct l; cbn; naive_solver. Qed.

Lemma keys_bound rules : zlen (concat (map mph_pushes rules)) <= 2 * zlen rules.
Proof.
  induction rules as [|r rules IH]; [done|]. cbn [map concat]. zlens. unfold mph_pushes at 1. destruct (dr_type r); cbn; unfold zlen at 1; cbn; lia.
Qed.

Lemma adding_length ps g infos keys : adding ps g infos keys -> zlen keys <= zlen ps.
Proof.
  intros Ha. unfold zlen. rewrite <- (length_map (fun p => p.1.2) ps). apply inj_le, submseteq_length, NoDup_submseteq; [apply (ad_nodup _ _ _ _ Ha)|].
  intros k (t & v & Hin)%(ad_keys _ _ _ _ Ha). apply list_elem_of_fmap. by exists (t, k, v).
Qed.

Lemma compact_match_domain input es : CompactDomainMatcher_match_domain input
    (mkCompactDomainMatcher (fun input => SimpleMatcherGroup_match_str input es) [] []) = map snd (hits input es).
Proof. done. Qed.

(** What one rule matches. *)
Definition domain_rule_match (input : bytes) (rule : DomainRule) : bool :=
  match parse_domain rule with Ok m => match_str m input | Err _ => false end.

Lemma compact_entries_match input rules simple es : compact_entries rules simple = Ok es ->
  existsb (fun e => match_str e.1 input) es = existsb (fun e => match_str e.1 input) simple || existsb (domain_rule_match input) rules.
Proof.
  revert simple. induction rules as [|r rules IH]; intros simple; cbn [compact_entries existsb].
  - intros [= <-]. by rewrite orb_false_r.
  - unfold domain_rule_match at 1. destruct (parse_domain r) as [m|e]; [|done]. intros E. rewrite (IH _ E).
    unfold SimpleMatcherGroup_add. rewrite existsb_app. cbn. by rewrite orb_false_r, orb_assoc.
Qed.

(** Building through the table: it fails with the compact matcher, or leads to its answers. *)
Lemma mph_any_hits fuel rules m : Forall rule_ok rules -> 2 * zlen rules < 2 ^ 32 -> Z.of_nat fuel <= 2 ^ 32 ->
  MphDomainMatcher_build fuel rules = Some (Ok m) ->
  exists es, compact_entries rules [] = Ok es /\ forall input, MphDomainMatcher_match_any input m = true <-> hits input es <> [].
Proof.
  intros Hok Hl Hf. unfold MphDomainMatcher_build. pose proof (add_rules_spec rules [] _ _ _ [] adding_new) as Ha.
  destruct (compact_entries rules []) as [es|e] eqn:Ec; [|by cbn in Ha; rewrite Ha].
  destruct Ha as (mph & infos & keys & Hm & Ha). cbn [sel List.filter app] in Hm, Ha. rewrite Hm.
  pose proof (adding_length _ _ _ _ Ha) as Hkl. pose proof (keys_bound rules) as Hkb.
  pose proof (mph_result fuel _ mph infos keys Ha ltac:(lia) Hf) as Hr.
  destruct (MPHMatcherGroup_build fuel mph) as [[r g']|]; [|done]. intros [= <-]. destruct Hr as [_ Hany]. exists es. split; [done|].
  intros input. unfold MphDomainMatcher_match_any. cbn [md_mph md_simple].
  rewrite orb_true_iff, Hany, simple_any_nonempty. unfold hits. rewrite simple_rest.
  pose proof (table_any rules input [] es Hok Ec) as Ht. cbn in Ht.
  pose proof (perm_nonempty _ _ (hits_by_table input es)) as Hh. rewrite app_nonempty, Ht in Hh. clear - Ht Hh. naive_solver.
Qed.

(** The routing conditions use it: a name matches when one of the rules does. *)
Lemma mph_any_rules fuel rules m input : Forall rule_ok rules -> 2 * zlen rules < 2 ^ 32 -> Z.of_nat fuel <= 2 ^ 32 ->
  MphDomainMatcher_build fuel rules = Some (Ok m) ->
  MphDomainMatcher_match_any input m = existsb (domain_rule_match input) rules.
Proof.
  intros Hok Hl Hf Hb. destruct (mph_any_hits fuel rules m Hok Hl Hf Hb) as (es & Ec & Hm).
  pose proof (compact_entries_match input rules [] es Ec) as Hc. cbn in Hc. rewrite <- Hc.
  apply eq_true_iff_eq. rewrite Hm. unfold hits, sel. rewrite existsb_exists. split.
  - destruct (List.filter _ es) as [|x l] eqn:E; [done|]. intros _. exists x.
    apply (proj1 (List.filter_In (fun e : Matcher * Z => match_str e.1 input) x es)). rewrite E. by left.
  - intros (x & Hx & Hxm) E. assert (Hin : In x []) by (rewrite <- E; by apply List.filter_In). done.
Qed.

End equivalence.

(** * The cache key *)


(** Cutting at the first separator, and at the last. *)
Lemma cut_first {A} (c : A) l1 l2 r1 r2 : c ∉ l1 -> c ∉ l2 -> l1 ++ c :: r1 = l2 ++ c :: r2 -> l1 = l2 /\ r1 = r2.
Proof.
  revert l2. induction l1 as [|x l1 IH]; intros [|y l2] H1 H2 E; cbn in E.
  - by injection E.
  - injection E as -> _. destruct H2. by left.
  - injection E as -> _. destruct H1. by left.
  - injection E as -> E. destruct (IH l2) as [-> ->]; [set_solver..|done|done].
Qed.

Lemma cut_last {A} (c : A) l1 l2 r1 r2 : c ∉ r1 -> c ∉ r2 -> l1 ++ c :: r1 = l2 ++ c :: r2 -> l1 = l2 /\ r1 = r2.
Proof.
  intros H1 H2 E. apply (f_equal reverse) in E. rewrite !reverse_app, !reverse_cons, <- !app_assoc in E. cbn in E.
  apply cut_first in E as [Er El]; [|by rewrite elem_of_reverse..]. split; by apply (inj reverse).
Qed.

Lemma concat_terminated {A B} (c : A) (s : B -> list A) l1 l2 : (forall x, x ∈ l1 \/ x ∈ l2 -> c ∉ s x) ->
  concat (map (fun x => s x ++ [c]) l1) = concat (map (fun x => s x ++ [c]) l2) -> map s l1 = map s l2.
Proof.
  revert l2. induction l1 as [|x l1 IH]; intros [|y l2] Hc E; cbn in *; [done| | |].
  - by destruct (s y).
  - by destruct (s x).
  - rewrite <- !app_assoc in E. cbn in E. apply cut_first in E as [-> E]; [|apply Hc; set_solver..].
    f_equal. apply IH; [|done]. intros z [Hz|Hz]; apply Hc; set_solver.
Qed.

(** A rule that the key keeps apart: no comma in its value. *)
Definition clean_rule (r : DomainRule) : Prop := COMMA ∉ dr_value r /\ is_u32 (dr_rule_id r).

Definition rule_text (r : DomainRule) : bytes :=
  type_name (dr_type r) ++ COLON :: dr_value r ++ AT :: u32_to_string (dr_rule_id r).

Lemma digits_without c n : is_u32 n -> c < 48 \/ 57 < c -> c ∉ u32_to_string n.
Proof. intros Hn%u32_to_string_digits Hc Hin. rewrite Forall_forall in Hn. specialize (Hn _ Hin). lia. Qed.

Lemma rule_text_inj r1 r2 : is_u32 (dr_rule_id r1) -> is_u32 (dr_rule_id r2) -> rule_text r1 = rule_text r2 -> r1 = r2.
Proof.
  intros H1 H2 E. unfold rule_text in E. apply cut_first in E as [Et E]; [|destruct (dr_type r1); cbn; unfold COLON; set_solver by lia
    |destruct (dr_type r2); cbn; unfold COLON; set_solver by lia].
  apply cut_last in E as [Ev Ei]; [|apply digits_without; [done|unfold AT; lia]..].
  apply u32_to_string_inj in Ei; [|done..]. destruct r1 as [t1 v1 i1], r2 as [t2 v2 i2]. cbn in *. subst. f_equal. by destruct t1, t2.
Qed.

Lemma key_text rules : build_domain_rules_key rules = concat (map (fun r => rule_text r ++ [COMMA]) rules).
Proof.
  unfold build_domain_rules_key. f_equal. apply map_ext. intros r. unfold rule_text. rewrite <- !app_assoc. cbn. by rewrite <- app_assoc.
Qed.

Lemma rule_text_clean r : clean_rule r -> COMMA ∉ rule_text r.
Proof.
  intros [Hv Hi]. unfold rule_text. pose proof (digits_without COMMA _ Hi ltac:(unfold COMMA; lia)).
  rewrite not_elem_of_app, not_elem_of_cons, not_elem_of_app, not_elem_of_cons. split_and!; try done.
  destruct (dr_type r); cbn; unfold COMMA; set_solver by lia.
Qed.

Lemma domain_rules_key_inj rules1 rules2 : Forall clean_rule rules1 -> Forall clean_rule rules2 ->
  build_domain_rules_key rules1 = build_domain_rules_key rules2 -> rules1 = rules2.
Proof.
  rewrite !Forall_forall, !key_text. intros H1 H2 E%(concat_terminated COMMA); [|intros r [?|?]; apply rule_text_clean; auto].
  revert rules2 H2 E. induction rules1 as [|r1 rules1 IH]; intros [|r2 rules2] H2 E; cbn in E; [done..|]. injection E as Hr E.
  f_equal; [apply rule_text_inj; [apply H1; by left|apply H2; by left|done]|].
  apply IH; [intros; apply H1; by right|intros; apply H2; by right|done].
Qed.

(** With a comma in a value two rule lists share a key: [a] for rule 1 and [b] for rule 2,
    and the one value [a@1,full:b] for rule 2. *)
Lemma domain_rules_key_collision :
  build_domain_rules_key [mkDomainRule DtFull [97] 1; mkDomainRule DtFull [98] 2] =
  build_domain_rules_key [mkDomainRule DtFull [97; 64; 49; 44; 102; 117; 108; 108; 58; 98] 2].
Proof. reflexivity. Qed.

(** * The cache and the registry *)

Section registry.
Context {V E : Type} (build : list DomainRule -> result E V).
Implicit Types (c : WeakCacheMap V) (g : DomainRegistry (V := V)).

(** A live entry of the cache holds the matcher of the rules that its key names. *)
Record cache_ok c : Prop := {
  co_entry key w m : wc_inner c !! key = Some w -> wc_alive c !! w = Some m ->
    exists rules, Forall clean_rule rules /\ key = build_domain_rules_key rules /\ build rules = Ok m;
  co_inner key w : wc_inner c !! key = Some w -> (w < wc_next c)%nat;
  co_alive w m : wc_alive c !! w = Some m -> (w < wc_next c)%nat;
}.

Lemma cache_new_ok : cache_ok WeakCacheMap_new.
Proof. by split. Qed.

(** Nothing that is alive changes. *)
Definition keeps c c' : Prop := forall w m, wc_alive c !! w = Some m -> wc_alive c' !! w = Some m.

Lemma load_ok key c : cache_ok c -> let '(r, c') := WeakCacheMap_load key c in
  cache_ok c' /\ keeps c c' /\
  match r with Some w => wc_inner c !! key = Some w /\ is_Some (wc_alive c' !! w) | None => True end.
Proof.
  intros Hc. pose proof Hc as [He Hi Ha]. unfold WeakCacheMap_load. destruct (wc_inner c !! key) as [w|] eqn:Ek; [|split_and!; [done|by intros ??|done]].
  destruct (wc_alive c !! w) eqn:Ea; [split_and!; [done|by intros ?|done|done]|]. split_and!; [|by intros ?|done].
  split; cbn; [intros k w' m Hk; apply (He k w' m)|intros k w' Hk; apply (Hi k w')|done]; apply lookup_delete_Some in Hk; apply Hk.
Qed.

Lemma build_matcher_ok rules c : cache_ok c -> Forall clean_rule rules ->
  match build_matcher build rules c, build rules with
  | (Ok arc, c'), Ok m => cache_ok c' /\ keeps c c' /\ wc_alive c' !! arc = Some m
  | (Err e, c'), Err e' => e = e' /\ c' = c
  | _, _ => False
  end.
Proof.
  intros Hc Hr. unfold build_matcher. destruct (build rules) as [m|e] eqn:Eb; [|done]. unfold WeakCacheMap_get_or_insert_with.
  pose proof (load_ok (build_domain_rules_key rules) c Hc) as Hl. destruct (WeakCacheMap_load _ c) as [[w|] c'] eqn:El.
  - destruct Hl as (Hc' & Hk & Hw & [m' Hm]). split_and!; [done..|]. rewrite Hm. f_equal.
    assert (c' = c) as ->. { unfold WeakCacheMap_load in El. rewrite Hw in El. destruct (wc_alive c !! w); by injection El. }
    destruct (co_entry c Hc _ _ _ Hw Hm) as (rules' & Hr' & Hkey & Hb). apply domain_rules_key_inj in Hkey as ->; [congruence|done..].
  - destruct Hl as (Hc' & Hk & _). destruct Hc' as [He Hi Ha]. cbn. split_and!.
    + split; cbn.
      * intros key w m0 [[<- <-]|[Hne Hw]]%lookup_insert_Some; [rewrite lookup_insert_eq; intros [= <-]; by exists rules|].
        specialize (Hi _ _ Hw). rewrite lookup_insert_ne by lia. by apply He.
      * intros key w [[<- <-]|[_ Hw]]%lookup_insert_Some; [lia|]. specialize (Hi _ _ Hw). lia.
      * intros w m0 [[<- _]|[_ Hw]]%lookup_insert_Some; [lia|]. specialize (Ha _ _ Hw). lia.
    + intros w m0 Hw. cbn. apply Hk in Hw. specialize (Ha _ _ Hw). by rewrite lookup_insert_ne by lia.
    + apply lookup_insert_eq.
Qed.

(** What happens to a registry: rules are added, all matchers are reloaded, others use
    the same factory, the last reference to a matcher that no dynamic matcher holds goes,
    expired entries are cleaned up. *)
Inductive registry_reach : DomainRegistry -> Prop :=
| RegNew : registry_reach (mkRegistry [] WeakCacheMap_new)
| RegAdd g rules : registry_reach g -> Forall clean_rule rules -> registry_reach (add_rules build rules g).2
| RegReload g rules : registry_reach g -> Forall clean_rule rules -> registry_reach (reload_with build rules g).2
| RegOther g rules : registry_reach g -> Forall clean_rule rules ->
    registry_reach (mkRegistry (rg_matchers g) (build_matcher build rules (rg_cache g)).2)
| RegDrop g w : registry_reach g -> (forall d, d ∈ rg_matchers g -> dm_state d <> Some w) ->
    registry_reach (mkRegistry (rg_matchers g) (arc_drop w (rg_cache g)))
| RegCleanup g : registry_reach g -> registry_reach (mkRegistry (rg_matchers g) (cleanup_expired (rg_cache g)).2).

(** A dynamic matcher holds the matcher of its rules. *)
Definition current c (d : DynamicDomainMatcher) : Prop :=
  exists m, dynamic_matcher d c = Some m /\ build (dm_rules d) = Ok m.

Record registry_ok g : Prop := {
  ro_cache : cache_ok (rg_cache g);
  ro_matchers : Forall (current (rg_cache g)) (rg_matchers g);
}.

Lemma current_keeps c c' d : keeps c c' -> current c d -> current c' d.
Proof.
  intros Hk (m & Hd & Hb). exists m. split; [|done]. unfold dynamic_matcher in *. destruct (dm_state d); [by apply Hk|done].
Qed.

Lemma Forall_current_keeps c c' ds : keeps c c' -> Forall (current c) ds -> Forall (current c') ds.
Proof. intros Hk Hf. eapply Forall_impl; [exact Hf|]. intros d. by apply current_keeps. Qed.

Lemma set_rules_ok rules d c : cache_ok c -> Forall clean_rule rules ->
  match set_rules build rules d c, build rules with
  | (Ok _, d', c'), Ok m => cache_ok c' /\ keeps c c' /\ dm_rules d' = rules /\ current c' d'
  | (Err e, d', c'), Err e' => e = e' /\ d' = d /\ c' = c
  | _, _ => False
  end.
Proof.
  intros Hc Hr. unfold set_rules. pose proof (build_matcher_ok rules c Hc Hr) as Hb.
  destruct (build_matcher build rules c) as [[arc|e] c'], (build rules) as [m|e'] eqn:Eb; try done.
  - destruct Hb as (Hc' & Hk & Ha). split_and!; [done..|]. exists m. by split.
  - by destruct Hb as [-> ->].
Qed.

Lemma reload_loop_ok rules finished todo c m : build rules = Ok m -> cache_ok c -> Forall clean_rule rules ->
  Forall (fun d => dm_rules d = rules /\ current c d) finished ->
  exists g', reload_loop build rules finished todo c = (Ok tt, g') /\ cache_ok (rg_cache g') /\ keeps c (rg_cache g') /\
    length (rg_matchers g') = (length finished + length todo)%nat /\
    Forall (fun d => dm_rules d = rules /\ current (rg_cache g') d) (rg_matchers g').
Proof.
  intros Hb Hc Hr. revert finished c Hc. induction todo as [|d todo IH]; intros finished c Hc Hf; cbn [reload_loop].
  - eexists. split; [done|]. cbn. split_and!; [done|by intros ?|lia|done].
  - pose proof (set_rules_ok rules d c Hc Hr) as Hs. rewrite Hb in Hs. destruct (set_rules build rules d c) as [[[[]|e] d'] c']; [|done].
    destruct Hs as (Hc' & Hk & Hd & Hcur). destruct (IH (finished ++ [d']) c' Hc') as (g' & -> & Hg & Hk' & Hlen & Hf').
    { apply Forall_app. split; [|by repeat constructor]. eapply Forall_impl; [exact Hf|]. intros x [? ?]. split; [done|by eapply current_keeps]. }
    exists g'. split_and!; [done|done|intros w x Hw; by apply Hk', Hk| |done]. rewrite Hlen, length_app. cbn. lia.
Qed.

Lemma reload_with_ok rules g : cache_ok (rg_cache g) -> Forall clean_rule rules ->
  match reload_with build rules g, build rules with
  | (Ok _, g'), Ok m => cache_ok (rg_cache g') /\ keeps (rg_cache g) (rg_cache g') /\ length (rg_matchers g') = length (rg_matchers g) /\
      Forall (fun d => dm_rules d = rules /\ current (rg_cache g') d) (rg_matchers g')
  | (Ok _, g'), Err _ => g' = g /\ rg_matchers g = []
  | (Err e, g'), Err e' => e = e' /\ g' = g
  | (Err _, _), Ok _ => False
  end.
Proof.
  intros Hc Hr. unfold reload_with. destruct (build rules) as [m|e] eqn:Eb.
  - destruct (reload_loop_ok rules [] (rg_matchers g) _ m Eb Hc Hr) as (g' & -> & H1 & H2 & H3 & H4); [constructor|]. done.
  - destruct g as [[|d ds] c]; [done|]. cbn. pose proof (set_rules_ok rules d c Hc Hr) as Hs. rewrite Eb in Hs.
    destruct (set_rules build rules d c) as [[[?|e'] d'] c']; [done|]. by destruct Hs as (-> & -> & ->).
Qed.

Lemma registry_reach_ok g : registry_reach g -> registry_ok g.
Proof.
  induction 1 as [|g rules _ [Hc Hm] Hr|g rules _ [Hc Hm] Hr|g rules _ [Hc Hm] Hr|g w _ [Hc Hm] Hw|g _ [Hc Hm]].
  - split; [apply cache_new_ok|constructor].
  - unfold add_rules. pose proof (set_rules_ok rules DynamicDomainMatcher_new _ Hc Hr) as Hs.
    destruct (set_rules _ _ _ _) as [[[?|e] d] c'], (build rules); try done.
    + destruct Hs as (Hc' & Hk & _ & Hd). split; [done|]. cbn. apply Forall_app. split; [by eapply Forall_current_keeps|by repeat constructor].
    + destruct Hs as (_ & _ & ->). by split.
  - pose proof (reload_with_ok rules g Hc Hr) as Hs. destruct (reload_with build rules g) as [[?|e] g'], (build rules); try done.
    + destruct Hs as (Hc' & _ & _ & Hf). split; [done|]. eapply Forall_impl; [exact Hf|]. by intros d [_ ?].
    + destruct Hs as [-> _]. by split.
    + destruct Hs as [_ ->]. by split.
  - pose proof (build_matcher_ok rules _ Hc Hr) as Hb. destruct (build_matcher _ _ _) as [[?|e] c'], (build rules); try done.
    + destruct Hb as (Hc' & Hk & _). split; [done|]. by eapply Forall_current_keeps.
    + destruct Hb as [_ ->]. by split.
  - destruct Hc as [He Hi Ha]. split; [split; cbn|].
    + intros key w' m Hk [_ Hw']%lookup_delete_Some. by eapply He.
    + done.
    + intros w' m [_ Hw']%lookup_delete_Some. by eapply Ha.
    + cbn. rewrite Forall_forall in Hm |- *. intros d Hd. destruct (Hm d Hd) as (m & Hdm & Hb). exists m. split; [|done].
      specialize (Hw d Hd). unfold dynamic_matcher in *. destruct (dm_state d) as [w'|]; [|done]. cbn. rewrite lookup_delete_ne; congruence.
  - destruct Hc as [He Hi Ha]. split; [split; cbn|done].
    + intros key w m [Hk _]%map_lookup_filter_Some. by eapply He.
    + intros key w [Hk _]%map_lookup_filter_Some. by eapply Hi.
    + done.
Qed.

End registry.
