(* ===== verification/IpMatch.v ===== *)
(** The IP matchers of [xray-geodata] ([matcher/ip.rs]): sets of CIDR blocks kept as sorted
    disjoint ranges, the matchers over them with their per-prefix memory, the builder from
    rules and the registry whose matchers are replaced on a reload.

    The Protobuf messages [CIDR], [CIDRRule] and [IPRule] are records of the fields the
    code reads.  An [IpAddr] is its octets. *)
From stdpp Require Import base tactics option list numbers gmap.
From S2P Require Import Prelude Bytes NetTypes DomainMatch.

(** ** Messages *)

Record Cidr : Type := mkCidr { cidr_ip : bytes; cidr_prefix : Z }.
Record CidrRule : Type := mkCidrRule { cr_cidr : option Cidr; cr_reverse_match : bool }.

Inductive IpRuleValue : Type :=
| Geoip
| Custom (rule : CidrRule).

Record IpRule : Type := mkIpRule { ir_value : option IpRuleValue }.

(** ** CIDR blocks *)

Definition IPV4_NO_ENTRIES : Z := 255.
Definition IPV6_NO_ENTRIES : Z := 255.
Definition IPV4_MATCH_ALL : Z := 254.
Definition IPV6_MATCH_ALL : Z := 254.

Definition U32_MAX : Z := 4294967295.
Definition U128_MAX : Z := 340282366920938463463374607431768211455.

(** [addr] and [prefix]; [!0 << n] drops the bits above the width. *)
Record Ipv4Cidr : Type := mkIpv4Cidr { v4_addr : Z; v4_prefix : Z }.
Record Ipv6Cidr : Type := mkIpv6Cidr { v6_addr : Z; v6_prefix : Z }.

Definition Ipv4Cidr_new (addr : bytes) (prefix : Z) : Ipv4Cidr := mkIpv4Cidr (be_val addr) (Z.min prefix 32).
Definition Ipv6Cidr_new (addr : bytes) (prefix : Z) : Ipv6Cidr := mkIpv6Cidr (be_val addr) (Z.min prefix 128).

Definition Ipv4Cidr_range (c : Ipv4Cidr) : Z * Z :=
  if v4_prefix c =? 0 then (0, U32_MAX)
  else
    let mask := if 32 <=? v4_prefix c then U32_MAX else Z.land (Z.shiftl U32_MAX (32 - v4_prefix c)) U32_MAX in
    let base := Z.land (v4_addr c) mask in
    (base, Z.lor base (Z.lxor mask U32_MAX)).

Definition Ipv6Cidr_range (c : Ipv6Cidr) : Z * Z :=
  if v6_prefix c =? 0 then (0, U128_MAX)
  else
    let mask := if 128 <=? v6_prefix c then U128_MAX else Z.land (Z.shiftl U128_MAX (128 - v6_prefix c)) U128_MAX in
    let base := Z.land (v6_addr c) mask in
    (base, Z.lor base (Z.lxor mask U128_MAX)).

(** ** [IPSet] *)

Record IPSet : Type := mkIPSet {
  ipv4_ranges : list (Z * Z);
  ipv6_ranges : list (Z * Z);
  max4 : Z;
  max6 : Z
}.

(** The order of pairs, as [sort_unstable] takes it: equal pairs cannot be told apart. *)
Definition range_le (a b : Z * Z) : bool := (a.1 <? b.1) || ((a.1 =? b.1) && (a.2 <=? b.2)).

Definition merge_range (merged : list (Z * Z)) (r : Z * Z) : list (Z * Z) :=
  match last merged with
  | Some l =>
      if r.1 <=? l.2 then (if l.2 <? r.2 then <[ pred (length merged) := (l.1, r.2) ]> merged else merged)
      else merged ++ [r]
  | None => merged ++ [r]
  end.

Definition merge_sorted_ranges (ranges : list (Z * Z)) : list (Z * Z) :=
  fold_left merge_range (sort_by range_le ranges) [].

Definition IPSet_new : IPSet := mkIPSet [] [] IPV4_NO_ENTRIES IPV6_NO_ENTRIES.

(** One turn of the loop of [from_cidrs]; the fields hold the ranges not yet merged. *)
Definition add_cidr (s : IPSet) (c : Cidr) : IPSet :=
  if zlen (cidr_ip c) =? 4 then
    let prefix := Z.min (cidr_prefix c) 32 in
    let net := Ipv4Cidr_new (cidr_ip c) prefix in
    let m :=
      if prefix =? 0 then IPV4_MATCH_ALL
      else if negb (max4 s =? IPV4_MATCH_ALL) && ((max4 s <? prefix) || (max4 s =? IPV4_NO_ENTRIES)) then prefix
      else max4 s in
    mkIPSet (ipv4_ranges s ++ [Ipv4Cidr_range net]) (ipv6_ranges s) m (max6 s)
  else if zlen (cidr_ip c) =? 16 then
    let prefix := Z.min (cidr_prefix c) 128 in
    let net := Ipv6Cidr_new (cidr_ip c) prefix in
    let m :=
      if prefix =? 0 then IPV6_MATCH_ALL
      else if negb (max6 s =? IPV6_MATCH_ALL) && ((max6 s <? prefix) || (max6 s =? IPV6_NO_ENTRIES)) then prefix
      else max6 s in
    mkIPSet (ipv4_ranges s) (ipv6_ranges s ++ [Ipv6Cidr_range net]) (max4 s) m
  else s.

Definition IPSet_from_cidrs (cidrs : list Cidr) : IPSet :=
  let s := fold_left add_cidr cidrs IPSet_new in
  mkIPSet (merge_sorted_ranges (ipv4_ranges s)) (merge_sorted_ranges (ipv6_ranges s)) (max4 s) (max6 s).

(** The standard library's [partition_point] on a slice that [pred] partitions: the index
    of the first element that fails it. *)
Fixpoint partition_point {A} (pred : A -> bool) (l : list A) : nat :=
  match l with
  | [] => O
  | x :: l => if pred x then S (partition_point pred l) else O
  end.

Definition search_ranges (ranges : list (Z * Z)) (v : Z) : bool :=
  match ranges !! partition_point (fun r => r.2 <? v) ranges with
  | Some r => r.1 <=? v
  | None => false
  end.

Definition contains_v4 (s : IPSet) (ip : bytes) : bool :=
  if max4 s =? IPV4_NO_ENTRIES then false
  else if max4 s =? IPV4_MATCH_ALL then true
  else search_ranges (ipv4_ranges s) (be_val ip).

Definition contains_v6 (s : IPSet) (ip : bytes) : bool :=
  if max6 s =? IPV6_NO_ENTRIES then false
  else if max6 s =? IPV6_MATCH_ALL then true
  else search_ranges (ipv6_ranges s) (be_val ip).

Definition IPSet_contains (s : IPSet) (ip : IpAddr) : bool :=
  match ip with V4 o => contains_v4 s o | V6 o => contains_v6 s o end.

Definition is_empty_v4 (s : IPSet) : bool := max4 s =? IPV4_NO_ENTRIES.
Definition is_empty_v6 (s : IPSet) : bool := max6 s =? IPV6_NO_ENTRIES.

(** ** The memory of the batch operations *)

Definition prefix_key_v4 (o : bytes) : bytes := [4; o @ 0; o @ 1; o @ 2; 0; 0; 0; 0; 0].
Definition prefix_key_v6 (o : bytes) : bytes := [6; o @ 0; o @ 1; o @ 2; o @ 3; o @ 4; o @ 5; o @ 6; o @ 7].
Definition prefix_key (ip : IpAddr) : bytes :=
  match ip with V4 o => prefix_key_v4 o | V6 o => prefix_key_v6 o end.

Record HeuristicIPMatcher : Type := mkHeuristic { hm_ipset : IPSet; hm_reverse : bool }.

Definition Heuristic_new (s : IPSet) : HeuristicIPMatcher := mkHeuristic s false.
Definition Heuristic_from_cidrs (cidrs : list Cidr) : HeuristicIPMatcher := Heuristic_new (IPSet_from_cidrs cidrs).

Section heuristic.
Context (m : HeuristicIPMatcher).

Definition match_addr (ip : IpAddr) : bool :=
  match ip with
  | V4 o => if max4 (hm_ipset m) =? IPV4_NO_ENTRIES then false else xorb (contains_v4 (hm_ipset m) o) (hm_reverse m)
  | V6 o => if max6 (hm_ipset m) =? IPV6_NO_ENTRIES then false else xorb (contains_v6 (hm_ipset m) o) (hm_reverse m)
  end.

Definition heuristic_v4 : bool := max4 (hm_ipset m) <=? 24.
Definition heuristic_v6 : bool := max6 (hm_ipset m) <=? 64.

Definition use_heur (ip : IpAddr) : bool := match ip with V4 _ => heuristic_v4 | V6 _ => heuristic_v6 end.

(** The loop of [any_match]; [seen] is the memory. *)
Fixpoint any_loop (ips : list IpAddr) (seen : gmap bytes bool) : bool :=
  match ips with
  | [] => false
  | ip :: ips =>
      let go :=
        let r := match_addr ip in
        let seen := if use_heur ip then <[ prefix_key ip := r ]> seen else seen in
        if r then true else any_loop ips seen in
      if use_heur ip then
        match seen !! prefix_key ip with
        | Some r => if r : bool then true else any_loop ips seen
        | None => go
        end
      else go
  end.

Definition Heuristic_any_match (ips : list IpAddr) : bool :=
  match ips with
  | [] => false
  | [ip] => match_addr ip
  | _ => if negb heuristic_v4 && negb heuristic_v6 then existsb match_addr ips else any_loop ips ∅
  end.

Fixpoint all_loop (ips : list IpAddr) (buckets : gmap bytes bool) : bool :=
  match ips with
  | [] => true
  | ip :: ips =>
      let go :=
        let r := match_addr ip in
        let buckets := if use_heur ip then <[ prefix_key ip := r ]> buckets else buckets in
        if negb r then false else all_loop ips buckets in
      if use_heur ip then
        match buckets !! prefix_key ip with
        | Some r => if negb r then false else all_loop ips buckets
        | None => go
        end
      else go
  end.

Definition Heuristic_matches (ips : list IpAddr) : bool :=
  match ips with
  | [] => false
  | [ip] => match_addr ip
  | _ => if negb heuristic_v4 && negb heuristic_v6 then forallb match_addr ips else all_loop ips ∅
  end.

Fixpoint filter_loop (ips : list IpAddr) (buckets : gmap bytes bool) : list IpAddr :=
  match ips with
  | [] => []
  | ip :: ips =>
      if use_heur ip then
        let matched := default (match_addr ip) (buckets !! prefix_key ip) in
        let buckets := <[ prefix_key ip := matched ]> buckets in
        if matched then ip :: filter_loop ips buckets else filter_loop ips buckets
      else if match_addr ip then ip :: filter_loop ips buckets
      else filter_loop ips buckets
  end.

Definition Heuristic_filter_ips (ips : list IpAddr) : list IpAddr :=
  match ips with
  | [] => []
  | [ip] => if match_addr ip then [ip] else []
  | _ => if negb heuristic_v4 && negb heuristic_v6 then List.filter match_addr ips else filter_loop ips ∅
  end.
End heuristic.

Definition Heuristic_set_reverse (reverse : bool) (m : HeuristicIPMatcher) : HeuristicIPMatcher :=
  mkHeuristic (hm_ipset m) reverse.

(** ** [Box<dyn IPMatcher>]: the three implementations *)

Inductive IPMatcher : Type :=
| Heuristic (m : HeuristicIPMatcher)
| HeuristicMulti (matchers : list HeuristicIPMatcher)
| GeneralMulti (matchers : list IPMatcher).

Fixpoint match_ip (m : IPMatcher) (ip : IpAddr) : bool :=
  match m with
  | Heuristic m => match_addr m ip
  | HeuristicMulti ms => existsb (fun m => match_addr m ip) ms
  | GeneralMulti ms => existsb (fun m => match_ip m ip) ms
  end.

Fixpoint any_match (m : IPMatcher) (ips : list IpAddr) : bool :=
  match m with
  | Heuristic m => Heuristic_any_match m ips
  | HeuristicMulti ms => existsb (fun m => Heuristic_any_match m ips) ms
  | GeneralMulti ms => existsb (fun m => any_match m ips) ms
  end.

Fixpoint matches (m : IPMatcher) (ips : list IpAddr) : bool :=
  match m with
  | Heuristic m => Heuristic_matches m ips
  | HeuristicMulti ms => forallb (fun m => Heuristic_matches m ips) ms
  | GeneralMulti ms => forallb (fun m => matches m ips) ms
  end.

Definition filter_ips (m : IPMatcher) (ips : list IpAddr) : list IpAddr :=
  match m with
  | Heuristic m => Heuristic_filter_ips m ips
  | HeuristicMulti _ | GeneralMulti _ => List.filter (match_ip m) ips
  end.

Definition reverse (m : IPMatcher) : bool :=
  match m with Heuristic m => hm_reverse m | HeuristicMulti _ | GeneralMulti _ => false end.

(** The matchers of several ignore it. *)
Definition set_reverse (r : bool) (m : IPMatcher) : IPMatcher :=
  match m with Heuristic m => Heuristic (Heuristic_set_reverse r m) | _ => m end.

Definition toggle_reverse (m : IPMatcher) : IPMatcher := set_reverse (negb (reverse m)) m.

(** ** [IPSetFactory] *)

Record IPSetFactory : Type := mkIPSetFactory { sf_cache : gmap bytes IPSet }.

Definition create_from_cidrs (key : bytes) (cidrs : list Cidr) (f : IPSetFactory) : IPSet * IPSetFactory :=
  match sf_cache f !! key with
  | Some ipset => (ipset, f)
  | None =>
      let ipset := IPSet_from_cidrs cidrs in
      (ipset, mkIPSetFactory (<[ key := ipset ]> (sf_cache f)))
  end.

(** ** The builder *)

Inductive BuildIPMatcherError : Type := EmptyRules.

(** The loop over the rules: positive blocks, negative blocks, GeoIP matchers. *)
Fixpoint split_rules (rules : list IpRule) (pos neg : list Cidr) (geo : list HeuristicIPMatcher)
    : list Cidr * list Cidr * list HeuristicIPMatcher :=
  match rules with
  | [] => (pos, neg, geo)
  | rule :: rules =>
      match ir_value rule with
      | Some Geoip => split_rules rules pos neg (geo ++ [Heuristic_from_cidrs []])
      | Some (Custom c) =>
          match cr_cidr c with
          | Some cidr => if cr_reverse_match c then split_rules rules pos (neg ++ [cidr]) geo
                         else split_rules rules (pos ++ [cidr]) neg geo
          | None => split_rules rules pos neg geo
          end
      | None => split_rules rules pos neg geo
      end
  end.

Definition build_optimized_ip_matcher (rules : list IpRule) : result BuildIPMatcherError IPMatcher :=
  match rules with
  | [] => Err EmptyRules
  | _ =>
      let '(pos, neg, geo) := split_rules rules [] [] [] in
      let subs := match pos with [] => [] | _ => [Heuristic_from_cidrs pos] end in
      let subs := match neg with [] => subs | _ => subs ++ [Heuristic_set_reverse true (Heuristic_from_cidrs neg)] end in
      let subs := subs ++ geo in
      match subs with
      | [] => Err EmptyRules
      | [m] => Ok (Heuristic m)
      | _ => Ok (HeuristicMulti subs)
      end
  end.

(** ** [DynamicIPMatcher], [IpRegistry] *)

Record DynamicIPMatcher : Type := mkDynamicIP { di_state : IPMatcher; di_reverse : bool; di_reverse_set : bool }.

Definition DynamicIPMatcher_new (initial : IPMatcher) : DynamicIPMatcher := mkDynamicIP initial false false.

Definition DynamicIPMatcher_replace (new_matcher : IPMatcher) (d : DynamicIPMatcher) : DynamicIPMatcher :=
  let new :=
    if di_reverse_set d then set_reverse (di_reverse d) new_matcher
    else if di_reverse d then toggle_reverse new_matcher
    else new_matcher in
  mkDynamicIP new (di_reverse d) (di_reverse_set d).

Definition DynamicIPMatcher_set_reverse (r : bool) (d : DynamicIPMatcher) : DynamicIPMatcher :=
  mkDynamicIP (set_reverse r (di_state d)) r true.

Definition DynamicIPMatcher_toggle_reverse (d : DynamicIPMatcher) : DynamicIPMatcher :=
  mkDynamicIP (toggle_reverse (di_state d)) (negb (di_reverse d)) (di_reverse_set d).

(** The registered matchers, shared with the callers of [add_rules] by their index. *)
Record IpRegistry : Type := mkIpRegistry { ig_entries : list DynamicIPMatcher }.

Definition IpRegistry_new : IpRegistry := mkIpRegistry [].

Definition IpRegistry_add_rules (rules : list IpRule) (g : IpRegistry) : result BuildIPMatcherError nat * IpRegistry :=
  match build_optimized_ip_matcher rules with
  | Err e => (Err e, g)
  | Ok initial => (Ok (length (ig_entries g)), mkIpRegistry (ig_entries g ++ [DynamicIPMatcher_new initial]))
  end.

Fixpoint replace_loop (new_rules : list IpRule) (finished todo : list DynamicIPMatcher)
    : result BuildIPMatcherError unit * IpRegistry :=
  match todo with
  | [] => (Ok tt, mkIpRegistry finished)
  | entry :: todo =>
      match build_optimized_ip_matcher new_rules with
      | Err e => (Err e, mkIpRegistry (finished ++ entry :: todo))
      | Ok fresh => replace_loop new_rules (finished ++ [DynamicIPMatcher_replace fresh entry]) todo
      end
  end.

Definition IpRegistry_reload_with (new_rules : list IpRule) (g : IpRegistry) : result BuildIPMatcherError unit * IpRegistry :=
  replace_loop new_rules [] (ig_entries g).
