(* ===== verification/IpMatchProps.v ===== *)
(** The IP matchers of [IpMatch] against their reference: an address matches a block when
    it agrees with it on the bits of the prefix. *)
From stdpp Require Import base tactics option list numbers gmap sorting.
From S2P Require Import Prelude Bytes NetTypes DomainMatch DomainMatchProps IpMatch.

(** ** Blocks as ranges *)

Section mask.
Context (w k : Z) (Hk : 0 <= k <= w).

Lemma mask_bits : Z.land (Z.shiftl (Z.ones w) k) (Z.ones w) = Z.shiftl (Z.ones (w - k)) k.
Proof using Hk.
  apply Z.bits_inj'. intros n Hn. rewrite Z.land_spec, !Z.shiftl_spec, !Z.testbit_ones by lia.
  destruct (Z.leb_spec 0 (n - k)), (Z.leb_spec 0 n), (Z.ltb_spec (n - k) w), (Z.ltb_spec n w), (Z.ltb_spec (n - k) (w - k)); cbn; lia.
Qed.

Lemma masked_base a : 0 <= a < 2 ^ w -> Z.land a (Z.shiftl (Z.ones (w - k)) k) = a / 2 ^ k * 2 ^ k.
Proof using Hk.
  intros Ha. rewrite <- Z.shiftr_div_pow2, <- Z.shiftl_mul_pow2 by lia.
  apply Z.bits_inj'. intros n Hn. rewrite Z.land_spec, !Z.shiftl_spec, Z.testbit_ones by lia.
  destruct (decide (n < k)) as [Hlt|Hge].
  - rewrite (Z.testbit_neg_r (Z.shiftr a k)) by lia. destruct (Z.leb_spec 0 (n - k)); [lia|]. by rewrite andb_false_r.
  - rewrite Z.shiftr_spec by lia. replace (n - k + k) with n by lia.
    destruct (Z.leb_spec 0 (n - k)); [|lia]. destruct (Z.ltb_spec (n - k) (w - k)); cbn; [by rewrite andb_true_r|].
    rewrite andb_false_r. rewrite <- (Z.mod_small a (2 ^ w)) by lia. by rewrite Z.mod_pow2_bits_high by lia.
Qed.

Lemma masked_top a : 0 <= a < 2 ^ w ->
  Z.lor (a / 2 ^ k * 2 ^ k) (Z.lxor (Z.shiftl (Z.ones (w - k)) k) (Z.ones w)) = a / 2 ^ k * 2 ^ k + 2 ^ k - 1.
Proof using Hk.
  intros Ha. replace (Z.lxor _ _) with (Z.ones k).
  - rewrite <- Z.add_nocarry_lor, Z.ones_equiv; [lia|]. rewrite Z.land_ones by lia. apply Z.mod_mul. lia.
  - apply Z.bits_inj'. intros n Hn. rewrite Z.lxor_spec, Z.shiftl_spec, !Z.testbit_ones by lia.
    destruct (Z.leb_spec 0 (n - k)), (Z.leb_spec 0 n), (Z.ltb_spec (n - k) (w - k)), (Z.ltb_spec n w), (Z.ltb_spec n k); cbn; lia.
Qed.

Lemma same_block a v : 0 <= a -> 0 <= v ->
  a / 2 ^ k * 2 ^ k <= v <= a / 2 ^ k * 2 ^ k + 2 ^ k - 1 <-> v / 2 ^ k = a / 2 ^ k.
Proof using Hk.
  intros Ha Hv. assert (0 < 2 ^ k) by (apply Z.pow_pos_nonneg; lia).
  pose proof (Z.div_mod v (2 ^ k)). pose proof (Z.mod_pos_bound v (2 ^ k)). split; [|nia].
  intros Hr. symmetry. apply (Z.div_unique v (2 ^ k) _ (v - a / 2 ^ k * 2 ^ k)); lia.
Qed.
End mask.

(** The block of [a] under a prefix of [p] bits out of [w]. *)
Definition block (w a p : Z) : Z * Z :=
  let k := w - p in (a / 2 ^ k * 2 ^ k, a / 2 ^ k * 2 ^ k + 2 ^ k - 1).

Lemma in_block w a p v : 0 <= p <= w -> 0 <= a -> 0 <= v ->
  (block w a p).1 <= v <= (block w a p).2 <-> v / 2 ^ (w - p) = a / 2 ^ (w - p).
Proof. intros. apply (same_block w); lia. Qed.

Lemma block_order w a p : 0 <= p <= w -> (block w a p).1 <= (block w a p).2.
Proof. intros. cbn. assert (0 < 2 ^ (w - p)) by (apply Z.pow_pos_nonneg; lia). lia. Qed.

Lemma block_zero w a : 0 <= w -> 0 <= a < 2 ^ w -> block w a 0 = (0, Z.ones w).
Proof. intros Hw Ha. unfold block. rewrite Z.sub_0_r, Z.div_small by lia. rewrite Z.ones_equiv. f_equal; lia. Qed.

Lemma block_mask w a p : 0 < p <= w -> 0 <= a < 2 ^ w ->
  (let mask := if w <=? p then Z.ones w else Z.land (Z.shiftl (Z.ones w) (w - p)) (Z.ones w) in
   let base := Z.land a mask in (base, Z.lor base (Z.lxor mask (Z.ones w)))) = block w a p.
Proof.
  intros Hp Ha. cbn zeta.
  replace (if w <=? p then _ else _) with (Z.shiftl (Z.ones (w - (w - p))) (w - p)).
  - rewrite masked_base, masked_top by lia. done.
  - destruct (Z.leb_spec w p).
    + replace (w - p) with 0 by lia. by rewrite Z.sub_0_r.
    + by rewrite mask_bits by lia.
Qed.

Lemma v4_range_block o p : octets_ok 4 o -> 0 <= p -> Ipv4Cidr_range (Ipv4Cidr_new o p) = block 32 (be_val o) (Z.min p 32).
Proof.
  intros [Ho Hl] Hp. pose proof (be_val_range o Ho) as Hr. rewrite Hl in Hr. change (256 ^ 4) with (2 ^ 32) in Hr.
  unfold Ipv4Cidr_range. cbn [Ipv4Cidr_new v4_prefix v4_addr]. destruct (Z.eqb_spec (Z.min p 32) 0) as [->|].
  - by rewrite block_zero by lia.
  - apply (block_mask 32); lia.
Qed.

Lemma v6_range_block o p : octets_ok 16 o -> 0 <= p -> Ipv6Cidr_range (Ipv6Cidr_new o p) = block 128 (be_val o) (Z.min p 128).
Proof.
  intros [Ho Hl] Hp. pose proof (be_val_range o Ho) as Hr. rewrite Hl in Hr. change (256 ^ 16) with (2 ^ 128) in Hr.
  unfold Ipv6Cidr_range. cbn [Ipv6Cidr_new v6_prefix v6_addr]. destruct (Z.eqb_spec (Z.min p 128) 0) as [->|].
  - by rewrite block_zero by lia.
  - apply (block_mask 128); lia.
Qed.

(** ** Merging and searching ranges *)

Definition in_range (v : Z) (r : Z * Z) : bool := (r.1 <=? v) && (v <=? r.2).
Definition in_ranges (l : list (Z * Z)) (v : Z) : bool := existsb (in_range v) l.

(** Non-empty, ascending, and not touching. *)
Definition ranges_ok (l : list (Z * Z)) : Prop :=
  Forall (fun r => r.1 <= r.2) l /\ StronglySorted (fun a b => a.2 < b.1) l.

Lemma in_ranges_app l1 l2 v : in_ranges (l1 ++ l2) v = in_ranges l1 v || in_ranges l2 v.
Proof. apply existsb_app. Qed.

Lemma set_last {A} (front : list A) x y : <[ pred (length (front ++ [x])) := y ]> (front ++ [x]) = front ++ [y].
Proof.
  rewrite length_app. cbn [length]. replace (pred (length front + 1)) with (length front + 0)%nat by lia.
  by rewrite insert_app_r.
Qed.

Lemma sorted_snoc_last {A} (R : A -> A -> Prop) front x : StronglySorted R (front ++ [x]) <-> StronglySorted R front /\ Forall (fun a => R a x) front.
Proof.
  induction front as [|a front IH]; cbn.
  - split; [by repeat constructor|repeat constructor].
  - split.
    + intros H. apply StronglySorted_inv in H as [H Hf]. apply IH in H as [H1 H2]. apply Forall_app in Hf as [Hf Hx].
      rewrite Forall_singleton in Hx. split; by constructor.
    + intros [H Hf]. apply StronglySorted_inv in H as [H Ha]. apply Forall_cons in Hf as [Hx Hf]. constructor; [by apply IH|].
      apply Forall_app. split; [done|]. by apply Forall_singleton.
Qed.

Lemma ranges_ok_snoc front r : ranges_ok (front ++ [r]) <-> ranges_ok front /\ r.1 <= r.2 /\ Forall (fun a => a.2 < r.1) front.
Proof. unfold ranges_ok. rewrite Forall_app, Forall_singleton, sorted_snoc_last. tauto. Qed.

(** What the loop knows: the last merged range starts before all that is to come. *)
Definition after_last (merged : list (Z * Z)) (r : Z * Z) : Prop := forall l, last merged = Some l -> l.1 <= r.1.

Lemma merge_range_spec merged r : ranges_ok merged -> r.1 <= r.2 -> after_last merged r ->
  ranges_ok (merge_range merged r) /\ (forall v, in_ranges (merge_range merged r) v = in_ranges merged v || in_range v r) /\
  (forall l, last (merge_range merged r) = Some l -> l.1 <= r.1).
Proof.
  intros Hok Hr Hl. unfold merge_range. destruct merged as [|l front _] using rev_ind; cbn [last].
  { cbn. split_and!; [by repeat constructor|intros v; by rewrite orb_false_r|]. intros l [= <-]. lia. }
  rewrite last_snoc. assert (Hll : l.1 <= r.1) by (apply Hl, last_snoc). apply ranges_ok_snoc in Hok as (Hf & Hl' & Hs).
  destruct (Z.leb_spec r.1 l.2) as [Hin|Hout].
  - destruct (Z.ltb_spec l.2 r.2) as [Hgrow|Hcov].
    + rewrite set_last. split_and!.
      * apply ranges_ok_snoc. cbn. split_and!; [done|lia|done].
      * intros v. rewrite !in_ranges_app, <- orb_assoc. f_equal. cbn. unfold in_range. cbn. lia.
      * intros x. rewrite last_snoc. by intros [= <-].
    + split_and!; [by apply ranges_ok_snoc| |].
      * intros v. rewrite !in_ranges_app, <- orb_assoc. f_equal. cbn. unfold in_range. lia.
      * intros x. rewrite last_snoc. by intros [= <-].
  - split_and!.
    + apply ranges_ok_snoc. split_and!; [by apply ranges_ok_snoc|done|]. apply Forall_app. split; [|by apply Forall_singleton].
      eapply Forall_impl; [exact Hs|]. cbn. lia.
    + intros v. rewrite in_ranges_app. f_equal. cbn. by rewrite orb_false_r.
    + intros x. rewrite last_snoc. intros [= <-]. lia.
Qed.

Lemma merge_loop_spec todo merged : ranges_ok merged -> Forall (fun r => r.1 <= r.2) todo ->
  Forall (after_last merged) todo -> StronglySorted (fun a b => a.1 <= b.1) todo ->
  ranges_ok (fold_left merge_range todo merged) /\
  forall v, in_ranges (fold_left merge_range todo merged) v = in_ranges merged v || in_ranges todo v.
Proof.
  revert merged. induction todo as [|r todo IH]; intros merged Hok Hne Haft Hs; cbn [fold_left].
  { split; [done|]. intros v. cbn. by rewrite orb_false_r. }
  apply Forall_cons in Hne as [Hr Hne]. apply Forall_cons in Haft as [Hr' Haft]. apply StronglySorted_inv in Hs as [Hs Hf].
  destruct (merge_range_spec merged r) as (H1 & H2 & H3); [done..|]. destruct (IH (merge_range merged r)) as [H4 H5]; [done|done| |done|].
  - eapply Forall_impl; [exact Hf|]. intros x Hx l Hl. cbn in Hx. specialize (H3 l Hl). lia.
  - split; [done|]. intros v. rewrite H5, H2. cbn [in_ranges existsb]. by rewrite orb_assoc.
Qed.

Lemma range_le_total a b : range_le a b = false -> range_le b a = true.
Proof. unfold range_le. lia. Qed.
Lemma range_le_trans a b c : range_le a b = true -> range_le b c = true -> range_le a c = true.
Proof. unfold range_le. lia. Qed.

Lemma in_ranges_perm l1 l2 v : l1 ≡ₚ l2 -> in_ranges l1 v = in_ranges l2 v.
Proof. induction 1; cbn; [done|by f_equal|by rewrite !orb_assoc, (orb_comm (in_range v y))|congruence]. Qed.

Lemma merge_sorted_ranges_spec l : Forall (fun r => r.1 <= r.2) l ->
  ranges_ok (merge_sorted_ranges l) /\ forall v, in_ranges (merge_sorted_ranges l) v = in_ranges l v.
Proof.
  intros Hl. pose proof (sort_by_perm range_le l) as Hp. destruct (merge_loop_spec (sort_by range_le l) []) as [H1 H2].
  - by repeat constructor.
  - by rewrite Hp.
  - apply Forall_forall. by intros r _ x.
  - eapply StronglySorted_mono; [apply (sort_by_sorted range_le range_le_total range_le_trans)|]. unfold range_le. intros a b _ _. lia.
  - split; [done|]. intros v. rewrite H2. cbn. by apply in_ranges_perm.
Qed.

(** The search finds what a scan finds. *)
Lemma search_ranges_spec l v : ranges_ok l -> search_ranges l v = in_ranges l v.
Proof.
  intros [_ Hs]. induction l as [|r l IH]; [done|]. apply StronglySorted_inv in Hs as [Hs Hf].
  unfold search_ranges. cbn [partition_point in_ranges existsb]. unfold in_range at 1.
  destruct (Z.ltb_spec r.2 v) as [Hlt|Hge].
  - change (search_ranges l v = (r.1 <=? v) && (v <=? r.2) || in_ranges l v). rewrite IH by done. destruct (Z.leb_spec v r.2); [lia|]. by rewrite andb_false_r.
  - cbn. destruct (Z.leb_spec v r.2); [|lia]. rewrite andb_true_r. destruct (Z.leb_spec r.1 v); [done|]. symmetry.
    apply not_true_iff_false. intros (x & Hx & Hin)%existsb_exists. rewrite <- list_elem_of_In in Hx.
    rewrite Forall_forall in Hf. specialize (Hf x Hx). unfold in_range in Hin. lia.
Qed.

(** [partition_point] is called on lists its predicate partitions. *)
Lemma ranges_partitioned l v : ranges_ok l ->
  Forall (fun r => (r.2 <? v) = true) (take (partition_point (fun r => r.2 <? v) l) l) /\
  Forall (fun r => (r.2 <? v) = false) (drop (partition_point (fun r => r.2 <? v) l) l).
Proof.
  intros [Hne Hs]. induction l as [|r l IH]; [by split|]. apply StronglySorted_inv in Hs as [Hs Hf]. apply Forall_cons in Hne as [Hr Hne].
  cbn [partition_point]. destruct (r.2 <? v) eqn:E; cbn.
  - destruct (IH Hne Hs). split; [by constructor|done].
  - split; [constructor|]. constructor; [done|]. rewrite Forall_forall in Hne, Hf |- *. intros x Hx. specialize (Hne x Hx). specialize (Hf x Hx). lia.
Qed.

(** ** Sets of blocks *)

Definition ip_ok (ip : IpAddr) : Prop := match ip with V4 o => octets_ok 4 o | V6 o => octets_ok 16 o end.
Definition cidr_ok (c : Cidr) : Prop := bytes_ok (cidr_ip c) /\ is_u32 (cidr_prefix c).

(** The reference: the address [o] of [n] bytes agrees with the block on its prefix. *)
Definition covers (n : Z) (o : bytes) (c : Cidr) : bool :=
  (zlen (cidr_ip c) =? n) &&
  (let k := 8 * n - Z.min (cidr_prefix c) (8 * n) in be_val o / 2 ^ k =? be_val (cidr_ip c) / 2 ^ k).

Definition cidr_covers (ip : IpAddr) (c : Cidr) : bool :=
  match ip with V4 o => covers 4 o c | V6 o => covers 16 o c end.

Definition family (n : Z) (cs : list Cidr) : list Cidr := List.filter (fun c => zlen (cidr_ip c) =? n) cs.
Definition prefixes (n : Z) (cs : list Cidr) : list Z := map (fun c => Z.min (cidr_prefix c) (8 * n)) (family n cs).
Definition blocks (n : Z) (cs : list Cidr) : list (Z * Z) :=
  map (fun c => block (8 * n) (be_val (cidr_ip c)) (Z.min (cidr_prefix c) (8 * n))) (family n cs).

(** [max4], [max6]: 255 without entries, 254 with a prefix of length 0, else the longest. *)
Definition finest (ps : list Z) (m : Z) : Prop :=
  (ps = [] /\ m = 255) \/ (0 ∈ ps /\ m = 254) \/ (0 ∉ ps /\ m ∈ ps /\ Forall (fun p => p <= m) ps).

Lemma finest_snoc ps m p : Forall (fun p => 0 <= p <= 128) ps -> 0 <= p <= 128 -> finest ps m ->
  finest (ps ++ [p]) (if p =? 0 then 254 else if negb (m =? 254) && ((m <? p) || (m =? 255)) then p else m).
Proof.
  intros Hps Hp Hm. rewrite Forall_forall in Hps. unfold finest. destruct (Z.eqb_spec p 0) as [->|Hp0].
  { right. left. split; [|done]. set_solver. }
  destruct Hm as [[-> ->]|[[H0 ->]|(H0 & Hin & Hle)]].
  - right. right. assert (Hif : negb (255 =? 254) && ((255 <? p) || (255 =? 255)) = true) by lia. rewrite Hif.
    split_and!; [set_solver|set_solver|]. apply Forall_singleton. lia.
  - right. left. split; [set_solver|done].
  - right. right. specialize (Hps m Hin). assert (Hif : negb (m =? 254) && ((m <? p) || (m =? 255)) = (m <? p)) by lia. rewrite Hif.
    split; [set_solver|]. destruct (Z.ltb_spec m p); (split; [set_solver|]); apply Forall_app; (split; [|apply Forall_singleton; lia]).
    + eapply Forall_impl; [exact Hle|]. cbn. lia.
    + done.
Qed.

Lemma prefixes_range n cs : 0 <= n <= 16 -> Forall cidr_ok cs -> Forall (fun p => 0 <= p <= 128) (prefixes n cs).
Proof.
  intros Hn Hcs. apply Forall_map. rewrite Forall_forall in Hcs |- *. intros c [Hc _]%list_elem_of_In%filter_In.
  apply list_elem_of_In, Hcs in Hc as [_ Hp]. unfold is_u32 in Hp. lia.
Qed.

Lemma family_snoc n cs c : family n (cs ++ [c]) = family n cs ++ (if zlen (cidr_ip c) =? n then [c] else []).
Proof. unfold family. by rewrite List.filter_app. Qed.

(** The loop of [from_cidrs]. *)
Lemma from_cidrs_loop cs : Forall cidr_ok cs ->
  let s := fold_left add_cidr cs IPSet_new in
  (ipv4_ranges s = blocks 4 cs /\ finest (prefixes 4 cs) (max4 s)) /\
  (ipv6_ranges s = blocks 16 cs /\ finest (prefixes 16 cs) (max6 s)).
Proof.
  induction cs as [|c cs IH] using rev_ind; intros Hok.
  { cbn. split; (split; [done|by left]). }
  apply Forall_app in Hok as [Hcs [[Hip Hp] _]%Forall_cons]. destruct (IH Hcs) as [[H4 M4] [H6 M6]].
  cbn zeta. rewrite fold_left_app. cbn [fold_left]. set (s := fold_left add_cidr cs IPSet_new) in *.
  pose proof (prefixes_range 4 cs ltac:(lia) Hcs). pose proof (prefixes_range 16 cs ltac:(lia) Hcs).
  unfold is_u32 in Hp. unfold blocks, prefixes, add_cidr. rewrite !family_snoc, !map_app.
  destruct (Z.eqb_spec (zlen (cidr_ip c)) 4) as [E4|N4]; [|destruct (Z.eqb_spec (zlen (cidr_ip c)) 16) as [E6|N6]].
  - rewrite E4. cbn -[block finest Z.min]. rewrite !app_nil_r, v4_range_block by (done || lia). rewrite <- Z.min_assoc. split; [|done].
    split; [by rewrite H4|]. apply finest_snoc; [done|lia|done].
  - cbn -[block finest Z.min]. rewrite !app_nil_r, v6_range_block by (done || lia). rewrite <- Z.min_assoc. split; [done|].
    split; [by rewrite H6|]. apply finest_snoc; [done|lia|done].
  - by rewrite !app_nil_r.
Qed.

Lemma blocks_nonempty n cs : 0 <= n <= 16 -> Forall cidr_ok cs -> Forall (fun r => r.1 <= r.2) (blocks n cs).
Proof.
  intros Hn Hcs. apply Forall_map. rewrite Forall_forall in Hcs |- *. intros c [Hc _]%list_elem_of_In%filter_In.
  apply list_elem_of_In, Hcs in Hc as [_ Hp]. unfold is_u32 in Hp. apply block_order. lia.
Qed.

Lemma covers_in_block n o c : 0 <= n <= 16 -> octets_ok n o -> cidr_ok c ->
  covers n o c = (zlen (cidr_ip c) =? n) && in_range (be_val o) (block (8 * n) (be_val (cidr_ip c)) (Z.min (cidr_prefix c) (8 * n))).
Proof.
  intros Hn [Ho _] [Hc Hp]. unfold covers. destruct (zlen (cidr_ip c) =? n); cbn [andb]; [|done]. unfold is_u32 in Hp.
  pose proof (be_val_range o Ho). pose proof (be_val_range (cidr_ip c) Hc).
  pose proof (in_block (8 * n) (be_val (cidr_ip c)) (Z.min (cidr_prefix c) (8 * n)) (be_val o) ltac:(lia) ltac:(lia) ltac:(lia)).
  unfold in_range. lia.
Qed.

Lemma covers_blocks n o cs : 0 <= n <= 16 -> octets_ok n o -> Forall cidr_ok cs ->
  existsb (covers n o) cs = in_ranges (blocks n cs) (be_val o).
Proof.
  intros Hn Ho. unfold blocks, family. induction 1 as [|c cs Hc _ IH]; [done|]. cbn [existsb List.filter].
  rewrite covers_in_block, IH by done. by destruct (zlen (cidr_ip c) =? n).
Qed.

Lemma covers_zero n o c : 0 <= n -> octets_ok n o -> bytes_ok (cidr_ip c) -> zlen (cidr_ip c) = n ->
  Z.min (cidr_prefix c) (8 * n) = 0 -> covers n o c = true.
Proof.
  intros Hn [Ho Hl] Hc Hcl E. unfold covers. rewrite E, Hcl, Z.eqb_refl, Z.sub_0_r. cbn [andb].
  pose proof (be_val_range o Ho) as H1. pose proof (be_val_range (cidr_ip c) Hc) as H2. rewrite Hl in H1. rewrite Hcl in H2.
  replace (256 ^ n) with (2 ^ (8 * n)) in * by (rewrite Z.pow_mul_r by lia; done). rewrite !Z.div_small by lia. done.
Qed.

(** The lookup in the merged ranges, with its shortcuts, is the scan. *)
Lemma family_search n cs o m : 0 <= n <= 16 -> Forall cidr_ok cs -> octets_ok n o -> finest (prefixes n cs) m ->
  (if m =? 255 then false else if m =? 254 then true else search_ranges (merge_sorted_ranges (blocks n cs)) (be_val o))
  = existsb (covers n o) cs.
Proof.
  intros Hn Hcs Ho Hm. rewrite covers_blocks by done.
  destruct (merge_sorted_ranges_spec (blocks n cs)) as [Hok Hin]; [by apply blocks_nonempty|].
  pose proof (prefixes_range n cs Hn Hcs) as Hr. rewrite Forall_forall in Hr.
  destruct Hm as [[E ->]|[[H0 ->]|(H0 & Hi & _)]].
  - apply map_eq_nil in E. unfold blocks. by rewrite E.
  - cbn. symmetry. rewrite <- covers_blocks by done. apply list_elem_of_In, in_map_iff in H0 as (c & E & [Hc Hl]%filter_In).
    apply existsb_exists. exists c. split; [done|]. rewrite Forall_forall in Hcs. destruct (Hcs c ltac:(by apply list_elem_of_In)).
    apply covers_zero; (done || lia).
  - specialize (Hr m Hi). destruct (Z.eqb_spec m 255); [lia|]. destruct (Z.eqb_spec m 254); [lia|].
    by rewrite search_ranges_spec, Hin.
Qed.

Lemma set_contains cs ip : Forall cidr_ok cs -> ip_ok ip -> IPSet_contains (IPSet_from_cidrs cs) ip = existsb (cidr_covers ip) cs.
Proof.
  intros Hcs Hip. destruct (from_cidrs_loop cs Hcs) as [[H4 M4] [H6 M6]]. destruct ip as [o|o]; cbn in Hip.
  - change (existsb (cidr_covers (V4 o)) cs) with (existsb (covers 4 o) cs).
    rewrite <- (family_search 4 cs o (max4 (IPSet_from_cidrs cs))) by (done || lia).
    cbn -[search_ranges merge_sorted_ranges blocks]. unfold contains_v4. cbn -[search_ranges merge_sorted_ranges blocks]. by rewrite H4.
  - change (existsb (cidr_covers (V6 o)) cs) with (existsb (covers 16 o) cs).
    rewrite <- (family_search 16 cs o (max6 (IPSet_from_cidrs cs))) by (done || lia).
    cbn -[search_ranges merge_sorted_ranges blocks]. unfold contains_v6. cbn -[search_ranges merge_sorted_ranges blocks]. by rewrite H6.
Qed.

(** ** One matcher: the memory of a batch never changes an answer *)

(** A matcher of the library: over a set of blocks, reversed or not. *)
Definition over (cs : list Cidr) (r : bool) : HeuristicIPMatcher := Heuristic_set_reverse r (Heuristic_from_cidrs cs).

Definition is_v4 (ip : IpAddr) : bool := match ip with V4 _ => true | V6 _ => false end.
Definition same_family (ip : IpAddr) (c : Cidr) : bool := zlen (cidr_ip c) =? (if is_v4 ip then 4 else 16).

(** The answer for one address: nothing matches without blocks of its family. *)
Definition block_match (cs : list Cidr) (r : bool) (ip : IpAddr) : bool :=
  existsb (same_family ip) cs && xorb (existsb (cidr_covers ip) cs) r.

Lemma family_exists n cs : existsb (fun c => zlen (cidr_ip c) =? n) cs = negb (bool_decide (family n cs = [])).
Proof. unfold family. induction cs as [|c cs IH]; cbn; [done|]. by destruct (zlen (cidr_ip c) =? n). Qed.

Lemma finest_none n cs m : 0 <= n <= 16 -> Forall cidr_ok cs -> finest (prefixes n cs) m -> (m =? 255) = bool_decide (family n cs = []).
Proof.
  intros Hn Hcs Hm. pose proof (prefixes_range n cs Hn Hcs) as Hr. rewrite Forall_forall in Hr.
  destruct Hm as [[E ->]|[[H0 ->]|(H0 & Hi & _)]].
  - apply map_eq_nil in E. by rewrite E.
  - rewrite bool_decide_false; [done|]. intros E. unfold prefixes in H0. rewrite E in H0. by apply not_elem_of_nil in H0.
  - specialize (Hr m Hi). rewrite bool_decide_false; [lia|]. intros E. unfold prefixes in Hi. rewrite E in Hi. by apply not_elem_of_nil in Hi.
Qed.

Lemma match_addr_exact cs r ip : Forall cidr_ok cs -> ip_ok ip -> match_addr (over cs r) ip = block_match cs r ip.
Proof.
  intros Hcs Hip. destruct (from_cidrs_loop cs Hcs) as [[_ M4] [_ M6]]. pose proof (set_contains cs ip Hcs Hip) as Hc. unfold block_match.
  destruct ip as [o|o]; unfold same_family; cbn [is_v4]; rewrite family_exists; cbn in Hc |- *.
  - rewrite (finest_none 4 cs) by (done || lia). destruct (bool_decide (family 4 cs = [])); cbn; [done|]. by rewrite Hc.
  - rewrite (finest_none 16 cs) by (done || lia). destruct (bool_decide (family 16 cs = [])); cbn; [done|]. by rewrite Hc.
Qed.

Lemma be_val_shift l1 l2 : bytes_ok l2 -> be_val (l1 ++ l2) / 2 ^ (8 * zlen l2) = be_val l1.
Proof.
  intros H. rewrite be_val_app, Z.pow_mul_r by (lia || zlia). change (2 ^ 8) with 256. pose proof (be_val_range l2 H).
  rewrite Z.div_add_l, Z.div_small by lia. lia.
Qed.

Lemma div_pow_mono a b j k : 0 <= j <= k -> a / 2 ^ j = b / 2 ^ j -> a / 2 ^ k = b / 2 ^ k.
Proof.
  intros Hjk E. replace k with (j + (k - j)) by lia. rewrite Z.pow_add_r by lia.
  rewrite <- !Z.div_div by lia. by rewrite E.
Qed.

(** Addresses that agree on the bits a block can test are told apart by no block. *)
Lemma covers_prefix n o o' cs m j : Forall cidr_ok cs -> finest (prefixes n cs) m -> 0 <= n <= 16 -> m <= 8 * n - j -> m <= 128 -> 0 <= j ->
  be_val o / 2 ^ j = be_val o' / 2 ^ j -> existsb (covers n o) cs = existsb (covers n o') cs.
Proof.
  intros Hcs Hm Hn Hj Hsmall Hj0 E.
  assert (Hp : Forall (fun p => p <= m) (prefixes n cs)) by (destruct Hm as [[-> ->]|[[_ ->]|(_ & _ & H)]]; [lia|lia|done]).
  clear Hm. unfold prefixes, family in Hp. induction Hcs as [|c cs Hc Hcs IH]; cbn [existsb]; [done|]. cbn [List.filter] in Hp.
  unfold covers at 1 3. destruct (Z.eqb_spec (zlen (cidr_ip c)) n) as [Hl|Hl]; cbn [andb orb].
  - cbn [map] in Hp. apply Forall_cons in Hp as [Hpc Hp]. rewrite IH by done. f_equal. cbn zeta.
    rewrite (div_pow_mono (be_val o) (be_val o') j) by (done || lia). done.
  - by apply IH.
Qed.

(** ... and one key says that they agree. *)
Lemma be_val_take (k : nat) n o : octets_ok n o -> (k <= length o)%nat -> be_val o / 2 ^ (8 * (n - Z.of_nat k)) = be_val (take k o).
Proof.
  intros [Ho <-] Hk. rewrite <- (take_drop k o) at 1. replace (zlen o - Z.of_nat k) with (zlen (drop k o)).
  - apply be_val_shift. by apply Forall_drop.
  - unfold zlen. rewrite length_drop. lia.
Qed.

Lemma octets_long (k : nat) n o : octets_ok n o -> Z.of_nat k <= n -> (k <= length o)%nat.
Proof. intros [_ <-]. unfold zlen. lia. Qed.

Lemma take_bytes (k : nat) o : (k <= length o)%nat -> take k o = map (fun i => o @ Z.of_nat i) (seq 0 k).
Proof.
  intros Hk. apply list_eq. intros i. destruct (decide (i < k)%nat) as [Hi|Hi].
  - rewrite lookup_take_lt by done. change (map ?f ?l) with (f <$> l). rewrite list_lookup_fmap, lookup_seq_lt by done. cbn.
    unfold byte_at. rewrite Nat2Z.id. destruct (lookup_lt_is_Some_2 o i ltac:(lia)) as [x Hx]. rewrite Hx. f_equal.
    symmetry. by apply nth_lookup_Some.
  - rewrite lookup_ge_None_2 by (rewrite length_take; lia). symmetry. apply lookup_ge_None_2. rewrite length_map, length_seq. lia.
Qed.

Lemma same_key cs r ip ip' : Forall cidr_ok cs -> ip_ok ip -> ip_ok ip' -> use_heur (over cs r) ip = true ->
  prefix_key ip = prefix_key ip' -> block_match cs r ip = block_match cs r ip'.
Proof.
  intros Hcs Hip Hip' Hu Hk. destruct (from_cidrs_loop cs Hcs) as [[_ M4] [_ M6]]. unfold block_match.
  destruct ip as [o|o], ip' as [o'|o']; [|discriminate Hk|discriminate Hk|]; cbn in Hip, Hip', Hu.
  - unfold same_family; cbn [is_v4 cidr_covers]. f_equal. f_equal.
    apply Z.leb_le in Hu. change (max4 (fold_left add_cidr cs IPSet_new) <= 24) in Hu. apply (covers_prefix 4 _ _ _ _ 8 Hcs M4); [lia..|].
    change 8 with (8 * (4 - Z.of_nat 3)).
    rewrite !be_val_take by (done || (eapply octets_long; [done|lia])).
    rewrite !take_bytes by (eapply octets_long; [done|lia]). cbn [prefix_key prefix_key_v4] in Hk. injection Hk as E0 E1 E2. cbn [seq map]. f_equal. by repeat (apply (f_equal2 cons); [assumption|]).
  - unfold same_family; cbn [is_v4 cidr_covers]. f_equal. f_equal.
    apply Z.leb_le in Hu. change (max6 (fold_left add_cidr cs IPSet_new) <= 64) in Hu. apply (covers_prefix 16 _ _ _ _ 64 Hcs M6); [lia..|].
    change 64 with (8 * (16 - Z.of_nat 8)). rewrite !be_val_take by (done || (eapply octets_long; [done|lia])).
    rewrite !take_bytes by (eapply octets_long; [done|lia]). cbn [prefix_key prefix_key_v6] in Hk.
    injection Hk as E0 E1 E2 E3 E4 E5 E6 E7. cbn [seq map]. f_equal. by repeat (apply (f_equal2 cons); [assumption|]).
Qed.

(** What the memory of a batch holds. *)
Definition memory_ok (cs : list Cidr) (r : bool) (seen : gmap bytes bool) : Prop :=
  forall ip b, ip_ok ip -> use_heur (over cs r) ip = true -> seen !! prefix_key ip = Some b -> b = block_match cs r ip.

Lemma memory_insert cs r seen ip : Forall cidr_ok cs -> memory_ok cs r seen -> ip_ok ip ->
  memory_ok cs r (<[ prefix_key ip := block_match cs r ip ]> seen).
Proof.
  intros Hcs Hs Hip ip' b Hip' Hu'. rewrite lookup_insert_Some. intros [[E <-]|[_ Hb]]; [|by apply (Hs ip' b)].
  symmetry. by apply same_key.
Qed.

Section batch.
Context (cs : list Cidr) (r : bool) (Hcs : Forall cidr_ok cs).
Let m := over cs r.
Let good := block_match cs r.

Lemma any_loop_spec ips seen : Forall ip_ok ips -> memory_ok cs r seen -> any_loop m ips seen = existsb good ips.
Proof using Hcs.
  intros Hips. revert seen. induction Hips as [|ip ips Hip Hips IH]; intros seen Hs; [done|].
  cbn [any_loop existsb]. unfold m, good in *. rewrite match_addr_exact by done. destruct (use_heur (over cs r) ip) eqn:Hu.
  - destruct (seen !! prefix_key ip) as [b|] eqn:Hb.
    + rewrite (Hs ip b) by done. destruct (block_match cs r ip); cbn; [done|by apply IH].
    + destruct (block_match cs r ip) eqn:Hg; cbn; [done|]. apply IH. rewrite <- Hg. by apply memory_insert.
  - destruct (block_match cs r ip); cbn; [done|by apply IH].
Qed.

Lemma all_loop_spec ips seen : Forall ip_ok ips -> memory_ok cs r seen -> all_loop m ips seen = forallb good ips.
Proof using Hcs.
  intros Hips. revert seen. induction Hips as [|ip ips Hip Hips IH]; intros seen Hs; [done|].
  cbn [all_loop forallb]. unfold m, good in *. rewrite match_addr_exact by done. destruct (use_heur (over cs r) ip) eqn:Hu.
  - destruct (seen !! prefix_key ip) as [b|] eqn:Hb.
    + rewrite (Hs ip b) by done. destruct (block_match cs r ip); cbn; [by apply IH|done].
    + destruct (block_match cs r ip) eqn:Hg; cbn; [|done]. apply IH. rewrite <- Hg. by apply memory_insert.
  - destruct (block_match cs r ip); cbn; [by apply IH|done].
Qed.

Lemma filter_loop_spec ips seen : Forall ip_ok ips -> memory_ok cs r seen -> filter_loop m ips seen = List.filter good ips.
Proof using Hcs.
  intros Hips. revert seen. induction Hips as [|ip ips Hip Hips IH]; intros seen Hs; [done|].
  cbn [filter_loop List.filter]. unfold m, good in *. rewrite match_addr_exact by done. destruct (use_heur (over cs r) ip) eqn:Hu.
  - assert (Hd : default (block_match cs r ip) (seen !! prefix_key ip) = block_match cs r ip).
    { destruct (seen !! prefix_key ip) as [b|] eqn:Hb; cbn; [by apply Hs|done]. }
    rewrite Hd, IH by (done || by apply memory_insert). done.
  - by rewrite IH.
Qed.

Lemma empty_memory : memory_ok cs r ∅.
Proof using. intros ip b _ _. by rewrite lookup_empty. Qed.

Lemma existsb_ext' {A} (f g : A -> bool) l : Forall (fun x => f x = g x) l -> existsb f l = existsb g l.
Proof using. induction 1 as [|x l E _ IH]; cbn in *; [done|by rewrite E, IH]. Qed.
Lemma forallb_ext' {A} (f g : A -> bool) l : Forall (fun x => f x = g x) l -> forallb f l = forallb g l.
Proof using. induction 1 as [|x l E _ IH]; cbn in *; [done|by rewrite E, IH]. Qed.
Lemma filter_ext' {A} (f g : A -> bool) l : Forall (fun x => f x = g x) l -> List.filter f l = List.filter g l.
Proof using. induction 1 as [|x l E _ IH]; cbn in *; [done|by rewrite E, IH]. Qed.

Lemma each_exact ips : Forall ip_ok ips -> Forall (fun ip => match_addr m ip = good ip) ips.
Proof using Hcs. intros H. eapply Forall_impl; [exact H|]. intros ip Hip. by apply match_addr_exact. Qed.

Lemma batch_any ips : Forall ip_ok ips -> Heuristic_any_match m ips = existsb good ips.
Proof using Hcs.
  intros H. pose proof (each_exact ips H) as E. unfold Heuristic_any_match. destruct ips as [|ip [|ip' ips]]; [done| |].
  - rewrite Forall_singleton in E. cbn. by rewrite E, orb_false_r.
  - destruct (negb _ && negb _); [by apply existsb_ext'|]. apply any_loop_spec; [done|apply empty_memory].
Qed.

Lemma batch_all ips : Forall ip_ok ips -> Heuristic_matches m ips = negb (bool_decide (ips = [])) && forallb good ips.
Proof using Hcs.
  intros H. pose proof (each_exact ips H) as E. unfold Heuristic_matches. destruct ips as [|ip [|ip' ips]]; [done| |].
  - rewrite Forall_singleton in E. cbn. by rewrite E, andb_true_r.
  - cbn [bool_decide negb andb]. destruct (negb _ && negb _); [by apply forallb_ext'|]. apply all_loop_spec; [done|apply empty_memory].
Qed.

Lemma batch_filter ips : Forall ip_ok ips -> Heuristic_filter_ips m ips = List.filter good ips.
Proof using Hcs.
  intros H. pose proof (each_exact ips H) as E. unfold Heuristic_filter_ips. destruct ips as [|ip [|ip' ips]]; [done| |].
  - rewrite Forall_singleton in E. cbn. by rewrite E.
  - destruct (negb _ && negb _); [by apply filter_ext'|]. apply filter_loop_spec; [done|apply empty_memory].
Qed.
End batch.

(** ** The builder *)

Definition rule_blocks (reversed : bool) (rules : list IpRule) : list Cidr :=
  concat (map (fun r =>
    match ir_value r with
    | Some (Custom c) => match cr_cidr c with Some b => if eqb (cr_reverse_match c) reversed then [b] else [] | None => [] end
    | _ => []
    end) rules).

Definition is_geoip (r : IpRule) : bool := match ir_value r with Some Geoip => true | _ => false end.

Definition rules_ok (rules : list IpRule) : Prop := forall b, Forall cidr_ok (rule_blocks b rules).

(** A group of blocks, reversed or not, for each kind of rule there is. *)
Definition group (cs : list Cidr) (r : bool) : list (list Cidr * bool) := match cs with [] => [] | _ => [(cs, r)] end.
Definition parts (rules : list IpRule) : list (list Cidr * bool) :=
  group (rule_blocks false rules) false ++ group (rule_blocks true rules) true ++ map (fun _ => ([], false)) (List.filter is_geoip rules).
Definition part_match (ip : IpAddr) (g : list Cidr * bool) : bool := block_match g.1 g.2 ip.

(** What the rules mean: in a block of a plain rule, or, if there are reversed rules of its
    family, in none of their blocks. *)
Definition rule_match (rules : list IpRule) (ip : IpAddr) : bool :=
  existsb (cidr_covers ip) (rule_blocks false rules) ||
  existsb (same_family ip) (rule_blocks true rules) && negb (existsb (cidr_covers ip) (rule_blocks true rules)).

Lemma split_rules_spec rules pos neg geo :
  split_rules rules pos neg geo =
    (pos ++ rule_blocks false rules, neg ++ rule_blocks true rules, geo ++ map (fun _ => Heuristic_from_cidrs []) (List.filter is_geoip rules)).
Proof.
  revert pos neg geo. induction rules as [|r rules IH]; intros pos neg geo; cbn [split_rules]; [by rewrite !app_nil_r|].
  unfold rule_blocks in *. destruct r as [[[|[[b|] []]]|]]; cbn; rewrite IH, <- ?app_assoc; reflexivity.
Qed.

Lemma subs_parts rules :
  let '(pos, neg, geo) := split_rules rules [] [] [] in
  let subs := match pos with [] => [] | _ => [Heuristic_from_cidrs pos] end in
  let subs := match neg with [] => subs | _ => subs ++ [Heuristic_set_reverse true (Heuristic_from_cidrs neg)] end in
  subs ++ geo = map (fun g => over g.1 g.2) (parts rules).
Proof.
  rewrite split_rules_spec. cbn [app]. unfold parts, group. rewrite !map_app, map_map.
  destruct (rule_blocks false rules), (rule_blocks true rules); cbn; by rewrite <- ?app_assoc.
Qed.

Lemma build_parts rules :
  match build_optimized_ip_matcher rules with
  | Err _ => parts rules = []
  | Ok m => (exists g, parts rules = [g] /\ m = Heuristic (over g.1 g.2)) \/
            (parts rules <> [] /\ m = HeuristicMulti (map (fun g => over g.1 g.2) (parts rules)))
  end.
Proof.
  destruct rules as [|r rules]; [done|]. pose proof (subs_parts (r :: rules)) as Hs.
  unfold build_optimized_ip_matcher. destruct (split_rules (r :: rules) [] [] []) as [[pos neg] geo].
  cbn zeta in Hs |- *. rewrite Hs. destruct (parts (r :: rules)) as [|g [|g' gs]]; cbn [map]; [done|by left; exists g|by right].
Qed.

Lemma covers_family ip cs : existsb (cidr_covers ip) cs = true -> existsb (same_family ip) cs = true.
Proof.
  rewrite !existsb_exists. intros (c & Hc & Hm). exists c. split; [done|].
  destruct ip; cbn in Hm; unfold covers in Hm; unfold same_family; cbn; lia.
Qed.

Lemma group_match cs r ip : existsb (part_match ip) (group cs r) = block_match cs r ip.
Proof. by destruct cs; cbn; [|rewrite orb_false_r]. Qed.

Lemma parts_match rules ip : existsb (part_match ip) (parts rules) = rule_match rules ip.
Proof.
  unfold parts, rule_match. rewrite !existsb_app, !group_match.
  assert (Hg : existsb (part_match ip) (map (fun _ => ([], false)) (List.filter is_geoip rules)) = false).
  { apply not_true_iff_false. intros (g & Hg & Hm)%existsb_exists. apply in_map_iff in Hg as (x & <- & _). done. }
  rewrite Hg, orb_false_r. unfold block_match at 1. rewrite xorb_false_r.
  destruct (existsb (cidr_covers ip) (rule_blocks false rules)) eqn:E.
  - by rewrite covers_family.
  - rewrite andb_false_r. cbn. unfold block_match. by rewrite xorb_true_r.
Qed.

Lemma existsb_swap {A B} (f : A -> B -> bool) l k : existsb (fun a => existsb (f a) k) l = existsb (fun b => existsb (fun a => f a b) l) k.
Proof.
  apply eq_true_iff_eq. rewrite !existsb_exists. setoid_rewrite existsb_exists. firstorder.
Qed.

Lemma parts_ok rules : rules_ok rules -> Forall (fun g => Forall cidr_ok g.1) (parts rules).
Proof.
  intros H. unfold parts. rewrite !Forall_app. assert (Hg : forall cs (r : bool), Forall cidr_ok cs -> Forall (fun g => Forall cidr_ok g.1) (group cs r)).
  { intros [|c cs] r Hc; cbn; [constructor|]. by constructor. }
  split_and!; [by apply Hg|by apply Hg|]. apply Forall_map, Forall_forall. constructor.
Qed.

Lemma multi_any gs ips : Forall (fun g => Forall cidr_ok g.1) gs -> Forall ip_ok ips ->
  existsb (fun m => Heuristic_any_match m ips) (map (fun g => over g.1 g.2) gs) = existsb (fun ip => existsb (part_match ip) gs) ips.
Proof.
  intros Hgs Hips. rewrite <- (existsb_swap (fun g ip => part_match ip g)). induction Hgs as [|g gs Hg _ IH]; cbn; [done|].
  rewrite IH. f_equal. by apply batch_any.
Qed.

Lemma multi_all gs ips : Forall (fun g => Forall cidr_ok g.1) gs -> Forall ip_ok ips -> ips <> [] ->
  forallb (fun m => Heuristic_matches m ips) (map (fun g => over g.1 g.2) gs) = forallb (fun g => forallb (fun ip => part_match ip g) ips) gs.
Proof.
  intros Hgs Hips Hne. induction Hgs as [|g gs Hg _ IH]; cbn; [done|]. rewrite IH, batch_all by done.
  by rewrite bool_decide_false by done.
Qed.

Lemma multi_one gs ip : Forall (fun g => Forall cidr_ok g.1) gs -> ip_ok ip ->
  existsb (fun m => match_addr m ip) (map (fun g => over g.1 g.2) gs) = existsb (part_match ip) gs.
Proof.
  intros Hgs Hip. induction Hgs as [|g gs Hg _ IH]; cbn; [done|]. rewrite IH. f_equal. by apply match_addr_exact.
Qed.

(** The routing conditions use it: the built matcher answers by the rules. *)
Lemma built_match rules m ip : rules_ok rules -> build_optimized_ip_matcher rules = Ok m -> ip_ok ip ->
  match_ip m ip = rule_match rules ip.
Proof.
  intros Hr Hb Hip. pose proof (build_parts rules) as Hp. rewrite Hb in Hp. rewrite <- parts_match. pose proof (parts_ok rules Hr) as Hok.
  destruct Hp as [(g & E & ->)|[_ ->]].
  - rewrite E in *. rewrite Forall_singleton in Hok. cbn. rewrite orb_false_r. by apply match_addr_exact.
  - cbn. by apply multi_one.
Qed.

(** An IP set against a scan of its blocks.  The ranges it keeps are ascending, disjoint
    and cover the same addresses, so that the binary search is called on lists it is
    defined for; [max4] and [max6] are the longest prefix of the family, with the marks
    for no entry and for a prefix of length zero; and an address is in the set exactly
    when it agrees with one of the blocks of its family on the bits of that block's prefix
    (a prefix longer than the address counts as the whole address, a block that is not of
    4 or 16 bytes is left out). *)
Theorem ip_set_exact cidrs ip : Forall cidr_ok cidrs -> ip_ok ip ->
  let s := IPSet_from_cidrs cidrs in
  IPSet_contains s ip = existsb (cidr_covers ip) cidrs /\
  ranges_ok (ipv4_ranges s) /\ ranges_ok (ipv6_ranges s) /\
  finest (prefixes 4 cidrs) (max4 s) /\ finest (prefixes 16 cidrs) (max6 s) /\
  is_empty_v4 s = bool_decide (family 4 cidrs = []) /\ is_empty_v6 s = bool_decide (family 16 cidrs = []).
Proof.
  intros Hc Hip s. destruct (from_cidrs_loop cidrs Hc) as [[H4 M4] [H6 M6]].
  split_and!; [by apply set_contains| | |exact M4|exact M6| |].
  - cbn. rewrite H4. by apply merge_sorted_ranges_spec, blocks_nonempty.
  - cbn. rewrite H6. by apply merge_sorted_ranges_spec, blocks_nonempty.
  - by apply (finest_none 4).
  - by apply (finest_none 16).
Qed.

(** C14: the matcher built from routing rules.  The build fails exactly on a list without any
    block or GeoIP rule.  Otherwise an address matches when a plain block covers it or
    when there are reversed blocks of its family and none of them covers it; asking for
    any match in a list, or for the matching part of a list, gives exactly the answers for
    the single addresses, whatever the matcher remembers of earlier addresses of the same
    /24 or /64; asking whether a list matches as a whole asks each group of rules for all
    of it, so a list can fail although every address of it matches. *)
Theorem ip_rules_exact rules ips : rules_ok rules -> Forall ip_ok ips ->
  match build_optimized_ip_matcher rules with
  | Err _ => parts rules = []
  | Ok m => parts rules <> [] /\
      Forall (fun ip => match_ip m ip = rule_match rules ip) ips /\
      any_match m ips = existsb (rule_match rules) ips /\
      filter_ips m ips = List.filter (rule_match rules) ips /\
      matches m ips = negb (bool_decide (ips = [])) && forallb (fun g => forallb (fun ip => part_match ip g) ips) (parts rules)
  end.
Proof.
  intros Hr Hips. pose proof (build_parts rules) as Hb. pose proof (parts_ok rules Hr) as Hp.
  destruct (build_optimized_ip_matcher rules) as [m|[]] eqn:Em; [|done].
  assert (Hone : forall ip, existsb (part_match ip) (parts rules) = rule_match rules ip) by apply parts_match.
  assert (Hm : Forall (fun ip => match_ip m ip = rule_match rules ip) ips).
  { eapply Forall_impl; [exact Hips|]. intros ip Hip. by apply built_match. }
  destruct Hb as [(g & E & ->)|[Hne ->]].
  - rewrite E in *. rewrite Forall_singleton in Hp. assert (Hg : forall ip, part_match ip g = rule_match rules ip).
    { intros ip. rewrite <- Hone. cbn. by rewrite orb_false_r. }
    split_and!; [done| | | |].
    + done.
    + cbn [any_match]. rewrite batch_any by done. apply existsb_ext', Forall_forall. intros. apply Hg.
    + cbn [filter_ips]. rewrite batch_filter by done. apply filter_ext', Forall_forall. intros. apply Hg.
    + cbn [matches]. rewrite batch_all by done. cbn. by rewrite andb_true_r.
  - split_and!; [done|done| |by apply filter_ext'|].
    + cbn. rewrite multi_any by done. apply existsb_ext', Forall_forall. intros. apply Hone.
    + cbn. destruct (decide (ips = [])) as [->|Hni].
      * destruct (parts rules); done.
      * rewrite multi_all, bool_decide_false by done. done.
Qed.

(** The list of one address that matches does not match as a list. *)
Example ip_matches_not_each :
  let rules := [mkIpRule (Some (Custom (mkCidrRule (Some (mkCidr [10; 0; 0; 0] 8)) false)));
                mkIpRule (Some (Custom (mkCidrRule (Some (mkCidr [192; 168; 0; 0] 16)) true)))] in
  match build_optimized_ip_matcher rules with
  | Ok m => match_ip m (V4 [1; 1; 1; 1]) = true /\ matches m [V4 [1; 1; 1; 1]] = false
  | Err _ => False
  end.
Proof. by vm_compute. Qed.

(** ** The registry *)

Inductive registry_step : IpRegistry -> IpRegistry -> Prop :=
| RsAdd rules g : registry_step g (IpRegistry_add_rules rules g).2
| RsReload rules g : registry_step g (IpRegistry_reload_with rules g).2
| RsSet i r d g : ig_entries g !! i = Some d ->
    registry_step g (mkIpRegistry (<[ i := DynamicIPMatcher_set_reverse r d ]> (ig_entries g)))
| RsToggle i d g : ig_entries g !! i = Some d ->
    registry_step g (mkIpRegistry (<[ i := DynamicIPMatcher_toggle_reverse d ]> (ig_entries g))).

Definition ip_registry_reach : IpRegistry -> Prop := rtc registry_step IpRegistry_new.

(** The flags of an entry as they act on a freshly built matcher: set if they were ever
    set, else toggled if they were toggled an odd number of times. *)
Definition flagged (d : DynamicIPMatcher) (m : IPMatcher) : IPMatcher :=
  if di_reverse_set d then set_reverse (di_reverse d) m else if di_reverse d then toggle_reverse m else m.

(** Some rules, built with the entry's flags. *)
Definition entry_ok (d : DynamicIPMatcher) : Prop :=
  exists rules m, build_optimized_ip_matcher rules = Ok m /\ di_state d = flagged d m.

Lemma toggle_toggle m : toggle_reverse (toggle_reverse m) = m.
Proof. destruct m as [[s r]| |]; cbn; [|done..]. unfold toggle_reverse, set_reverse, Heuristic_set_reverse. cbn. by rewrite negb_involutive. Qed.

Lemma toggle_set r m : toggle_reverse (set_reverse r m) = set_reverse (negb r) m.
Proof. by destruct m. Qed.

Lemma set_set r r' m : set_reverse r (set_reverse r' m) = set_reverse r m.
Proof. by destruct m. Qed.

Lemma set_toggle r m : set_reverse r (toggle_reverse m) = set_reverse r m.
Proof. by destruct m. Qed.

Lemma entry_set_reverse r d : entry_ok d -> entry_ok (DynamicIPMatcher_set_reverse r d).
Proof.
  intros (rules & m & Hb & Hs). exists rules, m. split; [done|]. cbn. rewrite Hs. unfold flagged. cbn.
  destruct (di_reverse_set d), (di_reverse d); by rewrite ?set_set, ?set_toggle.
Qed.

Lemma entry_toggle d : entry_ok d -> entry_ok (DynamicIPMatcher_toggle_reverse d).
Proof.
  intros (rules & m & Hb & Hs). exists rules, m. split; [done|]. cbn. rewrite Hs. unfold flagged. cbn.
  destruct (di_reverse_set d), (di_reverse d); cbn; by rewrite ?toggle_set, ?toggle_toggle.
Qed.

Lemma replace_loop_spec rules finished todo :
  replace_loop rules finished todo =
    match build_optimized_ip_matcher rules with
    | Ok m => (Ok tt, mkIpRegistry (finished ++ map (DynamicIPMatcher_replace m) todo))
    | Err e => (match todo with [] => Ok tt | _ => Err e end, mkIpRegistry (finished ++ todo))
    end.
Proof.
  revert finished. induction todo as [|d todo IH]; intros finished; cbn [replace_loop map].
  - rewrite app_nil_r. by destruct (build_optimized_ip_matcher rules).
  - destruct (build_optimized_ip_matcher rules) as [m|e] eqn:E; [|done]. rewrite IH. by rewrite <- app_assoc.
Qed.

Lemma replaced_ok rules m d : build_optimized_ip_matcher rules = Ok m -> entry_ok (DynamicIPMatcher_replace m d).
Proof. intros Hb. exists rules, m. split; [done|]. by destruct d as [s [] []]. Qed.

Lemma ip_registry_reach_ok g : ip_registry_reach g -> Forall entry_ok (ig_entries g).
Proof.
  apply (rtc_ind_r (fun g => Forall entry_ok (ig_entries g)) IpRegistry_new); [constructor|]. intros g' g'' _ Hstep IH. destruct Hstep as [rules g'|rules g'|i r d g' Hd|i d g' Hd].
  - unfold IpRegistry_add_rules. destruct (build_optimized_ip_matcher rules) as [m|e] eqn:E; [|done]. cbn.
    apply Forall_app. split; [done|]. rewrite Forall_singleton. by exists rules, m.
  - unfold IpRegistry_reload_with. rewrite replace_loop_spec. destruct (build_optimized_ip_matcher rules) as [m|e] eqn:E; cbn; [|done].
    apply Forall_map, Forall_forall. intros d _. by apply (replaced_ok rules).
  - apply Forall_insert; [done|]. apply entry_set_reverse. by apply (Forall_lookup_1 _ _ _ _ IH Hd).
  - apply Forall_insert; [done|]. apply entry_toggle. by apply (Forall_lookup_1 _ _ _ _ IH Hd).
Qed.

(** The registry of IP matchers, over any sequence of additions, reloads and changes of
    the reverse flags: every entry is the matcher some rules build with the entry's own
    flags applied to it, so a reload loses no reversal; a reload replaces all entries by
    the matcher of the new rules, each under its own flags, or, when the rules do not
    build, fails and changes nothing.  On a matcher of several groups the flags have no
    effect at all: they are recorded and ignored. *)
Theorem ip_registry_keeps_reverse g rules : ip_registry_reach g ->
  Forall entry_ok (ig_entries g) /\
  match build_optimized_ip_matcher rules with
  | Ok m => (IpRegistry_reload_with rules g).1 = Ok tt /\
      Forall2 (fun d d' => di_reverse d' = di_reverse d /\ di_reverse_set d' = di_reverse_set d /\ di_state d' = flagged d m)
        (ig_entries g) (ig_entries (IpRegistry_reload_with rules g).2) /\
      ((1 < length (parts rules))%nat -> forall d, flagged d m = m)
  | Err e => IpRegistry_reload_with rules g = (match ig_entries g with [] => Ok tt | _ => Err e end, g)
  end.
Proof.
  intros Hg. split; [by apply ip_registry_reach_ok|]. unfold IpRegistry_reload_with. rewrite replace_loop_spec.
  pose proof (build_parts rules) as Hb. destruct (build_optimized_ip_matcher rules) as [m|e]; [|by destruct g].
  cbn [app fst snd ig_entries]. split_and!; [done| |].
  - induction (ig_entries g) as [|d ds IH]; cbn; constructor; done.
  - intros Hn d. destruct Hb as [(p & E & _)|[_ ->]]; [rewrite E in Hn; cbn in Hn; lia|].
    unfold flagged. by destruct (di_reverse_set d), (di_reverse d).
Qed.
