(* ===== verification/Balancing.v ===== *)
(** [xray-app-router/src/{balancing,strategy_random,strategy_leastping,strategy_leastload,
    weight,error}.rs] and [build_balancer] of [router.rs]: the balancers and their
    strategies.

    What a strategy asks at run time is the record [Env]: the outbound manager
    ([select_outbounds]), the observatory ([get_observation]) and the random index of
    [choose].  [f64] is the standard library's [spec_float] at 53 bits, [f32] the same
    at 24 bits.  The crate [regex] is [RegexOps]; the Protobuf messages are records of
    the fields the code reads, and [decode] is the crate [prost]. *)
From Stdlib Require Import SpecFloat String Ascii.
From stdpp Require Import base tactics option list numbers gmap.
From S2P Require Import Prelude Bytes NetTypes StrMatch DomainMatch.
Open Scope Z_scope.

(** [str::to_ascii_lowercase] *)
Definition to_ascii_lowercase (s : bytes) : bytes := map (fun b => if (65 <=? b) && (b <=? 90) then b + 32 else b) s.

(** [Ord] of strings. *)
Fixpoint bytes_cmp (a b : bytes) : comparison :=
  match a, b with
  | [], [] => Eq
  | [], _ => Lt
  | _, [] => Gt
  | x :: a, y :: b => match x ?= y with Eq => bytes_cmp a b | c => c end
  end.

Inductive RouterError : Type :=
| EmptyRule
| BalancerNotFound (tag : bytes)
| DuplicateBalancerTag
| DuplicateRuleTag (tag : bytes)
| EmptyTagName
| UnknownBalancerType
| InvalidLeastLoadConfig
| AddRuleConfigTypeError
| NoClue
| EmptyBalancerResult
| NotHandlerSelector
| UnsupportedPrincipleTarget
| TagNotFound
| GeodataBuild
| WebhookError
| ObservationUnavailable
| Other.

(** ** What is observed *)

Record HealthPing : Type := mkHealthPing { hp_all : Z; hp_fail : Z; hp_deviation : Z; hp_average : Z }.
Record OutboundStatus : Type := mkOutboundStatus {
  os_alive : bool;
  os_delay : Z;
  os_outbound_tag : bytes;
  os_health_ping : option HealthPing
}.

Record Env : Type := mkEnv {
  select_outbounds : list bytes -> result RouterError (list bytes);
  get_observation : result RouterError (list OutboundStatus);
  roll : nat -> nat
}.

(** ** [RoundRobinStrategy], [RandomStrategy], [LeastPingStrategy] *)

Record RoundRobinStrategy : Type := mkRoundRobin { rr_selectors : list bytes; rr_observer : bool; rr_index : Z }.

Definition RoundRobinStrategy_new (selectors : list bytes) (observer : bool) : RoundRobinStrategy := mkRoundRobin selectors observer 0.

Definition alive_outbounds (env : Env) (s : RoundRobinStrategy) : result RouterError (list bytes) :=
  selected ← select_outbounds env (rr_selectors s);
  if negb (rr_observer s) then Ok selected
  else
    match get_observation env with
    | Err _ => Ok selected
    | Ok status =>
        Ok (List.filter (fun t => default true (os_alive <$> List.find (fun s => bool_decide (os_outbound_tag s = t)) status)) selected)
    end.

Definition RoundRobin_pick_outbound (env : Env) (s : RoundRobinStrategy) : result RouterError bytes * RoundRobinStrategy :=
  match alive_outbounds env s with
  | Err e => (Err e, s)
  | Ok [] => (Err EmptyBalancerResult, s)
  | Ok outs =>
      let idx := rr_index s in
      (Ok (outs !!! Z.to_nat (idx mod zlen outs)), mkRoundRobin (rr_selectors s) (rr_observer s) (idx +32 1))
  end.

Definition Random_pick_outbound (env : Env) (selectors : list bytes) : result RouterError bytes :=
  match select_outbounds env selectors with
  | Err e => Err e
  | Ok [] => Err EmptyBalancerResult
  | Ok outs => Ok (outs !!! roll env (length outs))
  end.

Definition effective_rtt (s : OutboundStatus) : Z :=
  match os_health_ping s with
  | Some h => if 0 <? hp_average h then hp_average h else os_delay s
  | None => os_delay s
  end.

Definition leastping_eligible (candidates : list bytes) (s : OutboundStatus) : bool :=
  (bool_decide (candidates = []) || existsb (fun c => bool_decide (c = os_outbound_tag s)) candidates)
  && negb (negb (os_alive s) || (os_delay s <=? 0)).

(** One turn of the loop over the observations. *)
Definition leastping_turn (candidates : list bytes) (best : bytes * option Z) (s : OutboundStatus) : bytes * option Z :=
  if leastping_eligible candidates s then
    let rtt := effective_rtt s in
    match best.2 with
    | None => (os_outbound_tag s, Some rtt)
    | Some b => if rtt <? b then (os_outbound_tag s, Some rtt) else best
    end
  else best.

Definition LeastPing_pick_outbound (env : Env) (candidates : list bytes) : result RouterError bytes :=
  status ← get_observation env;
  let best := fold_left (leastping_turn candidates) status ([], None) in
  if bool_decide (best.1 = []) then Err EmptyBalancerResult else Ok best.1.

(** ** Floats *)

Definition f64_of_Z (z : Z) : spec_float := binary_normalize 53 1024 z 0 false.
Definition f64_of_f32 (x : spec_float) : spec_float :=
  match x with
  | S754_finite s m e => binary_normalize 53 1024 (cond_Zopp s (Zpos m)) e s
  | _ => x
  end.
Definition f64_zero : spec_float := S754_zero false.
Definition f64_one : spec_float := f64_of_Z 1.
(** [f64::max(x, 0.0)]: a NaN yields to the other operand. *)
Definition f64_max0 (x : spec_float) : spec_float :=
  match x with
  | S754_nan => f64_zero
  | _ => if SFltb x f64_zero then f64_zero else x
  end.

(** ** [WeightManager] *)

Section weights.
Context `{RegexOps}.

Record StrategyWeight : Type := mkStrategyWeight { sw_regexp : bool; sw_match : bytes; sw_value : spec_float }.

Inductive WeightSetting : Type :=
| WLiteral (tag : bytes) (value : spec_float)
| WRegex (regex : Regex) (value : spec_float).

Record WeightManager : Type := mkWeightManager {
  wm_settings : list WeightSetting;
  wm_cache : gmap bytes spec_float;
  wm_default_weight : spec_float
}.

Fixpoint weight_settings (weights : list StrategyWeight) (settings : list WeightSetting) : result Regex_Error (list WeightSetting) :=
  match weights with
  | [] => Ok settings
  | w :: weights =>
      let value := f64_of_f32 (sw_value w) in
      if sw_regexp w then
        regex ← Regex_new (sw_match w);
        weight_settings weights (settings ++ [WRegex regex value])
      else weight_settings weights (settings ++ [WLiteral (sw_match w) value])
  end.

Definition WeightManager_new (weights : list StrategyWeight) (default_weight : spec_float) : result Regex_Error WeightManager :=
  settings ← weight_settings weights [];
  Ok (mkWeightManager settings ∅ default_weight).

Fixpoint find_value (settings : list WeightSetting) (tag : bytes) (default_weight : spec_float) : spec_float :=
  match settings with
  | [] => default_weight
  | WLiteral t v :: settings => if bool_decide (t = tag) then v else find_value settings tag default_weight
  | WRegex r v :: settings => if is_match r tag then v else find_value settings tag default_weight
  end.

Definition WeightManager_get (tag : bytes) (wm : WeightManager) : spec_float * WeightManager :=
  match wm_cache wm !! tag with
  | Some v => (v, wm)
  | None =>
      let v := find_value (wm_settings wm) tag (wm_default_weight wm) in
      (v, mkWeightManager (wm_settings wm) (<[ tag := v ]> (wm_cache wm)) (wm_default_weight wm))
  end.

(** ** [LeastLoadStrategy], as the router builds it (mode [Availability]) *)

Record StrategyLeastLoadConfig : Type := mkLeastLoadConfig {
  lc_costs : list StrategyWeight;
  lc_baselines : list Z;
  lc_expected : Z;
  lc_max_rtt : Z;
  lc_tolerance : spec_float
}.

Definition LeastLoadConfig_default : StrategyLeastLoadConfig := mkLeastLoadConfig [] [] 0 0 f64_zero.

Record Node : Type := mkNode {
  nd_tag : bytes;
  nd_count_all : Z;
  nd_count_fail : Z;
  nd_rtt_average : Z;
  nd_rtt_deviation_cost : spec_float
}.

Record LeastLoadStrategy : Type := mkLeastLoad {
  ll_selectors : list bytes;
  ll_baselines : list Z;
  ll_expected : Z;
  ll_max_rtt : Z;
  ll_tolerance : spec_float;
  ll_costs : option WeightManager
}.

Definition LeastLoadStrategy_new (config : StrategyLeastLoadConfig) (selectors : list bytes) : result Regex_Error LeastLoadStrategy :=
  costs ← match lc_costs config with
          | [] => Ok None
          | ws => wm ← WeightManager_new ws f64_one; Ok (Some wm)
          end;
  Ok (mkLeastLoad selectors (sort_by Z.leb (lc_baselines config)) (lc_expected config) (lc_max_rtt config) (lc_tolerance config) costs).

(** [sort_by] of [leastload_sort]: the comparison and the order it gives. *)
Definition then_with (c d : comparison) : comparison := match c with Eq => d | _ => c end.
Definition node_cmp (a b : Node) : comparison :=
  then_with (default Eq (SFcompare (nd_rtt_deviation_cost a) (nd_rtt_deviation_cost b)))
    (then_with (nd_rtt_average a ?= nd_rtt_average b)
      (then_with (nd_count_fail a ?= nd_count_fail b)
        (then_with (nd_count_all b ?= nd_count_all a) (bytes_cmp (nd_tag a) (nd_tag b))))).
Definition node_le (a b : Node) : bool := match node_cmp a b with Gt => false | _ => true end.
Definition leastload_sort (nodes : list Node) : list Node := sort_by node_le nodes.

Definition rtt_deviation_cost (costs : option WeightManager) (tag : bytes) (value : Z) : spec_float * option WeightManager :=
  let '(w, costs) :=
    match costs with
    | Some wm => let '(w, wm) := WeightManager_get tag wm in (w, Some wm)
    | None => (f64_one, None)
    end in
  (SFmul 53 1024 (f64_of_Z value) (f64_max0 (SFsqrt 53 1024 w)), costs).

Definition should_select_node (s : LeastLoadStrategy) (v : OutboundStatus) (candidates : list bytes) : bool :=
  if negb (os_alive v) then false
  else if negb (ll_max_rtt s =? 0) && (ll_max_rtt s <=? os_delay v) then false
  else if negb (existsb (fun t => bool_decide (t = os_outbound_tag v)) candidates) then false
  else
    match os_health_ping v with
    | Some h =>
        negb ((0 <? hp_all h) && SFltb f64_zero (ll_tolerance s)
              && SFltb (f64_of_f32 (ll_tolerance s)) (SFdiv 53 1024 (f64_of_Z (hp_fail h)) (f64_of_Z (hp_all h))))
    | None => true
    end.

(** The loop of [get_nodes]; the weight cache is threaded through it. *)
Fixpoint collect_nodes (s : LeastLoadStrategy) (selected : list bytes) (status : list OutboundStatus) (costs : option WeightManager)
    : list Node * option WeightManager :=
  match status with
  | [] => ([], costs)
  | v :: status =>
      if should_select_node s v selected then
        let '(average, deviation, count_all, count_fail) :=
          match os_health_ping v with
          | Some h => (hp_average h, hp_deviation h, hp_all h, hp_fail h)
          | None => (os_delay v, os_delay v, 1, 1)
          end in
        let cost_value := match os_health_ping v with Some _ => deviation | None => os_delay v end in
        let '(cost, costs) := rtt_deviation_cost costs (os_outbound_tag v) cost_value in
        let '(nodes, costs) := collect_nodes s selected status costs in
        (mkNode (os_outbound_tag v) count_all count_fail average cost :: nodes, costs)
      else collect_nodes s selected status costs
  end.

Definition get_nodes (env : Env) (s : LeastLoadStrategy) : result RouterError (list Node) * LeastLoadStrategy :=
  match get_observation env with
  | Err e => (Err e, s)
  | Ok status =>
      match select_outbounds env (ll_selectors s) with
      | Err e => (Err e, s)
      | Ok selected =>
          let '(nodes, costs) := collect_nodes s selected status (ll_costs s) in
          (Ok (leastload_sort nodes), mkLeastLoad (ll_selectors s) (ll_baselines s) (ll_expected s) (ll_max_rtt s) (ll_tolerance s) costs)
      end
  end.

(** The inner loop, from node number [count] on, and the walk over the baselines. *)
Fixpoint count_under (baseline : spec_float) (nodes : list Node) (count : nat) : nat :=
  match nodes with
  | [] => count
  | n :: nodes => if SFleb baseline (nd_rtt_deviation_cost n) then count else count_under baseline nodes (S count)
  end.

Fixpoint walk_baselines (nodes : list Node) (expected : nat) (baselines : list Z) (count : nat) : nat :=
  match baselines with
  | [] => count
  | b :: baselines =>
      let count := count_under (f64_of_Z b) (drop count nodes) count in
      if (expected <=? count)%nat then count else walk_baselines nodes expected baselines count
  end.

Definition select_least_load (s : LeastLoadStrategy) (nodes : list Node) : list Node :=
  match nodes with
  | [] => []
  | _ =>
      let available := length nodes in
      if (0 <? ll_expected s) && (available <? Z.to_nat (ll_expected s))%nat then nodes
      else
        let expected := if 0 <? ll_expected s then Z.to_nat (ll_expected s) else 1%nat in
        match ll_baselines s with
        | [] => take (Nat.min expected available) nodes
        | bs =>
            let count := walk_baselines nodes expected bs 0 in
            let count := if (0 <? ll_expected s) && (count <? expected)%nat then expected else count in
            take (Nat.min count available) nodes
        end
  end.

Definition LeastLoad_pick_outbound (env : Env) (s : LeastLoadStrategy) : result RouterError bytes * LeastLoadStrategy :=
  match get_nodes env s with
  | (Err e, s) => (Err e, s)
  | (Ok nodes, s) =>
      match select_least_load s nodes with
      | [] => (Err EmptyBalancerResult, s)
      | selected => (nth (roll env (length selected)) (map (fun n => Ok (nd_tag n)) selected) (Err EmptyBalancerResult), s)
      end
  end.

(** ** [dyn BalancingStrategy] and [Balancer] *)

Inductive BalancingStrategy : Type :=
| SRandom (selectors : list bytes)
| SRoundRobin (s : RoundRobinStrategy)
| SLeastPing (candidates : list bytes)
| SLeastLoad (s : LeastLoadStrategy)
| SStub.

(** [pick_outbound_with_key]: none of these strategies uses the key. *)
Definition strategy_pick (env : Env) (key : Z) (s : BalancingStrategy) : result RouterError bytes * BalancingStrategy :=
  match s with
  | SRandom selectors => (Random_pick_outbound env selectors, s)
  | SRoundRobin rr => let '(r, rr) := RoundRobin_pick_outbound env rr in (r, SRoundRobin rr)
  | SLeastPing candidates => (LeastPing_pick_outbound env candidates, s)
  | SLeastLoad ll => let '(r, ll) := LeastLoad_pick_outbound env ll in (r, SLeastLoad ll)
  | SStub => (Err EmptyBalancerResult, s)
  end.

Record Balancer : Type := mkBalancer {
  bl_selectors : list bytes;
  bl_strategy : BalancingStrategy;
  bl_fallback_tag : bytes;
  bl_override_target : bytes
}.

Definition Balancer_new (selectors : list bytes) (strategy : BalancingStrategy) (fallback_tag : bytes) : Balancer :=
  mkBalancer selectors strategy fallback_tag [].

Definition pick_outbound_with_key (env : Env) (key : Z) (b : Balancer) : result RouterError bytes * Balancer :=
  if negb (bool_decide (bl_override_target b = [])) then (Ok (bl_override_target b), b)
  else
    let '(r, strategy) := strategy_pick env key (bl_strategy b) in
    let b := mkBalancer (bl_selectors b) strategy (bl_fallback_tag b) (bl_override_target b) in
    let fall e := if bool_decide (bl_fallback_tag b = []) then Err e else Ok (bl_fallback_tag b) in
    (match r with
     | Ok tag => if negb (bool_decide (tag = [])) then Ok tag else fall EmptyBalancerResult
     | Err e => fall e
     end, b).

Definition pick_outbound (env : Env) (b : Balancer) : result RouterError bytes * Balancer := pick_outbound_with_key env 0 b.

Definition set_override_target (target : bytes) (b : Balancer) : Balancer :=
  mkBalancer (bl_selectors b) (bl_strategy b) (bl_fallback_tag b) target.
Definition clear_override (b : Balancer) : Balancer := set_override_target [] b.

(** ** [build_balancer] *)

Record BalancingRule : Type := mkBalancingRule {
  br_tag : bytes;
  br_outbound_selector : list bytes;
  br_strategy : bytes;
  br_strategy_settings : option bytes;
  br_fallback_tag : bytes
}.

Definition build_balancer (decode : bytes -> option StrategyLeastLoadConfig) (br : BalancingRule) (observer : bool) : result RouterError Balancer :=
  let sel := br_outbound_selector br in
  let name := to_ascii_lowercase (br_strategy br) in
  strategy ←
    (if bool_decide (name = text "random") then Ok (SRandom sel)
     else if bool_decide (name = text "leastping") then Ok (if observer then SLeastPing sel else SStub)
     else if bool_decide (name = text "leastload") then
       if observer then
         let cfg := default LeastLoadConfig_default (br_strategy_settings br ≫= decode) in
         match LeastLoadStrategy_new cfg sel with Ok s => Ok (SLeastLoad s) | Err _ => Err Other end
       else Ok SStub
     else if bool_decide (name = []) then Ok (SRandom sel)
     else if bool_decide (name = text "roundrobin") then Ok (SRoundRobin (RoundRobinStrategy_new sel observer))
     else Err UnknownBalancerType);
  Ok (Balancer_new sel strategy (br_fallback_tag br)).
End weights.

(** ** [SimpleSelector], [NotImplementedSelector], [MemoryObservationProvider] *)

Definition SimpleSelector_select_outbounds (tags : gset bytes) (selectors : list bytes) : result RouterError (list bytes) :=
  Ok (List.filter (fun s => bool_decide (s ∈ tags)) selectors).
Definition SimpleSelector_add_tag (tag : bytes) (tags : gset bytes) : gset bytes := {[ tag ]} ∪ tags.
Definition SimpleSelector_remove_tag (tag : bytes) (tags : gset bytes) : gset bytes := tags ∖ {[ tag ]}.
Definition NotImplementedSelector_select_outbounds (selectors : list bytes) : result RouterError (list bytes) := Err NotHandlerSelector.
Definition MemoryObservationProvider_update (r : list OutboundStatus) (p : option (list OutboundStatus)) : option (list OutboundStatus) := Some r.
Definition MemoryObservationProvider_get_observation (p : option (list OutboundStatus)) : result RouterError (list OutboundStatus) :=
  ok_or Other p.
