(* ===== verification/BalancingProps.v ===== *)
(** The balancers of [Balancing]: what a pick can return, and that a round robin is fair. *)
From Stdlib Require Import SpecFloat.
From stdpp Require Import base tactics option list list_numbers numbers gmap.
From S2P Require Import Prelude Bytes NetTypes StrMatch DomainMatch DomainMatchProps Balancing.
Open Scope Z_scope.

Section props.
Context `{RegexOps} (env : Env).

(** The random index of [choose] is in range. *)
Definition roll_ok : Prop := forall n, (0 < n)%nat -> (roll env n < n)%nat.

(** ** The outbounds a strategy may return *)

(** Least ping: an eligible observation, no eligible one before it as fast, none after it
    faster. *)
Definition fastest (candidates : list bytes) (status : list OutboundStatus) (tag : bytes) : Prop :=
  exists before s after, status = before ++ s :: after /\ os_outbound_tag s = tag /\ leastping_eligible candidates s = true /\
    Forall (fun x => leastping_eligible candidates x = true -> effective_rtt s < effective_rtt x) before /\
    Forall (fun x => leastping_eligible candidates x = true -> effective_rtt s <= effective_rtt x) after.

(** Least load: an observation that passes the filters for one of the selected outbounds. *)
Definition loadable (s : LeastLoadStrategy) (selected : list bytes) (status : list OutboundStatus) (tag : bytes) : Prop :=
  exists v, v ∈ status /\ os_outbound_tag v = tag /\ should_select_node s v selected = true.

Definition may_pick (s : BalancingStrategy) (tag : bytes) : Prop :=
  match s with
  | SRandom selectors => exists outs, select_outbounds env selectors = Ok outs /\ tag ∈ outs
  | SRoundRobin rr => exists outs, alive_outbounds env rr = Ok outs /\ tag ∈ outs
  | SLeastPing candidates => exists status, get_observation env = Ok status /\ fastest candidates status tag
  | SLeastLoad ll => exists status selected, get_observation env = Ok status /\ select_outbounds env (ll_selectors ll) = Ok selected /\
      loadable ll selected status tag
  | SStub => False
  end.

Lemma lookup_total_mod {A} `{Inhabited A} (l : list A) i : l <> [] -> l !!! Z.to_nat (i mod zlen l) ∈ l.
Proof using.
  intros Hl. assert (Hp : 0 < zlen l) by (destruct l; [done|zlia]). pose proof (Z.mod_pos_bound i (zlen l) Hp).
  destruct (lookup_lt_is_Some_2 l (Z.to_nat (i mod zlen l))) as [x Hx]; [unfold zlen in *; lia|].
  rewrite (list_lookup_total_correct _ _ _ Hx). by eapply list_elem_of_lookup_2.
Qed.

(** The loop of least ping keeps the first fastest observation. *)
Lemma leastping_fold candidates done todo best :
  (match best.2 with
   | Some b => exists before s after, done = before ++ s :: after /\ best.1 = os_outbound_tag s /\ b = effective_rtt s /\
       leastping_eligible candidates s = true /\
       Forall (fun x => leastping_eligible candidates x = true -> effective_rtt s < effective_rtt x) before /\
       Forall (fun x => leastping_eligible candidates x = true -> effective_rtt s <= effective_rtt x) after
   | None => best.1 = [] /\ Forall (fun x => leastping_eligible candidates x = false) done
   end) ->
  let best' := fold_left (leastping_turn candidates) todo best in
  match best'.2 with
  | Some _ => fastest candidates (done ++ todo) best'.1
  | None => best'.1 = [] /\ Forall (fun x => leastping_eligible candidates x = false) (done ++ todo)
  end.
Proof using.
  revert done best. induction todo as [|v todo IH]; intros seen best Hb; cbn [fold_left].
  - rewrite app_nil_r. cbn zeta. destruct best.2; [|done]. destruct Hb as (before & s & after & -> & Ht & _ & He & H1 & H2). by exists before, s, after.
  - change (v :: todo) with ([v] ++ todo). rewrite app_assoc. apply IH. unfold leastping_turn.
    destruct (leastping_eligible candidates v) eqn:Ev.
    + destruct best as [t [b|]]; cbn [fst snd] in Hb |- *.
      * destruct Hb as (before & s & after & -> & Ht & -> & He & H1 & H2). destruct (Z.ltb_spec (effective_rtt v) (effective_rtt s)) as [Hlt|Hge]; cbn.
        -- exists (before ++ s :: after), v, []. split_and!; [done|done|done|done| |constructor].
           apply Forall_app. split; [|constructor]; [..|done|].
           ++ eapply Forall_impl; [exact H1|]. intros x Hx Hex. specialize (Hx Hex). lia.
           ++ eapply Forall_impl; [exact H2|]. intros x Hx Hex. specialize (Hx Hex). lia.
        -- exists before, s, (after ++ [v]). split_and!; [by rewrite <- app_assoc|done|done|done|done|].
           apply Forall_app. split; [done|]. by constructor.
      * destruct Hb as [_ Hn]. exists seen, v, []. split_and!; [done|done|done|done| |constructor].
        eapply Forall_impl; [exact Hn|]. cbn. congruence.
    + destruct best as [t [b|]]; cbn [fst snd] in Hb |- *.
      * destruct Hb as (before & s & after & -> & Ht & -> & He & H1 & H2). exists before, s, (after ++ [v]).
        split_and!; [by rewrite <- app_assoc|done|done|done|done|]. apply Forall_app. split; [done|]. constructor; [congruence|constructor].
      * destruct Hb as [Ht Hn]. split; [done|]. apply Forall_app. split; [done|]. by constructor.
Qed.

Lemma leastping_picks candidates tag : LeastPing_pick_outbound env candidates = Ok tag -> may_pick (SLeastPing candidates) tag.
Proof using.
  unfold LeastPing_pick_outbound. cbn. destruct (get_observation env) as [status|e] eqn:E; cbn; [|done].
  pose proof (leastping_fold candidates [] status ([], None)) as Hf. cbn in Hf. specialize (Hf (conj eq_refl (Forall_nil_2 _))).
  destruct (fold_left (leastping_turn candidates) status ([], None)) as [t [b|]]; cbn in *.
  - destruct (bool_decide_reflect (t = [])); [done|]. intros [= <-]. by exists status.
  - destruct Hf as [-> _]. done.
Qed.

Lemma collect_nodes_from s selected status costs n : n ∈ (collect_nodes s selected status costs).1 -> loadable s selected status (nd_tag n).
Proof using.
  revert costs. induction status as [|v status IH]; intros costs Hn; cbn [collect_nodes fst] in Hn; [by apply not_elem_of_nil in Hn|].
  assert (Hmore : loadable s selected status (nd_tag n) -> loadable s selected (v :: status) (nd_tag n)).
  { intros (w & Hw & Ht & Hs). exists w. split_and!; [by right|done|done]. }
  destruct (should_select_node s v selected) eqn:Es; [|by eauto].
  destruct (os_health_ping v) as [h|]; cbn beta iota in Hn;
    (destruct (rtt_deviation_cost costs (os_outbound_tag v) _) as [cost costs'];
     specialize (IH costs'); destruct (collect_nodes s selected status costs') as [nodes costs'']; cbn [fst] in Hn, IH;
     apply elem_of_cons in Hn as [->|Hn]; [exists v; split_and!; [by left|done|done]|by eauto]).
Qed.

Lemma elem_of_take_list {A} n (l : list A) x : x ∈ take n l -> x ∈ l.
Proof using. intros Hx. rewrite <- (take_drop n l). apply elem_of_app. by left. Qed.

Lemma select_least_load_prefix s nodes : exists n, select_least_load s nodes = take n nodes.
Proof using.
  unfold select_least_load. destruct nodes as [|x nodes]; [by exists O|]. destruct (_ && _).
  - exists (length (x :: nodes)). by rewrite take_ge.
  - destruct (ll_baselines s); eauto.
Qed.

Lemma leastload_picks ll tag : roll_ok -> (LeastLoad_pick_outbound env ll).1 = Ok tag -> may_pick (SLeastLoad ll) tag.
Proof using.
  intros Hroll. unfold LeastLoad_pick_outbound, get_nodes. destruct (get_observation env) as [status|e] eqn:Eo; [|done].
  destruct (select_outbounds env (ll_selectors ll)) as [selected|e] eqn:Es; [|done].
  pose proof (collect_nodes_from ll selected status (ll_costs ll)) as Hc.
  destruct (collect_nodes ll selected status (ll_costs ll)) as [nodes costs]. cbn [fst] in Hc.
  set (ll' := mkLeastLoad _ _ _ _ _ _). destruct (select_least_load_prefix ll' (leastload_sort nodes)) as [k Hk]. rewrite Hk.
  destruct (take k (leastload_sort nodes)) as [|n ns] eqn:Et; [done|]. cbn [fst]. intros Hn.
  specialize (Hroll (length (n :: ns)) ltac:(cbn; lia)).
  destruct (lookup_lt_is_Some_2 (n :: ns) _ Hroll) as [m Hm]. rewrite (nth_lookup_Some _ _ _ (Ok (nd_tag m))) in Hn by (change (map ?f ?l) with (f <$> l); by rewrite list_lookup_fmap, Hm).
  injection Hn as <-. exists status, selected. split_and!; [done|done|]. apply Hc. apply list_elem_of_lookup_2 in Hm.
  rewrite <- Et in Hm. apply elem_of_take_list in Hm. unfold leastload_sort in Hm. by rewrite sort_by_perm in Hm.
Qed.

Lemma strategy_picks key s tag : roll_ok -> (strategy_pick env key s).1 = Ok tag -> may_pick s tag.
Proof using.
  intros Hroll. destruct s as [selectors|rr|candidates|ll|]; cbn [strategy_pick].
  - cbn. unfold Random_pick_outbound. destruct (select_outbounds env selectors) as [[|o outs]|e] eqn:E; [done| |done].
    intros [= <-]. exists (o :: outs). split; [done|]. specialize (Hroll (length (o :: outs)) ltac:(cbn; lia)).
    destruct (lookup_lt_is_Some_2 _ _ Hroll) as [x Hx]. change (length (o :: outs)) with (S (length outs)) in Hx.
    rewrite (list_lookup_total_correct _ _ _ Hx). by eapply list_elem_of_lookup_2.
  - unfold RoundRobin_pick_outbound. cbn [may_pick]. destruct (alive_outbounds env rr) as [[|o outs]|e] eqn:E; [done| |done].
    intros [= <-]. exists (o :: outs). split; [done|]. by apply lookup_total_mod.
  - apply leastping_picks.
  - intros Hp. apply leastload_picks; [done|]. by destruct (LeastLoad_pick_outbound env ll).
  - done.
Qed.


(** ** Rotation *)

Fixpoint picks (k : nat) (b : Balancer) : list (result RouterError bytes) * Balancer :=
  match k with
  | O => ([], b)
  | S k =>
      let '(r, b) := pick_outbound_with_key env 0 b in
      let '(rs, b) := picks k b in
      (r :: rs, b)
  end.

Definition with_index (i : Z) (rr : RoundRobinStrategy) : RoundRobinStrategy := mkRoundRobin (rr_selectors rr) (rr_observer rr) i.

Lemma round_robin_picks sel fb rr outs k i : outs <> [] -> Forall (fun t => t <> []) outs ->
  alive_outbounds env rr = Ok outs -> is_u32 i ->
  (picks k (mkBalancer sel (SRoundRobin (with_index i rr)) fb [])).1 =
    map (fun j => Ok (outs !!! Z.to_nat (to_u32 (i + Z.of_nat j) mod zlen outs))) (seq 0 k).
Proof using.
  intros Hne Hts Ha. revert i. induction k as [|k IH]; intros i Hi; [done|].
  cbn [picks]. unfold pick_outbound_with_key at 1. cbn [bl_override_target bl_strategy strategy_pick]. rewrite bool_decide_true by done. cbn [negb].
  unfold RoundRobin_pick_outbound at 1.
  assert (Ha' : alive_outbounds env (with_index i rr) = Ok outs) by exact Ha. rewrite Ha'.
  destruct outs as [|o outs]; [done|]. cbn [rr_index with_index rr_selectors rr_observer]. set (os := o :: outs) in *.
  assert (Ht : os !!! Z.to_nat (i mod zlen os) <> []).
  { rewrite Forall_forall in Hts. apply Hts, lookup_total_mod. done. }
  rewrite bool_decide_false by done. cbn [negb bl_selectors bl_fallback_tag bl_override_target].
  change (mkRoundRobin (rr_selectors rr) (rr_observer rr) (i +32 1)) with (with_index (i +32 1) rr).
  specialize (IH (i +32 1) ltac:(apply to_u32_range)). destruct (picks k _) as [rs b]. cbn [fst] in IH |- *.
  rewrite IH. cbn [seq map]. f_equal.
  - rewrite Z.add_0_r. by rewrite to_u32_small.
  - rewrite <- seq_shift, map_map. apply map_ext. intros j. do 3 f_equal. unfold to_u32.
    rewrite Nat2Z.inj_succ. rewrite Zplus_mod_idemp_l. f_equal. f_equal. lia.
Qed.

Lemma rotation_perm {A} `{Inhabited A} (l : list A) i : l <> [] ->
  map (fun j => l !!! Z.to_nat ((i + Z.of_nat j) mod zlen l)) (seq 0 (length l)) ≡ₚ l.
Proof using.
  intros Hl. assert (Hn : 0 < zlen l) by (destruct l; [done|zlia]).
  assert (Hp : map (fun j => Z.to_nat ((i + Z.of_nat j) mod zlen l)) (seq 0 (length l)) ≡ₚ seq 0 (length l)).
  { apply Permutation_sym, submseteq_length_Permutation; [|by rewrite length_map].
    apply NoDup_submseteq; [apply NoDup_ListNoDup, seq_NoDup|]. intros x [_ Hx]%elem_of_seq. apply list_elem_of_fmap.
    pose proof (Z.mod_pos_bound (Z.of_nat x - i) (zlen l) Hn). exists (Z.to_nat ((Z.of_nat x - i) mod zlen l)). split.
    - rewrite Z2Nat.id by lia. rewrite Zplus_mod_idemp_r. replace (i + (Z.of_nat x - i)) with (Z.of_nat x) by lia.
      rewrite Z.mod_small by (unfold zlen in *; lia). by rewrite Nat2Z.id.
    - apply elem_of_seq. unfold zlen in *. lia. }
  transitivity (map (fun k => l !!! k) (seq 0 (length l))).
  - rewrite <- (map_map (fun j => Z.to_nat ((i + Z.of_nat j) mod zlen l)) (fun k => l !!! k)). by apply Permutation_map.
  - clear Hl Hn Hp. match goal with |- ?a ≡ₚ ?b => enough (E : a = b) by (by rewrite E) end. apply list_eq. intros k. change (map ?f ?x) with (f <$> x). rewrite list_lookup_fmap.
    destruct (decide (k < length l)%nat) as [Hk|Hk].
    + rewrite lookup_seq_lt by done. cbn. destruct (lookup_lt_is_Some_2 l k Hk) as [x Hx]. by rewrite Hx, (list_lookup_total_correct _ _ _ Hx).
    + rewrite lookup_seq_ge by lia. cbn. symmetry. apply lookup_ge_None_2. lia.
Qed.

(** C16: the round robin.  While the outbounds that are alive stay the same, pick number [j]
    returns the one at the counter plus [j], at 32 bits, modulo their number; so as many
    picks in a row as there are outbounds return each exactly once, from whatever counter,
    unless the 32-bit counter overflows among them and their number is not a power of two. *)
Theorem round_robin_fair b rr outs : bl_strategy b = SRoundRobin rr -> bl_override_target b = [] ->
  alive_outbounds env rr = Ok outs -> outs <> [] -> Forall (fun t => t <> []) outs -> is_u32 (rr_index rr) ->
  (forall k, (picks k b).1 = map (fun j => Ok (outs !!! Z.to_nat ((rr_index rr +32 Z.of_nat j) mod zlen outs))) (seq 0 k)) /\
  (rr_index rr + zlen outs <= 2 ^ 32 \/ (zlen outs | 2 ^ 32) -> (picks (length outs) b).1 ≡ₚ map Ok outs).
Proof.
  intros Hs Ho Ha Hne Hts Hi. destruct b as [sel st fb ov]. cbn in Hs, Ho. subst st ov.
  assert (Hk : forall k, (picks k (mkBalancer sel (SRoundRobin rr) fb [])).1 =
      map (fun j => Ok (outs !!! Z.to_nat ((rr_index rr +32 Z.of_nat j) mod zlen outs))) (seq 0 k)).
  { intros k. destruct rr as [rs ob i]. apply (round_robin_picks sel fb (mkRoundRobin rs ob i) outs k i); done. }
  split; [exact Hk|]. intros Hw. rewrite Hk. transitivity (map (@Ok RouterError bytes) (map (fun j => outs !!! Z.to_nat ((rr_index rr + Z.of_nat j) mod zlen outs)) (seq 0 (length outs)))).
  - rewrite map_map. match goal with |- ?a ≡ₚ ?b => enough (E : a = b) by (by rewrite E) end. apply map_ext_in. intros j Hj%in_seq. do 3 f_equal. destruct Hw as [Hw|Hw].
    + rewrite to_u32_small; [done|]. unfold is_u32, zlen in *. lia.
    + unfold to_u32. change 4294967296 with (2 ^ 32). by apply Z.mod_mod_divide.
  - apply Permutation_map. by apply rotation_perm.
Qed.
End props.
