(* ===== verification/RouterCond.v ===== *)
(** The conditions of a routing rule: [xray-app-router/src/{context,condition}.rs], and
    [build_condition] of [rule.rs], which makes them from the Protobuf rule.

    The messages are records of the fields the code reads.  Parameters: the crate
    [regex] ([RegexOps]), the standard library's hasher and Unicode case mappings
    ([StdText], [to_uppercase]), the geodata files ([GeoDataLoader]: what is decoded from
    them), and what the operating system answers ([Os]). *)
From Stdlib Require Import String.
From stdpp Require Import base tactics option list numbers gmap.
From S2P Require Import Prelude Bytes NetTypes StrMatch DomainMatch Mph DomainRules IpMatch Balancing.
Open Scope Z_scope.

(** ** The context *)

(** [HashMap] of attributes: the pairs in the order the map is walked. *)
Record RoutingData : Type := mkRoutingData {
  target_ips : list IpAddr;
  target_domain : bytes;
  target_port : Port;
  source_ips : list IpAddr;
  source_port : Port;
  local_ips : list IpAddr;
  local_port : Port;
  vless_route : Port;
  network : Network;
  user : bytes;
  attributes : list (bytes * bytes);
  inbound_tag : bytes;
  protocol : bytes;
  skip_dns_resolve : bool
}.

Definition RoutingData_default : RoutingData :=
  mkRoutingData [] [] (Port_new 0) [] (Port_new 0) [] (Port_new 0) (Port_new 0) TCP [] [] [] [] false.

Definition set_target_ips (ips : list IpAddr) (d : RoutingData) : RoutingData :=
  mkRoutingData ips (target_domain d) (target_port d) (source_ips d) (source_port d) (local_ips d) (local_port d)
    (vless_route d) (network d) (user d) (attributes d) (inbound_tag d) (protocol d) (skip_dns_resolve d).

(** ** The operating system *)

Record ProcessInfo : Type := mkProcessInfo { pi_name : bytes; pi_exe_path : bytes; pi_pid : Z }.

Record Os : Type := mkOs {
  OS : bytes;
  find_process : IpAddr -> Z -> option ProcessInfo;
  current_process_info : option ProcessInfo;
  current_exe : option bytes
}.

Definition eq_ignore_ascii_case (a b : bytes) : bool := bool_decide (to_ascii_lowercase a = to_ascii_lowercase b).

(** [strip_prefix], [strip_suffix] *)
Definition strip_prefix (p s : bytes) : option bytes := if starts_with s p then Some (drop (length p) s) else None.
Definition strip_suffix (p s : bytes) : option bytes := if ends_with s p then Some (take (length s - length p) s) else None.

Definition SLASH : Z := 47.
(** [replace('\\', "/")] *)
Definition to_slash (s : bytes) : bytes := map (fun b => if b =? 92 then SLASH else b) s.

Section conditions.
Context `{RegexOps} `{StdText}.

(** ** The matchers *)

Inductive IpMatchAsType : Type := IpTarget | IpSource | IpLocal | IpVlessRoute.
Inductive PortMatchAsType : Type := PortTarget | PortSource | PortLocal | PortVlessRoute.

Inductive UserPattern : Type :=
| UserLiteral (s : bytes)
| UserRegex (r : Regex).

Record ProcessNameMatcher : Type := mkProcessNameMatcher {
  pm_process_names : list bytes;
  pm_abs_paths : list bytes;
  pm_folders : list bytes;
  pm_match_xray_self : bool
}.

(** [Box<dyn Condition>] of [build_condition]. *)
Inductive Condition : Type :=
| CLocalOs (matched : bool)
| CDomain (matcher : MphDomainMatcher)
| CIp (matcher : IPMatcher) (as_type : IpMatchAsType)
| CPort (ports : MemoryPortList) (as_type : PortMatchAsType)
| CNetwork (allowed : list bool)
| CUser (patterns : list UserPattern)
| CInboundTag (tags : list bytes)
| CProtocol (prefixes : list bytes)
| CAttribute (patterns : gmap bytes Regex)
| CProcess (m : ProcessNameMatcher).

Definition ConditionChan : Type := list Condition.

Definition network_index (n : Network) : nat := match n with TCP => 0 | UDP => 1 | Unix => 2 end.

Definition NetworkMatcher_new (networks : list Network) : Condition :=
  CNetwork (fold_left (fun allowed n => <[ network_index n := true ]> allowed) networks (replicate 8 false)).

(** The loop of [UserMatcherCondition::new]. *)
Fixpoint user_patterns (patterns : list bytes) : list UserPattern :=
  match patterns with
  | [] => []
  | p :: patterns =>
      if bool_decide (p = []) then user_patterns patterns
      else
        match (if 7 <? zlen p then strip_prefix (text "regexp:") p else None) with
        | Some rest =>
            match Regex_new rest with
            | Ok re => UserRegex re :: user_patterns patterns
            | Err _ => user_patterns patterns
            end
        | None => UserLiteral p :: user_patterns patterns
        end
  end.

(** [AttributeMatcherCondition::new]: later entries of one folded key replace earlier ones. *)
Fixpoint attribute_patterns (attrs : list (bytes * bytes)) (patterns : gmap bytes Regex) : result Regex_Error (gmap bytes Regex) :=
  match attrs with
  | [] => Ok patterns
  | (k, v) :: attrs =>
      re ← Regex_new v;
      attribute_patterns attrs (<[ to_lowercase k := re ]> patterns)
  end.

Definition LocalOsMatcher_new (os : Os) (names : list bytes) : Condition :=
  CLocalOs (existsb (fun n => eq_ignore_ascii_case n (OS os)) names).

(** [ProcessNameMatcherCondition::new], one entry at a time. *)
Definition process_entry (os : Os) (m : ProcessNameMatcher) (p : bytes) : ProcessNameMatcher :=
  if bool_decide (p = text "self/") then mkProcessNameMatcher (pm_process_names m) (pm_abs_paths m) (pm_folders m) true
  else
    match (if bool_decide (p = text "xray/") then current_exe os else Some p) with
    | None => m
    | Some name =>
        let name := to_slash name in
        if ends_with name [SLASH] then mkProcessNameMatcher (pm_process_names m) (pm_abs_paths m) (pm_folders m ++ [name]) (pm_match_xray_self m)
        else if contains name [SLASH] then mkProcessNameMatcher (pm_process_names m) (pm_abs_paths m ++ [name]) (pm_folders m) (pm_match_xray_self m)
        else mkProcessNameMatcher (pm_process_names m ++ [default name (strip_suffix (text ".exe") name)]) (pm_abs_paths m) (pm_folders m) (pm_match_xray_self m)
    end.

Definition ProcessNameMatcher_new (os : Os) (process : list bytes) : ProcessNameMatcher :=
  fold_left (process_entry os) process (mkProcessNameMatcher [] [] [] false).

Definition matches_info (os : Os) (m : ProcessNameMatcher) (info : ProcessInfo) : bool :=
  let name := default (pi_name info) (strip_suffix (text ".exe") (pi_name info)) in
  let exe_path := to_slash (pi_exe_path info) in
  if pm_match_xray_self m && match current_process_info os with Some cur => pi_pid cur =? pi_pid info | None => false end then true
  else if existsb (fun n => bool_decide (n = name)) (pm_process_names m) then true
  else if existsb (fun p => bool_decide (p = exe_path)) (pm_abs_paths m) then true
  else existsb (fun f => starts_with exe_path f) (pm_folders m).

(** ** [Condition::apply] *)

Definition ips_for (as_type : IpMatchAsType) (ctx : RoutingData) : list IpAddr :=
  match as_type with
  | IpTarget => target_ips ctx
  | IpSource => source_ips ctx
  | IpLocal => local_ips ctx
  | IpVlessRoute => []
  end.

Definition port_for (as_type : PortMatchAsType) (ctx : RoutingData) : Port :=
  match as_type with
  | PortTarget => target_port ctx
  | PortSource => source_port ctx
  | PortLocal => local_port ctx
  | PortVlessRoute => vless_route ctx
  end.

Definition domain_apply (m : MphDomainMatcher) (ctx : RoutingData) : bool :=
  if bool_decide (target_domain ctx = []) then false else MphDomainMatcher_match_any (to_lowercase (target_domain ctx)) m.

Definition user_apply (patterns : list UserPattern) (ctx : RoutingData) : bool :=
  if bool_decide (user ctx = []) then false
  else existsb (fun p => match p with UserLiteral s => bool_decide (user ctx = s) | UserRegex r => is_match r (user ctx) end) patterns.

(** One pattern of [AttributeMatcherCondition::apply]; a [HashMap] has one value per key. *)
Definition attribute_ok (attrs : list (bytes * bytes)) (k : bytes) (re : Regex) : bool :=
  match List.find (fun a => bool_decide (to_lowercase a.1 = k)) attrs with
  | Some a => is_match re a.2
  | None => false
  end.

Definition attribute_apply (patterns : gmap bytes Regex) (ctx : RoutingData) : bool :=
  forallb (fun kr => attribute_ok (attributes ctx) kr.1 kr.2) (map_to_list patterns).

Definition process_apply (os : Os) (m : ProcessNameMatcher) (ctx : RoutingData) : bool :=
  match source_ips ctx with
  | ip :: _ =>
      match find_process os ip (Port_value (source_port ctx)) with
      | Some info => matches_info os m info
      | None => false
      end
  | [] => false
  end.

Definition condition_apply (os : Os) (ctx : RoutingData) (c : Condition) : bool :=
  match c with
  | CLocalOs matched => matched
  | CDomain m => domain_apply m ctx
  | CIp m as_type => existsb (match_ip m) (ips_for as_type ctx)
  | CPort ports as_type => MemoryPortList_contains ports (port_for as_type ctx)
  | CNetwork allowed => allowed !!! network_index (network ctx)
  | CUser patterns => user_apply patterns ctx
  | CInboundTag tags => existsb (fun t => bool_decide (t = inbound_tag ctx)) tags
  | CProtocol prefixes => existsb (fun x => starts_with (protocol ctx) x) prefixes
  | CAttribute patterns => attribute_apply patterns ctx
  | CProcess m => process_apply os m ctx
  end.

Definition chan_apply (os : Os) (ctx : RoutingData) (chan : ConditionChan) : bool := forallb (condition_apply os ctx) chan.

(** ** The Protobuf rule *)

Inductive ProtoDomainValue : Type :=
| PDomain (type : Z) (value : bytes)
| PGeosite (file code attrs : bytes).

Inductive ProtoIpValue : Type :=
| PCidr (cidr : option Cidr) (reverse_match : bool)
| PGeoip (file code : bytes) (reverse_match : bool).

Inductive TargetTag : Type :=
| TTag (s : bytes)
| TBalancingTag (s : bytes).

Record RoutingRule : Type := mkRoutingRule {
  pr_local_os : list bytes;
  pr_domain : list (option ProtoDomainValue);
  pr_ip : list (option ProtoIpValue);
  pr_source_ip : list (option ProtoIpValue);
  pr_local_ip : list (option ProtoIpValue);
  pr_port_list : option (list (Z * Z));
  pr_source_port_list : option (list (Z * Z));
  pr_local_port_list : option (list (Z * Z));
  pr_vless_route_list : option (list (Z * Z));
  pr_networks : list Z;
  pr_user_email : list bytes;
  pr_inbound_tag : list bytes;
  pr_protocol : list bytes;
  pr_attributes : list (bytes * bytes);
  pr_process : list bytes;
  pr_target_tag : option TargetTag;
  pr_rule_tag : bytes;
  pr_webhook : bool
}.

(** The domains of a GeoSite entry (type and value), the blocks of a GeoIP entry. *)
Record GeoIp : Type := mkGeoIp { gi_reverse_match : bool; gi_cidr : list Cidr }.

Record GeoDataLoader : Type := mkGeoDataLoader {
  load_site : bytes -> bytes -> option (list (Z * bytes));
  load_site_with_attrs : bytes -> bytes -> bytes -> option (list (Z * bytes));
  load_ip : bytes -> bytes -> option GeoIp
}.

Context (to_uppercase : bytes -> bytes).

(** ** From the message to the matchers *)

(** [u32 as u16] drops the high bits. *)
Definition to_mem_port_list (pl : list (Z * Z)) : MemoryPortList :=
  MemoryPortList_new (map (fun r => PortRange_new (Port_new (to_u16 r.1)) (Port_new (to_u16 r.2))) pl).

Definition proto_network_to_native (v : Z) : option Network :=
  if v =? 2 then Some TCP else if v =? 3 then Some UDP else if v =? 4 then Some Unix else None.

Definition proto_domain_type_to_matcher (v : Z) : option DomainType :=
  if v =? 0 then Some DtSubstr else if v =? 1 then Some DtRegex else if v =? 2 then Some DtDomain else if v =? 3 then Some DtFull else None.

Definition load_geosite_to_matcher_rules (loader : GeoDataLoader) (file code attrs : bytes) : result RouterError (list DomainRule) :=
  let file := if bool_decide (file = []) then text "geosite.dat" else file in
  let code := to_uppercase code in
  site ← ok_or GeodataBuild (if bool_decide (attrs = []) then load_site loader file code else load_site_with_attrs loader file code attrs);
  Ok (imap (fun i d => mkDomainRule (default DtFull (proto_domain_type_to_matcher d.1)) d.2 (to_u32 (Z.of_nat i + 1))) site).

Fixpoint parse_proto_domain_rules (geo_loader : option GeoDataLoader) (rules : list (option ProtoDomainValue)) (out : list DomainRule)
    : result RouterError (list DomainRule) :=
  match rules with
  | [] => Ok out
  | None :: rules => parse_proto_domain_rules geo_loader rules out
  | Some (PDomain t v) :: rules =>
      match proto_domain_type_to_matcher t with
      | Some dt => parse_proto_domain_rules geo_loader rules (out ++ [mkDomainRule dt v (to_u32 (zlen out + 1))])
      | None => parse_proto_domain_rules geo_loader rules out
      end
  | Some (PGeosite file code attrs) :: rules =>
      match geo_loader with
      | None => Err GeodataBuild
      | Some loader =>
          more ← load_geosite_to_matcher_rules loader file code attrs;
          parse_proto_domain_rules geo_loader rules (out ++ more)
      end
  end.

Definition load_geoip_to_matcher_rules (loader : GeoDataLoader) (file code : bytes) (reverse_match : bool) : result RouterError (list IpRule) :=
  let file := if bool_decide (file = []) then text "geoip.dat" else file in
  geoip ← ok_or GeodataBuild (load_ip loader file (to_uppercase code));
  let reverse := xorb reverse_match (gi_reverse_match geoip) in
  Ok (map (fun c => mkIpRule (Some (Custom (mkCidrRule (Some c) reverse)))) (gi_cidr geoip)).

Fixpoint convert_proto_ip_rules (geo_loader : option GeoDataLoader) (rules : list (option ProtoIpValue)) (out : list IpRule)
    : result RouterError (list IpRule) :=
  match rules with
  | [] => Ok out
  | None :: rules => convert_proto_ip_rules geo_loader rules out
  | Some (PCidr c r) :: rules => convert_proto_ip_rules geo_loader rules (out ++ [mkIpRule (Some (Custom (mkCidrRule c r)))])
  | Some (PGeoip file code r) :: rules =>
      match geo_loader with
      | None => Err GeodataBuild
      | Some loader =>
          more ← load_geoip_to_matcher_rules loader file code r;
          convert_proto_ip_rules geo_loader rules (out ++ more)
      end
  end.

(** ** [build_condition]

    The result is [None] when the search of a domain matcher's hash table runs out of
    [fuel].  Each field adds at most one condition. *)
Definition outcome (A : Type) : Type := option (result RouterError A).

Definition then_outcome {A B} (m : outcome A) (k : A -> outcome B) : outcome B :=
  match m with Some (Ok a) => k a | Some (Err e) => Some (Err e) | None => None end.

Context (fuel : nat) (os : Os) (geo_loader : option GeoDataLoader).

Definition add_domain (rules : list (option ProtoDomainValue)) (chan : ConditionChan) : outcome ConditionChan :=
  if bool_decide (rules = []) then Some (Ok chan)
  else
    match parse_proto_domain_rules geo_loader rules [] with
    | Err e => Some (Err e)
    | Ok [] => Some (Ok chan)
    | Ok rules =>
        match MphDomainMatcher_build fuel rules with
        | None => None
        | Some (Err _) => Some (Err GeodataBuild)
        | Some (Ok m) => Some (Ok (chan ++ [CDomain m]))
        end
    end.

Definition add_ip (as_type : IpMatchAsType) (rules : list (option ProtoIpValue)) (chan : ConditionChan) : outcome ConditionChan :=
  if bool_decide (rules = []) then Some (Ok chan)
  else
    match convert_proto_ip_rules geo_loader rules [] with
    | Err e => Some (Err e)
    | Ok rules =>
        match build_optimized_ip_matcher rules with
        | Err _ => Some (Err GeodataBuild)
        | Ok m => Some (Ok (chan ++ [CIp m as_type]))
        end
    end.

Definition add_port (as_type : PortMatchAsType) (pl : option (list (Z * Z))) (chan : ConditionChan) : ConditionChan :=
  match pl with Some pl => chan ++ [CPort (to_mem_port_list pl) as_type] | None => chan end.

Definition add_networks (networks : list Z) (chan : ConditionChan) : ConditionChan :=
  match omap proto_network_to_native networks with [] => chan | nets => chan ++ [NetworkMatcher_new nets] end.

Definition add_some {A} (l : list A) (c : Condition) (chan : ConditionChan) : ConditionChan :=
  match l with [] => chan | _ => chan ++ [c] end.

Definition add_attributes (attrs : list (bytes * bytes)) (chan : ConditionChan) : outcome ConditionChan :=
  match attrs with
  | [] => Some (Ok chan)
  | _ =>
      match attribute_patterns attrs ∅ with
      | Ok patterns => Some (Ok (chan ++ [CAttribute patterns]))
      | Err _ => Some (Err GeodataBuild)
      end
  end.

Definition build_condition (proto : RoutingRule) : outcome ConditionChan :=
  let chan := add_some (pr_local_os proto) (LocalOsMatcher_new os (pr_local_os proto)) [] in
  then_outcome (add_domain (pr_domain proto) chan) (fun chan =>
  then_outcome (add_ip IpTarget (pr_ip proto) chan) (fun chan =>
  then_outcome (add_ip IpSource (pr_source_ip proto) chan) (fun chan =>
  then_outcome (add_ip IpLocal (pr_local_ip proto) chan) (fun chan =>
  let chan := add_port PortTarget (pr_port_list proto) chan in
  let chan := add_port PortSource (pr_source_port_list proto) chan in
  let chan := add_port PortLocal (pr_local_port_list proto) chan in
  let chan := add_port PortVlessRoute (pr_vless_route_list proto) chan in
  let chan := add_networks (pr_networks proto) chan in
  let chan := add_some (pr_user_email proto) (CUser (user_patterns (pr_user_email proto))) chan in
  let chan := add_some (pr_inbound_tag proto) (CInboundTag (pr_inbound_tag proto)) chan in
  let chan := add_some (pr_protocol proto) (CProtocol (pr_protocol proto)) chan in
  then_outcome (add_attributes (pr_attributes proto) chan) (fun chan =>
  let chan := add_some (pr_process proto) (CProcess (ProcessNameMatcher_new os (pr_process proto))) chan in
  match chan with [] => Some (Err EmptyRule) | _ => Some (Ok chan) end))))).
End conditions.
