(* ===== verification/Router.v ===== *)
(** The router: [xray-app-router/src/{router,rule,config}.rs].

    Balancers are created when the router is and shared by the rules ([Arc]): they live in
    a store, and a rule and the table of tags name them by their index.  A webhook is a
    flag of the rule, its firing an event; the DNS client is an argument. *)
From Stdlib Require Import String.
From stdpp Require Import base tactics option list numbers gmap.
From S2P Require Import Prelude Bytes NetTypes StrMatch DomainMatch Mph DomainRules IpMatch Balancing RouterCond.
Open Scope Z_scope.

(** ** [DomainStrategy] *)

Inductive DomainStrategy : Type := AsIs | IpIfNonMatch | IpOnDemand.

#[export] Instance DomainStrategy_eq_dec : EqDecision DomainStrategy.
Proof. solve_decision. Defined.

Definition DomainStrategy_from_proto_i32 (v : Z) : DomainStrategy :=
  if v =? 2 then IpIfNonMatch else if v =? 3 then IpOnDemand else AsIs.
Definition DomainStrategy_to_proto (s : DomainStrategy) : Z :=
  match s with AsIs => 0 | IpIfNonMatch => 2 | IpOnDemand => 3 end.
Definition needs_ip_resolution (s : DomainStrategy) : bool :=
  match s with IpIfNonMatch | IpOnDemand => true | AsIs => false end.

Section router.
Context `{RegexOps} `{StdText}.

(** ** [Rule] *)

Record Rule : Type := mkRule {
  rl_tag : bytes;
  rl_rule_tag : bytes;
  rl_balancer : option nat;
  rl_condition : option ConditionChan;
  rl_webhook : bool
}.

(** What [apply] hands to the webhook: outbound tag and rule tag of the hit. *)
Definition WebhookEvent : Type := bytes * bytes.

(** What the hasher of [ctx_hash_key] is given. *)
Inductive HashInput : Type := HashIp (ip : IpAddr) | HashStr (s : bytes).

Definition ctx_hash_input (ctx : RoutingData) : HashInput :=
  match target_ips ctx with
  | ip :: _ => HashIp ip
  | [] =>
      if negb (bool_decide (target_domain ctx = [])) then HashStr (target_domain ctx)
      else match source_ips ctx with ip :: _ => HashIp ip | [] => HashStr (inbound_tag ctx) end
  end.

Section picking.
Context (finish : HashInput -> Z) (os : Os) (env : Env).

Definition ctx_hash_key (ctx : RoutingData) : Z := finish (ctx_hash_input ctx).

Definition get_tag_with_ctx (rule : Rule) (ctx : RoutingData) (store : list Balancer) : result RouterError bytes * list Balancer :=
  match rl_balancer rule with
  | Some i =>
      match store !! i with
      | Some b =>
          let '(r, b) := pick_outbound_with_key env (ctx_hash_key ctx) b in
          (r, <[ i := b ]> store)
      | None => (Ok (rl_tag rule), store)
      end
  | None => (Ok (rl_tag rule), store)
  end.

Definition Rule_apply (rule : Rule) (ctx : RoutingData) (store : list Balancer) : option bytes * list Balancer * list WebhookEvent :=
  let hit := match rl_condition rule with Some c => chan_apply os ctx c | None => true end in
  if negb hit then (None, store, [])
  else
    match get_tag_with_ctx rule ctx store with
    | (Ok t, store) => (Some t, store, if rl_webhook rule then [(t, rl_rule_tag rule)] else [])
    | (Err _, store) => (None, store, [])
    end.

(** ** [Route], [Router] *)

Record Route : Type := mkRoute { rt_outbound_tag : bytes; rt_rule_tag : bytes }.

Fixpoint pick_loop (rules : list Rule) (ctx : RoutingData) (store : list Balancer)
    : result RouterError Route * list Balancer * list WebhookEvent :=
  match rules with
  | [] => (Err NoClue, store, [])
  | rule :: rules =>
      match Rule_apply rule ctx store with
      | (Some tag, store, ev) => (Ok (mkRoute tag (rl_rule_tag rule)), store, ev)
      | (None, store, _) => pick_loop rules ctx store
      end
  end.
End picking.

Record Router : Type := mkRouter {
  ro_domain_strategy : DomainStrategy;
  ro_rules : list Rule;
  ro_balancers : gmap bytes nat;
  ro_store : list Balancer;
  ro_observer : bool;
  ro_geo_loader : option GeoDataLoader
}.

Definition set_rules_list (rules : list Rule) (r : Router) : Router :=
  mkRouter (ro_domain_strategy r) rules (ro_balancers r) (ro_store r) (ro_observer r) (ro_geo_loader r).
Definition set_store (store : list Balancer) (r : Router) : Router :=
  mkRouter (ro_domain_strategy r) (ro_rules r) (ro_balancers r) store (ro_observer r) (ro_geo_loader r).

Definition Router_empty (observer : bool) : Router := mkRouter AsIs [] ∅ [] observer None.

Section ops.
Context (finish : HashInput -> Z) (os : Os).

Definition pick_route (env : Env) (ctx : RoutingData) (r : Router) : result RouterError Route * Router * list WebhookEvent :=
  let '(res, store, ev) := pick_loop finish os env (ro_rules r) ctx (ro_store r) in
  (res, set_store store r, ev).

(** [dns.lookup_ip] with both families enabled; [None]: no client is set. *)
Definition resolve_into (dns : option (bytes -> result unit (list IpAddr))) (ctx : RoutingData) : RoutingData :=
  match dns with
  | None => ctx
  | Some lookup_ip =>
      match lookup_ip (target_domain ctx) with
      | Ok [] => ctx
      | Ok ips => set_target_ips ips ctx
      | Err _ => ctx
      end
  end.

Definition can_resolve (r : Router) (ctx : RoutingData) : bool :=
  negb (skip_dns_resolve ctx) && negb (bool_decide (ro_domain_strategy r = AsIs))
  && negb (bool_decide (target_domain ctx = [])) && bool_decide (target_ips ctx = []).

(** The context is updated in place: it is returned with the route. *)
Definition pick_route_resolved (dns : option (bytes -> result unit (list IpAddr))) (env : Env) (ctx : RoutingData) (r : Router)
    : result RouterError Route * RoutingData * Router * list WebhookEvent :=
  let pick ctx r := let '(res, r, ev) := pick_route env ctx r in (res, ctx, r, ev) in
  match ro_domain_strategy r with
  | IpOnDemand => if can_resolve r ctx then pick (resolve_into dns ctx) r else pick ctx r
  | IpIfNonMatch =>
      let resolvable := can_resolve r ctx in
      match pick_route env ctx r with
      | (Ok route, r, ev) => (Ok route, ctx, r, ev)
      | (Err _, r, _) => if resolvable then pick (resolve_into dns ctx) r else (Err NoClue, ctx, r, [])
      end
  | AsIs => pick ctx r
  end.

Context (to_uppercase : bytes -> bytes) (fuel : nat).

Definition build_rule (balancers : gmap bytes nat) (geo_loader : option GeoDataLoader) (proto : RoutingRule) : outcome Rule :=
  then_outcome (build_condition to_uppercase fuel os geo_loader proto) (fun cond =>
  let rule tag balancer := mkRule tag (pr_rule_tag proto) balancer (Some cond) (pr_webhook proto) in
  match pr_target_tag proto with
  | None => Some (Ok (rule [] None))
  | Some (TTag s) => Some (Ok (rule s None))
  | Some (TBalancingTag s) =>
      match balancers !! s with
      | Some b => Some (Ok (rule [] (Some b)))
      | None => Some (Err (BalancerNotFound s))
      end
  end).

(** The loop shared by [init] and [reload_rules]. *)
Fixpoint build_rules (balancers : gmap bytes nat) (geo_loader : option GeoDataLoader) (protos : list RoutingRule)
    (seen : gset bytes) (rules : list Rule) : outcome (list Rule) :=
  match protos with
  | [] => Some (Ok rules)
  | p :: protos =>
      then_outcome (build_rule balancers geo_loader p) (fun r =>
      if bool_decide (rl_rule_tag r = []) then build_rules balancers geo_loader protos seen (rules ++ [r])
      else if bool_decide (rl_rule_tag r ∈ seen) then Some (Err (DuplicateRuleTag (rl_rule_tag r)))
      else build_rules balancers geo_loader protos ({[ rl_rule_tag r ]} ∪ seen) (rules ++ [r]))
  end.

Fixpoint build_balancers (decode : bytes -> option StrategyLeastLoadConfig) (observer : bool) (brs : list BalancingRule)
    (balancers : gmap bytes nat) (store : list Balancer) : result RouterError (gmap bytes nat * list Balancer) :=
  match brs with
  | [] => Ok (balancers, store)
  | br :: brs =>
      b ← build_balancer decode br observer;
      match balancers !! br_tag br with
      | Some _ => Err DuplicateBalancerTag
      | None => build_balancers decode observer brs (<[ br_tag br := length store ]> balancers) (store ++ [b])
      end
  end.

Record Config : Type := mkConfig { cf_domain_strategy : Z; cf_rule : list RoutingRule; cf_balancing_rule : list BalancingRule }.

Definition Router_init (decode : bytes -> option StrategyLeastLoadConfig) (observer : bool) (geo_loader : option GeoDataLoader)
    (config : Config) : outcome Router :=
  match build_balancers decode observer (cf_balancing_rule config) ∅ [] with
  | Err e => Some (Err e)
  | Ok (balancers, store) =>
      then_outcome (build_rules balancers geo_loader (cf_rule config) ∅ []) (fun rules =>
      Some (Ok (mkRouter (DomainStrategy_from_proto_i32 (cf_domain_strategy config)) rules balancers store observer geo_loader)))
  end.

Definition set_proto_rule_tag (tag : bytes) (p : RoutingRule) : RoutingRule :=
  mkRoutingRule (pr_local_os p) (pr_domain p) (pr_ip p) (pr_source_ip p) (pr_local_ip p) (pr_port_list p) (pr_source_port_list p)
    (pr_local_port_list p) (pr_vless_route_list p) (pr_networks p) (pr_user_email p) (pr_inbound_tag p) (pr_protocol p)
    (pr_attributes p) (pr_process p) (pr_target_tag p) tag (pr_webhook p).

Definition has_rule_tag (tag : bytes) (rules : list Rule) : bool := existsb (fun r => bool_decide (rl_rule_tag r = tag)) rules.

(** The operations on the table: the result and the router after it. *)
Definition add_rule (rule_tag : bytes) (proto : RoutingRule) (r : Router) : option (result RouterError unit * Router) :=
  if bool_decide (rule_tag = []) then Some (Err EmptyTagName, r)
  else if has_rule_tag rule_tag (ro_rules r) then Some (Err (DuplicateRuleTag rule_tag), r)
  else
    match build_rule (ro_balancers r) (ro_geo_loader r) (set_proto_rule_tag rule_tag proto) with
    | None => None
    | Some (Err e) => Some (Err e, r)
    | Some (Ok rule) => Some (Ok tt, set_rules_list (ro_rules r ++ [rule]) r)
    end.

Definition remove_rule (rule_tag : bytes) (r : Router) : result RouterError unit * Router :=
  if bool_decide (rule_tag = []) then (Err EmptyTagName, r)
  else
    let rules := List.filter (fun rule => negb (bool_decide (rl_rule_tag rule = rule_tag))) (ro_rules r) in
    (if bool_decide (length rules = length (ro_rules r)) then Err TagNotFound else Ok tt, set_rules_list rules r).

Definition reload_rules (protos : list RoutingRule) (r : Router) : option (result RouterError unit * Router) :=
  match build_rules (ro_balancers r) (ro_geo_loader r) protos ∅ [] with
  | None => None
  | Some (Err e) => Some (Err e, r)
  | Some (Ok rules) => Some (Ok tt, set_rules_list rules r)
  end.

Definition list_rules (r : Router) : list bytes := map rl_rule_tag (ro_rules r).

Definition override_balancer (balancer_tag target : bytes) (r : Router) : result RouterError unit * Router :=
  match ro_balancers r !! balancer_tag with
  | None => (Err (BalancerNotFound balancer_tag), r)
  | Some i => (Ok tt, set_store (alter (set_override_target target) i (ro_store r)) r)
  end.

Definition get_balancer (tag : bytes) (r : Router) : option nat := ro_balancers r !! tag.
End ops.
End router.
