(* ===== verification/RouterProps.v ===== *)
(** The router of [Router]: its conditions against what the fields of a rule say, its
    choice against the list of configured rules, its operations against that list. *)
From Stdlib Require Import String.
From stdpp Require Import base tactics option list numbers gmap.
From S2P Require Import Prelude Bytes NetTypes StrMatch DomainMatch DomainMatchProps Mph MphProps DomainRules DomainRulesProps IpMatch IpMatchProps Balancing RouterCond Router.
Open Scope Z_scope.

Section conditions.
Context `{RX : RegexOps} `{TX : StdText} (to_uppercase : bytes -> bytes) (fuel : nat) (os : Os) (geo_loader : option GeoDataLoader).

(** ** What a rule says *)

(** A field that is left empty does not restrict. *)
Definition field {A} (l : list A) (b : bool) : bool := bool_decide (l = []) || b.

Definition parsed_domains (p : RoutingRule) : list DomainRule :=
  match parse_proto_domain_rules to_uppercase geo_loader (pr_domain p) [] with Ok ds => ds | Err _ => [] end.

Definition converted_ips (l : list (option ProtoIpValue)) : list IpRule :=
  match convert_proto_ip_rules to_uppercase geo_loader l [] with Ok rs => rs | Err _ => [] end.

(** The name matches one of the domain rules that are left after unknown types are dropped. *)
Definition domain_says (p : RoutingRule) (ctx : RoutingData) : bool :=
  field (parsed_domains p)
    (negb (bool_decide (target_domain ctx = [])) && existsb (domain_rule_match (to_lowercase (target_domain ctx))) (parsed_domains p)).

Definition ip_says (as_type : IpMatchAsType) (l : list (option ProtoIpValue)) (ctx : RoutingData) : bool :=
  field l (existsb (rule_match (converted_ips l)) (ips_for as_type ctx)).

Definition port_says (as_type : PortMatchAsType) (pl : option (list (Z * Z))) (ctx : RoutingData) : bool :=
  match pl with
  | None => true
  | Some pl => existsb (fun r => (to_u16 r.1 <=? Port_value (port_for as_type ctx)) && (Port_value (port_for as_type ctx) <=? to_u16 r.2)) pl
  end.

Definition network_says (networks : list Z) (ctx : RoutingData) : bool :=
  field (omap proto_network_to_native networks) (bool_decide (network ctx ∈ omap proto_network_to_native networks)).

(** An entry is a name, or [regexp:] and an expression; a wrong expression matches nobody. *)
Definition user_entry_says (u e : bytes) : bool :=
  negb (bool_decide (e = [])) &&
  match (if 7 <? zlen e then strip_prefix (text "regexp:") e else None) with
  | Some rest => match Regex_new rest with Ok re => is_match re u | Err _ => false end
  | None => bool_decide (u = e)
  end.

Definition user_says (emails : list bytes) (ctx : RoutingData) : bool :=
  field emails (negb (bool_decide (user ctx = [])) && existsb (user_entry_says (user ctx)) emails).

(** Every configured attribute, the last of each folded key, has a value that matches. *)
Definition attribute_entry_says (ctx : RoutingData) (k v : bytes) : bool :=
  match Regex_new v with Ok re => attribute_ok (attributes ctx) (to_lowercase k) re | Err _ => false end.

Definition folds_to (k : bytes) (attrs : list (bytes * bytes)) : bool := existsb (fun a => bool_decide (to_lowercase a.1 = k)) attrs.

Fixpoint attributes_say (attrs : list (bytes * bytes)) (ctx : RoutingData) : bool :=
  match attrs with
  | [] => true
  | (k, v) :: attrs => (folds_to (to_lowercase k) attrs || attribute_entry_says ctx k v) && attributes_say attrs ctx
  end.

Definition rule_says (p : RoutingRule) (ctx : RoutingData) : bool :=
  field (pr_local_os p) (existsb (fun n => eq_ignore_ascii_case n (OS os)) (pr_local_os p)) &&
  domain_says p ctx &&
  ip_says IpTarget (pr_ip p) ctx && ip_says IpSource (pr_source_ip p) ctx && ip_says IpLocal (pr_local_ip p) ctx &&
  port_says PortTarget (pr_port_list p) ctx && port_says PortSource (pr_source_port_list p) ctx &&
  port_says PortLocal (pr_local_port_list p) ctx && port_says PortVlessRoute (pr_vless_route_list p) ctx &&
  network_says (pr_networks p) ctx &&
  user_says (pr_user_email p) ctx &&
  field (pr_inbound_tag p) (bool_decide (inbound_tag ctx ∈ pr_inbound_tag p)) &&
  field (pr_protocol p) (existsb (starts_with (protocol ctx)) (pr_protocol p)) &&
  attributes_say (pr_attributes p) ctx &&
  field (pr_process p) (process_apply os (ProcessNameMatcher_new os (pr_process p)) ctx).

(** The addresses of the context and the blocks of the rule are byte lists; the domain rules
    are those the two domain matchers agree on (see [rule_ok]), and not too many. *)
Definition ctx_ok (ctx : RoutingData) : Prop := forall as_type, Forall ip_ok (ips_for as_type ctx).
Definition proto_ok (p : RoutingRule) : Prop :=
  Forall rule_ok (parsed_domains p) /\ 2 * zlen (parsed_domains p) < 2 ^ 32 /\
  rules_ok (converted_ips (pr_ip p)) /\ rules_ok (converted_ips (pr_source_ip p)) /\ rules_ok (converted_ips (pr_local_ip p)).

(** ** Each field adds its condition *)

Lemma chan_snoc ctx chan c : chan_apply os ctx (chan ++ [c]) = chan_apply os ctx chan && condition_apply os ctx c.
Proof. unfold chan_apply. rewrite forallb_app. cbn. by rewrite andb_true_r. Qed.

Lemma add_domain_says p chan chan' ctx : Z.of_nat fuel <= 2 ^ 32 -> proto_ok p ->
  add_domain to_uppercase fuel geo_loader (pr_domain p) chan = Some (Ok chan') ->
  chan_apply os ctx chan' = chan_apply os ctx chan && domain_says p ctx.
Proof.
  intros Hf (Hr & Hl & _). unfold add_domain, domain_says. unfold parsed_domains in *. destruct (bool_decide_reflect (pr_domain p = [])) as [->|Hne].
  { intros [= <-]. cbn. by rewrite andb_true_r. }
  destruct (parse_proto_domain_rules to_uppercase geo_loader (pr_domain p) []) as [[|d ds]|e]; [| |done].
  { intros [= <-]. cbn. by rewrite andb_true_r. }
  destruct (MphDomainMatcher_build fuel (d :: ds)) as [[m|e]|] eqn:Eb; [|done|done]. intros [= <-]. rewrite chan_snoc. f_equal.
  unfold field. rewrite bool_decide_false by done. cbn [orb condition_apply]. unfold domain_apply.
  destruct (bool_decide _); cbn [negb andb]; [done|]. by apply (mph_any_rules fuel).
Qed.

Lemma existsb_Forall_ext {A} (f g : A -> bool) l : Forall (fun x => f x = g x) l -> existsb f l = existsb g l.
Proof. apply existsb_ext'. Qed.

Lemma add_ip_says as_type l chan chan' ctx : rules_ok (converted_ips l) -> ctx_ok ctx ->
  add_ip to_uppercase geo_loader as_type l chan = Some (Ok chan') ->
  chan_apply os ctx chan' = chan_apply os ctx chan && ip_says as_type l ctx.
Proof.
  intros Hr Hctx. unfold add_ip, ip_says, field. unfold converted_ips in *. destruct (bool_decide_reflect (l = [])) as [->|Hne].
  { intros [= <-]. cbn. by rewrite andb_true_r. }
  destruct (convert_proto_ip_rules to_uppercase geo_loader l []) as [rs|e]; [|done].
  destruct (build_optimized_ip_matcher rs) as [m|e] eqn:Eb; [|done]. intros [= <-]. rewrite chan_snoc. f_equal. cbn [orb condition_apply].
  apply existsb_ext'. eapply Forall_impl; [apply Hctx|]. intros ip Hip. by apply built_match.
Qed.

Lemma add_port_says as_type pl chan ctx :
  chan_apply os ctx (add_port as_type pl chan) = chan_apply os ctx chan && port_says as_type pl ctx.
Proof.
  unfold add_port. destruct pl as [pl|]; [|by rewrite andb_true_r]. rewrite chan_snoc. f_equal.
  cbn [condition_apply port_says]. unfold MemoryPortList_contains, to_mem_port_list. cbn [MemoryPortList_ranges].
  induction pl as [|r pl IH]; [done|]. cbn [map existsb]. by rewrite IH.
Qed.

Lemma network_fold nets allowed n : length allowed = 8%nat ->
  fold_left (fun allowed n => <[ network_index n := true ]> allowed) nets allowed !!! network_index n
  = (allowed !!! network_index n) || bool_decide (n ∈ nets).
Proof.
  revert allowed. induction nets as [|x nets IH]; intros allowed Hl; cbn [fold_left].
  - rewrite bool_decide_false by apply not_elem_of_nil. by rewrite orb_false_r.
  - rewrite IH by by rewrite length_insert. destruct (decide (x = n)) as [->|Hx].
    + rewrite list_lookup_total_insert_eq by (rewrite Hl; destruct n; cbn; lia).
      rewrite (bool_decide_true (n ∈ n :: nets)) by by left. by rewrite orb_true_r.
    + rewrite list_lookup_total_insert_ne by (destruct x, n; done). f_equal. apply bool_decide_ext. rewrite elem_of_cons. naive_solver.
Qed.

Lemma add_networks_says networks chan ctx :
  chan_apply os ctx (add_networks networks chan) = chan_apply os ctx chan && network_says networks ctx.
Proof.
  unfold add_networks, network_says, field. destruct (omap proto_network_to_native networks) as [|n nets] eqn:E; [by rewrite andb_true_r|].
  rewrite chan_snoc. f_equal. rewrite bool_decide_false by done. cbn [orb condition_apply NetworkMatcher_new].
  unfold NetworkMatcher_new. cbn [condition_apply]. rewrite network_fold by done. by destruct (network ctx).
Qed.

Lemma add_some_says {A} (l : list A) c b chan ctx : (l <> [] -> condition_apply os ctx c = b) ->
  chan_apply os ctx (add_some l c chan) = chan_apply os ctx chan && field l b.
Proof.
  intros Hc. destruct l as [|x l]; cbn [add_some]; unfold field.
  - by rewrite bool_decide_true, andb_true_r.
  - rewrite chan_snoc, Hc, bool_decide_false; done.
Qed.

Lemma user_patterns_says u emails :
  existsb (fun p => match p with UserLiteral s => bool_decide (u = s) | UserRegex r => is_match r u end) (user_patterns emails)
  = existsb (user_entry_says u) emails.
Proof.
  induction emails as [|e emails IH]; [done|]. cbn [user_patterns existsb]. unfold user_entry_says at 1.
  destruct (bool_decide_reflect (e = [])) as [->|He]; cbn [negb andb orb]; [done|].
  destruct (if 7 <? zlen e then _ else _) as [rest|]; cbn [existsb]; [|by rewrite IH].
  destruct (Regex_new rest); cbn [existsb]; by rewrite IH.
Qed.

Lemma user_apply_says emails ctx : user_apply (user_patterns emails) ctx
  = negb (bool_decide (user ctx = [])) && existsb (user_entry_says (user ctx)) emails.
Proof. unfold user_apply. rewrite user_patterns_says. by destruct (bool_decide _). Qed.

Lemma attribute_apply_spec patterns ctx : attribute_apply patterns ctx = true <->
  forall k re, patterns !! k = Some re -> attribute_ok (attributes ctx) k re = true.
Proof.
  unfold attribute_apply. rewrite forallb_forall. split.
  - intros Hp k re Hk. apply (Hp (k, re)). rewrite <- list_elem_of_In. by apply elem_of_map_to_list.
  - intros Hp [k re] Hk. rewrite <- list_elem_of_In in Hk. apply elem_of_map_to_list in Hk. by apply Hp.
Qed.

Lemma attribute_patterns_spec attrs patterns patterns' ctx : attribute_patterns attrs patterns = Ok patterns' ->
  attribute_apply patterns' ctx = true <->
  attributes_say attrs ctx = true /\
  forall k re, patterns !! k = Some re -> folds_to k attrs = false -> attribute_ok (attributes ctx) k re = true.
Proof.
  revert patterns. induction attrs as [|[a v] attrs IH]; intros patterns; cbn [attribute_patterns attributes_say].
  - intros [= <-]. rewrite attribute_apply_spec. naive_solver.
  - unfold attribute_entry_says. destruct (Regex_new v) as [re|e]; cbn; [|done]. intros E. rewrite (IH _ E), andb_true_iff, orb_true_iff.
    assert (Hf : forall k, folds_to k ((a, v) :: attrs) = bool_decide (to_lowercase a = k) || folds_to k attrs) by done. setoid_rewrite Hf. split.
    + intros [Hs Hm]. split_and!; [|done|].
      * destruct (folds_to (to_lowercase a) attrs) eqn:Ef; [by left|right]. apply (Hm (to_lowercase a) re); [by rewrite lookup_insert_eq|done].
      * intros k r Hk [Ha Ef]%orb_false_iff. apply bool_decide_eq_false in Ha. apply (Hm k r); [by rewrite lookup_insert_ne|done].
    + intros [[Ho Hs] Hm]. split; [done|]. intros k r [[<- <-]|[Hk Hr]]%lookup_insert_Some Ef.
      * destruct Ho as [Ho|Ho]; [by rewrite Ho in Ef|done].
      * apply (Hm k r); [done|]. rewrite Ef, bool_decide_false; done.
Qed.

Lemma add_attributes_says attrs chan chan' ctx : add_attributes attrs chan = Some (Ok chan') ->
  chan_apply os ctx chan' = chan_apply os ctx chan && attributes_say attrs ctx.
Proof.
  unfold add_attributes. destruct attrs as [|a attrs]; [intros [= <-]; cbn; by rewrite andb_true_r|].
  destruct (attribute_patterns (a :: attrs) ∅) as [ps|e] eqn:E; [|done]. intros [= <-]. rewrite chan_snoc. f_equal. cbn [condition_apply].
  apply eq_true_iff_eq. rewrite (attribute_patterns_spec _ _ _ ctx E). split; [by intros [? _]|]. intros Hs. split; [done|].
  intros k re. by rewrite lookup_empty.
Qed.

Lemma then_ok {A B} (m : outcome A) (k : A -> outcome B) b : then_outcome m k = Some (Ok b) -> exists a, m = Some (Ok a) /\ k a = Some (Ok b).
Proof. destruct m as [[a|e]|]; cbn; [by eauto|done|done]. Qed.

Lemma existsb_elem (x : bytes) l : existsb (fun t => bool_decide (t = x)) l = bool_decide (x ∈ l).
Proof.
  induction l as [|y l IH]; cbn [existsb]; [by rewrite bool_decide_false by apply not_elem_of_nil|].
  rewrite IH. destruct (bool_decide_reflect (y = x)) as [->|Hy]; cbn [orb].
  - by rewrite bool_decide_true by by left.
  - apply bool_decide_ext. rewrite elem_of_cons. naive_solver.
Qed.

(** The condition built from a rule holds exactly for the contexts the rule speaks of. *)
Lemma build_condition_says p chan ctx : Z.of_nat fuel <= 2 ^ 32 -> proto_ok p -> ctx_ok ctx ->
  build_condition to_uppercase fuel os geo_loader p = Some (Ok chan) ->
  chan_apply os ctx chan = rule_says p ctx.
Proof.
  intros Hf Hp Hctx. pose proof Hp as (_ & _ & Ht & Hs & Hl). unfold build_condition.
  intros (c1 & E1 & (c2 & E2 & (c3 & E3 & (c4 & E4 & (c5 & E5 & E6)%then_ok)%then_ok)%then_ok)%then_ok)%then_ok.
  apply (add_domain_says _ _ _ ctx Hf Hp) in E1. apply (add_ip_says _ _ _ _ ctx Ht Hctx) in E2.
  apply (add_ip_says _ _ _ _ ctx Hs Hctx) in E3. apply (add_ip_says _ _ _ _ ctx Hl Hctx) in E4.
  apply (add_attributes_says _ _ _ ctx) in E5. destruct (add_some (pr_process p) _ c5) as [|c cs] eqn:Ec; [done|]. injection E6 as <-. rewrite <- Ec.
  rewrite (add_some_says (pr_process p) _ (process_apply os (ProcessNameMatcher_new os (pr_process p)) ctx)), E5 by done.
  rewrite (add_some_says (pr_protocol p) _ (existsb (starts_with (protocol ctx)) (pr_protocol p))) by done.
  rewrite (add_some_says (pr_inbound_tag p) _ (bool_decide (inbound_tag ctx ∈ pr_inbound_tag p))) by (intros _; apply existsb_elem).
  rewrite (add_some_says (pr_user_email p) _ (negb (bool_decide (user ctx = [])) && existsb (user_entry_says (user ctx)) (pr_user_email p)))
    by (intros _; apply user_apply_says).
  rewrite add_networks_says, !add_port_says, E4, E3, E2, E1.
  by rewrite (add_some_says (pr_local_os p) _ (existsb (fun n => eq_ignore_ascii_case n (OS os)) (pr_local_os p))) by done.
Qed.
End conditions.

(** ** The router against its list of rules *)

Section router.
Context `{RX : RegexOps} `{TX : StdText} (to_uppercase : bytes -> bytes) (fuel : nat) (os : Os).

(** The outbound of a rule: its tag, or what its balancer picks. *)
Definition rule_target (finish : HashInput -> Z) (env : Env) (balancers : gmap bytes nat) (p : RoutingRule) (ctx : RoutingData)
    (store : list Balancer) : result RouterError bytes * list Balancer :=
  match pr_target_tag p with
  | None => (Ok [], store)
  | Some (TTag s) => (Ok s, store)
  | Some (TBalancingTag s) =>
      match balancers !! s ≫= (fun i => pair i <$> store !! i) with
      | Some (i, b) =>
          let '(r, b) := pick_outbound_with_key env (finish (ctx_hash_input ctx)) b in
          (r, <[ i := b ]> store)
      | None => (Ok [], store)
      end
  end.

(** The first rule that speaks of the context and whose outbound can be told. *)
Fixpoint first_rule (geo_loader : option GeoDataLoader) (finish : HashInput -> Z) (env : Env) (balancers : gmap bytes nat)
    (ps : list RoutingRule) (ctx : RoutingData) (store : list Balancer) : result RouterError Route * list Balancer * list WebhookEvent :=
  match ps with
  | [] => (Err NoClue, store, [])
  | p :: ps =>
      if rule_says to_uppercase os geo_loader p ctx then
        match rule_target finish env balancers p ctx store with
        | (Ok t, store) => (Ok (mkRoute t (pr_rule_tag p)), store, if pr_webhook p then [(t, pr_rule_tag p)] else [])
        | (Err _, store) => first_rule geo_loader finish env balancers ps ctx store
        end
      else first_rule geo_loader finish env balancers ps ctx store
  end.

(** A rule of the table and the message it was built from. *)
Definition built (balancers : gmap bytes nat) (geo_loader : option GeoDataLoader) (p : RoutingRule) (rule : Rule) : Prop :=
  build_rule os to_uppercase fuel balancers geo_loader p = Some (Ok rule).

Lemma built_fields balancers geo_loader p rule : built balancers geo_loader p rule ->
  exists cond, build_condition to_uppercase fuel os geo_loader p = Some (Ok cond) /\ rl_condition rule = Some cond /\
    rl_rule_tag rule = pr_rule_tag p /\ rl_webhook rule = pr_webhook p /\
    match pr_target_tag p with
    | None => rl_tag rule = [] /\ rl_balancer rule = None
    | Some (TTag s) => rl_tag rule = s /\ rl_balancer rule = None
    | Some (TBalancingTag s) => exists i, balancers !! s = Some i /\ rl_balancer rule = Some i /\ rl_tag rule = []
    end.
Proof.
  unfold built, build_rule. intros (cond & Ec & E)%then_ok. exists cond. split; [done|]. cbn zeta in E.
  destruct (pr_target_tag p) as [[s|s]|]; [by injection E as <-| |by injection E as <-].
  destruct (balancers !! s) as [i|] eqn:Ei; [|done]. injection E as <-. split_and!; try done. by exists i.
Qed.

Lemma rule_apply_says balancers geo_loader finish env p rule ctx store :
  Z.of_nat fuel <= 2 ^ 32 -> proto_ok to_uppercase geo_loader p -> ctx_ok ctx -> built balancers geo_loader p rule ->
  Rule_apply finish os env rule ctx store =
    if rule_says to_uppercase os geo_loader p ctx then
      match rule_target finish env balancers p ctx store with
      | (Ok t, store) => (Some t, store, if pr_webhook p then [(t, pr_rule_tag p)] else [])
      | (Err _, store) => (None, store, [])
      end
    else (None, store, []).
Proof.
  intros Hf Hp Hctx (cond & Ec & E1 & E2 & E3 & E4)%built_fields. unfold Rule_apply. rewrite E1.
  rewrite (build_condition_says to_uppercase fuel os geo_loader p cond ctx) by done. cbn zeta.
  destruct (rule_says to_uppercase os geo_loader p ctx); cbn [negb]; [|done]. unfold get_tag_with_ctx, rule_target. rewrite E2, E3.
  destruct (pr_target_tag p) as [[s|s]|].
  - destruct E4 as [-> ->]. done.
  - destruct E4 as (i & -> & -> & ->). cbn. destruct (store !! i) as [b|]; [|done]. cbn. unfold ctx_hash_key.
    by destruct (pick_outbound_with_key env (finish (ctx_hash_input ctx)) b) as [[t|e] b'].
  - destruct E4 as [-> ->]. done.
Qed.

Lemma pick_loop_first balancers geo_loader finish env ps rules ctx store :
  Z.of_nat fuel <= 2 ^ 32 -> Forall (proto_ok to_uppercase geo_loader) ps -> ctx_ok ctx -> Forall2 (built balancers geo_loader) ps rules ->
  pick_loop finish os env rules ctx store = first_rule geo_loader finish env balancers ps ctx store.
Proof.
  intros Hf Hps Hctx Hb. revert store. induction Hb as [|p rule ps rules Hp Hb IH]; intros store; [done|].
  apply Forall_cons in Hps as [Hpo Hps]. cbn [pick_loop first_rule]. rewrite (rule_apply_says balancers geo_loader finish env p rule ctx store) by done.
  destruct (rule_says to_uppercase os geo_loader p ctx); [|by apply IH].
  apply built_fields in Hp as (_ & _ & _ & E2 & _). destruct (rule_target finish env balancers p ctx store) as [[t|e] store']; [by rewrite E2|by apply IH].
Qed.

(** *** The table over time *)

Definition tagged (tags : list bytes) : list bytes := List.filter (fun t => negb (bool_decide (t = []))) tags.

(** Routers with the messages their rules come from.  A failed operation is no step: it
    leaves the router as it was. *)
Inductive router_reach : Router -> list RoutingRule -> Prop :=
| RrInit decode observer geo_loader cfg r :
    Router_init os to_uppercase fuel decode observer geo_loader cfg = Some (Ok r) -> router_reach r (cf_rule cfg)
| RrAdd r ps tag p r' : router_reach r ps -> add_rule os to_uppercase fuel tag p r = Some (Ok tt, r') ->
    router_reach r' (ps ++ [set_proto_rule_tag tag p])
| RrRemove r ps tag r' : router_reach r ps -> remove_rule tag r = (Ok tt, r') ->
    router_reach r' (List.filter (fun p => negb (bool_decide (pr_rule_tag p = tag))) ps)
| RrReload r ps ps' r' : router_reach r ps -> reload_rules os to_uppercase fuel ps' r = Some (Ok tt, r') -> router_reach r' ps'
| RrOverride r ps tag target r' : router_reach r ps -> override_balancer tag target r = (Ok tt, r') -> router_reach r' ps
| RrPick r ps finish env ctx res r' ev : router_reach r ps -> pick_route finish os env ctx r = (res, r', ev) -> router_reach r' ps.

(** What every router satisfies. *)
Record router_ok (r : Router) (ps : list RoutingRule) : Prop := {
  rk_built : Forall2 (built (ro_balancers r) (ro_geo_loader r)) ps (ro_rules r);
  rk_tags : NoDup (tagged (map pr_rule_tag ps));
  rk_store : forall tag i, ro_balancers r !! tag = Some i -> (i < length (ro_store r))%nat;
  rk_distinct : forall tag tag' i, ro_balancers r !! tag = Some i -> ro_balancers r !! tag' = Some i -> tag = tag'
}.

Lemma built_tags balancers geo_loader ps rules : Forall2 (built balancers geo_loader) ps rules -> map rl_rule_tag rules = map pr_rule_tag ps.
Proof.
  induction 1 as [|p rule ps rules Hp _ IH]; cbn; [done|]. rewrite IH. by apply built_fields in Hp as (_ & _ & _ & -> & _).
Qed.

Lemma tagged_snoc tags t : tagged (tags ++ [t]) = tagged tags ++ tagged [t].
Proof. apply List.filter_app. Qed.

Lemma elem_of_tagged t tags : t ∈ tagged tags <-> t ∈ tags /\ t <> [].
Proof.
  unfold tagged. rewrite !list_elem_of_In, List.filter_In. destruct (bool_decide_reflect (t = [])); naive_solver.
Qed.

Lemma build_rules_spec balancers geo_loader todo : forall (seen : gset bytes) done rules rules',
  Forall2 (built balancers geo_loader) done rules -> NoDup (tagged (map pr_rule_tag done)) ->
  (forall t, t ∈ seen <-> t ∈ tagged (map pr_rule_tag done)) ->
  build_rules os to_uppercase fuel balancers geo_loader todo seen rules = Some (Ok rules') ->
  Forall2 (built balancers geo_loader) (done ++ todo) rules' /\ NoDup (tagged (map pr_rule_tag (done ++ todo))).
Proof.
  induction todo as [|p todo IH]; intros seen ps rules rules' Hb Hnd Hseen; cbn [build_rules].
  - intros [= <-]. by rewrite app_nil_r.
  - intros (rule & Er & E)%then_ok. pose proof (built_fields _ _ _ _ Er) as (_ & _ & _ & Et & _).
    assert (Hb' : Forall2 (built balancers geo_loader) (ps ++ [p]) (rules ++ [rule])) by (apply Forall2_app; [done|by constructor]).
    change (p :: todo) with ([p] ++ todo). rewrite app_assoc. rewrite Et in E. destruct (bool_decide_reflect (pr_rule_tag p = [])) as [E0|E0].
    + eapply (IH seen); [exact Hb'| | |exact E]; rewrite map_app; cbn [map]; rewrite tagged_snoc, E0; cbn; by rewrite app_nil_r.
    + destruct (bool_decide_reflect (pr_rule_tag p ∈ seen)) as [Hin|Hin]; [done|].
      assert (Ht1 : tagged [pr_rule_tag p] = [pr_rule_tag p]) by (unfold tagged; cbn; by rewrite bool_decide_false).
      eapply (IH _); [exact Hb'| | |exact E]; rewrite map_app; cbn [map]; rewrite tagged_snoc, Ht1.
      * apply NoDup_app. split_and!; [done| |by apply NoDup_singleton]. intros t Ht ->%list_elem_of_singleton. by apply Hin, Hseen.
      * intros t. rewrite elem_of_union, elem_of_singleton, Hseen, elem_of_app, list_elem_of_singleton. tauto.
Qed.

Lemma build_balancers_spec decode observer brs : forall balancers store balancers' store',
  (forall tag i, balancers !! tag = Some i -> (i < length store)%nat) ->
  (forall tag tag' i, balancers !! tag = Some i -> balancers !! tag' = Some i -> tag = tag') ->
  build_balancers decode observer brs balancers store = Ok (balancers', store') ->
  (forall tag i, balancers' !! tag = Some i -> (i < length store')%nat) /\
  (forall tag tag' i, balancers' !! tag = Some i -> balancers' !! tag' = Some i -> tag = tag').
Proof.
  induction brs as [|br brs IH]; intros balancers store balancers' store' Hs Hd; cbn [build_balancers].
  - by intros [= <- <-].
  - destruct (build_balancer decode br observer) as [b|e]; cbn; [|done]. destruct (balancers !! br_tag br) eqn:En; [done|].
    apply IH.
    + intros tag i. rewrite length_app. cbn. intros [[_ <-]|[_ Hi]]%lookup_insert_Some; [lia|]. specialize (Hs _ _ Hi). lia.
    + intros tag tag' i [[<- <-]|[Hn Hi]]%lookup_insert_Some [[<- E]|[Hn' Hi']]%lookup_insert_Some; [done| |subst i|by eauto].
      * specialize (Hs _ _ Hi'). lia.
      * specialize (Hs _ _ Hi). lia.
Qed.

Lemma Forall2_filter_tags balancers geo_loader tag ps rules : Forall2 (built balancers geo_loader) ps rules ->
  Forall2 (built balancers geo_loader) (List.filter (fun p => negb (bool_decide (pr_rule_tag p = tag))) ps)
    (List.filter (fun rule => negb (bool_decide (rl_rule_tag rule = tag))) rules).
Proof.
  induction 1 as [|p rule ps rules Hp _ IH]; [constructor|]. cbn [List.filter]. pose proof (built_fields _ _ _ _ Hp) as (_ & _ & _ & -> & _).
  destruct (negb _); [by constructor|done].
Qed.

Lemma map_filter_tag tag ps : map pr_rule_tag (List.filter (fun p => negb (bool_decide (pr_rule_tag p = tag))) ps)
  = List.filter (fun t => negb (bool_decide (t = tag))) (map pr_rule_tag ps).
Proof. induction ps as [|p ps IH]; cbn; [done|]. destruct (negb _); cbn; by rewrite IH. Qed.

Lemma filter_comm {A} (f g : A -> bool) l : List.filter f (List.filter g l) = List.filter g (List.filter f l).
Proof. induction l as [|x l IH]; cbn; [done|]. destruct (f x) eqn:Ef, (g x) eqn:Eg; cbn; rewrite ?Ef, ?Eg, IH; done. Qed.

Lemma pick_loop_store finish env rules ctx store : length (pick_loop finish os env rules ctx store).1.2 = length store.
Proof.
  revert store. induction rules as [|rule rules IH]; intros store; [done|]. cbn [pick_loop].
  assert (Ha : length (Rule_apply finish os env rule ctx store).1.2 = length store).
  { unfold Rule_apply. destruct (negb _); [done|]. unfold get_tag_with_ctx. destruct (rl_balancer rule) as [i|]; [|done].
    destruct (store !! i) as [b|]; [|done]. destruct (pick_outbound_with_key _ _ b) as [[t|e] b']; cbn; by rewrite length_insert. }
  destruct (Rule_apply finish os env rule ctx store) as [[[t|] store'] ev]; cbn in Ha |- *; [done|]. by rewrite IH.
Qed.

Lemma has_rule_tag_spec tag rules : has_rule_tag tag rules = bool_decide (tag ∈ map rl_rule_tag rules).
Proof.
  unfold has_rule_tag. induction rules as [|r rules IH]; cbn; [by rewrite bool_decide_false by apply not_elem_of_nil|].
  rewrite IH. destruct (bool_decide_reflect (rl_rule_tag r = tag)) as [->|Hn]; cbn; [by rewrite bool_decide_true by by left|].
  apply bool_decide_ext. rewrite elem_of_cons. naive_solver.
Qed.

Lemma add_rule_ok tag p r r' : add_rule os to_uppercase fuel tag p r = Some (Ok tt, r') ->
  exists rule, built (ro_balancers r) (ro_geo_loader r) (set_proto_rule_tag tag p) rule /\ tag <> [] /\ tag ∉ list_rules r /\
    r' = set_rules_list (ro_rules r ++ [rule]) r.
Proof.
  unfold add_rule, list_rules. destruct (bool_decide_reflect (tag = [])) as [|Ht]; [done|]. rewrite has_rule_tag_spec.
  destruct (bool_decide_reflect (tag ∈ map rl_rule_tag (ro_rules r))) as [|Hn]; [done|].
  destruct (build_rule _ _ _ _ _ _) as [[rule|e]|] eqn:E; [|done|done]. intros [= <-]. by exists rule.
Qed.

Lemma remove_rule_ok tag r r' : remove_rule tag r = (Ok tt, r') ->
  tag <> [] /\ r' = set_rules_list (List.filter (fun rule => negb (bool_decide (rl_rule_tag rule = tag))) (ro_rules r)) r.
Proof.
  unfold remove_rule. destruct (bool_decide_reflect (tag = [])); [done|]. cbn zeta. destruct (bool_decide _); [done|]. by intros [= <-].
Qed.

Lemma reload_rules_ok ps r r' : reload_rules os to_uppercase fuel ps r = Some (Ok tt, r') ->
  exists rules, build_rules os to_uppercase fuel (ro_balancers r) (ro_geo_loader r) ps ∅ [] = Some (Ok rules) /\ r' = set_rules_list rules r.
Proof.
  unfold reload_rules. destruct (build_rules _ _ _ _ _ _ _ _) as [[rules|e]|] eqn:E; [|done|done]. intros [= <-]. by exists rules.
Qed.

Lemma router_reach_ok r ps : router_reach r ps -> router_ok r ps.
Proof.
  induction 1 as [decode observer geo_loader cfg r Hi|r ps tag p r' _ IH Ha|r ps tag r' _ IH Hr|r ps ps' r' _ IH Hr|r ps tag target r' _ IH Ho|r ps finish env ctx res r' ev _ IH Hp].
  - unfold Router_init in Hi. destruct (build_balancers decode observer (cf_balancing_rule cfg) ∅ []) as [[balancers store]|e] eqn:Eb; [|done].
    apply then_ok in Hi as (rules & Er & [= <-]). destruct (build_rules_spec balancers geo_loader (cf_rule cfg) ∅ [] [] rules) as [H1 H2]; [constructor|constructor| |done|].
    + intros t. cbn. split; [by intros ?%not_elem_of_empty|by intros ?%not_elem_of_nil].
    + destruct (build_balancers_spec decode observer (cf_balancing_rule cfg) ∅ [] balancers store) as [H3 H4]; [by intros ? ?; rewrite lookup_empty..|done|]. by constructor.
  - apply add_rule_ok in Ha as (rule & Hb & Ht & Hn & ->). destruct IH as [H1 H2 H3 H4]. constructor; cbn; [|..|done|done].
    + apply Forall2_app; [done|by constructor].
    + rewrite map_app. cbn [map]. rewrite tagged_snoc. apply NoDup_app. split_and!; [done| |].
      * intros t [Hin _]%elem_of_tagged. unfold list_rules in Hn. rewrite (built_tags _ _ _ _ H1) in Hn. intros [->%list_elem_of_singleton _]%elem_of_tagged. done.
      * unfold tagged. cbn. rewrite bool_decide_false by done. apply NoDup_singleton.
  - apply remove_rule_ok in Hr as [Ht ->]. destruct IH as [H1 H2 H3 H4]. constructor; cbn; [by apply Forall2_filter_tags| |done|done].
    rewrite map_filter_tag. unfold tagged in *. rewrite filter_comm. apply NoDup_ListNoDup. apply List.NoDup_filter. by apply NoDup_ListNoDup.
  - apply reload_rules_ok in Hr as (rules & Er & ->). destruct IH as [_ _ H3 H4].
    destruct (build_rules_spec (ro_balancers r) (ro_geo_loader r) ps' ∅ [] [] rules) as [H1 H2]; [constructor|constructor| |done|].
    + intros t. cbn. split; [by intros ?%not_elem_of_empty|by intros ?%not_elem_of_nil].
    + by constructor.
  - unfold override_balancer in Ho. destruct (ro_balancers r !! tag) as [i|]; [|done]. injection Ho as <-. destruct IH as [H1 H2 H3 H4].
    constructor; cbn; [done|done| |done]. intros t j Hj. rewrite length_alter. by apply (H3 t).
  - unfold pick_route in Hp. pose proof (pick_loop_store finish env (ro_rules r) ctx (ro_store r)) as Hl.
    destruct (pick_loop finish os env (ro_rules r) ctx (ro_store r)) as [[x store] ev']. injection Hp as _ <- _. destruct IH as [H1 H2 H3 H4].
    constructor; cbn; [done|done| |done]. intros t j Hj. cbn in Hl. rewrite Hl. by apply (H3 t).
Qed.


Lemma filter_length_same {A} (f : A -> bool) l : length (List.filter f l) = length l -> List.filter f l = l.
Proof.
  induction l as [|x l IH]; cbn; [done|]. destruct (f x); cbn; intros E; [by rewrite IH by lia|].
  pose proof (List.filter_length_le f l). lia.
Qed.

Lemma filter_no_tag tag rules : tag ∉ map rl_rule_tag rules <->
  length (List.filter (fun rule => negb (bool_decide (rl_rule_tag rule = tag))) rules) = length rules.
Proof.
  induction rules as [|r rules IH]; cbn [map List.filter length]; [split; [done|by intros _ ?%not_elem_of_nil]|].
  rewrite not_elem_of_cons. destruct (bool_decide_reflect (rl_rule_tag r = tag)) as [E|E]; cbn [negb length].
  - split; [by intros [? _]|]. pose proof (List.filter_length_le (fun rule => negb (bool_decide (rl_rule_tag rule = tag))) rules). lia.
  - rewrite IH. split; [intros [_ ?]; lia|]. intros [=]. done.
Qed.

Lemma add_rule_spec tag p r :
  match add_rule os to_uppercase fuel tag p r with
  | Some (Ok _, r') => tag <> [] /\ tag ∉ list_rules r /\ list_rules r' = list_rules r ++ [tag]
  | Some (Err e, r') => r' = r /\ (tag = [] -> e = EmptyTagName) /\ (tag <> [] -> tag ∈ list_rules r -> e = DuplicateRuleTag tag)
  | None => tag <> [] /\ tag ∉ list_rules r
  end.
Proof.
  destruct (add_rule os to_uppercase fuel tag p r) as [[[[]|e] r']|] eqn:E.
  + apply add_rule_ok in E as (rule & (_ & _ & _ & Er & _)%built_fields & H1 & H2 & ->). split_and!; [done|done|].
    unfold list_rules, set_rules_list. cbn. rewrite map_app. cbn. by rewrite Er.
  + revert E. unfold add_rule. rewrite has_rule_tag_spec. fold (list_rules r). destruct (bool_decide_reflect (tag = [])) as [H1|H1].
    * intros [= <- <-]. done.
    * destruct (bool_decide_reflect (tag ∈ list_rules r)) as [H2|H2]; [by intros [= <- <-]|].
      destruct (build_rule _ _ _ _ _ _) as [[rule|e']|]; [done| |done]. intros [= _ <-]. done.
  + revert E. unfold add_rule. rewrite has_rule_tag_spec. fold (list_rules r). destruct (bool_decide_reflect (tag = [])); [done|].
    by destruct (bool_decide_reflect (tag ∈ list_rules r)).
Qed.

Lemma remove_rule_spec tag r :
  match remove_rule tag r with
  | (Ok _, r') => tag <> [] /\ tag ∈ list_rules r /\ list_rules r' = List.filter (fun t => negb (bool_decide (t = tag))) (list_rules r)
  | (Err e, r') => r' = r /\ (tag = [] /\ e = EmptyTagName \/ tag ∉ list_rules r /\ e = TagNotFound)
  end.
Proof.
  unfold remove_rule. destruct (bool_decide_reflect (tag = [])) as [H1|H1]; [by split; [|left]|]. cbn zeta.
  destruct (bool_decide_reflect (length (List.filter (fun rule => negb (bool_decide (rl_rule_tag rule = tag))) (ro_rules r)) = length (ro_rules r))) as [H2|H2].
  + split; [rewrite filter_length_same by done; by destruct r|right]. split; [by apply filter_no_tag|done].
  + split_and!; [done| |].
    * destruct (decide (tag ∈ list_rules r)) as [|Hn]; [done|]. by apply filter_no_tag in Hn.
    * unfold list_rules. cbn. clear. induction (ro_rules r) as [|q rules IH]; cbn; [done|]. destruct (negb _); cbn; by rewrite IH.
Qed.

(** C13: the rule table is well formed and its operations keep it so.  The tags listed are those
    of the messages in order, no tag that is not empty occurs twice, every rule's balancer
    exists, and two balancer tags never name one balancer.  An operation that fails leaves
    the router as it was; adding fails on an empty or a known tag, and otherwise appends one
    rule under that tag; removing succeeds exactly on a tag in use and takes all its rules
    out; a reload replaces the whole table or nothing; an override reaches the balancer of
    its tag and no other. *)
Theorem router_table r ps tag p : router_reach r ps ->
  (list_rules r = map pr_rule_tag ps /\ NoDup (tagged (list_rules r)) /\
   Forall (fun rule => forall i, rl_balancer rule = Some i -> (i < length (ro_store r))%nat) (ro_rules r)) /\
  match add_rule os to_uppercase fuel tag p r with
  | Some (Ok _, r') => tag <> [] /\ tag ∉ list_rules r /\ list_rules r' = list_rules r ++ [tag]
  | Some (Err e, r') => r' = r /\ (tag = [] -> e = EmptyTagName) /\ (tag <> [] -> tag ∈ list_rules r -> e = DuplicateRuleTag tag)
  | None => tag <> [] /\ tag ∉ list_rules r
  end /\
  match remove_rule tag r with
  | (Ok _, r') => tag <> [] /\ tag ∈ list_rules r /\ list_rules r' = List.filter (fun t => negb (bool_decide (t = tag))) (list_rules r)
  | (Err e, r') => r' = r /\ (tag = [] /\ e = EmptyTagName \/ tag ∉ list_rules r /\ e = TagNotFound)
  end /\
  (forall ps', match reload_rules os to_uppercase fuel ps' r with
   | Some (Ok _, r') => list_rules r' = map pr_rule_tag ps' /\ NoDup (tagged (map pr_rule_tag ps'))
   | Some (Err _, r') => r' = r
   | None => True
   end) /\
  (forall target other i j, ro_balancers r !! tag = Some i -> ro_balancers r !! other = Some j ->
   ro_store (override_balancer tag target r).2 !! j =
     (if bool_decide (other = tag) then set_override_target target else id) <$> ro_store r !! j).
Proof.
  intros Hreach. pose proof (router_reach_ok r ps Hreach) as [Hb Ht Hs Hd].
  assert (Hl : list_rules r = map pr_rule_tag ps) by (by apply (built_tags (ro_balancers r) (ro_geo_loader r))).
  split_and!; [done|by rewrite Hl| | | | |].
  - clear - Hb Hs. induction Hb as [|q rule qs rules Hq _ IH]; constructor; [|done]. intros i Hi.
    apply built_fields in Hq as (_ & _ & _ & _ & _ & Hq). destruct (pr_target_tag q) as [[s|s]|]; [by destruct Hq; congruence| |by destruct Hq; congruence].
    destruct Hq as (k & Hk & E & _). apply (Hs s). congruence.
  - apply add_rule_spec.
  - apply remove_rule_spec.
  - intros ps'. destruct (reload_rules os to_uppercase fuel ps' r) as [[[[]|e] r']|] eqn:E; [| |done].
    + pose proof (router_reach_ok r' ps' (RrReload _ _ _ _ Hreach E)) as [Hb' Ht' _ _]. split; [by apply (built_tags (ro_balancers r') (ro_geo_loader r'))|done].
    + revert E. unfold reload_rules. destruct (build_rules _ _ _ _ _ _ _ _) as [[rules|e']|]; [done| |done]. by intros [= _ <-].
  - intros target other i j Hi Hj. unfold override_balancer. rewrite Hi. cbn. destruct (bool_decide_reflect (other = tag)) as [->|Hn].
    + assert (i = j) as -> by congruence. by rewrite list_lookup_alter_eq.
    + rewrite list_lookup_alter_ne by (intros ->; by apply Hn, (Hd _ _ j)). by destruct (ro_store r !! j).
Qed.
End router.
