(* ===== verification/AsyncIo.v ===== *)
(** What the async components take from tokio: a stream as the list of what its reads will
    find, [read_exact] with a record of what was read, steps of a handshake over it with
    the rules their theorems use, and what the polls of a writer will answer. *)
From Stdlib Require Import List.
From stdpp Require Import base tactics option list numbers.
From S2P Require Import Prelude Bytes.

(** * Reading *)

Inductive ReadEvent : Type :=
| Data (bs : bytes)
| IoFailure
| Silence.

Inductive ReadFailure : Type := UnexpectedEof | ReadError | TimedOut.

(** The bytes a stream still holds. *)
Definition event_bytes (e : ReadEvent) : bytes := match e with Data bs => bs | _ => [] end.
Definition stream_bytes (evs : list ReadEvent) : bytes := concat (map event_bytes evs).

Record RecordingStream : Type := mkRecording { rs_inner : list ReadEvent; rs_buf : bytes }.

Definition RecordingStream_new (inner : list ReadEvent) : RecordingStream := mkRecording inner [].

(** [read_exact] over [RecordingStream::poll_read]: every read takes what the stream has,
    up to the room left, and records it; a read of no bytes is the end. *)
Fixpoint read_exact_events (n : Z) (got : bytes) (inner : list ReadEvent) (buf : bytes) : (result ReadFailure bytes) * RecordingStream :=
  if zlen got <? n then
    match inner with
    | [] => (Err UnexpectedEof, mkRecording [] buf)
    | Data [] :: inner => (Err UnexpectedEof, mkRecording inner buf)
    | Data bs :: inner =>
        let room := n - zlen got in
        if zlen bs <=? room then read_exact_events n (got ++ bs) inner (buf ++ bs)
        else (Ok (got ++ ztake room bs), mkRecording (Data (zdrop room bs) :: inner) (buf ++ ztake room bs))
    | IoFailure :: inner => (Err ReadError, mkRecording inner buf)
    | Silence :: inner => (Err TimedOut, mkRecording inner buf)
    end
  else (Ok got, mkRecording inner buf).

(** A step of the handshake: a result and the stream after it. *)
Definition Step (X A : Type) : Type := RecordingStream -> result X A * RecordingStream.

#[export] Instance step_ret {X} : MRet (Step X) := fun A a s => (Ok a, s).
#[export] Instance step_bind {X} : MBind (Step X) :=
  fun A B f m s => match m s with (Ok a, s) => f a s | (Err e, s) => (Err e, s) end.

Definition hs_fail {X A} (e : X) : Step X A := fun s => (Err e, s).
Definition hs_ok_or {X A} (e : X) (x : option A) : Step X A := match x with Some a => mret a | None => hs_fail e end.

(** [read_exact(..).await.map_err(e)] *)
Definition read_exact_or {X} (e : ReadFailure -> X) (n : Z) : Step X bytes := fun s =>
  match read_exact_events n [] (rs_inner s) (rs_buf s) with
  | (Ok bs, s) => (Ok bs, s)
  | (Err f, s) => (Err (e f), s)
  end.

(** * Writing *)

Inductive WritePoll : Type := WriteReady (n : Z) | WritePending | WriteFailed.

Inductive Poll (A : Type) : Type := Ready (a : A) | Pending | PollErr.
Arguments Ready {A} a.
Arguments Pending {A}.
Arguments PollErr {A}.

(** The inner writer: its answers to come and what it has taken. *)
Record WriteHalf : Type := mkWriteHalf { wh_polls : list WritePoll; wh_wire : bytes }.

(** [poll_read] of a stream with [room] left in the reader's buffer. *)
Definition poll_stream (room : Z) (evs : list ReadEvent) : Poll bytes * list ReadEvent :=
  match evs with
  | [] => (Ready [], [])
  | Data bs :: evs => if zlen bs <=? room then (Ready bs, evs) else (Ready (ztake room bs), Data (zdrop room bs) :: evs)
  | IoFailure :: evs => (PollErr, evs)
  | Silence :: evs => (Pending, evs)
  end.

(** * Reading exactly *)

(** Bytes keep coming: no error, no silence, no early end. *)
Definition flows (evs : list ReadEvent) : Prop := Forall (fun e => exists bs, e = Data bs /\ bs <> []) evs.

Lemma stream_bytes_cons e evs : stream_bytes (e :: evs) = event_bytes e ++ stream_bytes evs.
Proof. done. Qed.

(** Whatever the outcome, what was read was recorded and the rest is still there. *)
Lemma read_exact_keeps n inner : forall got buf r s, read_exact_events n got inner buf = (r, s) ->
  exists took, rs_buf s = buf ++ took /\ stream_bytes inner = took ++ stream_bytes (rs_inner s) /\
    match r with Ok bs => bs = got ++ took /\ zlen bs = Z.max n (zlen got) | Err _ => zlen got + zlen took < n end.
Proof.
  induction inner as [|e inner IH]; intros got buf r s; cbn [read_exact_events]; destruct (Z.ltb_spec (zlen got) n) as [Hlt|Hge].
  - intros [= <- <-]. exists []. rewrite !app_nil_r. zlens. split_and!; [done|done|lia].
  - intros [= <- <-]. exists []. rewrite !app_nil_r. split_and!; [done|done|done|lia].
  - destruct e as [bs| |].
    + destruct bs as [|b bs]; [intros [= <- <-]; exists []; rewrite !app_nil_r; zlens; split_and!; [done|done|lia]|].
      set (bs' := b :: bs) in *. destruct (Z.leb_spec (zlen bs') (n - zlen got)) as [Hle|Hgt].
      * intros E. destruct (IH _ _ _ _ E) as (took & Eb & Es & Hr). exists (bs' ++ took). rewrite stream_bytes_cons, Es, Eb, <- !app_assoc.
        split_and!; [done|done|]. destruct r as [out|err]; [|zlens; lia]. destruct Hr as [-> Hl]. rewrite <- app_assoc. split; [done|].
        zlens. lia.
      * intros [= <- <-]. exists (ztake (n - zlen got) bs'). cbn [rs_buf rs_inner]. rewrite !stream_bytes_cons. cbn [event_bytes].
        split_and!; [done|by rewrite app_assoc, ztake_drop|done|]. zlens. lia.
    + intros [= <- <-]. exists []. rewrite !app_nil_r. zlens. split_and!; [done|done|lia].
    + intros [= <- <-]. exists []. rewrite !app_nil_r. zlens. split_and!; [done|done|lia].
  - intros [= <- <-]. exists []. rewrite !app_nil_r. split_and!; [done|done|done|lia].
Qed.

Lemma read_exact_flows n inner : forall got buf, flows inner -> n <= zlen got + zlen (stream_bytes inner) ->
  exists bs s, read_exact_events n got inner buf = (Ok bs, s) /\ flows (rs_inner s).
Proof.
  induction inner as [|e inner IH]; intros got buf Hf Hn; cbn [read_exact_events]; destruct (Z.ltb_spec (zlen got) n) as [Hlt|Hge];
    [cbn in Hn; zlens; lia|by eexists _, _| |by eexists _, _].
  inversion Hf as [|? ? (bs & -> & Hne) Hf']; subst. destruct bs as [|b bs]; [done|]. set (bs' := b :: bs) in *.
  rewrite stream_bytes_cons in Hn. cbn [event_bytes] in Hn. rewrite zlen_app in Hn.
  destruct (Z.leb_spec (zlen bs') (n - zlen got)) as [Hle|Hgt].
  - apply IH; [done|]. zlens. lia.
  - eexists _, _. split; [reflexivity|]. cbn [rs_inner]. constructor; [|done]. eexists. split; [done|]. intros E. apply (f_equal zlen) in E. zlens. lia.
Qed.

(** * Steps *)

(** [m] reads [bs] off a flowing stream and returns [a]. *)
Definition takes {X A} (m : Step X A) (bs : bytes) (a : A) : Prop :=
  forall s rest, flows (rs_inner s) -> stream_bytes (rs_inner s) = bs ++ rest ->
  exists s', m s = (Ok a, s') /\ flows (rs_inner s') /\ stream_bytes (rs_inner s') = rest /\ rs_buf s' = rs_buf s ++ bs.

Lemma takes_ret {X A} (a : A) : takes (X := X) (mret a) [] a.
Proof. intros s rest Hf E. exists s. by rewrite app_nil_r. Qed.

Lemma takes_bind {X A B} (m : Step X A) (f : A -> Step X B) b1 b2 a b : takes m b1 a -> takes (f a) b2 b -> takes (a ← m; f a) (b1 ++ b2) b.
Proof.
  intros Hm Hk s rest Hf E. rewrite <- app_assoc in E. destruct (Hm s _ Hf E) as (s1 & E1 & Hf1 & Er1 & Eb1).
  destruct (Hk s1 _ Hf1 Er1) as (s2 & E2 & Hf2 & Er2 & Eb2). exists s2. unfold mbind, step_bind. rewrite E1.
  by rewrite Eb2, Eb1, app_assoc.
Qed.

(** A step that reads nothing after one that does, or before. *)
Lemma takes_bind_last {X A B} (m : Step X A) (f : A -> Step X B) b1 a b : takes m b1 a -> takes (f a) [] b -> takes (a ← m; f a) b1 b.
Proof. intros Hm Hf. rewrite <- (app_nil_r b1). by eapply takes_bind. Qed.
Lemma takes_bind_first {X A B} (m : Step X A) (f : A -> Step X B) b2 a b : takes m [] a -> takes (f a) b2 b -> takes (a ← m; f a) b2 b.
Proof. intros Hm Hf. rewrite <- (app_nil_l b2). by eapply takes_bind. Qed.

Lemma takes_read {X} (e : ReadFailure -> X) n bs : zlen bs = n -> takes (read_exact_or e n) bs bs.
Proof.
  intros Hn s rest Hf Es0. unfold read_exact_or. destruct (read_exact_flows n (rs_inner s) [] (rs_buf s) Hf) as (out & s' & Er & Hf').
  { rewrite Es0. zlens. pose proof (zlen_nonneg rest). lia. }
  rewrite Er. destruct (read_exact_keeps _ _ _ _ _ _ Er) as (took & Eb & Es & -> & Hl). cbn [app] in *. zlens. rewrite Es0 in Es.
  pose proof (zlen_nonneg bs). apply app_inj_1 in Es as [<- ->]; [|unfold zlen in *; lia]. by exists s'.
Qed.

Lemma takes_some {X A} (e : X) (x : option A) a : x = Some a -> takes (hs_ok_or e x) [] a.
Proof. intros ->. apply takes_ret. Qed.

(** Whatever the outcome, what [m] took was recorded and the rest kept; a result has [P]. *)
Definition yields {X A} (m : Step X A) (P : bytes -> A -> Prop) : Prop :=
  forall s r s', m s = (r, s') -> exists took, rs_buf s' = rs_buf s ++ took /\ stream_bytes (rs_inner s) = took ++ stream_bytes (rs_inner s') /\
    match r with Ok a => P took a | Err _ => True end.

Lemma yields_ret {X A} (a : A) (P : bytes -> A -> Prop) : P [] a -> yields (X := X) (mret a) P.
Proof. intros H s r s' [= <- <-]. exists []. by rewrite app_nil_r. Qed.

Lemma yields_fail {X A} (e : X) (P : bytes -> A -> Prop) : yields (hs_fail e) P.
Proof. intros s r s' [= <- <-]. exists []. by rewrite app_nil_r. Qed.

Lemma yields_bind {X A B} (m : Step X A) (f : A -> Step X B) (P : bytes -> A -> Prop) (Q : bytes -> B -> Prop) :
  yields m P -> (forall b1 a, P b1 a -> yields (f a) (fun b2 b => Q (b1 ++ b2) b)) -> yields (a ← m; f a) Q.
Proof.
  intros Hm Hk s r s'. unfold mbind, step_bind. destruct (m s) as [[a|e] s1] eqn:E1; destruct (Hm _ _ _ E1) as (b1 & Eb1 & Es1 & HP).
  - intros E2. destruct (Hk _ _ HP _ _ _ E2) as (b2 & Eb2 & Es2 & HQ). exists (b1 ++ b2). split_and!; [by rewrite Eb2, Eb1, app_assoc|by rewrite Es1, Es2, app_assoc|done].
  - intros [= <- <-]. by exists b1.
Qed.

Lemma yields_read {X} (e : ReadFailure -> X) n (P : bytes -> bytes -> Prop) : 0 <= n -> (forall bs, zlen bs = n -> P bs bs) -> yields (read_exact_or e n) P.
Proof.
  intros Hn HP s r s'. unfold read_exact_or. destruct (read_exact_events n [] (rs_inner s) (rs_buf s)) as [r1 s1] eqn:E1.
  destruct (read_exact_keeps _ _ _ _ _ _ E1) as (took & Eb & Es & Hr). intros Er.
  assert (s' = s1) as -> by (destruct r1 as [?|[]]; by injection Er). exists took. split_and!; [done|done|].
  destruct r1 as [bs|f]; [|by destruct f; injection Er as <-]. injection Er as <-. destruct Hr as [-> Hl]. cbn [app] in *. apply HP. zlens. lia.
Qed.

Lemma yields_read_any {X} (e : ReadFailure -> X) n : yields (read_exact_or e n) (fun took x => took = x /\ zlen x = Z.max 0 n).
Proof.
  destruct (Z.leb_spec 0 n); [apply yields_read; [done|]; intros bs <-; split; [done|]; pose proof (zlen_nonneg bs); lia|].
  intros s r s'. unfold read_exact_or. destruct (rs_inner s) as [|e' inner] eqn:Ei; cbn [read_exact_events]; (destruct (Z.ltb_spec (zlen (@nil Z)) n); [zlens; lia|]);
    intros [= <- <-]; exists []; cbn [rs_buf rs_inner app]; rewrite ?app_nil_r; (split_and!; [done|done|done|zlens; lia]).
Qed.

Lemma yields_some {X A} (e : X) (x : option A) (P : bytes -> A -> Prop) : (forall a, x = Some a -> P [] a) -> yields (hs_ok_or e x) P.
Proof. intros H. destruct x; cbn; [apply yields_ret; auto|apply yields_fail]. Qed.

(** * Reading what there is *)

(** Every read brings bytes or nothing yet. *)
Definition quiet (evs : list ReadEvent) : Prop := Forall (fun e => e = Silence \/ exists bs, e = Data bs /\ bs <> []) evs.

(** How often a stream has nothing yet. *)
Definition stalls (evs : list ReadEvent) : Z := zlen (List.filter (fun e => match e with Silence => true | _ => false end) evs).

Lemma stalls_nonneg evs : 0 <= stalls evs.
Proof. apply zlen_nonneg. Qed.

Lemma quiet_cons e evs : quiet (e :: evs) -> (e = Silence \/ exists bs, e = Data bs /\ bs <> []) /\ quiet evs.
Proof. apply Forall_cons_iff. Qed.

(** A read of a stream that is not padded. *)
Lemma poll_stream_step room evs : 1 <= room -> quiet evs ->
  exists r evs', poll_stream room evs = (r, evs') /\ quiet evs' /\
    ((exists bs, r = Ready bs /\ stream_bytes evs = bs ++ stream_bytes evs' /\ (bs = [] -> stream_bytes evs = []) /\ stalls evs' = stalls evs) \/
     (r = Pending /\ stream_bytes evs' = stream_bytes evs /\ stalls evs = 1 + stalls evs')).
Proof.
  intros Hr Hq. destruct evs as [|e evs]; [eexists _, _; split_and!; [reflexivity|done|left; by exists []]|].
  apply quiet_cons in Hq as [[->|(bs & -> & Hne)] Hq]; cbn [poll_stream].
  - eexists _, _. split_and!; [reflexivity|done|]. right. split_and!; [done|done|]. unfold stalls. cbn [List.filter]. by zlens.
  - destruct (Z.leb_spec (zlen bs) room) as [Hle|Hgt].
    + eexists _, _. split_and!; [reflexivity|done|]. left. by exists bs.
    + eexists _, _. split_and!; [reflexivity| |].
      * constructor; [|done]. right. eexists. split; [done|]. intros E. apply (f_equal zlen) in E. zlens. lia.
      * left. exists (ztake room bs). rewrite !stream_bytes_cons. cbn [event_bytes]. split_and!; [done|by rewrite app_assoc, ztake_drop| |done].
        intros E. apply (f_equal zlen) in E. zlens. lia.
Qed.

(** One answer of a read. *)
Definition answers (r : Poll bytes) (text text' : bytes) (before after : Z) : Prop :=
  (exists bs, r = Ready bs /\ text = bs ++ text' /\ (bs = [] -> text = []) /\ after <= before) \/
  (r = Pending /\ text' = text /\ after < before).

(** * Reading to the end *)

Section drain.
Context {S : Type}.
Variable poll : Z -> S -> option (Poll bytes * S).

(** A caller that reads until it is told that there is no more. *)
Fixpoint drained (rooms : list Z) (s : S) : option (bytes * bool) :=
  match rooms with
  | [] => Some ([], false)
  | room :: rooms =>
      '(r, s) ← poll room s;
      match r with
      | Ready bs => if zlen bs =? 0 then Some ([], true) else '(out, ended) ← drained rooms s; Some (bs ++ out, ended)
      | Pending => drained rooms s
      | PollErr => None
      end
  end.

(** The reads give out [text] from its beginning, never fail, end only when all of it is
    out, and do end when there are enough of them. *)
Definition drains (rooms : list Z) (s : S) (text : bytes) (waits : Z) : Prop :=
  exists out ended, drained rooms s = Some (out, ended) /\ out `prefix_of` text /\ (ended = true -> out = text) /\
    (zlen text + waits < zlen rooms -> ended = true).

Variable holds : S -> bytes -> Prop.
Variable waits : S -> Z.
Hypothesis waits_nonneg : forall s, 0 <= waits s.
Hypothesis poll_step : forall room s text, 1 <= room -> holds s text ->
  exists r s' text', poll room s = Some (r, s') /\ holds s' text' /\ answers r text text' (waits s) (waits s').

Lemma drain_holds rooms : Forall (fun n => 1 <= n) rooms -> forall s text, holds s text -> drains rooms s text (waits s).
Proof.
  unfold drains. induction 1 as [|room rooms Hroom _ IH]; intros s text Hre; cbn [drained].
  { exists [], false. split_and!; [done|apply prefix_nil|done|]. pose proof (waits_nonneg s). zlens. zlen_facts. lia. }
  destruct (poll_step room s text Hroom Hre) as (r & s' & text' & -> & Hre' & Hans). cbn [mbind option_bind].
  destruct (IH _ _ Hre') as (out & ended & E & Hp & Hend & Henough). destruct Hans as [(bs & -> & -> & H0 & Hs)|(-> & -> & Hs)].
  - destruct (Z.eqb_spec (zlen bs) 0) as [Hz|Hz].
    + assert (bs = []) as -> by (apply zlen_zero; lia). rewrite (H0 eq_refl). exists [], true. split_and!; done.
    + rewrite E. cbn [mbind option_bind]. exists (bs ++ out), ended. split_and!; [done|by apply prefix_app|intros Ee; by rewrite (Hend Ee)|].
      intros Hlt. apply Henough. zlens. pose proof (zlen_nonneg bs). lia.
  - exists out, ended. split_and!; [done|done|done|]. intros Hlt. apply Henough. zlens. lia.
Qed.
End drain.
