(* ===== verification/Fallback.v ===== *)
(** Where a connection goes that does not speak the protocol:
    [xray-transport/src/fallback.rs] (the PROXY protocol header, the path in a request,
    the forwarding) and [xray-proxy-trojan/src/fallback.rs] (the decision tree over SNI,
    ALPN and path).

    [ipv6_to_string] is the [Display] of the standard library's [Ipv6Addr]; [keys] is the
    order in which a [HashMap] happens to list its keys. *)
From Stdlib Require Import String List.
From stdpp Require Import base tactics option list numbers gmap.
From S2P Require Import Prelude Bytes NetTypes StrMatch Mph.

(** * xray-transport: forwarding *)

Class IpText := { ipv6_to_string : bytes -> bytes }.

(** [Display] of [Ipv4Addr]. *)
Definition ipv4_to_string (o : bytes) : bytes :=
  match map u32_to_string o with
  | [] => []
  | b :: bs => b ++ concat (map (fun b => DOT :: b) bs)
  end.

Section proxy_header.
Context `{!IpText}.

Definition encode_proxy_v1 (src dst : SocketAddr) : bytes :=
  let line family s d sp dp :=
    text "PROXY " ++ text family ++ text " " ++ s ++ text " " ++ d ++ text " " ++ u32_to_string sp ++ text " " ++ u32_to_string dp ++ [13; 10] in
  match src, dst with
  | SockV4 s sp, SockV4 d dp => line "TCP4"%string (ipv4_to_string s) (ipv4_to_string d) sp dp
  | SockV6 s sp _ _, SockV6 d dp _ _ => line "TCP6"%string (ipv6_to_string s) (ipv6_to_string d) sp dp
  | _, _ => text "PROXY UNKNOWN" ++ [13; 10]
  end.

Definition SIG : bytes := [13; 10; 13; 10; 0; 13; 10; 81; 85; 73; 84; 10].

Definition encode_proxy_v2 (src dst : SocketAddr) : bytes :=
  SIG ++
  match src, dst with
  | SockV4 s sp, SockV4 d dp => [33; 17; 0; 12] ++ s ++ d ++ be16 sp ++ be16 dp
  | SockV6 s sp _ _, SockV6 d dp _ _ => [33; 33; 0; 36] ++ s ++ d ++ be16 sp ++ be16 dp
  | _, _ => [32; 0; 0; 0]
  end.

Definition encode_proxy_header (xver : Z) (src dst : SocketAddr) : bytes :=
  if xver =? 1 then encode_proxy_v1 src dst
  else if xver =? 2 then encode_proxy_v2 src dst
  else [].

(** What [dest] receives: [conn] is what the client still sends.  Dialing and the writes
    succeed; when one fails the connection is dropped. *)
Definition fallback_to_dest (conn first : bytes) (src dst : SocketAddr) (xver : Z) : bytes :=
  let proxy_header := encode_proxy_header xver src dst in
  (if bool_decide (proxy_header = []) then [] else proxy_header)
  ++ (if bool_decide (first = []) then [] else first)
  ++ conn.
End proxy_header.

(** [iter().position(p)] *)
Fixpoint position (p : Z -> bool) (l : bytes) : option Z :=
  match l with
  | [] => None
  | b :: l => if p b then Some 0 else i ← position p l; Some (i + 1)
  end.

Definition extract_path_from_first_bytes (first : bytes) : option bytes :=
  path_start ← position (fun b => b =? 47) first;
  let path_end :=
    match position (fun b => (b =? 32) || (b =? 13) || (b =? 10)) (zdrop path_start first) with
    | Some p => path_start + p
    | None => zlen first
    end in
  let path := first[: path_start, path_end] in
  if utf8_valid path then Some path else None.

(** * xray-proxy-trojan: the decision tree *)

Record Fallback : Type := mkFallback {
  fb_name : bytes;
  fb_alpn : bytes;
  fb_path : bytes;
  fb_type : bytes;
  fb_dest : bytes;
  fb_xver : Z;
}.

Record PathNode : Type := mkPathNode { pn_exact : gmap bytes Fallback; pn_wildcard : option Fallback }.
Record AlpnNode : Type := mkAlpnNode { an_exact : gmap bytes PathNode; an_wildcard : option PathNode }.
Record SniNode : Type := mkSniNode { sn_exact : gmap bytes AlpnNode; sn_wildcard : option AlpnNode }.

Definition PathNode_default : PathNode := mkPathNode ∅ None.
Definition AlpnNode_default : AlpnNode := mkAlpnNode ∅ None.
Definition SniNode_default : SniNode := mkSniNode ∅ None.

Definition PathNode_get (n : PathNode) (path : bytes) : option Fallback :=
  match pn_exact n !! path with
  | Some f => Some f
  | None => pn_wildcard n
  end.

Definition AlpnNode_get (n : AlpnNode) (alpn path : bytes) : option Fallback :=
  let rest := p ← an_wildcard n; PathNode_get p path in
  match an_exact n !! alpn with
  | Some p => match PathNode_get p path with Some f => Some f | None => rest end
  | None => rest
  end.

Section tree.
Variable keys : gmap bytes AlpnNode -> list bytes.

(** One key of the loop of [fuzzy_longest_match]. *)
Definition longer_match (sni : bytes) (matched : option bytes) (n : bytes) : option bytes :=
  if contains sni n && match matched with None => true | Some m => zlen m <? zlen n end then Some n else matched.

Definition fuzzy_longest_match (n : SniNode) (sni alpn path : bytes) : option Fallback :=
  matched ← fold_left (longer_match sni) (keys (sn_exact n)) None;
  a ← sn_exact n !! matched;
  AlpnNode_get a alpn path.

Definition SniNode_get (n : SniNode) (sni alpn path : bytes) : option Fallback :=
  let wild := a ← sn_wildcard n; AlpnNode_get a alpn path in
  let fuzzy :=
    let name_count := Z.of_nat (size (sn_exact n)) + match sn_wildcard n with Some _ => 1 | None => 0 end in
    if ((1 <? name_count) || match sn_wildcard n with None => true | Some _ => false end)
       && negb (bool_decide (sni = [])) && negb (bool_decide (is_Some (sn_exact n !! sni)))
    then match fuzzy_longest_match n sni alpn path with Some f => Some f | None => wild end
    else wild in
  match sn_exact n !! sni with
  | Some a => match AlpnNode_get a alpn path with Some f => Some f | None => fuzzy end
  | None => fuzzy
  end.
End tree.

Definition insert_path (n : PathNode) (fb : Fallback) : PathNode :=
  if bool_decide (fb_path fb = []) then mkPathNode (pn_exact n) (Some fb)
  else mkPathNode (<[ fb_path fb := fb ]> (pn_exact n)) (pn_wildcard n).

Definition insert_alpn (n : AlpnNode) (fb : Fallback) : AlpnNode :=
  if bool_decide (fb_alpn fb = []) then
    mkAlpnNode (an_exact n) (Some (insert_path (default PathNode_default (an_wildcard n)) fb))
  else
    mkAlpnNode (<[ fb_alpn fb := insert_path (default PathNode_default (an_exact n !! fb_alpn fb)) fb ]> (an_exact n)) (an_wildcard n).

Record FallbackPolicy : Type := mkFallbackPolicy { root : SniNode }.

Definition insert_fallback (p : FallbackPolicy) (fb : Fallback) : FallbackPolicy :=
  let n := root p in
  mkFallbackPolicy
    (if bool_decide (fb_name fb = []) then
       mkSniNode (sn_exact n) (Some (insert_alpn (default AlpnNode_default (sn_wildcard n)) fb))
     else
       mkSniNode (<[ fb_name fb := insert_alpn (default AlpnNode_default (sn_exact n !! fb_name fb)) fb ]> (sn_exact n)) (sn_wildcard n)).

Definition from_list (l : list Fallback) : FallbackPolicy := fold_left insert_fallback l (mkFallbackPolicy SniNode_default).

Definition decide_fallback `{!StdText} (keys : gmap bytes AlpnNode -> list bytes) (p : FallbackPolicy) (sni alpn path : bytes) : option Fallback :=
  let sni := to_lowercase sni in
  let alpn := to_lowercase alpn in
  SniNode_get keys (root p) sni alpn path.

(** * The rules read one by one *)

Definition first_some {A} (x y : option A) : option A := match x with Some _ => x | None => y end.

(** A later rule replaces an earlier one under the same three keys. *)
Definition last_such (p : Fallback -> bool) (l : list Fallback) : option Fallback := List.find p (rev l).

Definition having (key : Fallback -> bytes) (k : bytes) (f : Fallback) : bool := bool_decide (key f = k).
Definition group (key : Fallback -> bytes) (k : bytes) (l : list Fallback) : list Fallback := List.filter (having key k) l.

Definition by_path (l : list Fallback) (path : bytes) : option Fallback :=
  first_some (last_such (having fb_path path) l) (last_such (having fb_path []) l).
Definition by_alpn (l : list Fallback) (alpn path : bytes) : option Fallback :=
  first_some (by_path (group fb_alpn alpn l) path) (by_path (group fb_alpn [] l) path).
Definition by_name (l : list Fallback) (name alpn path : bytes) : option Fallback :=
  by_alpn (group fb_name name l) alpn path.

(** A longest name among the rules that the SNI contains. *)
Definition longest_contained (l : list Fallback) (sni : bytes) (matched : option bytes) : Prop :=
  match matched with
  | None => Forall (fun f => fb_name f = [] \/ contains sni (fb_name f) = false) l
  | Some m => m <> [] /\ m ∈ map fb_name l /\ contains sni m = true /\
      Forall (fun f => contains sni (fb_name f) = true -> zlen (fb_name f) <= zlen m) l
  end.

Definition decide_by_scan (l : list Fallback) (matched : option bytes) (sni alpn path : bytes) : option Fallback :=
  first_some (by_name l sni alpn path)
    (first_some (m ← matched; by_name l m alpn path) (by_name l [] alpn path)).

(** * The tree holds the rules *)

Lemma last_such_snoc p l f : last_such p (l ++ [f]) = if p f then Some f else last_such p l.
Proof. unfold last_such. rewrite rev_app_distr. done. Qed.

Lemma group_snoc key k l f : group key k (l ++ [f]) = if having key k f then group key k l ++ [f] else group key k l.
Proof. unfold group. rewrite List.filter_app. cbn. destruct (having key k f); [done|by rewrite app_nil_r]. Qed.

Lemma having_true key k f : having key k f = true <-> key f = k.
Proof. unfold having. apply bool_decide_eq_true. Qed.

Lemma path_built l : let n := fold_left insert_path l PathNode_default in
  (forall p, pn_exact n !! p = if bool_decide (p = []) then None else last_such (having fb_path p) l) /\
  pn_wildcard n = last_such (having fb_path []) l.
Proof.
  induction l as [|f l [IHe IHw]] using rev_ind; cbn zeta.
  - split; [|done]. intros p. cbn. by destruct (bool_decide _).
  - rewrite fold_left_app. cbn [fold_left]. set (n := fold_left _ l _) in *. clearbody n. unfold insert_path. setoid_rewrite last_such_snoc.
    unfold having. destruct (bool_decide_reflect (fb_path f = [])) as [E|E]; cbn [pn_exact pn_wildcard].
    + split; [|by rewrite bool_decide_true]. intros p. rewrite IHe. destruct (bool_decide_reflect (p = [])) as [|Hp]; [done|].
      rewrite bool_decide_false by congruence. done.
    + split; [|by rewrite bool_decide_false]. intros p. destruct (decide (p = fb_path f)) as [->|Hp].
      * rewrite lookup_insert_eq. rewrite bool_decide_false by done. by rewrite bool_decide_true.
      * rewrite lookup_insert_ne by done. rewrite IHe. by rewrite (bool_decide_false (fb_path f = p)) by congruence.
Qed.

(** What a node of a level keeps under a key: the node built from the rules with it. *)
Definition child {N} (ins : N -> Fallback -> N) (d : N) (l : list Fallback) : option N :=
  match l with [] => None | _ => Some (fold_left ins l d) end.

Lemma child_snoc {N} (ins : N -> Fallback -> N) d l f :
  child ins d (l ++ [f]) = Some (ins (default d (child ins d l)) f).
Proof.
  unfold child. destruct (l ++ [f]) eqn:E; [by destruct l|]. rewrite <- E, fold_left_app. cbn. by destruct l.
Qed.

Lemma alpn_built l : let n := fold_left insert_alpn l AlpnNode_default in
  (forall a, an_exact n !! a = if bool_decide (a = []) then None else child insert_path PathNode_default (group fb_alpn a l)) /\
  an_wildcard n = child insert_path PathNode_default (group fb_alpn [] l).
Proof.
  induction l as [|f l [IHe IHw]] using rev_ind; cbn zeta.
  - split; [|done]. intros p. cbn. by destruct (bool_decide _).
  - rewrite fold_left_app. cbn [fold_left]. set (n := fold_left _ l _) in *. clearbody n. unfold insert_alpn. setoid_rewrite group_snoc.
    unfold having. destruct (bool_decide_reflect (fb_alpn f = [])) as [E|E]; cbn [an_exact an_wildcard].
    + split; [|by rewrite bool_decide_true, child_snoc, IHw]. intros a. rewrite IHe. destruct (bool_decide_reflect (a = [])) as [|Ha]; [done|].
      by rewrite (bool_decide_false (fb_alpn f = a)) by congruence.
    + split; [|by rewrite bool_decide_false]. intros a. destruct (decide (a = fb_alpn f)) as [->|Ha].
      * rewrite lookup_insert_eq, IHe. rewrite (bool_decide_false (fb_alpn f = [])) by done. rewrite bool_decide_true by done. by rewrite child_snoc.
      * rewrite lookup_insert_ne by done. rewrite IHe. by rewrite (bool_decide_false (fb_alpn f = a)) by congruence.
Qed.

Lemma sni_built l : let n := root (from_list l) in
  (forall s, sn_exact n !! s = if bool_decide (s = []) then None else child insert_alpn AlpnNode_default (group fb_name s l)) /\
  sn_wildcard n = child insert_alpn AlpnNode_default (group fb_name [] l).
Proof.
  unfold from_list. induction l as [|f l [IHe IHw]] using rev_ind; cbn zeta.
  - split; [|done]. intros p. cbn. by destruct (bool_decide _).
  - rewrite fold_left_app. cbn [fold_left]. set (n := fold_left _ l _) in *. clearbody n. unfold insert_fallback. cbn [root]. setoid_rewrite group_snoc.
    unfold having. destruct (bool_decide_reflect (fb_name f = [])) as [E|E]; cbn [sn_exact sn_wildcard].
    + split; [|by rewrite bool_decide_true, child_snoc, IHw]. intros s. rewrite IHe. destruct (bool_decide_reflect (s = [])) as [|Hs]; [done|].
      by rewrite (bool_decide_false (fb_name f = s)) by congruence.
    + split; [|by rewrite bool_decide_false]. intros s. destruct (decide (s = fb_name f)) as [->|Hs].
      * rewrite lookup_insert_eq, IHe. rewrite (bool_decide_false (fb_name f = [])) by done. rewrite bool_decide_true by done. by rewrite child_snoc.
      * rewrite lookup_insert_ne by done. rewrite IHe. by rewrite (bool_decide_false (fb_name f = s)) by congruence.
Qed.

(** * Lookups *)

Lemma path_get l path : PathNode_get (fold_left insert_path l PathNode_default) path = by_path l path.
Proof.
  destruct (path_built l) as [He Hw]. unfold PathNode_get, by_path. rewrite He, Hw.
  destruct (bool_decide_reflect (path = [])) as [->|]; [|unfold first_some; by destruct (last_such (having fb_path path) l)].
  unfold first_some; by destruct (last_such (having fb_path []) l).
Qed.

Lemma path_child l path : (p ← child insert_path PathNode_default l; PathNode_get p path) = by_path l path.
Proof. unfold child. destruct l as [|f l]; [done|]. apply path_get. Qed.

Lemma alpn_get l alpn path : AlpnNode_get (fold_left insert_alpn l AlpnNode_default) alpn path = by_alpn l alpn path.
Proof.
  destruct (alpn_built l) as [He Hw]. unfold AlpnNode_get, by_alpn. rewrite He, Hw, path_child, <- (path_child (group fb_alpn alpn l)).
  destruct (bool_decide_reflect (alpn = [])) as [->|].
  - rewrite path_child. by destruct (by_path _ _).
  - destruct (child insert_path PathNode_default (group fb_alpn alpn l)) as [p|]; cbn; [|done]. by destruct (PathNode_get p path).
Qed.

Lemma alpn_child l alpn path : (a ← child insert_alpn AlpnNode_default l; AlpnNode_get a alpn path) = by_alpn l alpn path.
Proof. unfold child. destruct l as [|f l]; [done|]. apply alpn_get. Qed.

Lemma name_exact l s alpn path : s <> [] ->
  (a ← sn_exact (root (from_list l)) !! s; AlpnNode_get a alpn path) = by_name l s alpn path.
Proof. intros Hs. destruct (sni_built l) as [He _]. rewrite He, bool_decide_false by done. apply alpn_child. Qed.

Lemma name_wild l alpn path : (a ← sn_wildcard (root (from_list l)); AlpnNode_get a alpn path) = by_name l [] alpn path.
Proof. destruct (sni_built l) as [_ Hw]. rewrite Hw. apply alpn_child. Qed.

Lemma child_group l key k {N} (ins : N -> Fallback -> N) d : is_Some (child ins d (group key k l)) <-> k ∈ map key l.
Proof.
  assert (H : group key k l <> [] <-> k ∈ map key l).
  { induction l as [|f l IH]; cbn; [set_solver|]. rewrite elem_of_cons. unfold having. destruct (bool_decide_reflect (key f = k)) as [<-|Hne].
    - split; [by left|done].
    - rewrite IH. split; [by right|intros [->|]; done]. }
  rewrite <- H. unfold child. destruct (group key k l); split; [intros [? ?]; done|done|done|by eexists].
Qed.

Lemma name_known l s : is_Some (sn_exact (root (from_list l)) !! s) <-> s <> [] /\ s ∈ map fb_name l.
Proof.
  destruct (sni_built l) as [He _]. rewrite He. destruct (bool_decide_reflect (s = [])) as [->|Hs].
  - split; [intros [? ?]; done|intros [? _]; done].
  - rewrite child_group. split; [done|intros [_ ?]; done].
Qed.

Lemma contains_self s : contains s s = true.
Proof. apply contains_spec. exists [], []. by rewrite app_nil_r. Qed.

Lemma contains_short s p : contains s p = true -> zlen p <= zlen s.
Proof. intros (a & b & ->)%contains_spec. zlia. Qed.

(** The loop over the keys ends with a longest contained one. *)
Lemma longer_fold sni ks : forall start,
  match start with Some m => contains sni m = true | None => True end ->
  match fold_left (longer_match sni) ks start with
  | None => start = None /\ Forall (fun k => contains sni k = false) ks
  | Some m => (start = Some m \/ m ∈ ks) /\ contains sni m = true /\ Forall (fun k => contains sni k = true -> zlen k <= zlen m) ks /\
      (forall s, start = Some s -> zlen s <= zlen m)
  end.
Proof.
  induction ks as [|k ks IH]; intros start Hs; cbn [fold_left].
  - destruct start as [m|]; [|done]. split_and!; [by left|done|done|]. by intros s [= ->].
  - specialize (IH (longer_match sni start k)). unfold longer_match in *. destruct (contains sni k) eqn:Ek; cbn [andb] in *.
    + destruct start as [m0|].
      * destruct (Z.ltb_spec (zlen m0) (zlen k)) as [Hlt|Hge]; specialize (IH ltac:(done));
          destruct (fold_left _ ks _) as [m|] eqn:E; try (by destruct IH).
        -- destruct IH as (Hin & Hc & Hf & Hl). specialize (Hl _ eq_refl). split_and!; [|done| |].
           ++ right. apply elem_of_cons. destruct Hin as [[= ->]|]; [by left|by right].
           ++ constructor; [done|done].
           ++ intros s [= <-]. lia.
        -- destruct IH as (Hin & Hc & Hf & Hl). specialize (Hl _ eq_refl). split_and!; [|done| |].
           ++ destruct Hin as [|]; [by left|right; by apply elem_of_cons; right].
           ++ constructor; [intros _; lia|done].
           ++ intros s [= <-]. done.
      * specialize (IH ltac:(done)). destruct (fold_left _ ks _) as [m|] eqn:E; [|by destruct IH].
        destruct IH as (Hin & Hc & Hf & Hl). specialize (Hl _ eq_refl). split_and!; [|done| |done].
        -- right. apply elem_of_cons. destruct Hin as [[= ->]|]; [by left|by right].
        -- by constructor.
    + specialize (IH Hs). destruct (fold_left _ ks _) as [m|] eqn:E.
      * destruct IH as (Hin & Hc & Hf & Hl). split_and!; [|done| |done].
        -- destruct Hin as [|]; [by left|right; by apply elem_of_cons; right].
        -- constructor; [congruence|done].
      * destruct IH as [-> Hf]. split; [done|by constructor].
Qed.

Section decision.
Context `{!StdText}.
Variable keys : gmap bytes AlpnNode -> list bytes.
Hypothesis keys_all : forall m, keys m ≡ₚ map fst (map_to_list m).

Lemma elem_of_keys m k : k ∈ keys m <-> is_Some (m !! k).
Proof using keys_all.
  rewrite keys_all. change (map fst ?x) with (fst <$> x). rewrite list_elem_of_fmap. split.
  - intros ([k' v] & -> & Hin). apply elem_of_map_to_list in Hin. by exists v.
  - intros [v Hv]. exists (k, v). split; [done|]. by apply elem_of_map_to_list.
Qed.

Lemma fuzzy_longest l sni : exists matched, longest_contained l sni matched /\
  fold_left (longer_match sni) (keys (sn_exact (root (from_list l)))) None = matched.
Proof using keys_all.
  pose proof (longer_fold sni (keys (sn_exact (root (from_list l)))) None I) as Hfold.
  destruct (fold_left _ _ None) as [m|]; eexists; (split; [|reflexivity]); cbn.
  - destruct Hfold as ([|Hin] & Hc & Hf & _); [done|]. rewrite elem_of_keys, name_known in Hin. destruct Hin as [Hne Hin].
    split_and!; [done|done|done|]. apply Forall_forall. intros f Hl Hcf. destruct (decide (fb_name f = [])) as [->|Hf0]; [zlia|].
    rewrite Forall_forall in Hf. apply Hf; [|done]. rewrite elem_of_keys, name_known. split; [done|]. by apply list_elem_of_fmap_2.
  - destruct Hfold as [_ Hf]. apply Forall_forall. intros f Hl. destruct (decide (fb_name f = [])) as [|Hf0]; [by left|right].
    rewrite Forall_forall in Hf. apply Hf. rewrite elem_of_keys, name_known. split; [done|]. by apply list_elem_of_fmap_2.
Qed.

(** C32: the decision tree against its list of rules.  The choice is the last rule, among
    those as specific as can be: first the rules whose name is the SNI, then those of a
    longest rule name that the SNI contains, then those without a name; within a group the
    rules of the ALPN before those without one, and within these the rules of the path
    before those without one.  A group that has no rule for the ALPN and path falls
    through to the next.  When two names of the same length are contained, the order of
    the hash map decides which one is tried. *)
Theorem fallback_decide_exact l sni alpn path :
  exists matched, longest_contained l (to_lowercase sni) matched /\
    decide_fallback keys (from_list l) sni alpn path = decide_by_scan l matched (to_lowercase sni) (to_lowercase alpn) path.
Proof using keys_all.
  unfold decide_fallback. set (s := to_lowercase sni). set (a := to_lowercase alpn). clearbody s a.
  unfold SniNode_get, decide_by_scan. rewrite name_wild.
  destruct (decide (s <> [] /\ s ∈ map fb_name l)) as [[Hs Hin]|Hno].
  - exists (Some s). split.
    { split_and!; [done|done|apply contains_self|]. apply Forall_forall. intros f _. apply contains_short. }
    rewrite (bool_decide_true (is_Some _)) by (by apply name_known). rewrite andb_false_r. cbn [mbind option_bind].
    rewrite <- (name_exact l s) by done. destruct (proj2 (name_known l s)) as [n ->]; [done|]. cbn.
    by destruct (AlpnNode_get n a path).
  - assert (Hx : sn_exact (root (from_list l)) !! s = None).
    { apply eq_None_not_Some. by rewrite name_known. }
    rewrite Hx. rewrite (bool_decide_false (is_Some None)) by (by intros []). rewrite andb_true_r.
    assert (Hsn : first_some (by_name l s a path) (by_name l [] a path) = by_name l [] a path).
    { destruct (decide (s = [])) as [->|Hs]; [by destruct (by_name l [] a path)|].
      rewrite <- (name_exact l s), Hx by done. done. }
    assert (Hs0 : by_name l s a path = None \/ s = []).
    { destruct (decide (s = [])) as [|Hs]; [by right|left]. by rewrite <- (name_exact l s), Hx by done. }
    destruct (fuzzy_longest l s) as (matched & Hm & Em). exists matched. split; [done|].
    assert (Hfz : fuzzy_longest_match keys (root (from_list l)) s a path = m ← matched; by_name l m a path).
    { unfold fuzzy_longest_match. rewrite Em. destruct matched as [m|]; [|done]. cbn [mbind option_bind].
      destruct Hm as (Hne & _). by apply name_exact. }
    rewrite Hfz. destruct matched as [m|]; cbn [mbind option_bind first_some].
    + destruct Hm as (Hne & Hin & Hc & _).
      assert (Hs : s <> []) by (intros ->; by destruct m). rewrite (bool_decide_false (s = [])) by done.
      destruct Hs0 as [->|]; [|done]. cbn [first_some negb andb].
      assert (Hcount : (1 <? Z.of_nat (size (sn_exact (root (from_list l)))) + match sn_wildcard (root (from_list l)) with Some _ => 1 | None => 0 end)
                       || match sn_wildcard (root (from_list l)) with None => true | Some _ => false end = true).
      { destruct (sn_wildcard _); [|apply orb_true_r]. rewrite orb_false_r. apply Z.ltb_lt.
        assert (size (sn_exact (root (from_list l))) <> 0%nat); [|lia]. apply map_size_ne_0_lookup. exists m. by apply name_known. }
      rewrite Hcount. cbn [andb]. by destruct (by_name l m a path).
    + rewrite Hsn. by destruct (_ && _).
Qed.
End decision.
