(* ===== verification/TrojanProto.v ===== *)
(** [xray-proxy-trojan/src/protocol.rs] with the accounts of [config.rs] and [error.rs]:
    the request headers of both versions, the datagram frames, their parsers.

    The messages inside the errors are left out, their numbers are kept.  The digests of
    the crates [sha2] and [md5] and the encoder of the crate [hex] are the class
    [TrojanHash]; [TrojanHashLaws] says what the code relies on. *)
From stdpp Require Import base tactics option list numbers.
From S2P Require Import Prelude Bytes NetTypes.

Definition COMMAND_TCP : Z := 1.
Definition COMMAND_UDP : Z := 3.
Definition MAX_LENGTH : Z := 8192.
Definition CRLF : bytes := [13; 10].
Definition V2_VERSION : Z := 2.
Definition MD5_KEY_LEN : Z := 16.
Definition HEX_KEY_LEN : Z := 56.

Definition ATYP_IPV4 : Z := 1.
Definition ATYP_DOMAIN : Z := 3.
Definition ATYP_IPV6 : Z := 4.

Inductive TrojanError : Type :=
| ReadUserHash
| ReadCrlf
| ReadCommand
| ReadAddressPort
| ReadPayloadLength
| OversizePayload (len max : Z)
| ReadPayload
| WriteHeader
| WriteAddress
| UserNotFound
| UserAlreadyExists (email : bytes)
| UserNotFoundByEmail (email : bytes)
| EmptyEmail
| InvalidUserAccount
| InvalidRemoteAddress
| InsufficientData (need have : Z)
| HandshakeTimeout
| InvalidVersionPrefix (b : Z)
| TrojanIo.

Inductive TrojanNetwork : Type := NetTcp | NetUdp.

#[export] Instance TrojanNetwork_eq_dec : EqDecision TrojanNetwork.
Proof. solve_decision. Defined.

Definition to_command (n : TrojanNetwork) : Z := match n with NetTcp => COMMAND_TCP | NetUdp => COMMAND_UDP end.
Definition from_command (cmd : Z) : TrojanNetwork := if cmd =? COMMAND_UDP then NetUdp else NetTcp.

(** * Accounts *)

Class TrojanHash := { sha224 : bytes -> bytes; md5 : bytes -> bytes; hex_encode : bytes -> bytes }.

Class TrojanHashLaws `{!TrojanHash} : Prop := {
  sha224_length s : zlen (sha224 s) = 28;
  md5_length s : zlen (md5 s) = 16;
  hex_length l : zlen (hex_encode l) = 2 * zlen l;
  hex_digits l : Forall (fun c => 48 <= c <= 57 \/ 97 <= c <= 102) (hex_encode l);
}.

Section accounts.
Context `{!TrojanHash}.

Record MemoryAccount : Type := mkAccount { ac_password : bytes; ac_key : bytes }.

Definition hex_sha224 (password : bytes) : bytes := hex_encode (sha224 password).
Definition md5_key (password : bytes) : bytes := md5 password.
Definition hex_string (data : bytes) : bytes := hex_encode data.

Definition MemoryAccount_new (password : bytes) : MemoryAccount := mkAccount password (hex_sha224 password).

Definition MemoryAccount_equals (a b : MemoryAccount) : bool := bool_decide (ac_password a = ac_password b).
End accounts.

(** * Addresses *)

(** Appends to [out]; an error leaves [out] as it is. *)
Definition trojan_write_address_port (out : bytes) (addr : Address) (port : Z) : result TrojanError unit * bytes :=
  match addr with
  | IPv4 v4 => (Ok tt, out ++ [ATYP_IPV4] ++ v4 ++ be16 port)
  | Domain domain =>
      if zlen domain <=? 255 then (Ok tt, out ++ [ATYP_DOMAIN] ++ [zlen domain] ++ domain ++ be16 port)
      else (Err WriteAddress, out)
  | IPv6 v6 => (Ok tt, out ++ [ATYP_IPV6] ++ v6 ++ be16 port)
  end.

(** The address, where it ends. *)
Definition trojan_read_address (buf : bytes) : result TrojanError (Address * Z) :=
  let addr_type := buf @ 0 in
  let pos := 1 in
  if addr_type =? ATYP_IPV4 then
    if zlen buf <? pos + 4 then Err (InsufficientData (pos + 4) (zlen buf))
    else Ok (IPv4 buf[: pos, pos + 4], pos + 4)
  else if addr_type =? ATYP_DOMAIN then
    if zlen buf <? pos + 1 then Err (InsufficientData (pos + 1) (zlen buf))
    else
      let len := buf @ pos in
      let pos := pos + 1 in
      if zlen buf <? pos + len then Err (InsufficientData (pos + len) (zlen buf))
      else if utf8_valid buf[: pos, pos + len] then Ok (Domain buf[: pos, pos + len], pos + len)
      else Err InvalidRemoteAddress
  else if addr_type =? ATYP_IPV6 then
    if zlen buf <? pos + 16 then Err (InsufficientData (pos + 16) (zlen buf))
    else Ok (IPv6 buf[: pos, pos + 16], pos + 16)
  else Err InvalidRemoteAddress.

Definition trojan_read_address_port (buf : bytes) : result TrojanError (Address * Z * Z) :=
  if zlen buf =? 0 then Err (InsufficientData 1 0)
  else
    '(addr, pos) ← trojan_read_address buf;
    if zlen buf <? pos + 2 then Err (InsufficientData (pos + 2) (zlen buf))
    else Ok (addr, be_val buf[: pos, pos + 2], pos + 2).

(** * Request headers *)

Definition write_request_header (out : bytes) (account : MemoryAccount) (network : TrojanNetwork) (addr : Address) (port : Z)
    : result TrojanError unit * bytes :=
  let out := out ++ ac_key account ++ CRLF ++ [to_command network] in
  match trojan_write_address_port out addr port with
  | (Ok _, out) => (Ok tt, out ++ CRLF)
  | (Err e, out) => (Err e, out)
  end.

Definition is_v1_hex_prefix (b : Z) : bool := (48 <=? b) && (b <=? 57) || (97 <=? b) && (b <=? 102).

Definition write_request_header_v2 (out : bytes) (key : bytes) (addr : Address) (port : Z) : result TrojanError unit * bytes :=
  trojan_write_address_port (out ++ [V2_VERSION] ++ key) addr port.

Definition parse_request_header_v2 (buf : bytes) : result TrojanError (Address * Z * Z) :=
  if zlen buf =? 0 then Err (InsufficientData 1 0)
  else if negb (buf @ 0 =? V2_VERSION) then Err (InvalidVersionPrefix (buf @ 0))
  else
    let head := 1 + MD5_KEY_LEN in
    if zlen buf <? head then Err (InsufficientData head (zlen buf))
    else
      '(addr, port, addr_consumed) ← trojan_read_address_port (zdrop head buf);
      Ok (addr, port, head + addr_consumed).

(** [map_err] *)
Definition or_error {A} (e : TrojanError) (r : result TrojanError A) : result TrojanError A :=
  match r with Ok a => Ok a | Err _ => Err e end.

Definition parse_request_header (buf : bytes) : result TrojanError (TrojanNetwork * Address * Z * Z) :=
  let pos := HEX_KEY_LEN in
  if zlen buf <? pos then Err ReadUserHash
  else if zlen buf <? pos + 2 then Err ReadCrlf
  else
    let pos := pos + 2 in
    if zlen buf <? pos + 1 then Err ReadCommand
    else
      let network := from_command (buf @ pos) in
      let pos := pos + 1 in
      '(addr, port, addr_consumed) ← or_error ReadAddressPort (trojan_read_address_port (zdrop pos buf));
      let pos := pos + addr_consumed in
      if zlen buf <? pos + 2 then Err ReadCrlf
      else Ok (network, addr, port, pos + 2).

(** * Datagrams *)

Definition write_udp_packet (out : bytes) (addr : Address) (port : Z) (payload : bytes) : result TrojanError Z * bytes :=
  let start := zlen out in
  match trojan_write_address_port out addr port with
  | (Err e, out) => (Err e, out)
  | (Ok _, out) =>
      let len := if zlen payload <=? 65535 then zlen payload else 65535 in
      let out := out ++ be16 len ++ CRLF ++ payload in
      (Ok (zlen out - start), out)
  end.

Definition parse_udp_packet (buf : bytes) : result TrojanError (Address * Z * bytes * Z) :=
  '(addr, port, pos) ← or_error ReadAddressPort (trojan_read_address_port buf);
  if zlen buf <? pos + 2 then Err ReadPayloadLength
  else
    let length := be_val buf[: pos, pos + 2] in
    let pos := pos + 2 in
    if MAX_LENGTH <? length then Err (OversizePayload length MAX_LENGTH)
    else if zlen buf <? pos + 2 then Err ReadCrlf
    else
      let pos := pos + 2 in
      if zlen buf <? pos + length then Err ReadPayload
      else Ok (addr, port, buf[: pos, pos + length], pos + length).

(** [Ok None] asks for more data. *)
Definition parse_udp_packet_stream (buf : bytes) : result TrojanError (option (Address * Z * bytes * Z)) :=
  match trojan_read_address_port buf with
  | Err (InsufficientData _ _) => Ok None
  | Err e => Err e
  | Ok (addr, port, pos) =>
      if zlen buf <? pos + 2 then Ok None
      else
        let length := be_val buf[: pos, pos + 2] in
        let pos := pos + 2 in
        if MAX_LENGTH <? length then Err (OversizePayload length MAX_LENGTH)
        else if zlen buf <? pos + 2 then Ok None
        else
          let pos := pos + 2 in
          if zlen buf <? pos + length then Ok None
          else Ok (Some (addr, port, buf[: pos, pos + length], pos + length))
  end.
