(* ===== verification/TrojanServer.v ===== *)
(** [xray-proxy-trojan/src/validator.rs] and [server.rs]: the users, the handshake of the
    server, what a connection becomes, the datagram relay.

    An incoming stream is the list of what its reads will find ([ReadEvent]): bytes, an
    error, or silence longer than the deadline; the end of the list is the end of the
    stream.  The server reads exactly what it parses, so nothing depends on how the bytes
    are cut into events but the theorems quantify over it. *)
From Stdlib Require Import List.
From stdpp Require Import base tactics option list numbers gmap.
From S2P Require Import Prelude Bytes AsyncIo NetTypes StrMatch Mph Fallback TrojanProto.

(** * Users *)

Record MemoryUser : Type := mkUser { mu_email : bytes; mu_level : Z; mu_account : MemoryAccount }.

Record Validator : Type := mkValidator {
  vd_email : gmap bytes MemoryUser;
  vd_users : gmap bytes MemoryUser;
  vd_md5_users : gmap bytes MemoryUser;
}.

Definition Validator_new : Validator := mkValidator ∅ ∅ ∅.

Section validator.
Context `{!TrojanHash} `{!StdText}.

Definition key_hash (u : MemoryUser) : bytes := hex_string (ac_key (mu_account u)).
Definition user_md5 (u : MemoryUser) : bytes := md5_key (ac_password (mu_account u)).

Definition Validator_add (user : MemoryUser) (v : Validator) : result TrojanError unit * Validator :=
  let store email := mkValidator email (<[ key_hash user := user ]> (vd_users v)) (<[ user_md5 user := user ]> (vd_md5_users v)) in
  if bool_decide (mu_email user = []) then (Ok tt, store (vd_email v))
  else
    let email_lower := to_lowercase (mu_email user) in
    match vd_email v !! email_lower with
    | Some _ => (Err (UserAlreadyExists (mu_email user)), v)
    | None => (Ok tt, store (<[ email_lower := user ]> (vd_email v)))
    end.

Definition Validator_del (email : bytes) (v : Validator) : result TrojanError unit * Validator :=
  if bool_decide (email = []) then (Err EmptyEmail, v)
  else
    let email_lower := to_lowercase email in
    match vd_email v !! email_lower with
    | None => (Err (UserNotFoundByEmail email), v)
    | Some user =>
        (Ok tt, mkValidator (delete email_lower (vd_email v)) (delete (key_hash user) (vd_users v)) (delete (user_md5 user) (vd_md5_users v)))
    end.

Definition Validator_get (v : Validator) (hash : bytes) : option MemoryUser := vd_users v !! hash.
Definition get_by_email (v : Validator) (email : bytes) : option MemoryUser := vd_email v !! to_lowercase email.
Definition get_all (v : Validator) : list MemoryUser := map snd (map_to_list (vd_email v)).
Definition get_count (v : Validator) : Z := Z.of_nat (size (vd_email v)).
Definition get_key_count (v : Validator) : Z := Z.of_nat (size (vd_users v)).
Definition get_by_key (v : Validator) (key : bytes) : option MemoryUser := Validator_get v (hex_string key).
Definition get_by_md5 (v : Validator) (key : bytes) : option MemoryUser := vd_md5_users v !! key.

(** [serve_trojan]: the configured users, those that fail skipped. *)
Definition load_users (users : list MemoryUser) : Validator :=
  fold_left (fun v user => (Validator_add user v).2) users Validator_new.
End validator.

(** * The handshake *)

Abbreviation Handshake := (Step TrojanError).

(** [read_exact(..).await.map_err(..)?] under the deadline of the whole handshake. *)
Definition read_exact (n : Z) (e : TrojanError) : Handshake bytes :=
  read_exact_or (fun f => match f with TimedOut => HandshakeTimeout | _ => e end) n.


Definition read_addr_port_from_stream : Handshake (Address * Z) :=
  atyp_buf ← read_exact 1 ReadAddressPort;
  let atyp := atyp_buf @ 0 in
  if atyp =? ATYP_IPV4 then
    buf ← read_exact 6 ReadAddressPort;
    mret (IPv4 buf[: 0, 4], be_val buf[: 4, 6])
  else if atyp =? ATYP_DOMAIN then
    len_buf ← read_exact 1 ReadAddressPort;
    let len := len_buf @ 0 in
    buf ← read_exact (len + 2) ReadAddressPort;
    if utf8_valid buf[: 0, len] then mret (Domain buf[: 0, len], be_val buf[: len, len + 2])
    else hs_fail InvalidRemoteAddress
  else if atyp =? ATYP_IPV6 then
    buf ← read_exact 18 ReadAddressPort;
    mret (IPv6 buf[: 0, 16], be_val buf[: 16, 18])
  else hs_fail ReadAddressPort.

Section handshake.
Context `{!TrojanHash}.

Definition read_crlf : Handshake unit :=
  crlf ← read_exact 2 ReadCrlf;
  if bool_decide (crlf = CRLF) then mret tt else hs_fail ReadCrlf.

Definition trojan_server_handshake (v : Validator) : Handshake (TrojanNetwork * Address * Z * MemoryUser) :=
  first ← read_exact 1 ReadUserHash;
  if first @ 0 =? V2_VERSION then
    md5_buf ← read_exact MD5_KEY_LEN ReadUserHash;
    user ← hs_ok_or UserNotFound (get_by_md5 v md5_buf);
    '(addr, port) ← read_addr_port_from_stream;
    mret (NetTcp, addr, port, user)
  else if negb (is_v1_hex_prefix (first @ 0)) then hs_fail (InvalidVersionPrefix (first @ 0))
  else
    rest ← read_exact 55 ReadUserHash;
    user ← hs_ok_or UserNotFound (get_by_key v (first ++ rest));
    read_crlf ;;
    cmd_buf ← read_exact 1 ReadCommand;
    let network := from_command (cmd_buf @ 0) in
    '(addr, port) ← read_addr_port_from_stream;
    read_crlf ;;
    mret (network, addr, port, user).

(** * What a connection becomes *)

Inductive ConnOutcome : Type :=
| UdpRelay (rest : list ReadEvent)
| Dispatch (dest : Destination) (email : bytes) (level : Z) (rest : list ReadEvent)
| ForwardTo (dest : bytes) (sent : bytes)
| Dropped.

Context `{!StdText} `{!IpText}.

Definition handle_trojan_connection (keys : gmap bytes AlpnNode -> list bytes) (recorder : RecordingStream) (v : Validator)
    (fb_policy : option FallbackPolicy) (peer local : SocketAddr) (tls_name tls_alpn : bytes) : ConnOutcome :=
  match trojan_server_handshake v recorder with
  | (Ok (network, addr, port, user), recorder) =>
      if bool_decide (network = NetUdp) then UdpRelay (rs_inner recorder)
      else Dispatch (Destination_new addr (Port_new port) TCP) (mu_email user) (mu_level user) (rs_inner recorder)
  | (Err _, recorder) =>
      match fb_policy with
      | None => Dropped
      | Some fb_policy =>
          let path := default [] (extract_path_from_first_bytes (rs_buf recorder)) in
          match decide_fallback keys fb_policy tls_name tls_alpn path with
          | None => Dropped
          | Some fb => ForwardTo (fb_dest fb) (fallback_to_dest (stream_bytes (rs_inner recorder)) (rs_buf recorder) peer local (to_u8 (fb_xver fb)))
          end
      end
  end.
End handshake.

(** * The datagram relay *)

(** The loop over the frames in [buf]; [sent] is what went to the dispatcher.  Every frame
    takes at least a byte, so [length buf] turns and one are enough. *)
Fixpoint relay_parse (fuel : nat) (buf : bytes) (consumed : Z) (sent : list (Destination * bytes))
    : option (Z * list (Destination * bytes) * bool) :=
  match fuel with
  | O => None
  | S fuel =>
      match parse_udp_packet_stream (zdrop consumed buf) with
      | Ok (Some (addr, port, payload, used)) =>
          relay_parse fuel buf (consumed + used) (sent ++ [(Destination_new addr (Port_new port) UDP, payload)])
      | Ok None => Some (consumed, sent, false)
      | Err _ => Some (consumed, sent, true)
      end
  end.

Record UdpRelayState : Type := mkRelay {
  rl_buf : bytes;
  rl_sent : list (Destination * bytes);
  rl_written : bytes;
  rl_stopped : bool;
}.

Definition UdpRelay_new : UdpRelayState := mkRelay [] [] [] false.

(** What the two branches of [select!] find: bytes of the client ([None]: its end or an
    error), or a datagram from the dispatcher ([None]: closed); [written] says whether the
    client could be written to. *)
Inductive RelayEvent : Type :=
| ClientRead (r : option bytes)
| DispatcherRecv (r : option (Destination * bytes)) (written : bool).

Definition rl_stop (s : UdpRelayState) : UdpRelayState := mkRelay (rl_buf s) (rl_sent s) (rl_written s) true.

Definition relay_turn (s : UdpRelayState) (e : RelayEvent) : option UdpRelayState :=
  if rl_stopped s then Some s
  else
    match e with
    | ClientRead None => Some (rl_stop s)
    | ClientRead (Some chunk) =>
        if zlen chunk =? 0 then Some (rl_stop s)
        else
          let buf := rl_buf s ++ chunk in
          match relay_parse (S (length buf)) buf 0 (rl_sent s) with
          | None => None
          | Some (consumed, sent, fatal) =>
              let buf := if 0 <? consumed then zdrop consumed buf else buf in
              Some (mkRelay buf sent (rl_written s) fatal)
          end
    | DispatcherRecv None _ => Some (rl_stop s)
    | DispatcherRecv (Some (source, payload)) written =>
        match write_udp_packet [] (Destination_address source) (Port_value (Destination_port source)) payload with
        | (Err _, _) => Some (rl_stop s)
        | (Ok _, packet) =>
            if written then Some (mkRelay (rl_buf s) (rl_sent s) (rl_written s ++ packet) false) else Some (rl_stop s)
        end
    end.

Fixpoint handle_trojan_udp_relay (evs : list RelayEvent) (s : UdpRelayState) : option UdpRelayState :=
  match evs with
  | [] => Some s
  | e :: evs => match relay_turn s e with None => None | Some s => handle_trojan_udp_relay evs s end
  end.
