(* ===== verification/TrojanClient.v ===== *)
(** [xray-proxy-trojan/src/dispatcher.rs] and [client.rs]: the outbound side, which writes
    the request header and, for datagrams, frames what is written and unframes what is read
    ([TrojanUdpFramedConn]).

    The inner connection is what its polls will answer: a list of [WritePoll] for writing
    and of [ReadEvent] for reading, [Silence] being [Pending]. *)
From Stdlib Require Import List.
From stdpp Require Import base tactics option list numbers.
From S2P Require Import Prelude Bytes AsyncIo NetTypes Mph TrojanProto TrojanServer.

Record TrojanOutboundConfig : Type := mkTrojanOutbound {
  to_account : MemoryAccount;
  to_server_address : Address;
  to_server_port : Port;
  to_level : Z;
  to_email : bytes;
}.

Definition server_destination (c : TrojanOutboundConfig) : Destination := Destination_tcp (to_server_address c) (to_server_port c).

(** What [make_dial_fn] and [TrojanClient::process] write to the server first. *)
Definition dial_header (account : MemoryAccount) (dest : Destination) : result TrojanError unit * bytes :=
  let network := if Destination_is_udp dest then NetUdp else NetTcp in
  write_request_header [] account network (Destination_address dest) (Port_value (Destination_port dest)).

(** * Framing *)

Record TrojanUdpFramedConn : Type := mkFramed {
  fc_addr : Address;
  fc_port : Z;
  fc_rbuf : bytes;
  fc_wpending : bytes;
  fc_wpos : Z;
}.

Definition FramedConn_new (addr : Address) (port : Z) : TrojanUdpFramedConn := mkFramed addr port [] [] 0.

(** [while this.wpos < this.wpending.len()]; an answer takes at most what it is offered. *)
Fixpoint write_frame (polls : list WritePoll) (wire : bytes) (c : TrojanUdpFramedConn) : Poll unit * TrojanUdpFramedConn * WriteHalf :=
  if fc_wpos c <? zlen (fc_wpending c) then
    match polls with
    | [] => (Pending, c, mkWriteHalf [] wire)
    | WritePending :: polls => (Pending, c, mkWriteHalf polls wire)
    | WriteFailed :: polls => (PollErr, c, mkWriteHalf polls wire)
    | WriteReady n :: polls =>
        let n := Z.min n (zlen (fc_wpending c) - fc_wpos c) in
        if n =? 0 then (PollErr, c, mkWriteHalf polls wire)
        else
          write_frame polls (wire ++ (fc_wpending c)[: fc_wpos c, fc_wpos c + n])
            (mkFramed (fc_addr c) (fc_port c) (fc_rbuf c) (fc_wpending c) (fc_wpos c + n))
    end
  else (Ready tt, c, mkWriteHalf polls wire).

Definition FramedConn_poll_write (buf : bytes) (c : TrojanUdpFramedConn) (w : WriteHalf) : Poll Z * TrojanUdpFramedConn * WriteHalf :=
  match write_frame (wh_polls w) (wh_wire w) c with
  | (Pending, c, w) => (Pending, c, w)
  | (PollErr, c, w) => (PollErr, c, w)
  | (Ready _, c, w) =>
      let chunk := ztake (Z.min (zlen buf) MAX_LENGTH) buf in
      match write_udp_packet [] (fc_addr c) (fc_port c) chunk with
      | (Err _, frame) => (PollErr, mkFramed (fc_addr c) (fc_port c) (fc_rbuf c) frame (fc_wpos c), w)
      | (Ok _, frame) =>
          match write_frame (wh_polls w) (wh_wire w) (mkFramed (fc_addr c) (fc_port c) (fc_rbuf c) frame 0) with
          | (Ready _, c, w) => (Ready (zlen chunk), c, w)
          | (Pending, c, w) => (Pending, c, w)
          | (PollErr, c, w) => (PollErr, c, w)
          end
      end
  end.

(** * Unframing *)

Definition fc_set_rbuf (rbuf : bytes) (c : TrojanUdpFramedConn) : TrojanUdpFramedConn :=
  mkFramed (fc_addr c) (fc_port c) rbuf (fc_wpending c) (fc_wpos c).

(** A frame at the head of the buffer, handed to a reader with [room] bytes left. *)
Definition take_frame (room : Z) (c : TrojanUdpFramedConn) : option (Poll bytes * TrojanUdpFramedConn) :=
  if zlen (fc_rbuf c) =? 0 then None
  else
    match parse_udp_packet_stream (fc_rbuf c) with
    | Ok (Some (_, _, payload, consumed)) =>
        let n := Z.min (zlen payload) room in
        let keep_from := consumed - zlen payload + n in
        Some (Ready (ztake n payload), fc_set_rbuf (zdrop keep_from (fc_rbuf c)) c)
    | Ok None => None
    | Err _ => Some (PollErr, c)
    end.

(** The loop of [poll_read]; the inner stream holds chunks of at most 8192 bytes. *)
Fixpoint FramedConn_poll_read (room : Z) (inner : list ReadEvent) (c : TrojanUdpFramedConn)
    : Poll bytes * TrojanUdpFramedConn * list ReadEvent :=
  match take_frame room c with
  | Some (r, c) => (r, c, inner)
  | None =>
      let eof := if zlen (fc_rbuf c) =? 0 then Ready [] else PollErr in
      match inner with
      | [] => (eof, c, [])
      | Data bs :: inner =>
          if zlen bs =? 0 then (eof, c, inner) else FramedConn_poll_read room inner (fc_set_rbuf (fc_rbuf c ++ bs) c)
      | IoFailure :: inner => (PollErr, c, inner)
      | Silence :: inner => (Pending, c, inner)
      end
  end.
