(* ===== verification/TrojanProps.v ===== *)
(** What the trojan codec and server do: round trips, what is accepted, what the relay
    delivers, which users are found. *)
From Stdlib Require Import List.
From stdpp Require Import base tactics option list numbers gmap.
From S2P Require Import Prelude Bytes AsyncIo NetTypes BytesMut Buffer AddrCodec StrMatch Mph Fallback TrojanProto TrojanServer.

(** * Addresses on the wire *)

Definition socks_wire (a : Address) : bytes :=
  match a with
  | IPv4 o => ATYP_IPV4 :: o
  | Domain s => ATYP_DOMAIN :: zlen s :: s
  | IPv6 o => ATYP_IPV6 :: o
  end.

Definition target_bytes (a : Address) (port : Z) : bytes := socks_wire a ++ be16 port.

Lemma trojan_write_wire out a port : encodable a -> trojan_write_address_port out a port = (Ok tt, out ++ target_bytes a port).
Proof.
  intros [_ Hl]. unfold trojan_write_address_port, target_bytes. destruct a as [o|o|s]; cbn [socks_wire app]; [done|done|].
  destruct (Z.leb_spec (zlen s) 255); [done|lia].
Qed.

Lemma trojan_write_ok out a port r out' : address_ok a -> trojan_write_address_port out a port = (r, out') ->
  match r with Ok _ => encodable a /\ out' = out ++ target_bytes a port | Err e => e = WriteAddress /\ out' = out /\ ~ encodable a end.
Proof.
  intros Hok. unfold trojan_write_address_port. destruct a as [o|o|s]; [intros [= <- <-]; done..|].
  destruct (Z.leb_spec (zlen s) 255); intros [= <- <-]; [done|]. split_and!; [done|done|]. intros [_ ?]. lia.
Qed.

Lemma socks_wire_pos a : 1 <= zlen (socks_wire a).
Proof. destruct a; cbn [socks_wire]; zlia. Qed.

Lemma read_socks_wire a rest : encodable a -> trojan_read_address (socks_wire a ++ rest) = Ok (a, zlen (socks_wire a)).
Proof.
  intros [Hok Hlen]. unfold trojan_read_address. pose proof (zlen_nonneg rest) as Hr.
  destruct a as [o|o|s]; cbn [socks_wire app]; rewrite byte_at_cons;
    cbn [Z.eqb ATYP_IPV4 ATYP_DOMAIN ATYP_IPV6 Pos.eqb].
  - destruct Hok as [_ Ho]. zlens. zcase_goal; [lia|]. rewrite slice_cons, slice_app_head by lia. by rewrite Ho.
  - destruct Hok as [_ Ho]. zlens. zcase_goal; [lia|]. rewrite slice_cons, slice_app_head by lia. by rewrite Ho.
  - change ((ATYP_DOMAIN :: zlen s :: s ++ rest) @ 1) with (zlen s). pose proof (zlen_nonneg s). zlens.
    do 2 (zcase_goal; [lia|]). rewrite !slice_cons, slice_app_head by lia. destruct Hok as [_ ->]. do 2 f_equal. lia.
Qed.

(** A fact about the first [n] bytes does not depend on what follows them. *)
Lemma byte_at_app_l (b x : bytes) i : 0 <= i < zlen b -> (b ++ x) @ i = b @ i.
Proof. unfold byte_at, zlen. intros. rewrite app_nth1 by lia. done. Qed.

(** Whether a result stands whatever bytes follow. *)
Definition stands {A} (r r' : result TrojanError A) : Prop := r' = r \/ exists n m, r = Err (InsufficientData n m).

Lemma ltb_more (b x : bytes) k : (zlen b <? k) = false -> (zlen (b ++ x) <? k) = false.
Proof. rewrite !Z.ltb_ge. zlia. Qed.

Lemma read_address_more b x : b <> [] -> stands (trojan_read_address b) (trojan_read_address (b ++ x)).
Proof.
  intros Hb. assert (1 <= zlen b) by (destruct b; [done|zlia]). unfold trojan_read_address, stands.
  rewrite (byte_at_app_l b x 0) by lia.
  destruct (b @ 0 =? ATYP_IPV4).
  { destruct (zlen b <? 1 + 4) eqn:E; [by eauto|left]. rewrite (ltb_more b x) by done. apply Z.ltb_ge in E. by rewrite slice_app_l by lia. }
  destruct (b @ 0 =? ATYP_DOMAIN).
  { destruct (zlen b <? 1 + 1) eqn:E; [by eauto|]. rewrite (ltb_more b x) by done. apply Z.ltb_ge in E. rewrite (byte_at_app_l b x 1) by lia.
    destruct (zlen b <? 1 + 1 + b @ 1) eqn:E2; [by eauto|left]. rewrite (ltb_more b x) by done. apply Z.ltb_ge in E2. by rewrite slice_app_l by lia. }
  destruct (b @ 0 =? ATYP_IPV6); [|by left].
  destruct (zlen b <? 1 + 16) eqn:E; [by eauto|left]. rewrite (ltb_more b x) by done. apply Z.ltb_ge in E. by rewrite slice_app_l by lia.
Qed.

Lemma read_address_socks_inv b a n : bytes_ok b -> b <> [] -> trojan_read_address b = Ok (a, n) ->
  encodable a /\ n = zlen (socks_wire a) /\ ztake n b = socks_wire a.
Proof.
  intros Hb Hne. unfold trojan_read_address, encodable. destruct b as [|t b]; [done|]. rewrite byte_at_cons. inversion Hb as [|? ? Ht Hd]; subst.
  assert (Hs : forall k, 0 <= k -> (t :: b)[: 1, 1 + k] = ztake k b /\ ztake (1 + k) (t :: b) = t :: ztake k b).
  { intros k Hk. rewrite slice_cons, ztake_cons, slice_0 by lia. split; [|f_equal]; f_equal; lia. }
  destruct (Z.eqb_spec t ATYP_IPV4) as [->|_].
  { zcase_goal; [done|]. intros [= <- <-]. destruct (Hs 4) as [E1 E2]; [lia|]. rewrite E1, E2. zlens.
    split; [split; [split; [auto with xray|zlia]|done]|]. split; [cbn [socks_wire]; zlia|done]. }
  destruct (Z.eqb_spec t ATYP_DOMAIN) as [->|_].
  { zcase_goal; [done|]. destruct b as [|l b]; [zlia|]. change ((ATYP_DOMAIN :: l :: b) @ 1) with l. inversion Hd as [|? ? Hl Hd']; subst.
    unfold is_u8 in Hl. zcase_goal; [done|]. destruct (utf8_valid _) eqn:Eu; [|done]. intros [= <- <-].
    rewrite !slice_cons in * by lia. replace (1 + 1 - 1 - 1) with 0 in * by lia. replace (1 + 1 + l - 1 - 1) with l in * by lia. rewrite slice_0 in *.
    assert (Hz : zlen (ztake l b) = l) by zlia. split; [split; [split; [auto with xray|done]|lia]|]. split.
    - cbn [socks_wire]. zlens. lia.
    - rewrite !ztake_cons by lia. cbn [socks_wire]. rewrite Hz. do 3 f_equal. lia. }
  destruct (Z.eqb_spec t ATYP_IPV6) as [->|_]; [|done].
  zcase_goal; [done|]. intros [= <- <-]. destruct (Hs 16) as [E1 E2]; [lia|]. rewrite E1, E2. zlens.
  split; [split; [split; [auto with xray|zlia]|done]|]. split; [cbn [socks_wire]; zlia|done].
Qed.

Lemma read_target_bytes a port rest : encodable a -> is_u16 port ->
  trojan_read_address_port (target_bytes a port ++ rest) = Ok (a, port, zlen (target_bytes a port)).
Proof.
  intros Ha Hp. unfold trojan_read_address_port, target_bytes. rewrite <- app_assoc. rewrite read_socks_wire by done. cbn [mbind result_bind].
  pose proof (socks_wire_pos a). pose proof (zlen_nonneg rest). zlens. zcase_goal; [lia|]. zcase_goal; [lia|].
  rewrite slice_app_skip by lia. rewrite Z.sub_diag, slice_app_head by (zlens; lia). by rewrite be16_val by done.
Qed.

Lemma read_target_inv b a port n : bytes_ok b -> trojan_read_address_port b = Ok (a, port, n) ->
  encodable a /\ is_u16 port /\ n = zlen (target_bytes a port) /\ b = target_bytes a port ++ zdrop n b.
Proof.
  intros Hb. unfold trojan_read_address_port. destruct (Z.eqb_spec (zlen b) 0) as [|Hne]; [done|].
  destruct (trojan_read_address b) as [[a' pos]|e] eqn:E; [|done]. cbn [mbind result_bind].
  zcase_goal; [done|]. intros [= -> <- <-].
  destruct (read_address_socks_inv b a pos Hb ltac:(by intros ->) E) as (Ha & -> & Et). pose proof (socks_wire_pos a).
  assert (Hp : zlen b[: zlen (socks_wire a), zlen (socks_wire a) + 2] = 2) by zlia.
  assert (Hok : bytes_ok b[: zlen (socks_wire a), zlen (socks_wire a) + 2]) by auto with xray.
  split_and!; [done|by apply be_val_u16|unfold target_bytes; zlens; lia|]. unfold target_bytes. rewrite be16_of_val by done.
  rewrite <- Et at 1. rewrite <- app_assoc. rewrite <- (ztake_drop (zlen (socks_wire a)) b) at 1. f_equal.
  unfold slice. replace (zlen (socks_wire a) + 2 - zlen (socks_wire a)) with 2 by lia.
  rewrite <- (zdrop_drop 2 (zlen (socks_wire a))) by lia. by rewrite ztake_drop.
Qed.

Lemma read_target_more b x : bytes_ok b -> stands (trojan_read_address_port b) (trojan_read_address_port (b ++ x)).
Proof.
  intros Hb. unfold trojan_read_address_port, stands. destruct (Z.eqb_spec (zlen b) 0) as [|Hne]; [by eauto|].
  destruct (Z.eqb_spec (zlen (b ++ x)) 0) as [|Hne2]; [zlia|].
  destruct (read_address_more b x ltac:(by intros ->)) as [->|(n & m & ->)]; [|by eauto].
  destruct (trojan_read_address b) as [[a pos]|e] eqn:Er; cbn [mbind result_bind]; [|by left].
  apply read_address_socks_inv in Er as (_ & -> & _); [|done|by intros ->]. pose proof (socks_wire_pos a).
  destruct (zlen b <? _) eqn:E; [by eauto|left]. rewrite (ltb_more b x) by done. apply Z.ltb_ge in E. by rewrite slice_app_l by lia.
Qed.

(** * Datagram frames *)

(** The two bytes after the length are not looked at by the parsers. *)
Definition frame_with (sep : bytes) (a : Address) (port : Z) (payload : bytes) : bytes :=
  target_bytes a port ++ be16 (zlen payload) ++ sep ++ payload.

Definition packet_ok (a : Address) (port : Z) (payload : bytes) : Prop := encodable a /\ is_u16 port /\ zlen payload <= MAX_LENGTH.

Lemma write_udp_frame out a port payload : encodable a -> zlen payload <= 65535 ->
  write_udp_packet out a port payload = (Ok (zlen (frame_with CRLF a port payload)), out ++ frame_with CRLF a port payload).
Proof.
  intros Ha Hl. unfold write_udp_packet. rewrite trojan_write_wire by done. destruct (Z.leb_spec (zlen payload) 65535); [|lia].
  unfold frame_with. rewrite <- !app_assoc. do 2 f_equal. zlens. lia.
Qed.

Lemma parse_frame sep a port payload rest : packet_ok a port payload -> zlen sep = 2 ->
  parse_udp_packet_stream (frame_with sep a port payload ++ rest) =
    Ok (Some (a, port, payload, zlen (frame_with sep a port payload))).
Proof.
  intros (Ha & Hp & Hl) Hs. unfold MAX_LENGTH in Hl. unfold parse_udp_packet_stream, frame_with. rewrite <- !app_assoc, read_target_bytes by done.
  set (t := target_bytes a port). pose proof (zlen_nonneg t). pose proof (zlen_nonneg payload). pose proof (zlen_nonneg rest).
  rewrite (slice_app_skip _ _ t) by lia. rewrite Z.sub_diag, slice_app_head by (zlens; lia).
  rewrite be16_val by (unfold is_u16; lia). zlens. unfold MAX_LENGTH. do 4 (zcase_goal; [lia|]).
  rewrite (slice_app_skip _ _ t), (slice_app_skip _ _ (be16 _)), (slice_app_skip _ _ sep) by (zlens; lia). zlens.
  do 3 f_equal; [|lia]. f_equal. replace (zlen t + 2 + 2 - zlen t - 2 - zlen sep) with 0 by lia. apply slice_app_head. lia.
Qed.

Lemma parse_frame_inv b a port payload used : bytes_ok b -> parse_udp_packet_stream b = Ok (Some (a, port, payload, used)) ->
  packet_ok a port payload /\ exists sep rest, zlen sep = 2 /\ b = frame_with sep a port payload ++ rest /\ used = zlen (frame_with sep a port payload).
Proof.
  intros Hb. unfold parse_udp_packet_stream. destruct (trojan_read_address_port b) as [[[a' p'] n]|e] eqn:E; [|by destruct e].
  destruct (read_target_inv b a' p' n Hb E) as (Ha & Hp & -> & Eb). set (t := target_bytes a' p') in *. set (r := zdrop (zlen t) b) in *.
  assert (Hr : bytes_ok r) by (by apply zdrop_Forall). clearbody r. subst b. clear E.
  pose proof (zlen_nonneg t). pose proof (zlen_nonneg r). zlens. zcase_goal; [done|].
  rewrite (slice_app_skip _ _ t) by lia. rewrite Z.sub_diag. replace (zlen t + 2 - zlen t) with 2 by lia.
  assert (Hu : is_u16 (be_val r[: 0, 2])) by (apply be_val_u16; [auto with xray|zlens; lia]).
  set (len := be_val r[: 0, 2]) in *. unfold is_u16 in Hu. destruct (Z.ltb_spec MAX_LENGTH len); [done|].
  destruct (Z.ltb_spec (zlen t + zlen r) (zlen t + 2 + 2)); [done|].
  destruct (Z.ltb_spec (zlen t + zlen r) (zlen t + 2 + 2 + len)); [done|]. intros [= -> -> <- <-].
  rewrite (slice_app_skip _ _ t) by lia. replace (zlen t + 2 + 2 - zlen t) with 4 by lia. replace (zlen t + 2 + 2 + len - zlen t) with (4 + len) by lia.
  assert (Hl : zlen r[: 4, 4 + len] = len) by (zlens; lia).
  split; [split_and!; [done|done|lia]|]. exists r[: 2, 4], (zdrop (4 + len) r). split_and!; [zlens; lia| |].
  - unfold frame_with. fold t. rewrite Hl. rewrite <- !app_assoc. f_equal. subst len. rewrite be16_of_val by (auto with xray; zlens; lia).
    set (len := be_val r[: 0, 2]) in *. clearbody len.
    rewrite <- (ztake_drop 2 r) at 1. rewrite slice_0. f_equal. unfold slice. replace (4 - 2) with 2 by lia. replace (4 + len - 4) with len by lia.
    rewrite <- (ztake_drop 2 (zdrop 2 r)) at 1. f_equal. rewrite zdrop_drop by lia. rewrite <- (ztake_drop len (zdrop (2 + 2) r)) at 1.
    f_equal. by rewrite zdrop_drop by lia.
  - unfold frame_with. fold t. zlens. lia.
Qed.

(** A fatal error stands whatever follows, and so does a frame. *)
Lemma parse_stream_more b x : bytes_ok b -> parse_udp_packet_stream b = Ok None \/ parse_udp_packet_stream (b ++ x) = parse_udp_packet_stream b.
Proof.
  intros Hb. unfold parse_udp_packet_stream. destruct (read_target_more b x Hb) as [->|(n & m & ->)]; [|by left].
  destruct (trojan_read_address_port b) as [[[a p] n]|e] eqn:E; [|by right].
  destruct (read_target_inv b a p n Hb E) as (_ & _ & -> & _). set (n := zlen (target_bytes a p)). assert (0 <= n) by apply zlen_nonneg.
  destruct (zlen b <? n + 2) eqn:E1; [by left|]. rewrite (ltb_more b x) by done. apply Z.ltb_ge in E1. rewrite (slice_app_l n) by lia.
  assert (Hu : is_u16 (be_val b[: n, n + 2])) by (apply be_val_u16; [auto with xray|zlens; lia]). set (len := be_val _) in *. unfold is_u16 in Hu.
  destruct (MAX_LENGTH <? len); [by right|].
  destruct (zlen b <? n + 2 + 2) eqn:E2; [by left|]. rewrite (ltb_more b x) by done.
  destruct (zlen b <? n + 2 + 2 + len) eqn:E3; [by left|]. rewrite (ltb_more b x) by done. apply Z.ltb_ge in E3. rewrite slice_app_l by lia. by right.
Qed.

(** * The loop over frames *)

(** [all] is frames of the packets, then [rest]. *)
Inductive frames_of : bytes -> list (Destination * bytes) -> bytes -> Prop :=
| frames_nil rest : frames_of rest [] rest
| frames_cons sep a port payload all packets rest : packet_ok a port payload -> zlen sep = 2 -> frames_of all packets rest ->
    frames_of (frame_with sep a port payload ++ all) ((Destination_new a (Port_new port) UDP, payload) :: packets) rest.

Lemma frames_app all ps mid qs rest : frames_of all ps mid -> frames_of mid qs rest -> frames_of all (ps ++ qs) rest.
Proof. induction 1; intros Hm; [done|]. cbn. constructor; auto. Qed.

Lemma frames_extend all ps rest x : frames_of all ps rest -> frames_of (all ++ x) ps (rest ++ x).
Proof. induction 1; [constructor|]. rewrite <- app_assoc. by constructor. Qed.

Lemma frame_pos sep a port payload : zlen sep = 2 -> 1 <= zlen (frame_with sep a port payload).
Proof. intros Hs. unfold frame_with, target_bytes. pose proof (socks_wire_pos a). zlia. Qed.

Lemma relay_parse_spec fuel buf : forall consumed sent, bytes_ok buf -> 0 <= consumed <= zlen buf -> zlen buf - consumed < Z.of_nat fuel ->
  exists new consumed' fatal, relay_parse fuel buf consumed sent = Some (consumed', sent ++ new, fatal) /\
    0 <= consumed' <= zlen buf /\ frames_of (zdrop consumed buf) new (zdrop consumed' buf) /\
    if fatal : bool then exists e, parse_udp_packet_stream (zdrop consumed' buf) = Err e
    else parse_udp_packet_stream (zdrop consumed' buf) = Ok None.
Proof.
  induction fuel as [|fuel IH]; intros consumed sent Hb Hc Hf; [lia|]. cbn [relay_parse].
  destruct (parse_udp_packet_stream (zdrop consumed buf)) as [[[[[a p] payload] used]|]|e] eqn:E.
  - destruct (parse_frame_inv (zdrop consumed buf) a p payload used) as (Hp & sep & rest & Hs & Eb & ->); [by apply zdrop_Forall|done|].
    set (fr := frame_with sep a p payload) in *. pose proof (frame_pos sep a p payload Hs) as Hpos. fold fr in Hpos.
    assert (Hlen : zlen (zdrop consumed buf) = zlen fr + zlen rest) by (rewrite Eb; by zlens). zlens. pose proof (zlen_nonneg rest).
    destruct (IH (consumed + zlen fr) (sent ++ [(Destination_new a (Port_new p) UDP, payload)]) Hb) as (new & c' & fatal & -> & Hc' & Hfr & Hend); [lia..|].
    exists ((Destination_new a (Port_new p) UDP, payload) :: new), c', fatal. rewrite <- app_assoc. split_and!; [done|lia|lia| |done].
    rewrite <- zdrop_drop, Eb, zdrop_app in Hfr by (done || lia). rewrite Eb. by constructor.
  - exists [], consumed, false. rewrite app_nil_r. split_and!; [done|lia|lia|constructor|done].
  - exists [], consumed, true. rewrite app_nil_r. split_and!; [done|lia|lia|constructor|by exists e].
Qed.

(** * The relay *)

Abbreviation Packet := (Address * Z * bytes)%type.
Definition frame_of (p : Packet) : bytes := frame_with CRLF p.1.1 p.1.2 p.2.
Definition as_datagram (p : Packet) : Destination * bytes := (Destination_new p.1.1 (Port_new p.1.2) UDP, p.2).
Definition packets_ok (ps : list Packet) : Prop := Forall (fun p => packet_ok p.1.1 p.1.2 p.2) ps.

(** What the events of a relay carry. *)
Definition client_part (e : RelayEvent) : bytes := match e with ClientRead (Some bs) => bs | _ => [] end.
Definition dispatcher_part (e : RelayEvent) : list (Destination * bytes) := match e with DispatcherRecv (Some d) _ => [d] | _ => [] end.
Definition client_bytes (evs : list RelayEvent) : bytes := concat (map client_part evs).
Definition dispatcher_packets (evs : list RelayEvent) : list (Destination * bytes) := concat (map dispatcher_part evs).
Definition reply_frame (d : Destination * bytes) : bytes :=
  frame_with CRLF (Destination_address d.1) (Port_value (Destination_port d.1)) d.2.

Definition relay_event_ok (e : RelayEvent) : Prop :=
  match e with
  | ClientRead (Some bs) => bytes_ok bs
  | DispatcherRecv (Some (d, payload)) _ => address_ok (Destination_address d) /\ zlen payload <= 65535
  | _ => True
  end.

(** An event that does not end the relay. *)
Definition relay_goes_on (e : RelayEvent) : Prop :=
  match e with
  | ClientRead (Some bs) => bs <> []
  | DispatcherRecv (Some (d, _)) written => encodable (Destination_address d) /\ written = true
  | _ => False
  end.

Lemma frames_unique all sent buf more ps : packets_ok ps -> frames_of all sent buf -> all ++ more = concat (map frame_of ps) ->
  exists qs, packets_ok qs /\ map as_datagram ps = sent ++ map as_datagram qs /\ buf ++ more = concat (map frame_of qs).
Proof.
  intros Hps Hf. revert ps Hps. induction Hf as [rest|sep a p payload all packets rest Hp Hs Hf IH]; intros ps Hps E; [by exists ps|].
  destruct ps as [|[[a' p'] pl'] ps].
  { apply (f_equal zlen) in E. cbn in E. zlens. pose proof (frame_pos sep a p payload Hs). zlen_facts. lia. }
  inversion Hps as [|? ? Hp' Hps']; subst. cbn in Hp'. cbn [map concat] in E. unfold frame_of at 1 in E. cbn [fst snd] in E.
  rewrite <- app_assoc in E. pose proof (parse_frame sep a p payload (all ++ more) Hp Hs) as E1.
  rewrite E, parse_frame in E1 by done. injection E1 as -> -> -> El.
  apply app_inj_1 in E as [_ E]; [|unfold zlen in El; lia].
  destruct (IH ps Hps' E) as (qs & Hqs & Em & Eb). exists qs. split; [done|]. split; [|done]. cbn. by rewrite Em.
Qed.

(** On a prefix of well-formed frames the parser never fails. *)
Lemma parse_prefix buf more qs : bytes_ok buf -> packets_ok qs -> buf ++ more = concat (map frame_of qs) ->
  forall e, parse_udp_packet_stream buf <> Err e.
Proof.
  intros Hb Hqs E e He. destruct (parse_stream_more buf more Hb) as [H|H]; [congruence|]. rewrite E in H.
  destruct qs as [|[[a p] pl] qs]; cbn [map concat] in *.
  - apply app_nil in E as [-> _]. done.
  - inversion Hqs as [|? ? Hp _]; subst. unfold frame_of at 1 in H. cbn [fst snd] in *. rewrite parse_frame in H by done. congruence.
Qed.

Record relay_inv (all : bytes) (replies : list (Destination * bytes)) (s : UdpRelayState) : Prop := {
  ri_ok : bytes_ok all;
  ri_buf_ok : bytes_ok (rl_buf s);
  ri_frames : frames_of all (rl_sent s) (rl_buf s);
  ri_waits : rl_stopped s = false -> parse_udp_packet_stream (rl_buf s) = Ok None;
  ri_written : rl_written s = concat (map reply_frame replies);
}.

Lemma frames_rest_ok all ps rest : frames_of all ps rest -> bytes_ok all -> bytes_ok rest.
Proof. induction 1; [done|]. intros [_ ?]%Forall_app. auto. Qed.

Lemma relay_inv_stop all replies s : relay_inv all replies s -> relay_inv all replies (rl_stop s).
Proof. intros []. by constructor. Qed.

Lemma client_turn all replies s chunk : relay_inv all replies s -> rl_stopped s = false -> bytes_ok chunk -> chunk <> [] ->
  exists s', relay_turn s (ClientRead (Some chunk)) = Some s' /\ relay_inv (all ++ chunk) replies s' /\
    (rl_stopped s' = true -> exists e, parse_udp_packet_stream (rl_buf s') = Err e).
Proof.
  intros [H1 H2 H3 H4 H5] Hst Hc Hne. unfold relay_turn. rewrite Hst. destruct (Z.eqb_spec (zlen chunk) 0) as [E|_]; [destruct chunk; [done|zlia]|].
  set (buf := rl_buf s ++ chunk). assert (Hb : bytes_ok buf) by (by apply Forall_app).
  pose proof (zlen_nonneg buf). destruct (relay_parse_spec (S (length buf)) buf 0 (rl_sent s) Hb) as (new & c' & fatal & -> & Hc' & Hf & Hend);
    [lia|unfold zlen; lia|].
  eexists. split; [reflexivity|]. rewrite zdrop_le0 in Hf by lia.
  assert (Ebuf : (if 0 <? c' then zdrop c' buf else buf) = zdrop c' buf) by (zcase_goal; [done|by rewrite zdrop_le0 by lia]).
  split; [constructor; cbn [rl_buf rl_sent rl_written rl_stopped]; rewrite ?Ebuf|cbn [rl_buf rl_stopped]; rewrite Ebuf; by intros ->].
  - by apply Forall_app.
  - by apply zdrop_Forall.
  - eapply frames_app; [by apply frames_extend|done].
  - by intros ->.
  - done.
Qed.

Lemma dispatcher_turn all replies s d payload written : relay_inv all replies s -> rl_stopped s = false ->
  address_ok (Destination_address d) -> zlen payload <= 65535 ->
  exists s', relay_turn s (DispatcherRecv (Some (d, payload)) written) = Some s' /\
    (rl_stopped s' = false /\ relay_inv all (replies ++ [(d, payload)]) s' \/
     rl_stopped s' = true /\ relay_inv all replies s' /\ ~ (encodable (Destination_address d) /\ written = true)).
Proof.
  intros Hi Hst Ha Hl. unfold relay_turn. rewrite Hst.
  destruct (trojan_write_address_port [] (Destination_address d) (Port_value (Destination_port d))) as [r out] eqn:E.
  pose proof (trojan_write_ok _ _ _ _ _ Ha E) as H. destruct r as [[]|e].
  - destruct H as [He _]. rewrite write_udp_frame by done. cbn [app]. destruct written.
    + eexists. split; [reflexivity|]. left. split; [done|]. destruct Hi as [H1 H2 H3 H4 H5]. constructor; cbn; auto.
      rewrite H5, map_app, concat_app. cbn. by rewrite app_nil_r.
    + eexists. split; [reflexivity|]. right. split; [done|]. split; [by apply relay_inv_stop|]. by intros [_ ?].
  - destruct H as (_ & _ & He). unfold write_udp_packet. rewrite E. eexists. split; [reflexivity|]. right.
    split; [done|]. split; [by apply relay_inv_stop|]. by intros [? _].
Qed.

Lemma stopped_stays evs s : rl_stopped s = true -> handle_trojan_udp_relay evs s = Some s.
Proof. intros Hst. induction evs as [|e evs IH]; [done|]. cbn. unfold relay_turn. by rewrite Hst. Qed.

Lemma relay_run evs : forall all replies s, Forall relay_event_ok evs -> relay_inv all replies s -> rl_stopped s = false ->
  exists s' taken answered, handle_trojan_udp_relay evs s = Some s' /\ relay_inv (all ++ taken) (replies ++ answered) s' /\
    taken `prefix_of` client_bytes evs /\ answered `prefix_of` dispatcher_packets evs /\
    (rl_stopped s' = false -> taken = client_bytes evs /\ answered = dispatcher_packets evs) /\
    (Forall relay_goes_on evs -> rl_stopped s' = true -> exists e, parse_udp_packet_stream (rl_buf s') = Err e).
Proof.
  induction evs as [|ev evs IH]; intros all replies s Hok Hi Hst.
  { exists s, [], []. rewrite !app_nil_r. split_and!; try done. intros _. congruence. }
  assert (Hend : forall s1, relay_turn s ev = Some s1 -> relay_inv all replies s1 -> rl_stopped s1 = true -> ~ relay_goes_on ev ->
    exists s' taken answered, handle_trojan_udp_relay (ev :: evs) s = Some s' /\ relay_inv (all ++ taken) (replies ++ answered) s' /\
    taken `prefix_of` client_bytes (ev :: evs) /\ answered `prefix_of` dispatcher_packets (ev :: evs) /\
    (rl_stopped s' = false -> taken = client_bytes (ev :: evs) /\ answered = dispatcher_packets (ev :: evs)) /\
    (Forall relay_goes_on (ev :: evs) -> rl_stopped s' = true -> exists e, parse_udp_packet_stream (rl_buf s') = Err e)).
  { intros s1 E Hi1 Hst1 Hno. exists s1, [], []. cbn [handle_trojan_udp_relay]. rewrite E, stopped_stays, !app_nil_r by done.
    split_and!; [done|done|apply prefix_nil|apply prefix_nil|congruence|]. intros Hgo. by inversion Hgo. }
  inversion Hok as [|? ? Hev Hevs]; subst. destruct ev as [[chunk|]|[[d payload]|] written]; cbn in Hev.
  - destruct (decide (chunk = [])) as [->|Hne].
    { apply (Hend (rl_stop s)); [unfold relay_turn; by rewrite Hst|by apply relay_inv_stop|done|]. cbn. by intros []. }
    destruct (client_turn all replies s chunk Hi Hst Hev Hne) as (s1 & E & Hi1 & Hf). cbn [handle_trojan_udp_relay]. rewrite E.
    destruct (rl_stopped s1) eqn:Hst1.
    + rewrite stopped_stays by done. exists s1, chunk, []. rewrite app_nil_r. split_and!; [done|done| |apply prefix_nil|congruence|auto].
      unfold client_bytes. cbn. apply prefix_app_r, reflexivity.
    + destruct (IH _ _ _ Hevs Hi1 Hst1) as (s' & taken & answered & -> & Hi' & Ht & Ha & Hall & Hgo).
      exists s', (chunk ++ taken), answered. rewrite app_assoc. split_and!; [done|done|by apply prefix_app|done| |].
      * intros Hs'. destruct (Hall Hs') as [-> ->]. done.
      * intros Hg. inversion Hg; auto.
  - apply (Hend (rl_stop s)); [unfold relay_turn; by rewrite Hst|by apply relay_inv_stop|done|by intros []].
  - destruct Hev as [Ha Hl]. destruct (dispatcher_turn all replies s d payload written Hi Hst Ha Hl) as (s1 & E & [[Hst1 Hi1]|(Hst1 & Hi1 & Hno)]).
    + cbn [handle_trojan_udp_relay]. rewrite E. destruct (IH _ _ _ Hevs Hi1 Hst1) as (s' & taken & answered & -> & Hi' & Ht & Hans & Hall & Hgo).
      exists s', taken, ((d, payload) :: answered). split_and!; [done| |done|by apply prefix_cons| |].
      * by rewrite <- app_assoc in Hi'.
      * intros Hs'. destruct (Hall Hs') as [-> ->]. done.
      * intros Hg. inversion Hg; auto.
    + by apply (Hend s1).
  - apply (Hend (rl_stop s)); [unfold relay_turn; by rewrite Hst|by apply relay_inv_stop|done|by intros []].
Qed.

(** C33: the datagram relay.  However the client's bytes are cut into reads and interleaved
    with replies, the relay always returns, and what it has handed to the dispatcher are
    exactly the frames at the front of the client's bytes it took, in order, each payload
    once with its target; while it runs, no complete frame waits in its buffer, and what
    it wrote back are the frames of the replies, in order.  When the client sends
    well-formed frames, it does not stop by itself, what it handed on is a prefix of the
    client's datagrams, and all of them once all bytes have come. *)
Theorem trojan_relay_exact evs : Forall relay_event_ok evs ->
  exists s, handle_trojan_udp_relay evs UdpRelay_new = Some s /\
  (exists taken answered, taken `prefix_of` client_bytes evs /\ answered `prefix_of` dispatcher_packets evs /\
    frames_of taken (rl_sent s) (rl_buf s) /\ rl_written s = concat (map reply_frame answered) /\
    (rl_stopped s = false -> taken = client_bytes evs /\ answered = dispatcher_packets evs /\ parse_udp_packet_stream (rl_buf s) = Ok None)) /\
  (forall ps more, packets_ok ps -> client_bytes evs ++ more = concat (map frame_of ps) -> Forall relay_goes_on evs ->
    rl_stopped s = false /\ rl_sent s `prefix_of` map as_datagram ps /\ (more = [] -> rl_sent s = map as_datagram ps /\ rl_buf s = [])).
Proof.
  intros Hok. assert (Hi : relay_inv [] [] UdpRelay_new) by (constructor; cbn; try done; constructor).
  destruct (relay_run evs [] [] UdpRelay_new Hok Hi eq_refl) as (s & taken & answered & -> & Hs & Ht & Ha & Hall & Hgo).
  cbn [app] in Hs. exists s. split; [done|]. destruct Hs as [H1 H2 H3 H4 H5]. split.
  { exists taken, answered. split_and!; [done..|]. intros Hst. destruct (Hall Hst) as [-> ->]. auto. }
  intros ps more Hps E Hg. destruct Ht as [k Ek]. rewrite Ek, <- app_assoc in E.
  destruct (frames_unique taken (rl_sent s) (rl_buf s) (k ++ more) ps Hps H3 E) as (qs & Hqs & Em & Eb).
  assert (Hst : rl_stopped s = false).
  { destruct (rl_stopped s) eqn:Hst; [|done]. destruct (Hgo Hg eq_refl) as [e He]. exfalso. by apply (parse_prefix _ _ _ H2 Hqs Eb e). }
  split; [done|]. rewrite Em. split; [by apply prefix_app_r|]. intros ->. destruct (Hall Hst) as [Htk _].
  assert (k = []) as ->. { apply (f_equal length) in Ek. rewrite Htk, length_app in Ek. destruct k; [done|cbn in Ek; lia]. }
  cbn [app] in Eb. rewrite app_nil_r in Eb. destruct qs as [|[[a p] pl] qs]; [by rewrite app_nil_r|].
  specialize (H4 Hst). cbn [map concat] in Eb. unfold frame_of at 1 in Eb. cbn [fst snd] in Eb. inversion Hqs as [|? ? Hp _]; subst.
  rewrite Eb, parse_frame in H4 by done. done.
Qed.
