(* ===== verification/TrojanServerProps.v ===== *)
(** The trojan server: the handshake against what the client writes, what it accepts, what
    a rejected connection turns into, and who is a user. *)
From Stdlib Require Import List.
From stdpp Require Import base tactics option list numbers gmap.
From S2P Require Import Prelude Bytes AsyncIo NetTypes BytesMut Buffer AddrCodec StrMatch Mph Fallback TrojanProto TrojanServer TrojanProps.

Lemma byte_at_1 (b : Z) : [b] @ 0 = b.
Proof. done. Qed.

Lemma takes_target a port : encodable a -> is_u16 port -> takes read_addr_port_from_stream (target_bytes a port) (a, port).
Proof.
  intros [Hok Hl] Hp. unfold read_addr_port_from_stream, target_bytes. destruct a as [o|o|s]; cbn [socks_wire].
  - destruct Hok as [_ Ho]. change ((ATYP_IPV4 :: o) ++ be16 port) with ([ATYP_IPV4] ++ (o ++ be16 port)).
    eapply takes_bind; [by apply takes_read|]. rewrite byte_at_1. cbn [Z.eqb ATYP_IPV4 Pos.eqb].
    rewrite <- (app_nil_r (o ++ be16 port)). eapply takes_bind; [apply takes_read; zlens; lia|].
    rewrite slice_app_l, slice_all by lia. rewrite slice_app_skip by lia. replace (4 - zlen o) with 0 by lia. rewrite slice_all by (zlens; lia).
    rewrite be16_val by done. apply takes_ret.
  - destruct Hok as [_ Ho]. change ((ATYP_IPV6 :: o) ++ be16 port) with ([ATYP_IPV6] ++ (o ++ be16 port)).
    eapply takes_bind; [by apply takes_read|]. rewrite byte_at_1. cbn [Z.eqb ATYP_IPV4 ATYP_DOMAIN ATYP_IPV6 Pos.eqb].
    rewrite <- (app_nil_r (o ++ be16 port)). eapply takes_bind; [apply takes_read; zlens; lia|].
    rewrite slice_app_l, slice_all by lia. rewrite slice_app_skip by lia. replace (16 - zlen o) with 0 by lia. rewrite slice_all by (zlens; lia).
    rewrite be16_val by done. apply takes_ret.
  - destruct Hok as [_ Hu]. change ((ATYP_DOMAIN :: zlen s :: s) ++ be16 port) with ([ATYP_DOMAIN] ++ [zlen s] ++ (s ++ be16 port)).
    eapply takes_bind; [by apply takes_read|]. rewrite byte_at_1. cbn [Z.eqb ATYP_IPV4 ATYP_DOMAIN Pos.eqb].
    eapply takes_bind; [by apply takes_read|]. rewrite byte_at_1. pose proof (zlen_nonneg s).
    rewrite <- (app_nil_r (s ++ be16 port)). eapply takes_bind; [apply takes_read; zlens; lia|].
    rewrite slice_app_l, slice_all by lia. rewrite Hu. rewrite slice_app_skip by lia. replace (zlen s - zlen s) with 0 by lia. rewrite slice_all by (zlens; lia).
    rewrite be16_val by done. apply takes_ret.
Qed.

Lemma yields_target : yields read_addr_port_from_stream (fun took r => bytes_ok took -> encodable r.1 /\ is_u16 r.2 /\ took = target_bytes r.1 r.2).
Proof.
  unfold read_addr_port_from_stream. apply (yields_bind _ _ (fun b x => b = x /\ zlen x = 1)); [by apply yields_read|].
  intros b1 x [-> Hx]. destruct x as [|t [|]]; [done| |zlia]. clear Hx. rewrite byte_at_1.
  assert (Hip : forall n, 0 <= n -> forall o, zlen o = n + 2 -> bytes_ok o -> octets_ok n o[: 0, n] /\ is_u16 (be_val o[: n, n + 2]) /\ o = o[: 0, n] ++ be16 (be_val o[: n, n + 2])).
  { intros n Hn o Ho Hb. assert (H2 : zlen o[: n, n + 2] = 2) by (zlens; lia). split; [split; [by apply slice_Forall|zlens; lia]|]. split; [apply be_val_u16; auto with xray|].
    rewrite be16_of_val by auto with xray. rewrite <- (ztake_drop n o) at 1. rewrite slice_0. f_equal. unfold slice. rewrite ztake_ge; [done|]. zlens. lia. }
  destruct (Z.eqb_spec t ATYP_IPV4) as [->|_].
  { apply (yields_bind _ _ (fun b x => b = x /\ zlen x = 6)); [by apply yields_read|]. intros b2 o [-> Ho]. apply yields_ret. rewrite app_nil_r.
    intros [_ Hb]%Forall_app. destruct (Hip 4 ltac:(lia) o Ho Hb) as (H1 & H2 & H3). change (4 + 2) with 6 in *. split; [by split|]. split; [done|].
    unfold target_bytes. cbn [fst snd socks_wire app]. by rewrite <- H3. }
  destruct (Z.eqb_spec t ATYP_DOMAIN) as [->|_].
  { apply (yields_bind _ _ (fun b x => b = x /\ zlen x = 1)); [by apply yields_read|]. intros b2 x [-> Hx]. destruct x as [|l [|]]; [done| |zlia]. clear Hx. rewrite byte_at_1.
    destruct (decide (0 <= l)) as [Hl|Hl].
    - apply (yields_bind _ _ (fun b x => b = x /\ zlen x = l + 2)); [apply yields_read; [lia|done]|]. intros b3 o [-> Ho].
      destruct (utf8_valid o[: 0, l]) eqn:Eu; [|apply yields_fail]. apply yields_ret. rewrite app_nil_r.
      intros [_ [Hu Hb]%Forall_app]%Forall_app. rewrite Forall_singleton in Hu. unfold is_u8 in Hu.
      destruct (Hip l Hl o Ho Hb) as ([H1 H1'] & H2 & H3). cbn [fst snd]. split; [split; [by split|lia]|]. split; [done|].
      unfold target_bytes. cbn [fst snd socks_wire app]. rewrite H1'. by rewrite <- H3.
    - intros s r s'. unfold mbind, step_bind, read_exact, read_exact_or.
      destruct (read_exact_events (l + 2) [] (rs_inner s) (rs_buf s)) as [r1 s1] eqn:E.
      destruct (read_exact_keeps _ _ _ _ _ _ E) as (took & Eb & Es & _). intros Er. exists took.
      assert (s' = s1) as -> by (destruct r1 as [?|[]]; [destruct (utf8_valid _)|..]; by injection Er). split_and!; [done|done|].
      destruct r; [|done]. intros Hb. exfalso. apply Forall_app in Hb as [_ Hb]. apply Forall_app in Hb as [Hb _]. rewrite Forall_singleton in Hb. unfold is_u8 in Hb. lia. }
  destruct (Z.eqb_spec t ATYP_IPV6) as [->|_]; [|apply yields_fail].
  apply (yields_bind _ _ (fun b x => b = x /\ zlen x = 18)); [by apply yields_read|]. intros b2 o [-> Ho]. apply yields_ret. rewrite app_nil_r.
  intros [_ Hb]%Forall_app. destruct (Hip 16 ltac:(lia) o Ho Hb) as (H1 & H2 & H3). change (16 + 2) with 18 in *. split; [by split|]. split; [done|].
  unfold target_bytes. cbn [fst snd socks_wire app]. by rewrite <- H3.
Qed.

(** * Headers *)

Section headers.
Context `{!TrojanHash}.

Definition header_v1 (key : bytes) (cmd : Z) (addr : Address) (port : Z) : bytes :=
  key ++ CRLF ++ [cmd] ++ target_bytes addr port ++ CRLF.
Definition header_v2 (key : bytes) (addr : Address) (port : Z) : bytes := [V2_VERSION] ++ key ++ target_bytes addr port.

Lemma write_header_wire out account network addr port : encodable addr ->
  write_request_header out account network addr port = (Ok tt, out ++ header_v1 (ac_key account) (to_command network) addr port).
Proof. intros Ha. unfold write_request_header, header_v1. rewrite trojan_write_wire by done. by rewrite <- !app_assoc. Qed.

Lemma write_header_v2_wire out key addr port : encodable addr ->
  write_request_header_v2 out key addr port = (Ok tt, out ++ header_v2 key addr port).
Proof. intros Ha. unfold write_request_header_v2, header_v2. rewrite trojan_write_wire by done. by rewrite <- !app_assoc. Qed.

Lemma command_roundtrip network : from_command (to_command network) = network.
Proof. by destruct network. Qed.

Lemma parse_header_wire key cmd addr port rest : zlen key = HEX_KEY_LEN -> encodable addr -> is_u16 port ->
  parse_request_header (header_v1 key cmd addr port ++ rest) = Ok (from_command cmd, addr, port, zlen (header_v1 key cmd addr port)).
Proof.
  intros Hk Ha Hp. unfold parse_request_header, header_v1. unfold HEX_KEY_LEN in *. set (t := target_bytes addr port).
  pose proof (zlen_nonneg t). pose proof (zlen_nonneg rest). rewrite <- !app_assoc.
  assert (Hcr : zlen CRLF = 2) by done. assert (Hone : zlen [cmd] = 1) by done.
  set (b := key ++ CRLF ++ [cmd] ++ t ++ CRLF ++ rest). assert (Hb : zlen b = 61 + zlen t + zlen rest) by (subst b; zlens; lia).
  rewrite Hb. do 3 (zcase_goal; [lia|]).
  assert (Ed : zdrop (56 + 2 + 1) b = t ++ CRLF ++ rest).
  { subst b. rewrite !(app_assoc key), (app_assoc _ [cmd]). apply zdrop_app. zlens. lia. }
  rewrite Ed. pose proof (read_target_bytes addr port (CRLF ++ rest) Ha Hp) as Er. fold t in Er. rewrite Er. cbn [or_error mbind result_bind].
  zcase_goal; [lia|]. do 2 f_equal; [f_equal; f_equal; f_equal|].
  - subst b. rewrite app_assoc, byte_at_skip by (zlens; lia). zlens. replace (56 + 2 - (zlen key + zlen CRLF)) with 0 by lia. done.
  - zlens. lia.
Qed.

Lemma parse_header_v2_wire key addr port rest : zlen key = MD5_KEY_LEN -> encodable addr -> is_u16 port ->
  parse_request_header_v2 (header_v2 key addr port ++ rest) = Ok (addr, port, zlen (header_v2 key addr port)).
Proof.
  intros Hk Ha Hp. unfold parse_request_header_v2, header_v2. unfold MD5_KEY_LEN in *. set (t := target_bytes addr port).
  pose proof (zlen_nonneg t). pose proof (zlen_nonneg rest). rewrite <- !app_assoc. change ([V2_VERSION] ++ ?x) with (V2_VERSION :: x).
  rewrite zlen_cons_eqb0, byte_at_cons. cbn [Z.eqb V2_VERSION Pos.eqb negb]. zlens. zcase_goal; [lia|].
  change (V2_VERSION :: key ++ t ++ rest) with ((V2_VERSION :: key) ++ t ++ rest). rewrite zdrop_app by (zlens; lia).
  pose proof (read_target_bytes addr port rest Ha Hp) as Er. fold t in Er. rewrite Er. cbn [mbind result_bind]. do 2 f_equal. lia.
Qed.

(** * The handshake *)

Lemma takes_crlf : takes read_crlf CRLF tt.
Proof. apply (takes_bind _ _ CRLF [] CRLF tt); [by apply takes_read|]. rewrite bool_decide_true by done. apply takes_ret. Qed.

Lemma takes_v1 v key cmd addr port user c ks : key = c :: ks -> zlen key = HEX_KEY_LEN -> is_v1_hex_prefix c = true ->
  get_by_key v key = Some user -> encodable addr -> is_u16 port ->
  takes (trojan_server_handshake v) (header_v1 key cmd addr port) (from_command cmd, addr, port, user).
Proof.
  intros Ek Hk Hc Hu Ha Hp. unfold header_v1, trojan_server_handshake, HEX_KEY_LEN in *. rewrite Ek in *.
  change ((c :: ks) ++ ?x) with ([c] ++ (ks ++ x)). eapply takes_bind; [by apply takes_read|]. rewrite byte_at_1.
  assert (Hv : (c =? V2_VERSION) = false) by (apply Z.eqb_neq; intros ->; discriminate Hc).
  rewrite Hv, Hc. cbn [negb]. eapply takes_bind; [apply takes_read; zlens; lia|].
  rewrite <- (app_nil_l (CRLF ++ _)). eapply takes_bind; [by apply takes_some|].
  eapply takes_bind; [apply takes_crlf|]. eapply takes_bind; [by apply takes_read|]. rewrite byte_at_1.
  eapply takes_bind; [by apply takes_target|]. cbn beta iota. apply (takes_bind _ _ CRLF [] tt _ takes_crlf). apply takes_ret.
Qed.

Lemma takes_v2 v key addr port user : zlen key = MD5_KEY_LEN -> get_by_md5 v key = Some user -> encodable addr -> is_u16 port ->
  takes (trojan_server_handshake v) (header_v2 key addr port) (NetTcp, addr, port, user).
Proof.
  intros Hk Hu Ha Hp. unfold header_v2, trojan_server_handshake. eapply takes_bind; [by apply takes_read|]. rewrite byte_at_1. cbn [Z.eqb V2_VERSION Pos.eqb].
  eapply takes_bind; [by apply takes_read|]. rewrite <- (app_nil_l (target_bytes _ _)). eapply takes_bind; [by apply takes_some|].
  rewrite <- (app_nil_r (target_bytes _ _)). eapply takes_bind; [by apply takes_target|]. apply takes_ret.
Qed.

Context `{!TrojanHashLaws}.

Lemma account_key password : exists c ks, hex_sha224 password = c :: ks /\ zlen (hex_sha224 password) = HEX_KEY_LEN /\ is_v1_hex_prefix c = true.
Proof.
  unfold hex_sha224. pose proof (hex_length (sha224 password)) as Hl. rewrite sha224_length in Hl. pose proof (hex_digits (sha224 password)) as Hd.
  destruct (hex_encode (sha224 password)) as [|c ks]; [done|]. exists c, ks. split_and!; [done|done|]. inversion Hd as [|? ? Hc _]; subst.
  unfold is_v1_hex_prefix. apply orb_true_iff. rewrite !andb_true_iff, !Z.leb_le. lia.
Qed.

(** C29: client and server agree.  A server that knows a user accepts the header that a
    client with that user's account writes, in both versions of the protocol, however the
    bytes are cut on the way: it finds the user, the command, the address and the port, it
    has read the header and nothing behind it, and the slice parser reads the same. *)
Theorem trojan_handshake_accepts v password user network addr port rest evs : encodable addr -> is_u16 port -> flows evs ->
  (get_by_key v (hex_sha224 password) = Some user ->
   exists header, write_request_header [] (MemoryAccount_new password) network addr port = (Ok tt, header) /\
   (stream_bytes evs = header ++ rest -> exists s, trojan_server_handshake v (RecordingStream_new evs) = (Ok (network, addr, port, user), s) /\
      rs_buf s = header /\ stream_bytes (rs_inner s) = rest /\ parse_request_header (header ++ rest) = Ok (network, addr, port, zlen header))) /\
  (get_by_md5 v (md5_key password) = Some user ->
   exists header, write_request_header_v2 [] (md5_key password) addr port = (Ok tt, header) /\
   (stream_bytes evs = header ++ rest -> exists s, trojan_server_handshake v (RecordingStream_new evs) = (Ok (NetTcp, addr, port, user), s) /\
      rs_buf s = header /\ stream_bytes (rs_inner s) = rest /\ parse_request_header_v2 (header ++ rest) = Ok (addr, port, zlen header))).
Proof.
  intros Ha Hp Hf. split; intros Hu; eexists.
  - split; [by apply write_header_wire|]. cbn [app]. intros E. destruct (account_key password) as (c & ks & Ek & Hk & Hc).
    destruct (takes_v1 v _ (to_command network) addr port user c ks Ek Hk Hc Hu Ha Hp (RecordingStream_new evs) rest Hf E) as (s & Es & _ & Er & Eb).
    exists s. cbn [ac_key MemoryAccount_new] in *. rewrite parse_header_wire, command_roundtrip in * by done. done.
  - split; [by apply write_header_v2_wire|]. cbn [app]. intros E.
    destruct (takes_v2 v (md5_key password) addr port user (md5_length _) Hu Ha Hp (RecordingStream_new evs) rest Hf E) as (s & Es & _ & Er & Eb).
    exists s. rewrite parse_header_v2_wire by (done || apply md5_length). done.
Qed.

(** What an accepted connection has sent. *)
Definition accepted (v : Validator) (took : bytes) (r : TrojanNetwork * Address * Z * MemoryUser) : Prop :=
  bytes_ok took -> let '(network, addr, port, user) := r in
  encodable addr /\ is_u16 port /\
  ((exists key cmd, took = header_v1 key cmd addr port /\ zlen key = HEX_KEY_LEN /\ get_by_key v key = Some user /\ network = from_command cmd) \/
   (exists key, took = header_v2 key addr port /\ zlen key = MD5_KEY_LEN /\ get_by_md5 v key = Some user /\ network = NetTcp)).

Lemma yields_crlf : yields read_crlf (fun took _ => took = CRLF).
Proof.
  unfold read_crlf. apply (yields_bind _ _ (fun b x => b = x)); [by apply yields_read|]. intros b1 x ->.
  destruct (bool_decide_reflect (x = CRLF)) as [->|]; [apply yields_ret|apply yields_fail]. by rewrite app_nil_r.
Qed.

Lemma yields_handshake v : yields (trojan_server_handshake v) (accepted v).
Proof.
  unfold trojan_server_handshake. apply (yields_bind _ _ (fun b x => b = x /\ zlen x = 1)); [by apply yields_read|].
  intros b1 x [-> Hx]. destruct x as [|c [|]]; [done| |zlia]. clear Hx. rewrite byte_at_1. destruct (Z.eqb_spec c V2_VERSION) as [->|_].
  { apply (yields_bind _ _ (fun b x => b = x /\ zlen x = MD5_KEY_LEN)); [by apply yields_read|]. intros b2 key [-> Hk].
    apply (yields_bind _ _ (fun b user => b = [] /\ get_by_md5 v key = Some user)); [apply yields_some; done|]. intros b3 user [-> Hu].
    apply (yields_bind _ _ _ _ yields_target). intros b4 [addr port] Ht. cbn [fst snd] in Ht. apply yields_ret. rewrite app_nil_r.
    intros Hb. rewrite !Forall_app in Hb. destruct Hb as (_ & _ & _ & Hb). destruct (Ht Hb) as (Ha & Hp & ->). split_and!; [done|done|].
    right. by exists key. }
  destruct (is_v1_hex_prefix c); cbn [negb]; [|apply yields_fail].
  apply (yields_bind _ _ (fun b x => b = x /\ zlen x = 55)); [by apply yields_read|]. intros b2 ks [-> Hk].
  apply (yields_bind _ _ (fun b user => b = [] /\ get_by_key v ([c] ++ ks) = Some user)); [apply yields_some; done|]. intros b3 user [-> Hu].
  apply (yields_bind _ _ _ _ yields_crlf). intros b4 [] ->.
  apply (yields_bind _ _ (fun b x => b = x /\ zlen x = 1)); [by apply yields_read|]. intros b5 x [-> Hx]. destruct x as [|cmd [|]]; [done| |zlia]. clear Hx. rewrite byte_at_1.
  apply (yields_bind _ _ _ _ yields_target). intros b6 [addr port] Ht. cbn [fst snd] in Ht.
  apply (yields_bind _ _ _ _ yields_crlf). intros b7 [] ->. apply yields_ret. rewrite app_nil_r.
  intros Hb. rewrite !Forall_app in Hb. destruct Hb as (_ & _ & _ & _ & _ & Hb & _). destruct (Ht Hb) as (Ha & Hp & ->). split_and!; [done|done|].
  left. exists ([c] ++ ks), cmd. split_and!; [|zlens; unfold HEX_KEY_LEN; lia|done|done]. unfold header_v1. by rewrite <- !app_assoc.
Qed.

End headers.

(** * Rejected connections *)

Section rejected.
Context `{!TrojanHash} `{!StdText} `{!IpText}.

Lemma position_none (p : Z -> bool) l : Forall (fun b => p b = false) l -> position p l = None.
Proof. induction 1 as [|b l Hb _ IH]; [done|]. cbn. by rewrite Hb, IH. Qed.

(** A stream that begins with a capital letter is given up after its first byte. *)
Lemma capital_rejected v evs b bs : stream_bytes evs = b :: bs -> 65 <= b <= 90 ->
  exists e s, trojan_server_handshake v (RecordingStream_new evs) = (Err e, s) /\ (rs_buf s = [] \/ rs_buf s = [b]).
Proof.
  intros E Hb. unfold trojan_server_handshake. unfold mbind at 1, step_bind at 1. unfold read_exact at 1, read_exact_or at 1.
  destruct (read_exact_events 1 [] _ _) as [r s] eqn:Er. destruct (read_exact_keeps _ _ _ _ _ _ Er) as (took & Eb & Es & Hr).
  cbn [RecordingStream_new rs_buf rs_inner app] in *. rewrite E in Es. destruct r as [x|f].
  - destruct Hr as [-> Hl]. change (zlen []) with 0 in Hl. destruct took as [|c [|]]; [done| |zlia]. injection Es as <- _. rewrite byte_at_1.
    destruct (Z.eqb_spec b V2_VERSION) as [->|_]; [unfold V2_VERSION in Hb; lia|].
    assert (is_v1_hex_prefix b = false) as -> by (unfold is_v1_hex_prefix; zcases). cbn [negb]. eexists _, s. split; [reflexivity|]. by right.
  - zlens. destruct took as [|]; [|zlia]. destruct f; eexists _, s; (split; [reflexivity|by left]).
Qed.

(** C31: a connection that is not trojan and has a fallback loses nothing: the destination
    of the rule decided on receives the PROXY header of the rule's version, if any, and
    then the client's stream from its first byte.  Without a rule it is dropped.  But the
    path of a request never takes part in the decision: a request line begins with a
    capital letter, the handshake gives it up after one byte, and the path is looked for
    in that byte. *)
Theorem trojan_fallback_lossless keys v policy evs peer local name alpn :
  match handle_trojan_connection keys (RecordingStream_new evs) v policy peer local name alpn with
  | ForwardTo dest sent => exists p path fb, policy = Some p /\ decide_fallback keys p name alpn path = Some fb /\ dest = fb_dest fb /\
      sent = encode_proxy_header (to_u8 (fb_xver fb)) peer local ++ stream_bytes evs /\
      (forall b bs, stream_bytes evs = b :: bs -> 65 <= b <= 90 -> path = [])
  | Dropped => exists e s, trojan_server_handshake v (RecordingStream_new evs) = (Err e, s) /\
      (forall p, policy = Some p -> exists path, decide_fallback keys p name alpn path = None /\
        (forall b bs, stream_bytes evs = b :: bs -> 65 <= b <= 90 -> path = []))
  | UdpRelay rest | Dispatch _ _ _ rest => exists r s, trojan_server_handshake v (RecordingStream_new evs) = (Ok r, s) /\ rs_inner s = rest
  end.
Proof.
  unfold handle_trojan_connection. destruct (trojan_server_handshake v (RecordingStream_new evs)) as [[[[[network addr] port] user]|e] s] eqn:E.
  { destruct (bool_decide _); by eexists _, _. }
  assert (Hpath : forall b bs, stream_bytes evs = b :: bs -> 65 <= b <= 90 -> default [] (extract_path_from_first_bytes (rs_buf s)) = []).
  { intros b bs Es Hb. destruct (capital_rejected v evs b bs Es Hb) as (e' & s' & E' & Hbuf). rewrite E in E'. injection E' as -> <-.
    unfold extract_path_from_first_bytes. rewrite position_none; [done|]. destruct Hbuf as [->| ->]; repeat constructor. apply Z.eqb_neq. lia. }
  destruct (yields_handshake v _ _ _ E) as (took & Eb & Es & _). cbn [RecordingStream_new rs_buf rs_inner app] in *. subst took.
  destruct policy as [p|]; [|exists e, s; split; [done|by intros]].
  destruct (decide_fallback keys p name alpn _) as [fb|] eqn:Ed.
  - exists p, (default [] (extract_path_from_first_bytes (rs_buf s))), fb. split_and!; [done|done|done| |done].
    unfold fallback_to_dest. rewrite Es. destruct (bool_decide_reflect (encode_proxy_header (to_u8 (fb_xver fb)) peer local = [])) as [->|], (bool_decide_reflect (rs_buf s = [])) as [->|]; done.
  - exists e, s. split; [done|]. intros p' [= <-]. by eexists.
Qed.
End rejected.

(** * Users *)

Section users.
Context `{!TrojanHash} `{!StdText}.

Definition named (e : bytes) (u : MemoryUser) : bool := negb (bool_decide (mu_email u = [])) && bool_decide (to_lowercase (mu_email u) = e).

(** Two users can be told apart by both digests and, when they have one, by email. *)
Definition apart (u u' : MemoryUser) : Prop :=
  key_hash u' <> key_hash u /\ user_md5 u' <> user_md5 u /\ (mu_email u <> [] -> named (to_lowercase (mu_email u)) u' = false).

Inductive validator_reach : Validator -> list MemoryUser -> Prop :=
| vr_new : validator_reach Validator_new []
| vr_add v us u v' : validator_reach v us -> Forall (fun u' => key_hash u' <> key_hash u /\ user_md5 u' <> user_md5 u) us ->
    Validator_add u v = (Ok tt, v') -> validator_reach v' (u :: us)
| vr_del v us email v' : validator_reach v us -> Validator_del email v = (Ok tt, v') ->
    validator_reach v' (List.filter (fun u => negb (named (to_lowercase email) u)) us).

Record views (v : Validator) (us : list MemoryUser) : Prop := {
  vw_key : forall k, vd_users v !! k = List.find (fun u => bool_decide (key_hash u = k)) us;
  vw_md5 : forall k, vd_md5_users v !! k = List.find (fun u => bool_decide (user_md5 u = k)) us;
  vw_email : forall e, vd_email v !! e = List.find (named e) us;
  vw_apart : ForallOrdPairs apart us;
}.

Lemma find_none_Forall {A} (p : A -> bool) l : List.find p l = None -> Forall (fun x => p x = false) l.
Proof. intros Hf. apply Forall_forall. intros x Hx. apply (List.find_none p l Hf). by apply list_elem_of_In. Qed.

Lemma find_filter {A} (p q : A -> bool) l : Forall (fun x => p x = true -> q x = true) l -> List.find p (List.filter q l) = List.find p l.
Proof.
  induction 1 as [|x l Hx _ IH]; [done|]. cbn. destruct (p x) eqn:Ep; [rewrite (Hx eq_refl); cbn; by rewrite Ep|]. destruct (q x); cbn; [by rewrite Ep|done].
Qed.

Lemma filter_pairs {A} (R : A -> A -> Prop) (q : A -> bool) l : ForallOrdPairs R l -> ForallOrdPairs R (List.filter q l).
Proof.
  induction 1 as [|x l Hx _ IH]; [constructor|]. cbn. destruct (q x); [|done]. constructor; [|done]. apply List.Forall_forall. intros y [Hy _]%List.filter_In.
  rewrite List.Forall_forall in Hx. auto.
Qed.

(** Only one user is found under an email, and it is the only one with its digests. *)
Lemma found_alone us e u0 : ForallOrdPairs apart us -> List.find (named e) us = Some u0 ->
  Forall (fun u => (named e u = true <-> key_hash u = key_hash u0) /\ (named e u = true <-> user_md5 u = user_md5 u0)) us.
Proof.
  induction 1 as [|u us Hu Hus IH]; [done|]. cbn. assert (Hne : forall x, named e x = true -> mu_email x <> [] /\ to_lowercase (mu_email x) = e).
  { intros x. unfold named. rewrite andb_true_iff, negb_true_iff, bool_decide_eq_false, bool_decide_eq_true. done. }
  destruct (named e u) eqn:En.
  - intros [= ->]. constructor; [done|]. destruct (Hne _ En) as [He <-]. eapply Forall_impl; [exact Hu|]. intros x (Hk & Hm & Hn). cbn beta. rewrite Hn by done. done.
  - intros Hf. constructor; [|by apply IH]. rewrite En. apply List.find_some in Hf as [Hin Hn]. rewrite Forall_forall in Hu. apply list_elem_of_In in Hin.
    destruct (Hu _ Hin) as (Hk & Hm & _). split; (split; [done|intros Hx; by rewrite Hx in *]).
Qed.

Lemma filter_find_none us e (key : MemoryUser -> bytes) u0 : Forall (fun u => named e u = true <-> key u = key u0) us ->
  List.find (fun u => bool_decide (key u = key u0)) (List.filter (fun u => negb (named e u)) us) = None.
Proof.
  induction 1 as [|u us Hu _ IH]; [done|]. cbn. destruct (named e u) eqn:En; cbn; [done|]. rewrite bool_decide_false; [done|]. intros Hk. by apply Hu in Hk.
Qed.

Lemma views_add v us u v' : views v us -> Forall (fun u' => key_hash u' <> key_hash u /\ user_md5 u' <> user_md5 u) us ->
  Validator_add u v = (Ok tt, v') -> views v' (u :: us).
Proof.
  intros [Hk Hm He Ha] Hu. unfold Validator_add.
  assert (Hins : forall (m : gmap bytes MemoryUser) (key : MemoryUser -> bytes), (forall k, m !! k = List.find (fun u => bool_decide (key u = k)) us) ->
    forall k, <[ key u := u ]> m !! k = List.find (fun u => bool_decide (key u = k)) (u :: us)).
  { intros m key Hm' k. cbn. destruct (decide (key u = k)) as [<-|Hne].
    - by rewrite lookup_insert_eq, bool_decide_true.
    - by rewrite lookup_insert_ne, bool_decide_false by done. }
  destruct (bool_decide_reflect (mu_email u = [])) as [E|E].
  - intros [= <-]. constructor; cbn [vd_users vd_md5_users vd_email]; [by apply Hins|by apply Hins| |].
    + intros e. rewrite He. cbn [List.find]. unfold named at 2. by rewrite bool_decide_true.
    + constructor; [|done]. eapply Forall_impl; [exact Hu|]. intros x [? ?]. by split_and!.
  - destruct (vd_email v !! to_lowercase (mu_email u)) eqn:El; [done|]. intros [= <-].
    constructor; cbn [vd_users vd_md5_users vd_email]; [by apply Hins|by apply Hins| |].
    + intros e. cbn [List.find]. unfold named at 1. rewrite (bool_decide_false (mu_email u = [])) by done. cbn [negb andb].
      destruct (decide (to_lowercase (mu_email u) = e)) as [<-|Hne]; [by rewrite lookup_insert_eq, bool_decide_true|].
      by rewrite lookup_insert_ne, bool_decide_false by done.
    + constructor; [|done]. rewrite He in El. apply find_none_Forall in El. rewrite Forall_forall in El, Hu |- *. intros x Hx.
      destruct (Hu x Hx). split_and!; [done|done|]. intros _. auto.
Qed.

Lemma views_del v us email v' : views v us -> Validator_del email v = (Ok tt, v') ->
  views v' (List.filter (fun u => negb (named (to_lowercase email) u)) us).
Proof.
  intros [Hk Hm He Ha]. unfold Validator_del. destruct (bool_decide _); [done|]. set (e := to_lowercase email).
  destruct (vd_email v !! e) as [u0|] eqn:E0; [|done]. intros [= <-]. rewrite He in E0. pose proof (found_alone _ _ _ Ha E0) as Hal.
  apply List.Forall_and_inv in Hal as [Hal1 Hal2].
  assert (Hdel : forall (m : gmap bytes MemoryUser) (key : MemoryUser -> bytes), (forall k, m !! k = List.find (fun u => bool_decide (key u = k)) us) ->
    Forall (fun u => named e u = true <-> key u = key u0) us ->
    forall k, delete (key u0) m !! k = List.find (fun u => bool_decide (key u = k)) (List.filter (fun u => negb (named e u)) us)).
  { intros m key Hm' Hn k. destruct (decide (key u0 = k)) as [<-|Hne].
    - rewrite lookup_delete_eq. symmetry. by apply filter_find_none.
    - rewrite lookup_delete_ne, Hm' by done. symmetry. apply find_filter. eapply Forall_impl; [exact Hn|]. intros x Hx. cbn beta.
      rewrite bool_decide_eq_true, negb_true_iff. intros <-. destruct (named e x) eqn:En; [|done]. exfalso. apply Hne. symmetry. by apply Hx, En. }
  constructor; cbn [vd_users vd_md5_users vd_email]; [by apply Hdel|by apply Hdel| |by apply filter_pairs].
  intros e'. destruct (decide (e = e')) as [<-|Hne].
  - rewrite lookup_delete_eq. symmetry. clear. induction us as [|u us IH]; [done|]. cbn. destruct (named e u) eqn:En; cbn; [exact IH|rewrite En; exact IH].
  - rewrite lookup_delete_ne, He by done. symmetry. apply find_filter. apply Forall_forall. intros x _. unfold named. rewrite andb_true_iff, bool_decide_eq_true.
    intros [_ <-]. rewrite (bool_decide_false (_ = e)) by congruence. by rewrite andb_false_r.
Qed.

Lemma validator_reach_views v us : validator_reach v us -> views v us.
Proof.
  induction 1 as [|v us u v' _ IH Hu Ha|v us email v' _ IH Hd].
  - constructor; try done. constructor.
  - by eapply views_add.
  - by eapply views_del.
Qed.

(** the table of users.  As long as no user is added whose password has a digest of a
    user present, the three indexes are three views of the users that were added and not
    deleted: whoever is found by key, by digest or by email is the one user present with
    it, and every user present is found.  Adding fails exactly on an email in use,
    whatever its case, deleting exactly on no email or one not in use, and a failure
    changes nothing. *)
Theorem trojan_users_indexed v us u email : validator_reach v us ->
  ((forall key, get_by_key v key = List.find (fun u => bool_decide (key_hash u = hex_string key)) us) /\
   (forall key, get_by_md5 v key = List.find (fun u => bool_decide (user_md5 u = key)) us) /\
   (forall e, get_by_email v e = List.find (named (to_lowercase e)) us) /\
   Forall (fun u => Validator_get v (key_hash u) = Some u /\ get_by_md5 v (user_md5 u) = Some u /\ (mu_email u <> [] -> get_by_email v (mu_email u) = Some u)) us) /\
  match Validator_add u v with
  | (Ok _, v') => mu_email u = [] \/ List.find (named (to_lowercase (mu_email u))) us = None
  | (Err e, v') => v' = v /\ e = UserAlreadyExists (mu_email u) /\ is_Some (List.find (named (to_lowercase (mu_email u))) us)
  end /\
  match Validator_del email v with
  | (Ok _, v') => is_Some (List.find (named (to_lowercase email)) us)
  | (Err e, v') => v' = v /\ (email = [] \/ List.find (named (to_lowercase email)) us = None)
  end.
Proof.
  intros Hv%validator_reach_views. pose proof Hv as [Hk Hm He Ha].
  split; [split_and!|split].
  - intros key. apply Hk.
  - intros key. apply Hm.
  - intros e. apply He.
  - assert (Hall : ForallOrdPairs apart us -> forall key : MemoryUser -> bytes, (forall a b, apart a b -> key b <> key a) ->
      Forall (fun u => List.find (fun x => bool_decide (key x = key u)) us = Some u) us).
    { clear. intros Hp key Hkey. induction Hp as [|a l Ha Hl IH]; [constructor|]. constructor; cbn; [by rewrite bool_decide_true|].
      rewrite Forall_forall in Ha, IH |- *. intros x Hx. rewrite bool_decide_false; [auto|]. intros E. by apply (Hkey a x (Ha x Hx)). }
    assert (Hmail : Forall (fun u => mu_email u <> [] -> List.find (named (to_lowercase (mu_email u))) us = Some u) us).
    { clear - Ha. induction Ha as [|a l Ha Hl IH]; [constructor|]. constructor; cbn.
      - intros E. unfold named at 1. by rewrite bool_decide_false, bool_decide_true.
      - rewrite Forall_forall in Ha, IH |- *. intros x Hx E. destruct (named (to_lowercase (mu_email x)) a) eqn:En; [|auto]. exfalso.
        unfold named in En. rewrite andb_true_iff, negb_true_iff, bool_decide_eq_false, bool_decide_eq_true in En. destruct En as [Ea El].
        destruct (Ha x Hx) as (_ & _ & Hn). specialize (Hn Ea). unfold named in Hn. rewrite El, bool_decide_false, bool_decide_true in Hn by done. done. }
    pose proof (Hall Ha key_hash ltac:(by intros ? ? [? _])) as F1. pose proof (Hall Ha user_md5 ltac:(by intros ? ? (_ & ? & _))) as F2.
    rewrite Forall_forall in F1, F2, Hmail |- *. intros x Hx. unfold Validator_get, get_by_md5, get_by_email. rewrite Hk, Hm, He. auto.
  - unfold Validator_add. destruct (bool_decide_reflect (mu_email u = [])) as [E|E]; [by left|]. rewrite He.
    destruct (List.find _ us) eqn:Ef; [by split_and!|by right].
  - unfold Validator_del. destruct (bool_decide_reflect (email = [])) as [E|E]; [split; [done|by left]|]. rewrite He.
    destruct (List.find _ us) eqn:Ef; [done|split; [done|by right]].
Qed.
End users.
