(* ===== verification/TrojanClientProps.v ===== *)
(** The framed connection of the trojan client: what its polls put on the wire and what
    its reads return. *)
From Stdlib Require Import List.
From stdpp Require Import base tactics option list numbers.
From S2P Require Import Prelude Bytes AsyncIo NetTypes BytesMut Buffer AddrCodec TrojanProto TrojanServer TrojanProps TrojanServerProps TrojanClient.

(** * Writing *)

(** Nothing of an earlier frame is left to write. *)
Definition idle (c : TrojanUdpFramedConn) : Prop := fc_wpos c = zlen (fc_wpending c).

(** The frame of what one write takes. *)
Definition write_chunk (buf : bytes) : bytes := ztake (Z.min (zlen buf) MAX_LENGTH) buf.
Definition written_frame (c : TrojanUdpFramedConn) (buf : bytes) : bytes := frame_with CRLF (fc_addr c) (fc_port c) (write_chunk buf).

Definition same_target (c c' : TrojanUdpFramedConn) : Prop := fc_addr c' = fc_addr c /\ fc_port c' = fc_port c /\ fc_rbuf c' = fc_rbuf c.

Lemma zlen_write_chunk buf : zlen (write_chunk buf) = Z.min (zlen buf) MAX_LENGTH.
Proof. unfold write_chunk, MAX_LENGTH. zlia. Qed.

Lemma take_more (l : bytes) a n : 0 <= a -> 0 <= n -> ztake a l ++ l[: a, a + n] = ztake (a + n) l.
Proof.
  intros Ha Hn. unfold slice. replace (a + n - a) with n by lia. rewrite ztake_drop_comm by lia.
  rewrite <- (ztake_drop a (ztake (a + n) l)) at 2. by rewrite ztake_take, Z.min_l by lia.
Qed.

(** The loop writes the frame on, from where it is. *)
Lemma write_frame_spec polls : forall pre wire c r c' w', wire = pre ++ ztake (fc_wpos c) (fc_wpending c) -> 0 <= fc_wpos c <= zlen (fc_wpending c) ->
  Forall (fun p => match p with WriteReady n => 0 <= n | _ => True end) polls ->
  write_frame polls wire c = (r, c', w') ->
  same_target c c' /\ fc_wpending c' = fc_wpending c /\ fc_wpos c <= fc_wpos c' <= zlen (fc_wpending c') /\
  wh_wire w' = pre ++ ztake (fc_wpos c') (fc_wpending c') /\
  Forall (fun p => match p with WriteReady n => 0 <= n | _ => True end) (wh_polls w') /\
  match r with Ready _ => idle c' | Pending => fc_wpos c' < zlen (fc_wpending c') | PollErr => True end.
Proof.
  induction polls as [|p polls IH]; intros pre wire c r c' w' Hw Hc Hp; cbn [write_frame]; destruct (Z.ltb_spec (fc_wpos c) (zlen (fc_wpending c))) as [Hlt|Hge].
  - intros [= <- <- <-]. split_and!; (done || lia).
  - intros [= <- <- <-]. unfold idle. split_and!; (done || lia).
  - inversion Hp as [|? ? Hn Hp']; subst. destruct p as [n| |]; [|intros [= <- <- <-]; split_and!; (done || lia)..].
    set (k := Z.min n (zlen (fc_wpending c) - fc_wpos c)). destruct (Z.eqb_spec k 0); [intros [= <- <- <-]; split_and!; (done || lia)|].
    intros E. apply (IH pre) in E; cbn [fc_wpos fc_wpending] in *; [|by rewrite <- app_assoc, take_more by lia|lia|done].
    destruct E as ((E1 & E2 & E3) & E4 & E5 & E6 & E7 & E8). cbn [fc_addr fc_port fc_rbuf] in *. split_and!; (done || lia).
  - intros [= <- <- <-]. unfold idle. split_and!; (done || lia).
Qed.

(** A connection that is always ready takes the whole frame at once. *)
Lemma write_frame_ready polls : forall wire c, 0 <= fc_wpos c <= zlen (fc_wpending c) ->
  Forall (fun p => match p with WriteReady n => 0 < n | _ => False end) polls -> zlen (fc_wpending c) - fc_wpos c <= zlen polls ->
  exists c' w', write_frame polls wire c = (Ready tt, c', w').
Proof.
  induction polls as [|p polls IH]; intros wire c Hc Hp Hl; cbn [write_frame]; destruct (Z.ltb_spec (fc_wpos c) (zlen (fc_wpending c))) as [Hlt|Hge];
    [zlens; lia|by eexists _, _| |by eexists _, _].
  inversion Hp as [|? ? Hn Hp']; subst. destruct p as [n| |]; [|done..]. destruct (Z.eqb_spec (Z.min n (zlen (fc_wpending c) - fc_wpos c)) 0); [lia|].
  apply IH; cbn [fc_wpos fc_wpending]; [lia|done|]. zlens. lia.
Qed.

(** A caller polls with the same bytes until it is answered; [k] polls in all. *)
Inductive polled (buf : bytes) : nat -> TrojanUdpFramedConn -> WriteHalf -> TrojanUdpFramedConn -> WriteHalf -> Prop :=
| polled_ready c w c' w' n : FramedConn_poll_write buf c w = (Ready n, c', w') -> polled buf 1 c w c' w'
| polled_pending k c w c1 w1 c' w' : FramedConn_poll_write buf c w = (Pending, c1, w1) -> polled buf k c1 w1 c' w' -> polled buf (S k) c w c' w'.

Definition copies (m : nat) (frame : bytes) : bytes := concat (replicate m frame).

Lemma copies_S m frame : copies (S m) frame = copies m frame ++ frame.
Proof. unfold copies. rewrite replicate_S_end, concat_app. cbn. by rewrite app_nil_r. Qed.

(** In the middle of a frame, [m] whole ones out since [pre]. *)
Definition amid (buf pre : bytes) (m : nat) (c0 c : TrojanUdpFramedConn) (w : WriteHalf) : Prop :=
  same_target c0 c /\ fc_wpending c = written_frame c0 buf /\ 0 <= fc_wpos c < zlen (fc_wpending c) /\
  wh_wire w = (pre ++ copies m (written_frame c0 buf)) ++ ztake (fc_wpos c) (fc_wpending c).

Definition polls_ok (w : WriteHalf) : Prop := Forall (fun p => match p with WriteReady n => 0 <= n | _ => True end) (wh_polls w).

(** A poll that gets past the frames before it starts a new one. *)
Lemma poll_start buf pre m c0 c w polls r c' w' : encodable (fc_addr c0) -> same_target c0 c ->
  Forall (fun p => match p with WriteReady n => 0 <= n | _ => True end) polls ->
  wh_polls w = polls -> wh_wire w = pre ++ copies m (written_frame c0 buf) -> idle c ->
  FramedConn_poll_write buf c w = (r, c', w') ->
  match r with
  | Ready n => n = Z.min (zlen buf) MAX_LENGTH /\ idle c' /\ same_target c0 c' /\ wh_wire w' = pre ++ copies (S m) (written_frame c0 buf) /\ polls_ok w'
  | Pending => amid buf pre m c0 c' w' /\ polls_ok w'
  | PollErr => True
  end.
Proof.
  intros He (T1 & T2 & T3) Hp Ep Ew Hi. unfold FramedConn_poll_write. rewrite Ep.
  assert (Hn : forall wire, write_frame polls wire c = (Ready tt, c, mkWriteHalf polls wire)).
  { intros wire. destruct polls; cbn [write_frame]; unfold idle in Hi; rewrite Hi, Z.ltb_irrefl; done. }
  rewrite Hn. cbn [wh_polls wh_wire]. fold (write_chunk buf). rewrite T1, T2. pose proof (zlen_write_chunk buf) as Hz. unfold MAX_LENGTH in Hz.
  rewrite write_udp_frame by (done || lia). cbn [app]. fold (written_frame c0 buf).
  destruct (write_frame polls _ _) as [[r1 c1] w1] eqn:E. pose proof (zlen_nonneg (written_frame c0 buf)) as Hl.
  apply (write_frame_spec polls (pre ++ copies m (written_frame c0 buf))) in E; cbn [fc_wpos fc_wpending] in *;
    [|by rewrite ztake_le0, app_nil_r by lia|lia|done].
  destruct E as ((E1 & E2 & E3) & E4 & E5 & E6 & E7 & E8). cbn [fc_addr fc_port fc_rbuf] in *.
  assert (Ht : same_target c0 c1) by (unfold same_target; split_and!; congruence).
  destruct r1 as [[]| |]; intros [= <- <- <-].
  - split_and!; [done|done|done| |done]. rewrite E6, E8, E4, ztake_ge, copies_S, app_assoc by lia. done.
  - split; [|done]. unfold amid. split_and!; (done || lia).
  - done.
Qed.

(** A poll in the middle of a frame finishes it first, and then starts the next copy. *)
Lemma poll_amid buf pre m c0 c w r c' w' : encodable (fc_addr c0) -> amid buf pre m c0 c w -> polls_ok w ->
  FramedConn_poll_write buf c w = (r, c', w') ->
  match r with
  | Ready n => n = Z.min (zlen buf) MAX_LENGTH /\ idle c' /\ same_target c0 c' /\ wh_wire w' = pre ++ copies (S (S m)) (written_frame c0 buf) /\ polls_ok w'
  | Pending => (amid buf pre m c0 c' w' \/ amid buf pre (S m) c0 c' w') /\ polls_ok w'
  | PollErr => True
  end.
Proof.
  intros He ((T1 & T2 & T3) & Ep & Hc & Ew) Hp E. unfold FramedConn_poll_write in E.
  destruct (write_frame (wh_polls w) (wh_wire w) c) as [[r1 c1] w1] eqn:E1. pose proof E1 as E1'.
  apply (write_frame_spec _ _ _ _ _ _ _ Ew) in E1'; [|lia|done]. destruct E1' as ((S1 & S2 & S3) & S4 & S5 & S6 & S7 & S8).
  assert (Ht : same_target c0 c1) by (unfold same_target; split_and!; congruence).
  destruct r1 as [[]| |]; [|injection E as <- <- <-; split; [left; unfold amid; split_and!; (done || congruence || lia)|done]|by injection E as <- <- <-].
  assert (Ew1 : wh_wire w1 = pre ++ copies (S m) (written_frame c0 buf)) by (rewrite S6, S8, S4, Ep, ztake_ge, copies_S, app_assoc by lia; done).
  pose proof (poll_start buf pre (S m) c0 c1 w1 (wh_polls w1) r c' w' He Ht S7 eq_refl Ew1 S8) as H.
  assert (E' : FramedConn_poll_write buf c1 w1 = (r, c', w')).
  { unfold FramedConn_poll_write. assert (Hn : forall polls wire, write_frame polls wire c1 = (Ready tt, c1, mkWriteHalf polls wire)).
    { intros polls wire. destruct polls; cbn [write_frame]; unfold idle in S8; rewrite S8, Z.ltb_irrefl; done. }
    rewrite Hn. destruct w1. exact E. }
  specialize (H E'). destruct r; [done| |done]. destruct H as [H1 H2]. split; [by right|done].
Qed.

Lemma polled_amid buf k c w c' w' : polled buf k c w c' w' -> forall pre m c0, encodable (fc_addr c0) -> amid buf pre m c0 c w -> polls_ok w ->
  exists n, wh_wire w' = pre ++ copies n (written_frame c0 buf) /\ idle c' /\ (S (S m) <= n <= S m + k)%nat.
Proof.
  induction 1 as [c w c' w' n E|k c w c1 w1 c' w' E _ IH]; intros pre m c0 He Ha Hp.
  - pose proof (poll_amid _ _ _ _ _ _ _ _ _ He Ha Hp E) as (_ & Hi & _ & Ew & _). exists (S (S m)). split_and!; [done|done|lia|lia].
  - pose proof (poll_amid _ _ _ _ _ _ _ _ _ He Ha Hp E) as [[Ha1|Ha1] Hp1]; destruct (IH _ _ _ He Ha1 Hp1) as (n & Ew & Hi & Hn); exists n; split_and!; (done || lia).
Qed.

(** * Reading *)

Lemma take_frame_head room sep a port payload more c : packet_ok a port payload -> zlen sep = 2 -> 0 <= room ->
  fc_rbuf c = frame_with sep a port payload ++ more ->
  take_frame room c = Some (Ready (ztake room payload), fc_set_rbuf (zdrop room payload ++ more) c).
Proof.
  intros Hp Hs Hr E. unfold take_frame. rewrite E, parse_frame by done. pose proof (frame_pos sep a port payload Hs) as Hpos. pose proof (zlen_nonneg more).
  destruct (Z.eqb_spec (zlen (frame_with sep a port payload ++ more)) 0); [zlens; lia|].
  set (h := target_bytes a port ++ be16 (zlen payload) ++ sep). assert (Ef : frame_with sep a port payload = h ++ payload) by (unfold h, frame_with; by rewrite <- !app_assoc).
  rewrite Ef. pose proof (zlen_nonneg h). pose proof (zlen_nonneg payload). do 2 f_equal.
  - f_equal. destruct (Z.min_spec (zlen payload) room) as [[? ->]|[? ->]]; [by rewrite !ztake_ge by lia|done].
  - f_equal. rewrite <- app_assoc, zdrop_app_ge by (zlens; lia). zlens.
    replace (zlen h + zlen payload - zlen payload + Z.min (zlen payload) room - zlen h) with (Z.min (zlen payload) room) by lia.
    rewrite zdrop_app_le by lia. f_equal. destruct (Z.min_spec (zlen payload) room) as [[? ->]|[? ->]]; [by rewrite !zdrop_ge by lia|done].
Qed.

(** Part of a frame, or none of it, asks for more. *)
Lemma take_frame_part room sep a port payload c : packet_ok a port payload -> zlen sep = 2 -> bytes_ok (fc_rbuf c) ->
  (exists more, frame_with sep a port payload = fc_rbuf c ++ more /\ more <> []) -> take_frame room c = None.
Proof.
  intros Hp Hs Hb (more & E & Hne). unfold take_frame. destruct (Z.eqb_spec (zlen (fc_rbuf c)) 0); [done|].
  destruct (parse_stream_more (fc_rbuf c) more Hb) as [->|Hst]; [done|]. rewrite <- E in Hst.
  pose proof (parse_frame sep a port payload [] Hp Hs) as Hpf. rewrite app_nil_r in Hpf. rewrite Hpf in Hst. rewrite <- Hst. exfalso.
  symmetry in Hst. apply parse_frame_inv in Hst as (_ & sep' & rest & _ & Eb & El); [|done]. rewrite E, Eb in El. zlens. zlen_facts. apply Hne, zlen_zero. lia.
Qed.

Lemma poll_read_frame room sep a port payload inner : packet_ok a port payload -> zlen sep = 2 -> 0 <= room -> flows inner ->
  forall c rest, bytes_ok (fc_rbuf c) -> bytes_ok (stream_bytes inner) ->
  fc_rbuf c ++ stream_bytes inner = frame_with sep a port payload ++ rest ->
  exists c' inner', FramedConn_poll_read room inner c = (Ready (ztake room payload), c', inner') /\ flows inner' /\
    fc_rbuf c' ++ stream_bytes inner' = zdrop room payload ++ rest.
Proof.
  intros Hp Hs Hr Hf. induction Hf as [|e inner (bs & -> & Hne) Hf IH]; intros c rest Hb Hbi E.
  - cbn [stream_bytes map concat] in *. rewrite app_nil_r in E. cbn [FramedConn_poll_read]. rewrite (take_frame_head _ _ _ _ _ _ _ Hp Hs Hr E).
    eexists _, _. split; [reflexivity|]. split; [constructor|]. cbn. by rewrite app_nil_r.
  - rewrite stream_bytes_cons in *. cbn [event_bytes] in *. apply Forall_app in Hbi as [Hbs Hbi]. cbn [FramedConn_poll_read].
    destruct (decide (zlen (frame_with sep a port payload) <= zlen (fc_rbuf c))) as [Hle|Hgt].
    + assert (exists more, fc_rbuf c = frame_with sep a port payload ++ more) as [more Em].
      { exists (zdrop (zlen (frame_with sep a port payload)) (fc_rbuf c)). rewrite <- (ztake_drop (zlen (frame_with sep a port payload)) (fc_rbuf c)) at 1. f_equal.
        rewrite <- (ztake_app_le _ _ (bs ++ stream_bytes inner)), E by done. by apply ztake_app. }
      rewrite (take_frame_head _ _ _ _ _ _ _ Hp Hs Hr Em). eexists _, _. split; [reflexivity|]. split; [constructor; [by eexists|done]|].
      cbn [fc_set_rbuf fc_rbuf]. rewrite Em, <- app_assoc in E. apply app_inv_head in E. rewrite <- app_assoc. f_equal. exact E.
    + rewrite (take_frame_part room sep a port payload c Hp Hs Hb).
      2: { exists (zdrop (zlen (fc_rbuf c)) (frame_with sep a port payload)). split.
           - rewrite <- (ztake_drop (zlen (fc_rbuf c)) (frame_with _ _ _ _)) at 1. f_equal.
             rewrite <- (ztake_app_le _ _ rest) by lia. rewrite <- E. by apply ztake_app.
           - intros Ez. pose proof (zlen_drop (zlen (fc_rbuf c)) (frame_with sep a port payload)) as Hz. rewrite Ez in Hz. pose proof (zlen_nonneg (fc_rbuf c)). change (zlen []) with 0 in Hz. lia. }
      destruct (Z.eqb_spec (zlen bs) 0) as [Ez|_]; [destruct bs; [done|zlia]|].
      apply IH; cbn [fc_set_rbuf fc_rbuf]; [by apply Forall_app|done|by rewrite <- app_assoc].
Qed.

(** The framed connection of the client, writing and reading.  A datagram written is
    taken up to 8192 bytes and put on the wire as a frame; when the connection below is
    ready that is one frame, but when it ever answers Pending within the first frame, and
    the caller polls again with the same bytes as the contract of [AsyncWrite] asks, the
    frame is finished and then sent again, at least twice in all and at most once per
    poll.  A read finds the next frame and returns its payload, up to the room of the
    reader; what did not fit stays where the next frame should begin and is read as one. *)
Theorem trojan_framed_exact c : encodable (fc_addr c) ->
  (forall buf w c' w' k, idle c -> polls_ok w -> polled buf k c w c' w' ->
     exists m, wh_wire w' = wh_wire w ++ copies m (written_frame c buf) /\ idle c' /\ (k = 1%nat -> m = 1%nat) /\ ((2 <= k)%nat -> (2 <= m <= k)%nat)) /\
  (forall buf w, idle c -> Forall (fun p => match p with WriteReady n => 0 < n | _ => False end) (wh_polls w) ->
     zlen (written_frame c buf) <= zlen (wh_polls w) -> exists c' w', polled buf 1 c w c' w') /\
  (forall room sep a port payload inner rest, packet_ok a port payload -> zlen sep = 2 -> 0 <= room -> flows inner ->
     bytes_ok (fc_rbuf c) -> bytes_ok (stream_bytes inner) -> fc_rbuf c ++ stream_bytes inner = frame_with sep a port payload ++ rest ->
     exists c' inner', FramedConn_poll_read room inner c = (Ready (ztake room payload), c', inner') /\
       fc_rbuf c' ++ stream_bytes inner' = zdrop room payload ++ rest).
Proof.
  intros He. split; [|split].
  - intros buf w c' w' k Hi Hp Hk. assert (Ht : same_target c c) by done.
    assert (E0 : wh_wire w = wh_wire w ++ copies 0 (written_frame c buf)) by (cbn; by rewrite app_nil_r).
    inversion Hk as [? ? ? ? n E|k1 ? ? c1 w1 ? ? E Hk1]; subst; apply (poll_start buf (wh_wire w) 0 c c w _ _ _ _ He Ht Hp eq_refl E0 Hi) in E.
    + destruct E as (_ & Hi' & _ & Ew & _). exists 1%nat. split_and!; [done|done|done|lia].
    + destruct E as [Ha Hp1]. destruct (polled_amid _ _ _ _ _ _ Hk1 _ _ _ He Ha Hp1) as (n & Ew & Hi' & Hn). exists n. split_and!; [done|done| |lia].
      intros [= ->]. by inversion Hk1.
  - intros buf w Hi Hp Hl. assert (Hn : forall wire, write_frame (wh_polls w) wire c = (Ready tt, c, mkWriteHalf (wh_polls w) wire)).
    { intros wire. destruct (wh_polls w); cbn [write_frame]; unfold idle in Hi; rewrite Hi, Z.ltb_irrefl; done. }
    pose proof (zlen_write_chunk buf) as Hz. unfold MAX_LENGTH in Hz.
    assert (E : exists c' w' n, FramedConn_poll_write buf c w = (Ready n, c', w')).
    { unfold FramedConn_poll_write. rewrite Hn. cbn [wh_polls wh_wire]. fold (write_chunk buf). rewrite write_udp_frame by (done || lia). cbn [app]. fold (written_frame c buf).
      set (f := mkFramed _ _ _ _ 0). destruct (write_frame_ready (wh_polls w) (wh_wire w) f) as (c' & w' & ->); [subst f; cbn; pose proof (zlen_nonneg (written_frame c buf)); lia|done|subst f; cbn [fc_wpending fc_wpos]; lia|].
      by eexists _, _, _. }
    destruct E as (c' & w' & n & E). exists c', w'. by eapply polled_ready.
  - intros room sep a port payload inner rest Hp Hs Hr Hf Hb Hbi E.
    destruct (poll_read_frame room sep a port payload inner Hp Hs Hr Hf c rest Hb Hbi E) as (c' & inner' & E1 & _ & E2). by exists c', inner'.
Qed.
