(* ===== verification/Vision.v ===== *)
(** [xray-proxy-vless/src/encryption/vision.rs]: the padding blocks of XTLS Vision, the
    filter that recognises TLS 1.3, complete records.

    Random numbers are drawn by [random_range], the generator's state threaded; an empty
    range panics ([None]).  Lengths of buffers are below [2^31], where [as i32] is exact. *)
From Stdlib Require Import String.
From stdpp Require Import base tactics option list numbers.
From S2P Require Import Prelude Bytes StrMatch.

Definition TLS_SERVER_HANDSHAKE_START : bytes := [22; 3; 3].
Definition TLS_CLIENT_HANDSHAKE_START : bytes := [22; 3].
Definition TLS_APPLICATION_DATA_START : bytes := [23; 3; 3].
Definition TLS13_SUPPORTED_VERSIONS : bytes := [0; 43; 0; 2; 3; 4].
Definition TLS_HANDSHAKE_TYPE_CLIENT_HELLO : Z := 1.
Definition TLS_HANDSHAKE_TYPE_SERVER_HELLO : Z := 2.

Definition COMMAND_PADDING_CONTINUE : Z := 0.
Definition COMMAND_PADDING_END : Z := 1.
Definition COMMAND_PADDING_DIRECT : Z := 2.

Definition BUF_SIZE : Z := 2048.
Definition DEFAULT_PADDING_SEED : list Z := [900; 500; 900; 256].

Definition normalize_padding_seed (seed : list Z) : list Z :=
  if zlen seed <? 4 then DEFAULT_PADDING_SEED else [seed @ 0; seed @ 1; seed @ 2; seed @ 3].

Definition tls13_cipher_suite_name (cipher : Z) : option bytes :=
  if cipher =? 4865 then Some (text "TLS_AES_128_GCM_SHA256")
  else if cipher =? 4866 then Some (text "TLS_AES_256_GCM_SHA384")
  else if cipher =? 4867 then Some (text "TLS_CHACHA20_POLY1305_SHA256")
  else if cipher =? 4868 then Some (text "TLS_AES_128_CCM_SHA256")
  else if cipher =? 4869 then Some (text "TLS_AES_128_CCM_8_SHA256")
  else None.

Record DirectionState : Type := mkDirection {
  ds_within_padding_buffers : bool;
  ds_reader_direct_copy : bool;
  ds_remaining_command : Z;
  ds_remaining_content : Z;
  ds_remaining_padding : Z;
  ds_current_command : Z;
  ds_is_padding : bool;
  ds_writer_direct_copy : bool;
}.

Definition DirectionState_default : DirectionState := mkDirection false false (-1) (-1) (-1) 0 true false.

Definition ds_set (command content padding current : Z) (s : DirectionState) : DirectionState :=
  mkDirection (ds_within_padding_buffers s) (ds_reader_direct_copy s) command content padding current (ds_is_padding s) (ds_writer_direct_copy s).

Record TrafficState : Type := mkTraffic {
  ts_user_uuid : bytes;
  ts_number_of_packet_to_filter : Z;
  ts_enable_xtls : bool;
  ts_is_tls12_or_above : bool;
  ts_is_tls : bool;
  ts_cipher : Z;
  ts_remaining_server_hello : Z;
  ts_inbound : DirectionState;
  ts_outbound : DirectionState;
}.

Definition TrafficState_new (user_uuid : bytes) : TrafficState :=
  mkTraffic user_uuid 8 false false false 0 0 DirectionState_default DirectionState_default.

(** * Padding *)

(** [x as i32], and a wrapping sum. *)
Definition to_i32 (x : Z) : Z := (x + 2147483648) mod 4294967296 - 2147483648.

Section padding.
Context {Rng : Type}.
Variable random_range : Z -> Rng -> Z * Rng.

(** [rng.random_range(0..n)] *)
Definition draw (n : Z) (rng : Rng) : option (Z * Rng) := if n =? 0 then None else Some (random_range n rng).

Definition padding_len (content_len : Z) (long_padding : bool) (seed : list Z) (rng : Rng) : option (Z * Rng) :=
  '(padding_len, rng) ←
    (if (content_len <? to_i32 (seed @ 0)) && long_padding then
       '(r, rng) ← draw (seed @ 1) rng;
       Some (to_i32 (to_i32 r + to_i32 (seed @ 2) - content_len), rng)
     else
       '(r, rng) ← draw (seed @ 3) rng;
       Some (to_i32 r, rng));
  let cap := BUF_SIZE - 21 - content_len in
  let padding_len := if cap <? padding_len then cap else padding_len in
  Some (if padding_len <? 0 then 0 else padding_len, rng).

(** The block, and the uuid that is left to write: none after the first block. *)
Definition xtls_padding (content : option bytes) (command : Z) (user_uuid : option bytes) (long_padding : bool) (seed : list Z) (rng : Rng)
    : option (bytes * option bytes * Rng) :=
  let content_len := match content with Some c => zlen c | None => 0 end in
  '(padding_len, rng) ← padding_len content_len long_padding seed rng;
  let out := match user_uuid with Some uuid => uuid | None => [] end in
  let out := out ++ [command; to_u8 (Z.shiftr content_len 8); to_u8 content_len; to_u8 (Z.shiftr padding_len 8); to_u8 padding_len] in
  let out := out ++ match content with Some c => c | None => [] end in
  Some (out ++ zrepeat padding_len 0, None, rng).
End padding.

(** * Unpadding *)

(** One turn of the loop: what is left of the buffer, what comes out, the state. *)
Definition unpadding_turn (buf : bytes) (s : DirectionState) : bytes * bytes * DirectionState :=
  if 0 <? ds_remaining_command s then
    let data := buf @ 0 in
    let k := ds_remaining_command s in
    let content := if k =? 4 then Z.shiftl data 8 else if k =? 3 then Z.lor (ds_remaining_content s) data else ds_remaining_content s in
    let padding := if k =? 2 then Z.shiftl data 8 else if k =? 1 then Z.lor (ds_remaining_padding s) data else ds_remaining_padding s in
    (zdrop 1 buf, [], ds_set (k - 1) content padding (if k =? 5 then data else ds_current_command s) s)
  else if 0 <? ds_remaining_content s then
    let len := Z.min (ds_remaining_content s) (zlen buf) in
    (zdrop len buf, ztake len buf, ds_set (ds_remaining_command s) (ds_remaining_content s - len) (ds_remaining_padding s) (ds_current_command s) s)
  else
    let len := Z.min (ds_remaining_padding s) (zlen buf) in
    (zdrop len buf, [], ds_set (ds_remaining_command s) (ds_remaining_content s) (ds_remaining_padding s - len) (ds_current_command s) s).

Definition block_done (s : DirectionState) : bool :=
  (ds_remaining_command s <=? 0) && (ds_remaining_content s <=? 0) && (ds_remaining_padding s <=? 0).

(** Every turn takes at least a byte, so the length of the buffer and one is enough. *)
Fixpoint unpadding_loop (fuel : nat) (buf out : bytes) (s : DirectionState) : option (bytes * DirectionState) :=
  match fuel with
  | O => None
  | S fuel =>
      if zlen buf =? 0 then Some (out, s)
      else
        let '(buf, more, s) := unpadding_turn buf s in
        let out := out ++ more in
        if block_done s then
          if ds_current_command s =? COMMAND_PADDING_CONTINUE then
            unpadding_loop fuel buf out (ds_set 5 (ds_remaining_content s) (ds_remaining_padding s) (ds_current_command s) s)
          else Some (out ++ buf, ds_set (-1) (-1) (-1) (ds_current_command s) s)
        else unpadding_loop fuel buf out s
  end.

Definition at_start (s : DirectionState) : bool :=
  (ds_remaining_command s =? -1) && (ds_remaining_content s =? -1) && (ds_remaining_padding s =? -1).

Definition xtls_unpadding (buf : bytes) (s : DirectionState) (user_uuid : bytes) : option (bytes * DirectionState) :=
  if at_start s then
    if (21 <=? zlen buf) && (zlen user_uuid =? 16) && bool_decide (ztake 16 buf = user_uuid) then
      unpadding_loop (S (length buf)) (zdrop 16 buf) [] (ds_set 5 (ds_remaining_content s) (ds_remaining_padding s) (ds_current_command s) s)
    else Some (buf, s)
  else unpadding_loop (S (length buf)) buf [] s.

(** * The TLS filter *)

(** [windows(n).any(w == p)] of a pattern of [n] bytes. *)
Definition has_window (b p : bytes) : bool := contains b p.

(** One buffer of the loop; [true] asks to stop. *)
Definition filter_buffer (b : bytes) (s : TrafficState) : bool * TrafficState :=
  if ts_number_of_packet_to_filter s <=? 0 then (true, s)
  else
    let n := ts_number_of_packet_to_filter s - 1 in
    let set n xtls tls12 tls cipher hello := mkTraffic (ts_user_uuid s) n xtls tls12 tls cipher hello (ts_inbound s) (ts_outbound s) in
    if zlen b <? 6 then (false, set n (ts_enable_xtls s) (ts_is_tls12_or_above s) (ts_is_tls s) (ts_cipher s) (ts_remaining_server_hello s))
    else
      let starts := ztake 6 b in
      let server := starts_with starts TLS_SERVER_HANDSHAKE_START && (starts @ 5 =? TLS_HANDSHAKE_TYPE_SERVER_HELLO) in
      let client := starts_with starts TLS_CLIENT_HANDSHAKE_START && (starts @ 5 =? TLS_HANDSHAKE_TYPE_CLIENT_HELLO) in
      let hello := if server then Z.lor (Z.shiftl (starts @ 3) 8) (starts @ 4) + 5 else ts_remaining_server_hello s in
      let tls12 := if server then true else ts_is_tls12_or_above s in
      let tls := if server then true else if client then true else ts_is_tls s in
      let cipher :=
        if server && (79 <=? zlen b) && (79 <=? hello) then
          let cipher_off := 44 + b @ 43 in
          if cipher_off + 2 <=? zlen b then Z.lor (Z.shiftl (b @ cipher_off) 8) (b @ (cipher_off + 1)) else ts_cipher s
        else ts_cipher s in
      if 0 <? hello then
        let ending := Z.min hello (zlen b) in
        let hello := hello - zlen b in
        if (zlen TLS13_SUPPORTED_VERSIONS <=? ending) && has_window (ztake ending b) TLS13_SUPPORTED_VERSIONS then
          let xtls :=
            match tls13_cipher_suite_name cipher with
            | Some v => if bool_decide (v = text "TLS_AES_128_CCM_8_SHA256") then ts_enable_xtls s else true
            | None => ts_enable_xtls s
            end in
          (true, set 0 xtls tls12 tls cipher hello)
        else if hello <=? 0 then (true, set 0 (ts_enable_xtls s) tls12 tls cipher hello)
        else (n <=? 0, set n (ts_enable_xtls s) tls12 tls cipher hello)
      else (n <=? 0, set n (ts_enable_xtls s) tls12 tls cipher hello).

Fixpoint xtls_filter_tls (buffers : list bytes) (s : TrafficState) : TrafficState :=
  match buffers with
  | [] => s
  | b :: buffers => match filter_buffer b s with (true, s) => s | (false, s) => xtls_filter_tls buffers s end
  end.

(** * Complete records *)

Fixpoint complete_loop (fuel : nat) (buf : bytes) (i : Z) : option bool :=
  match fuel with
  | O => None
  | S fuel =>
      let total := zlen buf in
      if i <? total then
        if total <? i + 5 then Some false
        else if negb (buf @ i =? 23) || negb (buf @ (i + 1) =? 3) || negb (buf @ (i + 2) =? 3) then Some false
        else
          let record_len := Z.lor (Z.shiftl (buf @ (i + 3)) 8) (buf @ (i + 4)) in
          let i := i + 5 in
          if total - i <? record_len then Some false else complete_loop fuel buf (i + record_len)
      else Some (i =? total)
  end.

(** A turn takes at least a header of five bytes. *)
Definition is_complete_record (buf : bytes) : option bool := complete_loop (S (length buf)) buf 0.

(** The byte at a position of the whole batch; the caller keeps it in range. *)
Fixpoint slices_byte_at (slices : list bytes) (global : Z) : option Z :=
  match slices with
  | [] => None
  | s :: slices => if global <? zlen s then Some (s @ global) else slices_byte_at slices (global - zlen s)
  end.

Definition total_len_of (slices : list bytes) : Z := foldr (fun s n => zlen s + n) 0 slices.

(** [None] is the end of the fuel or the [unreachable!]. *)
Fixpoint complete_slices_loop (fuel : nat) (slices : list bytes) (pos header_left record_len : Z) : option bool :=
  match fuel with
  | O => None
  | S fuel =>
      let total := total_len_of slices in
      if pos <? total then
        if header_left =? 0 then
          let skip := Z.min record_len (total - pos) in
          let record_len := record_len - skip in
          if negb (record_len =? 0) then Some false else complete_slices_loop fuel slices (pos + skip) 5 record_len
        else
          byte ← slices_byte_at slices pos;
          let pos := pos + 1 in
          if header_left =? 5 then
            if negb (byte =? 23) then Some false else complete_slices_loop fuel slices pos (header_left - 1) record_len
          else if (header_left =? 4) || (header_left =? 3) then
            if negb (byte =? 3) then Some false else complete_slices_loop fuel slices pos (header_left - 1) record_len
          else if header_left =? 2 then complete_slices_loop fuel slices pos (header_left - 1) (Z.shiftl byte 8)
          else if header_left =? 1 then
            let record_len := Z.lor record_len byte in
            if record_len =? 0 then complete_slices_loop fuel slices pos 5 record_len
            else complete_slices_loop fuel slices pos (header_left - 1) record_len
          else None
      else Some (header_left =? 5)
  end.

Definition is_complete_record_slices (slices : list bytes) : option bool :=
  complete_slices_loop (S (Z.to_nat (total_len_of slices))) slices 0 5 0.

(** * Port 443 over UDP *)

Definition PKT_TYPE_UDP443_INITIAL : Z := 0.
Definition PKT_TYPE_UDP443_OTHER : Z := 1.
Definition PKT_TYPE_NOT_UDP443 : Z := 2.

Definition is_udp443 (port : Z) (is_udp : bool) : bool := is_udp && (port =? 443).

Definition classify_udp443_packet (buf : bytes) (port : Z) (is_udp : bool) : Z :=
  if negb (is_udp443 port is_udp) then PKT_TYPE_NOT_UDP443
  else if negb (zlen buf =? 0) && (Z.land (buf @ 0) 192 =? 192) && (Z.land (Z.shiftr (buf @ 0) 4) 3 =? 0) then PKT_TYPE_UDP443_INITIAL
  else PKT_TYPE_UDP443_OTHER.

Definition udp443_splice_decision (buf : bytes) (port : Z) (is_udp : bool) : option bool :=
  let pkt_type := classify_udp443_packet buf port is_udp in
  if pkt_type =? PKT_TYPE_NOT_UDP443 then None
  else if pkt_type =? PKT_TYPE_UDP443_INITIAL then Some false
  else if pkt_type =? PKT_TYPE_UDP443_OTHER then Some true
  else None.

Inductive SpliceDecision : Type := Splice | NoSplice | SplicePending.

Definition can_splice_copy (state : TrafficState) (port : Z) (is_udp : bool) : SpliceDecision :=
  if is_udp443 port is_udp then NoSplice
  else if negb (ts_enable_xtls state) then NoSplice
  else if 0 <? ts_number_of_packet_to_filter state then SplicePending
  else Splice.
