(* ===== verification/VisionConn.v ===== *)
(** [xray-proxy-vless/src/encryption/vision_conn.rs]: a connection that pads what is
    written and unpads what is read until one side ends the padding, or moves to the raw
    socket below the security layer.

    The inner connection and the raw socket are what their polls will answer: [ReadEvent]s
    (one for each read of at most 16 KiB; [Silence] is [Pending]), [WritePoll]s, the
    answers of the inner flush and of the delay before the first raw write.  A clone of
    the socket is a boolean: held, or to be had.  The buffers kept for their capacity and
    the diagnostics are left out. *)
From stdpp Require Import base tactics option list numbers.
From S2P Require Import Prelude Bytes AsyncIo StrMatch Vision.

Definition MAX_PADDING_CONTENT : Z := 2027.

(** What must happen when the frame is out. *)
Inductive UpGate : Type := GateNone | DirectArm | EndCommit.

Record UpFrame : Type := mkUpFrame {
  uf_padded : bytes;
  uf_sent : Z;
  uf_orig_len : Z;
  uf_gate : UpGate;
}.

Record VisionConn (Rng : Type) : Type := mkVision {
  vc_user_uuid : bytes;
  vc_uplink_uuid_pending : option bytes;
  vc_downlink_state : DirectionState;
  vc_downlink_pending : bytes;
  vc_downlink_pending_pos : Z;
  vc_uplink_pending : list UpFrame;
  vc_uplink_padding : bool;
  vc_downlink_padding : bool;
  vc_rng : Rng;
  vc_padding_seed : list Z;
  vc_uplink_traffic : TrafficState;
  vc_downlink_traffic : TrafficState;
  vc_raw_fallback : bool;
  vc_raw_tcp : bool;
  vc_splice_armed : bool;
  vc_end_commit : bool;
  vc_is_server : bool;
  vc_raw_write_gate : bool;
}.
Arguments mkVision {Rng}.
Arguments vc_user_uuid {Rng}.
Arguments vc_uplink_uuid_pending {Rng}.
Arguments vc_downlink_state {Rng}.
Arguments vc_downlink_pending {Rng}.
Arguments vc_downlink_pending_pos {Rng}.
Arguments vc_uplink_pending {Rng}.
Arguments vc_uplink_padding {Rng}.
Arguments vc_downlink_padding {Rng}.
Arguments vc_rng {Rng}.
Arguments vc_padding_seed {Rng}.
Arguments vc_uplink_traffic {Rng}.
Arguments vc_downlink_traffic {Rng}.
Arguments vc_raw_fallback {Rng}.
Arguments vc_raw_tcp {Rng}.
Arguments vc_splice_armed {Rng}.
Arguments vc_end_commit {Rng}.
Arguments vc_is_server {Rng}.
Arguments vc_raw_write_gate {Rng}.

(** What is below: the two writers, the flushes, the delay; whether the inner connection
    can clone its socket. *)
Record Below : Type := mkBelow {
  bl_inner : WriteHalf;
  bl_flush : list (Poll unit);
  bl_raw : WriteHalf;
  bl_delay : list bool;
  bl_clone : bool;
}.

Section vision.
Context {Rng : Type}.
Variable random_range : Z -> Rng -> Z * Rng.
Implicit Types c : VisionConn Rng.

Definition VisionConn_new (user_uuid : bytes) (rng : Rng) : VisionConn Rng :=
  mkVision user_uuid (Some user_uuid) DirectionState_default [] 0 [] true true rng DEFAULT_PADDING_SEED
    (TrafficState_new user_uuid) (TrafficState_new user_uuid) false false false false false false.

Definition VisionConn_new_server (user_uuid : bytes) (rng : Rng) : VisionConn Rng :=
  mkVision user_uuid (Some user_uuid) DirectionState_default [] 0 [] true true rng DEFAULT_PADDING_SEED
    (TrafficState_new user_uuid) (TrafficState_new user_uuid) false true false false true false.

Definition with_padding_seed (seed : list Z) c : VisionConn Rng :=
  mkVision (vc_user_uuid c) (vc_uplink_uuid_pending c) (vc_downlink_state c) (vc_downlink_pending c) (vc_downlink_pending_pos c)
    (vc_uplink_pending c) (vc_uplink_padding c) (vc_downlink_padding c) (vc_rng c) (normalize_padding_seed seed)
    (vc_uplink_traffic c) (vc_downlink_traffic c) (vc_raw_fallback c) (vc_raw_tcp c) (vc_splice_armed c) (vc_end_commit c) (vc_is_server c) (vc_raw_write_gate c).

(** * Reading *)

Definition vc_set_read (state : DirectionState) (pending : bytes) (pos : Z) (padding : bool) (traffic : TrafficState) (raw_fallback raw_tcp : bool) c
    : VisionConn Rng :=
  mkVision (vc_user_uuid c) (vc_uplink_uuid_pending c) state pending pos
    (vc_uplink_pending c) (vc_uplink_padding c) padding (vc_rng c) (vc_padding_seed c)
    (vc_uplink_traffic c) traffic raw_fallback raw_tcp (vc_splice_armed c) (vc_end_commit c) (vc_is_server c) (vc_raw_write_gate c).

(** [raw_tcp.take().or_else(|| inner_raw_tcp_clone())] *)
Definition take_raw (clone : bool) c : bool := vc_raw_tcp c || clone.

(** What one read of the inner connection changes: unpad, and switch when the frame says so. *)
Definition take_inner (bs : bytes) (clone : bool) c : option (VisionConn Rng) :=
  '(pending, state) ← xtls_unpadding bs (vc_downlink_state c) (vc_user_uuid c);
  let cmd := ds_current_command state in
  let frames_done := (ds_remaining_content state <=? 0) && (ds_remaining_padding state <=? 0) && negb (cmd =? 0) in
  let direct := frames_done && negb (cmd =? COMMAND_PADDING_END) && (cmd =? COMMAND_PADDING_DIRECT) in
  let padding := if frames_done && ((cmd =? COMMAND_PADDING_END) || (cmd =? COMMAND_PADDING_DIRECT)) then false else vc_downlink_padding c in
  let raw_fallback := if direct && negb (vc_raw_fallback c) then take_raw clone c else vc_raw_fallback c in
  let raw_tcp := if direct && negb (vc_raw_fallback c) then false else vc_raw_tcp c in
  if zlen pending =? 0 then Some (vc_set_read state pending (vc_downlink_pending_pos c) padding (vc_downlink_traffic c) raw_fallback raw_tcp c)
  else
    let traffic :=
      if 0 <? ts_number_of_packet_to_filter (vc_downlink_traffic c) then xtls_filter_tls [pending] (vc_downlink_traffic c)
      else vc_downlink_traffic c in
    Some (vc_set_read state pending 0 padding traffic raw_fallback raw_tcp c).

(** The branches that answer without reading padded bytes. *)
Definition read_ready (room : Z) (inner raw : list ReadEvent) c : option (Poll bytes * VisionConn Rng * list ReadEvent * list ReadEvent) :=
  if vc_downlink_pending_pos c <? zlen (vc_downlink_pending c) then
    let avail := zdrop (vc_downlink_pending_pos c) (vc_downlink_pending c) in
    let n := Z.min (zlen avail) room in
    let pos := vc_downlink_pending_pos c + n in
    let set pending pos := vc_set_read (vc_downlink_state c) pending pos (vc_downlink_padding c) (vc_downlink_traffic c) (vc_raw_fallback c) (vc_raw_tcp c) c in
    Some (Ready (ztake n avail), if zlen (vc_downlink_pending c) <=? pos then set [] 0 else set (vc_downlink_pending c) pos, inner, raw)
  else if negb (vc_downlink_padding c) then
    if vc_raw_fallback c then let '(r, raw) := poll_stream room raw in Some (r, c, inner, raw)
    else let '(r, inner) := poll_stream room inner in Some (r, c, inner, raw)
  else None.

(** [poll_read]; the outer [None] is the end of the fuel of [xtls_unpadding]. *)
Fixpoint VisionConn_poll_read (room : Z) (clone : bool) (inner raw : list ReadEvent) c
    : option (Poll bytes * VisionConn Rng * list ReadEvent * list ReadEvent) :=
  match read_ready room inner raw c with
  | Some r => Some r
  | None =>
      match inner with
      | [] => Some (Ready [], c, [], raw)
      | Data bs :: inner =>
          if zlen bs =? 0 then Some (Ready [], c, inner, raw)
          else match take_inner bs clone c with None => None | Some c => VisionConn_poll_read room clone inner raw c end
      | IoFailure :: inner => Some (PollErr, c, inner, raw)
      | Silence :: inner => Some (Pending, c, inner, raw)
      end
  end.

(** * Writing *)

Definition vc_set_write (uuid : option bytes) (pending : list UpFrame) (padding : bool) (rng : Rng) (traffic : TrafficState)
    (raw_fallback raw_tcp armed commit gate : bool) c : VisionConn Rng :=
  mkVision (vc_user_uuid c) uuid (vc_downlink_state c) (vc_downlink_pending c) (vc_downlink_pending_pos c)
    pending padding (vc_downlink_padding c) rng (vc_padding_seed c)
    traffic (vc_downlink_traffic c) raw_fallback raw_tcp armed commit (vc_is_server c) gate.

Definition vc_set_pending (pending : list UpFrame) c : VisionConn Rng :=
  vc_set_write (vc_uplink_uuid_pending c) pending (vc_uplink_padding c) (vc_rng c) (vc_uplink_traffic c)
    (vc_raw_fallback c) (vc_raw_tcp c) (vc_splice_armed c) (vc_end_commit c) (vc_raw_write_gate c) c.

Definition bl_set_inner (w : WriteHalf) (b : Below) : Below := mkBelow w (bl_flush b) (bl_raw b) (bl_delay b) (bl_clone b).
Definition bl_set_raw (w : WriteHalf) (b : Below) : Below := mkBelow (bl_inner b) (bl_flush b) w (bl_delay b) (bl_clone b).
Definition bl_set_delay (d : list bool) (b : Below) : Below := mkBelow (bl_inner b) (bl_flush b) (bl_raw b) d (bl_clone b).

Definition poll_inner_flush (b : Below) : Poll unit * Below :=
  match bl_flush b with
  | [] => (Pending, b)
  | r :: rs => (r, mkBelow (bl_inner b) rs (bl_raw b) (bl_delay b) (bl_clone b))
  end.

(** One [poll_write]: it takes at most what it is offered. *)
Definition poll_write_some (bs : bytes) (w : WriteHalf) : Poll Z * WriteHalf :=
  match wh_polls w with
  | [] => (Pending, w)
  | WriteReady n :: polls => let n := Z.max 0 (Z.min n (zlen bs)) in (Ready n, mkWriteHalf polls (wh_wire w ++ ztake n bs))
  | WritePending :: polls => (Pending, mkWriteHalf polls (wh_wire w))
  | WriteFailed :: polls => (PollErr, mkWriteHalf polls (wh_wire w))
  end.

(** The frame at the head of the queue written on, as far as the inner connection goes. *)
Fixpoint write_front (polls : list WritePoll) (wire : bytes) (f : UpFrame) : Poll unit * UpFrame * WriteHalf :=
  if uf_sent f <? zlen (uf_padded f) then
    match polls with
    | [] => (Pending, f, mkWriteHalf [] wire)
    | WritePending :: polls => (Pending, f, mkWriteHalf polls wire)
    | WriteFailed :: polls => (PollErr, f, mkWriteHalf polls wire)
    | WriteReady n :: polls =>
        let rest := zdrop (uf_sent f) (uf_padded f) in
        let n := Z.max 0 (Z.min n (zlen rest)) in
        if n =? 0 then (PollErr, f, mkWriteHalf polls wire)
        else write_front polls (wire ++ ztake n rest) (mkUpFrame (uf_padded f) (uf_sent f + n) (uf_orig_len f) (uf_gate f))
    end
  else (Ready tt, f, mkWriteHalf polls wire).

Definition arm_splice_raw (clone : bool) c : VisionConn Rng :=
  if vc_splice_armed c then
    vc_set_write (vc_uplink_uuid_pending c) (vc_uplink_pending c) false (vc_rng c) (vc_uplink_traffic c)
      (if vc_raw_fallback c then true else take_raw clone c) (if vc_raw_fallback c then vc_raw_tcp c else false)
      false (vc_end_commit c) true c
  else c.

Definition commit_end c : VisionConn Rng :=
  vc_set_write (vc_uplink_uuid_pending c) (vc_uplink_pending c) false (vc_rng c) (vc_uplink_traffic c)
    (vc_raw_fallback c) (vc_raw_tcp c) (vc_splice_armed c) false (vc_raw_write_gate c) c.

Definition poll_arm_gate c (b : Below) : Poll unit * VisionConn Rng * Below :=
  if vc_splice_armed c then
    match poll_inner_flush b with
    | (Ready _, b) => (Ready tt, arm_splice_raw (bl_clone b) c, b)
    | (r, b) => (r, c, b)
    end
  else if vc_end_commit c then
    match poll_inner_flush b with
    | (Ready _, b) => (Ready tt, commit_end c, b)
    | (r, b) => (r, c, b)
    end
  else (Ready tt, c, b).

(** The gate of a frame that is out. *)
Definition pass_gate (g : UpGate) c (b : Below) : Poll unit * VisionConn Rng * Below :=
  match g with
  | GateNone => (Ready tt, c, b)
  | DirectArm => poll_arm_gate c b
  | EndCommit =>
      match poll_inner_flush b with
      | (Ready _, b) => (Ready tt, commit_end c, b)
      | (r, b) => (r, c, b)
      end
  end.

Definition pop_frame c : VisionConn Rng := vc_set_pending (tail (vc_uplink_pending c)) c.

(** Branch 1 of the loop: the frame at the head of the queue. *)
Definition drain_front c (b : Below) : option (Poll Z * VisionConn Rng * Below) :=
  match vc_uplink_pending c with
  | [] => None
  | f :: fs =>
      let '(r, f, w) := write_front (wh_polls (bl_inner b)) (wh_wire (bl_inner b)) f in
      let c := vc_set_pending (f :: fs) c in
      let b := bl_set_inner w b in
      Some
        match r with
        | Pending => (Pending, c, b)
        | PollErr => (PollErr, c, b)
        | Ready _ =>
            match pass_gate (uf_gate f) c b with
            | (Ready _, c, b) => (Ready (uf_orig_len f), pop_frame c, b)
            | (Pending, c, b) => (Pending, c, b)
            | (PollErr, c, b) => (PollErr, c, b)
            end
        end
  end.

(** [copy_io_slice_span] *)
Fixpoint copy_io_slice_span (bufs : list bytes) (pos start ending : Z) : bytes :=
  match bufs with
  | [] => []
  | s :: bufs =>
      let sbegin := pos in
      let send := pos + zlen s in
      if send <=? start then copy_io_slice_span bufs send start ending
      else if ending <=? sbegin then []
      else s[: Z.max start sbegin - sbegin, Z.min ending send - sbegin] ++ copy_io_slice_span bufs send start ending
  end.

Fixpoint locate_io_slice_span (bufs : list bytes) (pos off ending : Z) : option bytes :=
  match bufs with
  | [] => None
  | s :: bufs =>
      if ending <=? pos + zlen s then if pos <=? off then Some s[: off - pos, ending - pos] else None
      else locate_io_slice_span bufs (pos + zlen s) off ending
  end.

Definition is_app_data (total : Z) (probe : bytes) : bool :=
  (3 <=? total) && (probe @ 0 =? 23) && (probe @ 1 =? 3) && (probe @ 2 =? 3).

(** What the batch as a whole says: the command of its last frame, long padding or not. *)
Definition batch_command (bufs : list bytes) (total : Z) (probe : bytes) (traffic : TrafficState) c : option (Z * bool) :=
  let write_side := if vc_is_server c then traffic else vc_downlink_traffic c in
  whole_complete ← (if is_app_data total probe && ts_is_tls write_side then is_complete_record_slices bufs else Some false);
  let is_early_end := negb (ts_is_tls12_or_above write_side) && (ts_number_of_packet_to_filter write_side <=? 1) in
  Some (if whole_complete && ts_enable_xtls write_side then COMMAND_PADDING_DIRECT
        else if whole_complete || is_early_end then COMMAND_PADDING_END
        else COMMAND_PADDING_CONTINUE,
        if whole_complete then true else ts_is_tls traffic || ts_is_tls (vc_downlink_traffic c)).

Definition piece_of (bufs : list bytes) (off ending : Z) : bytes :=
  match locate_io_slice_span bufs 0 off ending with
  | Some span => span
  | None => copy_io_slice_span bufs 0 off ending
  end.

(** The loop that frames the batch; a piece takes at least a byte. *)
Fixpoint frame_pieces (fuel : nat) (bufs : list bytes) (total off command : Z) (long_padding : bool) c : option (VisionConn Rng) :=
  match fuel with
  | O => None
  | S fuel =>
      if off <? total then
        let ending := Z.min (off + MAX_PADDING_CONTENT) total in
        let is_last := ending =? total in
        let '(piece_cmd, piece_gate) :=
          if is_last then
            if command =? COMMAND_PADDING_DIRECT then (COMMAND_PADDING_DIRECT, DirectArm)
            else if command =? COMMAND_PADDING_END then (COMMAND_PADDING_END, EndCommit)
            else (COMMAND_PADDING_CONTINUE, GateNone)
          else (COMMAND_PADDING_CONTINUE, GateNone) in
        '(padded, uuid, rng) ← xtls_padding random_range (Some (piece_of bufs off ending)) piece_cmd (vc_uplink_uuid_pending c) long_padding (vc_padding_seed c) (vc_rng c);
        let frame := mkUpFrame padded 0 (ending - off) piece_gate in
        frame_pieces fuel bufs total ending command long_padding
          (vc_set_write uuid (vc_uplink_pending c ++ [frame]) (vc_uplink_padding c) rng (vc_uplink_traffic c)
             (vc_raw_fallback c) (vc_raw_tcp c) (vc_splice_armed c) (vc_end_commit c) (vc_raw_write_gate c) c)
      else Some c
  end.

(** Branch 3: filter, decide, frame. *)
Definition frame_batch (bufs : list bytes) c : option (VisionConn Rng) :=
  let total := total_len_of bufs in
  let probe_end := Z.min total MAX_PADDING_CONTENT in
  let probe := copy_io_slice_span bufs 0 0 probe_end in
  let traffic :=
    if 0 <? ts_number_of_packet_to_filter (vc_uplink_traffic c) then xtls_filter_tls [probe] (vc_uplink_traffic c) else vc_uplink_traffic c in
  '(command, long_padding) ← batch_command bufs total probe traffic c;
  c ← frame_pieces (S (Z.to_nat total)) bufs total 0 command long_padding
        (vc_set_write (vc_uplink_uuid_pending c) (vc_uplink_pending c) (vc_uplink_padding c) (vc_rng c) traffic
           (vc_raw_fallback c) (vc_raw_tcp c) (vc_splice_armed c) (vc_end_commit c) (vc_raw_write_gate c) c);
  Some
    (vc_set_write (vc_uplink_uuid_pending c) (vc_uplink_pending c) (vc_uplink_padding c) (vc_rng c) (vc_uplink_traffic c)
       (vc_raw_fallback c) (vc_raw_tcp c) (if command =? COMMAND_PADDING_DIRECT then true else vc_splice_armed c)
       (if command =? COMMAND_PADDING_END then true else vc_end_commit c) (vc_raw_write_gate c) c).

Definition vc_clear_gate c : VisionConn Rng :=
  vc_set_write (vc_uplink_uuid_pending c) (vc_uplink_pending c) (vc_uplink_padding c) (vc_rng c) (vc_uplink_traffic c)
    (vc_raw_fallback c) (vc_raw_tcp c) (vc_splice_armed c) (vc_end_commit c) false c.

(** Branch 2: no padding any more. *)
Definition write_plain (bufs : list bytes) c (b : Below) : Poll Z * VisionConn Rng * Below :=
  if vc_raw_fallback c then
    let go c b := let '(r, w) := poll_write_some (concat bufs) (bl_raw b) in (r, c, bl_set_raw w b) in
    if vc_raw_write_gate c then
      match bl_delay b with
      | true :: d => go (vc_clear_gate c) (bl_set_delay d b)
      | false :: d => (Pending, c, bl_set_delay d b)
      | [] => (Pending, c, b)
      end
    else go c b
  else let '(r, w) := poll_write_some (concat bufs) (bl_inner b) in (r, c, bl_set_inner w b).

(** [None]: a padding seed with an empty range. *)
Definition VisionConn_poll_write_vectored (bufs : list bytes) c (b : Below) : option (Poll Z * VisionConn Rng * Below) :=
  match drain_front c b with
  | Some r => Some r
  | None =>
      if negb (vc_uplink_padding c) then Some (write_plain bufs c b)
      else if total_len_of bufs =? 0 then Some (Ready 0, c, b)
      else c ← frame_batch bufs c; drain_front c b
  end.

Definition VisionConn_poll_write (buf : bytes) c (b : Below) : option (Poll Z * VisionConn Rng * Below) :=
  VisionConn_poll_write_vectored [buf] c b.

(** Which of the two a flush or a shutdown goes to: the raw socket or the inner one. *)
Definition flushes_raw c : bool := vc_raw_fallback c.

(** [write_uuid_only_padding]: what is written to the inner connection. *)
Definition write_uuid_only_padding c : option (bytes * VisionConn Rng) :=
  '(block, uuid, rng) ← xtls_padding random_range None COMMAND_PADDING_CONTINUE (vc_uplink_uuid_pending c) true (vc_padding_seed c) (vc_rng c);
  Some (block, vc_set_write uuid (vc_uplink_pending c) (vc_uplink_padding c) rng (vc_uplink_traffic c)
                 (vc_raw_fallback c) (vc_raw_tcp c) (vc_splice_armed c) (vc_end_commit c) (vc_raw_write_gate c) c).
End vision.
