(* ===== verification/VisionProps.v ===== *)
(** The codec of XTLS Vision: unpadding byte by byte, blocks, complete records. *)
From Stdlib Require Import List.
From stdpp Require Import base tactics option list numbers.
From S2P Require Import Prelude Bytes StrMatch Vision.

Lemma lor_byte hi lo : 0 <= lo < 256 -> Z.lor (Z.shiftl hi 8) lo = hi * 256 + lo.
Proof.
  intros H. rewrite Z.shiftl_mul_pow2 by lia. change (2 ^ 8) with 256. rewrite <- Z.lxor_lor, <- Z.add_nocarry_lxor; [done|..];
    apply Z.bits_inj'; intros n Hn; rewrite Z.land_spec, Z.bits_0; change 256 with (2 ^ 8); rewrite Z.mul_pow2_bits by lia.
  all: destruct (Z.ltb_spec n 8); [by rewrite Z.testbit_neg_r by lia|]; rewrite (Z.bits_above_log2 lo n); [by rewrite andb_false_r|lia|].
  all: destruct (decide (lo = 0)) as [->|]; [cbn; lia|]; apply Z.log2_lt_pow2; [lia|]; apply Z.lt_le_trans with (2 ^ 8); [cbn; lia|apply Z.pow_le_mono_r; lia].
Qed.

(** The two bytes of a length below [2^16], and the length again. *)
Definition two_bytes (n : Z) : bytes := [to_u8 (Z.shiftr n 8); to_u8 n].

Lemma two_bytes_val n : 0 <= n < 65536 -> Z.lor (Z.shiftl (to_u8 (Z.shiftr n 8)) 8) (to_u8 n) = n.
Proof.
  intros H. rewrite lor_byte by apply to_u8_range. rewrite Z.shiftr_div_pow2 by lia. change (2 ^ 8) with 256. unfold to_u8.
  rewrite (Z.mod_small (n / 256)); [|split; [apply Z.div_pos|apply Z.div_lt_upper_bound]; lia]. pose proof (Z.div_mod n 256). lia.
Qed.

(** * Unpadding, one byte at a time *)

Definition unpad_byte (b : Z) (s : DirectionState) : bytes * DirectionState :=
  if block_done s then ([b], s)
  else
    let '(_, out, s) := unpadding_turn [b] s in
    (out,
     if block_done s then
       if ds_current_command s =? COMMAND_PADDING_CONTINUE then ds_set 5 (ds_remaining_content s) (ds_remaining_padding s) (ds_current_command s) s
       else ds_set (-1) (-1) (-1) (ds_current_command s) s
     else s).

Fixpoint unpad_all (bs : bytes) (s : DirectionState) : bytes * DirectionState :=
  match bs with
  | [] => ([], s)
  | b :: bs => let '(o1, s) := unpad_byte b s in let '(o2, s) := unpad_all bs s in (o1 ++ o2, s)
  end.

Lemma unpad_all_app a b s :
  unpad_all (a ++ b) s = let '(o1, s) := unpad_all a s in let '(o2, s) := unpad_all b s in (o1 ++ o2, s).
Proof.
  revert s. induction a as [|x a IH]; intros s; cbn [unpad_all app]; [by destruct (unpad_all b s)|].
  destruct (unpad_byte x s) as [o1 s1]. rewrite IH. destruct (unpad_all a s1) as [o2 s2]. destruct (unpad_all b s2) as [o3 s3]. by rewrite app_assoc.
Qed.

Lemma unpad_all_done bs s : block_done s = true -> unpad_all bs s = (bs, s).
Proof. intros H. induction bs as [|b bs IH]; [done|]. cbn [unpad_all]. unfold unpad_byte. by rewrite H, IH. Qed.

Lemma ds_set_set a b c d a' b' c' d' s : ds_set a b c d (ds_set a' b' c' d' s) = ds_set a b c d s.
Proof. done. Qed.

(** What ends a block. *)
Definition finish (s : DirectionState) : DirectionState :=
  if block_done s then
    if ds_current_command s =? COMMAND_PADDING_CONTINUE then ds_set 5 (ds_remaining_content s) (ds_remaining_padding s) (ds_current_command s) s
    else ds_set (-1) (-1) (-1) (ds_current_command s) s
  else s.

Lemma block_done_spec s : block_done s = true <-> ds_remaining_command s <= 0 /\ ds_remaining_content s <= 0 /\ ds_remaining_padding s <= 0.
Proof. unfold block_done. rewrite !andb_true_iff, !Z.leb_le. tauto. Qed.
Lemma block_done_false s : block_done s = false <-> 0 < ds_remaining_command s \/ 0 < ds_remaining_content s \/ 0 < ds_remaining_padding s.
Proof. unfold block_done. rewrite !andb_false_iff, !Z.leb_gt. tauto. Qed.

(** A run of content bytes, of padding bytes. *)
Lemma unpad_content_run l : forall s, ds_remaining_command s <= 0 -> l <> [] -> zlen l <= ds_remaining_content s ->
  unpad_all l s = (l, finish (ds_set (ds_remaining_command s) (ds_remaining_content s - zlen l) (ds_remaining_padding s) (ds_current_command s) s)).
Proof.
  induction l as [|b l IH]; intros s Hc Hne Hl; [done|]. cbn [unpad_all]. unfold unpad_byte. zlens. zlen_facts.
  rewrite (proj2 (block_done_false s)) by lia. unfold unpadding_turn at 1. destruct (Z.ltb_spec 0 (ds_remaining_command s)); [lia|].
  destruct (Z.ltb_spec 0 (ds_remaining_content s)); [|lia]. change (zlen [b]) with 1. rewrite Z.min_r by lia. change (ztake 1 [b]) with [b].
  fold (finish (ds_set (ds_remaining_command s) (ds_remaining_content s - 1) (ds_remaining_padding s) (ds_current_command s) s)).
  set (s1 := ds_set _ (ds_remaining_content s - 1) _ _ s). destruct l as [|b' l].
  - cbn [unpad_all app]. done.
  - zlens. zlen_facts. assert (Hd : block_done s1 = false) by (apply block_done_false; subst s1; cbn; lia). unfold finish at 1. rewrite Hd.
    rewrite IH; [|subst s1; cbn; lia|done|subst s1; cbn; zlens; lia]. subst s1. rewrite ds_set_set. cbn [app ds_remaining_command ds_remaining_content ds_remaining_padding ds_current_command ds_set].
    do 2 f_equal. zlens. f_equal. lia.
Qed.

Lemma unpad_padding_run l : forall s, ds_remaining_command s <= 0 -> ds_remaining_content s <= 0 -> l <> [] -> zlen l <= ds_remaining_padding s ->
  unpad_all l s = ([], finish (ds_set (ds_remaining_command s) (ds_remaining_content s) (ds_remaining_padding s - zlen l) (ds_current_command s) s)).
Proof.
  induction l as [|b l IH]; intros s Hc Hk Hne Hl; [done|]. cbn [unpad_all]. unfold unpad_byte. zlens. zlen_facts.
  rewrite (proj2 (block_done_false s)) by lia. unfold unpadding_turn at 1. destruct (Z.ltb_spec 0 (ds_remaining_command s)); [lia|].
  destruct (Z.ltb_spec 0 (ds_remaining_content s)); [lia|]. change (zlen [b]) with 1. rewrite Z.min_r by lia.
  fold (finish (ds_set (ds_remaining_command s) (ds_remaining_content s) (ds_remaining_padding s - 1) (ds_current_command s) s)).
  set (s1 := ds_set _ _ (ds_remaining_padding s - 1) _ s). destruct l as [|b' l].
  - cbn [unpad_all app]. done.
  - zlens. zlen_facts. assert (Hd : block_done s1 = false) by (apply block_done_false; subst s1; cbn; lia). unfold finish at 1. rewrite Hd.
    rewrite IH; [|subst s1; cbn; lia|subst s1; cbn; lia|done|subst s1; cbn; zlens; lia]. subst s1. rewrite ds_set_set. cbn [app ds_remaining_command ds_remaining_content ds_remaining_padding ds_current_command ds_set].
    do 2 f_equal. zlens. f_equal. lia.
Qed.

(** A turn of the loop is its bytes one by one. *)
Lemma turn_is_bytes buf s rest out s' : buf <> [] -> block_done s = false -> unpadding_turn buf s = (rest, out, s') ->
  exists taken, buf = taken ++ rest /\ taken <> [] /\ unpad_all taken s = (out, finish s').
Proof.
  intros Hne Hd. destruct buf as [|b buf]; [done|]. unfold unpadding_turn. destruct (Z.ltb_spec 0 (ds_remaining_command s)) as [Hc|Hc].
  - intros [= <- <- <-]. exists [b]. split_and!; [done|done|]. cbn [unpad_all]. unfold unpad_byte. rewrite Hd. unfold unpadding_turn.
    destruct (Z.ltb_spec 0 (ds_remaining_command s)); [|lia]. change ([b] @ 0) with b. change ((b :: buf) @ 0) with b. done.
  - pose proof (zlen_nonneg buf). apply block_done_false in Hd. destruct (Z.ltb_spec 0 (ds_remaining_content s)) as [Hk|Hk]; intros [= <- <- <-].
    + exists (ztake (Z.min (ds_remaining_content s) (zlen (b :: buf))) (b :: buf)). rewrite ztake_drop.
      assert (Hne' : ztake (Z.min (ds_remaining_content s) (zlen (b :: buf))) (b :: buf) <> []) by (intros E; apply (f_equal zlen) in E; zlens; lia).
      split_and!; [done|done|]. rewrite unpad_content_run by (done || zlens; lia). do 3 f_equal. zlens. lia.
    + exists (ztake (Z.min (ds_remaining_padding s) (zlen (b :: buf))) (b :: buf)). rewrite ztake_drop.
      assert (Hne' : ztake (Z.min (ds_remaining_padding s) (zlen (b :: buf))) (b :: buf) <> []) by (intros E; apply (f_equal zlen) in E; zlens; lia).
      split_and!; [done|done|]. rewrite unpad_padding_run by (done || zlens; lia). do 3 f_equal. zlens. lia.
Qed.

Lemma loop_is_bytes fuel : forall buf out s, (length buf < fuel)%nat -> block_done s = false ->
  unpadding_loop fuel buf out s = let '(o, s') := unpad_all buf s in Some (out ++ o, s').
Proof.
  induction fuel as [|fuel IH]; intros buf out s Hf Hd; [lia|]. cbn [unpadding_loop]. destruct (Z.eqb_spec (zlen buf) 0) as [E|E].
  { assert (buf = []) as -> by (apply zlen_zero; lia). cbn. by rewrite app_nil_r. }
  assert (Hne : buf <> []) by (intros ->; done). destruct (unpadding_turn buf s) as [[rest more] s1] eqn:Et.
  destruct (turn_is_bytes _ _ _ _ _ Hne Hd Et) as (taken & -> & Ht & Eu). rewrite unpad_all_app, Eu. unfold finish. rewrite length_app in Hf.
  assert (length taken <> 0%nat) by (by destruct taken). destruct (block_done s1) eqn:Ed1.
  - destruct (ds_current_command s1 =? COMMAND_PADDING_CONTINUE).
    + rewrite IH by (lia || by apply block_done_false; left). destruct (unpad_all rest _) as [o s2]. by rewrite app_assoc.
    + rewrite unpad_all_done by done. by rewrite app_assoc.
  - rewrite IH by (lia || done). destruct (unpad_all rest _) as [o s2]. by rewrite app_assoc.
Qed.

(** * Blocks *)

Record Block : Type := mkBlock { bk_cmd : Z; bk_content : bytes; bk_pad : bytes }.

Definition block_ok (k : Block) : Prop := zlen (bk_content k) < 65536 /\ zlen (bk_pad k) < 65536.
Definition block_header (k : Block) : bytes := bk_cmd k :: two_bytes (zlen (bk_content k)) ++ two_bytes (zlen (bk_pad k)).
Definition block_bytes (k : Block) : bytes := block_header k ++ bk_content k ++ bk_pad k.

Lemma block_header_len k : zlen (block_header k) = 5.
Proof. done. Qed.
Lemma block_len k : 5 <= zlen (block_bytes k).
Proof. unfold block_bytes. rewrite zlen_app, block_header_len. pose proof (zlen_nonneg (bk_content k ++ bk_pad k)). lia. Qed.

Lemma unpad_step b s : 0 < ds_remaining_command s ->
  unpad_byte b s = ([], finish (unpadding_turn [b] s).2).
Proof.
  intros H. unfold unpad_byte. rewrite (proj2 (block_done_false s)) by lia. unfold unpadding_turn. rewrite (proj2 (Z.ltb_lt _ _) H). done.
Qed.

Lemma finish_busy s : 0 < ds_remaining_command s -> finish s = s.
Proof. intros H. unfold finish. by rewrite (proj2 (block_done_false s)) by lia. Qed.

(** The state after [n] bytes of a header. *)
Definition in_header (n : nat) (k : Block) (s : DirectionState) : DirectionState :=
  match n with
  | 0%nat => s
  | 1%nat => ds_set 4 (ds_remaining_content s) (ds_remaining_padding s) (bk_cmd k) s
  | 2%nat => ds_set 3 (Z.shiftl (to_u8 (Z.shiftr (zlen (bk_content k)) 8)) 8) (ds_remaining_padding s) (bk_cmd k) s
  | 3%nat => ds_set 2 (zlen (bk_content k)) (ds_remaining_padding s) (bk_cmd k) s
  | 4%nat => ds_set 1 (zlen (bk_content k)) (Z.shiftl (to_u8 (Z.shiftr (zlen (bk_pad k)) 8)) 8) (bk_cmd k) s
  | _ => finish (ds_set 0 (zlen (bk_content k)) (zlen (bk_pad k)) (bk_cmd k) s)
  end.

Lemma unpad_header n k s : ds_remaining_command s = 5 -> block_ok k -> (n <= 5)%nat ->
  unpad_all (take n (block_header k)) s = ([], in_header n k s).
Proof.
  intros Hs [Hc Hp] Hn. unfold block_header, two_bytes. cbn [app]. pose proof (zlen_nonneg (bk_content k)). pose proof (zlen_nonneg (bk_pad k)).
  assert (E1 : unpad_byte (bk_cmd k) s = ([], in_header 1 k s)).
  { rewrite unpad_step by lia. unfold unpadding_turn. rewrite Hs. cbn -[Z.shiftl Z.shiftr Z.lor to_u8]. by rewrite finish_busy. }
  assert (E2 : unpad_byte (to_u8 (Z.shiftr (zlen (bk_content k)) 8)) (in_header 1 k s) = ([], in_header 2 k s)).
  { rewrite unpad_step by (cbn; lia). unfold unpadding_turn. cbn -[Z.shiftl Z.shiftr Z.lor to_u8]. rewrite finish_busy by (cbn; lia). done. }
  assert (E3 : unpad_byte (to_u8 (zlen (bk_content k))) (in_header 2 k s) = ([], in_header 3 k s)).
  { rewrite unpad_step by (cbn; lia). unfold unpadding_turn. cbn -[Z.shiftl Z.shiftr Z.lor to_u8]. rewrite two_bytes_val by lia. rewrite finish_busy by (cbn; lia). done. }
  assert (E4 : unpad_byte (to_u8 (Z.shiftr (zlen (bk_pad k)) 8)) (in_header 3 k s) = ([], in_header 4 k s)).
  { rewrite unpad_step by (cbn; lia). unfold unpadding_turn. cbn -[Z.shiftl Z.shiftr Z.lor to_u8]. rewrite finish_busy by (cbn; lia). done. }
  assert (E5 : unpad_byte (to_u8 (zlen (bk_pad k))) (in_header 4 k s) = ([], in_header 5 k s)).
  { rewrite unpad_step by (cbn; lia). unfold unpadding_turn. cbn -[Z.shiftl Z.shiftr Z.lor to_u8 finish]. by rewrite two_bytes_val by lia. }
  do 6 (destruct n as [|n]; [cbn [take unpad_all]; repeat first [rewrite E1|rewrite E2|rewrite E3|rewrite E4|rewrite E5]; done|]). lia.
Qed.

(** The content and padding of a block whose header was read. *)
Lemma unpad_body k s : block_ok k ->
  unpad_all (bk_content k ++ bk_pad k) (finish (ds_set 0 (zlen (bk_content k)) (zlen (bk_pad k)) (bk_cmd k) s))
  = if bool_decide (bk_content k = [] /\ bk_pad k = []) then ([], finish (ds_set 0 0 0 (bk_cmd k) s)) else (bk_content k, finish (ds_set 0 0 0 (bk_cmd k) s)).
Proof.
  intros _. pose proof (zlen_nonneg (bk_content k)). pose proof (zlen_nonneg (bk_pad k)).
  destruct (decide (bk_content k = [])) as [Ec|Ec]; destruct (decide (bk_pad k = [])) as [Ep|Ep].
  - rewrite bool_decide_true by done. rewrite Ec, Ep. done.
  - rewrite bool_decide_false by naive_solver. rewrite Ec. cbn [app]. assert (0 < zlen (bk_pad k)) by (destruct (bk_pad k); [done|zlia]).
    change (zlen (@nil Z)) with 0. unfold finish at 1. rewrite (proj2 (block_done_false _)) by (cbn; lia).
    rewrite unpad_padding_run by (done || cbn; lia). cbn [ds_remaining_command ds_remaining_content ds_remaining_padding ds_current_command ds_set]. rewrite ds_set_set. by rewrite Z.sub_diag.
  - rewrite bool_decide_false by naive_solver. rewrite Ep, app_nil_r. assert (0 < zlen (bk_content k)) by (destruct (bk_content k); [done|zlia]).
    unfold finish at 1. rewrite (proj2 (block_done_false _)) by (cbn; lia).
    rewrite unpad_content_run by (done || cbn; lia). cbn [ds_remaining_command ds_remaining_content ds_remaining_padding ds_current_command ds_set]. rewrite ds_set_set. by rewrite Z.sub_diag.
  - rewrite bool_decide_false by naive_solver. assert (0 < zlen (bk_content k)) by (destruct (bk_content k); [done|zlia]). assert (0 < zlen (bk_pad k)) by (destruct (bk_pad k); [done|zlia]).
    unfold finish at 1. rewrite (proj2 (block_done_false _)) by (cbn; lia). rewrite unpad_all_app.
    rewrite unpad_content_run by (done || cbn; lia). cbn [ds_remaining_command ds_remaining_content ds_remaining_padding ds_current_command ds_set]. rewrite ds_set_set, Z.sub_diag.
    unfold finish at 1. rewrite (proj2 (block_done_false _)) by (cbn; lia).
    rewrite unpad_padding_run by (done || cbn; lia). cbn [ds_remaining_command ds_remaining_content ds_remaining_padding ds_current_command ds_set]. rewrite ds_set_set, Z.sub_diag, app_nil_r. done.
Qed.

Lemma unpad_block k s : ds_remaining_command s = 5 -> block_ok k ->
  unpad_all (block_bytes k) s = (bk_content k, finish (ds_set 0 0 0 (bk_cmd k) s)).
Proof.
  intros Hs Hk. unfold block_bytes. rewrite unpad_all_app. pose proof (unpad_header 5 k s Hs Hk ltac:(lia)) as E.
  change (take 5 (block_header k)) with (block_header k) in E. rewrite E. cbn [in_header]. rewrite unpad_body by done.
  case_bool_decide as Hb; [|done]. by destruct Hb as [-> _].
Qed.

(** * Streams of blocks *)

Definition after_block (k : Block) (s : DirectionState) : DirectionState := finish (ds_set 0 0 0 (bk_cmd k) s).

(** Inside the header of a block that ends the padding. *)
Definition mid_header (s : DirectionState) : bool := (0 <? ds_remaining_command s) && negb (ds_current_command s =? 0).

Lemma finish_0 a b cmd s : 0 <= a -> 0 <= b -> mid_header (finish (ds_set 0 a b cmd s)) = false /\
  (block_done (finish (ds_set 0 a b cmd s)) = true -> a = 0 /\ b = 0 /\ cmd <> 0).
Proof.
  intros Ha Hb. unfold finish. destruct (block_done (ds_set 0 a b cmd s)) eqn:Ed.
  - apply block_done_spec in Ed. cbn in Ed. cbn [ds_current_command ds_set]. destruct (Z.eqb_spec cmd COMMAND_PADDING_CONTINUE) as [->|Hc].
    + split; [done|]. by cbn.
    + split; [by unfold mid_header; cbn|]. intros _. unfold COMMAND_PADDING_CONTINUE in *. lia.
  - split; [by unfold mid_header; cbn|]. by rewrite Ed.
Qed.

Lemma prefix_app_or (pre a b : bytes) : pre `prefix_of` a ++ b -> pre `prefix_of` a \/ exists p, pre = a ++ p /\ p `prefix_of` b.
Proof.
  revert pre. induction a as [|x a IH]; intros pre H; [by right; exists pre|]. destruct pre as [|y pre]; [left; by apply prefix_nil|].
  cbn [app] in H. apply prefix_cons_inv_1 in H as Hxy. apply prefix_cons_inv_2 in H. subst y. destruct (IH _ H) as [Hp|(p & -> & Hp)].
  - left. by apply prefix_cons.
  - right. by exists p.
Qed.

Lemma prefix_ztake (pre l : bytes) : pre `prefix_of` l -> pre = ztake (zlen pre) l.
Proof. intros [k ->]. by rewrite ztake_app. Qed.

(** Where the interesting states occur within a block. *)
Lemma unpad_in_block k s pre : block_ok k -> ds_remaining_command s = 5 -> ds_current_command s = 0 -> pre `prefix_of` block_bytes k ->
  (mid_header (unpad_all pre s).2 = true -> 0 < zlen pre < 5 /\ bk_cmd k <> 0) /\
  (block_done (unpad_all pre s).2 = true -> pre = block_bytes k /\ bk_cmd k <> 0).
Proof.
  intros Hk Hs Hcur Hp. unfold block_bytes in Hp. apply prefix_app_or in Hp as [Hp|(p & -> & Hp)].
  - pose proof (prefix_ztake _ _ Hp) as E. assert (Hl : zlen pre <= 5) by (destruct Hp as [x Hx]; apply (f_equal zlen) in Hx; rewrite block_header_len in Hx; zlens; zlen_facts; lia).
    unfold ztake in E. rewrite E. rewrite unpad_header by (done || (unfold zlen in *; lia)). cbn [snd]. rewrite <- E.
    pose proof (zlen_nonneg (bk_content k)). pose proof (zlen_nonneg (bk_pad k)).
    destruct (Z.to_nat (zlen pre)) as [|[|[|[|[|n]]]]] eqn:En; cbn [in_header];
      [unfold mid_header, block_done; rewrite Hs, Hcur; cbn; split; [done|discriminate]| | | | |].
    1-4: split; [unfold mid_header; cbn; rewrite negb_true_iff, Z.eqb_neq; lia|intros H'; apply block_done_spec in H'; cbn in H'; lia].
    assert (n = 0%nat) as -> by (unfold zlen in *; lia). destruct (finish_0 (zlen (bk_content k)) (zlen (bk_pad k)) (bk_cmd k) s) as [F1 F2]; [lia|lia|].
    rewrite F1. split; [done|]. intros Hd. destruct (F2 Hd) as (Ec & Ep & Hne). split; [|done].
    assert (Ec' : bk_content k = []) by (apply zlen_zero; lia). assert (Ep' : bk_pad k = []) by (apply zlen_zero; lia). unfold block_bytes. rewrite Ec', Ep', !app_nil_r, E.
    apply take_ge. change (length (block_header k)) with 5%nat. unfold zlen in *; lia.
  - rewrite unpad_all_app. pose proof (unpad_header 5 k s Hs Hk ltac:(lia)) as E. change (take 5 (block_header k)) with (block_header k) in E. rewrite E. clear E. cbn [in_header].
    pose proof (zlen_nonneg (bk_content k)). pose proof (zlen_nonneg (bk_pad k)). pose proof (zlen_nonneg p).
    assert (Hgoal : exists a b, 0 <= a /\ 0 <= b /\ a + b = zlen (bk_content k) + zlen (bk_pad k) - zlen p /\
      (unpad_all p (finish (ds_set 0 (zlen (bk_content k)) (zlen (bk_pad k)) (bk_cmd k) s))).2 = finish (ds_set 0 a b (bk_cmd k) s)).
    { apply prefix_app_or in Hp as [Hp|(q & -> & Hq)].
      - assert (zlen p <= zlen (bk_content k)) by (destruct Hp as [x Hx]; rewrite Hx; zlens; zlen_facts; lia). exists (zlen (bk_content k) - zlen p), (zlen (bk_pad k)).
        split_and!; [lia|lia|lia|]. destruct (decide (p = [])) as [->|Hne]; [cbn; by rewrite Z.sub_0_r|]. assert (0 < zlen p) by (destruct p; [done|zlia]).
        unfold finish at 1. rewrite (proj2 (block_done_false _)) by (cbn; lia). rewrite unpad_content_run by (done || cbn; lia). done.
      - assert (zlen q <= zlen (bk_pad k)) by (destruct Hq as [x Hx]; rewrite Hx; zlens; zlen_facts; lia). pose proof (zlen_nonneg q). exists 0, (zlen (bk_pad k) - zlen q). zlens.
        split_and!; [lia|lia|lia|]. destruct (decide (q = [])) as [->|Hne].
        + rewrite app_nil_r. change (zlen (@nil Z)) with 0. rewrite Z.sub_0_r. destruct (decide (bk_content k = [])) as [->|Hc]; [done|]. assert (0 < zlen (bk_content k)) by (destruct (bk_content k); [done|zlia]).
          unfold finish at 1. rewrite (proj2 (block_done_false _)) by (cbn; lia). rewrite unpad_content_run by (done || cbn; lia).
          cbn [ds_remaining_command ds_remaining_content ds_remaining_padding ds_current_command ds_set snd]. by rewrite ds_set_set, Z.sub_diag.
        + assert (0 < zlen q) by (destruct q; [done|zlia]). rewrite unpad_all_app. destruct (decide (bk_content k = [])) as [Hc|Hc].
          * rewrite Hc. cbn [unpad_all]. change (zlen (@nil Z)) with 0. unfold finish at 1. rewrite (proj2 (block_done_false _)) by (cbn; lia). rewrite unpad_padding_run by (done || cbn; lia). done.
          * assert (0 < zlen (bk_content k)) by (destruct (bk_content k); [done|zlia]). unfold finish at 1. rewrite (proj2 (block_done_false _)) by (cbn; lia). rewrite unpad_content_run by (done || cbn; lia).
            cbn [ds_remaining_command ds_remaining_content ds_remaining_padding ds_current_command ds_set]. rewrite ds_set_set, Z.sub_diag.
            unfold finish at 1. rewrite (proj2 (block_done_false _)) by (cbn; lia). rewrite unpad_padding_run by (done || cbn; lia). done. }
    destruct Hgoal as (a & b & Ha & Hb & Hab & E). destruct (unpad_all p _) as [o s'] eqn:Eu. cbn [snd] in *. subst s'.
    destruct (finish_0 a b (bk_cmd k) s Ha Hb) as [F1 F2]. rewrite F1. split; [done|]. intros Hd. destruct (F2 Hd) as (-> & -> & Hne). split; [|done].
    unfold block_bytes. f_equal. destruct Hp as [x Hx]. rewrite Hx. apply (f_equal zlen) in Hx. zlens. assert (x = []) as -> by (apply zlen_zero; zlen_facts; lia). by rewrite app_nil_r.
Qed.

(** A padded stream: blocks that continue, one that ends the padding, plain bytes. *)
Definition cont_bytes (ks : list Block) : bytes := concat (map block_bytes ks).
Definition padded (ks : list Block) (fin : option Block) (rest : bytes) : bytes :=
  cont_bytes ks ++ match fin with Some f => block_bytes f ++ rest | None => [] end.
Definition plain (ks : list Block) (fin : option Block) (rest : bytes) : bytes :=
  concat (map bk_content ks) ++ match fin with Some f => bk_content f ++ rest | None => [] end.

Definition conts_ok (ks : list Block) : Prop := Forall (fun k => block_ok k /\ bk_cmd k = COMMAND_PADDING_CONTINUE) ks.
Definition ends_ok (f : Block) : Prop := block_ok f /\ (bk_cmd f = COMMAND_PADDING_END \/ bk_cmd f = COMMAND_PADDING_DIRECT).

(** Between two blocks. *)
Definition awaits (s : DirectionState) : Prop := ds_remaining_command s = 5 /\ ds_current_command s = 0.

Lemma after_cont k s : bk_cmd k = COMMAND_PADDING_CONTINUE -> awaits (after_block k s).
Proof. intros E. unfold after_block. rewrite E. done. Qed.

Lemma after_end f s : ends_ok f -> after_block f s = ds_set (-1) (-1) (-1) (bk_cmd f) s.
Proof. intros [_ [E|E]]; unfold after_block; by rewrite E. Qed.

Lemma unpad_conts ks : conts_ok ks -> forall s, awaits s -> exists s', unpad_all (cont_bytes ks) s = (concat (map bk_content ks), s') /\ awaits s'.
Proof.
  induction 1 as [|k ks [Hk Ek] _ IH]; intros s Hs; [by exists s|]. unfold cont_bytes. cbn [map concat]. rewrite unpad_all_app, unpad_block by (done || apply Hs).
  destruct (IH (after_block k s) (after_cont k s Ek)) as (s' & E & Hs'). exists s'. unfold after_block, cont_bytes in E. by rewrite E.
Qed.

Lemma awaits_quiet s : awaits s -> mid_header s = false /\ block_done s = false.
Proof. intros [E1 E2]. split; [unfold mid_header; by rewrite E2, andb_false_r|apply block_done_false; lia]. Qed.

Lemma unpad_in_conts ks : conts_ok ks -> forall s pre, awaits s -> pre `prefix_of` cont_bytes ks ->
  mid_header (unpad_all pre s).2 = false /\ block_done (unpad_all pre s).2 = false.
Proof.
  induction 1 as [|k ks [Hk Ek] _ IH]; intros s pre Hs Hp.
  - apply prefix_nil_inv in Hp as ->. by apply awaits_quiet.
  - unfold cont_bytes in Hp. cbn [map concat] in Hp. apply prefix_app_or in Hp as [Hp|(p & -> & Hp)].
    + destruct (unpad_in_block k s pre Hk (proj1 Hs) (proj2 Hs) Hp) as [H1 H2]. rewrite Ek in *. unfold COMMAND_PADDING_CONTINUE in *.
      destruct (mid_header _); [destruct (H1 eq_refl); lia|]. destruct (block_done _); [destruct (H2 eq_refl); lia|done].
    + rewrite unpad_all_app, unpad_block by (done || apply Hs). specialize (IH _ p (after_cont k s Ek) Hp). unfold after_block in IH. by destruct (unpad_all p _).
Qed.

(** Where the header of the ending block and its end are in the stream. *)
Lemma unpad_in_stream ks f rest : conts_ok ks -> ends_ok f -> forall s pre, awaits s -> pre `prefix_of` padded ks (Some f) rest ->
  (mid_header (unpad_all pre s).2 = true -> zlen (cont_bytes ks) < zlen pre < zlen (cont_bytes ks) + 5) /\
  (block_done (unpad_all pre s).2 = true -> ds_current_command (unpad_all pre s).2 = bk_cmd f /\ zlen (cont_bytes ks ++ block_bytes f) <= zlen pre).
Proof.
  intros Hks Hf s pre Hs Hp. unfold padded in Hp. apply prefix_app_or in Hp as [Hp|(p & -> & Hp)].
  { destruct (unpad_in_conts ks Hks s pre Hs Hp) as [-> ->]. done. }
  destruct (unpad_conts ks Hks s Hs) as (s1 & E & Hs1). rewrite unpad_all_app, E. apply prefix_app_or in Hp as [Hp|(q & -> & Hq)].
  - destruct (unpad_in_block f s1 p (proj1 Hf) (proj1 Hs1) (proj2 Hs1) Hp) as [H1 H2]. destruct (unpad_all p s1) as [o s'] eqn:Eu. cbn [snd] in *. split.
    + intros Hm. apply H1 in Hm. zlens. lia.
    + intros Hd. destruct (H2 Hd) as [-> _]. rewrite unpad_block in Eu by (apply Hf || apply Hs1). injection Eu as _ <-. fold (after_block f s1). rewrite after_end by done. done.
  - rewrite unpad_all_app, unpad_block by (apply Hf || apply Hs1). fold (after_block f s1). rewrite after_end by done. rewrite unpad_all_done by done. cbn [snd].
    split; [done|]. intros _. split; [done|]. zlens. zlen_facts. lia.
Qed.

Lemma unpad_padded ks fin rest s : conts_ok ks -> match fin with Some f => ends_ok f | None => True end -> awaits s ->
  exists s', unpad_all (padded ks fin rest) s = (plain ks fin rest, s') /\
    match fin with Some f => block_done s' = true /\ ds_current_command s' = bk_cmd f | None => block_done s' = false end.
Proof.
  intros Hks Hf Hs. destruct (unpad_conts ks Hks s Hs) as (s1 & E & Hs1). unfold padded, plain. rewrite unpad_all_app, E. destruct fin as [f|].
  - rewrite unpad_all_app, unpad_block by (apply Hf || apply Hs1). fold (after_block f s1). rewrite after_end by done. rewrite unpad_all_done by done. by eexists.
  - exists s1. cbn [unpad_all]. split; [done|]. by apply awaits_quiet.
Qed.

(** A read of the connection, once the padding has begun. *)
Lemma unpadding_bytes buf s uuid : block_done s = false -> xtls_unpadding buf s uuid = Some (unpad_all buf s).
Proof.
  intros Hd. unfold xtls_unpadding. assert (at_start s = false) as ->.
  { apply not_true_is_false. unfold at_start. rewrite !andb_true_iff, !Z.eqb_eq. apply block_done_false in Hd. lia. }
  rewrite loop_is_bytes by (done || lia). by destruct (unpad_all buf s).
Qed.

Definition begun (s : DirectionState) : DirectionState := ds_set 5 (ds_remaining_content s) (ds_remaining_padding s) (ds_current_command s) s.

(** The first read. *)
Lemma unpadding_first buf s uuid : at_start s = true -> zlen uuid = 16 -> 21 <= zlen buf -> uuid `prefix_of` buf ->
  xtls_unpadding buf s uuid = Some (unpad_all (zdrop 16 buf) (begun s)).
Proof.
  intros Hs Hu Hb [k ->]. unfold xtls_unpadding. rewrite Hs. rewrite (proj2 (Z.leb_le _ _) Hb), (proj2 (Z.eqb_eq _ _) Hu). rewrite ztake_app by done. rewrite bool_decide_true by done. cbn [andb].
  rewrite loop_is_bytes. 2: { unfold zdrop. rewrite length_drop. lia. } 2: { by apply block_done_false; left. }
  unfold begun. by destruct (unpad_all _ _).
Qed.

(** Anything else passes through, and the next read tries again. *)
Lemma unpadding_other buf s uuid : at_start s = true -> (zlen buf < 21 \/ ~ uuid `prefix_of` buf) -> xtls_unpadding buf s uuid = Some (buf, s).
Proof.
  intros Hs Hb. unfold xtls_unpadding. rewrite Hs. destruct (Z.leb_spec 21 (zlen buf)); [|done]. destruct (Z.eqb_spec (zlen uuid) 16); [|done].
  case_bool_decide as Hu; [|done]. destruct Hb as [?|Hb]; [lia|]. exfalso. apply Hb. exists (zdrop 16 buf). by rewrite <- Hu, ztake_drop.
Qed.

(** * Padding *)

Section padding_props.
Context {Rng : Type}.
Variable random_range : Z -> Rng -> Z * Rng.

Lemma padding_len_range n lp seed rng p rng' : padding_len random_range n lp seed rng = Some (p, rng') -> 0 <= n -> 0 <= p < 65536.
Proof.
  unfold padding_len, BUF_SIZE. intros H Hn.
  assert (Hc : forall x, 0 <= (if (if 2048 - 21 - n <? x then 2048 - 21 - n else x) <? 0 then 0 else if 2048 - 21 - n <? x then 2048 - 21 - n else x) < 65536).
  { intros x. zcases. }
  destruct ((n <? to_i32 (seed @ 0)) && lp); cbn [mbind option_bind] in H;
    (destruct (draw random_range _ rng) as [[r rng1]|]; [|discriminate H]); cbn [mbind option_bind] in H; injection H as <- _; apply Hc.
Qed.

Lemma padding_len_total n lp seed rng : seed @ 1 <> 0 -> seed @ 3 <> 0 -> is_Some (padding_len random_range n lp seed rng).
Proof.
  intros H1 H3. unfold padding_len, draw. apply Z.eqb_neq in H1, H3. rewrite H1, H3.
  destruct (_ && lp); cbn [mbind option_bind]; [destruct (random_range (seed @ 1) rng)|destruct (random_range (seed @ 3) rng)]; by eexists.
Qed.

Lemma xtls_padding_block content cmd uuid lp seed rng out u rng' :
  xtls_padding random_range content cmd uuid lp seed rng = Some (out, u, rng') -> zlen (default [] content) < 65536 ->
  u = None /\ exists k, block_ok k /\ bk_cmd k = cmd /\ bk_content k = default [] content /\ out = default [] uuid ++ block_bytes k.
Proof.
  unfold xtls_padding. intros H Hl. set (n := match content with Some c => zlen c | None => 0 end) in *.
  assert (En : n = zlen (default [] content)) by (by destruct content).
  destruct (padding_len _ n lp seed rng) as [[p rng1]|] eqn:Ep; [|discriminate H]. cbn [mbind option_bind] in H. injection H as <- <- _. split; [done|].
  apply padding_len_range in Ep; [|rewrite En; apply zlen_nonneg]. exists (mkBlock cmd (default [] content) (zrepeat p 0)).
  assert (Er : zlen (zrepeat p 0) = p) by (rewrite zlen_repeat; lia). split_and!; [split; cbn; lia|done|done|].
  unfold block_bytes, block_header. cbn [bk_cmd bk_content bk_pad]. rewrite Er, <- En. unfold two_bytes. rewrite <- !app_assoc. destruct uuid, content; done.
Qed.

Lemma xtls_padding_total content cmd uuid lp seed rng : seed @ 1 <> 0 -> seed @ 3 <> 0 -> is_Some (xtls_padding random_range content cmd uuid lp seed rng).
Proof.
  intros H1 H3. unfold xtls_padding. destruct (padding_len_total (match content with Some c => zlen c | None => 0 end) lp seed rng H1 H3) as [[p r] ->]. by eexists.
Qed.
End padding_props.

(** * Complete records *)

Definition record (payload : bytes) : bytes := TLS_APPLICATION_DATA_START ++ two_bytes (zlen payload) ++ payload.
Definition records (l : bytes) : Prop := exists ps, Forall (fun p => zlen p < 65536) ps /\ l = concat (map record ps).

Lemma two_bytes_of hi lo : is_u8 hi -> is_u8 lo -> two_bytes (hi * 256 + lo) = [hi; lo].
Proof.
  unfold is_u8, two_bytes. intros Hh Hl. rewrite Z.shiftr_div_pow2 by lia. change (2 ^ 8) with 256. unfold to_u8.
  rewrite Z.div_add_l, (Z.div_small lo), Z.add_0_r by lia. rewrite (Z.mod_small hi) by lia. rewrite Z.add_comm, Z.mod_add, Z.mod_small by lia. done.
Qed.

(** The first record of a stream of records. *)
Lemma records_nil : records [].
Proof. by exists []. Qed.

Lemma records_cons_inv l : bytes_ok l -> records l -> l = [] \/
  exists hi lo rest, l = [23; 3; 3; hi; lo] ++ rest /\ hi * 256 + lo <= zlen rest /\ records (zdrop (hi * 256 + lo) rest).
Proof.
  intros Hb (ps & Hps & ->). destruct Hps as [|p ps Hp Hps]; [by left|]. right. cbn [map concat]. unfold record at 1, two_bytes, TLS_APPLICATION_DATA_START. cbn [app].
  exists (to_u8 (Z.shiftr (zlen p) 8)), (to_u8 (zlen p)), (p ++ concat (map record ps)). split; [done|].
  pose proof (two_bytes_val (zlen p)) as E. pose proof (zlen_nonneg p). rewrite lor_byte in E by apply to_u8_range. rewrite E by lia. rewrite zdrop_app by done.
  split; [zlens; zlen_facts; lia|]. by exists ps.
Qed.

Lemma records_cons hi lo rest : is_u8 hi -> is_u8 lo -> hi * 256 + lo <= zlen rest -> records (zdrop (hi * 256 + lo) rest) -> records ([23; 3; 3; hi; lo] ++ rest).
Proof.
  intros Hh Hl Hn (ps & Hps & E). assert (En : zlen (ztake (hi * 256 + lo) rest) = hi * 256 + lo) by (unfold is_u8 in *; zlens; lia).
  exists (ztake (hi * 256 + lo) rest :: ps). split; [constructor; [unfold is_u8 in *; lia|done]|]. cbn [map concat]. unfold record at 1. rewrite En, two_bytes_of by done.
  rewrite <- E. cbn [app TLS_APPLICATION_DATA_START]. by rewrite ztake_drop.
Qed.

Lemma byte_at_pre (pre l : bytes) i j : i = zlen pre + j -> 0 <= j -> (pre ++ l) @ i = l @ j.
Proof. intros -> Hj. rewrite byte_at_skip by lia. f_equal. lia. Qed.

Lemma complete_loop_spec fuel : forall pre l, bytes_ok l -> (length l < fuel)%nat ->
  exists b, complete_loop fuel (pre ++ l) (zlen pre) = Some b /\ (b = true <-> records l).
Proof.
  induction fuel as [|fuel IH]; intros pre l Hb Hf; [lia|]. cbn [complete_loop]. zlens. pose proof (zlen_nonneg l).
  destruct (Z.ltb_spec (zlen pre) (zlen pre + zlen l)) as [Hlt|Hge].
  2: { assert (l = []) as -> by (apply zlen_zero; lia). exists true. split; [f_equal; apply Z.eqb_eq; zlens; lia|]. split; [intros _; apply records_nil|done]. }
  assert (Hno : ~ records l -> exists b, Some false = Some b /\ (b = true <-> records l)).
  { intros Hr. exists false. done. }
  destruct (Z.ltb_spec (zlen pre + zlen l) (zlen pre + 5)).
  { apply Hno. intros Hr. apply records_cons_inv in Hr as [->|(hi & lo & rest & -> & _)]; [zlia|zlens; zlen_facts; lia|done]. }
  rewrite (byte_at_pre pre l _ 0), (byte_at_pre pre l _ 1), (byte_at_pre pre l _ 2), (byte_at_pre pre l _ 3), (byte_at_pre pre l _ 4) by lia.
  destruct l as [|b0 [|b1 [|b2 [|hi [|lo l]]]]]; try (zlens; lia).
  change ((b0 :: b1 :: b2 :: hi :: lo :: l) @ 0) with b0. change ((b0 :: b1 :: b2 :: hi :: lo :: l) @ 1) with b1. change ((b0 :: b1 :: b2 :: hi :: lo :: l) @ 2) with b2.
  change ((b0 :: b1 :: b2 :: hi :: lo :: l) @ 3) with hi. change ((b0 :: b1 :: b2 :: hi :: lo :: l) @ 4) with lo.
  assert (Hhd : records (b0 :: b1 :: b2 :: hi :: lo :: l) -> b0 = 23 /\ b1 = 3 /\ b2 = 3 /\ hi * 256 + lo <= zlen l /\ records (zdrop (hi * 256 + lo) l)).
  { intros Hr. apply records_cons_inv in Hr as [|(hi' & lo' & rest & E & H1 & H2)]; [done| |done]. by injection E as -> -> -> -> -> ->. }
  destruct (Z.eqb_spec b0 23) as [->|Hn]; cbn [negb orb]; [|apply Hno; tauto].
  destruct (Z.eqb_spec b1 3) as [->|Hn]; cbn [negb orb]; [|apply Hno; tauto].
  destruct (Z.eqb_spec b2 3) as [->|Hn]; cbn [negb orb]; [|apply Hno; tauto].
  assert (Hb' : is_u8 hi /\ is_u8 lo /\ bytes_ok l) by (rewrite !Forall_cons_iff in Hb; tauto). destruct Hb' as (Hhi & Hlo & Hl).
  rewrite lor_byte by done. zlens. assert (0 <= hi * 256 + lo) by (unfold is_u8 in *; lia). set (n := hi * 256 + lo) in *.
  match goal with |- context [?a <? n] => destruct (Z.ltb_spec a n) as [Hn|Hn] end; [apply Hno; intros Hr; apply Hhd in Hr; lia|].
  destruct (IH (pre ++ [23; 3; 3; hi; lo] ++ ztake n l) (zdrop n l)) as (b & E & Hiff).
  { auto with xray. } { unfold zdrop. rewrite length_drop. cbn in Hf. lia. }
  exists b. rewrite <- E. split.
  - f_equal; [by rewrite <- !app_assoc, ztake_drop|]. zlens. lia.
  - rewrite Hiff. split; [apply (records_cons hi lo l Hhi Hlo); lia|tauto].
Qed.

Lemma slices_byte ss : forall i, 0 <= i < zlen (concat ss) -> slices_byte_at ss i = Some (concat ss @ i).
Proof.
  induction ss as [|s ss IH]; intros i Hi; cbn [concat slices_byte_at] in *; zlens; [lia|].
  destruct (Z.ltb_spec i (zlen s)); [f_equal; unfold byte_at, zlen in *; by rewrite app_nth1 by lia|]. rewrite IH by lia. f_equal. symmetry. apply byte_at_skip. lia.
Qed.

Lemma total_len_concat ss : total_len_of ss = zlen (concat ss).
Proof. induction ss as [|s ss IH]; [done|]. cbn. rewrite zlen_app. unfold total_len_of in IH. lia. Qed.

(** The batch is read as its bytes. *)
Lemma complete_slices_flat fuel ss : bytes_ok (concat ss) ->
  forall pos h n, 0 <= pos -> 0 <= n -> complete_slices_loop fuel ss pos h n = complete_slices_loop fuel [concat ss] pos h n.
Proof.
  intros Hb. induction fuel as [|fuel IH]; intros pos h n Hp Hn; [done|]. cbn [complete_slices_loop]. rewrite !total_len_concat. cbn [concat]. rewrite !app_nil_r.
  destruct (Z.ltb_spec pos (zlen (concat ss))); [|done].
  rewrite !slices_byte by (cbn [concat]; rewrite ?app_nil_r; lia). cbn [concat mbind option_bind]. rewrite app_nil_r.
  assert (Hx : 0 <= concat ss @ pos) by (pose proof (byte_at_ok _ pos Hb); unfold is_u8 in *; lia).
  assert (0 <= Z.shiftl (concat ss @ pos) 8) by (rewrite Z.shiftl_nonneg; done). assert (0 <= Z.lor n (concat ss @ pos)) by (apply Z.lor_nonneg; lia).
  destruct (h =? 0); [case_match; [done|apply IH; lia]|].
  repeat (case_match; try done); apply IH; lia.
Qed.

Lemma slices_end fuel s h n : complete_slices_loop (S fuel) [s] (zlen s) h n = Some (h =? 5).
Proof. cbn [complete_slices_loop]. rewrite total_len_concat. cbn [concat]. rewrite app_nil_r. by rewrite Z.ltb_irrefl. Qed.

(** One byte of a header. *)
Lemma slices_turn fuel pre b l h n : 0 < h <= 5 ->
  complete_slices_loop (S fuel) [pre ++ b :: l] (zlen pre) h n =
    let go := complete_slices_loop fuel [(pre ++ [b]) ++ l] (zlen (pre ++ [b])) in
    if h =? 5 then if negb (b =? 23) then Some false else go (h - 1) n
    else if (h =? 4) || (h =? 3) then if negb (b =? 3) then Some false else go (h - 1) n
    else if h =? 2 then go (h - 1) (Z.shiftl b 8)
    else if h =? 1 then if Z.lor n b =? 0 then go 5 (Z.lor n b) else go (h - 1) (Z.lor n b)
    else None.
Proof.
  intros Hh. cbn [complete_slices_loop]. rewrite total_len_concat, slices_byte; cbn [concat]; rewrite app_nil_r; zlens; pose proof (zlen_nonneg l); pose proof (zlen_nonneg pre); [|lia].
  rewrite (proj2 (Z.ltb_lt _ _)) by lia. rewrite (proj2 (Z.eqb_neq h 0)) by lia. rewrite (byte_at_pre pre (b :: l) _ 0) by lia. change ((b :: l) @ 0) with b.
  cbn [mbind option_bind]. rewrite <- app_assoc. done.
Qed.

(** A stream of records that starts with three given bytes and a length. *)
Lemma records_header b0 b1 b2 hi lo l : bytes_ok (b0 :: b1 :: b2 :: hi :: lo :: l) ->
  records (b0 :: b1 :: b2 :: hi :: lo :: l) <-> b0 = 23 /\ b1 = 3 /\ b2 = 3 /\ hi * 256 + lo <= zlen l /\ records (zdrop (hi * 256 + lo) l).
Proof.
  intros Hb. split.
  - intros Hr. apply records_cons_inv in Hr as [|(hi' & lo' & rest & E & H1 & H2)]; [done| |done]. by injection E as -> -> -> -> -> ->.
  - intros (-> & -> & -> & Hn & Hr). rewrite !Forall_cons_iff in Hb. apply records_cons; tauto.
Qed.

Lemma records_short l : bytes_ok l -> zlen l < 5 -> l <> [] -> ~ records l.
Proof.
  intros Hb Hs Hne Hr. apply records_cons_inv in Hr as [|(hi & lo & rest & -> & _)]; [done| |done]. zlens. zlen_facts. lia.
Qed.

(** The body of a record. *)
Lemma slices_skip fuel pre l n : bytes_ok l -> 0 < n -> l <> [] ->
  complete_slices_loop (S fuel) [pre ++ l] (zlen pre) 0 n =
    if zlen l <? n then Some false else complete_slices_loop fuel [(pre ++ ztake n l) ++ zdrop n l] (zlen (pre ++ ztake n l)) 5 0.
Proof.
  intros Hb Hn Hne. cbn [complete_slices_loop]. rewrite total_len_concat. cbn [concat]. rewrite app_nil_r. zlens. pose proof (zlen_nonneg pre).
  assert (0 < zlen l) by (destruct l; [done|zlens; zlen_facts; lia]). rewrite (proj2 (Z.ltb_lt _ _)) by lia. cbn [Z.eqb].
  destruct (Z.ltb_spec (zlen l) n).
  - by rewrite (proj2 (Z.eqb_neq _ 0)) by lia.
  - rewrite (proj2 (Z.eqb_eq _ 0)) by lia. cbn [negb]. rewrite <- app_assoc, ztake_drop. f_equal; zlens; lia.
Qed.

Lemma slices_turns fuel pre b l n : let go := complete_slices_loop fuel [(pre ++ [b]) ++ l] (zlen (pre ++ [b])) in
  let turn h := complete_slices_loop (S fuel) [pre ++ b :: l] (zlen pre) h n in
  turn 5 = (if negb (b =? 23) then Some false else go 4 n) /\ turn 4 = (if negb (b =? 3) then Some false else go 3 n) /\
  turn 3 = (if negb (b =? 3) then Some false else go 2 n) /\ turn 2 = go 1 (Z.shiftl b 8) /\
  turn 1 = (if Z.lor n b =? 0 then go 5 (Z.lor n b) else go 0 (Z.lor n b)).
Proof. cbv beta zeta. by rewrite !slices_turn by lia. Qed.

Lemma complete_slices_spec fuel : forall pre l, bytes_ok l -> (length l < fuel)%nat ->
  exists b, complete_slices_loop fuel [pre ++ l] (zlen pre) 5 0 = Some b /\ (b = true <-> records l).
Proof.
  induction fuel as [fuel IH] using lt_wf_ind. intros pre l Hb Hf.
  assert (Hno : ~ records l -> exists b, Some false = Some b /\ (b = true <-> records l)) by (intros Hr; by exists false).
  pose proof (records_short l Hb) as Hshort. destruct fuel as [|fuel]; [lia|].
  destruct l as [|b0 l]; [rewrite app_nil_r, slices_end; exists true; split; [done|]; split; [intros _; apply records_nil|done]|].
  rewrite (proj1 (slices_turns _ _ _ _ _)).
  destruct fuel as [|fuel]; [cbn in Hf; lia|]. destruct l as [|b1 l]; [rewrite app_nil_r, slices_end; case_match; apply Hno, Hshort; done|].
  rewrite (proj1 (proj2 (slices_turns _ _ _ _ _))).
  destruct fuel as [|fuel]; [cbn in Hf; lia|]. destruct l as [|b2 l]; [rewrite app_nil_r, slices_end; repeat case_match; apply Hno, Hshort; done|].
  rewrite (proj1 (proj2 (proj2 (slices_turns _ _ _ _ _)))).
  destruct fuel as [|fuel]; [cbn in Hf; lia|]. destruct l as [|hi l]; [rewrite app_nil_r, slices_end; repeat case_match; apply Hno, Hshort; done|].
  rewrite (proj1 (proj2 (proj2 (proj2 (slices_turns _ _ _ _ _))))).
  destruct fuel as [|fuel]; [cbn in Hf; lia|]. destruct l as [|lo l]; [rewrite app_nil_r, slices_end; repeat case_match; apply Hno, Hshort; done|].
  rewrite (proj2 (proj2 (proj2 (proj2 (slices_turns _ _ _ _ _))))). pose proof (records_header _ _ _ _ _ _ Hb) as Hhd. clear Hshort.
  destruct (Z.eqb_spec b0 23) as [->|Hn]; cbn [negb]; [|apply Hno; tauto].
  destruct (Z.eqb_spec b1 3) as [->|Hn]; cbn [negb]; [|apply Hno; tauto].
  destruct (Z.eqb_spec b2 3) as [->|Hn]; cbn [negb]; [|apply Hno; tauto].
  assert (Hb' : is_u8 hi /\ is_u8 lo /\ bytes_ok l) by (rewrite !Forall_cons_iff in Hb; tauto). destruct Hb' as (Hhi & Hlo & Hl).
  rewrite lor_byte by done. assert (0 <= hi * 256 + lo) by (unfold is_u8 in *; lia). set (n := hi * 256 + lo) in *. cbn in Hf.
  set (pre' := ((((pre ++ [23]) ++ [3]) ++ [3]) ++ [hi]) ++ [lo]). destruct (Z.eqb_spec n 0) as [En|En].
  - rewrite En. destruct (IH fuel ltac:(lia) pre' l Hl ltac:(lia)) as (b & E & Hiff). exists b. split; [done|]. rewrite Hiff, Hhd, En. change (zdrop 0 l) with l.
    pose proof (zlen_nonneg l). tauto.
  - destruct fuel as [|fuel]; [lia|]. destruct (decide (l = [])) as [->|Hne].
    { rewrite app_nil_r, slices_end. apply Hno. rewrite Hhd. change (zlen []) with 0. lia. }
    rewrite slices_skip by (done || lia). destruct (Z.ltb_spec (zlen l) n); [apply Hno; rewrite Hhd; lia|].
    destruct (IH fuel ltac:(lia) (pre' ++ ztake n l) (zdrop n l)) as (b & E & Hiff); [auto with xray| |].
    { unfold zdrop. rewrite length_drop. assert (length l <> 0%nat) by (by destruct l). lia. }
    exists b. split; [done|]. rewrite Hiff, Hhd. tauto.
Qed.

Lemma complete_slices_total ss : bytes_ok (concat ss) -> exists b, is_complete_record_slices ss = Some b /\ (b = true <-> records (concat ss)).
Proof.
  intros Hb. unfold is_complete_record_slices. rewrite total_len_concat, complete_slices_flat by (done || lia).
  apply (complete_slices_spec (S (Z.to_nat (zlen (concat ss)))) [] (concat ss) Hb). unfold zlen; lia.
Qed.

(** Whether a write is complete TLS 1.3 records: the scan of one buffer and the scan of
    a batch of slices that never joins them both answer, agree on where the bytes are cut,
    and say yes exactly of a concatenation of application-data records, each with its
    two-byte length. *)
Theorem complete_record_exact (ss : list bytes) : bytes_ok (concat ss) ->
  exists b, is_complete_record (concat ss) = Some b /\ is_complete_record_slices ss = Some b /\ (b = true <-> records (concat ss)).
Proof.
  intros Hb. destruct (complete_loop_spec (S (length (concat ss))) [] (concat ss) Hb ltac:(lia)) as (b & E & Hiff).
  destruct (complete_slices_total ss Hb) as (b' & E' & Hiff'). exists b. split_and!; [done| |done].
  rewrite E'. f_equal. apply Bool.eq_iff_eq_true. tauto.
Qed.
