(* ===== verification/VisionConnProps.v ===== *)
(** The connection of XTLS Vision: what the reader is given, what the writer sends, and
    the two together. *)
From Stdlib Require Import List.
From stdpp Require Import base tactics option list numbers.
From S2P Require Import Prelude Bytes AsyncIo StrMatch Vision VisionConn VisionProps.

(** * The reader *)

(** Where the reads end, counted from [pos]. *)
Fixpoint cuts (pos : Z) (evs : list ReadEvent) : list Z :=
  match evs with
  | [] => []
  | Data bs :: evs => (pos + zlen bs) :: cuts (pos + zlen bs) evs
  | _ :: evs => cuts pos evs
  end.

(** No read ends within the header that begins at [at_]. *)
Definition clean_cuts (at_ pos : Z) (evs : list ReadEvent) : Prop := Forall (fun p => ~ (at_ < p < at_ + 5)) (cuts pos evs).

(** The first read brings the uuid and a header. *)
Fixpoint first_chunk (evs : list ReadEvent) : Prop :=
  match evs with
  | Data bs :: _ => 21 <= zlen bs
  | Silence :: evs => first_chunk evs
  | _ => False
  end.

Section reader.
Context {Rng : Type}.
Implicit Types c : VisionConn Rng.
Variable clone : bool.

(** Whether reads go to the raw socket after a block that ends the padding. *)
Definition goes_raw (cmd : Z) c : bool :=
  if (cmd =? COMMAND_PADDING_DIRECT) && negb (vc_raw_fallback c) then take_raw clone c else vc_raw_fallback c.

Definition end_ok (fin : option Block) (rest : bytes) c : Prop :=
  match fin with
  | Some f => ends_ok f /\ (goes_raw (bk_cmd f) c = true -> rest = [])
  | None => rest = []
  end.

Definition raw_after (fin : option Block) (raw : list ReadEvent) c : bytes :=
  match fin with Some f => if goes_raw (bk_cmd f) c then stream_bytes raw else [] | None => [] end.

(** What the two streams still hold for the reader. *)
Inductive future (inner raw : list ReadEvent) c : bytes -> Prop :=
| future_plain : vc_downlink_padding c = false ->
    future inner raw c (if vc_raw_fallback c then stream_bytes raw else stream_bytes inner)
| future_fresh ks fin rest : vc_downlink_padding c = true -> at_start (vc_downlink_state c) = true -> ds_current_command (vc_downlink_state c) = 0 ->
    zlen (vc_user_uuid c) = 16 -> first_chunk inner -> conts_ok ks -> end_ok fin rest c ->
    stream_bytes inner = vc_user_uuid c ++ padded ks fin rest -> clean_cuts (zlen (cont_bytes ks)) (-16) inner ->
    future inner raw c (plain ks fin rest ++ raw_after fin raw c)
| future_block ks fin rest s0 pre : vc_downlink_padding c = true -> awaits s0 -> vc_downlink_state c = (unpad_all pre s0).2 ->
    block_done (vc_downlink_state c) = false -> conts_ok ks -> end_ok fin rest c ->
    pre ++ stream_bytes inner = padded ks fin rest -> clean_cuts (zlen (cont_bytes ks)) (zlen pre) inner ->
    future inner raw c ((unpad_all (stream_bytes inner) (vc_downlink_state c)).1 ++ raw_after fin raw c).

Definition pending_ok c : Prop := (vc_downlink_pending c = [] /\ vc_downlink_pending_pos c = 0) \/ 0 <= vc_downlink_pending_pos c < zlen (vc_downlink_pending c).

Inductive reading (inner raw : list ReadEvent) c (text : bytes) : Prop :=
| reading_intro more : pending_ok c -> quiet inner -> quiet raw -> future inner raw c more ->
    text = zdrop (vc_downlink_pending_pos c) (vc_downlink_pending c) ++ more -> reading inner raw c text.

(** What a read of the inner connection that unpads to [s] and [out] does. *)
Definition read_into (s : DirectionState) (out : bytes) (padding raw_fallback raw_tcp : bool) c c' : Prop :=
  vc_downlink_state c' = s /\ vc_downlink_pending c' = out /\ (out = [] -> vc_downlink_pending_pos c' = vc_downlink_pending_pos c) /\
  (out <> [] -> vc_downlink_pending_pos c' = 0) /\ vc_downlink_padding c' = padding /\ vc_raw_fallback c' = raw_fallback /\ vc_raw_tcp c' = raw_tcp /\
  vc_user_uuid c' = vc_user_uuid c.

Lemma take_inner_busy bs c s out : xtls_unpadding bs (vc_downlink_state c) (vc_user_uuid c) = Some (out, s) ->
  mid_header s = false -> block_done s = false ->
  exists c', take_inner bs clone c = Some c' /\ read_into s out (vc_downlink_padding c) (vc_raw_fallback c) (vc_raw_tcp c) c c'.
Proof.
  intros E Hm Hd. unfold take_inner. rewrite E. cbn [mbind option_bind].
  assert (Hf : (ds_remaining_content s <=? 0) && (ds_remaining_padding s <=? 0) && negb (ds_current_command s =? 0) = false).
  { apply not_true_is_false. rewrite !andb_true_iff, !Z.leb_le. intros [[Hc Hp] Hn]. unfold mid_header in Hm. rewrite Hn, andb_true_r, Z.ltb_ge in Hm.
    apply block_done_false in Hd. lia. }
  rewrite Hf. cbn [andb]. destruct (Z.eqb_spec (zlen out) 0) as [Hz|Hz].
  - assert (out = []) as -> by (apply zlen_zero; lia). eexists. split; [reflexivity|]. unfold read_into. cbn. done.
  - eexists. split; [reflexivity|]. unfold read_into. cbn. split_and!; try done. intros ->. done.
Qed.

Lemma take_inner_done bs c s out : xtls_unpadding bs (vc_downlink_state c) (vc_user_uuid c) = Some (out, s) ->
  block_done s = true -> ds_current_command s = COMMAND_PADDING_END \/ ds_current_command s = COMMAND_PADDING_DIRECT ->
  exists c' t, take_inner bs clone c = Some c' /\ read_into s out false (goes_raw (ds_current_command s) c) t c c'.
Proof.
  intros E Hd Hcmd. unfold take_inner, goes_raw. rewrite E. cbn [mbind option_bind]. apply block_done_spec in Hd as (_ & Hc & Hp).
  rewrite (proj2 (Z.leb_le _ _) Hc), (proj2 (Z.leb_le _ _) Hp). cbn [andb].
  destruct Hcmd as [->| ->]; cbn [Z.eqb Pos.eqb COMMAND_PADDING_END COMMAND_PADDING_DIRECT negb orb andb]; destruct (Z.eqb_spec (zlen out) 0) as [Hz|Hz].
  1, 3: assert (out = []) as -> by (apply zlen_zero; lia).
  all: eexists _, _; split; [reflexivity|]; unfold read_into; cbn; split_and!; try done; intros ->; done.
Qed.
(** Where a read may leave the unpadding. *)
Lemma cut_state ks fin rest c s0 pre more : conts_ok ks -> end_ok fin rest c -> awaits s0 -> pre ++ more = padded ks fin rest ->
  ~ (zlen (cont_bytes ks) < zlen pre < zlen (cont_bytes ks) + 5) ->
  mid_header (unpad_all pre s0).2 = false /\
  (block_done (unpad_all pre s0).2 = true -> exists f, fin = Some f /\ ds_current_command (unpad_all pre s0).2 = bk_cmd f /\ (goes_raw (bk_cmd f) c = true -> more = [])).
Proof.
  intros Hks Hend Hs Hp Hcut. assert (Hpre : pre `prefix_of` padded ks fin rest) by (by exists more).
  destruct fin as [f|].
  - destruct Hend as [Hf Hraw]. destruct (unpad_in_stream ks f rest Hks Hf s0 pre Hs Hpre) as [H1 H2]. split.
    + apply not_true_is_false. intros Hm. by apply Hcut, H1.
    + intros Hd. destruct (H2 Hd) as [Hc Hl]. exists f. split_and!; [done|done|]. intros Hg. rewrite (Hraw Hg) in Hp. apply (f_equal zlen) in Hp. unfold padded in Hp.
      zlens. apply zlen_zero. lia.
  - unfold padded in Hpre. rewrite app_nil_r in Hpre. destruct (unpad_in_conts ks Hks s0 pre Hs Hpre) as [-> ->]. done.
Qed.

Lemma future_read c inner bs raw more : vc_downlink_padding c = true -> future (Data bs :: inner) raw c more -> bs <> [] ->
  exists ks fin rest s0 pre s out, awaits s0 /\ conts_ok ks /\ end_ok fin rest c /\ pre ++ stream_bytes inner = padded ks fin rest /\
    clean_cuts (zlen (cont_bytes ks)) (zlen pre) inner /\ ~ (zlen (cont_bytes ks) < zlen pre < zlen (cont_bytes ks) + 5) /\
    xtls_unpadding bs (vc_downlink_state c) (vc_user_uuid c) = Some (out, s) /\ s = (unpad_all pre s0).2 /\
    more = out ++ (unpad_all (stream_bytes inner) s).1 ++ raw_after fin raw c.
Proof.
  intros Hpad Hf Hne. destruct Hf as [Hp|ks fin rest _ Hs Hcur Hu Hfc Hks Hend Es Hcl|ks fin rest s0 pre _ Hs0 Est Hd Hks Hend Es Hcl].
  - congruence.
  - cbn [first_chunk] in Hfc. rewrite stream_bytes_cons in Es. cbn [event_bytes] in Es.
    assert (Hpre : vc_user_uuid c `prefix_of` bs).
    { assert (H1 : vc_user_uuid c `prefix_of` bs ++ stream_bytes inner) by (by exists (padded ks fin rest)). apply prefix_ztake in H1. rewrite ztake_app_le in H1 by lia.
      exists (zdrop (zlen (vc_user_uuid c)) bs). rewrite H1 at 1. by rewrite ztake_drop. }
    destruct Hpre as [pre ->]. rewrite <- app_assoc in Es. apply app_inv_head in Es. unfold clean_cuts in Hcl. cbn [cuts] in Hcl. apply Forall_cons_iff in Hcl as [Hcut Hcl].
    replace (-16 + zlen (vc_user_uuid c ++ pre)) with (zlen pre) in * by (zlens; lia).
    assert (Haw : awaits (begun (vc_downlink_state c))) by (split; done).
    exists ks, fin, rest, (begun (vc_downlink_state c)), pre, (unpad_all pre (begun (vc_downlink_state c))).2, (unpad_all pre (begun (vc_downlink_state c))).1.
    split_and!; try done.
    + rewrite unpadding_first by (done || by exists pre). rewrite zdrop_app by done. by destruct (unpad_all _ _).
    + pose proof (unpad_padded ks fin rest _ Hks ltac:(destruct fin; [apply Hend|done]) Haw) as (s' & E & _). rewrite <- Es, unpad_all_app in E.
      destruct (unpad_all pre _) as [o1 s1]. cbn [fst snd]. destruct (unpad_all (stream_bytes inner) s1) as [o2 s2]. injection E as <- _. by rewrite <- app_assoc.
  - rewrite stream_bytes_cons in Es |- *. cbn [event_bytes] in Es |- *. unfold clean_cuts in Hcl. cbn [cuts] in Hcl. apply Forall_cons_iff in Hcl as [Hcut Hcl].
    rewrite <- zlen_app in *. exists ks, fin, rest, s0, (pre ++ bs), (unpad_all bs (vc_downlink_state c)).2, (unpad_all bs (vc_downlink_state c)).1.
    split_and!; try done.
    + by rewrite <- app_assoc.
    + rewrite unpadding_bytes by done. by rewrite <- surjective_pairing.
    + rewrite unpad_all_app. destruct (unpad_all pre s0) as [o1 s1]. cbn [snd] in Est. rewrite Est. by destruct (unpad_all bs s1).
    + rewrite unpad_all_app. destruct (unpad_all bs _) as [o1 s1]. cbn [fst snd]. destruct (unpad_all (stream_bytes inner) s1) as [o2 s2]. cbn [fst]. by rewrite app_assoc.
Qed.

Lemma unpad_rest s l : block_done s = true -> (unpad_all l s).1 = l.
Proof. intros Hd. by rewrite unpad_all_done. Qed.

(** A read of the inner connection. *)
Lemma future_step c inner bs raw more : vc_downlink_padding c = true -> vc_downlink_pending c = [] -> vc_downlink_pending_pos c = 0 ->
  future (Data bs :: inner) raw c more -> bs <> [] ->
  exists c' more', take_inner bs clone c = Some c' /\ pending_ok c' /\ future inner raw c' more' /\
    more = zdrop (vc_downlink_pending_pos c') (vc_downlink_pending c') ++ more'.
Proof.
  intros Hpad Hpend Hpos Hf Hne. destruct (future_read c inner bs raw more Hpad Hf Hne) as (ks & fin & rest & s0 & pre & s & out & Hs0 & Hks & Hend & Es & Hcl & Hcut & Eu & Est & ->).
  destruct (cut_state ks fin rest c s0 pre (stream_bytes inner) Hks Hend Hs0 Es Hcut) as [Hm Hdone]. rewrite <- Est in Hm, Hdone.
  assert (Hread : forall c' p r t, read_into s out p r t c c' -> pending_ok c' /\ zdrop (vc_downlink_pending_pos c') (vc_downlink_pending c') = out).
  { intros c' p r t (_ & Ep & E0 & E1 & _). unfold pending_ok. rewrite Ep. destruct (decide (out = [])) as [->|Ho].
    - rewrite E0, Hpos by done. split; [by left|done].
    - rewrite E1 by done. split; [right|done]. assert (0 < zlen out) by (destruct out; [done|zlia]). lia. }
  destruct (block_done s) eqn:Ed.
  - destruct (Hdone eq_refl) as (f & -> & Ec & Hraw). destruct Hend as [[Hok Hcmd] _].
    destruct (take_inner_done bs c s out Eu Ed ltac:(rewrite Ec; tauto)) as (c' & t & Et & Hr). destruct (Hread _ _ _ _ Hr) as [Hpo Eo].
    destruct Hr as (E1 & E2 & _ & _ & E5 & E6 & E7 & E8). rewrite Ec in E6. eexists c', _. split_and!; [done|done|by apply future_plain|].
    rewrite Eo. f_equal. rewrite unpad_rest by done. rewrite E6. unfold raw_after. destruct (goes_raw (bk_cmd f) c) eqn:Eg; [by rewrite Hraw|by rewrite app_nil_r].
  - destruct (take_inner_busy bs c s out Eu Hm Ed) as (c' & Et & Hr). destruct (Hread _ _ _ _ Hr) as [Hpo Eo].
    destruct Hr as (E1 & E2 & _ & _ & E5 & E6 & E7 & E8). eexists c', _. split_and!; [done|done| |rewrite Eo; f_equal; reflexivity].
    assert (Hg : forall cmd, goes_raw cmd c' = goes_raw cmd c) by (intros cmd; unfold goes_raw, take_raw; by rewrite E6, E7).
    assert (Er : raw_after fin raw c = raw_after fin raw c') by (unfold raw_after; destruct fin; [by rewrite Hg|done]). rewrite Er, <- E1.
    eapply (future_block inner raw c' ks fin rest s0 pre); try done; [congruence|congruence|by rewrite E1|].
    unfold end_ok in *. destruct fin; [by rewrite Hg|done].
Qed.

(** Silence changes nothing. *)
Lemma future_silence c inner raw more : future (Silence :: inner) raw c more -> future inner raw c more.
Proof.
  intros [Hp|ks fin rest Hp Hs Hcur Hu Hfc Hks Hend Es Hcl|ks fin rest s0 pre Hp Hs0 Est Hd Hks Hend Es Hcl].
  - change (stream_bytes (Silence :: inner)) with (stream_bytes inner). by apply future_plain.
  - by eapply future_fresh.
  - change (stream_bytes (Silence :: inner)) with (stream_bytes inner). by eapply future_block.
Qed.

(** At the end of the inner connection nothing is left. *)
Lemma future_end c raw more : vc_downlink_padding c = true -> future [] raw c more -> more = [].
Proof.
  intros Hpad Hf. destruct Hf as [Hp|ks fin rest _ Hs Hcur Hu Hfc Hks Hend Es Hcl|ks fin rest s0 pre _ Hs0 Est Hd Hks Hend Es Hcl]; [congruence|done|].
  change (stream_bytes []) with (@nil Z) in *. rewrite app_nil_r in Es. destruct fin as [f|]; [|done].
  destruct (unpad_padded ks (Some f) rest s0 Hks (proj1 Hend) Hs0) as (s' & E & Hd' & _). rewrite <- Es in E. rewrite E in Est. cbn [snd] in Est. congruence.
Qed.

Lemma read_ready_step room inner raw c text : 1 <= room -> reading inner raw c text ->
  (exists r c' inner' raw' text', read_ready room inner raw c = Some (r, c', inner', raw') /\ reading inner' raw' c' text' /\
    answers r text text' (stalls inner + stalls raw) (stalls inner' + stalls raw')) \/
  (read_ready room inner raw c = None /\ vc_downlink_padding c = true /\ vc_downlink_pending c = [] /\ vc_downlink_pending_pos c = 0).
Proof.
  intros Hr [more Hpo Hqi Hqr Hf ->]. unfold read_ready. destruct (Z.ltb_spec (vc_downlink_pending_pos c) (zlen (vc_downlink_pending c))) as [Hlt|Hge].
  - left. destruct Hpo as [[E E']|Hpo]; [rewrite E, E' in Hlt; by zlens|].
    set (p := vc_downlink_pending c) in *. set (pos := vc_downlink_pending_pos c) in *. set (n := Z.min (zlen (zdrop pos p)) room).
    assert (Hn : 1 <= n) by (subst n; zlens; lia). assert (Hn' : n <= zlen p - pos) by (subst n; zlens; lia).
    assert (Hfut : forall pe po, future inner raw (vc_set_read (vc_downlink_state c) pe po (vc_downlink_padding c) (vc_downlink_traffic c) (vc_raw_fallback c) (vc_raw_tcp c) c) more).
    { intros pe po. destruct Hf; [by apply (future_plain inner raw (vc_set_read _ _ _ _ _ _ _ _))|by eapply (future_fresh inner raw (vc_set_read _ _ _ _ _ _ _ _))|by eapply (future_block inner raw (vc_set_read _ _ _ _ _ _ _ _))]. }
    assert (Hans : forall text', ztake n (zdrop pos p) ++ text' = zdrop pos p ++ more -> answers (Ready (ztake n (zdrop pos p))) (zdrop pos p ++ more) text' (stalls inner + stalls raw) (stalls inner + stalls raw)).
    { intros text' E. left. eexists. split_and!; [reflexivity|by rewrite E| |lia]. intros E0. apply (f_equal zlen) in E0. zlens. lia. }
    destruct (Z.leb_spec (zlen p) (pos + n)) as [Hle|Hgt]; eexists _, _, inner, raw, _; split_and!; [reflexivity| | |reflexivity| |].
    + econstructor; [by left|done|done|apply Hfut|]. reflexivity.
    + apply Hans. cbn. f_equal. apply ztake_ge. zlens. lia.
    + econstructor; [right; cbn; lia|done|done|apply Hfut|]. reflexivity.
    + apply Hans. cbn. rewrite <- zdrop_drop by lia. by rewrite app_assoc, ztake_drop.
  - assert (vc_downlink_pending c = [] /\ vc_downlink_pending_pos c = 0) as [Ep Ep0] by (destruct Hpo; [done|lia]). rewrite Ep, Ep0. cbn [zdrop app].
    destruct (vc_downlink_padding c) eqn:Epad; [by right|]. left. cbn [negb]. destruct Hf as [_|? ? ? ?|? ? ? ? ? ?]; [|congruence..].
    assert (Hre : forall inner' raw', quiet inner' -> quiet raw' -> reading inner' raw' c (if vc_raw_fallback c then stream_bytes raw' else stream_bytes inner')).
    { intros inner' raw' H1 H2. econstructor; [by left|done|done|by apply future_plain|]. by rewrite Ep, Ep0. }
    change (zdrop 0 (@nil Z)) with (@nil Z). cbn [app].
    destruct (vc_raw_fallback c) eqn:Erf.
    + destruct (poll_stream_step room raw Hr Hqr) as (r & raw' & -> & Hq' & Hans). eexists _, _, _, _, _. split_and!; [reflexivity|by apply Hre|].
      destruct Hans as [(bs & -> & E & H0 & Hs)|(-> & E & Hs)]; [left; exists bs; split_and!; [done|done|done|lia]|right; split_and!; [done|done|lia]].
    + destruct (poll_stream_step room inner Hr Hqi) as (r & inner' & -> & Hq' & Hans). eexists _, _, _, _, _. split_and!; [reflexivity|by apply Hre|].
      destruct Hans as [(bs & -> & E & H0 & Hs)|(-> & E & Hs)]; [left; exists bs; split_and!; [done|done|done|lia]|right; split_and!; [done|done|lia]].
Qed.

Lemma poll_read_step room inner : forall raw c text, 1 <= room -> reading inner raw c text ->
  exists r c' inner' raw' text', VisionConn_poll_read room clone inner raw c = Some (r, c', inner', raw') /\ reading inner' raw' c' text' /\
    answers r text text' (stalls inner + stalls raw) (stalls inner' + stalls raw').
Proof.
  induction inner as [|e inner IH]; intros raw c text Hr Hre; cbn [VisionConn_poll_read].
  all: destruct (read_ready_step room _ raw c text Hr Hre) as [(r & c' & inner' & raw' & text' & -> & H)|(-> & Hpad & Ep & Ep0)]; [by eexists _, _, _, _, _|].
  all: destruct Hre as [more Hpo Hqi Hqr Hf ->]; rewrite Ep, Ep0; change (zdrop 0 (@nil Z)) with (@nil Z); cbn [app].
  - assert (more = []) as -> by (by eapply future_end). eexists _, _, _, _, []. split_and!; [reflexivity| |left; exists []; split_and!; [done|done|done|lia]].
    econstructor; [done|done|done|done|by rewrite Ep, Ep0].
  - apply quiet_cons in Hqi as [[->|(bs & -> & Hne)] Hqi].
    + eexists _, _, _, _, _. split_and!; [reflexivity| |right; split_and!; [done|reflexivity|]].
      * econstructor; [done|done|done|by apply future_silence|by rewrite Ep, Ep0].
      * unfold stalls. cbn [List.filter]. zlens. lia.
    + assert (zlen bs =? 0 = false) as -> by (destruct bs; [done|apply zlen_cons_eqb0]).
      destruct (future_step c inner bs raw more Hpad Ep Ep0 Hf Hne) as (c' & more' & -> & Hpo' & Hf' & ->).
      change (stalls (Data bs :: inner)) with (stalls inner). apply IH; [done|]. by econstructor.
Qed.

(** A read as a step of the connection and the streams below it. *)
Definition vision_poll (room : Z) (s : VisionConn Rng * list ReadEvent * list ReadEvent) : option (Poll bytes * (VisionConn Rng * list ReadEvent * list ReadEvent)) :=
  let '(c, inner, raw) := s in
  '(r, c, inner, raw) ← VisionConn_poll_read room clone inner raw c;
  Some (r, (c, inner, raw)).

Lemma drain_reading rooms c inner raw text : Forall (fun n => 1 <= n) rooms -> reading inner raw c text ->
  drains vision_poll rooms (c, inner, raw) text (stalls inner + stalls raw).
Proof.
  intros Hrooms Hre. apply (drain_holds vision_poll (fun s => reading s.1.2 s.2 s.1.1) (fun s => stalls s.1.2 + stalls s.2)); [| |done|done].
  - intros s. cbn. pose proof (stalls_nonneg s.1.2). pose proof (stalls_nonneg s.2). lia.
  - intros room [[c' inner'] raw'] text' Hroom H. cbn in H. destruct (poll_read_step room inner' raw' c' text' Hroom H) as (r & c2 & inner2 & raw2 & text2 & E & H2 & Ha).
    exists r, (c2, inner2, raw2), text2. cbn [vision_poll]. by rewrite E.
Qed.
End reader.

(** * The slices of a write *)

Lemma locate_spec bufs : forall pos off ending sp, locate_io_slice_span bufs pos off ending = Some sp ->
  pos <= off /\ sp = (concat bufs)[: off - pos, ending - pos].
Proof.
  induction bufs as [|s bufs IH]; intros pos off ending sp; [done|]. cbn [locate_io_slice_span concat]. destruct (Z.leb_spec ending (pos + zlen s)).
  - destruct (Z.leb_spec pos off); [|done]. intros [= <-]. split; [done|]. symmetry. apply slice_app_l; lia.
  - intros E. apply IH in E as [Hp ->]. pose proof (zlen_nonneg s). split; [lia|]. rewrite slice_app_skip by lia. f_equal; lia.
Qed.

Lemma copy_spec bufs : forall pos start ending, start <= ending ->
  copy_io_slice_span bufs pos start ending = (concat bufs)[: Z.max 0 (start - pos), ending - pos].
Proof.
  induction bufs as [|s bufs IH]; intros pos start ending Hse; cbn [copy_io_slice_span concat].
  { unfold slice, ztake, zdrop. by rewrite drop_nil, take_nil. }
  pose proof (zlen_nonneg s). destruct (Z.leb_spec (pos + zlen s) start).
  { rewrite IH by done. rewrite slice_app_skip by lia. f_equal; lia. }
  destruct (Z.leb_spec ending pos); [unfold slice; by rewrite ztake_le0 by lia|].
  rewrite IH by done. replace (Z.max 0 (start - (pos + zlen s))) with 0 by lia. rewrite slice_0. unfold slice.
  replace (Z.max start pos - pos) with (Z.max 0 (start - pos)) by lia. rewrite zdrop_app_le by lia.
  destruct (Z.leb_spec ending (pos + zlen s)).
  - rewrite (ztake_le0 (ending - (pos + zlen s))), app_nil_r by lia. rewrite ztake_app_le by (zlens; lia). f_equal. lia.
  - rewrite ztake_app_ge by (zlens; lia). f_equal; [apply ztake_ge|f_equal]; zlens; lia.
Qed.

Lemma piece_spec bufs off ending : 0 <= off -> off <= ending -> piece_of bufs off ending = (concat bufs)[: off, ending].
Proof.
  intros Ho He. unfold piece_of. destruct (locate_io_slice_span bufs 0 off ending) as [sp|] eqn:E.
  - apply locate_spec in E as [_ ->]. by rewrite !Z.sub_0_r.
  - rewrite copy_spec by done. f_equal; lia.
Qed.

(** * The writer *)

Definition gate_of (cmd : Z) : UpGate := if cmd =? COMMAND_PADDING_DIRECT then DirectArm else if cmd =? COMMAND_PADDING_END then EndCommit else GateNone.

(** The frame of a block. *)
Definition frame_of (k : Block) (f : UpFrame) : Prop := uf_orig_len f = zlen (bk_content k) /\ uf_gate f = gate_of (bk_cmd k).

Definition last_of (fin : option Block) : list Block := match fin with Some f => [f] | None => [] end.
Definition fin_ok (fin : option Block) : Prop := match fin with Some f => ends_ok f | None => True end.
Definition fin_is (cmd : Z) (fin : option Block) : bool := match fin with Some f => bk_cmd f =? cmd | None => false end.

(** What is left to write. *)
Definition queue_bytes (fs : list UpFrame) : bytes :=
  match fs with [] => [] | f :: fs => zdrop (uf_sent f) (uf_padded f) ++ concat (map uf_padded fs) end.
Definition queue_ok (fs : list UpFrame) : Prop :=
  match fs with [] => True | f :: fs => 0 <= uf_sent f <= zlen (uf_padded f) /\ Forall (fun g => uf_sent g = 0) fs end.

Definition owed (fs : list UpFrame) : Z := foldr (fun f n => uf_orig_len f + n) 0 fs.

Lemma queue_fresh fs : Forall (fun g => uf_sent g = 0) fs -> queue_bytes fs = concat (map uf_padded fs) /\ queue_ok fs.
Proof.
  intros H. destruct H as [|f fs Hf Hfs]; [done|]. cbn [queue_bytes queue_ok map concat]. rewrite Hf. split; [done|]. pose proof (zlen_nonneg (uf_padded f)). done.
Qed.

Lemma owed_contents ks fs : Forall2 frame_of ks fs -> owed fs = zlen (concat (map bk_content ks)).
Proof. induction 1 as [|k f ks fs [Ho _] _ IH]; [done|]. cbn [owed foldr map concat]. zlens. unfold owed in IH. lia. Qed.

Lemma write_front_spec polls : forall wire f r f' w, write_front polls wire f = (r, f', w) -> 0 <= uf_sent f <= zlen (uf_padded f) ->
  uf_padded f' = uf_padded f /\ uf_orig_len f' = uf_orig_len f /\ uf_gate f' = uf_gate f /\ 0 <= uf_sent f' <= zlen (uf_padded f) /\
  wh_wire w ++ zdrop (uf_sent f') (uf_padded f) = wire ++ zdrop (uf_sent f) (uf_padded f) /\ (r = Ready tt -> uf_sent f' = zlen (uf_padded f)).
Proof.
  induction polls as [|p polls IH]; intros wire f r f' w; cbn [write_front]; destruct (Z.ltb_spec (uf_sent f) (zlen (uf_padded f))) as [Hlt|Hge].
  all: try (intros [= <- <- <-] Hs; split_and!; (done || lia)).
  destruct p as [n| |]; [|by intros [= <- <- <-] Hs; split_and!; (done || lia)..].
  set (rest := zdrop (uf_sent f) (uf_padded f)). set (m := Z.max 0 (Z.min n (zlen rest))). destruct (Z.eqb_spec m 0); [intros [= <- <- <-] Hs; split_and!; (done || lia)|].
  intros E Hs. assert (Hm : 0 <= m <= zlen (uf_padded f) - uf_sent f) by (subst m rest; zlens; lia).
  apply IH in E as (E1 & E2 & E3 & E4 & E5 & E6); [|cbn; lia]. cbn [uf_padded uf_orig_len uf_gate uf_sent] in *. split_and!; try done; try lia.
  rewrite E5, <- app_assoc. f_equal. rewrite <- zdrop_drop by lia. apply ztake_drop.
Qed.

Section writer.
Context {Rng : Type}.
Variable random_range : Z -> Rng -> Z * Rng.
Implicit Types (c : VisionConn Rng) (b : Below).
Variables (uuid input : bytes) (avail : bool).
Hypothesis input_ok : bytes_ok input.

Definition fixed c b : Prop := vc_padding_seed c @ 1 <> 0 /\ vc_padding_seed c @ 3 <> 0.

(** Padded: [sent] went out, [ks] and [fin] wait in the queue; [p] bytes were accepted. *)
Record queued (sent ks : list Block) (fin : option Block) (p : Z) c b : Prop := mkQueued {
  q_seed : vc_padding_seed c @ 1 <> 0 /\ vc_padding_seed c @ 3 <> 0;
  q_padding : vc_uplink_padding c = true;
  q_raw : vc_raw_fallback c = false /\ wh_wire (bl_raw b) = [] /\ vc_raw_tcp c || bl_clone b = avail;
  q_flags : vc_splice_armed c = fin_is COMMAND_PADDING_DIRECT fin /\ vc_end_commit c = fin_is COMMAND_PADDING_END fin;
  q_conts : conts_ok (sent ++ ks);
  q_fin : fin_ok fin;
  q_frames : Forall2 frame_of (ks ++ last_of fin) (vc_uplink_pending c);
  q_queue : queue_ok (vc_uplink_pending c);
  q_wire : wh_wire (bl_inner b) ++ queue_bytes (vc_uplink_pending c) = match vc_uplink_uuid_pending c with Some _ => [] | None => uuid end ++ padded (sent ++ ks) fin [];
  q_uuid : vc_uplink_uuid_pending c = None \/ (vc_uplink_uuid_pending c = Some uuid /\ sent = [] /\ ks = [] /\ fin = None);
  q_text : plain (sent ++ ks) fin [] `prefix_of` input;
  q_accepted : zlen (concat (map bk_content sent)) = p;
}.

(** The padding is over. *)
Record ended (ks : list Block) (f : Block) (rest : bytes) (p : Z) c b : Prop := mkEnded {
  e_seed : vc_padding_seed c @ 1 <> 0 /\ vc_padding_seed c @ 3 <> 0;
  e_padding : vc_uplink_padding c = false;
  e_queue : vc_uplink_pending c = [];
  e_raw : vc_raw_fallback c = (bk_cmd f =? COMMAND_PADDING_DIRECT) && avail;
  e_blocks : conts_ok ks /\ ends_ok f;
  e_inner : wh_wire (bl_inner b) = uuid ++ padded ks (Some f) (if vc_raw_fallback c then [] else rest);
  e_wire : wh_wire (bl_raw b) = if vc_raw_fallback c then rest else [];
  e_text : plain ks (Some f) rest `prefix_of` input;
  e_accepted : zlen (plain ks (Some f) rest) = p;
}.

Inductive writing (p : Z) c b : Prop :=
| writing_queued sent ks fin : queued sent ks fin p c b -> writing p c b
| writing_ended ks f rest : ended ks f rest p c b -> writing p c b.

(** The caller offers again what it was not told that was taken. *)
Definition offers (bufs : list bytes) (p : Z) c : Prop := concat bufs `prefix_of` zdrop p input /\ owed (vc_uplink_pending c) <= zlen (concat bufs).

Definition accepted (r : Poll Z) (p : Z) : Z := match r with Ready n => p + n | _ => p end.

(** Frames added to the queue, generator advanced, nothing else. *)
Definition add_frames (u : option bytes) (fs : list UpFrame) (rng : Rng) c : VisionConn Rng :=
  vc_set_write u (vc_uplink_pending c ++ fs) (vc_uplink_padding c) rng (vc_uplink_traffic c)
    (vc_raw_fallback c) (vc_raw_tcp c) (vc_splice_armed c) (vc_end_commit c) (vc_raw_write_gate c) c.

Definition fin_cmd (command : Z) (fin : option Block) : Prop :=
  match fin with
  | Some f => bk_cmd f = command /\ (command = COMMAND_PADDING_END \/ command = COMMAND_PADDING_DIRECT)
  | None => command = COMMAND_PADDING_CONTINUE
  end.

(** The frames of [text]. *)
Definition framed (u u' : option bytes) (text : bytes) (command : Z) (ks : list Block) (fin : option Block) (fs : list UpFrame) : Prop :=
  conts_ok ks /\ fin_ok fin /\ fin_cmd command fin /\ Forall2 frame_of (ks ++ last_of fin) fs /\ Forall (fun g => uf_sent g = 0) fs /\
  plain ks fin [] = text /\ concat (map uf_padded fs) = default [] u ++ padded ks fin [] /\ u' = None.

Lemma slice_cut off e total (l : bytes) : 0 <= off -> off <= e -> zlen l = total -> l[: off, e] ++ zdrop e l = zdrop off l.
Proof.
  intros H1 H2 <-. unfold slice. rewrite <- (ztake_drop (e - off) (zdrop off l)) at 2. f_equal. rewrite zdrop_drop by lia. f_equal. lia.
Qed.

Lemma frame_pieces_spec fuel bufs command lp : command = 0 \/ command = 1 \/ command = 2 ->
  forall off c, 0 <= off < zlen (concat bufs) -> (Z.to_nat (zlen (concat bufs) - off) < fuel)%nat ->
  vc_padding_seed c @ 1 <> 0 -> vc_padding_seed c @ 3 <> 0 ->
  exists u rng ks fin fs, frame_pieces random_range fuel bufs (zlen (concat bufs)) off command lp c = Some (add_frames u fs rng c) /\
    framed (vc_uplink_uuid_pending c) u (zdrop off (concat bufs)) command ks fin fs.
Proof.
  intros Hcmd. induction fuel as [|fuel IH]; intros off c Hoff Hf H1 H3; [lia|]. cbn [frame_pieces]. set (total := zlen (concat bufs)) in *.
  rewrite (proj2 (Z.ltb_lt off total)) by lia. set (e := Z.min (off + MAX_PADDING_CONTENT) total).
  assert (He : off < e <= total) by (subst e; unfold MAX_PADDING_CONTENT; lia). assert (He' : e - off <= 2027) by (subst e; unfold MAX_PADDING_CONTENT; lia).
  rewrite piece_spec by lia. set (piece := (concat bufs)[: off, e]).
  assert (Hlen : zlen piece = e - off) by (subst piece; rewrite zlen_slice; subst total; lia).
  pose proof (slice_cut off e total (concat bufs) ltac:(lia) ltac:(lia) eq_refl) as Hcut. fold piece in Hcut.
  destruct (Z.eqb_spec e total) as [Ee|Ee].
  - set (pc := if command =? COMMAND_PADDING_DIRECT then (COMMAND_PADDING_DIRECT, DirectArm) else _).
    assert (Hpc : pc = (command, gate_of command)) by (subst pc; by destruct Hcmd as [->|[->| ->]]). rewrite Hpc.
    destruct (xtls_padding_total random_range (Some piece) command (vc_uplink_uuid_pending c) lp (vc_padding_seed c) (vc_rng c) H1 H3) as [[[out u] rng] Ex].
    rewrite Ex. cbn [mbind option_bind]. destruct (xtls_padding_block _ _ _ _ _ _ _ _ _ _ Ex) as (-> & k & Hk & Ec & Eck & ->); [cbn; lia|]. change (default [] (Some piece)) with piece in *.
    rewrite Ee, zdrop_ge, app_nil_r in Hcut by (subst total; lia). destruct fuel as [|fuel]; [lia|]. cbn [frame_pieces]. rewrite Ee, Z.ltb_irrefl.
    set (f := mkUpFrame _ 0 _ _). exists None, rng. destruct (decide (command = COMMAND_PADDING_CONTINUE)) as [E0|E0].
    + exists [k], None, [f]. split; [reflexivity|]. unfold framed, plain, padded, cont_bytes. cbn -[block_bytes]. rewrite !app_nil_r. split_and!; try done.
      * constructor; [|constructor]. split; [done|]. by rewrite Ec, E0.
      * constructor; [|constructor]. split; [change (total - off = zlen (bk_content k)); rewrite Eck, Hlen; lia|by rewrite Ec].
      * by repeat constructor.
      * by rewrite Eck, Hcut.
    + exists [], (Some k), [f]. split; [reflexivity|]. unfold framed, plain, padded, cont_bytes. cbn -[block_bytes]. rewrite !app_nil_r.
      assert (command = COMMAND_PADDING_END \/ command = COMMAND_PADDING_DIRECT) by (unfold COMMAND_PADDING_CONTINUE, COMMAND_PADDING_END, COMMAND_PADDING_DIRECT in *; lia).
      split_and!; try done.
      * constructor.
      * split; [done|]. by rewrite Ec.
      * constructor; [|constructor]. split; [change (total - off = zlen (bk_content k)); rewrite Eck, Hlen; lia|by rewrite Ec].
      * by repeat constructor.
      * by rewrite Eck, Hcut.
  - destruct (xtls_padding_total random_range (Some piece) COMMAND_PADDING_CONTINUE (vc_uplink_uuid_pending c) lp (vc_padding_seed c) (vc_rng c) H1 H3) as [[[out u] rng] Ex].
    rewrite Ex. cbn [mbind option_bind]. destruct (xtls_padding_block _ _ _ _ _ _ _ _ _ _ Ex) as (-> & k & Hk & Ec & Eck & ->); [cbn; lia|]. change (default [] (Some piece)) with piece in *.
    set (f := mkUpFrame _ 0 _ _). edestruct (IH e (add_frames None [f] rng c)) as (u' & rng' & ks & fin & fs & E & Hks & Hfin & Hc & Hfs & Hs & Ht & Hb & Hu); [lia|lia|done|done|].
    exists u', rng', (k :: ks), fin, (f :: fs). split.
    + unfold add_frames in E at 1. rewrite E. unfold add_frames. cbn. by rewrite <- app_assoc.
    + unfold framed, plain, padded, cont_bytes in *. cbn -[block_bytes] in Hb |- *. split_and!; try done.
      * constructor; [|done]. by rewrite Ec.
      * constructor; [|done]. split; [change (e - off = zlen (bk_content k)); rewrite Eck, Hlen; lia|by rewrite Ec].
      * by constructor.
      * by rewrite <- app_assoc, Eck, Ht, Hcut.
      * by rewrite Hb, <- !app_assoc.
Qed.
(** The queue after some of its head was written. *)
Lemma queued_written sent ks fin p c b f f' fs w b' : queued sent ks fin p c b -> vc_uplink_pending c = f :: fs ->
  uf_padded f' = uf_padded f -> uf_orig_len f' = uf_orig_len f -> uf_gate f' = uf_gate f -> 0 <= uf_sent f' <= zlen (uf_padded f) ->
  wh_wire w ++ zdrop (uf_sent f') (uf_padded f) = wh_wire (bl_inner b) ++ zdrop (uf_sent f) (uf_padded f) ->
  bl_inner b' = w -> bl_raw b' = bl_raw b -> bl_clone b' = bl_clone b ->
  queued sent ks fin p (vc_set_pending (f' :: fs) c) b'.
Proof.
  intros Hq E Ep Eo Eg Hs Ew Ei Er Ec. destruct Hq as [q1 q2 q3 q4 q5 q6 q7 q8 q9 q10 q11 q12]. rewrite E in *.
  constructor; cbn [vc_set_pending vc_set_write vc_padding_seed vc_uplink_padding vc_raw_fallback vc_raw_tcp vc_splice_armed vc_end_commit vc_uplink_pending vc_uplink_uuid_pending]; try done.
  - by rewrite Er, Ec.
  - inversion q7 as [|k ? ks' ? [Ho Hg] Hfs Ek]; subst. constructor; [|done]. split; congruence.
  - cbn [queue_ok] in q8 |- *. rewrite Ep. tauto.
  - rewrite <- q9, Ei. cbn [queue_bytes]. rewrite Ep, !app_assoc. by rewrite Ew.
Qed.

(** The head of the queue is out and nothing waits for it. *)
Lemma queued_pop sent k ks fin p c b f fs : queued sent (k :: ks) fin p c b -> vc_uplink_pending c = f :: fs -> uf_sent f = zlen (uf_padded f) ->
  queued (sent ++ [k]) ks fin (p + uf_orig_len f) (pop_frame c) b.
Proof.
  intros Hq E Es. destruct Hq as [q1 q2 q3 q4 q5 q6 q7 q8 q9 q10 q11 q12]. rewrite E in *. unfold pop_frame. rewrite E. cbn [tail].
  assert (El : (sent ++ [k]) ++ ks = sent ++ k :: ks) by (by rewrite <- app_assoc). inversion q7 as [|? ? ? ? [Ho Hg] Hfs]; subst. destruct q8 as [_ Hfresh].
  destruct (queue_fresh _ Hfresh) as [Eq Hqok].
  constructor; cbn [vc_set_pending vc_set_write vc_padding_seed vc_uplink_padding vc_raw_fallback vc_raw_tcp vc_splice_armed vc_end_commit vc_uplink_pending vc_uplink_uuid_pending]; rewrite ?El; try done.
  - cbn [queue_bytes] in q9. rewrite Es, zdrop_ge in q9 by lia. by rewrite Eq.
  - destruct q10 as [?|(_ & _ & [=] & _)]. by left.
  - rewrite map_app, concat_app. cbn. zlens. lia.
Qed.

(** The last frame of the queue ends the padding. *)
Lemma queued_end sent f0 p c b f : queued sent [] (Some f0) p c b -> vc_uplink_pending c = [f] -> uf_sent f = zlen (uf_padded f) ->
  forall c' b', vc_padding_seed c' = vc_padding_seed c -> vc_uplink_padding c' = false -> vc_uplink_pending c' = [] ->
  vc_raw_fallback c' = (bk_cmd f0 =? COMMAND_PADDING_DIRECT) && avail -> bl_inner b' = bl_inner b -> bl_raw b' = bl_raw b ->
  ended sent f0 [] (p + uf_orig_len f) c' b'.
Proof.
  intros Hq E Es c' b' H1 H2 H3 H4 H5 H6. destruct Hq as [q1 q2 q3 q4 q5 q6 q7 q8 q9 q10 q11 q12]. rewrite E in *. rewrite app_nil_r in *.
  cbn [last_of app] in q7. inversion q7 as [|? ? ? ? [Ho Hg] Hfs]; subst. cbn [queue_bytes map concat] in q9. rewrite Es, zdrop_ge, app_nil_r in q9 by lia.
  destruct q10 as [Eu|(_ & _ & _ & [=])]. rewrite Eu in q9.
  constructor; try done; rewrite ?H1, ?H4, ?H5, ?H6; try done.
  - by rewrite q9; destruct (_ && _).
  - destruct q3 as (_ & -> & _). by destruct (_ && _).
  - unfold plain. rewrite Ho. zlens. lia.
Qed.

Lemma drain_step sent ks fin p c b : queued sent ks fin p c b -> vc_uplink_pending c <> [] ->
  exists r c' b', drain_front c b = Some (r, c', b') /\ writing (accepted r p) c' b' /\
    (forall n, r = Ready n -> 0 <= n <= owed (vc_uplink_pending c)).
Proof.
  intros Hq Hne. destruct (vc_uplink_pending c) as [|f fs] eqn:E; [done|]. unfold drain_front. rewrite E.
  destruct (write_front (wh_polls (bl_inner b)) (wh_wire (bl_inner b)) f) as [[r f'] w] eqn:Ew.
  pose proof (q_queue _ _ _ _ _ _ Hq) as Hqok. rewrite E in Hqok. destruct Hqok as [Hs Hfs].
  destruct (write_front_spec _ _ _ _ _ _ Ew Hs) as (E1 & E2 & E3 & E4 & E5 & E6).
  assert (Hq' : forall b', bl_inner b' = w -> bl_raw b' = bl_raw b -> bl_clone b' = bl_clone b -> queued sent ks fin p (vc_set_pending (f' :: fs) c) b').
  { intros b' H1 H2 H3. by eapply queued_written. }
  assert (Hown : 0 <= uf_orig_len f' <= owed (f :: fs)).
  { pose proof (q_frames _ _ _ _ _ _ Hq) as Hf. rewrite E in Hf. rewrite E2. inversion Hf as [|k ? ks' ? [Ho Hg] Hrest]; subst. rewrite Ho.
    pose proof (owed_contents _ _ Hrest) as Eo. cbn [owed foldr]. fold (owed fs). rewrite Eo, Ho. pose proof (zlen_nonneg (bk_content k)). pose proof (zlen_nonneg (concat (map bk_content ks'))). lia. }
  destruct r as [[]| |].
  2: { eexists _, _, _. split_and!; [reflexivity|by eapply writing_queued, Hq'|done]. }
  2: { eexists _, _, _. split_and!; [reflexivity|by eapply writing_queued, Hq'|done]. }
  specialize (E6 eq_refl). rewrite <- E1 in E6. pose proof (q_frames _ _ _ _ _ _ Hq) as Hfr. rewrite E in Hfr.
  destruct ks as [|k ks].
  - destruct fin as [f0|]; [|by inversion Hfr]. cbn [last_of app] in Hfr. inversion Hfr as [|? ? ? ? [Ho Hg] Hrest]; subst. inversion Hrest; subst.
    rewrite E3, Hg. pose proof (q_fin _ _ _ _ _ _ Hq) as [Hok Hcmd]. destruct (q_flags _ _ _ _ _ _ Hq) as [Ha He]. destruct (q_raw _ _ _ _ _ _ Hq) as (Hr1 & Hr2 & Hr3).
    unfold fin_is in Ha, He.
    destruct Hcmd as [Ec|Ec]; rewrite Ec in Ha, He |- *; cbn [gate_of Z.eqb Pos.eqb COMMAND_PADDING_END COMMAND_PADDING_DIRECT] in Ha, He |- *; cbn [pass_gate]; unfold poll_arm_gate; cbn [vc_set_pending vc_set_write vc_splice_armed]; rewrite ?Ha; unfold poll_inner_flush; cbn [bl_set_inner bl_flush].
    + destruct (bl_flush b) as [|[[]| |] fl]; cbn [bl_inner bl_raw bl_clone bl_delay].
      1, 3, 4: eexists _, _, _; split_and!; [reflexivity|by eapply writing_queued, Hq'|done].
      eexists _, _, _. split_and!; [reflexivity| |by intros n [= <-]]. eapply writing_ended. cbn [accepted].
      eapply (queued_end sent f0 p _ (bl_set_inner w b) f'); [by apply Hq'|done|done|done|done|done| |done|done].
      cbn. by rewrite Ec, Hr1.
    + destruct (bl_flush b) as [|[[]| |] fl]; cbn [bl_inner bl_raw bl_clone bl_delay].
      1, 3, 4: eexists _, _, _; split_and!; [reflexivity|by eapply writing_queued, Hq'|done].
      eexists _, _, _. split_and!; [reflexivity| |by intros n [= <-]]. eapply writing_ended. cbn [accepted].
      eapply (queued_end sent f0 p _ (bl_set_inner w b) f'); [by apply Hq'|done|done| | | | |done|done].
      all: unfold arm_splice_raw, pop_frame; cbn; rewrite ?Ha, ?Hr1; cbn; try done. unfold take_raw. cbn. by rewrite Ec, Hr3.
  - cbn [app] in Hfr. inversion Hfr as [|? ? ? ? [Ho Hg] Hrest]; subst. pose proof (q_conts _ _ _ _ _ _ Hq) as Hc. apply Forall_app in Hc as [_ Hc].
    apply Forall_cons_iff in Hc as [[_ Ek] _]. rewrite E3, Hg, Ek. cbn [gate_of Z.eqb COMMAND_PADDING_CONTINUE COMMAND_PADDING_END COMMAND_PADDING_DIRECT pass_gate].
    eexists _, _, _. split_and!; [reflexivity| |by intros n [= <-]]. eapply writing_queued. cbn [accepted].
    eapply (queued_pop sent k ks fin p _ _ f'); [by apply Hq'|done|done].
Qed.
Lemma batch_command_spec bufs total probe traffic c : bytes_ok (concat bufs) ->
  exists command lp, batch_command bufs total probe traffic c = Some (command, lp) /\ (command = 0 \/ command = 1 \/ command = 2).
Proof.
  intros Hb. unfold batch_command. destruct (complete_slices_total bufs Hb) as (w & E & _). rewrite E.
  destruct (is_app_data total probe && ts_is_tls _); cbn [mbind option_bind]; eexists _, _; (split; [reflexivity|]);
    unfold COMMAND_PADDING_DIRECT, COMMAND_PADDING_END, COMMAND_PADDING_CONTINUE; repeat case_match; tauto.
Qed.

(** A batch framed behind an empty queue. *)
Lemma frame_batch_step sent p c b bufs : queued sent [] None p c b -> offers bufs p c -> concat bufs <> [] ->
  exists c' ks fin, frame_batch random_range bufs c = Some c' /\ queued sent ks fin p c' b /\ vc_uplink_pending c' <> [] /\ owed (vc_uplink_pending c') = zlen (concat bufs).
Proof.
  intros Hq [Hpre _] Hne. assert (Hb : bytes_ok (concat bufs)) by (destruct Hpre as [x Hx]; pose proof (zdrop_Forall _ p input input_ok) as H; rewrite Hx in H; by apply Forall_app in H as [? _]).
  unfold frame_batch. rewrite total_len_concat. set (traffic := if 0 <? _ then _ else _).
  destruct (batch_command_spec bufs (zlen (concat bufs)) (copy_io_slice_span bufs 0 0 (Z.min (zlen (concat bufs)) MAX_PADDING_CONTENT)) traffic c Hb) as (command & lp & -> & Hcmd).
  cbn [mbind option_bind]. set (c0 := vc_set_write _ _ _ _ traffic _ _ _ _ _ c). destruct Hq as [q1 q2 q3 q4 q5 q6 q7 q8 q9 q10 q11 q12].
  assert (0 < zlen (concat bufs)) by (destruct (concat bufs); [done|zlia]).
  destruct (frame_pieces_spec (S (Z.to_nat (zlen (concat bufs)))) bufs command lp Hcmd 0 c0) as (u & rng & ks & fin & fs & -> & Hks & Hfin & Hc & Hfr & Hs & Ht & Hw & ->); [lia|lia|apply q1|apply q1|].
  cbn [mbind option_bind]. change (zdrop 0 (concat bufs)) with (concat bufs) in Ht. apply Forall2_nil_inv_l in q7 as Ep. subst p. change (vc_uplink_uuid_pending c0) with (vc_uplink_uuid_pending c) in Hw.
  rewrite app_nil_r in *. destruct (queue_fresh fs Hs) as [Eq Hqok].
  assert (Epl : plain (sent ++ ks) fin [] = concat (map bk_content sent) ++ concat bufs) by (unfold plain in *; rewrite map_app, concat_app, <- app_assoc, Ht; done).
  assert (Epd : padded (sent ++ ks) fin [] = cont_bytes sent ++ padded ks fin []) by (unfold padded, cont_bytes; by rewrite map_app, concat_app, <- app_assoc).
  eexists _, ks, fin. split; [reflexivity|]. match goal with |- context [queued _ _ _ _ ?x _] => set (c' := x) end.
  assert (Epend : vc_uplink_pending c' = fs) by (subst c'; cbn [add_frames vc_set_write vc_uplink_pending]; change (vc_uplink_pending c0) with (vc_uplink_pending c); by rewrite Ep).
  assert (Euuid : vc_uplink_uuid_pending c' = None) by done. rewrite Epend. split_and!.
  - constructor; rewrite ?Epend, ?Euuid; try done.
    + destruct q4 as [E1 E2]. destruct fin as [f|]; cbn [fin_cmd fin_is] in *.
      * destruct Hc as [-> [-> | ->]]; cbn; by rewrite ?E1, ?E2.
      * unfold c'. cbn [vc_splice_armed vc_end_commit vc_set_write add_frames]. rewrite Hc. by split.
    + apply Forall_app. done.
    + rewrite Eq, Hw, Epd. rewrite Ep in q9. cbn [queue_bytes] in q9. rewrite app_nil_r in q9. rewrite q9. unfold padded at 1. rewrite app_nil_r.
      destruct q10 as [-> | (-> & -> & _)]; cbn [default from_option]; [by rewrite <- !app_assoc|done].
    + by left.
    + rewrite Epl. destruct Hpre as [x Hx]. exists x. unfold plain in q11. cbn in q11. rewrite app_nil_r in q11. rewrite (prefix_ztake _ _ q11) at 1. rewrite <- app_assoc, <- Hx. symmetry. apply ztake_drop.
  - intros ->. inversion Hfr as [E0|]. destruct ks; [|done]. destruct fin; [done|]. cbn in Ht. by rewrite <- Ht in Hne.
  - rewrite (owed_contents _ _ Hfr), map_app, concat_app, <- Ht. unfold plain. do 2 f_equal. destruct fin; cbn; [by rewrite app_nil_r|done].
Qed.

Lemma poll_write_some_spec bs w : exists r w', poll_write_some bs w = (r, w') /\
  ((exists n, r = Ready n /\ 0 <= n <= zlen bs /\ wh_wire w' = wh_wire w ++ ztake n bs) \/ ((r = Pending \/ r = PollErr) /\ wh_wire w' = wh_wire w)).
Proof.
  unfold poll_write_some. pose proof (zlen_nonneg bs). destruct (wh_polls w) as [|[n| |] polls]; eexists _, _; (split; [reflexivity|]); [right; tauto| |right; tauto..].
  left. eexists. split_and!; [reflexivity|lia|lia|done].
Qed.

(** Plain bytes go on to where the padding left them. *)
Lemma ended_more ks f rest p c b n bs : ended ks f rest p c b -> bs `prefix_of` zdrop p input -> 0 <= n <= zlen bs ->
  plain ks (Some f) (rest ++ ztake n bs) `prefix_of` input /\ zlen (plain ks (Some f) (rest ++ ztake n bs)) = p + n.
Proof.
  intros [_ _ _ _ _ _ _ e8 e9] [x Hx] Hn.
  assert (Epl : plain ks (Some f) (rest ++ ztake n bs) = plain ks (Some f) rest ++ ztake n bs) by (unfold plain; by rewrite <- !app_assoc).
  rewrite Epl. split; [|zlens; lia]. exists (zdrop n bs ++ x). rewrite <- (ztake_drop p input) at 1. rewrite Hx, <- e9. rewrite <- (prefix_ztake _ _ e8).
  rewrite <- !app_assoc. f_equal. by rewrite app_assoc, ztake_drop.
Qed.

Lemma ended_clear ks f rest p c b : ended ks f rest p c b -> ended ks f rest p (vc_clear_gate c) b.
Proof. intros []. by constructor. Qed.

Lemma ended_inner ks f rest p c b n bs w : ended ks f rest p c b -> bs `prefix_of` zdrop p input -> 0 <= n <= zlen bs ->
  vc_raw_fallback c = false -> wh_wire w = wh_wire (bl_inner b) ++ ztake n bs -> ended ks f (rest ++ ztake n bs) (p + n) c (bl_set_inner w b).
Proof.
  intros He Hpre Hn Er Ew. destruct (ended_more _ _ _ _ _ _ _ _ He Hpre Hn) as [H1 H2]. destruct He. constructor; try done; rewrite Er in *; [|done].
  cbn. rewrite Ew, e_inner0. unfold padded. by rewrite <- !app_assoc.
Qed.

Lemma ended_raw ks f rest p c b n bs w : ended ks f rest p c b -> bs `prefix_of` zdrop p input -> 0 <= n <= zlen bs ->
  vc_raw_fallback c = true -> wh_wire w = wh_wire (bl_raw b) ++ ztake n bs -> ended ks f (rest ++ ztake n bs) (p + n) c (bl_set_raw w b).
Proof.
  intros He Hpre Hn Er Ew. destruct (ended_more _ _ _ _ _ _ _ _ He Hpre Hn) as [H1 H2]. destruct He. constructor; try done; rewrite Er in *; [done|].
  cbn. by rewrite Ew, e_wire0.
Qed.

Lemma ended_same_inner ks f rest p c b w : ended ks f rest p c b -> wh_wire w = wh_wire (bl_inner b) -> ended ks f rest p c (bl_set_inner w b).
Proof. intros [] Ew. constructor; try done. cbn. by rewrite Ew. Qed.
Lemma ended_same_raw ks f rest p c b w : ended ks f rest p c b -> wh_wire w = wh_wire (bl_raw b) -> ended ks f rest p c (bl_set_raw w b).
Proof. intros [] Ew. constructor; try done. cbn. by rewrite Ew. Qed.
Lemma ended_delay ks f rest p c b d : ended ks f rest p c b -> ended ks f rest p c (bl_set_delay d b).
Proof. intros []. by constructor. Qed.

Lemma plain_step ks f rest p c b bufs : ended ks f rest p c b -> concat bufs `prefix_of` zdrop p input ->
  exists r c' b', write_plain bufs c b = (r, c', b') /\ writing (accepted r p) c' b' /\ (forall n, r = Ready n -> 0 <= n <= zlen (concat bufs)).
Proof.
  intros He Hpre. unfold write_plain. destruct (vc_raw_fallback c) eqn:Er.
  - assert (Hgo : forall c1 b1, ended ks f rest p c1 b1 -> vc_raw_fallback c1 = true -> exists r c' b', (let '(r, w) := poll_write_some (concat bufs) (bl_raw b1) in (r, c1, bl_set_raw w b1)) = (r, c', b') /\
      writing (accepted r p) c' b' /\ (forall n, r = Ready n -> 0 <= n <= zlen (concat bufs))).
    { intros c1 b1 H1 Er1. destruct (poll_write_some_spec (concat bufs) (bl_raw b1)) as (r & w & -> & [(n & -> & Hn & Ew)|[Hr Ew]]); eexists _, _, _; (split; [reflexivity|]).
      - split; [|by intros m [= <-]]. eapply writing_ended. by eapply ended_raw.
      - split; [|by destruct Hr as [-> | ->]]. eapply writing_ended. destruct Hr as [-> | ->]; by apply ended_same_raw. }
    destruct (vc_raw_write_gate c); [|by apply Hgo]. destruct (bl_delay b) as [|[] d].
    + eexists _, _, _. split; [reflexivity|]. split; [by eapply writing_ended|done].
    + apply Hgo; [by apply ended_delay, ended_clear|done].
    + eexists _, _, _. split; [reflexivity|]. split; [eapply writing_ended; by apply ended_delay|done].
  - destruct (poll_write_some_spec (concat bufs) (bl_inner b)) as (r & w & -> & [(n & -> & Hn & Ew)|[Hr Ew]]); eexists _, _, _; (split; [reflexivity|]).
    + split; [|by intros m [= <-]]. eapply writing_ended. by eapply ended_inner.
    + split; [|by destruct Hr as [-> | ->]]. eapply writing_ended. destruct Hr as [-> | ->]; by apply ended_same_inner.
Qed.

(** Every poll of a write whose caller offers again what it still owes: an answer, never a
    panic, and the wires hold what was accepted. *)
Lemma poll_write_step p c b bufs : writing p c b -> offers bufs p c ->
  exists r c' b', VisionConn_poll_write_vectored random_range bufs c b = Some (r, c', b') /\ writing (accepted r p) c' b' /\
    (forall n, r = Ready n -> 0 <= n <= zlen (concat bufs)).
Proof.
  intros [sent ks fin Hq|ks f rest He] Hoff; unfold VisionConn_poll_write_vectored.
  - destruct (vc_uplink_pending c) as [|g gs] eqn:E.
    + unfold drain_front at 1. rewrite E. rewrite (q_padding _ _ _ _ _ _ Hq). cbn [negb].
      assert (ks = [] /\ fin = None) as [-> ->].
      { pose proof (q_frames _ _ _ _ _ _ Hq) as Hf. rewrite E in Hf. apply Forall2_nil_inv_r in Hf. destruct ks; [|done]. by destruct fin. }
      rewrite total_len_concat. destruct (Z.eqb_spec (zlen (concat bufs)) 0) as [Hz|Hz].
      { eexists _, _, _. split_and!; [reflexivity|cbn [accepted]; rewrite Z.add_0_r; by eapply writing_queued|intros n [= <-]; lia]. }
      destruct (frame_batch_step sent p c b bufs Hq Hoff) as (c' & ks' & fin' & -> & Hq' & Hne & Eo); [intros E0; by rewrite E0 in Hz|]. cbn [mbind option_bind].
      destruct (drain_step sent ks' fin' p c' b Hq' Hne) as (r & c2 & b2 & -> & Hw & Hn). eexists _, _, _. split_and!; [reflexivity|done|]. rewrite <- Eo. done.
    + destruct (drain_step sent ks fin p c b Hq) as (r & c' & b' & -> & Hw & Hn); [by rewrite E|]. eexists _, _, _. split_and!; [reflexivity|done|].
      intros n En. pose proof (Hn n En). destruct Hoff as [_ Ho]. lia.
  - unfold drain_front. rewrite (e_queue _ _ _ _ _ _ He), (e_padding _ _ _ _ _ _ He). cbn [negb].
    destruct (plain_step ks f rest p c b bufs He (proj1 Hoff)) as (r & c' & b' & -> & H). by eexists _, _, _.
Qed.

(** A caller of the writer. *)
Inductive writes : Z -> VisionConn Rng -> Below -> Z -> VisionConn Rng -> Below -> Prop :=
| writes_none p c b : writes p c b p c b
| writes_poll p c b bufs r c1 b1 p' c' b' : offers bufs p c -> VisionConn_poll_write_vectored random_range bufs c b = Some (r, c1, b1) ->
    writes (accepted r p) c1 b1 p' c' b' -> writes p c b p' c' b'.

Lemma writes_writing p c b p' c' b' : writes p c b p' c' b' -> writing p c b -> writing p' c' b'.
Proof.
  induction 1 as [|p c b bufs r c1 b1 p' c' b' Hoff E _ IH]; [done|]. intros Hw. apply IH.
  destruct (poll_write_step p c b bufs Hw Hoff) as (r2 & c2 & b2 & E2 & Hw2 & _). rewrite E in E2. by injection E2 as -> -> ->.
Qed.
End writer.

(** * From one end to the other *)

Section ends.
Context {Rng : Type}.
Variable random_range : Z -> Rng -> Z * Rng.

Definition fresh (server : bool) (uuid : bytes) (seed : list Z) (rng : Rng) : VisionConn Rng :=
  with_padding_seed seed (if server then VisionConn_new_server uuid rng else VisionConn_new uuid rng).

Lemma fresh_writing server uuid seed rng input b :
  normalize_padding_seed seed @ 1 <> 0 -> normalize_padding_seed seed @ 3 <> 0 -> wh_wire (bl_inner b) = [] -> wh_wire (bl_raw b) = [] ->
  writing uuid input (server || bl_clone b) 0 (fresh server uuid seed rng) b.
Proof.
  intros H1 H3 Hi Hr. eapply (writing_queued _ _ _ _ _ _ [] [] None). unfold fresh.
  assert (Hc : conts_ok []) by constructor. destruct server; constructor; cbn; rewrite ?Hi, ?Hr; try done; try (by right); apply prefix_nil.
Qed.

Lemma clean_shift at_ d evs : forall pos, clean_cuts at_ pos evs -> clean_cuts (at_ + d) (pos + d) evs.
Proof.
  induction evs as [|e evs IH]; intros pos H; [constructor|]. destruct e as [bs| |]; unfold clean_cuts in *; cbn [cuts] in *; [|by apply IH..].
  apply Forall_cons_iff in H as [H1 H2]. constructor; [lia|]. replace (pos + d + zlen bs) with (pos + zlen bs + d) by lia. by apply IH.
Qed.

Lemma first_chunk_some evs : first_chunk evs -> stream_bytes evs <> [].
Proof.
  induction evs as [|[bs| |] evs IH]; cbn [first_chunk]; try done.
  intros H E. rewrite stream_bytes_cons in E. cbn [event_bytes] in E. apply app_eq_nil in E as [-> _]. by zlens.
Qed.

Lemma plain_prefix ks fin rest input p : plain ks fin rest `prefix_of` input -> zlen (plain ks fin rest) = p -> plain ks fin rest = ztake p input.
Proof. intros H <-. by apply prefix_ztake. Qed.

(** A read of all of it does not end within the last header. *)
Lemma sent_clean uuid input avail sent ks fin p (c : VisionConn Rng) b : queued uuid input avail sent ks fin p c b -> zlen uuid = 16 -> vc_uplink_pending c = [] ->
  clean_cuts (16 + zlen (cont_bytes sent)) 0 [Data (wh_wire (bl_inner b))].
Proof.
  intros Hq Hu Hp. destruct Hq as [_ _ _ _ _ _ Hf _ Hw Hid _ _]. rewrite Hp in *. apply Forall2_nil_inv_r in Hf. apply app_eq_nil in Hf as [-> Ef]. destruct fin; [done|].
  cbn [queue_bytes] in Hw. unfold padded in Hw. rewrite !app_nil_r in Hw. repeat constructor. rewrite Hw. zlens.
  destruct Hid as [-> | (-> & _)]; zlens; pose proof (zlen_nonneg (cont_bytes sent)); lia.
Qed.
Lemma ended_clean uuid input avail ks f rest p (c : VisionConn Rng) b : ended uuid input avail ks f rest p c b -> zlen uuid = 16 ->
  clean_cuts (16 + zlen (cont_bytes ks)) 0 [Data (wh_wire (bl_inner b))].
Proof.
  intros He Hu. repeat constructor. rewrite (e_inner _ _ _ _ _ _ _ _ _ He). unfold padded. zlens. pose proof (block_len f). pose proof (zlen_nonneg (if vc_raw_fallback c then [] else rest)). lia.
Qed.

(** What the writer left on the wires is what a fresh reader gives out. *)
Lemma written_reading uuid input avail p (c : VisionConn Rng) b : writing uuid input avail p c b -> zlen uuid = 16 -> vc_uplink_pending c = [] ->
  exists at_, clean_cuts at_ 0 [Data (wh_wire (bl_inner b))] /\ forall server seed (rng : Rng) clone evs raw, server || clone = avail ->
    stream_bytes evs = wh_wire (bl_inner b) -> stream_bytes raw = wh_wire (bl_raw b) ->
    quiet evs -> quiet raw -> first_chunk evs -> clean_cuts at_ 0 evs ->
    reading clone evs raw (fresh server uuid seed rng) (ztake p input).
Proof.
  intros Hw Hu Hp.
  assert (Hstart : forall ks fin rest more, conts_ok ks -> stream_bytes more = uuid ++ padded ks fin rest -> clean_cuts (16 + zlen (cont_bytes ks)) 0 more -> first_chunk more -> quiet more ->
    forall server seed (rng : Rng) clone raw, quiet raw -> end_ok clone fin rest (fresh server uuid seed rng) ->
    reading clone more raw (fresh server uuid seed rng) (plain ks fin rest ++ raw_after clone fin raw (fresh server uuid seed rng))).
  { intros ks fin rest more Hks E Hcl Hfc Hq server seed rng clone raw Hqr Hend.
    apply (clean_shift _ (-16)) in Hcl. replace (16 + zlen (cont_bytes ks) + -16) with (zlen (cont_bytes ks)) in Hcl by lia.
    econstructor; [by left; destruct server|done|done| |].
    - eapply (future_fresh clone more raw _ ks fin rest); (done || by destruct server).
    - by destruct server. }
  destruct Hw as [sent ks fin Hq|ks f rest He].
  - exists (16 + zlen (cont_bytes sent)). split; [by eapply sent_clean|]. intros server seed rng clone evs raw Hav Ei Er Hqi Hqr Hfc Hcl. destruct Hq as [q1 q2 q3 q4 q5 q6 q7 q8 q9 q10 q11 q12].
    rewrite Hp in *. apply Forall2_nil_inv_r in q7. apply app_eq_nil in q7 as [-> Ef]. destruct fin; [done|]. rewrite app_nil_r in *. cbn [queue_bytes] in q9. rewrite app_nil_r in q9. rewrite q9 in Ei.
    destruct q10 as [E0|(E0 & -> & _)]; rewrite E0 in Ei; [|by apply first_chunk_some in Hfc].
    assert (Et : plain sent None [] = ztake p input) by (apply plain_prefix; [done|unfold plain; by rewrite app_nil_r]). rewrite <- Et, <- (app_nil_r (plain sent None [])).
    change [] with (raw_after clone None raw (fresh server uuid seed rng)) at 2. by apply Hstart.
  - exists (16 + zlen (cont_bytes ks)). split; [by eapply ended_clean|]. intros server seed rng clone evs raw Hav Ei Er Hqi Hqr Hfc Hcl. destruct He as [e1 e2 e3 e4 e5 e6 e7 e8 e9].
    rewrite e6 in Ei. rewrite e7 in Er. rewrite <- (plain_prefix _ _ _ _ _ e8 e9).
    assert (Hg : goes_raw clone (bk_cmd f) (fresh server uuid seed rng) = vc_raw_fallback c).
    { unfold goes_raw. rewrite e4. destruct (bk_cmd f =? COMMAND_PADDING_DIRECT); destruct server; cbn in *; congruence. }
    assert (Epl : plain ks (Some f) rest = plain ks (Some f) (if vc_raw_fallback c then [] else rest) ++ raw_after clone (Some f) raw (fresh server uuid seed rng)).
    { unfold raw_after. rewrite Hg, Er. unfold plain. destruct (vc_raw_fallback c); rewrite <- !app_assoc; cbn [app]; by rewrite ?app_nil_r. }
    rewrite Epl. apply Hstart; try done; [apply e5|]. split; [apply e5|]. rewrite Hg. by intros ->.
Qed.

End ends.
