(* ===== verification/Uuid.v ===== *)
(** [xray-common/src/uuid/mod.rs]: the user ids of VLESS and VMess.

    A [String] is its UTF-8 bytes.  The digests of the crates [sha1] and [md5] are the
    class [UuidHash]; the random bytes of a new id are an argument.  [None] where a
    function of Rust returns no option is a panic. *)
From Stdlib Require Import String.
From stdpp Require Import base tactics option list numbers.
From S2P Require Import Prelude Bytes StrMatch.

Class UuidHash := { sha1 : bytes -> bytes; uuid_md5 : bytes -> bytes }.

Definition UUID : Type := bytes.

(** [UUID::new] with the bytes the generator gave. *)
Definition UUID_new (random : bytes) : UUID :=
  <[8%nat := Z.lor (Z.land (random @ 8) 63) 128]> (<[6%nat := Z.lor (Z.land (random @ 6) 15) 64]> random).

Definition UUID_from_bytes (b : bytes) : UUID := b.
Definition UUID_as_bytes (u : UUID) : bytes := u.

(** * Printing *)

(** [{:02x}] *)
Definition hex_char (n : Z) : Z := if n <? 10 then 48 + n else 87 + n.
Definition hex_byte (b : Z) : bytes := [hex_char (Z.shiftr b 4); hex_char (Z.land b 15)].
Definition hex_bytes (l : bytes) : bytes := concat (map hex_byte l).

Definition DASH : Z := 45.

Definition UUID_to_string (u : UUID) : bytes :=
  hex_bytes u[: 0, 4] ++ [DASH] ++ hex_bytes u[: 4, 6] ++ [DASH] ++ hex_bytes u[: 6, 8] ++ [DASH]
  ++ hex_bytes u[: 8, 10] ++ [DASH] ++ hex_bytes u[: 10, 16].

(** * Parsing *)

(** The white space at the head of a string, in bytes: [char::is_whitespace]. *)
Definition whitespace (l : bytes) : nat :=
  match l with
  | b :: r =>
      if (9 <=? b) && (b <=? 13) || (b =? 32) then 1%nat
      else
        match r with
        | c :: r =>
            if (b =? 194) && ((c =? 133) || (c =? 160)) then 2%nat
            else
              match r with
              | d :: _ =>
                  if (b =? 225) && (c =? 154) && (d =? 128) then 3%nat
                  else if (b =? 226) && (c =? 128) && ((128 <=? d) && (d <=? 138) || (d =? 168) || (d =? 169) || (d =? 175)) then 3%nat
                  else if (b =? 226) && (c =? 129) && (d =? 159) then 3%nat
                  else if (b =? 227) && (c =? 128) && (d =? 128) then 3%nat
                  else 0%nat
              | [] => 0%nat
              end
        | [] => 0%nat
        end
  | [] => 0%nat
  end.

(** The white space at the end: a character of one, two or three bytes. *)
Definition trailing (l : bytes) : nat :=
  let n := List.length l in
  if (0 <? n)%nat && (whitespace (drop (n - 1) l) =? 1)%nat then 1%nat
  else if (1 <? n)%nat && (whitespace (drop (n - 2) l) =? 2)%nat then 2%nat
  else if (2 <? n)%nat && (whitespace (drop (n - 3) l) =? 3)%nat then 3%nat
  else 0%nat.

(** [str::trim]; every turn takes a byte, so the length is fuel enough. *)
Fixpoint trim_start (fuel : nat) (l : bytes) : bytes :=
  match fuel with
  | O => l
  | S fuel => match whitespace l with O => l | n => trim_start fuel (drop n l) end
  end.

Fixpoint trim_end (fuel : nat) (l : bytes) : bytes :=
  match fuel with
  | O => l
  | S fuel => match trailing l with O => l | n => trim_end fuel (take (List.length l - n) l) end
  end.

Definition trim (l : bytes) : bytes := let l := trim_start (List.length l) l in trim_end (List.length l) l.

(** [str::is_char_boundary] *)
Definition is_char_boundary (s : bytes) (i : Z) : bool :=
  (i =? 0) || (i =? zlen s) || ((i <? zlen s) && negb ((128 <=? s @ i) && (s @ i <? 192))).

(** [char::to_digit(16)] of a byte. *)
Definition hex_digit (b : Z) : option Z :=
  if (48 <=? b) && (b <=? 57) then Some (b - 48)
  else if (97 <=? b) && (b <=? 102) then Some (b - 87)
  else if (65 <=? b) && (b <=? 70) then Some (b - 55)
  else None.

(** [u8::from_str_radix(s, 16)] of two bytes: a leading [+] is a sign. *)
Definition from_hex2 (a b : Z) : option Z :=
  if a =? 43 then hex_digit b
  else x ← hex_digit a; y ← hex_digit b; Some (x * 16 + y).

(** [for i in 0..16]: from the [i]th pair on, [n] pairs left. *)
Fixpoint parse_pairs (n : nat) (i : Z) (hex : bytes) : option (option bytes) :=
  match n with
  | O => Some (Some [])
  | S n =>
      if is_char_boundary hex (i * 2) && is_char_boundary hex (i * 2 + 2) then
        match from_hex2 (hex @ (i * 2)) (hex @ (i * 2 + 1)) with
        | None => Some None
        | Some b => r ← parse_pairs n (i + 1) hex; Some (match r with Some bs => Some (b :: bs) | None => None end)
        end
      else None
  end.

Section parse.
Context `{!UuidHash}.

(** The outer [None] is the panic of a slice within a character. *)
Definition UUID_parse (input : bytes) : option (option UUID) :=
  let s := trim input in
  let hex := List.filter (fun c => negb (c =? DASH)) s in
  if (32 <=? zlen s) && (zlen s <=? 36) && (zlen hex =? 32) then parse_pairs 16 0 hex
  else if (zlen s =? 0) || (30 <? zlen s) then Some None
  else
    let u := ztake 16 (sha1 (zrepeat 16 0 ++ s)) in
    Some (Some (<[8%nat := Z.lor (Z.land (u @ 8) 63) 128]> (<[6%nat := Z.lor (Z.land (u @ 6) 15) 80]> u))).

Definition cmd_key (u : UUID) : bytes := uuid_md5 (UUID_to_string u).
End parse.

(** * Round trip *)

Definition uuid_ok (u : UUID) : Prop := bytes_ok u /\ zlen u = 16.

Lemma nibbles b : is_u8 b -> 0 <= Z.shiftr b 4 < 16 /\ 0 <= Z.land b 15 < 16 /\ Z.shiftr b 4 * 16 + Z.land b 15 = b.
Proof.
  unfold is_u8. intros H. rewrite Z.shiftr_div_pow2 by lia. change 15 with (Z.ones 4). rewrite Z.land_ones by lia. change (2 ^ 4) with 16.
  pose proof (Z.mod_pos_bound b 16). pose proof (Z.div_mod b 16). pose proof (Z.div_lt_upper_bound b 16 16). pose proof (Z.div_pos b 16). lia.
Qed.

Lemma hex_char_digit n : 0 <= n < 16 -> hex_digit (hex_char n) = Some n /\ 48 <= hex_char n < 128.
Proof. unfold hex_digit, hex_char. intros H. zcases; (split; [f_equal; lia|lia]). Qed.

Lemma from_hex_byte b : is_u8 b -> exists x y, hex_byte b = [x; y] /\ from_hex2 x y = Some b /\ 48 <= x < 128 /\ 48 <= y < 128.
Proof.
  intros H. destruct (nibbles b H) as (H1 & H2 & E). destruct (hex_char_digit _ H1) as [E1 R1]. destruct (hex_char_digit _ H2) as [E2 R2].
  eexists _, _. split; [reflexivity|]. unfold from_hex2. rewrite (proj2 (Z.eqb_neq _ 43)) by lia. rewrite E1, E2. cbn [mbind option_bind]. by rewrite E.
Qed.

Definition hexish (l : bytes) : Prop := Forall (fun c => 48 <= c < 128) l.

Lemma hexish_2 x y l : 48 <= x < 128 -> 48 <= y < 128 -> hexish l -> hexish (x :: y :: l).
Proof. intros. constructor; [done|]. by constructor. Qed.

Lemma hex_bytes_spec l : bytes_ok l -> hexish (hex_bytes l) /\ zlen (hex_bytes l) = 2 * zlen l.
Proof.
  induction 1 as [|b l Hb _ [IH1 IH2]]; [split; [constructor|done]|]. destruct (from_hex_byte b Hb) as (x & y & E & _ & Hx & Hy).
  unfold hex_bytes in *. cbn [map concat]. rewrite E. cbn [app]. split; [by apply hexish_2|]. zlens. lia.
Qed.

Lemma boundary_ok l i : hexish l -> 0 <= i <= zlen l -> is_char_boundary l i = true.
Proof.
  intros H Hi. unfold is_char_boundary. destruct (Z.eqb_spec i 0); [done|]. destruct (Z.eqb_spec i (zlen l)); [done|]. cbn [orb].
  rewrite (proj2 (Z.ltb_lt i _)) by lia. cbn [andb]. assert (Hb : 48 <= l @ i < 128).
  { unfold byte_at. unfold hexish in H. rewrite Forall_forall in H. apply H, nth_In. unfold zlen in *. lia. }
  by rewrite (proj2 (Z.leb_gt 128 _)) by lia.
Qed.

Lemma parse_pairs_hex l : forall pre i, bytes_ok l -> hexish pre -> zlen pre = 2 * i -> 0 <= i ->
  parse_pairs (length l) i (pre ++ hex_bytes l) = Some (Some l).
Proof.
  induction l as [|b l IH]; intros pre i Hl Hpre Hi Hi0; [done|]. apply Forall_cons_iff in Hl as [Hb Hl].
  destruct (from_hex_byte b Hb) as (x & y & E & Ef & Hx & Hy). cbn [length parse_pairs]. unfold hex_bytes. cbn [map concat]. fold (hex_bytes l). rewrite E.
  destruct (hex_bytes_spec l Hl) as [Hh Hz]. assert (Hall : hexish (pre ++ [x; y] ++ hex_bytes l)) by (apply Forall_app; split; [done|by apply hexish_2]).
  pose proof (zlen_nonneg l). rewrite !boundary_ok by (done || (zlens; lia)). cbn [andb].
  rewrite (byte_at_skip pre _ (i * 2)), (byte_at_skip pre _ (i * 2 + 1)) by lia. replace (i * 2 - zlen pre) with 0 by lia. replace (i * 2 + 1 - zlen pre) with 1 by lia. change (([x; y] ++ hex_bytes l) @ 0) with x. change (([x; y] ++ hex_bytes l) @ 1) with y.
  rewrite Ef. rewrite app_assoc. rewrite IH; [done|done|apply Forall_app; split; [done|apply hexish_2; [done|done|constructor]]|zlens; lia|lia].
Qed.

(** Text without white space at its ends is left as it is. *)
Lemma trim_hexish l : Forall (fun c => 33 <= c < 128) l -> trim l = l.
Proof.
  intros H. assert (Hw : forall c r, 33 <= c < 128 -> whitespace (c :: r) = 0%nat).
  { intros c r Hc. cbn [whitespace]. assert (E : (9 <=? c) && (c <=? 13) || (c =? 32) = false) by zcases. rewrite E.
    assert (E1 : (c =? 194) = false) by zcases. assert (E2 : (c =? 225) = false) by zcases. assert (E3 : (c =? 226) = false) by zcases. assert (E4 : (c =? 227) = false) by zcases.
    rewrite E1, E2, E3, E4. by destruct r as [|? [|? ?]]. }
  assert (Hd : forall k, whitespace (drop k l) = 0%nat).
  { intros k. pose proof (Forall_drop _ k _ H) as Hk. destruct (drop k l) as [|c r]; [done|]. apply Forall_cons_iff in Hk as [Hk _]. by apply Hw. }
  assert (Hs : trim_start (length l) l = l). { destruct l as [|c r] eqn:El; [done|]. cbn [length trim_start]. pose proof (Hd 0%nat) as H0. cbn [drop] in H0. by rewrite H0. }
  unfold trim. rewrite Hs. destruct (length l) eqn:El; [done|]. cbn [trim_end]. unfold trailing. rewrite !Hd. cbn [Nat.eqb]. by rewrite !andb_false_r.
Qed.

Lemma filter_hexish l : hexish l -> List.filter (fun c => negb (c =? DASH)) l = l.
Proof.
  induction 1 as [|c l Hc _ IH]; [done|]. cbn [List.filter]. unfold DASH at 1. rewrite (proj2 (Z.eqb_neq c 45)) by lia. cbn [negb]. by rewrite IH.
Qed.

Lemma hex_bytes_app a b : hex_bytes (a ++ b) = hex_bytes a ++ hex_bytes b.
Proof. unfold hex_bytes. by rewrite map_app, concat_app. Qed.

Lemma slice_join (l : bytes) a b c : 0 <= a -> a <= b -> b <= c -> l[: a, b] ++ l[: b, c] = l[: a, c].
Proof.
  intros. unfold slice. rewrite <- (ztake_drop (b - a) (ztake (c - a) (zdrop a l))). f_equal.
  - rewrite ztake_take. f_equal. lia.
  - replace (c - a) with (b - a + (c - b)) by lia. rewrite <- ztake_drop_comm by lia. rewrite zdrop_drop by lia. do 2 f_equal; lia.
Qed.

Lemma to_string_hex u : uuid_ok u -> List.filter (fun c => negb (c =? DASH)) (UUID_to_string u) = hex_bytes u.
Proof.
  intros [Hb Hl]. unfold UUID_to_string. rewrite !List.filter_app.
  assert (Hf : forall a b, List.filter (fun c => negb (c =? DASH)) (hex_bytes u[: a, b]) = hex_bytes u[: a, b]) by (intros a b; apply filter_hexish, hex_bytes_spec; auto with xray).
  rewrite !Hf. cbn [List.filter DASH Z.eqb Pos.eqb negb app]. rewrite <- !hex_bytes_app. rewrite !slice_join by lia. f_equal. apply slice_all. lia.
Qed.

(** Every parse gives sixteen bytes; a derived id is of version 5. *)
Lemma parse_pairs_ok n : forall i hex u, bytes_ok hex -> parse_pairs n i hex = Some (Some u) -> bytes_ok u /\ length u = n.
Proof.
  induction n as [|n IH]; intros i hex u Hb; cbn [parse_pairs]; [by intros [= <-]|].
  destruct (_ && _); [|done]. destruct (from_hex2 _ _) as [b|] eqn:Eb; [|done]. destruct (parse_pairs n (i + 1) hex) as [[bs|]|] eqn:E; cbn [mbind option_bind]; [|done..].
  intros [= <-]. destruct (IH _ _ _ Hb E) as [H1 H2]. split; [|by cbn; rewrite H2]. constructor; [|done].
  assert (Hd : forall c d, hex_digit c = Some d -> 0 <= d < 16) by (intros c d; unfold hex_digit; zcases; intros [= <-]; lia).
  unfold from_hex2 in Eb. unfold is_u8. destruct (_ =? 43); [apply Hd in Eb; lia|].
  destruct (hex_digit (hex @ (i * 2))) as [x|] eqn:Ex; [|done]. cbn [mbind option_bind] in Eb. destruct (hex_digit (hex @ (i * 2 + 1))) as [y|] eqn:Ey; [|done]. cbn [mbind option_bind] in Eb.
  injection Eb as <-. apply Hd in Ex, Ey. lia.
Qed.

Lemma lor_u8 a b : is_u8 a -> is_u8 b -> is_u8 (Z.lor a b).
Proof.
  unfold is_u8. intros Ha Hb. split; [apply Z.lor_nonneg; lia|]. destruct (Z.eq_dec (Z.lor a b) 0) as [->|Hne]; [lia|].
  assert (0 <= Z.lor a b) by (apply Z.lor_nonneg; lia). change 256 with (2 ^ 8). apply Z.log2_lt_pow2; [lia|]. rewrite Z.log2_lor by lia.
  assert (Hx : forall x, 0 <= x < 256 -> Z.log2 x < 8).
  { intros x Hx. destruct (Z.eq_dec x 0) as [->|]; [done|]. apply Z.log2_lt_pow2; [lia|]. cbn; lia. }
  pose proof (Hx a Ha). pose proof (Hx b Hb). lia.
Qed.

Lemma land_u8 a b : is_u8 a -> is_u8 b -> is_u8 (Z.land a b).
Proof.
  unfold is_u8. intros Ha Hb. split; [apply Z.land_nonneg; lia|]. pose proof (Z.log2_land a b). destruct (Z.eq_dec (Z.land a b) 0) as [->|Hne]; [lia|].
  assert (0 <= Z.land a b) by (apply Z.land_nonneg; lia). change 256 with (2 ^ 8). apply Z.log2_lt_pow2; [lia|].
  assert (Hx : forall x, 0 <= x < 256 -> Z.log2 x < 8).
  { intros x Hx. destruct (Z.eq_dec x 0) as [->|]; [done|]. apply Z.log2_lt_pow2; [lia|]. cbn; lia. }
  pose proof (Hx a Ha). pose proof (Hx b Hb). lia.
Qed.

(** The hypotheses of the theorems about digests. *)
Class UuidHashLaws `{!UuidHash} : Prop := { sha1_ok l : bytes_ok (sha1 l) /\ zlen (sha1 l) = 20 }.

Section props.
Context `{!UuidHash, !UuidHashLaws}.

(** The text of a user id: what is printed parses to the same id, with the dashes and
    without them; whatever parses is sixteen bytes; a text of at most thirty bytes that has
    no white space at its ends is never refused.  But a text of 32 bytes whose pairs cut a
    character panics, and a sign is taken for a digit. *)
Theorem uuid_text_roundtrip (u : UUID) (s : bytes) : uuid_ok u ->
  UUID_parse (UUID_to_string u) = Some (Some u) /\ UUID_parse (hex_bytes u) = Some (Some u) /\
  (forall v, bytes_ok s -> UUID_parse s = Some (Some v) -> uuid_ok v) /\
  (trim s = s -> 0 < zlen s <= 30 -> is_Some (UUID_parse s ≫= id)) /\
  (exists t, str_ok t /\ UUID_parse t = None) /\
  UUID_parse (concat (replicate 16 (text "+f"%string))) = Some (Some (replicate 16 15)).
Proof.
  intros Hu. pose proof (to_string_hex u Hu) as Ef. destruct Hu as [Hb Hl]. destruct (hex_bytes_spec u Hb) as [Hh Hz].
  assert (Hp : parse_pairs 16 0 (hex_bytes u) = Some (Some u)).
  { replace 16%nat with (length u) by (unfold zlen in Hl; lia). apply (parse_pairs_hex u []); [done|constructor|done|lia]. }
  assert (Hts : zlen (UUID_to_string u) = 36 /\ trim (UUID_to_string u) = UUID_to_string u).
  { assert (Hx : forall a b, 0 <= a -> a <= b -> b <= 16 -> Forall (fun c => 33 <= c < 128) (hex_bytes u[: a, b]) /\ zlen (hex_bytes u[: a, b]) = 2 * (b - a)).
    { intros a b Ha Hab Hb16. destruct (hex_bytes_spec u[: a, b]) as [H1 H2]; [auto with xray|]. split; [eapply Forall_impl; [|exact H1]; cbn; lia|]. rewrite H2, zlen_slice. lia. }
    unfold UUID_to_string. split.
    - rewrite !zlen_app. rewrite !(fun a b H1 H2 H3 => proj2 (Hx a b H1 H2 H3)) by lia. change (zlen [DASH]) with 1. lia.
    - apply trim_hexish. rewrite !Forall_app. unfold DASH. repeat split; try (apply Hx; lia); constructor; (lia || constructor). }
  destruct Hts as [Hts Htrim]. split_and!.
  - unfold UUID_parse. rewrite Htrim, Ef, Hts, Hz, Hl. cbn [Z.leb Z.compare Pos.compare Pos.compare_cont Z.eqb Pos.eqb andb Z.mul Pos.mul]. done.
  - unfold UUID_parse. rewrite trim_hexish by (eapply Forall_impl; [|exact Hh]; cbn; lia). rewrite filter_hexish by done. rewrite Hz, Hl. done.
  - intros v Hs. unfold UUID_parse. assert (Htr : bytes_ok (trim s)).
    { unfold trim. assert (H1 : forall n l, bytes_ok l -> bytes_ok (trim_start n l)) by (induction n; intros l Hn; cbn [trim_start]; [done|]; case_match; [done|]; apply IHn; by apply Forall_drop).
      assert (H2 : forall n l, bytes_ok l -> bytes_ok (trim_end n l)) by (induction n; intros l Hn; cbn [trim_end]; [done|]; case_match; [done|]; apply IHn; by apply Forall_take). auto. }
    destruct (_ && _) eqn:Ec.
    + intros E. apply parse_pairs_ok in E as [H1 H2]; [split; [done|by unfold zlen; rewrite H2]|]. apply Forall_forall. intros x Hx. apply List.filter_In in Hx as [Hx _]. rewrite Forall_forall in Htr. auto.
    + destruct (_ || _); [done|]. intros [= <-]. destruct (sha1_ok (zrepeat 16 0 ++ trim s)) as [H1 H2]. split.
      * assert (Hmark : forall a m k, is_u8 a -> is_u8 m -> is_u8 k -> is_u8 (Z.lor (Z.land a m) k)) by (intros; apply lor_u8; [by apply land_u8|done]).
        assert (H3 : bytes_ok (ztake 16 (sha1 (zrepeat 16 0 ++ trim s)))) by auto with xray.
        apply Forall_insert; [apply Forall_insert|]; [done|..]; (apply Hmark; [by apply byte_at_ok|unfold is_u8; lia..]).
      * assert (Hi : forall i (x : Z) l, zlen (<[i:=x]> l) = zlen l) by (intros; unfold zlen; by rewrite length_insert). rewrite !Hi, zlen_take. change (zrepeat 16 0 ++ trim s) with (replicate 16 0 ++ trim s) in H2. cbn [replicate app] in H2. rewrite H2. done.
  - intros Ht Hs. unfold UUID_parse. rewrite Ht. assert ((32 <=? zlen s) = false) as -> by (apply Z.leb_gt; lia). cbn [andb].
    assert ((zlen s =? 0) = false) as -> by (apply Z.eqb_neq; lia). assert ((30 <? zlen s) = false) as -> by (apply Z.ltb_ge; lia). by eexists.
  - exists (97 :: 195 :: 169 :: replicate 29 97). split; [split; [|reflexivity]|reflexivity]. cbn [replicate]. unfold is_u8. repeat (constructor; [lia|]). constructor.
  - reflexivity.
Qed.
End props.
