(* ===== verification/VlessProto.v ===== *)
(** [xray-proxy-vless]: errors, accounts, users ([error.rs], [account.rs],
    [validator.rs]), request and response headers, datagrams with a length
    ([encoding/mod.rs], [encoding/client.rs], [encoding/server.rs]).

    [Addons] is generated from a protobuf description: its codec is the class
    [AddonsCodec].  Texts of errors are left out but for what they name.  The SHA-256 [ID]
    of an account is its uuid. *)
From Stdlib Require Import String.
From stdpp Require Import base tactics option list numbers gmap.
From S2P Require Import Prelude Bytes AsyncIo NetTypes StrMatch Mph Uuid.

Definition FLOW_NONE : bytes := text "none".
Definition FLOW_XRV : bytes := text "xtls-rprx-vision".
Definition RVS_DOMAIN : bytes := text "v1.rvs.cool".

Inductive VlessError : Type :=
| InvalidUuid (id : bytes)
| VlessUserAlreadyExists (email : bytes)
| VlessUserNotFound (who : bytes)
| VlessEmptyEmail
| InvalidRequestVersion (version : Z)
| InvalidRequestCommand (command : Z)
| InvalidRequestAddress
| VlessIo (f : ReadFailure)
| UnexpectedResponseVersion (expected actual : Z)
| VlessOther.

(** * Accounts *)

(** The sniffing configuration of a reverse is carried along and never read. *)
Record Reverse : Type := mkReverse { rv_tag : bytes }.

Definition Reverse_from_proto (p : Reverse) : Reverse := mkReverse (rv_tag p).
Definition Reverse_to_proto (r : Reverse) : Reverse := mkReverse (rv_tag r).

Record ProtoAccount : Type := mkProtoAccount {
  pa_id : bytes;
  pa_flow : bytes;
  pa_encryption : bytes;
  pa_xor_mode : Z;
  pa_seconds : Z;
  pa_padding : bytes;
  pa_reverse : option Reverse;
  pa_testpre : Z;
  pa_testseed : list Z;
}.

Record VlessAccount : Type := mkVlessAccount {
  va_uuid : UUID;
  va_flow : bytes;
  va_encryption : bytes;
  va_xor_mode : Z;
  va_seconds : Z;
  va_padding : bytes;
  va_reverse : option Reverse;
  va_testpre : Z;
  va_testseed : list Z;
}.

(** The outer [None] is a panic of [UUID::parse]. *)
Definition from_proto_account `{!UuidHash} (a : ProtoAccount) : option (result VlessError VlessAccount) :=
  uuid ← UUID_parse (pa_id a);
  Some
    match uuid with
    | None => Err (InvalidUuid (pa_id a))
    | Some uuid =>
        Ok (mkVlessAccount uuid (pa_flow a) (pa_encryption a) (pa_xor_mode a) (pa_seconds a) (pa_padding a)
              (Reverse_from_proto <$> pa_reverse a) (pa_testpre a) (pa_testseed a))
    end.

Definition VlessAccount_equals (a b : VlessAccount) : bool := bool_decide (va_uuid a = va_uuid b).

Definition to_proto (a : VlessAccount) : ProtoAccount :=
  mkProtoAccount (UUID_to_string (va_uuid a)) (va_flow a) (va_encryption a) (va_xor_mode a) (va_seconds a) (va_padding a)
    (Reverse_to_proto <$> va_reverse a) (va_testpre a) (va_testseed a).

(** * Users *)

Record VlessUser : Type := mkVlessUser { vu_level : Z; vu_email : bytes; vu_account : VlessAccount }.

(** [process_uuid]: bytes 6 and 7 are the client's own. *)
Definition process_uuid (id : UUID) : UUID := <[7%nat := 0]> (<[6%nat := 0]> id).

Definition user_key (u : VlessUser) : UUID := process_uuid (va_uuid (vu_account u)).

Record VlessValidator : Type := mkVlessValidator { vv_email : gmap bytes VlessUser; vv_uuid : gmap UUID VlessUser }.

Definition VlessValidator_new : VlessValidator := mkVlessValidator ∅ ∅.

Definition VlessValidator_get (v : VlessValidator) (id : UUID) : option VlessUser := vv_uuid v !! process_uuid id.

Section validator.
Context `{!StdText}.

Definition VlessValidator_add (u : VlessUser) (v : VlessValidator) : result VlessError unit * VlessValidator :=
  if bool_decide (vu_email u = []) then (Ok tt, mkVlessValidator (vv_email v) (<[user_key u := u]> (vv_uuid v)))
  else
    let key := to_lowercase (vu_email u) in
    match vv_email v !! key with
    | Some _ => (Err (VlessUserAlreadyExists (vu_email u)), v)
    | None => (Ok tt, mkVlessValidator (<[key := u]> (vv_email v)) (<[user_key u := u]> (vv_uuid v)))
    end.

Definition VlessValidator_del (email : bytes) (v : VlessValidator) : result VlessError unit * VlessValidator :=
  if bool_decide (email = []) then (Err VlessEmptyEmail, v)
  else
    let key := to_lowercase email in
    match vv_email v !! key with
    | None => (Err (VlessUserNotFound email), v)
    | Some user => (Ok tt, mkVlessValidator (delete key (vv_email v)) (delete (user_key user) (vv_uuid v)))
    end.

Definition VlessValidator_get_by_email (v : VlessValidator) (email : bytes) : option VlessUser := vv_email v !! to_lowercase email.
Definition VlessValidator_get_all (v : VlessValidator) : list VlessUser := map snd (map_to_list (vv_email v)).
Definition VlessValidator_get_count (v : VlessValidator) : Z := Z.of_nat (size (vv_email v)).
Definition get_uuid_count (v : VlessValidator) : Z := Z.of_nat (size (vv_uuid v)).
End validator.

(** * Commands *)

Inductive VlessCommand : Type := CmdTcp | CmdUdp | CmdMux | CmdRvs.

#[export] Instance VlessCommand_eq_dec : EqDecision VlessCommand.
Proof. solve_decision. Defined.

Definition VlessCommand_from_u8 (value : Z) : option VlessCommand :=
  if value =? 1 then Some CmdTcp else if value =? 2 then Some CmdUdp else if value =? 3 then Some CmdMux else if value =? 4 then Some CmdRvs else None.

Definition VlessCommand_as_u8 (c : VlessCommand) : Z := match c with CmdTcp => 1 | CmdUdp => 2 | CmdMux => 3 | CmdRvs => 4 end.
Definition needs_address (c : VlessCommand) : bool := match c with CmdTcp | CmdUdp => true | _ => false end.
Definition fixed_domain (c : VlessCommand) : option bytes :=
  match c with CmdMux => Some (text "v1.mux.cool") | CmdRvs => Some (text "v1.rvs.cool") | _ => None end.

(** * Headers *)

Definition VERSION : Z := 0.
Definition ADDR_IPV4 : Z := 1.
Definition ADDR_DOMAIN : Z := 2.
Definition ADDR_IPV6 : Z := 3.

Record Addons : Type := mkAddons { ad_flow : bytes; ad_seed : bytes }.

Class AddonsCodec := { addons_encode : Addons -> bytes; addons_decode : bytes -> option Addons }.

Definition empty_addons : Addons := mkAddons [] [].

Definition vless_write_address_port (out : bytes) (address : Address) (port : Z) : bytes :=
  let out := out ++ be16 port in
  match address with
  | IPv4 v4 => out ++ [ADDR_IPV4] ++ v4
  | Domain domain =>
      let len := if zlen domain <=? 255 then zlen domain else 255 in
      out ++ [ADDR_DOMAIN] ++ [len] ++ domain[: 0, len]
  | IPv6 v6 => out ++ [ADDR_IPV6] ++ v6
  end.

(** [read_exact(..).await.map_err(VlessError::Io)?] *)
Definition vless_read (n : Z) : Step VlessError bytes := read_exact_or VlessIo n.

Definition vless_read_address_port : Step VlessError (Address * Port) :=
  port_buf ← vless_read 2;
  let port := be_val port_buf in
  type_buf ← vless_read 1;
  let ty := type_buf @ 0 in
  if ty =? ADDR_IPV4 then buf ← vless_read 4; mret (IPv4 buf, Port_new port)
  else if ty =? ADDR_DOMAIN then
    len_buf ← vless_read 1;
    buf ← vless_read (len_buf @ 0);
    if utf8_valid buf then mret (Domain buf, Port_new port) else hs_fail InvalidRequestAddress
  else if ty =? ADDR_IPV6 then buf ← vless_read 16; mret (IPv6 buf, Port_new port)
  else hs_fail InvalidRequestAddress.

Section headers.
Context `{!AddonsCodec}.

Definition encode_header_addons (out : bytes) (addons : Addons) : result VlessError bytes :=
  if bool_decide (ad_flow addons = FLOW_XRV) then
    let b := addons_encode addons in
    if zlen b <=? 255 then Ok (out ++ [zlen b] ++ b) else Err VlessOther
  else Ok (out ++ [0]).

Definition decode_header_addons : Step VlessError Addons :=
  len_buf ← vless_read 1;
  if len_buf @ 0 =? 0 then mret empty_addons
  else
    buf ← vless_read (len_buf @ 0);
    hs_ok_or VlessOther (addons_decode buf).

(** What is written in one [write_all]. *)
Definition encode_response_header (version : Z) (response_addons : Addons) : result VlessError bytes := encode_header_addons [version] response_addons.

Definition decode_response_header (expected_version : Z) : Step VlessError Addons :=
  ver_buf ← vless_read 1;
  if negb (ver_buf @ 0 =? expected_version) then hs_fail (UnexpectedResponseVersion expected_version (ver_buf @ 0))
  else decode_header_addons.

Definition encode_request_header (version : Z) (user_uuid : UUID) (command : VlessCommand) (address : option Address) (port : option Z) (addons : Addons)
    : result VlessError bytes :=
  if needs_address command && (bool_decide (address = None) || bool_decide (port = None)) then Err InvalidRequestAddress
  else if negb (needs_address command) && (bool_decide (is_Some address) || bool_decide (is_Some port)) then Err VlessOther
  else
    buf ← encode_header_addons ([version] ++ user_uuid) addons;
    let buf := buf ++ [VlessCommand_as_u8 command] in
    Ok match address, port with Some addr, Some p => vless_write_address_port buf addr p | _, _ => buf end.

Record DecodedRequest : Type := mkDecoded {
  dr_version : Z;
  dr_user_id : bytes;
  dr_command : VlessCommand;
  dr_address : option Address;
  dr_port : option Z;
  dr_addons : Addons;
  dr_user : option VlessUser;
}.

Definition DecodedRequest_default : DecodedRequest := mkDecoded VERSION (zrepeat 16 0) CmdTcp None None empty_addons None.

(** The first seventeen bytes, from [first] when [isfb]; what is left of [first]. *)
Definition read_version_id (isfb : bool) (first : option bytes) : Step VlessError (Z * bytes * option bytes) :=
  if isfb then
    first ← hs_ok_or VlessOther first;
    if zlen first <? 17 then hs_fail VlessOther else mret (first @ 0, first[: 1, 17], Some (zdrop 17 first))
  else
    ver_buf ← vless_read 1;
    id_buf ← vless_read 16;
    mret (ver_buf @ 0, id_buf, first).

Definition decode_request_header (isfb : bool) (first : option bytes) (v : VlessValidator) : Step VlessError (DecodedRequest * option bytes) :=
  '(version, user_id, first) ← read_version_id isfb first;
  if negb (version =? VERSION) then hs_fail (InvalidRequestVersion version)
  else
    user ← hs_ok_or (VlessUserNotFound (UUID_to_string user_id)) (VlessValidator_get v user_id);
    addons ← decode_header_addons;
    cmd_buf ← vless_read 1;
    command ← hs_ok_or (InvalidRequestCommand (cmd_buf @ 0)) (VlessCommand_from_u8 (cmd_buf @ 0));
    if needs_address command then
      '(addr, port) ← vless_read_address_port;
      mret (mkDecoded version user_id command (Some addr) (Some (Port_value port)) addons (Some user), first)
    else mret (mkDecoded version user_id command (Domain <$> fixed_domain command) None addons (Some user), first).
End headers.

(** * Datagrams with a length *)

(** What is written for a datagram. *)
Definition write_length_packet (payload : bytes) : result VlessError bytes :=
  if zlen payload <=? 65535 then Ok (be16 (zlen payload) ++ payload) else Err VlessOther.

Definition read_length_packet : Step VlessError bytes :=
  len_buf ← vless_read 2;
  vless_read (be_val len_buf).

Fixpoint write_multi_length_packets (packets : list bytes) (max_packet_size : Z) : result VlessError bytes :=
  match packets with
  | [] => Ok []
  | p :: packets =>
      if bool_decide (p = []) || (max_packet_size <? zlen p + 2) then write_multi_length_packets packets max_packet_size
      else
        f ← write_length_packet p;
        fs ← write_multi_length_packets packets max_packet_size;
        Ok (f ++ fs)
  end.

(** * The response header, read when the first bytes are asked for *)

Record ResponseHeaderReader : Type := mkRhr { rh_expected_version : Z; rh_head : bytes; rh_head_pos : Z; rh_done : bool }.

Definition ResponseHeaderReader_new (expected_version : Z) : ResponseHeaderReader := mkRhr expected_version [] 0 false.

(** The loop of reads of at most 128 bytes; each brings a byte, so [want] turns and one are
    enough, and [None] is the end of the fuel. *)
Fixpoint fill_head (fuel : nat) (inner : list ReadEvent) (head : bytes) (want : Z) : option (Poll unit * list ReadEvent * bytes) :=
  match fuel with
  | O => None
  | S fuel =>
      if zlen head <? want then
        match poll_stream 128 inner with
        | (Ready bs, inner) => if zlen bs =? 0 then Some (PollErr, inner, head) else fill_head fuel inner (head ++ bs) want
        | (PollErr, inner) => Some (PollErr, inner, head)
        | (Pending, inner) => Some (Pending, inner, head)
        end
      else Some (Ready tt, inner, head)
  end.

Definition fill_fuel (want : Z) : nat := S (Z.to_nat want).

Definition rh_set (head : bytes) (pos : Z) (done : bool) (r : ResponseHeaderReader) : ResponseHeaderReader :=
  mkRhr (rh_expected_version r) head pos done.

(** What is delivered once the header is gone. *)
Definition rh_deliver (room : Z) (inner : list ReadEvent) (r : ResponseHeaderReader) : Poll bytes * ResponseHeaderReader * list ReadEvent :=
  if rh_head_pos r <? zlen (rh_head r) then
    let avail := zdrop (rh_head_pos r) (rh_head r) in
    let n := Z.min (zlen avail) room in
    (Ready (ztake n avail), rh_set (rh_head r) (rh_head_pos r + n) (rh_done r) r, inner)
  else let '(p, inner) := poll_stream room inner in (p, r, inner).

Definition ResponseHeaderReader_poll_read (room : Z) (inner : list ReadEvent) (r : ResponseHeaderReader)
    : option (Poll bytes * ResponseHeaderReader * list ReadEvent) :=
  if rh_done r then Some (rh_deliver room inner r)
  else
    '(p, inner, head) ← fill_head (fill_fuel 2) inner (rh_head r) 2;
    let r := rh_set head (rh_head_pos r) false r in
    match p with
    | PollErr => Some (PollErr, r, inner)
    | _ =>
        if zlen head <? 2 then Some (Pending, r, inner)
        else
          let addon_len := head @ 1 in
          '(p, inner, head) ← (if 0 <? addon_len then fill_head (fill_fuel (2 + addon_len)) inner head (2 + addon_len) else Some (Ready tt, inner, head));
          let r := rh_set head (rh_head_pos r) false r in
          match p with
          | PollErr => Some (PollErr, r, inner)
          | Pending => Some (Pending, r, inner)
          | Ready _ =>
              if negb (head @ 0 =? rh_expected_version r) then Some (PollErr, r, inner)
              else Some (rh_deliver room inner (rh_set head (2 + addon_len) true r))
          end
    end.

(** * The reverse portals: [inbound/reverse.rs] *)

Record PortalConfig : Type := mkPortal { pc_tag : bytes; pc_domain : bytes }.

Definition PortalConfig_new (tag : bytes) : PortalConfig := mkPortal tag RVS_DOMAIN.
Definition with_domain (domain : bytes) (p : PortalConfig) : PortalConfig := mkPortal (pc_tag p) domain.

Record ReverseRegistry : Type := mkRegistry { rr_entries : gmap bytes PortalConfig }.

Definition ReverseRegistry_new : ReverseRegistry := mkRegistry ∅.

Definition add_reverse (config : PortalConfig) (r : ReverseRegistry) : result VlessError unit * ReverseRegistry :=
  match rr_entries r !! pc_tag config with
  | Some _ => (Err VlessOther, r)
  | None => (Ok tt, mkRegistry (<[pc_tag config := config]> (rr_entries r)))
  end.

Definition get_reverse (tag : bytes) (r : ReverseRegistry) : result VlessError PortalConfig := ok_or VlessOther (rr_entries r !! tag).

Definition remove_reverse (tag : bytes) (r : ReverseRegistry) : result VlessError unit * ReverseRegistry :=
  match rr_entries r !! tag with
  | None => (Err VlessOther, r)
  | Some _ => (Ok tt, mkRegistry (delete tag (rr_entries r)))
  end.

Definition registry_contains (tag : bytes) (r : ReverseRegistry) : bool := bool_decide (is_Some (rr_entries r !! tag)).
Definition registry_len (r : ReverseRegistry) : Z := Z.of_nat (size (rr_entries r)).
Definition contains_domain (domain : bytes) (r : ReverseRegistry) : bool :=
  existsb (fun kv => bool_decide (pc_domain kv.2 = domain)) (map_to_list (rr_entries r)).

(** * Where a connection goes that is not VLESS: [inbound/handler.rs] *)

Record FallbackDest : Type := mkFallbackDest { fd_dest : bytes; fd_xver : Z }.

Record VlessFallbackPolicy : Type := mkVlessFallback { vf_entries : gmap bytes (gmap bytes (gmap bytes FallbackDest)) }.

Definition VlessFallbackPolicy_new : VlessFallbackPolicy := mkVlessFallback ∅.

Definition VlessFallbackPolicy_add (name alpn path : bytes) (dest : FallbackDest) (p : VlessFallbackPolicy) : VlessFallbackPolicy :=
  let by_alpn := default ∅ (vf_entries p !! name) in
  let by_path := default ∅ (by_alpn !! alpn) in
  mkVlessFallback (<[name := <[alpn := <[path := dest]> by_path]> by_alpn]> (vf_entries p)).

Definition VlessFallbackPolicy_find (name alpn path : bytes) (p : VlessFallbackPolicy) : option FallbackDest :=
  by_alpn ← vf_entries p !! name;
  by_path ← by_alpn !! alpn;
  by_path !! path.

(** The first of the eight that is there. *)
Fixpoint find_first (keys : list (bytes * bytes * bytes)) (p : VlessFallbackPolicy) : option FallbackDest :=
  match keys with
  | [] => None
  | (n, a, h) :: keys => match VlessFallbackPolicy_find n a h p with Some d => Some d | None => find_first keys p end
  end.

Definition find_with_fallback (name alpn path : bytes) (p : VlessFallbackPolicy) : option FallbackDest :=
  find_first [(name, alpn, path); (name, alpn, []); (name, [], path); (name, [], []); ([], alpn, path); ([], alpn, []); ([], [], path); ([], [], [])] p.
