(* ===== verification/VlessServer.v ===== *)
(** [xray-proxy-vless/src/inbound/server.rs]: what an incoming connection becomes, and the
    relay of datagrams.

    The stream is what is left after TLS and the encryption layer.  The header answered to
    the client is taken to be written; a handler is the tag it is registered under. *)
From Stdlib Require Import String List.
From stdpp Require Import base tactics option list numbers gmap.
From S2P Require Import Prelude Bytes AsyncIo NetTypes StrMatch Mph Fallback Uuid VlessProto.

Record VlessInboundOptions : Type := mkInboundOptions {
  io_enable_reverse : bool;
  io_reverse_registry : option ReverseRegistry;
  io_reverse_ohm : option (list bytes);
  io_allowed_network : option Network;
  io_outer_tls13 : bool;
}.

Record AccessContext : Type := mkAccess {
  ax_from : option SocketAddr;
  ax_local : option SocketAddr;
  ax_email : bytes;
  ax_level : Z;
  ax_allowed_network : option Network;
}.

Definition validate_flow (flow account_flow : bytes) (command : VlessCommand) (outer_tls13 : bool) : result VlessError unit :=
  if bool_decide (flow = FLOW_XRV) then
    if negb (bool_decide (account_flow = FLOW_XRV)) then Err VlessOther
    else if bool_decide (command = CmdUdp) then Err VlessOther
    else if negb outer_tls13 then Err VlessOther
    else Ok tt
  else if bool_decide (flow = []) then
    if bool_decide (account_flow = FLOW_XRV) && bool_decide (command = CmdTcp) then Err VlessOther else Ok tt
  else Err VlessOther.

Definition vision_uuid_bytes (decoded : DecodedRequest) : result VlessError (option bytes) :=
  if negb (bool_decide (ad_flow (dr_addons decoded) = FLOW_XRV)) then Ok None
  else user ← ok_or VlessOther (dr_user decoded); Ok (Some (UUID_as_bytes (va_uuid (vu_account user)))).

(** What is dispatched, and over what: [vision] is the uuid of the padding, the seed and
    whether the raw socket below TLS is there. *)
Inductive Served : Type :=
| ServedTcp (dest : Destination) (vision : option (bytes * list Z * bool)) (access : AccessContext)
| ServedUdp (dest : Destination)
| ServedMux (dest : Destination) (access : AccessContext)
| ServedReverse (handler : bytes) (dest : Destination)
| ServedNothing.

Definition finish_tcp_dispatch (decoded : DecodedRequest) (raw_tcp : bool) (access : AccessContext) : result VlessError Served :=
  vision_uuid ← vision_uuid_bytes decoded;
  address ← ok_or VlessOther (dr_address decoded);
  port ← ok_or VlessOther (dr_port decoded);
  let dest := Destination_new address (Port_new port) TCP in
  let seed := match dr_user decoded with Some u => va_testseed (vu_account u) | None => [] end in
  Ok (ServedTcp dest (match vision_uuid with Some uuid => Some (uuid, seed, raw_tcp) | None => None end) access).

Definition udp_destination (decoded : DecodedRequest) : result VlessError Served :=
  address ← ok_or VlessOther (dr_address decoded);
  port ← ok_or VlessOther (dr_port decoded);
  Ok (ServedUdp (Destination_new address (Port_new port) UDP)).

Definition handle_mux_relay (decoded : DecodedRequest) (access : AccessContext) : result VlessError Served :=
  address ← ok_or VlessOther (dr_address decoded);
  Ok (ServedMux (Destination_new address (Port_new (default 0 (dr_port decoded))) TCP) access).

Definition handle_reverse_relay (decoded : DecodedRequest) (options : option VlessInboundOptions) : result VlessError Served :=
  if negb (match options with Some o => io_enable_reverse o | None => false end) then Ok ServedNothing
  else
    registry ← ok_or VlessOther (o ← options; io_reverse_registry o);
    ohm ← ok_or VlessOther (o ← options; io_reverse_ohm o);
    user ← ok_or VlessOther (dr_user decoded);
    reverse_cfg ← ok_or VlessOther (va_reverse (vu_account user));
    if bool_decide (rv_tag reverse_cfg = []) then Err VlessOther
    else
      portal_cfg ← get_reverse (rv_tag reverse_cfg) registry;
      if bool_decide (pc_tag portal_cfg ∈ ohm) then Ok (ServedReverse (pc_tag portal_cfg) (Destination_new (Domain (pc_domain portal_cfg)) (Port_new 0) TCP))
      else Err VlessOther.

Definition ax_allow (net : Network) (a : AccessContext) : AccessContext := mkAccess (ax_from a) (ax_local a) (ax_email a) (ax_level a) (Some net).

(** The network that the sessions of the connection may use. *)
Definition allowed_access (decoded : DecodedRequest) (options : option VlessInboundOptions) (access : AccessContext) : AccessContext :=
  let access := match o ← options; io_allowed_network o with Some net => ax_allow net access | None => access end in
  if bool_decide (dr_command decoded = CmdMux) && bool_decide (ad_flow (dr_addons decoded) = FLOW_XRV) then ax_allow UDP access else access.

(** The bytes answered, and what follows or the error. *)
Definition finish_vless_dispatch `{!AddonsCodec} (decoded : DecodedRequest) (options : option VlessInboundOptions) (raw_tcp : bool) (access : AccessContext)
    : bytes * result VlessError Served :=
  let account_flow := match dr_user decoded with Some u => va_flow (vu_account u) | None => [] end in
  match validate_flow (ad_flow (dr_addons decoded)) account_flow (dr_command decoded) (match options with Some o => io_outer_tls13 o | None => false end) with
  | Err e => ([], Err e)
  | Ok _ =>
      match encode_response_header VERSION empty_addons with
      | Err e => ([], Err e)
      | Ok response =>
          let access := allowed_access decoded options access in
          (response,
           match dr_command decoded with
           | CmdTcp => finish_tcp_dispatch decoded raw_tcp access
           | CmdUdp => udp_destination decoded
           | CmdMux => handle_mux_relay decoded access
           | CmdRvs => handle_reverse_relay decoded options
           end)
      end
  end.

(** * Connections *)

Inductive VlessOutcome : Type :=
| VlessClosed
| VlessFailed (response : bytes)
| VlessForward (dest : bytes) (sent : bytes)
| VlessServed (response : bytes) (what : Served) (rest : list ReadEvent).

Definition outcome_of (f : bytes * result VlessError Served) (rest : list ReadEvent) : VlessOutcome :=
  match f with (response, Ok what) => VlessServed response what rest | (response, Err _) => VlessFailed response end.

Section connection.
Context `{!AddonsCodec} `{!IpText}.

Definition user_access (from local : option SocketAddr) (decoded : DecodedRequest) : AccessContext :=
  mkAccess from local (match dr_user decoded with Some u => vu_email u | None => [] end) (match dr_user decoded with Some u => vu_level u | None => 0 end) None.

Definition handle_connection (stream : list ReadEvent) (v : VlessValidator) (options : option VlessInboundOptions) (raw_tcp : bool) : VlessOutcome :=
  match decode_request_header false None v (RecordingStream_new stream) with
  | (Err _, _) => VlessFailed []
  | (Ok (decoded, _), s) => outcome_of (finish_vless_dispatch decoded options raw_tcp (user_access None None decoded)) (rs_inner s)
  end.

(** [read_half]: what the connection still holds for the fallback. *)
Definition do_fallback (read_half : list ReadEvent) (first : bytes) (policy : VlessFallbackPolicy) (peer local : SocketAddr) (tls_name tls_alpn : bytes) : VlessOutcome :=
  let path := default [] (extract_path_from_first_bytes first) in
  match find_with_fallback tls_name tls_alpn path policy with
  | None => VlessFailed []
  | Some fb => VlessForward (fd_dest fb) (fallback_to_dest (stream_bytes read_half) first peer local (fd_xver fb))
  end.

Definition handle_connection_with_fallback (stream : list ReadEvent) (v : VlessValidator) (fallbacks : option VlessFallbackPolicy)
    (peer local : SocketAddr) (tls_name tls_alpn : bytes) (options : option VlessInboundOptions) (raw_tcp : bool) : VlessOutcome :=
  match fallbacks with
  | None => handle_connection stream v options raw_tcp
  | Some policy =>
      match poll_stream 1024 stream with
      | (Ready first, read_half) =>
          if zlen first =? 0 then VlessClosed
          else if first @ 0 =? VERSION then
            match decode_request_header false None v (RecordingStream_new (Data first :: read_half)) with
            | (Ok (decoded, _), s) => outcome_of (finish_vless_dispatch decoded options raw_tcp (user_access (Some peer) (Some local) decoded)) (rs_inner s)
            | (Err _, s) => do_fallback (if zlen (rs_buf s) <? zlen first then read_half else rs_inner s) first policy peer local tls_name tls_alpn
            end
          else do_fallback read_half first policy peer local tls_name tls_alpn
      | (_, _) => VlessFailed []
      end
  end.
End connection.

(** * Datagrams *)

(** The uplink task: packets until the stream ends or fails; a packet takes two bytes, so
    the length of the stream and one are enough. *)
Fixpoint uplink_packets (fuel : nat) (s : RecordingStream) : list bytes :=
  match fuel with
  | O => []
  | S fuel => match read_length_packet s with (Ok p, s) => p :: uplink_packets fuel s | (Err _, _) => [] end
  end.

(** What [select!] finds: the deadline, a packet of the client ([None]: its end), a
    datagram of the session ([Ok None]: closed). *)
Inductive UdpEvent : Type :=
| IdleExpired
| UplinkPacket (p : option bytes) (sent : bool)
| SessionPacket (r : result unit (option (Destination * bytes))) (written : bool).

Record UdpPump : Type := mkPump { up_sent : list (Destination * bytes); up_written : bytes; up_result : option bool }.

Definition UdpPump_new : UdpPump := mkPump [] [] None.
Definition up_break (ok : bool) (s : UdpPump) : UdpPump := mkPump (up_sent s) (up_written s) (Some ok).

Definition udp_turn (udp_dest : Destination) (s : UdpPump) (e : UdpEvent) : UdpPump :=
  match up_result s with
  | Some _ => s
  | None =>
      match e with
      | IdleExpired => up_break true s
      | UplinkPacket None _ => up_break true s
      | UplinkPacket (Some payload) sent => if sent then mkPump (up_sent s ++ [(udp_dest, payload)]) (up_written s) None else up_break false s
      | SessionPacket (Err _) _ => up_break false s
      | SessionPacket (Ok None) _ => up_break true s
      | SessionPacket (Ok (Some (_, packet))) written =>
          match write_length_packet packet with
          | Err _ => up_break false s
          | Ok frame => if written then mkPump (up_sent s) (up_written s ++ frame) None else up_break false s
          end
      end
  end.

Definition handle_udp_relay (udp_dest : Destination) (evs : list UdpEvent) (s : UdpPump) : UdpPump := fold_left (udp_turn udp_dest) evs s.
