(* ===== verification/VlessClient.v ===== *)
(** [xray-proxy-vless/src/dispatcher.rs]: the outbound side, which decides the command,
    writes the request header and the first padding block, and frames datagrams.

    Dialing, the encryption layer and the retry around it are left out: a connection is
    what its polls will answer.  [random_range] draws the padding. *)
From Stdlib Require Import String List.
From stdpp Require Import base tactics option list numbers.
From S2P Require Import Prelude Bytes AsyncIo NetTypes StrMatch Uuid Vision VisionConn VlessProto.

Record VlessOutboundConfig : Type := mkVlessOutbound {
  vo_user_uuid : UUID;
  vo_server_address : Address;
  vo_server_port : Port;
  vo_flow : bytes;
  vo_encryption : bytes;
  vo_level : Z;
  vo_email : bytes;
  vo_testseed : list Z;
  vo_testpre : Z;
  vo_reverse : option ReverseRegistry;
}.

Definition VlessOutboundConfig_new (user_uuid : UUID) (server_address : Address) (server_port : Port) : VlessOutboundConfig :=
  mkVlessOutbound user_uuid server_address server_port [] (text "none") 0 [] [] 0 None.

Definition vless_server_destination (c : VlessOutboundConfig) : Destination := Destination_new (vo_server_address c) (vo_server_port c) TCP.

Inductive CommandError : Type := NiceTryBaby | NeedsReverse.

Definition outbound_command (config : VlessOutboundConfig) (dest : Destination) : result CommandError VlessCommand :=
  let domain := Address_as_domain (Destination_address dest) in
  let registered :=
    match vo_reverse config with
    | Some reg => match domain with Some d => contains_domain d reg | None => false end
    | None => false
    end in
  if negb registered && negb (bool_decide (domain = Some RVS_DOMAIN)) then Ok (if Destination_is_udp dest then CmdUdp else CmdTcp)
  else if negb (Port_value (Destination_port dest) =? 0) then Err NiceTryBaby
  else if negb registered then Err NeedsReverse
  else Ok CmdRvs.

(** [PreConns::pop]: the connections in the order they were pushed, each with when it was
    and when it is received. *)
Fixpoint PreConns_pop {C} (ttl : Z) (items : list (C * Z * Z)) : option C * list (C * Z * Z) :=
  match items with
  | [] => (None, [])
  | (conn, at_, now) :: items => if Z.max 0 (now - at_) <=? ttl then (Some conn, items) else PreConns_pop ttl items
  end.

(** * Datagrams *)

Record VlessUdpFramedConn : Type := mkVlessFramed { vf_rbuf : bytes; vf_rview : Z; vf_wpending : bytes; vf_wpos : Z }.

Definition VlessUdpFramedConn_new : VlessUdpFramedConn := mkVlessFramed [] 0 [] 0.

(** [while this.wpos < this.wpending.len()] *)
Fixpoint vless_write_frame (polls : list WritePoll) (wire : bytes) (c : VlessUdpFramedConn) : Poll unit * VlessUdpFramedConn * WriteHalf :=
  if vf_wpos c <? zlen (vf_wpending c) then
    match polls with
    | [] => (Pending, c, mkWriteHalf [] wire)
    | WritePending :: polls => (Pending, c, mkWriteHalf polls wire)
    | WriteFailed :: polls => (PollErr, c, mkWriteHalf polls wire)
    | WriteReady n :: polls =>
        let rest := zdrop (vf_wpos c) (vf_wpending c) in
        let n := Z.max 0 (Z.min n (zlen rest)) in
        if n =? 0 then (PollErr, c, mkWriteHalf polls wire)
        else vless_write_frame polls (wire ++ ztake n rest) (mkVlessFramed (vf_rbuf c) (vf_rview c) (vf_wpending c) (vf_wpos c + n))
    end
  else (Ready tt, c, mkWriteHalf polls wire).

Definition vless_chunk (buf : bytes) : bytes := ztake (Z.min (zlen buf) 65535) buf.
Definition vless_frame (chunk : bytes) : bytes := be16 (zlen chunk) ++ chunk.

Definition VlessUdpFramedConn_poll_write (buf : bytes) (c : VlessUdpFramedConn) (w : WriteHalf) : Poll Z * VlessUdpFramedConn * WriteHalf :=
  match vless_write_frame (wh_polls w) (wh_wire w) c with
  | (Pending, c, w) => (Pending, c, w)
  | (PollErr, c, w) => (PollErr, c, w)
  | (Ready _, c, w) =>
      let chunk := vless_chunk buf in
      match vless_write_frame (wh_polls w) (wh_wire w) (mkVlessFramed (vf_rbuf c) (vf_rview c) (vless_frame chunk) 0) with
      | (Ready _, c, w) => (Ready (zlen chunk), c, w)
      | (Pending, c, w) => (Pending, c, w)
      | (PollErr, c, w) => (PollErr, c, w)
      end
  end.

Definition vf_set_read (rbuf : bytes) (rview : Z) (c : VlessUdpFramedConn) : VlessUdpFramedConn := mkVlessFramed rbuf rview (vf_wpending c) (vf_wpos c).

(** What the buffer holds for the reader; frames of no bytes are passed over, two bytes
    each, so the length of the buffer and one are enough. *)
Fixpoint next_payload (fuel : nat) (room : Z) (c : VlessUdpFramedConn) : option (option bytes * VlessUdpFramedConn) :=
  match fuel with
  | O => None
  | S fuel =>
      if 0 <? vf_rview c then
        let n := Z.min (vf_rview c) room in
        Some (Some (ztake n (vf_rbuf c)), vf_set_read (zdrop n (vf_rbuf c)) (vf_rview c - n) c)
      else if 2 <=? zlen (vf_rbuf c) then
        let len := be_val (vf_rbuf c)[: 0, 2] in
        if 2 + len <=? zlen (vf_rbuf c) then next_payload fuel room (vf_set_read (zdrop 2 (vf_rbuf c)) len c)
        else Some (None, c)
      else Some (None, c)
  end.

(** The loop of [poll_read], which reads at most 8192 bytes at a time; a turn takes an
    event or part of one.  [None] is the end of the fuel. *)
Fixpoint VlessUdpFramedConn_poll_read (fuel : nat) (room : Z) (inner : list ReadEvent) (c : VlessUdpFramedConn)
    : option (Poll bytes * VlessUdpFramedConn * list ReadEvent) :=
  match fuel with
  | O => None
  | S fuel =>
      '(p, c) ← next_payload (S (S (length (vf_rbuf c)))) room c;
      match p with
      | Some bs => Some (Ready bs, c, inner)
      | None =>
          match poll_stream 8192 inner with
          | (Ready filled, inner) =>
              if zlen filled =? 0 then Some (if zlen (vf_rbuf c) =? 0 then Ready [] else PollErr, c, inner)
              else VlessUdpFramedConn_poll_read fuel room inner (vf_set_read (vf_rbuf c ++ filled) (vf_rview c) c)
          | (Pending, inner) => Some (Pending, c, inner)
          | (PollErr, inner) => Some (PollErr, c, inner)
          end
      end
  end.

(** Every turn of the loop takes an event or eight thousand bytes of one. *)
Definition read_fuel (inner : list ReadEvent) : nat := S (List.length inner + List.length (stream_bytes inner)).

(** * Establishing *)

(** What the caller is given: the bytes come after the header. *)
Inductive Established (Rng : Type) : Type :=
| EstPlain
| EstVision (conn : VisionConn Rng)
| EstUdp (conn : VlessUdpFramedConn).
Arguments EstPlain {Rng}.
Arguments EstVision {Rng} conn.
Arguments EstUdp {Rng} conn.

Inductive EstablishError : Type := CommandFailed (e : CommandError) | XrvUdp | HeaderFailed (e : VlessError).

Section establish.
Context `{!AddonsCodec} {Rng : Type}.
Variable random_range : Z -> Rng -> Z * Rng.

(** The bytes written while establishing, and the connection; the outer [None] is a
    padding seed with an empty range. *)
Definition establish_conn (config : VlessOutboundConfig) (command : VlessCommand) (target_addr : Address) (target_port : Port) (rng : Rng)
    : option (result EstablishError (bytes * Established Rng)) :=
  let is_udp := bool_decide (command = CmdUdp) in
  if is_udp && bool_decide (vo_flow config = FLOW_XRV) then Some (Err XrvUdp)
  else
    let addons := mkAddons (vo_flow config) [] in
    let '(address, port) := if needs_address command then (Some target_addr, Some (Port_value target_port)) else (None, None) in
    match encode_request_header VERSION (vo_user_uuid config) command address port addons with
    | Err e => Some (Err (HeaderFailed e))
    | Ok header =>
        if bool_decide (vo_flow config = FLOW_XRV) && bool_decide (vo_encryption config = text "none") then
          '(block, vision) ← write_uuid_only_padding random_range (with_padding_seed (vo_testseed config) (VisionConn_new (vo_user_uuid config) rng));
          Some (Ok (header ++ block, EstVision vision))
        else if is_udp then Some (Ok (header, EstUdp VlessUdpFramedConn_new))
        else Some (Ok (header, EstPlain))
    end.

(** [make_dial_fn] without an encryption layer. *)
Definition vless_dial (config : VlessOutboundConfig) (dest : Destination) (rng : Rng) : option (result EstablishError (bytes * Established Rng)) :=
  match outbound_command config dest with
  | Err e => Some (Err (CommandFailed e))
  | Ok command => establish_conn config command (Destination_address dest) (Destination_port dest) rng
  end.
End establish.
