(* ===== verification/VlessProps.v ===== *)
(** The codec of VLESS: headers both ways, datagrams with a length, the users, the lazy
    reader of the response header. *)
From Stdlib Require Import String List.
From stdpp Require Import base tactics option list numbers gmap.
From S2P Require Import Prelude Bytes BytesMut Buffer AsyncIo NetTypes AddrCodec StrMatch Mph Uuid VlessProto TrojanServerProps.

(** What the code relies on of the generated codec. *)
Class AddonsLaws `{!AddonsCodec} : Prop := {
  addons_roundtrip seed : addons_decode (addons_encode (mkAddons FLOW_XRV seed)) = Some (mkAddons FLOW_XRV seed);
  addons_nonempty seed : addons_encode (mkAddons FLOW_XRV seed) <> [];
}.

(** * Addresses *)

Definition vless_target (a : Address) (p : Z) : bytes := vless_write_address_port [] a p.

Lemma write_target out a p : vless_write_address_port out a p = out ++ vless_target a p.
Proof. unfold vless_target, vless_write_address_port. by destruct a; rewrite ?app_nil_l, <- !app_assoc. Qed.

(** A domain of more bytes than its length can say is cut. *)
Lemma target_cut d p : 255 < zlen d -> vless_target (Domain d) p = vless_target (Domain (ztake 255 d)) p.
Proof.
  intros H. unfold vless_target, vless_write_address_port. rewrite zlen_take. rewrite (proj2 (Z.leb_gt (zlen d) 255)) by lia. rewrite (proj2 (Z.leb_le _ 255)) by lia.
  replace (Z.min (Z.max 0 255) (zlen d)) with 255 by lia. rewrite !slice_0, ztake_take. done.
Qed.

Lemma takes_vless_read n bs : zlen bs = n -> takes (vless_read n) bs bs.
Proof. apply takes_read. Qed.

Lemma takes_vless_target a p : encodable a -> is_u16 p -> takes vless_read_address_port (vless_target a p) (a, Port_new p).
Proof.
  intros [Ha Hl] Hp. unfold vless_target, vless_write_address_port, vless_read_address_port. rewrite app_nil_l.
  destruct a as [o|o|d]; rewrite <- ?app_assoc.
  - eapply takes_bind; [apply takes_vless_read, be16_len|]. eapply takes_bind; [by apply takes_vless_read|]. rewrite byte_at_1, be16_val by done.
    eapply takes_bind_last; [apply takes_vless_read, Ha|]. apply takes_ret.
  - eapply takes_bind; [apply takes_vless_read, be16_len|]. eapply takes_bind; [by apply takes_vless_read|]. rewrite byte_at_1, be16_val by done.
    eapply takes_bind_last; [apply takes_vless_read, Ha|]. apply takes_ret.
  - rewrite (proj2 (Z.leb_le _ _) Hl), slice_all by done. eapply takes_bind; [apply takes_vless_read, be16_len|]. eapply takes_bind; [by apply takes_vless_read|]. rewrite byte_at_1, be16_val by done.
    cbn [Z.eqb ADDR_DOMAIN ADDR_IPV4 Pos.eqb]. eapply takes_bind; [by apply takes_vless_read|]. rewrite byte_at_1.
    eapply takes_bind_last; [by apply takes_vless_read|]. destruct Ha as [_ ->]. apply takes_ret.
Qed.

Lemma yields_vless_read n : yields (vless_read n) (fun b x => b = x /\ zlen x = Z.max 0 n).
Proof. apply yields_read_any. Qed.

Lemma yields_vless_target : yields vless_read_address_port (fun took r => bytes_ok took -> encodable r.1 /\ is_u16 (Port_value r.2) /\ took = vless_target r.1 (Port_value r.2)).
Proof.
  unfold vless_read_address_port, vless_target, vless_write_address_port. apply (yields_bind _ _ _ _ (yields_vless_read 2)). intros b1 pb [-> Hpb].
  apply (yields_bind _ _ _ _ (yields_vless_read 1)). intros b2 x [-> Hx]. destruct x as [|ty [|]]; [done| |zlia]. clear Hx. rewrite byte_at_1.
  assert (Hport : bytes_ok pb -> is_u16 (be_val pb) /\ be16 (be_val pb) = pb) by (intros Hb; split; [by apply be_val_u16|by apply be16_of_val]).
  destruct (Z.eqb_spec ty ADDR_IPV4) as [->|_]; [|destruct (Z.eqb_spec ty ADDR_DOMAIN) as [->|_]; [|destruct (Z.eqb_spec ty ADDR_IPV6) as [->|_]; [|apply yields_fail]]].
  - apply (yields_bind _ _ _ _ (yields_vless_read 4)). intros b3 o [-> Ho]. apply yields_ret. cbn [fst snd Port_value]. rewrite !Forall_app. intros (Hpb' & _ & Ho' & _).
    destruct (Hport Hpb') as [H1 H2]. split_and!; [done|done|]. by rewrite H2, !app_nil_r.
  - apply (yields_bind _ _ _ _ (yields_vless_read 1)). intros b3 x [-> Hx]. destruct x as [|len [|]]; [done| |zlia]. clear Hx. rewrite byte_at_1.
    apply (yields_bind _ _ _ _ (yields_vless_read len)). intros b4 d [-> Hd].
    destruct (utf8_valid d) eqn:Eu; [|apply yields_fail]. apply yields_ret. cbn [fst snd Port_value]. rewrite !Forall_app. intros (Hpb' & _ & Hl & Hd' & _).
    destruct (Hport Hpb') as [H1 H2]. apply Forall_cons_iff in Hl as [Hl _]. unfold is_u8 in Hl. split_and!; [split; [done|cbn; lia]|done|].
    rewrite H2, !app_nil_r. cbn [app]. rewrite (proj2 (Z.leb_le _ 255)) by lia. rewrite slice_all by done. rewrite Hd, Z.max_r by lia. done.
  - apply (yields_bind _ _ _ _ (yields_vless_read 16)). intros b3 o [-> Ho]. apply yields_ret. cbn [fst snd Port_value]. rewrite !Forall_app. intros (Hpb' & _ & Ho' & _).
    destruct (Hport Hpb') as [H1 H2]. split_and!; [done|done|]. by rewrite H2, !app_nil_r.
Qed.

(** * Headers *)

Section headers.
Context `{!AddonsCodec}.

Definition addons_fit (a : Addons) : Prop := ad_flow a = FLOW_XRV -> zlen (addons_encode a) <= 255.
Definition addons_bytes (a : Addons) : bytes := if bool_decide (ad_flow a = FLOW_XRV) then zlen (addons_encode a) :: addons_encode a else [0].

(** What the other side is told: only the vision flow is. *)
Definition addons_seen (a : Addons) : Addons := if bool_decide (ad_flow a = FLOW_XRV) then a else empty_addons.

Lemma encode_addons_spec out a : encode_header_addons out a = if bool_decide (ad_flow a = FLOW_XRV) && (255 <? zlen (addons_encode a)) then Err VlessOther else Ok (out ++ addons_bytes a).
Proof.
  unfold encode_header_addons, addons_bytes. destruct (bool_decide _); [|done]. cbn [andb]. destruct (Z.leb_spec (zlen (addons_encode a)) 255), (Z.ltb_spec 255 (zlen (addons_encode a))); done || lia.
Qed.

Definition vless_header (uuid : UUID) (cmd : VlessCommand) (addr : Address) (port : Z) (a : Addons) : bytes :=
  [VERSION] ++ uuid ++ addons_bytes a ++ [VlessCommand_as_u8 cmd] ++ (if needs_address cmd then vless_target addr port else []).

(** The arguments of the encoder for a command. *)
Definition address_arg (cmd : VlessCommand) (addr : Address) : option Address := if needs_address cmd then Some addr else None.
Definition port_arg (cmd : VlessCommand) (port : Z) : option Z := if needs_address cmd then Some port else None.

Lemma encode_request_spec uuid cmd addr port a : addons_fit a ->
  encode_request_header VERSION uuid cmd (address_arg cmd addr) (port_arg cmd port) a = Ok (vless_header uuid cmd addr port a).
Proof.
  intros Hf. unfold encode_request_header, address_arg, port_arg, vless_header. rewrite encode_addons_spec.
  assert (bool_decide (ad_flow a = FLOW_XRV) && (255 <? zlen (addons_encode a)) = false) as ->.
  { destruct (bool_decide_reflect (ad_flow a = FLOW_XRV)) as [E|]; [|done]. apply Z.ltb_ge. by apply Hf. }
  destruct cmd; cbn [needs_address negb andb orb mbind result_bind]; rewrite ?bool_decide_false by (done || by intros [? [=]]); cbn [orb mbind result_bind]; rewrite ?write_target, <- !app_assoc; done.
Qed.

(** What the server makes of it. *)
Definition request_address (cmd : VlessCommand) (addr : Address) : option Address := if needs_address cmd then Some addr else Domain <$> fixed_domain cmd.

Definition decoded_of (uuid : UUID) (cmd : VlessCommand) (addr : Address) (port : Z) (a : Addons) (user : VlessUser) : DecodedRequest :=
  mkDecoded VERSION uuid cmd (request_address cmd addr) (port_arg cmd port) (addons_seen a) (Some user).

Lemma command_byte cmd : VlessCommand_from_u8 (VlessCommand_as_u8 cmd) = Some cmd.
Proof. by destruct cmd. Qed.
Lemma command_of_byte b cmd : VlessCommand_from_u8 b = Some cmd -> b = VlessCommand_as_u8 cmd.
Proof. unfold VlessCommand_from_u8. intros E. repeat case_match; try done; injection E as <-; cbn; lia. Qed.

Context `{!AddonsLaws}.

Lemma takes_addons a : addons_fit a -> takes decode_header_addons (addons_bytes a) (addons_seen a).
Proof.
  intros Hf. unfold addons_bytes, addons_seen, decode_header_addons. destruct a as [flow seed]. cbn [ad_flow] in *. case_bool_decide as Ex.
  - subst flow. set (e := addons_encode _) in *. change (zlen e :: e) with ([zlen e] ++ e). eapply takes_bind; [by apply takes_vless_read|]. rewrite byte_at_1.
    assert (Hne : e <> []) by apply addons_nonempty. rewrite (proj2 (Z.eqb_neq _ 0)) by (intros E; apply Hne, zlen_zero; lia).
    eapply takes_bind_last; [by apply takes_vless_read|]. apply takes_some, addons_roundtrip.
  - rewrite <- (app_nil_r [0]). eapply takes_bind; [by apply takes_vless_read|]. apply takes_ret.
Qed.

Lemma takes_request v uuid cmd addr port a user : zlen uuid = 16 -> encodable addr -> is_u16 port -> addons_fit a -> VlessValidator_get v uuid = Some user ->
  takes (decode_request_header false None v) (vless_header uuid cmd addr port a) (decoded_of uuid cmd addr port a user, None).
Proof.
  intros Hu Ha Hp Hf Hv. unfold decode_request_header, vless_header, read_version_id. rewrite app_assoc.
  eapply takes_bind. { eapply takes_bind; [by apply takes_vless_read|]. eapply takes_bind_last; [by apply takes_vless_read|]. apply takes_ret. }
  rewrite byte_at_1. cbn [Z.eqb VERSION negb]. eapply takes_bind_first; [by apply takes_some|]. eapply takes_bind; [by apply takes_addons|].
  eapply takes_bind; [by apply takes_vless_read|]. rewrite byte_at_1. eapply takes_bind_first; [apply takes_some, command_byte|].
  unfold decoded_of, request_address, port_arg. destruct (needs_address cmd).
  - eapply takes_bind_last; [by apply takes_vless_target|]. apply takes_ret.
  - apply takes_ret.
Qed.

(** What an accepted header was. *)
Definition header_was (v : VlessValidator) (took : bytes) (d : DecodedRequest) : Prop :=
  dr_version d = VERSION /\ zlen (dr_user_id d) = 16 /\
  (exists user, VlessValidator_get v (dr_user_id d) = Some user /\ dr_user d = Some user) /\
  exists ad, took = [VERSION] ++ dr_user_id d ++ ad ++ [VlessCommand_as_u8 (dr_command d)] ++
    match dr_address d, dr_port d with Some a, Some p => vless_target a p | _, _ => [] end /\
  (ad = [0] /\ dr_addons d = empty_addons \/ exists e, ad = zlen e :: e /\ addons_decode e = Some (dr_addons d)) /\
  (if needs_address (dr_command d) then exists a p, dr_address d = Some a /\ dr_port d = Some p /\ encodable a /\ is_u16 p
   else dr_address d = Domain <$> fixed_domain (dr_command d) /\ dr_port d = None).

Lemma yields_addons : yields decode_header_addons (fun took a => bytes_ok took -> took = [0] /\ a = empty_addons \/ exists e, took = zlen e :: e /\ addons_decode e = Some a).
Proof.
  unfold decode_header_addons. apply (yields_bind _ _ _ _ (yields_vless_read 1)). intros b1 x [-> Hx]. destruct x as [|n [|]]; [done| |zlia]. clear Hx. rewrite byte_at_1.
  destruct (Z.eqb_spec n 0) as [->|Hn]; [apply yields_ret; by left|].
  apply (yields_bind _ _ _ _ (yields_vless_read n)). intros b2 e [-> He]. apply yields_some. intros a Ea. rewrite app_nil_r. intros Hb. right. exists e. split; [|done].
  apply Forall_app in Hb as [Hb _]. apply Forall_cons_iff in Hb as [Hb _]. unfold is_u8 in Hb. rewrite He, Z.max_r by lia. done.
Qed.

Lemma yields_request v : yields (decode_request_header false None v) (fun took r => bytes_ok took -> header_was v took r.1).
Proof.
  unfold decode_request_header, read_version_id. eapply (yields_bind _ _ (fun b '(ver, id, first) => b = [ver] ++ id /\ zlen id = 16)).
  { apply (yields_bind _ _ _ _ (yields_vless_read 1)). intros b1 x [-> Hx]. destruct x as [|n [|]]; [done| |zlia]. rewrite byte_at_1.
    apply (yields_bind _ _ _ _ (yields_vless_read 16)). intros b2 id [-> Hid]. apply yields_ret. by rewrite app_nil_r. }
  intros b1 [[ver id] first] [-> Hid]. destruct (Z.eqb_spec ver VERSION) as [->|]; cbn [negb]; [|apply yields_fail].
  apply (yields_bind _ _ (fun b user => b = [] /\ VlessValidator_get v id = Some user)); [apply yields_some; done|]. intros b2 user [-> Hu].
  apply (yields_bind _ _ _ _ yields_addons). intros b3 a Ha.
  apply (yields_bind _ _ _ _ (yields_vless_read 1)). intros b4 x [-> Hx]. destruct x as [|n [|]]; [done| |zlia]. clear Hx. rewrite byte_at_1.
  apply (yields_bind _ _ (fun b cmd => b = [] /\ VlessCommand_from_u8 n = Some cmd)); [apply yields_some; done|]. intros b5 cmd [-> Hcmd]. apply command_of_byte in Hcmd as ->.
  destruct (needs_address cmd) eqn:En.
  - apply (yields_bind _ _ _ _ yields_vless_target). intros b6 [addr port] Ht. cbn [fst snd] in Ht. apply yields_ret. rewrite !app_nil_l, app_nil_r, !Forall_app.
    intros (_ & Hb3 & _ & Hb6). destruct (Ht Hb6) as (H1 & H2 & ->). unfold header_was. cbn [fst dr_version dr_user_id dr_command dr_address dr_port dr_addons dr_user]. rewrite En.
    split_and!; [done|done|by exists user|]. exists b3. split_and!; [by rewrite <- !app_assoc|by apply Ha|]. by exists addr, (Port_value port).
  - apply yields_ret. rewrite !app_nil_l, app_nil_r, !Forall_app. intros (_ & Hb3 & _). unfold header_was. cbn [fst dr_version dr_user_id dr_command dr_address dr_port dr_addons dr_user]. rewrite En.
    split_and!; [done|done|by exists user|]. exists b3. split_and!; [|by apply Ha|done|done]. destruct (fixed_domain cmd); cbn; by rewrite ?app_nil_r, <- ?app_assoc.
Qed.

(** C20: The request header.  What a client writes for a user the server knows is read back
    with the same command, address and port, the user found under the id sent, the flow of
    vision and no other, exactly the header taken however the bytes are cut; and whatever
    the server accepts is a header of that form under an id it knows.  But a domain of more
    than 255 bytes is written cut, and reaches the server as another name. *)
Theorem vless_request_roundtrip v uuid cmd addr port a user rest evs : zlen uuid = 16 -> is_u16 port -> addons_fit a -> flows evs ->
  (encodable addr -> VlessValidator_get v uuid = Some user ->
   exists header, encode_request_header VERSION uuid cmd (address_arg cmd addr) (port_arg cmd port) a = Ok header /\
   (stream_bytes evs = header ++ rest -> exists s, decode_request_header false None v (RecordingStream_new evs) = (Ok (decoded_of uuid cmd addr port a user, None), s) /\
     rs_buf s = header /\ stream_bytes (rs_inner s) = rest)) /\
  (forall d first s, bytes_ok (stream_bytes evs) -> decode_request_header false None v (RecordingStream_new evs) = (Ok (d, first), s) ->
     rs_buf s ++ stream_bytes (rs_inner s) = stream_bytes evs /\ header_was v (rs_buf s) d) /\
  (forall name, 255 < zlen name -> encode_request_header VERSION uuid CmdTcp (Some (Domain name)) (Some port) a = encode_request_header VERSION uuid CmdTcp (Some (Domain (ztake 255 name))) (Some port) a).
Proof.
  intros Hu Hp Hf Hfl. split_and!.
  - intros Ha Hv. exists (vless_header uuid cmd addr port a). split; [by apply encode_request_spec|]. intros E.
    destruct (takes_request v uuid cmd addr port a user Hu Ha Hp Hf Hv (RecordingStream_new evs) rest Hfl E) as (s & Es & _ & Er & Eb). by exists s.
  - intros d first s Hb E. destruct (yields_request v _ _ _ E) as (took & Eb & Es & Hd). cbn [rs_buf rs_inner RecordingStream_new app] in *. rewrite Eb, Es. split; [done|].
    apply Hd. rewrite Es in Hb. by apply Forall_app in Hb as [? _].
  - intros name Hn. pose proof (encode_request_spec uuid CmdTcp (Domain name) port a Hf) as E1. pose proof (encode_request_spec uuid CmdTcp (Domain (ztake 255 name)) port a Hf) as E2.
    cbn [address_arg port_arg needs_address] in E1, E2. rewrite E1, E2. unfold vless_header. cbn [needs_address]. by rewrite target_cut.
Qed.
End headers.

(** * The response header, read lazily *)

Definition rhr_poll (room : Z) (s : ResponseHeaderReader * list ReadEvent) : option (Poll bytes * (ResponseHeaderReader * list ReadEvent)) :=
  '(p, r, inner) ← ResponseHeaderReader_poll_read room s.2 s.1; Some (p, (r, inner)).

Lemma fill_head_spec fuel want full : forall inner head, quiet inner -> head ++ stream_bytes inner = full -> want <= zlen full ->
  (Z.to_nat (want - zlen head) < fuel)%nat ->
  exists p inner' head', fill_head fuel inner head want = Some (p, inner', head') /\ quiet inner' /\ head' ++ stream_bytes inner' = full /\
    ((p = Ready tt /\ want <= zlen head' /\ stalls inner' = stalls inner) \/ (p = Pending /\ zlen head' < want /\ stalls inner = 1 + stalls inner')).
Proof.
  induction fuel as [|fuel IH]; intros inner head Hq E Hw Hf; [lia|]. cbn [fill_head]. destruct (Z.ltb_spec (zlen head) want) as [Hlt|Hge].
  - destruct (poll_stream_step 128 inner ltac:(lia) Hq) as (r & inner' & -> & Hq' & [(bs & -> & Es & H0 & Hs)|(-> & Es & Hs)]).
    + destruct (Z.eqb_spec (zlen bs) 0) as [Hz|Hz].
      { assert (bs = []) as -> by (apply zlen_zero; lia). rewrite (H0 eq_refl), app_nil_r in E. subst full. lia. }
      pose proof (zlen_nonneg bs). destruct (IH inner' (head ++ bs) Hq') as (p & i2 & h2 & E2 & Hq2 & Ef & Hr); [by rewrite <- app_assoc, <- Es|done|zlens; lia|].
      exists p, i2, h2. rewrite Hs in Hr. done.
    + eexists _, _, _. split_and!; [reflexivity|done|by rewrite Es|]. right. done.
  - eexists _, _, _. split_and!; [reflexivity|done|done|]. by left.
Qed.

(** What the reader still has for its caller: [ver] and [ad] are the header's. *)
Inductive rhr_holds (ver : Z) (ad body : bytes) : ResponseHeaderReader * list ReadEvent -> bytes -> Prop :=
| rhr_waiting r inner : rh_done r = false -> rh_expected_version r = ver -> quiet inner -> rh_head r ++ stream_bytes inner = ver :: zlen ad :: ad ++ body ->
    rhr_holds ver ad body (r, inner) body
| rhr_open r inner text : rh_done r = true -> 0 <= rh_head_pos r <= zlen (rh_head r) -> quiet inner -> text = zdrop (rh_head_pos r) (rh_head r) ++ stream_bytes inner ->
    rhr_holds ver ad body (r, inner) text.

Lemma rh_deliver_step ver ad body room r inner text : 1 <= room -> rh_done r = true -> 0 <= rh_head_pos r <= zlen (rh_head r) -> quiet inner ->
  text = zdrop (rh_head_pos r) (rh_head r) ++ stream_bytes inner ->
  exists p r' inner' text', rh_deliver room inner r = (p, r', inner') /\ rhr_holds ver ad body (r', inner') text' /\ answers p text text' (stalls inner) (stalls inner').
Proof.
  intros Hroom Hd Hpos Hq ->. unfold rh_deliver. destruct (Z.ltb_spec (rh_head_pos r) (zlen (rh_head r))) as [Hlt|Hge].
  - set (avail := zdrop (rh_head_pos r) (rh_head r)). assert (Hav : zlen avail = zlen (rh_head r) - rh_head_pos r) by (subst avail; zlens; lia).
    set (n := Z.min (zlen avail) room). eexists _, _, _, (zdrop n avail ++ stream_bytes inner). split_and!; [reflexivity| |].
    + apply rhr_open; cbn; [done|lia|done|]. f_equal. subst avail. by rewrite zdrop_drop by lia.
    + left. eexists. split_and!; [reflexivity|by rewrite app_assoc, ztake_drop| |lia]. intros E0. apply (f_equal zlen) in E0. zlens. lia.
  - rewrite zdrop_ge by lia. cbn [app]. destruct (poll_stream_step room inner Hroom Hq) as (p & inner' & -> & Hq' & Hans). eexists _, _, _, (stream_bytes inner'). split_and!; [reflexivity| |].
    + apply rhr_open; [done|done|done|]. by rewrite zdrop_ge by lia.
    + destruct Hans as [(bs & -> & Es & H0 & Hs)|(-> & Es & Hs)]; [left; exists bs; split_and!; [done|done|done|lia]|right; split_and!; [done|done|lia]].
Qed.

Lemma rhr_poll_step ver ad body room s text : zlen ad <= 255 -> 1 <= room -> rhr_holds ver ad body s text ->
  exists p s' text', rhr_poll room s = Some (p, s') /\ rhr_holds ver ad body s' text' /\ answers p text text' (stalls s.2) (stalls s'.2).
Proof.
  intros Had Hroom Hh. unfold rhr_poll, ResponseHeaderReader_poll_read. destruct Hh as [r inner Hd Hv Hq E|r inner text Hd Hpos Hq ->]; cbn [fst snd]; rewrite Hd.
  - set (full := ver :: zlen ad :: ad ++ body) in *. assert (Hfull : 2 + zlen ad <= zlen full) by (subst full; zlens; pose proof (zlen_nonneg body); lia). pose proof (zlen_nonneg ad).
    pose proof (zlen_nonneg (rh_head r)).
    assert (Hwait : forall head inner', quiet inner' -> head ++ stream_bytes inner' = full -> rhr_holds ver ad body (rh_set head (rh_head_pos r) false r, inner') body) by (intros; by apply rhr_waiting).
    destruct (fill_head_spec (fill_fuel 2) 2 full inner (rh_head r) Hq E) as (p & i1 & h1 & -> & Hq1 & E1 & Hp); [lia|unfold fill_fuel; lia|]. cbn [mbind option_bind].
    destruct Hp as [(-> & Hl & Hs)|(-> & Hl & Hs)].
    2: { rewrite (proj2 (Z.ltb_lt _ _) Hl). cbn [mbind option_bind]. eexists _, _, body. split_and!; [reflexivity|by apply Hwait|]. right. split_and!; [done|done|cbn [snd]; lia]. }
    rewrite (proj2 (Z.ltb_ge _ _) Hl). assert (Hh1 : h1 @ 0 = ver /\ h1 @ 1 = zlen ad).
    { destruct h1 as [|x [|y h1]]; [zlens; lia..|]. subst full. by injection E1 as -> ->. }
    destruct Hh1 as [Hh0 Hh1]. rewrite Hh1.
    assert (Hfill2 : exists p inner' head', (if 0 <? zlen ad then fill_head (fill_fuel (2 + zlen ad)) i1 h1 (2 + zlen ad) else Some (Ready tt, i1, h1)) = Some (p, inner', head') /\ quiet inner' /\ head' ++ stream_bytes inner' = full /\
      ((p = Ready tt /\ 2 + zlen ad <= zlen head' /\ stalls inner' = stalls i1) \/ (p = Pending /\ stalls i1 = 1 + stalls inner'))).
    { destruct (Z.ltb_spec 0 (zlen ad)).
      - pose proof (zlen_nonneg h1). destruct (fill_head_spec (fill_fuel (2 + zlen ad)) (2 + zlen ad) full i1 h1 Hq1 E1) as (p & i2 & h2 & E2 & Hq2 & Ef & Hp); [lia|unfold fill_fuel; lia|]. exists p, i2, h2. tauto.
      - eexists _, _, _. split_and!; [reflexivity|done|done|]. left. split_and!; [done|lia|done]. }
    destruct Hfill2 as (p & i2 & h2 & -> & Hq2 & E2 & [(-> & Hl2 & Hs2)|(-> & Hs2)]); cbn [mbind option_bind].
    2: { eexists _, _, body. split_and!; [reflexivity|by apply Hwait|]. right. split_and!; [done|done|cbn [snd]; lia]. }
    assert (Eh : h2 @ 0 = ver) by (destruct h2 as [|x h2]; [zlens; lia|]; subst full; by injection E2 as ->).
    match goal with |- context [negb ?b] => assert (b = true) as -> by (rewrite Eh; by apply Z.eqb_eq) end. cbn [negb].
    match goal with |- context [rh_deliver room i2 ?x] => destruct (rh_deliver_step ver ad body room x i2 body) as (p & r' & i3 & text' & Ed & Hh3 & Hans) end; [done|done|cbn; lia|done| |].
    { cbn. assert (Ed : zdrop (2 + zlen ad) (h2 ++ stream_bytes i2) = body) by (rewrite E2; change full with ((ver :: zlen ad :: ad) ++ body); apply zdrop_app; zlens; lia). by rewrite zdrop_app_le in Ed by lia. }
    rewrite Ed. cbn [mbind option_bind]. eexists _, _, _. split_and!; [reflexivity|done|]. cbn [snd]. rewrite <- Hs, <- Hs2. done.
  - destruct (rh_deliver_step ver ad body room r inner _ Hroom Hd Hpos Hq eq_refl) as (p & r' & i' & text' & -> & Hh & Ha). cbn [mbind option_bind]. by eexists _, _, _.
Qed.

(** C21: The response header is invisible.  Behind a header with the version expected, cut
    in any way and with reads that find nothing yet, the lazy reader gives out the body and
    nothing else, all of it after enough reads. *)
Theorem vless_response_transparent `{!AddonsCodec} version a header body inner rooms :
  encode_response_header version a = Ok header -> quiet inner -> stream_bytes inner = header ++ body -> Forall (fun n => 1 <= n) rooms ->
  drains rhr_poll rooms (ResponseHeaderReader_new version, inner) body (stalls inner).
Proof.
  intros He Hq Es Hrooms. unfold encode_response_header in He. rewrite encode_addons_spec in He.
  assert (Hh : exists ad, header = version :: zlen ad :: ad /\ zlen ad <= 255).
  { unfold addons_bytes in He. destruct (bool_decide _); cbn [andb] in He; [|injection He as <-; by exists []]. destruct (Z.ltb_spec 255 (zlen (addons_encode a))); [done|]. injection He as <-. by eexists. }
  destruct Hh as (ad & -> & Had). apply (drain_holds rhr_poll (rhr_holds version ad body) (fun s => stalls s.2)); [intros s; apply stalls_nonneg| |done|by apply rhr_waiting].
  intros room s text Hroom Hh. by apply rhr_poll_step.
Qed.

(** * Users *)

Section users.
Context `{!StdText}.

Definition validator_ok (v : VlessValidator) : Prop :=
  map_Forall (fun k u => user_key u = k) (vv_uuid v) /\
  map_Forall (fun k u => to_lowercase (vu_email u) = k /\ vu_email u <> []) (vv_email v).

Inductive vless_users : VlessValidator -> Prop :=
| users_none : vless_users VlessValidator_new
| users_add u v : vless_users v -> vless_users (VlessValidator_add u v).2
| users_del email v : vless_users v -> vless_users (VlessValidator_del email v).2.

Lemma users_ok v : vless_users v -> validator_ok v.
Proof.
  induction 1 as [|u v _ [IH1 IH2]|email v _ [IH1 IH2]].
  - split; apply map_Forall_empty.
  - unfold VlessValidator_add. case_bool_decide as He; cbn [snd].
    + split; [|done]. by apply map_Forall_insert_2.
    + destruct (vv_email v !! to_lowercase (vu_email u)); [done|]. split; by apply map_Forall_insert_2.
  - unfold VlessValidator_del. case_bool_decide; [done|]. destruct (vv_email v !! to_lowercase email) as [u|]; [|done]. split; by apply map_Forall_delete.
Qed.

(** Bytes 6 and 7 of an id are free. *)
Lemma process_free id x y : process_uuid (<[6%nat := x]> (<[7%nat := y]> id)) = process_uuid id.
Proof. unfold process_uuid, UUID in *. rewrite list_insert_insert_eq. rewrite (list_insert_insert_ne id 6 7) by done. by rewrite list_insert_insert_eq. Qed.

(** C22: Who may connect.  In every table that additions and removals lead to, an id finds
    only a user whose own id is the same but for bytes 6 and 7, whatever these are; a user
    added is found under each such id and changes nothing for the others, and is refused
    exactly when its e-mail is taken; a removal takes the e-mail and the id of that user
    away and leaves every other id.  So the removal of a user shuts out another one that
    was added since with the same id. *)
Theorem vless_users_exact v : vless_users v ->
  (forall id u, VlessValidator_get v id = Some u -> process_uuid (va_uuid (vu_account u)) = process_uuid id) /\
  (forall id x y, VlessValidator_get v (<[6%nat := x]> (<[7%nat := y]> id)) = VlessValidator_get v id) /\
  (forall u, match VlessValidator_add u v with
     | (Ok _, v') => (forall id, VlessValidator_get v' id = if bool_decide (process_uuid id = user_key u) then Some u else VlessValidator_get v id) /\
         (forall e, vu_email u <> [] -> VlessValidator_get_by_email v' e = if bool_decide (to_lowercase e = to_lowercase (vu_email u)) then Some u else VlessValidator_get_by_email v e) /\
         (vu_email u = [] \/ VlessValidator_get_by_email v (vu_email u) = None)
     | (Err e, v') => v' = v /\ e = VlessUserAlreadyExists (vu_email u) /\ is_Some (VlessValidator_get_by_email v (vu_email u))
     end) /\
  (forall email, match VlessValidator_del email v with
     | (Ok _, v') => exists u, VlessValidator_get_by_email v email = Some u /\ VlessValidator_get_by_email v' email = None /\
         (forall id, VlessValidator_get v' id = if bool_decide (process_uuid id = user_key u) then None else VlessValidator_get v id)
     | (Err e, v') => v' = v /\ (email = [] \/ VlessValidator_get_by_email v email = None)
     end) /\
  (forall id a a', va_uuid a = id -> va_uuid a' = id ->
     exists v', vless_users v' /\ (exists v0, vless_users v0 /\ VlessValidator_add (mkVlessUser 0 [] a') v0 = (Ok tt, v') /\ VlessValidator_get v' id = Some (mkVlessUser 0 [] a')) /\
       VlessValidator_get (VlessValidator_del [97] v').2 id = None /\ (VlessValidator_del [97] v').1 = Ok tt).
Proof.
  intros Hv. destruct (users_ok v Hv) as [H1 H2]. split_and!.
  - intros id u E. unfold VlessValidator_get in E. apply H1 in E. done.
  - intros id x y. unfold VlessValidator_get. by rewrite process_free.
  - intros u. unfold VlessValidator_add, VlessValidator_get_by_email, VlessValidator_get. case_bool_decide as He.
    + split_and!; [|done|by left]. intros id. cbn [vv_uuid]. case_bool_decide as Hk; [by rewrite Hk, lookup_insert_eq|by rewrite lookup_insert_ne].
    + destruct (vv_email v !! to_lowercase (vu_email u)) as [u'|] eqn:E; [by eexists|]. split_and!; [| |by right].
      * intros id. cbn [vv_uuid]. case_bool_decide as Hk; [by rewrite Hk, lookup_insert_eq|by rewrite lookup_insert_ne].
      * intros e _. cbn [vv_email]. case_bool_decide as Hk; [by rewrite Hk, lookup_insert_eq|by rewrite lookup_insert_ne].
  - intros email. unfold VlessValidator_del, VlessValidator_get_by_email, VlessValidator_get. case_bool_decide as He; [by split; [|left]|].
    destruct (vv_email v !! to_lowercase email) as [u|] eqn:E; [|by split; [|right]]. exists u. cbn [vv_email vv_uuid]. split_and!; [done|apply lookup_delete_eq|].
    intros id. case_bool_decide as Hk; [by rewrite Hk, lookup_delete_eq|by rewrite lookup_delete_ne].
  - intros id a a' Ea Ea'. set (v0 := (VlessValidator_add (mkVlessUser 0 [97] a) VlessValidator_new).2). set (v1 := (VlessValidator_add (mkVlessUser 0 [] a') v0).2).
    assert (Hv0 : vless_users v0) by (apply users_add, users_none).
    assert (Hdel : VlessValidator_del [97] v1 = (Ok tt, mkVlessValidator (delete (to_lowercase [97]) (vv_email v1)) (delete (process_uuid (va_uuid a)) (vv_uuid v1)))).
    { unfold VlessValidator_del. rewrite bool_decide_false by done.
      assert (E : vv_email v1 !! to_lowercase [97] = Some (mkVlessUser 0 [97] a)).
      { change (vv_email v1) with (vv_email v0). unfold v0, VlessValidator_add. rewrite bool_decide_false by done. cbn [vu_email].
        change (vv_email VlessValidator_new) with (∅ : gmap bytes VlessUser). rewrite lookup_empty. cbn [snd vv_email]. apply lookup_insert_eq. }
      by rewrite E. }
    exists v1. split_and!.
    + by apply users_add.
    + exists v0. split_and!; [done|done|]. unfold VlessValidator_get. change (vv_uuid v1) with (<[process_uuid (va_uuid a') := mkVlessUser 0 [] a']> (vv_uuid v0)). rewrite Ea'. apply lookup_insert_eq.
    + rewrite Hdel. cbn [snd]. unfold VlessValidator_get. cbn [vv_uuid]. rewrite Ea. apply lookup_delete_eq.
    + by rewrite Hdel.
Qed.
End users.
