(* ===== verification/VlessServerProps.v ===== *)
(** The VLESS server: which connections it serves and how, what a fallback receives, and a
    client's connection from its header on. *)
From Stdlib Require Import String List.
From stdpp Require Import base tactics option list numbers gmap.
From S2P Require Import Prelude Bytes BytesMut Buffer AsyncIo NetTypes AddrCodec StrMatch Mph Fallback Uuid Vision VisionConn VisionProps VisionConnProps VlessProto VlessServer VlessClient VlessProps.

Section server.
Context `{!AddonsCodec} `{!IpText}.

(** What the flow of a request may be. *)
Definition flow_rule (d : DecodedRequest) (user : VlessUser) (options : option VlessInboundOptions) : Prop :=
  let flow := ad_flow (dr_addons d) in
  (flow = FLOW_XRV /\ va_flow (vu_account user) = FLOW_XRV /\ dr_command d <> CmdUdp /\ (exists o, options = Some o /\ io_outer_tls13 o = true)) \/
  (flow = [] /\ (dr_command d = CmdTcp -> va_flow (vu_account user) <> FLOW_XRV)).

(** What a request is served as. *)
Definition served_as (d : DecodedRequest) (user : VlessUser) (options : option VlessInboundOptions) (raw_tcp : bool) (what : Served) : Prop :=
  match dr_command d with
  | CmdTcp => exists a p access, dr_address d = Some a /\ dr_port d = Some p /\ ax_email access = vu_email user /\ ax_level access = vu_level user /\
      what = ServedTcp (Destination_new a (Port_new p) TCP)
        (if bool_decide (ad_flow (dr_addons d) = FLOW_XRV) then Some (va_uuid (vu_account user), va_testseed (vu_account user), raw_tcp) else None) access
  | CmdUdp => exists a p, dr_address d = Some a /\ dr_port d = Some p /\ what = ServedUdp (Destination_new a (Port_new p) UDP)
  | CmdMux => exists access, what = ServedMux (Destination_new (Domain (text "v1.mux.cool")) (Port_new 0) TCP) access /\ ax_email access = vu_email user /\
      (ad_flow (dr_addons d) = FLOW_XRV -> ax_allowed_network access = Some UDP)
  | CmdRvs => what = ServedNothing \/ exists o registry r portal, options = Some o /\ io_enable_reverse o = true /\ io_reverse_registry o = Some registry /\
      va_reverse (vu_account user) = Some r /\ rv_tag r <> [] /\ rr_entries registry !! rv_tag r = Some portal /\
      what = ServedReverse (pc_tag portal) (Destination_new (Domain (pc_domain portal)) (Port_new 0) TCP)
  end.

Lemma validate_flow_rule d user options : dr_user d = Some user ->
  (exists u, validate_flow (ad_flow (dr_addons d)) (va_flow (vu_account user)) (dr_command d) (match options with Some o => io_outer_tls13 o | None => false end) = Ok u) <-> flow_rule d user options.
Proof.
  intros Hu. unfold validate_flow, flow_rule. split.
  - intros [u E]. repeat case_bool_decide; cbn [negb andb] in E; try done.
    + left. destruct options as [o|]; [|done]. destruct (io_outer_tls13 o) eqn:Eo; [|done]. split_and!; try done. by exists o.
    + right. split; [done|]. naive_solver.
    + right. split; [done|]. naive_solver.
    + right. split; [done|]. naive_solver.
  - intros [(E1 & E2 & E3 & o & -> & E4)|(E1 & E2)].
    + rewrite (bool_decide_true _ E1), (bool_decide_true _ E2), (bool_decide_false _ E3), E4. by eexists.
    + rewrite E1. rewrite bool_decide_false by done. rewrite bool_decide_true by done. destruct (bool_decide_reflect (dr_command d = CmdTcp)) as [Ec|Ec].
      * rewrite bool_decide_false by auto. by eexists.
      * rewrite andb_false_r. by eexists.
Qed.

Lemma response_bytes : encode_response_header VERSION empty_addons = Ok [0; 0].
Proof. done. Qed.

(** The dispatch of an accepted request. *)
Lemma finish_served d user options raw_tcp access response what : dr_user d = Some user ->
  (if needs_address (dr_command d) then exists a p, dr_address d = Some a /\ dr_port d = Some p
   else dr_address d = Domain <$> fixed_domain (dr_command d) /\ dr_port d = None) ->
  ax_email access = vu_email user -> ax_level access = vu_level user ->
  finish_vless_dispatch d options raw_tcp access = (response, Ok what) ->
  response = [0; 0] /\ flow_rule d user options /\ served_as d user options raw_tcp what.
Proof.
  intros Hu Ha He Hl. unfold finish_vless_dispatch. rewrite Hu. destruct (validate_flow _ _ _ _) as [u|e] eqn:Ev; [|done]. rewrite response_bytes. intros [= <- Ew].
  split; [done|]. split; [apply validate_flow_rule; [done|]; by eexists|]. unfold served_as.
  assert (Hax : ax_email (allowed_access d options access) = vu_email user /\ ax_level (allowed_access d options access) = vu_level user).
  { unfold allowed_access. destruct (o ← options; io_allowed_network o); destruct (_ && _); done. }
  destruct Hax as [Hae Hal]. destruct (dr_command d) eqn:Ec; cbn [needs_address] in Ha.
  - destruct Ha as (a & p & Ea & Ep). unfold finish_tcp_dispatch, vision_uuid_bytes in Ew. rewrite Hu, Ea, Ep in Ew. cbn in Ew.
    exists a, p, (allowed_access d options access). split_and!; try done. destruct (bool_decide _); cbn in Ew; by injection Ew as <-.
  - destruct Ha as (a & p & Ea & Ep). unfold udp_destination in Ew. rewrite Ea, Ep in Ew. cbn in Ew. injection Ew as <-. by exists a, p.
  - destruct Ha as [Ea Ep]. unfold handle_mux_relay in Ew. rewrite Ea, Ep in Ew. cbn in Ew. injection Ew as <-. eexists. split_and!; [reflexivity|done|].
    intros Ef. unfold allowed_access. rewrite Ec, Ef. destruct (o ← options; io_allowed_network o); rewrite !bool_decide_true by done; done.
  - unfold handle_reverse_relay in Ew. destruct options as [o|]; [|cbn in Ew; injection Ew as <-; by left]. destruct (io_enable_reverse o) eqn:Eo; cbn [negb] in Ew; [|injection Ew as <-; by left]. right.
    cbn [mbind option_bind] in Ew. destruct (io_reverse_registry o) as [registry|] eqn:Er; [|done]. destruct (io_reverse_ohm o) as [ohm|]; [|done]. rewrite Hu in Ew. cbn in Ew.
    destruct (va_reverse (vu_account user)) as [r|] eqn:Erv; [|done]. cbn in Ew. case_bool_decide as Et; [done|]. unfold get_reverse in Ew.
    destruct (rr_entries registry !! rv_tag r) as [portal|] eqn:Ep; [|done]. cbn in Ew. case_bool_decide; [|done]. injection Ew as <-. by exists o, registry, r, portal.
Qed.
Lemma finish_total d user options raw_tcp access : dr_user d = Some user -> flow_rule d user options -> (exists a p, dr_address d = Some a /\ dr_port d = Some p) -> needs_address (dr_command d) = true ->
  exists what, finish_vless_dispatch d options raw_tcp access = ([0; 0], Ok what).
Proof.
  intros Hu Hr (a & p & Ea & Ep) Hn. apply (validate_flow_rule d user options Hu) in Hr as [u Ev]. unfold finish_vless_dispatch. rewrite Hu, Ev, response_bytes.
  destruct (dr_command d) eqn:Ec; [| |done|done].
  - unfold finish_tcp_dispatch, vision_uuid_bytes. rewrite Hu, Ea, Ep. destruct (bool_decide _); cbn; by eexists.
  - unfold udp_destination. rewrite Ea, Ep. cbn. by eexists.
Qed.

(** A request that is decoded, and what becomes of it. *)
Definition serves (v : VlessValidator) (options : option VlessInboundOptions) (raw_tcp : bool) (stream : bytes) (response : bytes) (what : Served) (rest : list ReadEvent) : Prop :=
  exists d took user, took ++ stream_bytes rest = stream /\ header_was v took d /\ dr_user d = Some user /\ VlessValidator_get v (dr_user_id d) = Some user /\
    response = [0; 0] /\ flow_rule d user options /\ served_as d user options raw_tcp what.

Lemma served_outcome v evs d first s options raw_tcp from local response what rest : bytes_ok (stream_bytes evs) ->
  decode_request_header false None v (RecordingStream_new evs) = (Ok (d, first), s) ->
  outcome_of (finish_vless_dispatch d options raw_tcp (user_access from local d)) (rs_inner s) = VlessServed response what rest ->
  serves v options raw_tcp (stream_bytes evs) response what rest.
Proof.
  intros Hb E Eo. destruct (yields_request v _ _ _ E) as (took & Eb & Es & Hd). cbn [rs_buf rs_inner RecordingStream_new app fst] in *.
  assert (Hw : header_was v took d) by (apply Hd; rewrite Es in Hb; by apply Forall_app in Hb as [? _]). pose proof Hw as (_ & _ & (user & Hg & Hu) & _ & _ & _ & Hn).
  destruct (finish_vless_dispatch _ _ _ _) as [resp [w|e]] eqn:Ef; [|done]. injection Eo as -> -> <-.
  destruct (finish_served d user options raw_tcp (user_access from local d) response what Hu) as (H1 & H2 & H3).
  - destruct (needs_address (dr_command d)); [|done]. destruct Hn as (a & p & -> & -> & _). by exists a, p.
  - unfold user_access. by rewrite Hu.
  - unfold user_access. by rewrite Hu.
  - done.
  - exists d, took, user. split_and!; done.
Qed.

Lemma fallback_sends conn first src dst xver : fallback_to_dest conn first src dst xver = encode_proxy_header xver src dst ++ first ++ conn.
Proof. unfold fallback_to_dest. by destruct (encode_proxy_header xver src dst), first. Qed.

Lemma poll_stream_bytes room evs r evs' : poll_stream room evs = (r, evs') ->
  match r with Ready bs => stream_bytes evs = bs ++ stream_bytes evs' /\ (bs = [] -> 1 <= room -> evs = [] \/ exists rest, evs = Data [] :: rest) | _ => True end.
Proof.
  destruct evs as [|[bs| |] evs]; cbn [poll_stream]; [intros [= <- <-]; split; [done|by left]| |by intros [= <- <-]..].
  destruct (Z.leb_spec (zlen bs) room); intros [= <- <-]; rewrite !stream_bytes_cons; cbn [event_bytes].
  - split; [done|]. intros -> _. right. by eexists.
  - split; [by rewrite app_assoc, ztake_drop|]. intros E Hr. apply (f_equal zlen) in E. zlens. lia.
Qed.

Lemma finish_response d options raw_tcp access : (finish_vless_dispatch d options raw_tcp access).1 = [] \/ (finish_vless_dispatch d options raw_tcp access).1 = [0; 0].
Proof. unfold finish_vless_dispatch. destruct (validate_flow _ _ _ _); [|by left]. rewrite response_bytes. by right. Qed.

End server.

(** * From the client's dial to the server *)

Section dial.
Context `{!AddonsCodec, !AddonsLaws} `{!IpText} {Rng : Type}.
Variable random_range : Z -> Rng -> Z * Rng.

Definition config_addons (config : VlessOutboundConfig) : Addons := mkAddons (vo_flow config) [].
Definition config_vision (config : VlessOutboundConfig) : bool := bool_decide (vo_flow config = FLOW_XRV) && bool_decide (vo_encryption config = text "none").

(** The client's padded connection, with the block that names the user before everything. *)
Definition vision_begun (config : VlessOutboundConfig) (rng : Rng) (block : bytes) (vision : VisionConn Rng) : Prop :=
  write_uuid_only_padding random_range (with_padding_seed (vo_testseed config) (VisionConn_new (vo_user_uuid config) rng)) = Some (block, vision).

Lemma begun_writing config rng block vision input b : vision_begun config rng block vision ->
  normalize_padding_seed (vo_testseed config) @ 1 <> 0 -> normalize_padding_seed (vo_testseed config) @ 3 <> 0 ->
  wh_wire (bl_inner b) = block -> wh_wire (bl_raw b) = [] -> writing (vo_user_uuid config) input (bl_clone b) 0 vision b.
Proof.
  unfold vision_begun, write_uuid_only_padding. intros E Hs1 Hs3 Hi Hr. cbn [with_padding_seed VisionConn_new vc_uplink_uuid_pending vc_padding_seed vc_rng] in E.
  destruct (xtls_padding _ _ _ _ _ _ _) as [[[out u] rng']|] eqn:Ex; [|done]. cbn [mbind option_bind] in E. injection E as <- <-.
  destruct (xtls_padding_block _ _ _ _ _ _ _ _ _ _ Ex) as (-> & k & Hk & Ec & Et & ->); [done|]. cbn [default from_option] in *.
  eapply (writing_queued _ _ _ _ _ _ [k] [] None). assert (Hks : conts_ok [k]) by (constructor; [done|constructor]).
  constructor; cbn [vc_set_write with_padding_seed VisionConn_new vc_padding_seed vc_uplink_padding vc_raw_fallback vc_raw_tcp vc_splice_armed vc_end_commit vc_uplink_pending vc_uplink_uuid_pending]; try done.
  - rewrite Hi. cbn [queue_bytes]. unfold padded, cont_bytes. cbn [app map concat]. by rewrite !app_nil_r.
  - by left.
  - unfold plain. cbn [app map concat]. rewrite Et. apply prefix_nil.
  - cbn [map concat]. by rewrite Et.
Qed.

Lemma begun_block config rng block vision : vision_begun config rng block vision -> exists k, block = vo_user_uuid config ++ block_bytes k /\ 5 <= zlen (block_bytes k).
Proof.
  unfold vision_begun, write_uuid_only_padding. intros E. destruct (xtls_padding _ _ _ _ _ _ _) as [[[out u] rng']|] eqn:Ex; [|done]. cbn [mbind option_bind] in E. injection E as <- <-.
  destruct (xtls_padding_block _ _ _ _ _ _ _ _ _ _ Ex) as (_ & k & _ & _ & _ & ->); [done|]. exists k. split; [done|]. apply block_len.
Qed.

(** Padding under another id is not recognised. *)
Lemma unpadding_stranger uuid uuid' more : zlen uuid = 16 -> uuid' <> uuid -> xtls_unpadding (uuid ++ more) DirectionState_default uuid' = Some (uuid ++ more, DirectionState_default).
Proof.
  intros Hu Hne. unfold xtls_unpadding. cbn [at_start DirectionState_default ds_remaining_command ds_remaining_content ds_remaining_padding]. change (at_start DirectionState_default) with true. cbn match.
  rewrite ztake_app by done. rewrite (bool_decide_false (uuid = uuid')) by congruence. by rewrite andb_false_r.
Qed.

Lemma dial_header config command addr port rng : needs_address command = true -> addons_fit (config_addons config) -> (command = CmdUdp -> vo_flow config <> FLOW_XRV) ->
  normalize_padding_seed (vo_testseed config) @ 1 <> 0 -> normalize_padding_seed (vo_testseed config) @ 3 <> 0 ->
  let header := vless_header (vo_user_uuid config) command addr (Port_value port) (config_addons config) in
  if config_vision config then exists block vision, vision_begun config rng block vision /\ establish_conn random_range config command addr port rng = Some (Ok (header ++ block, EstVision vision))
  else establish_conn random_range config command addr port rng = Some (Ok (header, if bool_decide (command = CmdUdp) then EstUdp VlessUdpFramedConn_new else EstPlain)).
Proof.
  intros Hn Hf Hx Hs1 Hs3 header. unfold establish_conn.
  assert (bool_decide (command = CmdUdp) && bool_decide (vo_flow config = FLOW_XRV) = false) as -> by (repeat case_bool_decide; cbn; try done; naive_solver).
  rewrite Hn. pose proof (encode_request_spec (vo_user_uuid config) command addr (Port_value port) (config_addons config) Hf) as Ee. unfold address_arg, port_arg in Ee. rewrite Hn in Ee.
  unfold config_addons in Ee at 1. rewrite Ee. fold (config_vision config). destruct (config_vision config).
  - set (c0 := with_padding_seed (vo_testseed config) (VisionConn_new (vo_user_uuid config) rng)).
    assert (Hw : is_Some (write_uuid_only_padding random_range c0)).
    { unfold write_uuid_only_padding. destruct (xtls_padding_total random_range None COMMAND_PADDING_CONTINUE (vc_uplink_uuid_pending c0) true (vc_padding_seed c0) (vc_rng c0) Hs1 Hs3) as [[[out u] rng'] ->]. by eexists. }
    destruct Hw as [[block vision] Ew]. exists block, vision. unfold vision_begun. fold c0. split; [done|]. by rewrite Ew.
  - by case_bool_decide.
Qed.

End dial.
