(* ===== verification/VlessClientProps.v ===== *)
(** Datagrams over VLESS: the frames of the client, the relay of the server. *)
From Stdlib Require Import List.
From stdpp Require Import base tactics option list numbers.
From S2P Require Import Prelude Bytes AsyncIo NetTypes StrMatch Mph Fallback Uuid Vision VisionConn VlessProto VlessServer VlessClient VlessProps TrojanServerProps.

(** * Writing *)

Definition vf_idle (c : VlessUdpFramedConn) : Prop := vf_wpos c = zlen (vf_wpending c).
Definition vf_amid (c : VlessUdpFramedConn) : Prop := 0 <= vf_wpos c <= zlen (vf_wpending c).

Lemma vless_write_spec polls : forall wire c r c' w', vless_write_frame polls wire c = (r, c', w') -> vf_amid c ->
  vf_wpending c' = vf_wpending c /\ vf_rbuf c' = vf_rbuf c /\ vf_rview c' = vf_rview c /\ vf_amid c' /\
  wh_wire w' ++ zdrop (vf_wpos c') (vf_wpending c) = wire ++ zdrop (vf_wpos c) (vf_wpending c) /\ (r = Ready tt -> vf_idle c').
Proof.
  unfold vf_amid, vf_idle. induction polls as [|p polls IH]; intros wire c r c' w'; cbn [vless_write_frame]; destruct (Z.ltb_spec (vf_wpos c) (zlen (vf_wpending c))) as [Hlt|Hge].
  all: try (intros [= <- <- <-] Hs; split_and!; (done || lia)).
  destruct p as [n| |]; [|by intros [= <- <- <-] Hs; split_and!; (done || lia)..].
  set (rest := zdrop (vf_wpos c) (vf_wpending c)). set (m := Z.max 0 (Z.min n (zlen rest))). destruct (Z.eqb_spec m 0); [intros [= <- <- <-] Hs; split_and!; (done || lia)|].
  intros E Hs. assert (Hm : 0 <= m <= zlen (vf_wpending c) - vf_wpos c) by (subst m rest; zlens; lia).
  apply IH in E as (E1 & E2 & E3 & E4 & E5 & E6); [|cbn; lia]. cbn [vf_wpending vf_rbuf vf_rview vf_wpos] in *. split_and!; try done; try lia.
  rewrite E5, <- app_assoc. f_equal. rewrite <- zdrop_drop by lia. apply ztake_drop.
Qed.

Definition writes_now (polls : list WritePoll) : Prop := Forall (fun p => match p with WriteReady n => 0 < n | _ => False end) polls.

Lemma vless_write_ready polls : forall wire c, vf_amid c -> writes_now polls -> zlen (vf_wpending c) - vf_wpos c <= zlen polls ->
  exists c' w', vless_write_frame polls wire c = (Ready tt, c', w') /\ writes_now (wh_polls w') /\ zlen polls <= zlen (wh_polls w') + (zlen (vf_wpending c) - vf_wpos c).
Proof.
  unfold vf_amid. induction polls as [|p polls IH]; intros wire c Hc Hp Hl; cbn [vless_write_frame]; destruct (Z.ltb_spec (vf_wpos c) (zlen (vf_wpending c))) as [Hlt|Hge];
    [zlens; lia|by eexists _, _; split; [reflexivity|]; split; [|cbn [wh_polls]; lia]| |by eexists _, _; split; [reflexivity|]; split; [|cbn [wh_polls]; lia]].
  apply Forall_cons_iff in Hp as [Hn Hp]. destruct p as [n| |]; [|done..]. set (rest := zdrop (vf_wpos c) (vf_wpending c)).
  assert (Hrest : zlen rest = zlen (vf_wpending c) - vf_wpos c) by (subst rest; zlens; lia). destruct (Z.eqb_spec (Z.max 0 (Z.min n (zlen rest))) 0); [lia|].
  destruct (IH (wire ++ ztake (Z.max 0 (Z.min n (zlen rest))) rest) (mkVlessFramed (vf_rbuf c) (vf_rview c) (vf_wpending c) (vf_wpos c + Z.max 0 (Z.min n (zlen rest))))) as (c' & w' & E & Hw & Hz);
    [cbn [vf_wpos vf_wpending]; lia|done|cbn [vf_wpos vf_wpending]; zlens; lia|].
  cbn [vf_wpos vf_wpending] in Hz. exists c', w'. split; [done|]. split; [done|]. zlens. lia.
Qed.

Lemma vless_write_idle polls wire c : vf_idle c -> vless_write_frame polls wire c = (Ready tt, c, mkWriteHalf polls wire).
Proof. unfold vf_idle. intros E. by destruct polls; cbn [vless_write_frame]; rewrite E, Z.ltb_irrefl. Qed.

Definition chunk_frame (buf : bytes) : bytes := vless_frame (vless_chunk buf).

Lemma zlen_vless_chunk buf : zlen (vless_chunk buf) = Z.min (zlen buf) 65535.
Proof. unfold vless_chunk. zlia. Qed.

Lemma chunk_take buf : vless_chunk buf = ztake 65535 buf.
Proof. unfold vless_chunk. destruct (Z.leb_spec (zlen buf) 65535); [by rewrite Z.min_l, !ztake_ge by lia|by rewrite Z.min_r by lia]. Qed.

(** The end of a write: the frames before are out, the new one on its way. *)
Lemma vless_poll_spec buf c w r c' w' : VlessUdpFramedConn_poll_write buf c w = (r, c', w') -> vf_amid c ->
  match r with
  | Ready n => n = Z.min (zlen buf) 65535 /\ vf_idle c' /\ wh_wire w' = wh_wire w ++ zdrop (vf_wpos c) (vf_wpending c) ++ chunk_frame buf
  | Pending => vf_amid c' /\ (vf_idle c -> wh_wire w' ++ zdrop (vf_wpos c') (vf_wpending c') = wh_wire w ++ chunk_frame buf) /\
                             (wh_wire w' ++ zdrop (vf_wpos c') (vf_wpending c') = wh_wire w ++ zdrop (vf_wpos c) (vf_wpending c) \/
                              wh_wire w' ++ zdrop (vf_wpos c') (vf_wpending c') = wh_wire w ++ zdrop (vf_wpos c) (vf_wpending c) ++ chunk_frame buf)
  | PollErr => True
  end.
Proof.
  unfold VlessUdpFramedConn_poll_write. intros E Hc. destruct (vless_write_frame (wh_polls w) (wh_wire w) c) as [[r1 c1] w1] eqn:E1.
  destruct (vless_write_spec _ _ _ _ _ _ E1 Hc) as (P1 & P2 & P3 & P4 & P5 & P6). destruct r1 as [[]| |]; [| |by injection E as <- _ _].
  2: { injection E as <- <- <-. split; [done|]. split; [intros Hi; rewrite vless_write_idle in E1 by done; discriminate E1|]. left. by rewrite P1. }
  specialize (P6 eq_refl). unfold vf_idle in P6. rewrite P6, P1, zdrop_ge, app_nil_r in P5 by lia.
  destruct (vless_write_frame (wh_polls w1) (wh_wire w1) (mkVlessFramed (vf_rbuf c1) (vf_rview c1) (vless_frame (vless_chunk buf)) 0)) as [[r2 c2] w2] eqn:E2.
  destruct (vless_write_spec _ _ _ _ _ _ E2) as (Q1 & Q2 & Q3 & Q4 & Q5 & Q6). { unfold vf_amid. cbn. pose proof (zlen_nonneg (vless_frame (vless_chunk buf))). lia. }
  cbn [vf_wpending vf_wpos] in *. change (zdrop 0 (vless_frame (vless_chunk buf))) with (chunk_frame buf) in Q5. rewrite P5, <- app_assoc in Q5.
  destruct r2 as [[]| |]; injection E as <- <- <-; [|split; [done|]; split; [|right; by rewrite Q1]|done].
  2: { intros Hi. unfold vf_idle in Hi. rewrite Q1. rewrite Hi, (zdrop_ge (zlen (vf_wpending c))) in Q5 by lia. done. }
  specialize (Q6 eq_refl). unfold vf_idle in Q6. rewrite Q6, Q1, zdrop_ge, app_nil_r in Q5 by lia. split_and!; [apply zlen_vless_chunk|done|done].
Qed.

(** * Reading *)

Definition vless_framed (ps : list bytes) : bytes := concat (map vless_frame ps).
Definition small (ps : list bytes) : Prop := Forall (fun p => zlen p <= 65535) ps.
Definition nonempty (ps : list bytes) : list bytes := List.filter (fun p => negb (zlen p =? 0)) ps.

Lemma nonempty_cons p ps : nonempty (p :: ps) = if zlen p =? 0 then nonempty ps else p :: nonempty ps.
Proof. unfold nonempty. cbn [List.filter]. by destruct (zlen p =? 0). Qed.

(** The frames that are left, behind the rest of the packet that is being given out. *)
Definition frames_left (cur : bytes) (ps : list bytes) (c : VlessUdpFramedConn) (inner : bytes) : Prop :=
  small (cur :: ps) /\ vf_rview c = zlen cur /\ zlen cur <= zlen (vf_rbuf c) /\ vf_rbuf c ++ inner = cur ++ vless_framed ps.

Definition packets_left (cur : bytes) (ps : list bytes) : list bytes := nonempty (cur :: ps).

(** What a read takes of the packet at the head. *)
Definition taken_packet (room : Z) (ps : list bytes) (bs : bytes) (ps' : list bytes) : Prop :=
  exists p rest, ps = p :: rest /\ bs = ztake room p /\ ps' = nonempty [zdrop room p] ++ rest.

Lemma nonempty_idem ps : nonempty (nonempty ps) = nonempty ps.
Proof. induction ps as [|p ps IH]; [done|]. rewrite nonempty_cons. destruct (zlen p =? 0) eqn:E; [done|]. by rewrite nonempty_cons, E, IH. Qed.

Lemma frame_head p ps rbuf inner : zlen p <= 65535 -> 2 <= zlen rbuf -> rbuf ++ inner = vless_framed (p :: ps) ->
  be_val rbuf[: 0, 2] = zlen p /\ zdrop 2 rbuf ++ inner = p ++ vless_framed ps.
Proof.
  intros Hp Hr E. unfold vless_framed in E. cbn [map concat] in E. unfold vless_frame at 1 in E. rewrite <- app_assoc in E. split.
  - rewrite slice_0. rewrite <- (ztake_app_le 2 rbuf inner) by lia. rewrite E. rewrite ztake_app by (by rewrite be16_len). apply be16_val. pose proof (zlen_nonneg p). unfold is_u16. lia.
  - rewrite <- zdrop_app_le by lia. rewrite E. by apply zdrop_app; rewrite be16_len.
Qed.

Lemma next_payload_spec fuel room inner : 0 < room -> forall cur ps c, frames_left cur ps c inner -> (length (vf_rbuf c) + 1 < fuel)%nat ->
  exists p c' cur' ps', next_payload fuel room c = Some (p, c') /\ frames_left cur' ps' c' inner /\
    match p with
    | Some bs => taken_packet room (packets_left cur ps) bs (packets_left cur' ps')
    | None => packets_left cur' ps' = packets_left cur ps /\ vf_rview c' = 0 /\ (inner = [] -> packets_left cur ps = [] /\ vf_rbuf c' = [])
    end.
Proof.
  intros Hroom. induction fuel as [|fuel IH]; intros cur ps c (Hs & Hv & Hl & E) Hf; [lia|]. cbn [next_payload]. destruct (Z.ltb_spec 0 (vf_rview c)) as [Hpos|Hneg].
  - set (n := Z.min (vf_rview c) room). assert (Hn : 0 < n <= zlen cur) by lia. assert (Ecur : cur = ztake (zlen cur) (vf_rbuf c)).
    { rewrite <- (ztake_app_le _ _ inner) by lia. by rewrite E, ztake_app. }
    assert (Et : ztake n (vf_rbuf c) = ztake room cur). { rewrite Ecur at 1. rewrite ztake_take. f_equal. lia. }
    eexists _, _, (zdrop n cur), ps. split; [reflexivity|]. split.
    + split; [apply Forall_cons_iff in Hs as [Hs1 Hs]; constructor; [zlens; lia|done]|]. cbn [vf_set_read vf_rview vf_rbuf]. split; [zlens; lia|]. split; [zlens; lia|].
      rewrite <- zdrop_app_le by lia. rewrite E, zdrop_app_le by lia. done.
    + unfold packets_left. rewrite !nonempty_cons. rewrite (proj2 (Z.eqb_neq (zlen cur) 0)) by lia. exists cur, (nonempty ps). split_and!; [done|done|].
      assert (Ed : zdrop n cur = zdrop room cur) by (subst n; destruct (Z.leb_spec (vf_rview c) room); [rewrite Z.min_l by lia; by rewrite !zdrop_ge by lia|by rewrite Z.min_r by lia]).
      rewrite Ed, nonempty_cons. by destruct (zlen (zdrop room cur) =? 0).
  - assert (cur = []) as -> by (apply zlen_zero; lia). cbn [app] in E. assert (Hpl : packets_left [] ps = nonempty ps) by done. rewrite Hpl.
    assert (Hempty : inner = [] -> (zlen (vf_rbuf c) < 2 \/ exists p, ps = p :: tail ps /\ zlen (vf_rbuf c) < 2 + zlen p) -> nonempty ps = [] /\ vf_rbuf c = []).
    { intros -> Hshort. rewrite app_nil_r in E. destruct ps as [|p ps]; [done|]. exfalso. unfold vless_framed in E. cbn [map concat] in E. unfold vless_frame at 1 in E.
      apply (f_equal zlen) in E. zlens. pose proof (zlen_nonneg p). pose proof (zlen_nonneg (concat (map vless_frame ps))). destruct Hshort as [?|(p' & [= <-] & ?)]; lia. }
    assert (Hstay : frames_left [] ps c inner) by (split_and!; done). change (zlen (@nil Z)) with 0 in Hv.
    destruct (Z.leb_spec 2 (zlen (vf_rbuf c))) as [H2|H2].
    2: { eexists _, _, [], ps. split; [reflexivity|]. split; [done|]. split_and!; [done|lia|]. intros Hi. apply Hempty; [done|by left]. }
    destruct ps as [|p ps]. { unfold vless_framed in E. cbn in E. apply (f_equal zlen) in E. zlens. pose proof (zlen_nonneg inner). lia. }
    apply Forall_cons_iff in Hs as [_ Hs]. destruct (proj1 (Forall_cons_iff _ _ _) Hs) as [Hp _]. destruct (frame_head p ps _ _ Hp H2 E) as [Hlen Erest]. rewrite Hlen. pose proof (zlen_nonneg p).
    destruct (Z.leb_spec (2 + zlen p) (zlen (vf_rbuf c))) as [Hfull|Hpart].
    + destruct (IH p ps (vf_set_read (zdrop 2 (vf_rbuf c)) (zlen p) c)) as (r & c' & cur' & ps' & Er & Hleft & Hr).
      { split; [done|]. cbn [vf_set_read vf_rview vf_rbuf]. split_and!; [done|zlens; lia|done]. }
      { cbn [vf_set_read vf_rbuf]. unfold zdrop. rewrite length_drop. unfold zlen in H2. lia. }
      eexists _, _, cur', ps'. split; [exact Er|]. split; [done|]. exact Hr.
    + eexists _, _, [], (p :: ps). split; [reflexivity|]. split; [done|]. split_and!; [done|lia|]. intros Hi. apply Hempty; [done|]. right. by exists p.
Qed.

(** The connection with what its stream still brings. *)
Definition framed_stream (cur : bytes) (ps : list bytes) (s : VlessUdpFramedConn * list ReadEvent) : Prop :=
  frames_left cur ps s.1 (stream_bytes s.2) /\ quiet s.2.

Lemma framed_read fuel room : 0 < room -> forall cur ps c inner, framed_stream cur ps (c, inner) -> (length inner + length (stream_bytes inner) < fuel)%nat ->
  exists r c' inner' cur' ps', VlessUdpFramedConn_poll_read fuel room inner c = Some (r, c', inner') /\ framed_stream cur' ps' (c', inner') /\
    match r with
    | Ready bs => stalls inner' = stalls inner /\
        (bs = [] /\ packets_left cur ps = [] /\ packets_left cur' ps' = [] \/ taken_packet room (packets_left cur ps) bs (packets_left cur' ps'))
    | Pending => packets_left cur' ps' = packets_left cur ps /\ stalls inner = 1 + stalls inner'
    | PollErr => False
    end.
Proof.
  intros Hroom. induction fuel as [|fuel IH]; intros cur ps c inner [Hleft Hq] Hf; [lia|]. cbn [VlessUdpFramedConn_poll_read].
  destruct (next_payload_spec (S (S (length (vf_rbuf c)))) room (stream_bytes inner) Hroom cur ps c Hleft) as (p & c1 & cur1 & ps1 & -> & Hleft1 & Hp); [lia|].
  cbn [mbind option_bind]. destruct p as [bs|].
  { eexists _, _, _, cur1, ps1. split; [reflexivity|]. split; [done|]. split; [done|by right]. }
  destruct Hp as (Hsame & Hv & Hend). destruct (poll_stream_step 8192 inner) as (r & inner1 & E & Hq1 & Hr); [lia|done|]. rewrite E.
  destruct Hr as [(bs & -> & Eb & H0 & Hst)|(-> & Eb & Hst)].
  - destruct (Z.eqb_spec (zlen bs) 0) as [Hz|Hz].
    + assert (bs = []) as -> by (apply zlen_zero; lia). destruct (Hend (H0 eq_refl)) as [Hnil Hbuf].
      cbn [app] in Eb. eexists _, _, _, cur1, ps1. split; [reflexivity|]. split; [split; [cbn [fst snd]; by rewrite Eb in Hleft1|done]|].
      rewrite Hbuf. cbn. split; [done|]. left. rewrite Hnil in Hsame. done.
    + destruct Hleft1 as (L1 & L2 & L3 & L4). destruct (IH cur1 ps1 (vf_set_read (vf_rbuf c1 ++ bs) (vf_rview c1) c1) inner1) as (r & c' & inner' & cur' & ps' & E' & Hleft' & Hr').
      * split; [|done]. split; [done|]. cbn [fst snd vf_set_read vf_rview vf_rbuf]. split; [done|]. split; [zlens; pose proof (zlen_nonneg bs); lia|]. by rewrite <- app_assoc, <- Eb.
      * assert (length inner1 <= length inner)%nat.
        { destruct inner as [|[d| |] inner]; cbn [poll_stream] in E; [by injection E as _ <-| |discriminate E..].
          destruct (zlen d <=? 8192); injection E as _ <-; cbn; lia. }
        rewrite Eb, length_app in Hf. unfold zlen in Hz. lia.
      * eexists _, _, _, cur', ps'. split; [exact E'|]. split; [done|]. rewrite <- Hst, <- Hsame. done.
  - eexists _, _, _, cur1, ps1. split; [reflexivity|]. split; [split; [cbn [fst snd]; by rewrite Eb|done]|]. done.
Qed.

(** A caller that reads until it is told that there is no more. *)
Fixpoint receive (rooms : list Z) (c : VlessUdpFramedConn) (inner : list ReadEvent) : option (list bytes * bool) :=
  match rooms with
  | [] => Some ([], false)
  | room :: rooms =>
      '(r, c, inner) ← VlessUdpFramedConn_poll_read (read_fuel inner) room inner c;
      match r with
      | Ready bs => if zlen bs =? 0 then Some ([], true) else '(out, ended) ← receive rooms c inner; Some (bs :: out, ended)
      | Pending => receive rooms c inner
      | PollErr => None
      end
  end.

Definition fits (room : Z) (ps : list bytes) : Prop := 1 <= room /\ small ps /\ nonempty ps = ps.

Lemma left_fits cur ps s room : framed_stream cur ps s -> 1 <= room -> fits room (packets_left cur ps).
Proof.
  intros [(Hs & _) _] Hr. split; [done|]. split; [|apply nonempty_idem]. unfold packets_left, nonempty, small in *. rewrite List.Forall_forall in *.
  intros p Hp%filter_In. apply Hs, Hp.
Qed.

Lemma taken_head room ps bs ps' : fits room ps -> taken_packet room ps bs ps' ->
  exists p rest, ps = p :: rest /\ zlen p <> 0 /\ zlen p <= 65535 /\ bs = ztake room p /\ ps' = nonempty [zdrop room p] ++ rest.
Proof.
  intros (Hr & Hs & Hn) (p & rest & -> & -> & ->). exists p, rest. apply Forall_cons_iff in Hs as [Hs _]. rewrite nonempty_cons in Hn.
  split; [done|]. split; [|done]. intros E. rewrite E in Hn. cbn in Hn. apply (f_equal length) in Hn. unfold nonempty in Hn. pose proof (filter_length_le (fun p => negb (zlen p =? 0)) rest). cbn in *. lia.
Qed.

Section receive.
Context {A : Type}.
(** What is compared: the packets themselves or their bytes. *)
Variable view : list bytes -> list A.
Variable piece : bytes -> list A.
Variable good : Z -> Prop.
Hypothesis good_room : forall room, good room -> 1 <= room.
Hypothesis view_nil : view [] = [].
Hypothesis view_taken : forall room ps bs ps', good room -> fits room ps -> taken_packet room ps bs ps' -> view ps = piece bs ++ view ps' /\ piece bs <> [].

Lemma receive_all rooms : Forall good rooms -> forall cur ps c inner, framed_stream cur ps (c, inner) ->
  exists out ended, receive rooms c inner = Some (out, ended) /\ concat (map piece out) `prefix_of` view (packets_left cur ps) /\
    (ended = true -> concat (map piece out) = view (packets_left cur ps)) /\ (zlen (view (packets_left cur ps)) + stalls inner < zlen rooms -> ended = true).
Proof.
  induction 1 as [|room rooms Hroom _ IH]; intros cur ps c inner Hfs; cbn [receive].
  { exists [], false. split_and!; [done|apply prefix_nil|done|]. pose proof (stalls_nonneg inner). zlens. zlen_facts. lia. }
  pose proof (good_room _ Hroom) as Hroom1. destruct (framed_read (read_fuel inner) room ltac:(lia) cur ps c inner Hfs) as (r & c' & inner' & cur' & ps' & -> & Hfs' & Hr).
  { unfold read_fuel. lia. }
  cbn [mbind option_bind]. destruct (IH _ _ _ _ Hfs') as (out & ended & E & Hp & Hend & Henough). destruct r as [bs| |]; [|destruct Hr as [Esame Hst]|done].
  - destruct Hr as (Hst & [(-> & Hnil & _)|Ht]).
    + exists [], true. rewrite Hnil, view_nil. split; [done|]. split; [done|]. done.
    + destruct (view_taken _ _ _ _ Hroom (left_fits _ _ _ _ Hfs Hroom1) Ht) as [Ev Hne].
      destruct (taken_head _ _ _ _ (left_fits _ _ _ _ Hfs Hroom1) Ht) as (p & rest & _ & Hp0 & _ & -> & _).
      destruct (Z.eqb_spec (zlen (ztake room p)) 0) as [Hz|_]; [pose proof (zlen_nonneg p); zlens; lia|].
      rewrite E. cbn [mbind option_bind]. eexists _, ended. split; [reflexivity|]. cbn [map concat]. rewrite Ev. split; [by apply prefix_app|].
      split; [intros Ee; by rewrite (Hend Ee)|]. intros Hlt. apply Henough. rewrite zlen_app, zlen_cons in Hlt. rewrite Hst.
      destruct (piece (ztake room p)); [done|]. rewrite zlen_cons in Hlt. pose proof (zlen_nonneg l). lia.
  - exists out, ended. rewrite <- Esame. split; [done|]. split; [done|]. split; [done|]. intros Hlt. apply Henough. zlens. lia.
Qed.
End receive.

Lemma concat_left p rest : concat (nonempty [p] ++ rest) = p ++ concat rest.
Proof. rewrite nonempty_cons. destruct (Z.eqb_spec (zlen p) 0) as [E|E]; [|done]. rewrite (zlen_zero p) by lia. done. Qed.

Lemma taken_bytes room ps bs ps' : fits room ps -> taken_packet room ps bs ps' -> concat ps = bs ++ concat ps' /\ bs <> [].
Proof.
  intros Hf Ht. destruct (taken_head _ _ _ _ Hf Ht) as (p & rest & -> & Hp & _ & -> & ->). split.
  - rewrite concat_left, app_assoc, ztake_drop. done.
  - destruct Hf as [Hr _]. intros E%(f_equal zlen). pose proof (zlen_nonneg p). zlens. lia.
Qed.

Lemma taken_whole room ps bs ps' : 65535 <= room -> fits room ps -> taken_packet room ps bs ps' -> ps = [bs] ++ ps' /\ [bs] <> [].
Proof.
  intros Hr Hf Ht. destruct (taken_head _ _ _ _ Hf Ht) as (p & rest & -> & Hp & Hs & -> & ->). split; [|done].
  rewrite ztake_ge, zdrop_ge by lia. done.
Qed.

Lemma concat_singles {A} (l : list A) : concat (map (fun x => [x]) l) = l.
Proof. induction l as [|x l IH]; [done|]. cbn. by rewrite IH. Qed.

Lemma concat_packets ps : concat (nonempty ps) = concat ps.
Proof. induction ps as [|p ps IH]; [done|]. rewrite nonempty_cons. destruct (Z.eqb_spec (zlen p) 0) as [E|E]; cbn; rewrite IH; [|done]. by rewrite (zlen_zero p) by lia. Qed.

Lemma fresh_stream ps evs : small ps -> quiet evs -> stream_bytes evs = vless_framed ps -> framed_stream [] ps (VlessUdpFramedConn_new, evs).
Proof. intros Hs Hq E. split; [|done]. split; [constructor; [done|done]|]. done. Qed.

(** * The server's side *)

Lemma takes_length_packet p : zlen p <= 65535 -> takes read_length_packet (vless_frame p) p.
Proof.
  intros Hp. pose proof (zlen_nonneg p). unfold vless_frame. eapply takes_bind; [by apply takes_vless_read|].
  rewrite be16_val by (unfold is_u16; lia). by apply takes_vless_read.
Qed.

Lemma uplink_all fuel : forall ps s, small ps -> flows (rs_inner s) -> stream_bytes (rs_inner s) = vless_framed ps -> (length (vless_framed ps) < fuel)%nat -> uplink_packets fuel s = ps.
Proof.
  induction fuel as [|fuel IH]; intros ps s Hs Hf E Hl; [lia|]. cbn [uplink_packets]. destruct ps as [|p ps].
  - unfold read_length_packet, mbind, step_bind, vless_read, read_exact_or. destruct (rs_inner s) as [|e evs]; [done|]. exfalso.
    apply Forall_cons_iff in Hf as [(bs & -> & Hne) _]. rewrite stream_bytes_cons in E. by destruct bs.
  - apply Forall_cons_iff in Hs as [Hp Hs]. destruct (takes_length_packet p Hp s _ Hf E) as (s' & -> & Hf' & E' & _). f_equal. apply IH; [done|done|done|].
    unfold vless_framed in *. cbn [map concat] in Hl. rewrite length_app in Hl. unfold vless_frame at 1 in Hl. rewrite length_app in Hl.
    change (length (be16 (zlen p))) with 2%nat in Hl. lia.
Qed.

Lemma vless_poll_ready buf c w : vf_amid c -> writes_now (wh_polls w) -> zlen (vf_wpending c) - vf_wpos c + zlen (chunk_frame buf) <= zlen (wh_polls w) ->
  exists c' w', VlessUdpFramedConn_poll_write buf c w = (Ready (Z.min (zlen buf) 65535), c', w') /\ vf_idle c' /\
    wh_wire w' = wh_wire w ++ zdrop (vf_wpos c) (vf_wpending c) ++ chunk_frame buf.
Proof.
  intros Hc Hp Hl. destruct (VlessUdpFramedConn_poll_write buf c w) as [[r c'] w'] eqn:E. pose proof (vless_poll_spec _ _ _ _ _ _ E Hc) as Hr.
  pose proof (zlen_nonneg (chunk_frame buf)) as Hf. assert (Hready : exists n, r = Ready n).
  { unfold VlessUdpFramedConn_poll_write in E. destruct (vless_write_ready (wh_polls w) (wh_wire w) c Hc Hp) as (c1 & w1 & E1 & Hp1 & Hl1); [lia|]. rewrite E1 in E.
    destruct (vless_write_ready (wh_polls w1) (wh_wire w1) (mkVlessFramed (vf_rbuf c1) (vf_rview c1) (chunk_frame buf) 0)) as (c2 & w2 & E2 & _); [split; cbn; lia|done|cbn [vf_wpending vf_wpos]; lia|].
    unfold chunk_frame in E2. rewrite E2 in E. injection E as <- _ _. by eexists. }
  destruct Hready as [n ->]. destruct Hr as (-> & Hi' & Hw). by exists c', w'.
Qed.

Lemma vless_pending_amid buf c w c1 w1 : vf_idle c -> VlessUdpFramedConn_poll_write buf c w = (Pending, c1, w1) -> vf_amid c1 /\ vf_wpending c1 = chunk_frame buf /\
  wh_wire w1 ++ zdrop (vf_wpos c1) (vf_wpending c1) = wh_wire w ++ chunk_frame buf.
Proof.
  intros Hi E. assert (Hc : vf_amid c) by (unfold vf_amid, vf_idle in *; pose proof (zlen_nonneg (vf_wpending c)); lia).
  destruct (vless_poll_spec _ _ _ _ _ _ E Hc) as (Hc1 & Hw & _). split; [done|]. split; [|by apply Hw].
  unfold VlessUdpFramedConn_poll_write in E. rewrite vless_write_idle in E by done. cbn [wh_polls wh_wire] in E.
  destruct (vless_write_frame _ _ _) as [[r2 c2] w2] eqn:E2. destruct r2; [done| |done]. injection E as <- _.
  destruct (vless_write_spec _ _ _ _ _ _ E2) as (Q & _); [|exact Q]. split; cbn; [lia|]. apply zlen_nonneg.
Qed.

(** The framed connection keeps the boundaries of datagrams, both ways, on a stream that
    does not. *)
(** C23: [VlessUdpFramedConn] and the server's loops agree on datagrams. A write on a
    connection with nothing pending, over a writer that takes bytes, puts one frame of the
    first 65,535 bytes of the buffer on the wire, and says how many they were; the server
    reads from such frames, however the stream cuts them, exactly the packets, those of no
    bytes too, and then the end. In the other direction the client passes over the packets
    of no bytes: a caller whose buffers hold the longest packet is given every other
    packet whole and in order, one a read; a caller with less room is given their bytes,
    and the end only when all of them are out. But a write that had to wait and is polled
    again with the same buffer, as its caller must, sends the datagram twice. *)
Theorem vless_datagrams_framed :
  (forall buf c w, vf_idle c -> writes_now (wh_polls w) -> zlen (chunk_frame buf) <= zlen (wh_polls w) ->
     exists c' w', VlessUdpFramedConn_poll_write buf c w = (Ready (Z.min (zlen buf) 65535), c', w') /\ vf_idle c' /\
       wh_wire w' = wh_wire w ++ vless_frame (ztake 65535 buf)) /\
  (forall ps s, small ps -> flows (rs_inner s) -> stream_bytes (rs_inner s) = vless_framed ps -> uplink_packets (S (length (vless_framed ps))) s = ps) /\
  (forall ps evs rooms, small ps -> quiet evs -> stream_bytes evs = vless_framed ps -> Forall (fun room => 65535 <= room) rooms ->
     exists out ended, receive rooms VlessUdpFramedConn_new evs = Some (out, ended) /\ out `prefix_of` nonempty ps /\ (ended = true -> out = nonempty ps) /\
       (zlen (nonempty ps) + stalls evs < zlen rooms -> ended = true)) /\
  (forall ps evs rooms, small ps -> quiet evs -> stream_bytes evs = vless_framed ps -> Forall (fun room => 1 <= room) rooms ->
     exists out ended, receive rooms VlessUdpFramedConn_new evs = Some (out, ended) /\ concat out `prefix_of` concat ps /\ (ended = true -> concat out = concat ps) /\
       (zlen (concat ps) + stalls evs < zlen rooms -> ended = true)) /\
  (forall buf c w c1 w1 polls, vf_idle c -> VlessUdpFramedConn_poll_write buf c w = (Pending, c1, w1) -> writes_now polls -> 2 * zlen (chunk_frame buf) <= zlen polls ->
     exists c2 w2, VlessUdpFramedConn_poll_write buf c1 (mkWriteHalf polls (wh_wire w1)) = (Ready (Z.min (zlen buf) 65535), c2, w2) /\
       wh_wire w2 = wh_wire w ++ chunk_frame buf ++ chunk_frame buf).
Proof.
  split; [|split; [|split; [|split]]].
  - intros buf c w Hi Hp Hl. unfold vf_idle in Hi. destruct (vless_poll_ready buf c w) as (c' & w' & E & Hi' & Hw);
      [pose proof (zlen_nonneg (vf_wpending c)); unfold vf_amid; lia|done|lia|].
    exists c', w'. split; [done|]. split; [done|]. rewrite Hw, zdrop_ge by lia. unfold chunk_frame. by rewrite chunk_take.
  - intros ps s Hs Hf E. apply uplink_all; (done || lia).
  - intros ps evs rooms Hs Hq E Hr.
    destruct (receive_all id (fun b => [b]) (fun room => 65535 <= room) ltac:(cbn; intros; lia) eq_refl (fun room ps bs ps' => taken_whole room ps bs ps') rooms Hr [] ps _ _ (fresh_stream ps evs Hs Hq E)) as (out & ended & Er & Hrest).
    rewrite concat_singles in Hrest. by exists out, ended.
  - intros ps evs rooms Hs Hq E Hr.
    destruct (receive_all (@concat Z) id (fun room => 1 <= room) ltac:(cbn; intros; lia) eq_refl (fun room ps bs ps' _ => taken_bytes room ps bs ps') rooms Hr [] ps _ _ (fresh_stream ps evs Hs Hq E)) as (out & ended & Er & Hrest).
    rewrite map_id in Hrest. change (packets_left [] ps) with (nonempty ps) in Hrest. rewrite concat_packets in Hrest. by exists out, ended.
  - intros buf c w c1 w1 polls Hi E Hp Hl. destruct (vless_pending_amid _ _ _ _ _ Hi E) as (Hc1 & Ep & Ew).
    destruct (vless_poll_ready buf c1 (mkWriteHalf polls (wh_wire w1))) as (c2 & w2 & E2 & _ & Hw2); [done|done|cbn [wh_polls]; unfold vf_amid in Hc1; rewrite Ep; lia|].
    exists c2, w2. split; [done|]. rewrite Hw2, app_assoc. cbn [wh_wire]. by rewrite Ew, <- app_assoc.
Qed.
