(* ===== verification/Witnesses.v ===== *)
(** Concrete runs: each theorem with hypotheses is applied here at an input where they
    hold, over the [LBytes] instance of the block interface. *)
From Stdlib Require Import List String.
From stdpp Require Import base tactics option list numbers gmap relations sorting.
From S2P Require Import Prelude Bytes NetTypes BytesMut Buffer BufferProps MultiBuffer MultiBufferProps.
From S2P Require Import AddrCodec MuxFrame MuxFrameProps.
From S2P Require Import KcpSegment KcpSegmentProps KcpBase KcpSending KcpSendingProps.
From S2P Require Import KcpReceiving KcpReceivingProps KcpConnection KcpConnectionProps KcpSystem Pool.
From S2P Require Import Xudp XudpProps BufIO BufIOProps MuxChannel MuxChannelProps SessionTable SessionTableProps.
From S2P Require Import Replay UploadQueue UploadQueueProps.

Abbreviation LBuf := (Buffer LBytes).

(** * Buffers *)

Definition w_buf : LBuf := (Buffer_write_from [1; 2; 3; 4; 5] Buffer_new).2.

Lemma w_buf_ok : buffer_ok w_buf.
Proof. vm_compute; repeat split; discriminate. Qed.


Definition w_truncated : LBuf := Buffer_truncate 2 w_buf.

Lemma w_truncated_ok : buffer_ok w_truncated.
Proof. vm_compute; repeat split; discriminate. Qed.

(** After [truncate(2)] the three dropped bytes come back. *)
Lemma buffer_stale_tail_exposed_witness :
  Buffer_bytes w_truncated = [1; 2] /\ Buffer_into_bytes w_truncated = [1; 2] ++ [3; 4; 5] /\
  Buffer_bytes (Buffer_resize 7 w_truncated) = [1; 2; 3; 4; 5; 0; 0].
Proof.
  split; [vm_compute; reflexivity|].
  assert (H : Buffer_len w_truncated < 7) by (vm_compute; reflexivity).
  destruct (buffer_stale_tail_exposed 7 w_truncated w_truncated_ok H) as (E1 & _ & _ & E2).
  split; [rewrite E1; vm_compute; reflexivity|rewrite E2; vm_compute; reflexivity].
Defined.

Definition w_multi : MultiBuffer LBytes :=
  MultiBuffer_from_buffers [w_buf; Buffer_from_vec [6; 7]; Buffer_from_vec [8; 9; 10]].

Lemma w_multi_ok : multi_ok w_multi.
Proof. repeat constructor; vm_compute; discriminate. Qed.

Lemma multibuffer_split_cuts_stream_witness :
  (exists r s, MultiBuffer_split_bytes 6 w_multi = Some (r, s) /\ multi_ok r /\ multi_ok s /\
     MultiBuffer_to_vec r = ztake 6 (MultiBuffer_to_vec w_multi) /\
     MultiBuffer_to_vec s = zdrop 6 (MultiBuffer_to_vec w_multi)) /\
  MultiBuffer_to_vec w_multi = [1; 2; 3; 4; 5; 6; 7; 8; 9; 10].
Proof.
  split; [|vm_compute; reflexivity].
  destruct (multibuffer_split_cuts_stream 6 w_multi w_multi_ok) as [H _]; [lia|exact H].
Defined.

Lemma multibuffer_merge_compact_witness :
  exists mb1 mb2, MultiBuffer_merge_bytes [11; 12] w_multi = Some mb1 /\ MultiBuffer_compact mb1 = Some mb2 /\
    MultiBuffer_to_vec mb2 = [1; 2; 3; 4; 5; 6; 7; 8; 9; 10; 11; 12].
Proof.
  destruct (multibuffer_merge_compact [11; 12] w_multi w_multi_ok) as (mb1 & mb2 & H1 & H2 & _ & H3 & _).
  exists mb1, mb2. split; [exact H1|]. split; [exact H2|]. rewrite H3. vm_compute. reflexivity.
Defined.

Lemma multibuffer_read_fifo_witness :
  (MultiBuffer_read_to 6 w_multi).1 = [1; 2; 3; 4; 5; 6] /\
  MultiBuffer_to_vec (MultiBuffer_read_to 6 w_multi).2 = [7; 8; 9; 10] /\
  MultiBuffer_copy_to_slice 4 3 w_multi = [5; 6; 7].
Proof.
  destruct (multibuffer_read_fifo 6 0 w_multi w_multi_ok) as (E1 & E2 & _ & _); [lia|lia|].
  destruct (multibuffer_read_fifo 3 4 w_multi w_multi_ok) as (_ & _ & _ & E3); [lia|lia|].
  rewrite E1, E2, E3. vm_compute. split; [reflexivity|split; reflexivity].
Defined.

(** * Addresses and Mux frames *)

Definition w_addr : Address := Domain [97; 46; 98].

Lemma w_addr_ok : encodable w_addr.
Proof. split; [split; [repeat constructor; unfold is_u8; lia|reflexivity]|vm_compute; discriminate]. Qed.

Lemma address_port_roundtrip_witness :
  parse_port_address (Buffer_bytes (write_port_address (Port_new 443) w_addr (@Buffer_with_capacity LBytes _ 64)) ++ [1; 2])
    = Some (Port_new 443, w_addr, 7).
Proof.
  destruct (address_port_roundtrip (M:=LBytes) (Port_new 443) w_addr (Buffer_with_capacity 64) [1; 2]) as [H _].
  - vm_compute; repeat split; discriminate.
  - reflexivity.
  - unfold port_ok, is_u16. cbn. lia.
  - exact w_addr_ok.
  - vm_compute. discriminate.
  - exact H.
Defined.

Lemma parse_port_address_canonical_witness :
  exists p a n, parse_port_address [1; 187; 1; 10; 0; 0; 1; 99] = Some (p, a, n) /\
    port_addr_wire p a = [1; 187; 1; 10; 0; 0; 1].
Proof.
  assert (Hb : bytes_ok [1; 187; 1; 10; 0; 0; 1; 99]) by (repeat constructor; unfold is_u8; lia).
  assert (E : parse_port_address [1; 187; 1; 10; 0; 0; 1; 99] = Some (Port_new 443, IPv4 [10; 0; 0; 1], 7))
    by reflexivity.
  destruct (parse_port_address_canonical _ _ _ _ Hb E) as (_ & _ & Hw & _).
  exists (Port_new 443), (IPv4 [10; 0; 0; 1]), 7. split; [exact E|]. rewrite Hw. reflexivity.
Defined.

Definition w_dest : Destination := Destination_udp w_addr (Port_new 53).
Definition w_frame : FrameMetadata := FrameMetadata_set_global_id [1; 2; 3; 4; 5; 6; 7; 8] (FrameMetadata_new_session 5 w_dest).

Lemma w_dest_ok : destination_ok w_dest.
Proof. split; [apply w_addr_ok|]. unfold port_ok, is_u16. cbn. lia. Qed.

Lemma w_frame_ok : frame_ok w_frame.
Proof.
  split; cbn.
  - unfold is_u16. lia.
  - vm_compute. split; [discriminate|reflexivity].
  - constructor; [apply w_dest_ok|constructor].
  - constructor.
  - constructor.
  - constructor; [|constructor]. split; [repeat constructor; unfold is_u8; lia|reflexivity].
Qed.

Lemma mux_frame_to_bytes_exact_witness :
  FrameMetadata_to_bytes LBytes w_frame = Ok (be16 20 ++ frame_body w_frame).
Proof.
  destruct (mux_frame_to_bytes_exact (M:=LBytes) w_frame [] w_frame_ok) as [E _].
  rewrite E. vm_compute. reflexivity.
Defined.


(** A Keep frame with a TCP network byte: the target is skipped. *)
Definition w_data : bytes := [0; 12; 0; 9; 2; 1; 2; 0; 53; 1; 10; 0; 0; 1; 77].

Lemma mux_frame_parse_stable_witness :
  exists m n out, FrameMetadata_read_from_bytes w_data = Ok (m, n) /\
    FrameMetadata_to_bytes LBytes m = Ok out /\ FrameMetadata_read_from_bytes out = Ok (m, zlen out).
Proof.
  assert (Hb : bytes_ok w_data) by (repeat constructor; unfold is_u8; lia).
  destruct (FrameMetadata_read_from_bytes w_data) as [[m n]|e] eqn:E; [|vm_compute in E; discriminate].
  destruct (mux_frame_parse_stable (M:=LBytes) w_data m n Hb E) as (_ & _ & _ & out & H1 & _ & H2).
  exists m, n, out. split; [reflexivity|]. split; [exact H1|exact H2].
Defined.

Lemma mux_read_from_equiv_witness :
  FrameMetadata_read_from slice_read_exact w_data =
    Ok (FrameMetadata_set_target (Destination_udp (IPv4 [10; 0; 0; 1]) (Port_new 53))
          (FrameMetadata_new 9 StKeep (Bitmask_new 1)), [77]).
Proof.
  assert (Hb : bytes_ok w_data) by (repeat constructor; unfold is_u8; lia).
  rewrite (mux_read_from_equiv w_data Hb). vm_compute. reflexivity.
Defined.

(** * KCP segments *)

Definition w_seg : SegmentKind LBytes := KData (mkDataSegment 7 1 100 3 2 (Some w_buf) 0 0).

Lemma w_seg_ok : segment_ok w_seg.
Proof. cbn. unfold data_ok. cbn. unfold is_u16, is_u8, is_u32. split_and!; try lia. exact w_buf_ok. Qed.

Lemma kcp_segment_roundtrip_witness :
  exists out k', Segment_serialize w_seg (zrepeat 30 255) = Some out /\
    read_segment out = Some (k', 23) /\ received_as w_seg k'.
Proof.
  destruct (kcp_segment_roundtrip w_seg (zrepeat 30 255) w_seg_ok) as (out & k' & H1 & _ & H2 & H3).
  - vm_compute. discriminate.
  - vm_compute. discriminate.
  - exists out, k'. split; [exact H1|]. split; [exact H2|exact H3].
Defined.

Definition w_ack_bytes : bytes := [0; 7; 0; 0; 0; 0; 0; 40; 0; 0; 0; 3; 0; 0; 0; 100; 2; 0; 0; 0; 4; 0; 0; 0; 6; 99].

Lemma kcp_read_segment_canonical_witness :
  exists k, read_segment (M:=LBytes) w_ack_bytes = Some (k, 25) /\ segment_wire k = ztake 25 w_ack_bytes.
Proof.
  assert (Hb : bytes_ok w_ack_bytes) by (repeat constructor; unfold is_u8; lia).
  assert (E : read_segment (M:=LBytes) w_ack_bytes = Some (KAck (mkAckSegment 7 0 40 3 100 [4; 6] 128), 25))
    by reflexivity.
  destruct (kcp_read_segment_canonical w_ack_bytes _ _ Hb E) as (_ & _ & Hw).
  eexists. split; [exact E|]. apply Hw. vm_compute. discriminate.
Defined.

Lemma kcp_rtt_update_exact_witness :
  RoundTripInfo_timeout (RoundTripInfo_update 80 1000 (mkRoundTrip 10 60 100 50 0)) = 92 /\
  rtt_ok (RoundTripInfo_update 80 1000 (mkRoundTrip 10 60 100 50 0)).
Proof.
  destruct (kcp_rtt_update_exact 80 1000 (mkRoundTrip 10 60 100 50 0)) as (_ & Hok & _ & _).
  - unfold rtt_ok, is_u32. cbn. lia.
  - lia.
  - unfold is_u32. lia.
  - split; [vm_compute; reflexivity|exact Hok].
Defined.

Lemma kcp_simple_writer_exact_witness :
  exists scratch, SimpleSegmentWriter_write_segment (E:=unit) (fun out (w : list bytes) => (Ok tt, w ++ [out])) w_seg
      (mkSimpleWriter [] (zrepeat 40 7)) =
    Some (Ok tt, mkSimpleWriter [segment_wire w_seg] scratch).
Proof.
  destruct (kcp_simple_writer_exact (E:=unit) (fun out (w : list bytes) => (Ok tt, w ++ [out])) w_seg
              (mkSimpleWriter [] (zrepeat 40 7)) w_seg_ok) as [scratch E].
  exists scratch. exact E.
Defined.

(** * KCP windows *)

Definition w_data_seg (n : Z) : DataSegment LBytes := mkDataSegment 0 0 0 n 0 (Some w_buf) 0 0.
Definition w_window : SendingWindow LBytes := mkSendingWindow [w_data_seg 4; w_data_seg 5; w_data_seg 6] 0.
Definition w_inner : SendingInner LBytes := mkSendingInner w_window 4 7 32 200 1000 false false.

Lemma kcp_prepare_flush_exact_witness :
  length (fp_to_send (SendingWindow_prepare_flush 100 100 2 7 Active 4 w_window).1) = 2%nat /\
  fp_in_flight (SendingWindow_prepare_flush 100 100 2 7 Active 4 w_window).1 = 2.
Proof.
  assert (Hl : zlen (sw_cache w_window) < 4294967296) by (vm_compute; reflexivity).
  pose proof (kcp_prepare_flush_exact 100 100 2 7 Active 4 w_window Hl) as H.
  destruct (SendingWindow_prepare_flush 100 100 2 7 Active 4 w_window) as [prep w'].
  cbn [fst] in *. destruct H as (E & _ & F & _). rewrite E, F. vm_compute. split; reflexivity.
Defined.

Lemma kcp_control_window_bounds_witness :
  adjust_control_window 100 20 default_config = 75 /\
  Z.min 16 (get_sending_in_flight_size default_config) <= adjust_control_window 100 20 default_config.
Proof.
  destruct (kcp_control_window_bounds 100 20 default_config) as [[Hlo _] Hex].
  - unfold config_ok, is_u32. cbn. lia.
  - unfold is_u32. lia.
  - lia.
  - split; [|exact Hlo]. rewrite Hex; vm_compute; [reflexivity|discriminate|discriminate].
Defined.

Lemma w_inner_ok : sending_ok w_inner.
Proof. split; unfold numbers; cbn; repeat constructor; lia. Qed.

Definition w_ack : AckSegment := mkAckSegment 7 0 64 5 90 [6] 128.

Lemma kcp_ack_removes_exactly_witness :
  map ds_number (sw_cache (si_window (SendingWorker_process_ack_segment 100 w_ack 100 w_inner (RoundTripInfo_new 50)).1)) = [5] /\
  sending_ok (SendingWorker_process_ack_segment 100 w_ack 100 w_inner (RoundTripInfo_new 50)).1.
Proof.
  destruct (kcp_ack_removes_exactly 100 w_ack 100 w_inner (RoundTripInfo_new 50) w_inner_ok eq_refl) as (_ & Hok & _ & _).
  - unfold ack_ok, is_u16, is_u8, is_u32. cbn. split_and!; try lia. repeat constructor; lia.
  - cbn. lia.
  - split; [vm_compute; reflexivity|exact Hok].
Defined.

Definition w_acklist : AckList := mkAckList [10; 11; 12] [4; 3; 8] [0; 500; 0] [] 128 false 1350.

Lemma kcp_acklist_clear_is_filter_witness :
  entries (AckList_clear 4 w_acklist) = [(4, (10, 0)); (8, (12, 0))] /\ al_dirty (AckList_clear 4 w_acklist) = true.
Proof.
  destruct (kcp_acklist_clear_is_filter 4 w_acklist) as (_ & E & D); [split; reflexivity|].
  rewrite E, D. vm_compute. split; reflexivity.
Defined.

Lemma kcp_acklist_flush_exact_witness :
  map ak_number_list (AckList_flush 100 60 w_acklist).1 = [[4; 8; 3]] /\
  al_next_flush (AckList_flush 100 60 w_acklist).2 = [130; 500; 130].
Proof.
  assert (Ha : aligned w_acklist) by (split; reflexivity).
  pose proof (kcp_acklist_flush_exact 100 60 w_acklist Ha) as H.
  split; [vm_compute; reflexivity|].
  destruct (AckList_flush 100 60 w_acklist) as [out l']. destruct H as (_ & _ & _ & _ & _ & E).
  cbn [snd]. rewrite E. vm_compute. reflexivity.
Defined.

(** * KCP connections *)

Definition w_conn : Connection LBytes := Connection_build 7 default_config false.
Definition w_closed : Connection LBytes := (Connection_close 10 w_conn).2.


Lemma kcp_idle_terminates_witness :
  exists c1 c2 c3, Connection_flush 30000 w_conn = Some c1 /\ Connection_flush 46000 c1 = Some c2 /\
    Connection_flush 55000 c2 = Some c3 /\ cn_state c3 = Terminated /\ EvCloseSocket ∈ cn_trace c3.
Proof.
  apply (kcp_idle_terminates 30000 46000 55000 w_conn).
  - intros H. vm_compute in H. discriminate.
  - vm_compute. discriminate.
  - vm_compute. split; discriminate.
  - vm_compute. discriminate.
  - vm_compute. discriminate.
  - lia.
  - lia.
  - lia.
Defined.

(** * The system: push, flush, deliver twice, read, acknowledge *)

Definition y_snd1 : SendingInner LBytes := (SendingWorker_push (fill [1; 2; 3]) (SendingWorker_new default_config)).2.
Definition y_flush := SendingWorker_flush_with_writer 100 7 default_config (RoundTripInfo_new 50) Active y_snd1.
Definition y_data : list bytes := map data_wire y_flush.1.1.
Definition y_seg : DataSegment LBytes :=
  match read_segment (M:=LBytes) (default [] (head y_data)) with Some (KData s, _) => s | _ => DataSegment_new end.
Definition y_rcv1 : ReceivingWorker LBytes := ReceivingWorker_process_segment y_seg (ReceivingWorker_new default_config 1350).
Definition y_rcv2 : ReceivingWorker LBytes := ReceivingWorker_process_segment y_seg y_rcv1.
Definition y_rcv3 : ReceivingWorker LBytes :=
  match ReceivingWorker_read 2 y_rcv2 with Some (_, r) => r | None => y_rcv2 end.
Definition y_ackflush := ReceivingWorker_flush 150 7 (RoundTripInfo_new 50) Active y_rcv3.
Definition y_acks : list bytes := map ack_wire y_ackflush.1.
Definition y_ack : AckSegment :=
  match read_segment (M:=LBytes) (default [] (head y_acks)) with Some (KAck a, _) => a | _ => AckSegment_new 1 end.
Definition y_acked := SendingWorker_process_ack_segment 200 y_ack 100 y_flush.2 (RoundTripInfo_new 50).

Definition y_end : Sys (M:=LBytes) := mkSys y_acked.1 y_acked.2 y_data y_ackflush.2 y_acks [[1; 2; 3]] [1; 2].

Definition y_st (snd : SendingInner LBytes) (rtt : RoundTrip) (data : list bytes) (rcv : ReceivingWorker LBytes)
    (acks : list bytes) (out : bytes) : Sys (M:=LBytes) := mkSys snd rtt data rcv acks [[1; 2; 3]] out.

Definition y_rtt : RoundTrip := RoundTripInfo_new 50.
Definition y_rcv0 : ReceivingWorker LBytes := ReceivingWorker_new default_config 1350.
Abbreviation y_step := (sys_step (M:=LBytes) default_config 7).

Lemma y_step1 : y_step (sys_init default_config y_rtt 1350) (y_st y_snd1 y_rtt [] y_rcv0 [] []).
Proof.
  refine (SyPush default_config 7 (SendingWorker_new default_config) y_rtt [] y_rcv0 [] [] [] [1; 2; 3] y_snd1 _ _ _).
  - vm_compute. discriminate.
  - reflexivity.
  - vm_compute. reflexivity.
Qed.

Lemma y_step2 : y_step (y_st y_snd1 y_rtt [] y_rcv0 [] []) (y_st y_flush.2 y_rtt y_data y_rcv0 [] []).
Proof.
  refine (SyFlush default_config 7 y_snd1 y_rtt [] y_rcv0 [] [[1; 2; 3]] [] 100 Active y_flush.1.1 false y_flush.2 _ _).
  - unfold is_u32. lia.
  - vm_compute. reflexivity.
Qed.

Lemma y_deliver rcv : y_step (y_st y_flush.2 y_rtt y_data rcv [] [])
  (y_st y_flush.2 y_rtt y_data (ReceivingWorker_process_segment y_seg rcv) [] []).
Proof.
  refine (SyDeliver default_config 7 y_flush.2 y_rtt y_data rcv [] [[1; 2; 3]] [] (default [] (head y_data)) y_seg 21 _ _).
  - apply list_elem_of_In. vm_compute. left. reflexivity.
  - vm_compute. reflexivity.
Qed.

Lemma y_step5 : y_step (y_st y_flush.2 y_rtt y_data y_rcv2 [] []) (y_st y_flush.2 y_rtt y_data y_rcv3 [] [1; 2]).
Proof.
  refine (SyRead default_config 7 y_flush.2 y_rtt y_data y_rcv2 [] [[1; 2; 3]] [] 2 [1; 2] y_rcv3 _ _).
  - lia.
  - vm_compute. reflexivity.
Qed.

Lemma y_step6 : y_step (y_st y_flush.2 y_rtt y_data y_rcv3 [] [1; 2]) (y_st y_flush.2 y_rtt y_data y_ackflush.2 y_acks [1; 2]).
Proof.
  refine (SyAckFlush default_config 7 y_flush.2 y_rtt y_data y_rcv3 [] [[1; 2; 3]] [1; 2] 150 y_rtt Active
            y_ackflush.1 y_ackflush.2 _ _).
  - unfold is_u32. lia.
  - vm_compute. reflexivity.
Qed.

Lemma y_step7 : y_step (y_st y_flush.2 y_rtt y_data y_ackflush.2 y_acks [1; 2]) y_end.
Proof.
  refine (SyAck default_config 7 y_flush.2 y_rtt y_data y_ackflush.2 y_acks [[1; 2; 3]] [1; 2] 200
            (default [] (head y_acks)) y_ack 25 y_acked.1 y_acked.2 _ _ _).
  - apply list_elem_of_In. vm_compute. left. reflexivity.
  - vm_compute. reflexivity.
  - vm_compute. reflexivity.
Qed.

Lemma y_run : rtc y_step (sys_init default_config y_rtt 1350) y_end.
Proof.
  eapply rtc_l; [exact y_step1|]. eapply rtc_l; [exact y_step2|].
  eapply rtc_l; [exact (y_deliver y_rcv0)|]. eapply rtc_l; [exact (y_deliver y_rcv1)|].
  eapply rtc_l; [exact y_step5|]. eapply rtc_l; [exact y_step6|]. eapply rtc_l; [exact y_step7|]. apply rtc_refl.
Qed.

Lemma kcp_in_order_delivery_witness : sy_delivered y_end = [1; 2] /\ [1; 2] `prefix_of` concat (sy_pushed y_end).
Proof.
  split; [reflexivity|].
  apply (kcp_in_order_delivery default_config 7 y_rtt 1350 y_end); [unfold is_u16; lia|exact y_run].
Defined.

Lemma kcp_no_loss_witness : readable (sy_rcv y_end) = [3] /\ sy_delivered y_end ++ readable (sy_rcv y_end) = [1; 2; 3].
Proof.
  split; [vm_compute; reflexivity|].
  apply (kcp_no_loss default_config 7 y_rtt 1350 y_end);
    [unfold is_u16; lia|exact y_run|vm_compute; reflexivity].
Defined.

(** * The pool *)

Definition p_block : LBytes := {| lb_data := [5]; lb_cap := 8192 |}.
Definition p_released := pool_release 0 p_block Shard_new (Shared_new (M:=LBytes)).
Definition p_world : World (M:=LBytes) := mkWorld (set_tls 0 p_released.1 (fun _ => Shard_new)) p_released.2.

Lemma p_run : rtc pool_step world_init p_world.
Proof. apply rtc_once. apply (PsRelease 0 0 p_block world_init). reflexivity. Qed.

Lemma pool_alloc_contract_witness :
  bm_data (pool_alloc_in 5000 (wo_tls p_world 0) (wo_shared p_world)).1.1 = [] /\
  5000 <= bm_capacity (pool_alloc_in 5000 (wo_tls p_world 0) (wo_shared p_world)).1.1.
Proof.
  pose proof (pool_alloc_contract p_world 0 5000 p_run) as H.
  destruct (pool_alloc_in 5000 (wo_tls p_world 0) (wo_shared p_world)) as [[m tls] g].
  destruct H as (H1 & H2 & _). split; [exact H1|exact H2].
Defined.

Lemma pool_single_owner_witness :
  (pool_alloc_in 5000 (wo_tls p_world 0) (wo_shared p_world)).1.1 = bm_clear p_block /\
  let '(tls', g') := pool_release 9 p_block (wo_tls p_world 0) (wo_shared p_world) in
  concat tls' ++ shared_blocks g' ⊆+ bm_clear p_block :: concat (wo_tls p_world 0) ++ shared_blocks (wo_shared p_world).
Proof.
  split; [reflexivity|]. destruct (pool_single_owner p_world 0 5000 9 p_block p_run) as [_ H]. exact H.
Defined.

Lemma pool_busy_never_sweeps_witness :
  sweeps (M:=LBytes) [(50000, [[p_block]]); (100000, [[p_block]]); (150000, [[p_block]])] 0
    = [[[p_block]]; [[p_block]]; [[p_block]]].
Proof. apply (pool_busy_never_sweeps [(50000, [[p_block]]); (100000, [[p_block]]); (150000, [[p_block]])] 0). vm_compute. repeat split; discriminate. Defined.

(** * XUDP *)

Definition x_dest : Destination := Destination_udp (IPv4 [10; 0; 0; 1]) (Port_new 53).
Definition x_other : Destination := Destination_udp (Domain [97; 46; 98]) (Port_new 99).
Definition x_ops : list xudp_op := [XoPacket [1; 2; 3]; XoKeepAlive; XoPacketTo [4; 5] x_other; XoPacket []; XoPacket [6]].

Lemma x_fits : dest_fits x_dest /\ dest_fits x_other.
Proof.
  split; (split; [unfold port_ok, is_u16; cbn; lia|split; [|vm_compute; discriminate]]).
  - split; [split; [repeat constructor; unfold is_u8; lia|reflexivity]|exact I].
  - exact w_addr_ok.
Qed.


Definition x_name : bytes := repeat 97 30.

Lemma xudp_long_domain_rejected_witness :
  XudpMetadata_from_bytes (XudpMetadata_to_bytes LBytes (XudpMetadata_keep_udp (Domain x_name) (Port_new 53)) ++ [0; 1; 7]) =
    Err (AddressParseFailed "Keep frame").
Proof.
  assert (Hcap : bm_capacity (bm_with_capacity (M:=LBytes) 32) = 32) by reflexivity.
  apply (xudp_long_domain_rejected (M:=LBytes) Hcap x_name (Port_new 53) [1; 2; 3; 4; 5; 6; 7; 8] [0; 1; 7]);
    [vm_compute; discriminate|reflexivity|reflexivity].
Defined.

(** * Buffered readers and writers *)

(** A reader that hands out the chunks it holds, each with at least one byte. *)
Definition chunk_bytes (c : Z * bytes) : bytes := c.1 :: c.2.

#[local] Instance chunk_reader : Reader LBytes (list (Z * bytes)) := {
  read_multi_buffer r :=
    match r with
    | [] => (Ok MultiBuffer_new, [])
    | c :: r => (Ok (MultiBuffer_from_buffer (Buffer_from_vec (chunk_bytes c))), r)
    end;
}.

Lemma from_vec_bytes (l : bytes) : buffer_ok (Buffer_from_vec (M:=LBytes) l) /\ Buffer_bytes (Buffer_from_vec (M:=LBytes) l) = l.
Proof.
  unfold buffer_ok, Buffer_bytes, Buffer_from_vec. cbn. pose proof (zlen_nonneg l). split; [lia|].
  unfold slice. rewrite zdrop_le0, Z.sub_0_r by lia. apply ztake_ge. lia.
Qed.

#[local] Instance chunk_reader_laws : ReaderLaws LBytes (list (Z * bytes)).
Proof.
  exists (fun r => concat (map chunk_bytes r)). intros [|c r]; cbn [read_multi_buffer chunk_reader].
  - eexists _, _. split; [reflexivity|]. split; [constructor|]. done.
  - destruct (from_vec_bytes (chunk_bytes c)) as [Hok Hb]. eexists _, _. split; [reflexivity|].
    split; [by apply Forall_singleton|]. unfold MultiBuffer_to_vec. cbn [mb_buffers MultiBuffer_from_buffer map concat].
    by rewrite Hb, app_nil_r.
Defined.

Definition r_chunks : list (Z * bytes) := [(1, [2; 3]); (4, []); (5, [6; 7; 8])].
Definition r_step1 := BufferedReader_read 2 (BufferedReader_new (M:=LBytes) r_chunks).
Definition r_step2 := BufferedReader_read 5 r_step1.2.


(** A writer that keeps the bytes. *)
#[local] Instance bytes_writer : Writer LBytes bytes := {
  write_multi_buffer mb w := (Ok tt, w ++ MultiBuffer_to_vec mb);
  shutdown w := w;
}.

#[local] Instance bytes_writer_laws : WriterLaws LBytes bytes.
Proof. exists (fun w => w). intros mb w w'. cbn. congruence. Defined.

Definition w_small : LBuf := (Buffer_write_from [8; 9] Buffer_new).2.
Definition bw_new : BufferedWriter LBytes bytes := BufferedWriter_new [0].
Definition bw_one := (BufferedWriter_write_buffer w_buf bw_new).2.
Definition bw_two := (BufferedWriter_write_multi_buffer_direct w_multi bw_one).2.

Lemma bufwriter_order_witness :
  bw_writer bw_two ++ bw_cached bw_two = [0; 1; 2; 3; 4; 5; 1; 2; 3; 4; 5; 6; 7; 8; 9; 10].
Proof.
  assert (H : bw_steps bw_new (Buffer_bytes w_buf ++ MultiBuffer_to_vec w_multi ++ []) bw_two).
  { eapply BwsStep; [apply (BwBuffer w_buf bw_new bw_one w_buf_ok); vm_compute; reflexivity|].
    eapply BwsStep; [apply (BwDirect w_multi bw_one bw_two); vm_compute; reflexivity|]. apply BwsNil. }
  destruct (bufwriter_order _ _ _ H) as [E _]. etransitivity; [exact E|]. vm_compute. reflexivity.
Defined.

Definition bw_un := (BufferedWriter_write_buffer w_small (BufferedWriter_set_buffered false bw_one)).2.

Lemma bufwriter_unbuffer_reorders_witness :
  bw_writer (BufferedWriter_flush bw_un).2 = [0; 8; 9; 1; 2; 3; 4; 5].
Proof.
  assert (Hne : Buffer_bytes w_buf <> []) by (vm_compute; discriminate).
  assert (Hl : Buffer_len w_buf <= Buffer_capacity w_buf / 2) by (vm_compute; discriminate).
  pose proof (bufwriter_unbuffer_reorders [0] w_buf w_small bw_one bw_un (BufferedWriter_flush bw_un).2 w_buf_ok Hne Hl
                eq_refl eq_refl eq_refl) as E.
  etransitivity; [exact E|]. vm_compute. reflexivity.
Defined.

(** A sink that takes at most three bytes a call. *)
Definition sip (slices : list bytes) (w : bytes) : result BufError Z * bytes :=
  (Ok (Z.min 3 (zlen (concat slices))), w ++ ztake (Z.min 3 (zlen (concat slices))) (concat slices)).

Lemma vectored_write_complete_witness :
  exists res w', write_vectored_all sip 10 (mb_buffers w_multi) [] = Some (res, w') /\
    w' = [1; 2; 3; 4; 5; 6; 7; 8; 9; 10].
Proof.
  destruct (vectored_write_complete (fun w => w) sip) with (buffers := mb_buffers w_multi) (w := @nil Z) as (res & w' & H & E).
  - intros slices w n w' [= <- <-]. pose proof (zlen_nonneg (concat slices)). split; [lia|reflexivity].
  - exists res, w'. split; [exact H|]. vm_compute in H. injection H as <- <-. reflexivity.
Defined.

(** * Sessions on one carrier *)

#[local] Instance mux_debug : DebugFmt MuxError := fun _ => "error"%string.
#[local] Instance buf_debug : DebugFmt BufError := fun _ => "error"%string.

Abbreviation LSession := (MuxWriter LBytes (list bytes) * list (MultiBuffer LBytes))%type.

Definition c_tcp : Destination := Destination_tcp w_addr (Port_new 80).
Definition c_stream : LSession :=
  (MuxWriter_new 5 c_tcp [] TtStream None, [w_multi; MultiBuffer_from_buffer w_buf]).
Definition c_packets : LSession :=
  (MuxWriter_set_error (MuxWriter_new 9 w_dest [] TtPacket (Some [1; 2; 3; 4; 5; 6; 7; 8])),
   [MultiBuffer_from_buffers [w_buf; w_small]]).

Lemma w_small_ok : buffer_ok w_small.
Proof. vm_compute; repeat split; discriminate. Qed.

Lemma c_tcp_ok : destination_ok c_tcp.
Proof. split; [apply w_addr_ok|]. unfold port_ok, is_u16. cbn. lia. Qed.

Lemma c_sessions_ok : Forall session_ok [c_stream; c_packets].
Proof.
  apply Forall_cons_2; [|apply Forall_cons_2; [|apply Forall_nil_2]].
  - split; [|split; [reflexivity|split; [reflexivity|]]].
    + split; [reflexivity|unfold is_u16; cbn; lia|apply Forall_singleton; split; [exact c_tcp_ok|reflexivity]|constructor|reflexivity].
    + repeat apply Forall_cons_2; [split; [exact w_multi_ok|discriminate]|split; [|discriminate]|apply Forall_nil_2].
      apply Forall_singleton. exact w_buf_ok.
  - split; [|split; [reflexivity|split; [reflexivity|]]].
    + split; [reflexivity|unfold is_u16; cbn; lia|apply Forall_singleton; split; [exact w_dest_ok|reflexivity]| |reflexivity].
      apply Forall_singleton. split; [repeat constructor; unfold is_u8; lia|reflexivity].
    + apply Forall_singleton. split.
      * repeat apply Forall_cons_2; [exact w_buf_ok|exact w_small_ok|apply Forall_nil_2].
      * intros _. repeat apply Forall_cons_2; [vm_compute; discriminate|vm_compute; discriminate|apply Forall_nil_2].
Qed.

(** The carrier takes a frame of the list at each position of [order]. *)
Fixpoint pick {A} (order : list nat) (ls : list (list A)) : list A :=
  match order with
  | [] => []
  | i :: order =>
      match ls !! i with
      | Some (x :: l) => x :: pick order (<[i := l]> ls)
      | _ => pick order ls
      end
  end.
Definition c_order : list nat := [1; 0; 1; 0; 0; 1]%nat.
Definition c_entries : list bytes := pick c_order (map session_log [c_stream; c_packets]).

Ltac take_from i := eapply (merges_take _ i); [reflexivity|].

Lemma c_merges : merges (map session_log [c_stream; c_packets]) c_entries.
Proof.
  unfold c_entries. set (ls := map _ _). vm_compute in ls. subst ls. cbn [pick c_order].
  vm_compute. take_from 1%nat. take_from 0%nat. take_from 1%nat. take_from 0%nat. take_from 0%nat. take_from 1%nat.
  apply merges_done. repeat constructor.
Qed.

Definition c_reader : BufferedReader LBytes (list (Z * bytes)) :=
  BufferedReader_new (map (fun x => (x, [])) (concat c_entries)).

(** Read a byte at a time, the two sessions come out whole. *)
Lemma mux_demultiplex_witness :
  exists fs, read_frames (S (length c_entries)) c_reader = Some (fs, CarrierEof) /\
    concat (map snd (filter (fun f => fm_session_id f.1 = 5) fs)) = [1; 2; 3; 4; 5; 6; 7; 8; 9; 10; 1; 2; 3; 4; 5] /\
    map snd (filter (fun f => fm_session_id f.1 = 9) fs) = [[1; 2; 3; 4; 5]; [8; 9]; []].
Proof.
  assert (Hn : NoDup (map (fun s : LSession => mw_id s.1) [c_stream; c_packets])).
  { apply NoDup_cons_2; [|apply NoDup_singleton]. intros H%list_elem_of_singleton. discriminate H. }
  assert (Hp : br_pending c_reader = concat c_entries) by (vm_compute; reflexivity).
  destruct (mux_demultiplex [c_stream; c_packets] c_entries c_reader c_sessions_ok Hn c_merges) as (_ & fs & E & _ & H);
    [split; [constructor|reflexivity]|exact Hp|].
  exists fs. split; [exact E|]. apply Forall_cons_1 in H as [H1 H]. apply Forall_cons_1 in H as [H _]. split.
  - etransitivity; [exact (rcv_data _ _ H1)|]. vm_compute. reflexivity.
  - etransitivity; [apply (rcv_packets _ _ H); [reflexivity|]|vm_compute; reflexivity].
    apply Forall_singleton. split; [vm_compute; reflexivity|].
    repeat apply Forall_cons_2; [vm_compute; discriminate|vm_compute; discriminate|apply Forall_nil_2].
Defined.

(** * The session table *)

Definition t_strategy : ClientStrategy := mkClientStrategy 8 0.
Definition t_one : Sessions LBytes (list (Z * bytes)) bytes :=
  (SessionManager_add (Session_new 7 TtStream) (mkSessions [] SessionManager_new)).2.
Definition t_two := (SessionManager_add (Session_new 7 TtPacket) t_one).2.
Definition t_closed := (Session_close 0 1 (Session_close 0 0 t_two).2).2.

Lemma t_reach : table_reach false t_closed 1.
Proof.
  assert (H1 : table_reach false t_one 0) 
    by exact (TrStep false _ 0 0 _ (TrNew false) (TsAdd false (Session_new 7 TtStream) (mkSessions [] SessionManager_new) (Some 0%nat) t_one eq_refl eq_refl)).
  assert (H2 : table_reach false t_two 1) 
    by exact (TrStep false _ 0 1 _ H1 (TsAdd false (Session_new 7 TtPacket) t_one (Some 1%nat) t_two eq_refl eq_refl)).
  unfold t_closed. by apply session_close_reach, session_close_reach.
Qed.

(** The peer used the id 7 twice: with both sessions closed the table is empty, the count
    is one, and the worker is not idle. *)
Lemma mux_session_table_witness :
  sm_sessions (manager t_closed) = ∅ /\ sm_size (manager t_closed) = 1 /\
  (SessionManager_close_if_no_session_and_idle (sm_size (manager t_closed)) (sm_count (manager t_closed)) (manager t_closed)).1 = false.
Proof.
  destruct (mux_session_table false t_closed 1 t_reach) as (_ & _ & _ & H & _).
  destruct (H eq_refl) as [E Hi]. assert (Em : sm_sessions (manager t_closed) = ∅) by reflexivity.
  split; [exact Em|]. split; [rewrite E, Em; reflexivity|].
  destruct (SessionManager_close_if_no_session_and_idle _ _ _).1 eqn:Ec; [|reflexivity].
  destruct (proj1 Hi eq_refl) as [_ Hk]. discriminate Hk.
Defined.

(** * The replay window *)

Lemma replay_window_witness :
  let f := MapFilter_new (T:=Z) 0 60 in
  verdict f [] 5 42 = true /\ verdict f [(5, 42)] (59 * SECOND) 42 = false /\
  verdict f [(5, 42); (61 * SECOND, 43)] (122 * SECOND) 42 = true.
Proof.
  cbv zeta. destruct (replay_window (T:=Z) 0 60) as (_ & _ & H1 & H2).
  assert (E : verdict (MapFilter_new (T:=Z) 0 60) [] 5 42 = true) by (vm_compute; reflexivity).
  split; [exact E|]. split; [exact (H2 [] 5 (59 * SECOND) 42 E)|].
  apply (H1 [] 5 [] (61 * SECOND) 43 [] (122 * SECOND) 42); [vm_compute; repeat split; discriminate|exact E| |..].
  - intros c [<-|[]]. discriminate.
  - vm_compute. discriminate.
  - vm_compute. discriminate.
Defined.

(** * The upload queue *)

Definition u_data (n : Z) : bytes := [n; n + 100].
Definition u_packet (n : Z) : Packet := Packet_new (u_data n) n.
Definition u_push (n : Z) (q : UploadQueue) : UploadQueue :=
  match UploadQueue_push (u_packet n) q with Some (_, q) => q | None => q end.
Definition u_turn (q : UploadQueue) : UploadQueue := (read_turn 9 q).2.

Lemma u_pushed n q out ps : uq_reach u_data 4 q out ps -> 0 <= n < 100 ->
  UploadQueue_push (u_packet n) q = Some (Ok tt, u_push n q) ->
  uq_reach u_data 4 (u_push n q) out (ps ++ [u_packet n]).
Proof. intros Hr Hn E. apply (UqPush u_data 4 q out ps (u_packet n) _ Hr); [split; [done|cbn; lia]|done]. Qed.

Definition u_two : UploadQueue := u_push 0 (u_push 1 (UploadQueue_new 4)).

Lemma u_two_reach : uq_reach u_data 4 u_two [] [u_packet 1; u_packet 0].
Proof.
  apply (u_pushed 0 _ [] [u_packet 1]); [|lia|reflexivity]. apply (u_pushed 1 _ [] []); [apply UqNew|lia|reflexivity].
Qed.

(** Packet 1 came first; the first bytes out are those of packet 0. *)
Definition u_read : UploadQueue := u_turn (u_turn (u_turn u_two)).

Lemma u_read_reach : uq_reach u_data 4 u_read [0; 100] [u_packet 1; u_packet 0].
Proof.
  assert (Ht : forall q out ps t, uq_reach u_data 4 q out ps -> (read_turn 9 q).1 = t ->
    uq_reach u_data 4 (u_turn q) (out ++ turn_out t) ps).
  { intros q out ps t Hr <-. apply (UqTurn u_data 4 q out ps 9 _ _ Hr); [lia|]. unfold u_turn. by destruct (read_turn 9 q). }
  apply (Ht _ [] _ (RdReturn (Ok [0; 100]))); [|reflexivity].
  apply (Ht _ [] _ RdContinue); [|reflexivity]. apply (Ht _ [] _ RdContinue); [|reflexivity]. apply u_two_reach.
Qed.

Lemma upload_in_order_witness :
  uq_next_seq u_read = 1 /\ [0; 100] = upto u_data (uq_next_seq u_read).
Proof.
  destruct (upload_in_order u_data 4 u_read [0; 100] _ u_read_reach) as (_ & k & _ & H). split; [reflexivity|].
  apply H. reflexivity.
Defined.

Lemma upload_read_complete_witness :
  exists res q', UploadQueue_read 9 u_read = Some (res, q') /\ res = Some (Ok [1; 101]) /\
    read_result u_data q' [0; 100] [u_packet 1; u_packet 0] 9 res 4.
Proof.
  assert (Hd : distinct [u_packet 1; u_packet 0]).
  { split; [apply NoDup_cons_2; [intros H%list_elem_of_singleton; discriminate H|apply NoDup_singleton]|].
    repeat apply Forall_cons_2; [discriminate|discriminate|apply Forall_nil_2]. }
  destruct (upload_read_complete u_data 4 u_read [0; 100] _ 9 u_read_reach Hd) as (res & q' & E & H); [lia|].
  exists res, q'. split; [exact E|]. split; [|exact H]. vm_compute in E. injection E as <- _. reflexivity.
Defined.

(** Packet 1 comes twice and packet 2 behind it; after packets 0 and 1 were read, packet
    2 is in the heap and no read returns it. *)
Definition u_stuck : UploadQueue :=
  Nat.iter 8 u_turn (u_push 0 (u_push 2 (u_push 1 (u_push 1 (UploadQueue_new 4))))).

Lemma upload_repeat_blocks_witness :
  uq_next_seq u_stuck = 2 /\ map pk_seq (uq_heap u_stuck) = [1; 2] /\
  exists res q', UploadQueue_read 9 u_stuck = Some (res, q') /\
    (res = None \/ res = Some (Ok []) \/ exists e, res = Some (Err e)).
Proof.
  split; [vm_compute; reflexivity|]. split; [vm_compute; reflexivity|].
  assert (Hs : stuck u_stuck).
  { split; [exists (u_packet 1); split; [vm_compute; reflexivity|vm_compute; reflexivity]|vm_compute; reflexivity|vm_compute; constructor|vm_compute; discriminate]. }
  destruct (upload_repeat_blocks 9 u_stuck Hs) as (res & q' & E & _ & H & _). exists res, q'. split; [exact E|exact H].
Defined.
