(* ===== verification/RoutingWitnesses.v ===== *)
(** Concrete runs of the routing layer's theorems, each at an input where its hypotheses
    hold. *)
From Stdlib Require Import List SpecFloat.
From stdpp Require Import base tactics option list numbers gmap sorting.
From S2P Require Import Prelude Bytes NetTypes StrMatch DomainMatch DomainMatchProps Mph MphProps DomainRules DomainRulesProps IpMatch IpMatchProps Balancing BalancingProps RouterCond Router RouterProps.

(** * Domain matchers *)

#[local] Instance regex_contains : RegexOps := {|
  Regex := bytes;
  Regex_Error := unit;
  Regex_new p := if bool_decide (p = []) then Err tt else Ok p;
  is_match r s := contains s r;
|}.

(** A toy hash and the lowercasing of ASCII letters. *)
#[local] Instance toy_text : StdText := {|
  DefaultHasher_finish seed s := fold_left (fun h b => (h * 31 + b + seed * 7) mod 2 ^ 64) s (seed * 12345);
  to_lowercase := map (fun b => if (65 <=? b) && (b <=? 90) then b + 32 else b);
|}.

(** "e.c", "a.e.c", "E.c" *)
Definition d_ec : bytes := [101; 46; 99].
Definition d_aec : bytes := [97; 46; 101; 46; 99].
Definition d_adds : list (Matcher * Z) :=
  [(SubstrMatcher [46], 4); (DomainMatcher d_ec, 1); (FullMatcher d_aec, 2); (RegexMatcher [97] [97], 5); (DomainMatcher d_aec, 3)].

Lemma linear_matchers_scan_witness : patterns_ok d_adds /\
  LinearValueMatcher_match_str d_aec (LinearValueMatcher_of d_adds) = [2; 3; 1; 4; 5] /\
  [2; 3; 1; 4; 5] ≡ₚ map snd (hits d_aec d_adds).
Proof.
  assert (Hok : patterns_ok d_adds).
  { intros m v Hin. unfold d_adds in Hin. rewrite !elem_of_cons in Hin. intros Ht.
    destruct Hin as [[= -> ->]|[[= -> ->]|[[= -> ->]|[[= -> ->]|[[= -> ->]|[]%elem_of_nil]]]]]; try discriminate Ht; vm_compute; reflexivity. }
  assert (Hv : LinearValueMatcher_match_str d_aec (LinearValueMatcher_of d_adds) = [2; 3; 1; 4; 5]) by (vm_compute; reflexivity).
  split; [exact Hok|]. split; [exact Hv|]. rewrite <- Hv. exact (proj1 (linear_matchers_scan d_adds d_aec Hok)).
Defined.

Definition d_rules : list DomainRule :=
  [mkDomainRule DtDomain [69; 46; 99] 1; mkDomainRule DtFull d_aec 2; mkDomainRule DtSubstr [101] 3; mkDomainRule DtRegex [97] 4].


Definition d_build (rules : list DomainRule) : result MatcherError (list (bytes * Z)) :=
  match compact_entries rules [] with Ok es => Ok (map (fun e => (pattern e.1, e.2)) es) | Err e => Err e end.

(** Two lists of rules, the second one shared with the first through the cache. *)
Definition d_registry : DomainRegistry := (add_rules d_build d_rules (add_rules d_build d_rules (mkRegistry [] WeakCacheMap_new)).2).2.


(** Concrete addresses and blocks are byte lists. *)
Ltac octets := repeat first
  [ apply List.Forall_nil | apply List.Forall_cons | match goal with |- _ /\ _ => split end
  | match goal with |- cidr_ok _ => split | |- ip_ok _ => split | |- octets_ok _ _ => split end
  | progress (unfold is_u8, is_u32; cbn) | lia | reflexivity ].

(** * IP matchers *)

(** 10.0.0.0/8, 10.1.0.0/16, 10.255.255.0/24, one IPv6 block, and the default route. *)
Definition i_blocks : list Cidr :=
  [mkCidr [10; 255; 255; 0] 24; mkCidr [10; 0; 0; 0] 8; mkCidr [32; 1; 13; 184; 0; 0; 0; 0; 0; 0; 0; 0; 0; 0; 0; 0] 32; mkCidr [10; 1; 0; 0] 16].

Lemma i_blocks_ok : Forall cidr_ok i_blocks.
Proof. unfold i_blocks. octets. Qed.

Lemma ip_set_exact_witness : ip_ok (V4 [10; 1; 2; 3]) /\
  IPSet_contains (IPSet_from_cidrs i_blocks) (V4 [10; 1; 2; 3]) = true /\ ipv4_ranges (IPSet_from_cidrs i_blocks) = [(167772160, 184549375)] /\
  IPSet_contains (IPSet_from_cidrs i_blocks) (V4 [10; 1; 2; 3]) = existsb (cidr_covers (V4 [10; 1; 2; 3])) i_blocks.
Proof.
  assert (Hip : ip_ok (V4 [10; 1; 2; 3])) by octets.
  split; [exact Hip|]. split; [vm_compute; reflexivity|]. split; [vm_compute; reflexivity|].
  exact (proj1 (ip_set_exact i_blocks (V4 [10; 1; 2; 3]) i_blocks_ok Hip)).
Defined.

(** 10.0.0.0/8, and everything but 192.168.0.0/16. *)
Definition i_rules : list IpRule :=
  [mkIpRule (Some (Custom (mkCidrRule (Some (mkCidr [10; 0; 0; 0] 8)) false)));
   mkIpRule (Some (Custom (mkCidrRule (Some (mkCidr [192; 168; 0; 0] 16)) true)))].
Definition i_ips : list IpAddr := [V4 [10; 1; 1; 1]; V4 [192; 168; 7; 7]; V4 [192; 168; 7; 8]; V4 [1; 1; 1; 1]].

Lemma ip_rules_exact_witness : exists m, build_optimized_ip_matcher i_rules = Ok m /\
  filter_ips m i_ips = [V4 [10; 1; 1; 1]; V4 [1; 1; 1; 1]] /\ filter_ips m i_ips = List.filter (rule_match i_rules) i_ips.
Proof.
  assert (Hr : rules_ok i_rules) by (intros []; unfold i_rules, rule_blocks; cbn [map concat ir_value cr_cidr cr_reverse_match eqb app]; octets).
  assert (Hips : Forall ip_ok i_ips) by (unfold i_ips; octets).
  pose proof (ip_rules_exact i_rules i_ips Hr Hips) as H. destruct (build_optimized_ip_matcher i_rules) as [m|e] eqn:E; [|discriminate H].
  exists m. split; [reflexivity|]. destruct H as (_ & _ & _ & Hf & _). split; [|exact Hf]. rewrite Hf. vm_compute. reflexivity.
Defined.

(** * Balancers *)

(** Three outbounds of which the second is observed dead. *)
Definition b_tags : list bytes := [[97]; [98]; [99]].
Definition b_env : Env := mkEnv (fun sel => Ok (List.filter (fun t => bool_decide (t ∈ b_tags)) sel))
  (Ok [mkOutboundStatus false 0 [98] None; mkOutboundStatus true 30 [99] (Some (mkHealthPing 4 1 5 20)); mkOutboundStatus true 25 [97] None])
  (fun n => (n - 1)%nat).

Definition b_rr (i : Z) : Balancer := mkBalancer b_tags (SRoundRobin (mkRoundRobin b_tags true i)) [100] [].

Lemma b_roll : roll_ok b_env.
Proof. intros n Hn. cbn. lia. Qed.


(** Two turns over the two that are alive, across the overflow of the counter. *)
Lemma round_robin_fair_witness : (picks b_env 2 (b_rr (2 ^ 32 - 1))).1 = [Ok [99]; Ok [97]] /\
  (picks b_env 2 (b_rr (2 ^ 32 - 1))).1 ≡ₚ map Ok [[97]; [99]].
Proof.
  split; [vm_compute; reflexivity|].
  refine (proj2 (round_robin_fair b_env (b_rr (2 ^ 32 - 1)) (mkRoundRobin b_tags true (2 ^ 32 - 1)) [[97]; [99]] eq_refl eq_refl _ _ _ _) _).
  - vm_compute. reflexivity.
  - discriminate.
  - repeat constructor; discriminate.
  - split; vm_compute; [discriminate|reflexivity].
  - right. exists 2147483648. vm_compute. reflexivity.
Defined.

(** * The router *)

Definition r_os : Os := mkOs [108] (fun _ _ => None) None None.

(** Names under "e.c" from port 80 go out by "out"; connections from inbound "in" to
    10.0.0.0/8 by the balancer "bal", with a webhook. *)
Definition r_proto (domain : list (option ProtoDomainValue)) (ip : list (option ProtoIpValue)) (ports : option (list (Z * Z)))
    (inbound : list bytes) (target : TargetTag) (tag : bytes) (webhook : bool) : RoutingRule :=
  mkRoutingRule [] domain ip [] [] ports None None None [] [] inbound [] [] [] (Some target) tag webhook.
Definition r_rules : list RoutingRule :=
  [r_proto [Some (PDomain 2 d_ec); Some (PDomain 9 d_ec)] [] (Some [(80, 80)]) [] (TTag [111]) [49] false;
   r_proto [] [Some (PCidr (Some (mkCidr [10; 0; 0; 0] 8)) false)] None [[105]] (TBalancingTag [98]) [50] true].
Definition r_config : Config := mkConfig 2 r_rules [mkBalancingRule [98] b_tags [82; 111; 117; 110; 100; 82; 111; 98; 105; 110] None []].
Definition r_router : Router :=
  match Router_init r_os (fun s => s) 50 (fun _ => None) true None r_config with Some (Ok r) => r | _ => Router_empty false end.
Definition r_ctx (ips : list IpAddr) (domain : bytes) (port : Z) : RoutingData :=
  mkRoutingData ips domain (Port_new port) [] (Port_new 0) [] (Port_new 0) (Port_new 0) TCP [] [] [105] [] false.

Lemma r_reach : router_reach (fun s => s) 50 r_os r_router r_rules.
Proof. apply (RrInit (fun s => s) 50 r_os (fun _ => None) true None r_config). vm_compute. reflexivity. Qed.

Lemma r_protos_ok : Forall (proto_ok (fun s => s) (ro_geo_loader r_router)) r_rules.
Proof.
  unfold r_rules. apply List.Forall_cons; [|apply List.Forall_cons; [|apply List.Forall_nil]]; (split_and!;
    [ match goal with |- Forall _ ?l => let x := eval vm_compute in l in change l with x end;
      repeat first [apply List.Forall_nil | apply List.Forall_cons]; split_and!; vm_compute; (reflexivity || discriminate)
    | vm_compute; reflexivity
    | intros []; match goal with |- Forall _ ?l => let x := eval vm_compute in l in change l with x end; octets ..]).
Qed.

Lemma r_ctx_ok : ctx_ok (r_ctx [V4 [10; 1; 1; 1]] d_aec 8080).
Proof. intros []; cbn [ips_for r_ctx target_ips source_ips local_ips]; octets. Qed.


Lemma router_table_witness : list_rules r_router = [[49]; [50]] /\ NoDup (tagged (list_rules r_router)).
Proof.
  split; [vm_compute; reflexivity|].
  exact (proj1 (proj2 (proj1 (router_table (fun s => s) 50 r_os r_router r_rules [49] (r_proto [] [] None [] (TTag []) [] false) r_reach)))).
Defined.
