(* ===== verification/TrojanWitnesses.v ===== *)
(** Concrete runs of the trojan theorems, each at an input where its hypotheses hold. *)
From Stdlib Require Import List String.
From stdpp Require Import base tactics option list numbers gmap.
From S2P Require Import Prelude Bytes AsyncIo NetTypes BytesMut Buffer AddrCodec StrMatch Mph Fallback TrojanProto TrojanServer TrojanClient TrojanProps TrojanServerProps TrojanClientProps.

(** Digests that are not secret, the real hexadecimal digits, ASCII lower case. *)
Definition nibble (d : Z) : Z := if d <? 10 then 48 + d else 87 + d.

#[local] Instance plain_hash : TrojanHash := {|
  sha224 s := map (fun b => b mod 256) (take 28 (s ++ replicate 28 0));
  md5 s := map (fun b => b mod 256) (take 16 (s ++ replicate 16 0));
  hex_encode l := concat (map (fun b => [nibble ((b / 16) mod 16); nibble (b mod 16)]) l);
|}.

#[local] Instance plain_text : StdText := {|
  DefaultHasher_finish _ _ := 0;
  to_lowercase := map (fun b => if (65 <=? b) && (b <=? 90) then b + 32 else b);
|}.

#[local] Instance no_ipv6_text : IpText := {| ipv6_to_string o := o |}.

Lemma nibble_digit d : 48 <= nibble (d mod 16) <= 57 \/ 97 <= nibble (d mod 16) <= 102.
Proof. pose proof (Z.mod_pos_bound d 16). unfold nibble. zcase_goal; lia. Qed.

#[local] Instance plain_hash_laws : TrojanHashLaws.
Proof.
  constructor.
  - intros s. unfold sha224, plain_hash. rewrite zlen_map. unfold zlen. rewrite length_take, length_app, length_replicate. lia.
  - intros s. unfold md5, plain_hash. rewrite zlen_map. unfold zlen. rewrite length_take, length_app, length_replicate. lia.
  - intros l. cbn. induction l as [|b l IH]; [done|]. cbn. rewrite !zlen_cons, IH. lia.
  - intros l. cbn. induction l as [|b l IH]; [constructor|]. cbn. constructor; [apply nibble_digit|]. constructor; [apply nibble_digit|done].
Qed.

Definition map_keys (m : gmap bytes AlpnNode) : list bytes := map fst (map_to_list m).

(** * Fallback rules *)

Definition t_rule (name alpn path dest : string) : Fallback := mkFallback (text name) (text alpn) (text path) [] (text dest) 1.
Definition t_rules : list Fallback :=
  [t_rule "" "" "" "default"; t_rule "example.com" "" "" "site"; t_rule "example.com" "h2" "" "site2"; t_rule "com" "" "" "com"; t_rule "example.com" "" "" "site again"].

Lemma fallback_decide_exact_witness : exists matched, longest_contained t_rules (text "www.example.com") matched /\
  decide_fallback map_keys (from_list t_rules) (text "WWW.example.com") (text "H2") [] =
    decide_by_scan t_rules matched (text "www.example.com") (text "h2") [] /\
  fb_dest <$> decide_fallback map_keys (from_list t_rules) (text "WWW.example.com") (text "H2") [] = Some (text "site2").
Proof.
  destruct (fallback_decide_exact map_keys (fun m => reflexivity _) t_rules (text "WWW.example.com") (text "H2") []) as (matched & H1 & H2).
  exists matched. split; [exact H1|]. split; [exact H2|]. vm_compute. reflexivity.
Defined.

(** * Handshake *)

Definition t_user : MemoryUser := mkUser (text "a@b") 3 (MemoryAccount_new (text "secret")).
Definition t_validator : Validator := load_users [t_user].
Definition t_addr : Address := Domain (text "x.org").
Definition t_header : bytes := (write_request_header [] (MemoryAccount_new (text "secret")) NetUdp t_addr 443).2.
Definition t_events : list ReadEvent := [Data (ztake 30 t_header); Data (zdrop 30 t_header ++ [7; 8])].

Lemma t_addr_ok : encodable t_addr.
Proof. split; [split; [repeat constructor; unfold is_u8; cbn; lia|vm_compute; reflexivity]|vm_compute; discriminate]. Qed.

Lemma t_flows : flows t_events.
Proof. repeat constructor; (eexists; split; [reflexivity|vm_compute; discriminate]). Qed.

Lemma trojan_handshake_accepts_witness : exists s, trojan_server_handshake t_validator (RecordingStream_new t_events) = (Ok (NetUdp, t_addr, 443, t_user), s) /\
  rs_buf s = t_header /\ stream_bytes (rs_inner s) = [7; 8].
Proof.
  destruct (trojan_handshake_accepts t_validator (text "secret") t_user NetUdp t_addr 443 [7; 8] t_events t_addr_ok ltac:(unfold is_u16; lia) t_flows) as [H _].
  destruct (H ltac:(vm_compute; reflexivity)) as (header & E & Hs). assert (Eh : header = t_header) by (unfold t_header; by rewrite E).
  destruct (Hs ltac:(rewrite Eh; vm_compute; reflexivity)) as (s & E1 & E2 & E3 & _). exists s. rewrite <- Eh. by split_and!.
Defined.


(** * Users *)

Definition t_other : MemoryUser := mkUser (text "C@d") 0 (MemoryAccount_new (text "other")).

Lemma trojan_reach : validator_reach (load_users [t_user; t_other]) [t_other; t_user].
Proof.
  apply (vr_add (load_users [t_user]) [t_user]).
  - apply (vr_add Validator_new []); [constructor|constructor|reflexivity].
  - repeat constructor; vm_compute; discriminate.
  - vm_compute. reflexivity.
Qed.

Lemma trojan_users_indexed_witness : get_by_email (load_users [t_user; t_other]) (text "c@D") = Some t_other /\
  (Validator_add (mkUser (text "A@B") 0 (MemoryAccount_new [1])) (load_users [t_user; t_other])).1 = Err (UserAlreadyExists (text "A@B")).
Proof.
  pose proof (trojan_users_indexed _ _ (mkUser (text "A@B") 0 (MemoryAccount_new [1])) (text "c@D") trojan_reach) as ((_ & _ & H & _) & H2 & _).
  split; [rewrite H; vm_compute; reflexivity|]. destruct (Validator_add _ _) as [[u|e] v'] eqn:E; [vm_compute in E; discriminate E|].
  destruct H2 as (_ & -> & _). reflexivity.
Defined.

(** Two users with one password: deleting one locks the other out. *)
Example shared_password_locks_out :
  let v := (Validator_del (text "a@b") (load_users [t_user; mkUser (text "e@f") 0 (MemoryAccount_new (text "secret"))])).2 in
  get_count v = 1 /\ get_by_key v (hex_sha224 (text "secret")) = None.
Proof. split; vm_compute; reflexivity. Qed.

(** * Datagrams *)

Definition t_packets : list Packet := [(t_addr, 53, [1; 2; 3]); (IPv4 [8; 8; 8; 8], 80, [])].
Definition t_frames : bytes := concat (map frame_of t_packets).
Definition t_relay_events : list RelayEvent :=
  [ClientRead (Some (ztake 5 t_frames)); DispatcherRecv (Some (Destination_new (IPv4 [1; 1; 1; 1]) (Port_new 53) UDP, [9])) true; ClientRead (Some (zdrop 5 t_frames))].

Lemma t_packets_ok : packets_ok t_packets.
Proof.
  assert (Hip : encodable (IPv4 [8; 8; 8; 8])) by (split; [split; [repeat constructor; unfold is_u8; lia|reflexivity]|exact I]).
  repeat constructor; cbn [fst snd]; (apply t_addr_ok || apply Hip || (unfold is_u16; cbn; lia) || (vm_compute; discriminate) || idtac).
Qed.

Lemma trojan_relay_exact_witness : exists s, handle_trojan_udp_relay t_relay_events UdpRelay_new = Some s /\
  rl_sent s = map as_datagram t_packets /\ rl_buf s = [] /\ rl_stopped s = false /\
  rl_written s = frame_with CRLF (IPv4 [1; 1; 1; 1]) 53 [9].
Proof.
  assert (Hev : Forall relay_event_ok t_relay_events).
  { unfold t_relay_events. constructor; [|constructor; [|constructor; [|constructor]]]; cbn [relay_event_ok].
    - vm_compute. repeat constructor; unfold is_u8; discriminate.
    - split; [split; [repeat constructor; unfold is_u8; lia|reflexivity]|vm_compute; discriminate].
    - vm_compute. repeat constructor; unfold is_u8; discriminate. }
  destruct (trojan_relay_exact t_relay_events Hev) as (s & E & _ & H).
  destruct (H t_packets [] t_packets_ok) as (Hst & _ & Hall).
  - rewrite app_nil_r. vm_compute. reflexivity.
  - unfold t_relay_events. constructor; [vm_compute; discriminate|]. constructor; [|constructor; [vm_compute; discriminate|constructor]].
    split; [split; [split; [repeat constructor; unfold is_u8; lia|reflexivity]|exact I]|reflexivity].
  - destruct (Hall eq_refl) as [H1 H2]. exists s. split; [exact E|]. split; [exact H1|]. split; [exact H2|]. split; [exact Hst|].
    vm_compute in E. injection E as <-. vm_compute. reflexivity.
Defined.

(** A writer that is not ready within the frame gets it twice; a reader with little room
    gets the rest of the payload as the next frame, which is an error. *)
Definition t_conn : TrojanUdpFramedConn := FramedConn_new (IPv4 [8; 8; 8; 8]) 53.
Definition t_slow : WriteHalf := mkWriteHalf [WriteReady 4; WritePending; WriteReady 100; WriteReady 100] [].

Lemma t_target_ok : encodable (fc_addr t_conn).
Proof. split; [split; [repeat constructor; unfold is_u8; lia|reflexivity]|exact I]. Qed.

Lemma t_slow_ok : polls_ok t_slow.
Proof. unfold polls_ok, t_slow. cbn. repeat constructor; lia. Qed.

Lemma trojan_framed_exact_witness : (exists m c' w', polled [1; 2; 3] 2 t_conn t_slow c' w' /\
    wh_wire w' = copies m (written_frame t_conn [1; 2; 3]) /\ m = 2%nat) /\
  (exists c' inner', FramedConn_poll_read 1 [Data (written_frame t_conn [1; 2; 3])] t_conn = (Ready [1], c', inner') /\ fc_rbuf c' ++ stream_bytes inner' = [2; 3]).
Proof.
  pose proof (trojan_framed_exact t_conn t_target_ok) as (H1 & _ & H3). split.
  - assert (Hp : exists c' w', polled [1; 2; 3] 2 t_conn t_slow c' w').
    { eexists _, _. eapply polled_pending; [vm_compute; reflexivity|]. eapply polled_ready. vm_compute. reflexivity. }
    destruct Hp as (c' & w' & Hp). destruct (H1 [1; 2; 3] t_slow c' w' 2%nat eq_refl t_slow_ok Hp) as (m & E & _ & _ & Hm).
    exists m, c', w'. split; [exact Hp|]. split; [exact E|]. specialize (Hm (le_n 2)). lia.
  - destruct (H3 1 CRLF (IPv4 [8; 8; 8; 8]) 53 [1; 2; 3] [Data (written_frame t_conn [1; 2; 3])] []) as (c' & inner' & E1 & E2).
    + split; [apply t_target_ok|]. split; [unfold is_u16; lia|vm_compute; discriminate].
    + reflexivity.
    + lia.
    + constructor; [eexists; split; [reflexivity|vm_compute; discriminate]|constructor].
    + constructor.
    + vm_compute. repeat constructor; unfold is_u8; discriminate.
    + vm_compute. reflexivity.
    + exists c', inner'. split; [exact E1|]. rewrite E2. reflexivity.
Defined.

(** A request for a path goes to the rule without one. *)
Definition t_request : bytes := text "GET /api HTTP/1.1".
Definition t_policy : FallbackPolicy := from_list [t_rule "" "" "/api" "api"; t_rule "" "" "" "default"].

Lemma trojan_fallback_lossless_witness :
  handle_trojan_connection map_keys (RecordingStream_new [Data t_request]) t_validator (Some t_policy) (SockV4 [1; 2; 3; 4] 5) (SockV4 [6; 7; 8; 9] 10) [] [] =
    ForwardTo (text "default") (text "PROXY TCP4 1.2.3.4 6.7.8.9 5 10" ++ [13; 10] ++ t_request) /\
  exists fb, decide_fallback map_keys t_policy [] [] [] = Some fb /\ fb_dest fb = text "default".
Proof.
  pose proof (trojan_fallback_lossless map_keys t_validator (Some t_policy) [Data t_request] (SockV4 [1; 2; 3; 4] 5) (SockV4 [6; 7; 8; 9] 10) [] []) as H.
  assert (E : handle_trojan_connection map_keys (RecordingStream_new [Data t_request]) t_validator (Some t_policy) (SockV4 [1; 2; 3; 4] 5) (SockV4 [6; 7; 8; 9] 10) [] [] =
    ForwardTo (text "default") (text "PROXY TCP4 1.2.3.4 6.7.8.9 5 10" ++ [13; 10] ++ t_request)) by (vm_compute; reflexivity).
  split; [exact E|]. rewrite E in H. destruct H as (p & path & fb & [= <-] & Hd & Ed & _ & Hpath). exists fb.
  rewrite (Hpath 71 (text "ET /api HTTP/1.1") ltac:(vm_compute; reflexivity) ltac:(lia)) in Hd. split; [exact Hd|]. by rewrite <- Ed.
Defined.
