(* ===== verification/VlessWitnesses.v ===== *)
(** Concrete runs of the VLESS and Vision theorems, each at an input where its hypotheses
    hold. *)
From Stdlib Require Import List String.
From stdpp Require Import base tactics option list numbers gmap.
From S2P Require Import Prelude Bytes BytesMut Buffer AsyncIo NetTypes AddrCodec StrMatch Mph Fallback Uuid Vision VisionConn VisionProps VisionConnProps VlessProto VlessServer VlessClient VlessProps TrojanServerProps VlessServerProps VlessClientProps.

(** A codec of two fields, digests that are not secret, ASCII lower case, a generator that
    counts. *)
#[local] Instance v_codec : AddonsCodec := {|
  addons_encode a := zlen (ad_flow a) :: ad_flow a ++ ad_seed a;
  addons_decode l := match l with n :: l => Some (mkAddons (ztake n l) (zdrop n l)) | [] => None end;
|}.

#[local] Instance v_codec_laws : AddonsLaws.
Proof. constructor; [|done]. intros seed. cbn [addons_encode addons_decode v_codec ad_flow ad_seed]. by rewrite ztake_app, zdrop_app. Qed.

#[local] Instance v_hash : UuidHash := {|
  sha1 s := map (fun b => b mod 256) (take 20 (s ++ replicate 20 0));
  uuid_md5 s := map (fun b => b mod 256) (take 16 (s ++ replicate 16 0));
|}.

#[local] Instance v_hash_laws : UuidHashLaws.
Proof.
  constructor. intros l. split.
  - apply List.Forall_forall. intros x (y & <- & _)%in_map_iff. apply Z.mod_pos_bound. lia.
  - cbn [sha1 v_hash]. rewrite zlen_map. unfold zlen. rewrite length_take, length_app, length_replicate. lia.
Qed.

#[local] Instance v_text : StdText := {|
  DefaultHasher_finish _ _ := 0;
  to_lowercase := map (fun b => if (65 <=? b) && (b <=? 90) then b + 32 else b);
|}.

#[local] Instance v_ip : IpText := {| ipv6_to_string o := o |}.

Definition v_range (n : Z) (rng : Z) : Z * Z := (rng mod n, rng + 1).

Lemma v_bytes l : forallb (fun b => (0 <=? b) && (b <? 256)) l = true -> bytes_ok l.
Proof. intros H. apply List.Forall_forall. intros x Hx. rewrite forallb_forall in H. apply H, andb_prop in Hx as [? ?]. unfold is_u8. lia. Qed.

Definition v_id : UUID := [1; 2; 3; 4; 5; 6; 7; 8; 9; 10; 11; 12; 13; 14; 15; 16].
Definition v_other_id : UUID := [1; 2; 3; 4; 5; 6; 0; 0; 9; 10; 11; 12; 13; 14; 15; 16].
Definition v_account (id : UUID) (flow : bytes) : VlessAccount := mkVlessAccount id flow (text "none") 0 0 [] None 0 [].
Definition v_user : VlessUser := mkVlessUser 2 (text "A@b") (v_account v_id FLOW_XRV).
Definition v_users : VlessValidator := (VlessValidator_add v_user VlessValidator_new).2.
Definition v_addr : Address := Domain (text "x.org").

Lemma v_addr_ok : encodable v_addr.
Proof. split; [split; [by apply v_bytes|vm_compute; reflexivity]|vm_compute; discriminate]. Qed.

(** * Text of an id *)

Lemma uuid_text_roundtrip_witness : UUID_parse (UUID_to_string v_id) = Some (Some v_id) /\ UUID_to_string v_id = text "01020304-0506-0708-090a-0b0c0d0e0f10" /\
  exists t, str_ok t /\ UUID_parse t = None.
Proof.
  destruct (uuid_text_roundtrip v_id (text "x"%string)) as (H1 & _ & _ & _ & H5 & _); [split; [by apply v_bytes|reflexivity]|].
  split; [exact H1|]. split; [vm_compute; reflexivity|exact H5].
Defined.

(** * Vision *)

Lemma complete_record_exact_witness : is_complete_record (concat [[23; 3; 3]; [0; 2; 7]; [8]]) = Some true /\ records [23; 3; 3; 0; 2; 7; 8].
Proof.
  destruct (complete_record_exact [[23; 3; 3]; [0; 2; 7]; [8]]) as (b & H1 & _ & H3); [by apply v_bytes|].
  assert (b = true) as -> by (vm_compute in H1; by injection H1 as <-). split; [exact H1|]. by apply H3.
Defined.

Definition v_input : bytes := text "hello".
Definition v_below : Below := mkBelow (mkWriteHalf [WriteReady 10000; WriteReady 10000] []) [] (mkWriteHalf [] []) [] true.
Definition v_written : option (Poll Z * VisionConn Z * Below) :=
  VisionConn_poll_write_vectored v_range [v_input] (fresh false v_id [] 7) v_below.
Definition v_after : VisionConn Z * Below := match v_written with Some (_, c, b) => (c, b) | None => (fresh false v_id [] 7, v_below) end.

Lemma v_writes : writes v_range v_input 0 (fresh false v_id [] 7) v_below 5 v_after.1 v_after.2.
Proof.
  eapply (writes_poll _ _ 0 _ _ [v_input] (Ready 5)).
  - split; [exists []; vm_compute; reflexivity|vm_compute; discriminate].
  - vm_compute. reflexivity.
  - apply writes_none.
Qed.


(** * Headers *)

Definition v_addons : Addons := mkAddons FLOW_XRV [].
Definition v_header : bytes := match encode_request_header VERSION v_id CmdTcp (Some v_addr) (Some 443) v_addons with Ok h => h | Err _ => [] end.
Definition v_events : list ReadEvent := [Data (ztake 30 v_header); Data (zdrop 30 v_header ++ [7; 8])].

Lemma v_addons_fit : addons_fit v_addons.
Proof. intros _. apply Z.leb_le. vm_compute. reflexivity. Qed.

Lemma v_flows : flows v_events.
Proof. repeat constructor; (eexists; split; [reflexivity|vm_compute; discriminate]). Qed.

Lemma vless_request_roundtrip_witness : exists s, decode_request_header false None v_users (RecordingStream_new v_events) = (Ok (decoded_of v_id CmdTcp v_addr 443 v_addons v_user, None), s) /\
  rs_buf s = v_header /\ stream_bytes (rs_inner s) = [7; 8].
Proof.
  destruct (vless_request_roundtrip v_users v_id CmdTcp v_addr 443 v_addons v_user [7; 8] v_events eq_refl ltac:(unfold is_u16; lia) v_addons_fit v_flows) as [H _].
  destruct (H v_addr_ok ltac:(vm_compute; reflexivity)) as (header & E & Hs). assert (header = v_header) as -> by (unfold v_header; change (Some v_addr) with (address_arg CmdTcp v_addr); change (Some 443) with (port_arg CmdTcp 443); by rewrite E).
  destruct (Hs ltac:(vm_compute; reflexivity)) as (s & E1 & E2 & E3). by exists s.
Defined.

Lemma vless_response_transparent_witness : drains rhr_poll [100; 100; 100; 100] (ResponseHeaderReader_new VERSION, [Data [0]; Silence; Data [0; 7]; Data [8]]) [7; 8] 1 /\
  drained rhr_poll [100; 100; 100; 100] (ResponseHeaderReader_new VERSION, [Data [0]; Silence; Data [0; 7]; Data [8]]) = Some ([7; 8], true).
Proof.
  split; [|vm_compute; reflexivity].
  apply (vless_response_transparent VERSION empty_addons [0; 0] [7; 8] [Data [0]; Silence; Data [0; 7]; Data [8]] [100; 100; 100; 100]);
    [reflexivity|unfold quiet; repeat (apply Forall_cons_iff; split; [(by left) || (right; eexists; split; [reflexivity|discriminate])|]); constructor|reflexivity|repeat constructor; discriminate].
Defined.

(** * Users *)

Lemma v_users_reach : vless_users v_users.
Proof. apply users_add, users_none. Qed.

Lemma vless_users_exact_witness : VlessValidator_get v_users v_other_id = Some v_user /\ VlessValidator_add (mkVlessUser 0 (text "a@B") (v_account v_other_id [])) v_users = (Err (VlessUserAlreadyExists (text "a@B")), v_users).
Proof.
  destruct (vless_users_exact v_users v_users_reach) as (_ & H2 & H3 & _). split.
  - change v_other_id with (<[6%nat := 0]> (<[7%nat := 0]> v_id)). rewrite H2. vm_compute. reflexivity.
  - specialize (H3 (mkVlessUser 0 (text "a@B") (v_account v_other_id []))). destruct (VlessValidator_add _ _) as [[u|e] v'] eqn:E; [vm_compute in E; discriminate E|].
    destruct H3 as (-> & -> & _). reflexivity.
Defined.

(** * The inbound *)

Definition v_policy : VlessFallbackPolicy := VlessFallbackPolicy_add [] [] [] (mkFallbackDest (text "site") 0) VlessFallbackPolicy_new.
Definition v_peer : SocketAddr := SockV4 [10; 0; 0; 1] 1000.
Definition v_options : VlessInboundOptions := mkInboundOptions false None None None true.


Definition v_config : VlessOutboundConfig := mkVlessOutbound v_id (Domain (text "server")) (Port_new 443) FLOW_XRV (text "none") 0 [] [] 0 None.
Definition v_dest : Destination := Destination_new v_addr (Port_new 80) TCP.


(** * Datagrams *)

Definition v_packets : list bytes := [[1; 2; 3]; []; [4]].

Lemma vless_datagrams_framed_witness :
  exists out ended, receive [65535; 65535; 65535; 65535] VlessUdpFramedConn_new [Data [0; 3; 1]; Silence; Data [2; 3; 0; 0; 0; 1; 4]] = Some (out, ended) /\ ended = true /\ out = [[1; 2; 3]; [4]].
Proof.
  destruct vless_datagrams_framed as (_ & _ & H & _).
  destruct (H v_packets [Data [0; 3; 1]; Silence; Data [2; 3; 0; 0; 0; 1; 4]] [65535; 65535; 65535; 65535]) as (out & ended & E & _ & Hend & Henough).
  - repeat constructor; discriminate.
  - unfold quiet. repeat (apply Forall_cons_iff; split; [(by left) || (right; eexists; split; [reflexivity|discriminate])|]). constructor.
  - vm_compute. reflexivity.
  - repeat constructor; discriminate.
  - exists out, ended. assert (He : ended = true) by (apply Henough; vm_compute; reflexivity). split; [exact E|]. split; [exact He|]. rewrite (Hend He). vm_compute. reflexivity.
Defined.
