(* ===== verification/Cache.v ===== *)
(** [xray-common/src/cache/mod.rs]: a cache that forgets the entry used least recently,
    and what such a cache is ([LruOps], [LruLaws]): a list of entries, the last used
    first.  The crate [lru], which fake DNS uses, is an instance of the same interface. *)
From Stdlib Require Import List.
From stdpp Require Import base tactics option list numbers gmap.
From S2P Require Import Prelude.

(** * The interface *)

Section alist.
Context {K V : Type} `{!EqDecision K}.

Definition alist_get (k : K) (l : list (K * V)) : option V := snd <$> List.find (fun e => bool_decide (e.1 = k)) l.
Definition alist_del (k : K) (l : list (K * V)) : list (K * V) := List.filter (fun e => negb (bool_decide (e.1 = k))) l.

(** Used: moved to the front. *)
Definition alist_touch (k : K) (l : list (K * V)) : list (K * V) := match alist_get k l with Some v => (k, v) :: alist_del k l | None => l end.

Implicit Types (k : K) (v : V) (l : list (K * V)).

Lemma alist_get_in k v l : alist_get k l = Some v -> (k, v) ∈ l.
Proof.
  unfold alist_get. destruct (List.find _ l) as [[k' v']|] eqn:E; [|done]. intros [= <-]. apply List.find_some in E as [Hin Hk].
  apply bool_decide_eq_true in Hk. cbn in *. subst. by apply list_elem_of_In.
Qed.

Lemma alist_get_none k v l : alist_get k l = None -> (k, v) ∉ l.
Proof.
  unfold alist_get. destruct (List.find _ l) as [[k' v']|] eqn:E; [done|]. intros _ Hin. apply list_elem_of_In in Hin.
  pose proof (List.find_none _ _ E _ Hin) as Hk. by apply bool_decide_eq_false in Hk.
Qed.

Lemma alist_del_in k x v l : (x, v) ∈ alist_del k l <-> (x, v) ∈ l /\ x <> k.
Proof. unfold alist_del. rewrite !list_elem_of_In, filter_In. cbn. destruct (bool_decide_reflect (x = k)); cbn; naive_solver. Qed.

Lemma alist_del_none k l : alist_get k l = None -> alist_del k l = l.
Proof.
  unfold alist_get, alist_del. induction l as [|[x v] l IH]; [done|]. cbn [List.find List.filter fst]. destruct (bool_decide_reflect (x = k)); [done|].
  cbn [negb]. intros E. by rewrite IH.
Qed.

Lemma alist_del_keys k l : NoDup l.*1 -> NoDup (alist_del k l).*1 /\ k ∉ (alist_del k l).*1 /\ zlen (alist_del k l) <= zlen l.
Proof.
  induction l as [|[x v] l IH]; cbn [fmap list_fmap fst]; [intros _; split; [constructor|split; [apply not_elem_of_nil|unfold alist_del; cbn; lia]]|]. intros [Hx Hn]%NoDup_cons. destruct (IH Hn) as (IH1 & IH2 & IH3).
  unfold alist_del in *. cbn [List.filter fst]. destruct (bool_decide_reflect (x = k)) as [->|Hne]; cbn [negb]; rewrite ?zlen_cons; [split_and!; (done || lia)|].
  cbn [fmap list_fmap fst]. rewrite not_elem_of_cons, NoDup_cons. split_and!; [|done|done|done|lia]. contradict Hx. apply list_elem_of_fmap in Hx as [[y w] [Ey Hy]]. cbn in Ey. subst y.
  apply list_elem_of_In, filter_In in Hy as [Hy _]. apply list_elem_of_fmap. exists (x, w). split; [done|by apply list_elem_of_In].
Qed.

Lemma alist_touch_in k x v l : NoDup l.*1 -> (x, v) ∈ alist_touch k l <-> (x, v) ∈ l.
Proof.
  intros Hn. unfold alist_touch. destruct (alist_get k l) as [w|] eqn:E; [|done]. apply alist_get_in in E as Hin. rewrite elem_of_cons, alist_del_in. split.
  - intros [[= -> ->]|[H _]]; done.
  - intros H. destruct (decide (x = k)) as [->|]; [|by right]. left. f_equal. revert Hn H Hin. clear. induction l as [|[y u] l IH]; [intros _ H; by apply elem_of_nil in H|].
    cbn [fmap list_fmap fst]. intros [Hy Hn]%NoDup_cons H1 H2. rewrite elem_of_cons in H1, H2.
    assert (Hmem : forall w', (k, w') ∈ l -> k ∈ l.*1) by (intros w' Hw; apply list_elem_of_fmap; by exists (k, w')).
    destruct H1 as [[= -> ->]|H1], H2 as [[= ->]|H2]; try done; try subst; try (exfalso; apply Hy; by eapply Hmem). by apply IH.
Qed.

Lemma alist_touch_keys k l : NoDup l.*1 -> NoDup (alist_touch k l).*1 /\ zlen (alist_touch k l) <= zlen l.
Proof.
  intros Hn. unfold alist_touch. destruct (alist_get k l) as [w|] eqn:E; [|done]. destruct (alist_del_keys k l Hn) as (H1 & H2 & H3). split.
  - cbn [fmap list_fmap fst]. by apply NoDup_cons.
  - assert (Hlt : zlen (alist_del k l) < zlen l); [|rewrite zlen_cons; lia]. apply alist_get_in in E. clear -E. induction l as [|[y u] l IH]; [by apply elem_of_nil in E|].
    unfold alist_del in *. cbn [List.filter fst]. rewrite elem_of_cons in E. destruct (bool_decide_reflect (y = k)) as [->|Hne]; cbn [negb]; rewrite ?zlen_cons.
    + pose proof (zlen_filter_le (fun e => negb (bool_decide (e.1 = k))) l). lia.
    + destruct E as [[= -> _]|E]; [done|]. specialize (IH E). lia.
Qed.
End alist.

Class LruOps (K V : Type) := {
  Lru : Type;
  lru_new : Z -> Lru;
  (** [iter()]: the entries, the last used first *)
  lru_items : Lru -> list (K * V);
  lru_cap : Lru -> Z;
  lru_get : K -> Lru -> option V * Lru;
  lru_put : K -> V -> Lru -> Lru;
  lru_len : Lru -> Z;
}.

Class LruLaws (K V : Type) `{!EqDecision K} `{!LruOps K V} : Prop := {
  lru_new_items n : lru_items (lru_new n) = [];
  lru_new_cap n : 0 <= n -> lru_cap (lru_new n) = n;
  lru_get_value k l : (lru_get k l).1 = alist_get k (lru_items l);
  lru_get_items k l : lru_items (lru_get k l).2 = alist_touch k (lru_items l);
  lru_get_cap k l : lru_cap (lru_get k l).2 = lru_cap l;
  lru_put_items k v l : lru_items (lru_put k v l) = ztake (lru_cap l) ((k, v) :: alist_del k (lru_items l));
  lru_put_cap k v l : lru_cap (lru_put k v l) = lru_cap l;
  lru_len_items l : lru_len l = zlen (lru_items l);
}.

(** * The cache of the repository *)

Section cache.
Context {K V : Type} `{Countable K}.

Record LruCache : Type := mkLruCache { lc_capacity : Z; lc_entries : gmap K V; lc_order : list K }.

Definition LruCache_new (capacity : Z) : LruCache := mkLruCache capacity ∅ [].

(** [order.retain(|k| k != key)] *)
Definition retain_other (key : K) (order : list K) : list K := List.filter (fun k => negb (bool_decide (k = key))) order.

Definition LruCache_get (key : K) (c : LruCache) : option V * LruCache :=
  if bool_decide (is_Some (lc_entries c !! key)) then
    (lc_entries c !! key, mkLruCache (lc_capacity c) (lc_entries c) (retain_other key (lc_order c) ++ [key]))
  else (None, c).

(** [while entries.len() > capacity]: each turn takes a key off the order. *)
Fixpoint evict (capacity : Z) (entries : gmap K V) (order : list K) : gmap K V * list K :=
  if capacity <? Z.of_nat (size entries) then
    match order with
    | oldest :: order => evict capacity (delete oldest entries) order
    | [] => (entries, [])
    end
  else (entries, order).

Definition LruCache_put (key : K) (value : V) (c : LruCache) : option V * LruCache :=
  if lc_capacity c =? 0 then (None, c)
  else
    let order := (if bool_decide (is_Some (lc_entries c !! key)) then retain_other key (lc_order c) else lc_order c) ++ [key] in
    let '(entries, order) := evict (lc_capacity c) (<[key := value]> (lc_entries c)) order in
    (lc_entries c !! key, mkLruCache (lc_capacity c) entries order).

Definition LruCache_remove (key : K) (c : LruCache) : option V * LruCache :=
  (lc_entries c !! key, mkLruCache (lc_capacity c) (delete key (lc_entries c)) (retain_other key (lc_order c))).

Definition LruCache_len (c : LruCache) : Z := Z.of_nat (size (lc_entries c)).
Definition LruCache_is_empty (c : LruCache) : bool := bool_decide (lc_entries c = ∅).
Definition LruCache_clear (c : LruCache) : LruCache := mkLruCache (lc_capacity c) ∅ [].
Definition LruCache_contains (key : K) (c : LruCache) : bool := bool_decide (is_Some (lc_entries c !! key)).

(** * As a list of entries *)

(** The order holds each key of the map once. *)
Definition lru_ok (c : LruCache) : Prop :=
  NoDup (lc_order c) /\ (forall k, k ∈ lc_order c <-> is_Some (lc_entries c !! k)) /\ 0 <= lc_capacity c /\ LruCache_len c <= lc_capacity c.

Definition lru_view (c : LruCache) : list (K * V) := omap (fun k => pair k <$> lc_entries c !! k) (rev (lc_order c)).
End cache.
Arguments LruCache K V {_ _}.

Section cache_props.
Context {K V : Type} `{Countable K}.
Implicit Types (e : gmap K V) (l : list K) (c : LruCache K V).

Definition view_of e l : list (K * V) := omap (fun k => pair k <$> e !! k) l.

Lemma view_cons e k l : view_of e (k :: l) = match e !! k with Some v => (k, v) :: view_of e l | None => view_of e l end.
Proof. unfold view_of. cbn. by destruct (e !! k). Qed.

Lemma view_app e l l' : view_of e (l ++ l') = view_of e l ++ view_of e l'.
Proof. apply omap_app. Qed.

Lemma view_length e l : (forall k, k ∈ l -> is_Some (e !! k)) -> zlen (view_of e l) = zlen l.
Proof.
  induction l as [|k l IH]; intros Hl; [done|]. rewrite view_cons. destruct (Hl k) as [v ->]; [by left|]. rewrite !zlen_cons, IH; [done|]. intros. apply Hl. by right.
Qed.

Lemma view_get_none e l k : e !! k = None -> alist_get k (view_of e l) = None.
Proof.
  intros He. induction l as [|x l IH]; [done|]. rewrite view_cons. destruct (e !! x) eqn:E; [|done].
  unfold alist_get in *. cbn [List.find fst]. rewrite bool_decide_false by congruence. done.
Qed.

Lemma view_get e l k : k ∈ l -> alist_get k (view_of e l) = e !! k.
Proof.
  induction l as [|x l IH]; [by rewrite elem_of_nil|]. destruct (e !! k) as [v|] eqn:E; [|intros _; by apply view_get_none].
  rewrite view_cons. intros Hk. destruct (decide (x = k)) as [->|Hx]; [rewrite E; unfold alist_get; cbn [List.find fst]; by rewrite bool_decide_true|].
  assert (k ∈ l) as Hl by (apply elem_of_cons in Hk as [?|?]; [congruence|done]). destruct (e !! x); [|by apply IH].
  unfold alist_get in *. cbn [List.find fst]. rewrite bool_decide_false by done. by apply IH.
Qed.

Lemma view_del e l k : alist_del k (view_of e l) = view_of e (retain_other k l).
Proof.
  induction l as [|x l IH]; [done|]. unfold retain_other in *. cbn [List.filter]. rewrite view_cons. destruct (bool_decide_reflect (x = k)) as [->|Hx]; cbn [negb].
  - destruct (e !! k); [|done]. unfold alist_del in *. cbn [List.filter fst]. by rewrite bool_decide_true.
  - rewrite view_cons. destruct (e !! x); [|done]. unfold alist_del in *. cbn [List.filter fst]. rewrite bool_decide_false by done. cbn [negb]. by rewrite IH.
Qed.

Lemma view_ext e e' l : (forall k, k ∈ l -> e !! k = e' !! k) -> view_of e l = view_of e' l.
Proof. induction l as [|k l IH]; intros Hl; [done|]. rewrite !view_cons, Hl by left. rewrite IH; [done|]. intros. apply Hl. by right. Qed.

Lemma retain_in k x l : x ∈ retain_other k l <-> x ∈ l /\ x <> k.
Proof. unfold retain_other. rewrite !list_elem_of_In, filter_In. destruct (bool_decide_reflect (x = k)); cbn; naive_solver. Qed.

Lemma retain_none k l : k ∉ l -> retain_other k l = l.
Proof.
  induction l as [|x l IH]; [done|]. intros Hk. apply not_elem_of_cons in Hk as [Hx Hl]. unfold retain_other in *. cbn [List.filter].
  rewrite bool_decide_false by congruence. cbn [negb]. by rewrite IH.
Qed.

Lemma retain_NoDup k l : NoDup l -> NoDup (retain_other k l).
Proof. unfold retain_other. intros Hl. apply NoDup_ListNoDup. apply NoDup_ListNoDup in Hl. by apply List.NoDup_filter. Qed.

Lemma retain_rev k l : rev (retain_other k l) = retain_other k (rev l).
Proof. unfold retain_other. by rewrite List.filter_rev. Qed.

Lemma order_size c : NoDup (lc_order c) -> (forall k, k ∈ lc_order c <-> is_Some (lc_entries c !! k)) -> LruCache_len c = zlen (lc_order c).
Proof.
  intros Hn Hi. unfold LruCache_len, zlen. f_equal. rewrite <- (size_dom (D := gset K)). rewrite <- (size_list_to_set (C := gset K) _ Hn). f_equal.
  apply set_eq. intros k. by rewrite elem_of_dom, elem_of_list_to_set.
Qed.

Lemma view_of_view c : lru_view c = view_of (lc_entries c) (rev (lc_order c)).
Proof. done. Qed.

Lemma get_ok key c : lru_ok c -> lru_ok (LruCache_get key c).2 /\ (LruCache_get key c).1 = alist_get key (lru_view c) /\
  lru_view (LruCache_get key c).2 = alist_touch key (lru_view c) /\ lc_capacity (LruCache_get key c).2 = lc_capacity c.
Proof.
  intros (Hn & Hi & Hc & Hl). unfold LruCache_get. destruct (bool_decide_reflect (is_Some (lc_entries c !! key))) as [Hs|Hs].
  - assert (Hk : key ∈ lc_order c) by by apply Hi. assert (Eg : alist_get key (lru_view c) = lc_entries c !! key).
    { rewrite view_of_view. apply view_get. rewrite list_elem_of_In, <- in_rev, <- list_elem_of_In. done. }
    cbn [fst snd lc_capacity]. split; [|split; [done|split; [|done]]].
    + split_and!; cbn [lc_order lc_entries lc_capacity]; [|intros k|done|done].
      * apply NoDup_app. split; [by apply retain_NoDup|]. split; [|apply NoDup_singleton]. intros x [_ Hx]%retain_in Hin. by apply list_elem_of_singleton in Hin.
      * rewrite elem_of_app, retain_in, list_elem_of_singleton, <- Hi. destruct (decide (k = key)); naive_solver.
    + unfold alist_touch. rewrite Eg. destruct Hs as [v Ev]. rewrite Ev. rewrite !view_of_view. cbn [lc_order lc_entries].
      rewrite rev_app_distr. cbn [rev app]. rewrite view_cons, Ev, retain_rev, view_del. done.
  - cbn [fst snd]. apply eq_None_not_Some in Hs. assert (Eg : alist_get key (lru_view c) = None) by by apply view_get_none.
    unfold alist_touch. rewrite Eg. split_and!; done.
Qed.

(** One turn is enough. *)
Lemma evict_ok cap e l : 0 <= cap -> NoDup l -> (forall k, k ∈ l <-> is_Some (e !! k)) -> zlen l <= cap + 1 ->
  let '(e', l') := evict cap e l in NoDup l' /\ (forall k, k ∈ l' <-> is_Some (e' !! k)) /\ zlen l' <= cap /\ view_of e' (rev l') = ztake cap (view_of e (rev l)).
Proof.
  intros Hc Hn Hi Hl. pose proof (order_size (mkLruCache cap e l) Hn Hi) as Hs. unfold LruCache_len in Hs. cbn [lc_entries lc_order] in Hs.
  assert (Hv : zlen (view_of e (rev l)) = zlen l). { rewrite view_length; [unfold zlen; by rewrite length_rev|]. intros k Hk. apply Hi. by rewrite list_elem_of_In, in_rev, <- list_elem_of_In. }
  destruct l as [|o l]; cbn [evict]; rewrite Hs.
  - destruct (Z.ltb_spec cap (zlen (@nil K))); [zlens; lia|]. split_and!; [done|done|done|]. by rewrite ztake_ge by lia.
  - destruct (Z.ltb_spec cap (zlen (o :: l))) as [Hgt|Hle]; [|split_and!; [done|done|done|by rewrite ztake_ge by lia]].
    apply NoDup_cons in Hn as [Ho Hn]. rewrite zlen_cons in *. assert (Hi' : forall k, k ∈ l <-> is_Some (delete o e !! k)).
    { intros k. destruct (decide (k = o)) as [->|Hk]; [rewrite lookup_delete_eq; split; [done|by intros [? ?]]|]. rewrite lookup_delete_ne, <- Hi, elem_of_cons by done. naive_solver. }
    pose proof (order_size (mkLruCache cap (delete o e) l) Hn Hi') as Hs'. unfold LruCache_len in Hs'. cbn [lc_entries lc_order] in Hs'.
    assert (Ee : evict cap (delete o e) l = (delete o e, l)). { unfold evict. destruct l; rewrite Hs'; zcase_goal; (done || lia). }
    rewrite Ee. split_and!; [done|done|lia|]. cbn [rev]. rewrite view_app.
    assert (Ev : view_of (delete o e) (rev l) = view_of e (rev l)). { apply view_ext. intros k Hk. apply lookup_delete_ne. intros ->. apply Ho. by rewrite list_elem_of_In, in_rev, <- list_elem_of_In. }
    rewrite Ev, ztake_app; [done|]. cbn [rev] in Hv. rewrite view_app, zlen_app in Hv. destruct (proj1 (Hi o)) as [v Eo]; [by left|].
    rewrite view_cons, Eo in Hv. change (view_of e []) with (@nil (K * V)) in Hv. zlens. lia.
Qed.

Lemma put_ok key value c : lru_ok c -> lru_ok (LruCache_put key value c).2 /\ (LruCache_put key value c).1 = (if lc_capacity c =? 0 then None else alist_get key (lru_view c)) /\
  lru_view (LruCache_put key value c).2 = ztake (lc_capacity c) ((key, value) :: alist_del key (lru_view c)) /\ lc_capacity (LruCache_put key value c).2 = lc_capacity c.
Proof.
  intros (Hn & Hi & Hc & Hl). unfold LruCache_put. destruct (Z.eqb_spec (lc_capacity c) 0) as [E0|E0].
  { cbn [fst snd]. split_and!; try done. rewrite ztake_le0 by lia. rewrite view_of_view. pose proof (order_size c Hn Hi) as Hs. rewrite (zlen_zero (lc_order c)) by lia. done. }
  set (order := (if bool_decide (is_Some (lc_entries c !! key)) then retain_other key (lc_order c) else lc_order c) ++ [key]). assert (Eo : order = retain_other key (lc_order c) ++ [key]).
  { unfold order. destruct (bool_decide_reflect (is_Some (lc_entries c !! key))) as [|Hs]; [done|]. rewrite retain_none; [done|]. by rewrite Hi. }
  pose proof (order_size c Hn Hi) as Hs.
  assert (Hlen : zlen (retain_other key (lc_order c)) <= zlen (lc_order c)) by (unfold zlen, retain_other; pose proof (filter_length_le (fun k => negb (bool_decide (k = key))) (lc_order c)); lia).
  pose proof (evict_ok (lc_capacity c) (<[key := value]> (lc_entries c)) order Hc) as He. destruct (evict _ _ order) as [e' l'] eqn:Ee.
  destruct He as (He1 & He2 & He3 & He4).
  - rewrite Eo. apply NoDup_app. split; [by apply retain_NoDup|]. split; [|apply NoDup_singleton]. intros x [_ Hx]%retain_in Hin. by apply list_elem_of_singleton in Hin.
  - intros k. rewrite Eo, elem_of_app, retain_in, list_elem_of_singleton. destruct (decide (k = key)) as [->|Hk]; [rewrite lookup_insert_eq; naive_solver|].
    rewrite lookup_insert_ne, <- Hi by done. naive_solver.
  - rewrite Eo, zlen_app. change (zlen [key]) with 1. lia.
  - cbn [fst snd lc_capacity]. assert (Eget : lc_entries c !! key = alist_get key (lru_view c)).
    { rewrite view_of_view. destruct (lc_entries c !! key) as [v|] eqn:E; [|by rewrite view_get_none]. rewrite view_get; [done|]. rewrite list_elem_of_In, <- in_rev, <- list_elem_of_In, Hi. by rewrite E. }
    split; [|split; [exact Eget|split; [|done]]].
    + pose proof (order_size (mkLruCache (lc_capacity c) e' l') He1 He2) as Hs'. split_and!; cbn [lc_order lc_entries lc_capacity]; [done|done|done|]. rewrite Hs'. done.
    + rewrite !view_of_view. cbn [lc_entries lc_order]. rewrite He4, Eo, rev_app_distr. cbn [rev app]. rewrite view_cons, lookup_insert_eq. do 2 f_equal.
      rewrite retain_rev, view_del. apply view_ext. intros k [_ Hk]%retain_in. by apply lookup_insert_ne.
Qed.

Lemma new_ok capacity : 0 <= capacity -> lru_ok (LruCache_new (K := K) (V := V) capacity) /\ lru_view (LruCache_new (K := K) (V := V) capacity) = [].
Proof. intros Hc. split; [|done]. split_and!; cbn; [constructor|intros k; rewrite lookup_empty; split; [by rewrite elem_of_nil|by intros [? ?]]|done|]. unfold LruCache_len. cbn. rewrite map_size_empty. lia. Qed.

Lemma remove_ok_lru key c : lru_ok c -> lru_ok (LruCache_remove key c).2 /\ (LruCache_remove key c).1 = alist_get key (lru_view c) /\ lru_view (LruCache_remove key c).2 = alist_del key (lru_view c).
Proof.
  intros (Hn & Hi & Hc & Hl). unfold LruCache_remove. cbn [fst snd]. split; [|split].
  - split_and!; cbn [lc_order lc_entries lc_capacity]; [by apply retain_NoDup| |done|].
    + intros k. rewrite retain_in. destruct (decide (k = key)) as [->|Hk]; [rewrite lookup_delete_eq; split; [by intros [_ ?]|by intros [? ?]]|]. rewrite lookup_delete_ne, <- Hi by done. naive_solver.
    + unfold LruCache_len in *. cbn [lc_entries]. destruct (lc_entries c !! key) as [v|] eqn:E; [rewrite map_size_delete_Some by done; lia|by rewrite map_size_delete_None].
  - rewrite view_of_view. destruct (lc_entries c !! key) as [v|] eqn:E; [|by rewrite view_get_none]. rewrite view_get; [done|]. rewrite list_elem_of_In, <- in_rev, <- list_elem_of_In, Hi. by rewrite E.
  - rewrite !view_of_view. cbn [lc_entries lc_order]. rewrite retain_rev, view_del. apply view_ext. intros k [_ Hk]%retain_in. by apply lookup_delete_ne.
Qed.
End cache_props.

(** The cache of the repository is such a cache. *)
#[export] Instance cache_ops {K V} `{Countable K} : LruOps K V.
Proof.
  refine {| Lru := { c : LruCache K V | lru_ok c };
            lru_new n := exist _ (LruCache_new (Z.max 0 n)) (proj1 (new_ok (Z.max 0 n) (Z.le_max_l 0 n)));
            lru_items c := lru_view (proj1_sig c); lru_cap c := lc_capacity (proj1_sig c);
            lru_get k c := ((LruCache_get k (proj1_sig c)).1, exist _ (LruCache_get k (proj1_sig c)).2 (proj1 (get_ok k _ (proj2_sig c))));
            lru_put k v c := exist _ (LruCache_put k v (proj1_sig c)).2 (proj1 (put_ok k v _ (proj2_sig c)));
            lru_len c := LruCache_len (proj1_sig c) |}.
Defined.

#[export] Instance cache_laws {K V} `{Countable K} : LruLaws K V.
Proof.
  constructor.
  - done.
  - intros n Hn. cbn. lia.
  - intros k [c Hc]. apply (get_ok k c Hc).
  - intros k [c Hc]. apply (get_ok k c Hc).
  - intros k [c Hc]. apply (get_ok k c Hc).
  - intros k v [c Hc]. apply (put_ok k v c Hc).
  - intros k v [c Hc]. apply (put_ok k v c Hc).
  - intros [c Hok]. cbn. pose proof Hok as (Hn & Hi & _). rewrite (order_size c Hn Hi), view_of_view, view_length; [unfold zlen; by rewrite length_rev|].
    intros k Hk. apply Hi. by rewrite list_elem_of_In, in_rev, <- list_elem_of_In.
Qed.
