(* ===== verification/DnsCommon.v ===== *)
(** What the parts of [xray-app-dns] share: errors ([error.rs], with the client errors of
    [xray-features/src/dns.rs]), the options of a query ([config.rs]), the records with
    their time to live ([dnscommon.rs], without the wire format, which the crate
    hickory_proto reads and writes).

    An [Instant] and a [Duration] are nanoseconds.  [as_secs_f64] rounds as IEEE 754 does:
    [f64_nearest a b] is the double nearest to [a / b], as a fraction.  [address_debug] is
    the derived [Debug] of an [Address].  The lemmas are on the rounding and on when a
    merged answer has time left. *)
From Stdlib Require Import String.
From stdpp Require Import base tactics option numbers list.
From S2P Require Import Prelude Bytes NetTypes StrMatch.

(** * Errors *)

(** [xray_features::dns::DnsError] *)
Inductive FeaturesDnsError : Type :=
| FeDomainNotFound (domain : bytes)
| FeServerError (msg : bytes)
| FeTimeout
| FeEmptyResponse
| FeRcode (code : Z)
| FeOther (msg : bytes).

Inductive DnsError : Type :=
| RecordNotFound
| EmptyResponse
| RCodeError (rcode : Z)
| InvalidQueryStrategy (v : Z)
| NoQueryStrategy (s : bytes)
| InvalidClientIpLength (len : Z)
| InvalidStaticHostsIP (s : bytes)
| InvalidFakeDnsSetting
| InvalidFakeDnsCidr (s : bytes)
| LruBiggerThanSubnet (lru rooms : Z)
| NoFakeDnsEngine
| Features (e : FeaturesDnsError)
| NotImplemented (s : bytes)
| WireFormat (s : bytes)
| SkipDnsServer (s : bytes)
| SystemResolve (s : bytes).

#[export] Instance FeaturesDnsError_eq_dec : EqDecision FeaturesDnsError.
Proof. solve_decision. Defined.
#[export] Instance DnsError_eq_dec : EqDecision DnsError.
Proof. solve_decision. Defined.

Definition i32_to_string (n : Z) : bytes := if n <? 0 then 45 :: u32_to_string (- n) else u32_to_string n.
Definition usize_to_string (n : Z) : bytes := decimal 20 n.

(** [Display] *)
Definition features_error_display (e : FeaturesDnsError) : bytes :=
  match e with
  | FeDomainNotFound domain => text "domain not found: " ++ domain
  | FeServerError msg => text "DNS server error: " ++ msg
  | FeTimeout => text "DNS timeout"
  | FeEmptyResponse => text "empty response"
  | FeRcode code => text "rcode: " ++ u32_to_string code
  | FeOther msg => text "DNS resolution failed: " ++ msg
  end.

Definition error_display (e : DnsError) : bytes :=
  match e with
  | RecordNotFound => text "record not found"
  | EmptyResponse => text "empty response"
  | RCodeError c => text "dns rcode error: " ++ u32_to_string c
  | InvalidQueryStrategy v => text "unexpected query strategy: " ++ i32_to_string v
  | NoQueryStrategy s => text "no query strategy available for " ++ s
  | InvalidClientIpLength n => text "unexpected client ip length: " ++ usize_to_string n
  | InvalidStaticHostsIP s => text "invalid ip address in static hosts: " ++ s
  | InvalidFakeDnsSetting => text "invalid fake dns setting"
  | InvalidFakeDnsCidr s => text "unable to parse cidr for fake dns ip assignment: " ++ s
  | LruBiggerThanSubnet lru rooms => text "lru size " ++ usize_to_string lru ++ text " is bigger than subnet size " ++ u32_to_string rooms
  | NoFakeDnsEngine => text "unable to locate a fake dns engine"
  | Features f => features_error_display f
  | NotImplemented s => text "not implemented: " ++ s
  | WireFormat s => text "dns wire format error: " ++ s
  | SkipDnsServer s => text "skipped DNS server " ++ s
  | SystemResolve s => text "system dns resolution failed: " ++ s
  end.

Definition from_rcode (rcode : Z) : DnsError := if rcode =? 0 then EmptyResponse else RCodeError rcode.
Definition DnsError_rcode (e : DnsError) : option Z := match e with RCodeError c => Some c | _ => None end.
Definition rcode_from_error (e : FeaturesDnsError) : Z := match e with FeRcode code => code | _ => 0 end.

(** [impl From<DnsError> for xray_features::dns::DnsError] *)
Definition to_features_error (e : DnsError) : FeaturesDnsError :=
  match e with
  | EmptyResponse => FeEmptyResponse
  | RCodeError code => FeRcode code
  | Features f => f
  | other => FeOther (error_display other)
  end.

(** [std::mem::discriminant] *)
Definition discriminant (e : DnsError) : Z :=
  match e with
  | RecordNotFound => 0 | EmptyResponse => 1 | RCodeError _ => 2 | InvalidQueryStrategy _ => 3 | NoQueryStrategy _ => 4
  | InvalidClientIpLength _ => 5 | InvalidStaticHostsIP _ => 6 | InvalidFakeDnsSetting => 7 | InvalidFakeDnsCidr _ => 8
  | LruBiggerThanSubnet _ _ => 9 | NoFakeDnsEngine => 10 | Features _ => 11 | NotImplemented _ => 12 | WireFormat _ => 13
  | SkipDnsServer _ => 14 | SystemResolve _ => 15
  end.
Definition same_dns_error_kind (a b : DnsError) : bool := discriminant a =? discriminant b.

(** [join("; ")] *)
Fixpoint join_errors (errs : list DnsError) : bytes :=
  match errs with
  | [] => []
  | [e] => error_display e
  | e :: errs => error_display e ++ text "; " ++ join_errors errs
  end.

(** * Options *)

Record IpOption : Type := mkIpOption { ipv4_enable : bool; ipv6_enable : bool; fake_enable : bool }.

Definition IpOption_all : IpOption := mkIpOption true true true.
Definition IpOption_is_empty (o : IpOption) : bool := negb (ipv4_enable o) && negb (ipv6_enable o).

Inductive QueryStrategy : Type := UseIp | UseSys | UseIp4 | UseIp6.

#[export] Instance QueryStrategy_eq_dec : EqDecision QueryStrategy.
Proof. solve_decision. Defined.

Definition QueryStrategy_to_proto_i32 (s : QueryStrategy) : Z := match s with UseIp => 0 | UseIp4 => 1 | UseIp6 => 2 | UseSys => 3 end.
Definition QueryStrategy_from_proto_i32 (v : Z) : option QueryStrategy :=
  if v =? 0 then Some UseIp else if v =? 1 then Some UseIp4 else if v =? 2 then Some UseIp6 else if v =? 3 then Some UseSys else None.

Definition ip_enables (s : QueryStrategy) : bool * bool :=
  match s with UseIp | UseSys => (true, true) | UseIp4 => (true, false) | UseIp6 => (false, true) end.

Definition ip_option_from_strategy (s : QueryStrategy) : IpOption := let '(v4, v6) := ip_enables s in mkIpOption v4 v6 false.

Definition resolve_ip_option_override (base : IpOption) (override_strategy : option QueryStrategy) : IpOption :=
  match override_strategy with
  | Some s => let '(v4, v6) := ip_enables s in mkIpOption (v4 && ipv4_enable base) (v6 && ipv6_enable base) (fake_enable base)
  | None => base
  end.

Class AddressText := { address_debug : Address -> bytes }.

Fixpoint to_net_ip `{!AddressText} (addrs : list Address) : result DnsError (list IpAddr) :=
  match addrs with
  | [] => Ok []
  | addr :: addrs =>
      match addr with
      | IPv4 v => ips ← to_net_ip addrs; mret (V4 v :: ips)
      | IPv6 v => ips ← to_net_ip addrs; mret (V6 v :: ips)
      | other => Err (Features (FeOther (text "not an ip address: " ++ address_debug other)))
      end
  end.

Definition validate_client_ip_len (len : Z) : result DnsError unit :=
  if (len =? 0) || (len =? 4) || (len =? 16) then Ok tt else Err (InvalidClientIpLength len).

(** The families an address list is cut down to ([matches!] on [IpAddr]). *)
Definition family_enabled (o : IpOption) (ip : IpAddr) : bool := match ip with V4 _ => ipv4_enable o | V6 _ => ipv6_enable o end.

(** [DefaultDnsFeature]: [addrs] is what the resolver of the system answers. *)
Definition DEFAULT_TTL : Z := 300.
Definition DefaultDnsFeature_lookup_ip (addrs : bytes + list IpAddr) (o : IpOption) : result FeaturesDnsError (list IpAddr * Z) :=
  match addrs with
  | inl e => Err (FeOther (text "localdns lookup: " ++ e))
  | inr addrs =>
      let ips := List.filter (family_enabled o) addrs in
      if bool_decide (ips = []) then Err FeEmptyResponse else Ok (ips, DEFAULT_TTL)
  end.

(** * Seconds as doubles *)

Definition NANOS : Z := 1000000000.

(** [a / (b 2^e)] *)
Definition scaled (a b e : Z) : Z * Z := if 0 <=? e then (a, b * 2 ^ e) else (a * 2 ^ (- e), b).

(** The exponent for which the quotient has 53 bits. *)
Definition f64_exponent (a b : Z) : Z :=
  let e := Z.log2 a - Z.log2 b - 52 in
  let '(n, d) := scaled a b e in if n / d <? 2 ^ 52 then e - 1 else e.

(** Ties to even. *)
Definition f64_nearest (a b : Z) : Z * Z :=
  if a =? 0 then (0, 1)
  else
    let e := f64_exponent a b in
    let '(n, d) := scaled a b e in
    let q := n / d in
    let r := n mod d in
    let m := if 2 * r <? d then q else if d <? 2 * r then q + 1 else if Z.even q then q else q + 1 in
    if 0 <=? e then (m * 2 ^ e, 1) else (m, 2 ^ (- e)).

Definition as_secs_f64 (d : Z) : Z * Z :=
  let '(sn, sd) := f64_nearest (d / NANOS) 1 in
  let '(fn, fd) := f64_nearest (d mod NANOS) NANOS in
  f64_nearest (sn * fd + fn * sd) (sd * fd).

Definition ceil_ratio (x : Z * Z) : Z := - ((- x.1) / x.2).
Definition ceil_secs (d : Z) : Z := ceil_ratio (as_secs_f64 d).

Definition I32_MAX : Z := 2147483647.
Definition I64_MAX : Z := 9223372036854775807.

(** * Records *)

Definition NO_ERROR : Z := 0.

Definition fqdn (domain : bytes) : bytes := if ends_with domain [DOT] then domain else domain ++ [DOT].

Record IpRecord : Type := mkIpRecord { ir_req_id : Z; ir_ips : list IpAddr; ir_expire : Z; ir_rcode : Z }.

#[export] Instance IpRecord_eq_dec : EqDecision IpRecord.
Proof. solve_decision. Defined.

(** [as i64] saturates; what does not fit [i32] counts as 0. *)
Definition ttl_seconds (r : IpRecord) (now : Z) : Z :=
  if now <=? ir_expire r then
    let secs := Z.min I64_MAX (ceil_secs (ir_expire r - now)) in
    if secs <=? I32_MAX then secs else 0
  else 0.

Definition get_ips (r : IpRecord) (now : Z) : result DnsError (list IpAddr * Z) :=
  let ttl := ttl_seconds r now in
  if ttl <=? 0 then Err RecordNotFound
  else if negb (ir_rcode r =? NO_ERROR) then Err (from_rcode (ir_rcode r))
  else if bool_decide (ir_ips r = []) then Err EmptyResponse
  else Ok (ir_ips r, ttl).

Definition is_expired (r : IpRecord) (now : Z) : bool := ir_expire r <=? now.

Definition ip_record (req_id : Z) (ips : list IpAddr) (ttl rcode now : Z) : IpRecord := mkIpRecord req_id ips (now + ttl) rcode.

Record DnsRecord : Type := mkDnsRecord { rec_a : option IpRecord; rec_aaaa : option IpRecord }.
Definition DnsRecord_default : DnsRecord := mkDnsRecord None None.

Definition is_empty_or_expired (r : DnsRecord) (now : Z) : bool :=
  from_option (fun r => is_expired r now) true (rec_a r) && from_option (fun r => is_expired r now) true (rec_aaaa r).

(** [as i32] saturates. *)
Definition raw_ttl_seconds (expire now : Z) : Z :=
  if now <=? expire then Z.min I32_MAX (ceil_secs (expire - now)) else - Z.min I32_MAX (ceil_secs (now - expire)).

Definition record_ips (rec : option IpRecord) (now : Z) : list IpAddr * Z * option DnsError :=
  match rec with
  | None => ([], 0, Some RecordNotFound)
  | Some r =>
      let err := if negb (ir_rcode r =? NO_ERROR) then Some (from_rcode (ir_rcode r)) else if bool_decide (ir_ips r = []) then Some EmptyResponse else None in
      (ir_ips r, raw_ttl_seconds (ir_expire r) now, err)
  end.

(** The end of [merge_records]. *)
Definition merge_result (all_ips : list IpAddr) (r_ttl : Z) (errs : list DnsError) : list IpAddr * Z * option DnsError :=
  if negb (bool_decide (all_ips = [])) then (all_ips, r_ttl, None)
  else
    match errs with
    | [] => ([], r_ttl, None)
    | e0 :: rest => if forallb (fun e => same_dns_error_kind e e0) rest then ([], r_ttl, Some e0) else ([], r_ttl, Some (SystemResolve (join_errors errs)))
    end.

(** Its loop over the two families. *)
Fixpoint merge_loop (merge_req : bool) (now : Z) (families : list (bool * option IpRecord)) (all_ips : list IpAddr) (r_ttl : Z) (errs : list DnsError)
    : list IpAddr * Z * option DnsError :=
  match families with
  | [] => merge_result all_ips r_ttl errs
  | (enabled, rec) :: families =>
      if negb enabled then merge_loop merge_req now families all_ips r_ttl errs
      else
        let '(ips, ttl, err) := record_ips rec now in
        if negb merge_req || bool_decide (err = Some RecordNotFound) then (ips, ttl, err)
        else
          let r_ttl := if ttl <? r_ttl then ttl else r_ttl in
          let errs := match err with Some e => errs ++ [e] | None => errs end in
          merge_loop merge_req now families (all_ips ++ ips) r_ttl errs
  end.

Definition merge_records (o : IpOption) (rec4 rec6 : option IpRecord) (now : Z) : list IpAddr * Z * option DnsError :=
  merge_loop (ipv4_enable o && ipv6_enable o) now [(ipv4_enable o, rec4); (ipv6_enable o, rec6)] [] 600 [].

(** * Answers of a server

    [Message_from_vec] is hickory's decoder, [DnsMessage] what the code reads of its
    result; a record type is its number. *)

Inductive RData : Type := RA (octets : bytes) | RAaaa (octets : bytes) | ROther.
Record Answer : Type := mkAnswer { an_ttl : Z; an_type : Z; an_data : RData }.
Record DnsMessage : Type := mkDnsMessage { dm_id : Z; dm_rcode_low : Z; dm_rcode_high : Z; dm_truncation : bool; dm_answers : list Answer }.

Class DnsWire := { Message_from_vec : bytes -> bytes + DnsMessage }.

Definition response_code_to_u16 (low high : Z) : Z := Z.lor (Z.shiftl high 8) low.

(** [ParsedResponse]: what the answer of a server is read as. *)
Record ParsedResponse : Type := mkParsedResponse { pr_req_id : Z; pr_ips : list IpAddr; pr_ttl_secs : Z; pr_rcode : Z; pr_truncated : bool }.

(** The loop over the answers. *)
Fixpoint read_answers (expected_type : Z) (answers : list Answer) (ips : list IpAddr) (min_ttl : option Z) : list IpAddr * option Z :=
  match answers with
  | [] => (ips, min_ttl)
  | rec :: answers =>
      let ttl := if an_ttl rec =? 0 then 1 else an_ttl rec in
      let min_ttl := Some (from_option (fun m => Z.min m ttl) ttl min_ttl) in
      if negb (an_type rec =? expected_type) then read_answers expected_type answers ips min_ttl
      else
        match an_data rec with
        | RA a => read_answers expected_type answers (ips ++ [V4 a]) min_ttl
        | RAaaa a => read_answers expected_type answers (ips ++ [V6 a]) min_ttl
        | ROther => read_answers expected_type answers ips min_ttl
        end
  end.

Definition parse_dns_response `{!DnsWire} (payload : bytes) (expected_req_id expected_type : Z) : result DnsError ParsedResponse :=
  match Message_from_vec payload with
  | inl e => Err (WireFormat e)
  | inr msg =>
      if negb (dm_id msg =? expected_req_id) then
        Err (WireFormat (text "req_id mismatch: expected " ++ u32_to_string expected_req_id ++ text ", got " ++ u32_to_string (dm_id msg)))
      else
        let '(ips, min_ttl) := read_answers expected_type (dm_answers msg) [] None in
        Ok (mkParsedResponse expected_req_id ips (default 0 min_ttl) (response_code_to_u16 (dm_rcode_low msg) (dm_rcode_high msg)) (dm_truncation msg))
  end.

Definition parsed_to_ip_record (p : ParsedResponse) (now : Z) : IpRecord :=
  let ttl_secs := if 0 <? pr_ttl_secs p then pr_ttl_secs p else 600 in
  ip_record (pr_req_id p) (pr_ips p) (ttl_secs * NANOS) (pr_rcode p) now.

(** [AtomicReqIdGen] *)
Definition next_id (counter : Z) : Z * Z := (counter, to_u16 (counter + 1)).

(** * Doubles *)

Lemma scaled_pos a b e : 0 < a -> 0 < b -> 0 < (scaled a b e).1 /\ 0 < (scaled a b e).2.
Proof.
  intros Ha Hb. assert (Hp : forall x, 0 <= x -> 0 < 2 ^ x) by (intros; apply Z.pow_pos_nonneg; lia). unfold scaled.
  destruct (Z.leb_spec 0 e); cbn [fst snd]; (split; [try lia|try lia]); apply Z.mul_pos_pos; try lia; apply Hp; lia.
Qed.

(** The quotient scaled by [e] has at least [j + 1] bits. *)
Lemma scaled_large a b e j : 0 < a -> 0 < b -> 0 <= j -> e <= Z.log2 a - Z.log2 b - 1 - j -> 2 ^ j * (scaled a b e).2 <= (scaled a b e).1.
Proof.
  intros Ha Hb Hj He. pose proof (Z.log2_spec a Ha) as [La _]. pose proof (Z.log2_spec b Hb) as [_ Lb]. pose proof (Z.log2_nonneg a). pose proof (Z.log2_nonneg b).
  set (la := Z.log2 a) in *. set (lb := Z.log2 b) in *. assert (Hp : forall x, 0 <= x -> 0 < 2 ^ x) by (intros; apply Z.pow_pos_nonneg; lia).
  unfold scaled. destruct (Z.leb_spec 0 e); cbn [fst snd].
  - assert (Hu1 : 2 ^ j * (b * 2 ^ e) <= 2 ^ j * (2 ^ Z.succ lb * 2 ^ e)).
    { apply Z.mul_le_mono_nonneg_l; [specialize (Hp j); lia|]. apply Z.mul_le_mono_nonneg_r; [specialize (Hp e); lia|lia]. }
    rewrite <- !Z.pow_add_r in Hu1 by lia. assert (2 ^ (j + (Z.succ lb + e)) <= 2 ^ la) by (apply Z.pow_le_mono_r; lia). lia.
  - assert (Hu1 : 2 ^ j * b <= 2 ^ j * 2 ^ Z.succ lb) by (apply Z.mul_le_mono_nonneg_l; [specialize (Hp j); lia|lia]). rewrite <- Z.pow_add_r in Hu1 by lia.
    assert (Hu2 : 2 ^ la * 2 ^ (- e) <= a * 2 ^ (- e)) by (apply Z.mul_le_mono_nonneg_r; [specialize (Hp (- e)); lia|lia]). rewrite <- Z.pow_add_r in Hu2 by lia.
    assert (2 ^ (j + Z.succ lb) <= 2 ^ (la + - e)) by (apply Z.pow_le_mono_r; lia). lia.
Qed.

Lemma exponent_large a b : 0 < a -> 0 < b -> 2 ^ 52 * (scaled a b (f64_exponent a b)).2 <= (scaled a b (f64_exponent a b)).1.
Proof.
  intros Ha Hb. unfold f64_exponent. set (e := Z.log2 a - Z.log2 b - 52). destruct (scaled_pos a b e Ha Hb) as [_ Hd]. destruct (scaled a b e) as [n d] eqn:E. cbn [snd] in Hd.
  destruct (Z.ltb_spec (n / d) (2 ^ 52)) as [|Hge]; [apply scaled_large; unfold e; lia|]. rewrite E. cbn [fst snd].
  pose proof (Z.mul_div_le n d Hd). assert (d * 2 ^ 52 <= d * (n / d)) by (apply Z.mul_le_mono_nonneg_l; lia). lia.
Qed.

(** What is proved of the rounding: positive stays positive, and it keeps every whole
    number below [2^53] as a lower bound, and as the value. *)
Lemma f64_nearest_spec a b : 0 <= a -> 0 < b -> let '(n, d) := f64_nearest a b in
  0 < d /\ 0 <= n /\ (0 < a -> 0 < n) /\ forall k, 0 <= k < 2 ^ 53 -> (k * b <= a -> k * d <= n) /\ (a = k * b -> n = k * d).
Proof.
  intros Ha Hb. unfold f64_nearest. destruct (Z.eqb_spec a 0) as [->|Ha0]; [split; [lia|]; split; [lia|]; split; [lia|]; intros k Hk; split; nia|].
  assert (Ha' : 0 < a) by lia. pose proof (exponent_large a b Ha' Hb) as Hbig. set (e := f64_exponent a b) in *. destruct (scaled_pos a b e Ha' Hb) as [_ Hd].
  assert (Hsc : scaled a b e = if 0 <=? e then (a, b * 2 ^ e) else (a * 2 ^ (- e), b)) by done. destruct (scaled a b e) as [n d]. cbn [fst snd] in *.
  set (m := if 2 * (n mod d) <? d then n / d else _). assert (Hm : n / d <= m <= n / d + 1) by (unfold m; zcases; destruct (Z.even (n / d)); lia).
  assert (Hex : n mod d = 0 -> m = n / d) by (intros E; unfold m; rewrite E; zcases). clearbody m. assert (Hq : 2 ^ 52 <= n / d) by (apply Z.div_le_lower_bound; lia).
  destruct (Z.leb_spec 0 e) as [He|He]; injection Hsc as -> ->.
  - assert (Hp : 0 < 2 ^ e) by (apply Z.pow_pos_nonneg; lia). split; [lia|]. split; [nia|]. split; [nia|]. intros k Hk. destruct (decide (e = 0)) as [E0|E0].
    + rewrite E0, Z.pow_0_r, Z.mul_1_r in *. split; [intros Hle; assert (k <= a / b) by (apply Z.div_le_lower_bound; lia); lia|].
      intros ->. rewrite Hex; rewrite ?Z.div_mul, ?Z.mod_mul by lia; lia.
    + assert (Hp2 : 2 * 1 <= 2 ^ e) by (change (2 * 1) with (2 ^ 1); apply Z.pow_le_mono_r; lia). split; [intros _; nia|]. intros ->. exfalso.
      assert (2 ^ 52 * (b * 2) <= 2 ^ 52 * (b * 2 ^ e)) by (apply Z.mul_le_mono_nonneg_l; [lia|]; apply Z.mul_le_mono_nonneg_l; lia). nia.
  - assert (Hp : 0 < 2 ^ (- e)) by (apply Z.pow_pos_nonneg; lia). split; [lia|]. split; [lia|]. split; [lia|]. intros k Hk. set (p := 2 ^ (- e)) in *. split.
    + intros Hle. assert (k * p <= a * p / b) by (apply Z.div_le_lower_bound; nia). lia.
    + intros ->. replace (k * b * p) with (k * p * b) in * by lia. rewrite Hex; rewrite ?Z.div_mul, ?Z.mod_mul by lia; lia.
Qed.

Lemma ceil_ratio_spec n d : 0 < d -> d * (ceil_ratio (n, d) - 1) < n <= d * ceil_ratio (n, d).
Proof. intros Hd. unfold ceil_ratio. cbn [fst snd]. pose proof (Z.div_mod (- n) d ltac:(lia)). pose proof (Z.mod_pos_bound (- n) d Hd). lia. Qed.

Lemma ceil_secs_spec d : 0 <= d -> 0 <= ceil_secs d /\ (0 < d -> 0 < ceil_secs d) /\
  (forall k, 0 <= k < 2 ^ 53 -> k * NANOS <= d -> k <= ceil_secs d) /\ (forall k, 0 <= k < 2 ^ 53 -> d = k * NANOS -> ceil_secs d = k).
Proof.
  intros Hd. unfold ceil_secs, as_secs_f64. assert (HN : 0 < NANOS) by (unfold NANOS; lia). pose proof (Z.mod_pos_bound d NANOS HN) as Hmod. pose proof (Z.div_pos d NANOS Hd HN) as Hdiv.
  pose proof (Z.div_mod d NANOS ltac:(lia)) as Hdm. pose proof (f64_nearest_spec (d / NANOS) 1 Hdiv ltac:(lia)) as Hs. destruct (f64_nearest (d / NANOS) 1) as [sn sd].
  pose proof (f64_nearest_spec (d mod NANOS) NANOS ltac:(lia) HN) as Hf. destruct (f64_nearest (d mod NANOS) NANOS) as [fn fd].
  destruct Hs as (Hsd & Hsn & Hs1 & Hs2). destruct Hf as (Hfd & Hfn & Hf1 & Hf2). assert (Hnum : 0 <= sn * fd + fn * sd) by nia. assert (Hden : 0 < sd * fd) by nia.
  pose proof (f64_nearest_spec _ _ Hnum Hden) as Hx. destruct (f64_nearest (sn * fd + fn * sd) (sd * fd)) as [n m]. destruct Hx as (Hm & Hn & Hx1 & Hx2).
  pose proof (ceil_ratio_spec n m Hm) as Hc. set (c := ceil_ratio (n, m)) in *. split; [nia|]. split; [|split].
  - intros Hd0. assert (0 < sn * fd + fn * sd); [|specialize (Hx1 ltac:(done)); nia]. destruct (decide (d / NANOS = 0)) as [E0|E0]; [specialize (Hf1 ltac:(lia)); nia|specialize (Hs1 ltac:(lia)); nia].
  - intros k Hk Hle. assert (Hkd : k <= d / NANOS) by (apply Z.div_le_lower_bound; lia). destruct (Hs2 k Hk) as [Hs3 _]. specialize (Hs3 ltac:(lia)). destruct (Hx2 k Hk) as [Hx3 _].
    assert (k * m <= n) by (apply Hx3; nia). nia.
  - intros k Hk ->. destruct (Hs2 k Hk) as [_ Hs3]. rewrite Z.div_mul in Hs3 by lia. specialize (Hs3 ltac:(lia)). destruct (Hf2 0 ltac:(lia)) as [_ Hf3]. rewrite Z.mod_mul in Hf3 by lia. specialize (Hf3 ltac:(lia)).
    destruct (Hx2 k Hk) as [_ Hx3]. assert (n = k * m) by (apply Hx3; nia). nia.
Qed.

Lemma raw_ttl_fresh expire now : now < expire -> 0 < raw_ttl_seconds expire now.
Proof. intros H. unfold raw_ttl_seconds, I32_MAX. destruct (Z.leb_spec now expire); [|lia]. destruct (ceil_secs_spec (expire - now)) as (_ & Hp & _); [lia|]. lia. Qed.

Lemma raw_ttl_due expire now : expire <= now -> raw_ttl_seconds expire now <= 0.
Proof.
  intros H. unfold raw_ttl_seconds, I32_MAX. destruct (Z.leb_spec now expire); [|destruct (ceil_secs_spec (now - expire)) as (Hp & _); [lia|lia]].
  replace (expire - now) with 0 by lia. destruct (ceil_secs_spec 0) as (_ & _ & _ & He); [lia|]. specialize (He 0 ltac:(lia) ltac:(lia)). lia.
Qed.

Lemma raw_ttl_overdue expire now secs : 0 <= secs <= I32_MAX -> expire < now - secs * NANOS -> raw_ttl_seconds expire now <= - secs.
Proof.
  unfold I32_MAX, NANOS. intros Hs H. unfold raw_ttl_seconds, I32_MAX. destruct (Z.leb_spec now expire); [lia|]. destruct (ceil_secs_spec (now - expire)) as (_ & _ & Hk & _); [lia|].
  specialize (Hk secs ltac:(lia)). unfold NANOS in Hk. lia.
Qed.

(** * Merged records *)

Definition record_error (r : IpRecord) : option DnsError :=
  if negb (ir_rcode r =? NO_ERROR) then Some (from_rcode (ir_rcode r)) else if bool_decide (ir_ips r = []) then Some EmptyResponse else None.

Lemma record_ips_some r now : record_ips (Some r) now = (ir_ips r, raw_ttl_seconds (ir_expire r) now, record_error r).
Proof. done. Qed.

Lemma record_error_found r : record_error r <> Some RecordNotFound.
Proof. unfold record_error, from_rcode. destruct (negb _); [destruct (_ =? 0); done|]. by case_bool_decide. Qed.

Definition error_list (e : option DnsError) : list DnsError := match e with Some e => [e] | None => [] end.

(** Both families are asked for: a missing record is all that is said, else both count. *)
Lemma merge_both fake r4 r6 now : merge_records (mkIpOption true true fake) r4 r6 now =
  match r4, r6 with
  | Some r4, Some r6 =>
      merge_result (ir_ips r4 ++ ir_ips r6) (Z.min (Z.min 600 (raw_ttl_seconds (ir_expire r4) now)) (raw_ttl_seconds (ir_expire r6) now)) (error_list (record_error r4) ++ error_list (record_error r6))
  | _, _ => ([], 0, Some RecordNotFound)
  end.
Proof.
  unfold merge_records. cbn [ipv4_enable ipv6_enable andb merge_loop negb orb]. destruct r4 as [r4|]; [|done]. rewrite record_ips_some, bool_decide_false by apply record_error_found.
  destruct r6 as [r6|]; [|done]. rewrite record_ips_some, bool_decide_false by apply record_error_found. rewrite app_nil_l. f_equal.
  - repeat zcase_goal; repeat zcase_hyp; lia.
  - by destruct (record_error r4), (record_error r6).
Qed.

Lemma merge_v4 fake r4 r6 now : merge_records (mkIpOption true false fake) r4 r6 now = record_ips r4 now.
Proof. unfold merge_records. cbn [ipv4_enable ipv6_enable andb merge_loop negb orb]. by destruct (record_ips r4 now) as [[ips ttl] err]. Qed.

Lemma merge_v6 fake r4 r6 now : merge_records (mkIpOption false true fake) r4 r6 now = record_ips r6 now.
Proof. unfold merge_records. cbn [ipv4_enable ipv6_enable andb merge_loop negb orb]. by destruct (record_ips r6 now) as [[ips ttl] err]. Qed.

Lemma merge_result_ttl ips ttl errs : (merge_result ips ttl errs).1.2 = ttl.
Proof. unfold merge_result. destruct (negb _); [done|]. destruct errs as [|e0 errs]; [done|]. by destruct (forallb _ errs). Qed.

Lemma merge_result_found ips ttl errs : Forall (fun e => e <> RecordNotFound) errs -> (merge_result ips ttl errs).2 <> Some RecordNotFound.
Proof. intros He. unfold merge_result. destruct (negb _); [done|]. destruct He as [|e0 errs H0 He]; [done|]. destruct (forallb _ errs); cbn; congruence. Qed.

Lemma error_list_found r : Forall (fun e => e <> RecordNotFound) (error_list (record_error r)).
Proof. pose proof (record_error_found r). destruct (record_error r); cbn; [|constructor]. apply Forall_cons_iff. split; [congruence|constructor]. Qed.

(** A record that is missing or has at most [b] seconds left. *)
Definition stale_by (b now : Z) (r : option IpRecord) : Prop := match r with Some r => raw_ttl_seconds (ir_expire r) now <= b | None => True end.

Lemma merge_stale o r4 r6 now b : (ipv4_enable o = true /\ stale_by b now r4) \/ (ipv6_enable o = true /\ stale_by b now r6) ->
  (merge_records o r4 r6 now).2 = Some RecordNotFound \/ (merge_records o r4 r6 now).1.2 <= b.
Proof.
  destruct o as [[] [] fake]; cbn [ipv4_enable ipv6_enable]; intros [[Ho Hs]|[Ho Hs]]; try done; rewrite ?merge_both, ?merge_v4, ?merge_v6; unfold stale_by in Hs.
  - destruct r4 as [r4|]; [|by left]. destruct r6 as [r6|]; [|by left]. right. rewrite merge_result_ttl. lia.
  - destruct r4 as [r4|]; [|by left]. destruct r6 as [r6|]; [|by left]. right. rewrite merge_result_ttl. lia.
  - destruct r4 as [r4|]; [|by left]. by right.
  - destruct r6 as [r6|]; [|by left]. by right.
Qed.

(** The records of the families asked for. *)
Definition asked (o : IpOption) (r4 r6 : option IpRecord) : list (option IpRecord) := (if ipv4_enable o then [r4] else []) ++ (if ipv6_enable o then [r6] else []).

(** All of them there: the answer is made of their addresses and lasts as long as the one
    that is due first, at most ten minutes when there are two. *)
Lemma merge_found o r4 r6 now rs : asked o r4 r6 = map Some rs -> rs <> [] ->
  let '(ips, ttl, err) := merge_records o r4 r6 now in
  err <> Some RecordNotFound /\ (ttl = 600 \/ exists r, r ∈ rs /\ ttl = raw_ttl_seconds (ir_expire r) now) /\ (forall r, r ∈ rs -> ttl <= raw_ttl_seconds (ir_expire r) now) /\
  (err = None -> ips = concat (map ir_ips rs) /\ ips <> []).
Proof.
  destruct o as [[] [] fake]; unfold asked; cbn [ipv4_enable ipv6_enable app]; intros Ha Hne; rewrite ?merge_both, ?merge_v4, ?merge_v6.
  - destruct rs as [|r4' [|r6' [|]]]; try done. injection Ha as -> ->. set (ips := ir_ips r4' ++ ir_ips r6'). set (errs := _ ++ _). set (ttl := Z.min _ _).
    assert (He : Forall (fun e => e <> RecordNotFound) errs) by (apply Forall_app; split; apply error_list_found).
    pose proof (merge_result_ttl ips ttl errs) as Ht. pose proof (merge_result_found ips ttl errs He) as Hf. destruct (merge_result ips ttl errs) as [[ips' ttl'] err] eqn:E. cbn [fst snd] in *. subst ttl'.
    split; [done|]. split.
    { assert (Hm : ttl = 600 \/ ttl = raw_ttl_seconds (ir_expire r4') now \/ ttl = raw_ttl_seconds (ir_expire r6') now) by (unfold ttl; lia).
      destruct Hm as [Hm|[Hm|Hm]]; [by left|right; exists r4'|right; exists r6']; (split; [rewrite !elem_of_cons; tauto|done]). }
   
    split; [intros r; rewrite !elem_of_cons, elem_of_nil; unfold ttl; intros [->|[->|[]]]; lia|]. intros ->. cbn [map concat]. rewrite app_nil_r. fold ips. unfold merge_result in E.
    case_bool_decide as Hi; cbn [negb] in E; [|by injection E as <-]. destruct errs as [|e0 errs'] eqn:Ee; [|by destruct (forallb _ errs')]. exfalso. subst errs ips.
    apply app_eq_nil in Ee as [E4 E6]. apply app_eq_nil in Hi as [I4 I6]. unfold record_error in E4. destruct (negb _) in E4; [done|]. by rewrite I4 in E4.
  - destruct rs as [|r [|]]; try done. injection Ha as ->. rewrite record_ips_some. pose proof (record_error_found r). split; [done|]. split; [right; exists r; split; [by left|done]|].
    split; [intros r'; rewrite elem_of_cons, elem_of_nil; intros [->|[]]; lia|]. unfold record_error. destruct (negb _); [done|]. case_bool_decide; [done|]. cbn. by rewrite app_nil_r.
  - destruct rs as [|r [|]]; try done. injection Ha as ->. rewrite record_ips_some. pose proof (record_error_found r). split; [done|]. split; [right; exists r; split; [by left|done]|].
    split; [intros r'; rewrite elem_of_cons, elem_of_nil; intros [->|[]]; lia|]. unfold record_error. destruct (negb _); [done|]. case_bool_decide; [done|]. cbn. by rewrite app_nil_r.
  - destruct rs; done.
Qed.
