(* ===== verification/FakeDns.v ===== *)
(** Fake DNS ([xray-app-dns/src/fakedns/mod.rs], [nameserver/fakedns.rs]): domains are
    given addresses of a pool, and the addresses lead back to the domains.

    The crate [ipnet] is the class [IpNetOps], the crate [lru] an [LruOps] (see [Cache]);
    a parsing error is its text.  [now] is [now_millis()].  A release build is modelled:
    [1u64 << n] shifts by [n] modulo 64.  The theorem says that the addresses are in the
    pool, lead back to their domains and are shared only where the search for a free one
    has come round to the network address. *)
From Stdlib Require Import String.
From stdpp Require Import base tactics option numbers list.
From S2P Require Import Prelude Bytes NetTypes StrMatch Cache DnsCommon.

Class IpNetOps := {
  IpNet : Type;
  net_parse : bytes -> bytes + IpNet;
  net_is_v6 : IpNet -> bool;
  net_prefix_len : IpNet -> Z;
  net_network : IpNet -> IpAddr;
  net_contains : IpNet -> IpAddr -> bool;
}.

Record FakeDnsPool : Type := mkFakeDnsPool { ip_pool : bytes; lru_size : Z }.

Definition FakeDnsPool_default_v4 : FakeDnsPool := mkFakeDnsPool (text "240.0.0.0/4") 65535.

(** One turn of [add_to_be_bytes] per byte, the last byte first. *)
Fixpoint add_loop (low_rev : bytes) (carry : Z) : bytes :=
  match low_rev with
  | [] => []
  | cur :: rest =>
      let sum := to_u64 (cur + Z.land carry 255) in
      to_u8 sum :: add_loop rest (to_u64 (Z.shiftr carry 8 + Z.shiftr sum 8))
  end.

Definition add_to_be_bytes (b : bytes) (add : Z) : bytes := ztake 8 b ++ rev (add_loop (rev (zdrop 8 b)) add).

Section fakedns.
Context `{!IpNetOps} `{!LruOps bytes IpAddr}.

Record Holder : Type := mkHolder { domain_to_ip : Lru (K := bytes) (V := IpAddr); ip_range : IpNet; h_config : FakeDnsPool }.

Definition subnet_rooms (net : IpNet) : Z := (if net_is_v6 net then 128 else 32) - net_prefix_len net.

(** [LruCache::unbounded()] holds as many as a [usize] counts.  [None]: the [expect]. *)
Definition with_config (conf : FakeDnsPool) : option Holder :=
  match net_parse (text "0.0.0.0/32") with
  | inr placeholder => Some (mkHolder (lru_new 18446744073709551615) placeholder conf)
  | inl _ => None
  end.

Definition initialize_with (ip_pool_cidr : bytes) (lru_size : Z) (h : Holder) : result DnsError unit * Holder :=
  match net_parse ip_pool_cidr with
  | inl e => (Err (InvalidFakeDnsCidr e), h)
  | inr range =>
      let rooms := subnet_rooms range in
      if (rooms <? 32) && (2 ^ rooms <=? lru_size) then (Err (LruBiggerThanSubnet lru_size rooms), h)
      else (Ok tt, mkHolder (lru_new (if lru_size =? 0 then 1 else lru_size)) range (h_config h))
  end.

Definition initialize (h : Holder) : result DnsError unit * Holder := initialize_with (ip_pool (h_config h)) (lru_size (h_config h)) h.

Definition Holder_new_default : option (result DnsError Holder) :=
  h ← with_config FakeDnsPool_default_v4;
  Some (match initialize h with (Ok _, h) => Ok h | (Err e, _) => Err e end).

Definition Holder_start (h : Holder) : result DnsError unit :=
  if bool_decide (ip_pool (h_config h) = []) || (lru_size (h_config h) =? 0) then Err InvalidFakeDnsSetting else Ok tt.

Definition Holder_is_ip_in_pool (h : Holder) (ip : IpAddr) : bool := net_contains (ip_range h) ip.

Definition rooms (h : Holder) : Z := subnet_rooms (ip_range h).

(** [(1u64 << rooms) - 1] *)
Definition ts_mask (range : IpNet) : Z := 2 ^ (subnet_rooms range mod 64) - 1.

Definition ts_to_ip (range : IpNet) (ts : Z) : IpAddr :=
  match net_network range with
  | V4 v => V4 (be32 (be_val v +32 to_u32 ts))
  | V6 v => V6 (add_to_be_bytes v ts)
  end.

(** [iter().any(|(_, v)| *v == ip)] *)
Definition occupied (items : list (bytes * IpAddr)) (ip : IpAddr) : bool := existsb (fun e => bool_decide (e.2 = ip)) items.

(** The [while]; [None]: out of fuel. *)
Fixpoint skip_occupied (fuel : nat) (range : IpNet) (items : list (bytes * IpAddr)) (ts : Z) (ip : IpAddr) : option IpAddr :=
  match fuel with
  | O => None
  | S fuel =>
      if occupied items ip then
        let ts := Z.land (to_u64 (ts + 1)) (ts_mask range) in
        let ip := ts_to_ip range ts in
        if bool_decide (ip = net_network range) then Some ip else skip_occupied fuel range items ts ip
      else Some ip
  end.

Definition Holder_get_fake_ip_for_domain (domain : bytes) (now : Z) (h : Holder) : option (list IpAddr * Holder) :=
  let '(found, entries) := lru_get domain (domain_to_ip h) in
  match found with
  | Some ip => Some ([ip], mkHolder entries (ip_range h) (h_config h))
  | None =>
      let ts := Z.land now (ts_mask (ip_range h)) in
      let items := lru_items entries in
      ip ← skip_occupied (S (length items)) (ip_range h) items ts (ts_to_ip (ip_range h) ts);
      Some ([ip], mkHolder (lru_put domain ip entries) (ip_range h) (h_config h))
  end.

Definition Holder_get_fake_ip_for_domain_3 (domain : bytes) (ipv4 ipv6 : bool) (now : Z) (h : Holder) : option (list IpAddr * Holder) :=
  let is_v6 := net_is_v6 (ip_range h) in
  if (is_v6 && ipv6) || (negb is_v6 && ipv4) then Holder_get_fake_ip_for_domain domain now h else Some ([], h).

Definition Holder_get_domain_from_fake_dns (h : Holder) (ip : IpAddr) : option bytes :=
  if negb (Holder_is_ip_in_pool h ip) then None
  else fst <$> List.find (fun e => bool_decide (e.2 = ip)) (lru_items (domain_to_ip h)).

Definition is_v6_pool (h : Holder) : bool := net_is_v6 (ip_range h).
Definition Holder_len (h : Holder) : Z := lru_len (domain_to_ip h).

(** * Several pools *)

Definition HolderMulti : Type := list Holder.

(** The loop over the pools: [Ok] holders so far, the first error ends it. *)
Fixpoint multi_loop (pools : list FakeDnsPool) (holders : list Holder) : option (result DnsError HolderMulti) :=
  match pools with
  | [] => Some (Ok holders)
  | p :: pools =>
      h ← with_config p;
      match initialize h with
      | (Ok _, h) => multi_loop pools (holders ++ [h])
      | (Err e, _) => Some (Err e)
      end
  end.

Definition HolderMulti_new (pools : list FakeDnsPool) : option (result DnsError HolderMulti) :=
  if bool_decide (pools = []) then Some (Err InvalidFakeDnsSetting) else multi_loop pools [].

Definition HolderMulti_is_ip_in_pool (hs : HolderMulti) (ip : IpAddr) : bool := existsb (fun h => Holder_is_ip_in_pool h ip) hs.

Fixpoint HolderMulti_get_fake_ip_for_domain (domain : bytes) (now : Z) (hs : HolderMulti) : option (list IpAddr * HolderMulti) :=
  match hs with
  | [] => Some ([], [])
  | h :: hs =>
      '(ips, h) ← Holder_get_fake_ip_for_domain domain now h;
      '(all, hs) ← HolderMulti_get_fake_ip_for_domain domain now hs;
      Some (ips ++ all, h :: hs)
  end.

Fixpoint HolderMulti_get_fake_ip_for_domain_3 (domain : bytes) (ipv4 ipv6 : bool) (now : Z) (hs : HolderMulti) : option (list IpAddr * HolderMulti) :=
  match hs with
  | [] => Some ([], [])
  | h :: hs =>
      '(ips, h) ← Holder_get_fake_ip_for_domain_3 domain ipv4 ipv6 now h;
      '(all, hs) ← HolderMulti_get_fake_ip_for_domain_3 domain ipv4 ipv6 now hs;
      Some (ips ++ all, h :: hs)
  end.

Fixpoint HolderMulti_get_domain_from_fake_dns (hs : HolderMulti) (ip : IpAddr) : option bytes :=
  match hs with
  | [] => None
  | h :: hs => match Holder_get_domain_from_fake_dns h ip with Some d => Some d | None => HolderMulti_get_domain_from_fake_dns hs ip end
  end.

(** * Engines

    [shared] is what [SHARED_MULTI] holds; an engine asked changes it or itself. *)

Inductive FakeDnsEngine : Type :=
| EngineHolder (h : Holder)
| EngineMulti (hs : HolderMulti)
| EngineShared (fallback : Holder).

Definition set_shared_multi (holder shared : option HolderMulti) : option HolderMulti := holder.

Definition engine_get_fake_ip_for_domain (domain : bytes) (now : Z) (shared : option HolderMulti) (e : FakeDnsEngine)
    : option (list IpAddr * option HolderMulti * FakeDnsEngine) :=
  match e, shared with
  | EngineHolder h, _ => '(ips, h) ← Holder_get_fake_ip_for_domain domain now h; Some (ips, shared, EngineHolder h)
  | EngineMulti hs, _ => '(ips, hs) ← HolderMulti_get_fake_ip_for_domain domain now hs; Some (ips, shared, EngineMulti hs)
  | EngineShared _, Some m => '(ips, m) ← HolderMulti_get_fake_ip_for_domain domain now m; Some (ips, Some m, e)
  | EngineShared h, None => '(ips, h) ← Holder_get_fake_ip_for_domain domain now h; Some (ips, None, EngineShared h)
  end.

Definition engine_get_fake_ip_for_domain_3 (domain : bytes) (ipv4 ipv6 : bool) (now : Z) (shared : option HolderMulti) (e : FakeDnsEngine)
    : option (list IpAddr * option HolderMulti * FakeDnsEngine) :=
  match e, shared with
  | EngineHolder h, _ => '(ips, h) ← Holder_get_fake_ip_for_domain_3 domain ipv4 ipv6 now h; Some (ips, shared, EngineHolder h)
  | EngineMulti hs, _ => '(ips, hs) ← HolderMulti_get_fake_ip_for_domain_3 domain ipv4 ipv6 now hs; Some (ips, shared, EngineMulti hs)
  | EngineShared _, Some m => '(ips, m) ← HolderMulti_get_fake_ip_for_domain_3 domain ipv4 ipv6 now m; Some (ips, Some m, e)
  | EngineShared h, None => '(ips, h) ← Holder_get_fake_ip_for_domain_3 domain ipv4 ipv6 now h; Some (ips, None, EngineShared h)
  end.

Definition engine_get_domain_from_fake_dns (shared : option HolderMulti) (e : FakeDnsEngine) (ip : IpAddr) : option bytes :=
  match e, shared with
  | EngineHolder h, _ | EngineShared h, None => Holder_get_domain_from_fake_dns h ip
  | EngineMulti m, _ | EngineShared _, Some m => HolderMulti_get_domain_from_fake_dns m ip
  end.

Definition engine_is_ip_in_pool (shared : option HolderMulti) (e : FakeDnsEngine) (ip : IpAddr) : bool :=
  match e, shared with
  | EngineHolder h, _ | EngineShared h, None => Holder_is_ip_in_pool h ip
  | EngineMulti m, _ | EngineShared _, Some m => HolderMulti_is_ip_in_pool m ip
  end.

(** [FakeDnsServer::query_ip] *)
Definition FakeDnsServer_query_ip `{!AddressText} (domain : bytes) (o : IpOption) (now : Z) (shared : option HolderMulti) (engine : FakeDnsEngine)
    : option (result DnsError (list IpAddr * Z) * option HolderMulti * FakeDnsEngine) :=
  '(raw, shared, engine) ← engine_get_fake_ip_for_domain_3 domain (ipv4_enable o) (ipv6_enable o) now shared engine;
  let addresses := map Address_from_IpAddr raw in
  Some (match to_net_ip addresses with
        | Err e => Err e
        | Ok ips => if bool_decide (ips = []) then Err EmptyResponse else Ok (ips, 1)
        end, shared, engine).
End fakedns.

(** * Addresses as numbers *)

Definition ip_is_v6 (ip : IpAddr) : bool := match ip with V4 _ => false | V6 _ => true end.
Definition ip_octets (ip : IpAddr) : bytes := match ip with V4 o | V6 o => o end.
Definition ip_bits (v6 : bool) : Z := if v6 then 128 else 32.
Definition ip_wf (ip : IpAddr) : Prop := octets_ok (ip_bits (ip_is_v6 ip) / 8) (ip_octets ip).

(** What the documentation of [ipnet] says. *)
Class IpNetLaws `{!IpNetOps} : Prop := {
  net_prefix_bounds n : 0 <= net_prefix_len n <= ip_bits (net_is_v6 n);
  net_network_family n : ip_is_v6 (net_network n) = net_is_v6 n;
  net_network_wf n : ip_wf (net_network n);
  net_network_low n : be_val (ip_octets (net_network n)) mod 2 ^ (ip_bits (net_is_v6 n) - net_prefix_len n) = 0;
  net_contains_spec n ip : ip_wf ip ->
    net_contains n ip = eqb (ip_is_v6 ip) (net_is_v6 n)
      && (be_val (ip_octets ip) / 2 ^ (ip_bits (net_is_v6 n) - net_prefix_len n) =? be_val (ip_octets (net_network n)) / 2 ^ (ip_bits (net_is_v6 n) - net_prefix_len n));
  net_parse_host : exists n, net_parse (text "0.0.0.0/32") = inr n;
}.

Lemma be_val_inj l k : bytes_ok l -> bytes_ok k -> zlen l = zlen k -> be_val l = be_val k -> l = k.
Proof. intros Hl Hk Hlen Hv. rewrite <- (be_bytes_val l Hl), <- (be_bytes_val k Hk), Hv. f_equal. unfold zlen in Hlen. lia. Qed.

Lemma ip_inj a b : ip_wf a -> ip_wf b -> ip_is_v6 a = ip_is_v6 b -> be_val (ip_octets a) = be_val (ip_octets b) -> a = b.
Proof.
  unfold ip_wf, octets_ok. destruct a as [a|a], b as [b|b]; cbn [ip_is_v6 ip_octets]; intros [Ha La] [Hb Lb] He Hv; try done; f_equal; apply be_val_inj; auto; congruence.
Qed.

(** ** [add_to_be_bytes] *)

Lemma add_loop_length l c : length (add_loop l c) = length l.
Proof. revert c. induction l; intros c; cbn; [done|]. by rewrite IHl. Qed.

Lemma add_loop_ok l c : bytes_ok (add_loop l c).
Proof. revert c. induction l; intros c; cbn; constructor; auto with xray. Qed.

Lemma add_loop_val l : forall c, bytes_ok l -> 0 <= c < 2 ^ 64 -> be_val (rev (add_loop l c)) = (be_val (rev l) + c) mod 256 ^ zlen l.
Proof.
  induction l as [|cur l IH]; intros c Hl Hc; [cbn; change (zlen (@nil Z)) with 0; by rewrite Z.mod_1_r|].
  apply Forall_cons_iff in Hl as [Hb Hl]. unfold is_u8 in Hb. cbn [add_loop rev]. change 255 with (Z.ones 8).
  rewrite !Z.land_ones, !Z.shiftr_div_pow2 by lia. change (2 ^ 8) with 256.
  pose proof (Z.mod_pos_bound c 256 ltac:(lia)) as Hm. assert (Hcd : 0 <= c / 256 < 2 ^ 56) by (split; [apply Z.div_pos; lia|apply Z.div_lt_upper_bound; lia]).
  assert (Es : to_u64 (cur + c mod 256) = cur + c mod 256) by (unfold to_u64; apply Z.mod_small; lia). rewrite Es.
  set (sum := cur + c mod 256) in *. assert (Hsd : 0 <= sum / 256 <= 1) by (split; [apply Z.div_pos; lia|]; assert (sum / 256 < 2); [apply Z.div_lt_upper_bound; lia|lia]).
  assert (Ec : to_u64 (c / 256 + sum / 256) = c / 256 + sum / 256) by (unfold to_u64; apply Z.mod_small; lia). rewrite Ec.
  rewrite !be_val_app, IH by (done || lia). rewrite !be_val_cons, !be_val_nil. change (zlen (@nil Z)) with 0. change (zlen [to_u8 sum]) with 1. change (zlen [cur]) with 1.
  rewrite zlen_cons, Z.pow_add_r, !Z.pow_1_r, Z.pow_0_r by zlia. assert (Hp : 0 < 256 ^ zlen l) by (apply Z.pow_pos_nonneg; zlia). set (p := 256 ^ zlen l) in *.
  unfold to_u8. set (v := be_val (rev l)). replace (v * 256 + (cur * 1 + 0) + c) with (256 * (v + (c / 256 + sum / 256)) + sum mod 256).
  - pose proof (Z.mod_pos_bound sum 256 ltac:(lia)) as Hs. set (x := v + (c / 256 + sum / 256)). rewrite Z.rem_mul_r by lia.
    replace (256 * x + sum mod 256) with (sum mod 256 + x * 256) by lia. rewrite Z.mod_add, Z.mod_mod, Z.div_add, (Z.div_small (sum mod 256)) by lia. rewrite Z.add_0_l. lia.
  - pose proof (Z.div_mod sum 256). pose proof (Z.div_mod c 256). unfold sum in *. lia.
Qed.

Lemma add_to_be_bytes_spec b add : octets_ok 16 b -> 0 <= add < 2 ^ 64 -> be_val (zdrop 8 b) + add < 2 ^ 64 ->
  octets_ok 16 (add_to_be_bytes b add) /\ be_val (add_to_be_bytes b add) = be_val b + add.
Proof.
  intros [Hb Hl] Ha Hlt. assert (Ht : zlen (ztake 8 b) = 8) by (rewrite zlen_take; lia). assert (Hd : zlen (zdrop 8 b) = 8) by (rewrite zlen_drop; lia).
  assert (Hr : zlen (rev (add_loop (rev (zdrop 8 b)) add)) = 8) by (unfold zlen in *; rewrite length_rev, add_loop_length, length_rev; done).
  unfold add_to_be_bytes. split; [split|].
  - apply Forall_app. split; [by apply zlen_Forall|]. apply List.Forall_rev, add_loop_ok.
  - rewrite zlen_app. lia.
  - rewrite be_val_app, Hr, add_loop_val; [|by apply List.Forall_rev, zdrop_Forall|done]. rewrite rev_involutive.
    assert (Hz : zlen (rev (zdrop 8 b)) = 8) by (unfold zlen in *; by rewrite length_rev). rewrite Hz, Z.mod_small.
    + rewrite <- (ztake_drop 8 b) at 3. rewrite be_val_app, Hd. lia.
    + pose proof (be_val_range (zdrop 8 b)) as Hv. specialize (Hv ltac:(by apply zdrop_Forall)). change (256 ^ 8) with (2 ^ 64). lia.
Qed.

(** What stays below the lowest set bit carries nowhere. *)
Lemma pow_add_fits v r w ts : 0 <= r <= w -> v mod 2 ^ r = 0 -> 0 <= v < 2 ^ w -> 0 <= ts < 2 ^ r -> v + ts < 2 ^ w.
Proof.
  intros Hw Hlow Hv Ht. assert (Hp : 0 < 2 ^ r) by (apply Z.pow_pos_nonneg; lia). apply Z.div_exact in Hlow; [|lia].
  replace w with (r + (w - r)) in Hv |- * by lia. rewrite Z.pow_add_r in Hv |- * by lia.
  set (p := 2 ^ r) in *. set (m := 2 ^ (w - r)) in *. generalize dependent (v / p). intros q ->.
  assert (q < m) by (apply (Z.mul_lt_mono_pos_l p); lia). assert (p * (q + 1) <= p * m) by (apply Z.mul_le_mono_nonneg_l; lia). lia.
Qed.

(** ** [ts_to_ip] *)

Section addresses.
Context `{!IpNetOps, !IpNetLaws}.
Implicit Types (n : IpNet) (ip : IpAddr).

Lemma rooms_range n : subnet_rooms n = ip_bits (net_is_v6 n) - net_prefix_len n /\ 0 <= subnet_rooms n <= ip_bits (net_is_v6 n).
Proof. unfold subnet_rooms. pose proof (net_prefix_bounds n). unfold ip_bits in *. destruct (net_is_v6 n); lia. Qed.

Lemma mask_range n : 0 <= ts_mask n < 2 ^ 63 /\ ts_mask n < 2 ^ subnet_rooms n.
Proof.
  destruct (rooms_range n) as [_ Hr]. unfold ts_mask. pose proof (Z.mod_pos_bound (subnet_rooms n) 64 ltac:(lia)) as Hm. pose proof (Z.mod_le (subnet_rooms n) 64 ltac:(lia) ltac:(lia)).
  set (k := subnet_rooms n mod 64) in *. assert (0 < 2 ^ k) by (apply Z.pow_pos_nonneg; lia). assert (2 ^ k <= 2 ^ 63) by (apply Z.pow_le_mono_r; lia).
  assert (2 ^ k <= 2 ^ subnet_rooms n) by (apply Z.pow_le_mono_r; lia). lia.
Qed.

Definition net_val n : Z := be_val (ip_octets (net_network n)).

Lemma net_low n : net_val n mod 2 ^ subnet_rooms n = 0.
Proof. destruct (rooms_range n) as [-> _]. apply net_network_low. Qed.

(** The low eight bytes of a network have room for what the mask lets through. *)
Lemma net_low64 n o ts : net_network n = V6 o -> 0 <= ts <= ts_mask n -> be_val (zdrop 8 o) + ts < 2 ^ 64.
Proof.
  intros En Ht. destruct (rooms_range n) as [Er Hr]. destruct (mask_range n) as [Hm Hm2]. pose proof (net_network_wf n) as [Hok Hl]. pose proof (net_low n) as Hlow. unfold net_val in Hlow.
  rewrite En in Hok, Hl, Hlow. cbn [ip_octets ip_is_v6 ip_bits] in *. change (128 / 8) with 16 in Hl. assert (E8 : zlen (zdrop 8 o) = 8) by (rewrite zlen_drop; lia).
  pose proof (be_val_range (zdrop 8 o) ltac:(by apply zdrop_Forall)) as Hb. rewrite E8 in Hb. change (256 ^ 8) with (2 ^ 64) in Hb.
  assert (Hd : be_val (zdrop 8 o) = be_val o mod 2 ^ 64).
  { rewrite <- (ztake_drop 8 o) at 2. rewrite be_val_app, E8. change (256 ^ 8) with (2 ^ 64). rewrite Z.add_comm, Z.mod_add, Z.mod_small by lia. done. }
  destruct (Z_le_gt_dec (subnet_rooms n) 64) as [Hle|Hgt].
  - apply (pow_add_fits _ (subnet_rooms n)); [lia| |lia|lia]. rewrite Hd. transitivity (be_val o mod 2 ^ subnet_rooms n); [|done]. apply Z.mod_mod_divide.
    exists (2 ^ (64 - subnet_rooms n)). rewrite <- Z.pow_add_r by lia. f_equal. lia.
  - assert (E0 : be_val o mod 2 ^ 64 = 0); [|lia]. apply Z.mod_divide; [lia|]. apply Z.mod_divide in Hlow; [|lia]. etransitivity; [|exact Hlow].
    exists (2 ^ (subnet_rooms n - 64)). rewrite <- Z.pow_add_r by lia. f_equal. lia.
Qed.

Lemma ts_to_ip_spec n ts : 0 <= ts <= ts_mask n ->
  ip_wf (ts_to_ip n ts) /\ ip_is_v6 (ts_to_ip n ts) = net_is_v6 n /\ be_val (ip_octets (ts_to_ip n ts)) = net_val n + ts.
Proof.
  intros Ht. destruct (rooms_range n) as [Er Hr]. destruct (mask_range n) as [Hm Hm2]. pose proof (net_network_family n) as Hf. pose proof (net_network_wf n) as [Hok Hl].
  pose proof (be_val_range _ Hok) as Hv. rewrite Hl in Hv. pose proof (net_low n) as Hlow. pose proof (fun o => net_low64 n o ts) as H64. unfold ts_to_ip, net_val in *.
  destruct (net_network n) as [o|o]; cbn [ip_is_v6 ip_octets] in *; rewrite <- Hf in *; unfold ip_wf, octets_ok; cbn [ip_is_v6 ip_octets ip_bits] in *.
  - change (256 ^ (32 / 8)) with (2 ^ 32) in Hv. pose proof (pow_add_fits _ _ 32 ts Hr Hlow Hv ltac:(lia)) as Hfit.
    assert (Hpow : 2 ^ subnet_rooms n <= 2 ^ 32) by (apply Z.pow_le_mono_r; lia).
    assert (Eu : to_u32 ts = ts) by (apply to_u32_small; unfold is_u32; lia). rewrite Eu. rewrite be32_val by apply to_u32_range. split; [split; [apply be_bytes_ok|apply be32_len]|].
    split; [done|]. apply to_u32_small. unfold is_u32. lia.
  - destruct (add_to_be_bytes_spec o ts) as [Ha Eb]; [by split|lia|by apply H64|by split].
Qed.

Lemma ts_to_ip_inj n t u : 0 <= t <= ts_mask n -> 0 <= u <= ts_mask n -> ts_to_ip n t = ts_to_ip n u -> t = u.
Proof. intros Ht Hu E. destruct (ts_to_ip_spec n t Ht) as (_ & _ & E1). destruct (ts_to_ip_spec n u Hu) as (_ & _ & E2). rewrite E in E1. lia. Qed.

Lemma ts_to_ip_0 n : ts_to_ip n 0 = net_network n.
Proof.
  destruct (mask_range n) as [Hm _]. destruct (ts_to_ip_spec n 0) as (Hw & Hf & Hv); [lia|]. apply ip_inj; [done|apply net_network_wf|by rewrite Hf, net_network_family|].
  rewrite Hv. unfold net_val. lia.
Qed.

Lemma ts_to_ip_in_pool n ts : 0 <= ts <= ts_mask n -> net_contains n (ts_to_ip n ts) = true.
Proof.
  intros Ht. destruct (ts_to_ip_spec n ts Ht) as (Hw & Hf & Hv). rewrite net_contains_spec, Hf, Hv by done. destruct (rooms_range n) as [Er Hr]. destruct (mask_range n) as [_ Hm].
  rewrite <- Er. fold (net_val n). rewrite eqb_reflx. cbn [andb]. apply Z.eqb_eq. pose proof (net_low n) as Hlow. assert (Hp : 0 < 2 ^ subnet_rooms n) by (apply Z.pow_pos_nonneg; lia).
  apply Z.div_exact in Hlow; [|lia]. rewrite Hlow at 1. rewrite Z.mul_comm, Z.add_comm, Z.div_add, Z.div_small by lia. lia.
Qed.
End addresses.

(** * The search for a free address *)

Section search.
Context `{!IpNetOps, !IpNetLaws}.
Implicit Types (n : IpNet) (items : list (bytes * IpAddr)).

(** The first free address from [ts] on, or the network address when there is none. *)
Definition fake_pick n items (ts : Z) (ip : IpAddr) : Prop :=
  (exists t, ts <= t <= ts_mask n /\ ip = ts_to_ip n t /\ occupied items ip = false /\ forall u, ts <= u < t -> occupied items (ts_to_ip n u) = true) \/
  (ip = net_network n /\ forall u, ts <= u <= ts_mask n -> occupied items (ts_to_ip n u) = true).

Lemma occupied_spec items ip : occupied items ip = true <-> exists d, (d, ip) ∈ items.
Proof.
  unfold occupied. rewrite existsb_exists. split.
  - intros ([d v] & Hin & Hv). apply bool_decide_eq_true in Hv. cbn in Hv. subst. exists d. by apply list_elem_of_In.
  - intros [d Hin]. exists (d, ip). split; [by apply list_elem_of_In|]. by apply bool_decide_eq_true.
Qed.

Lemma next_ts n ts : 0 <= ts <= ts_mask n -> Z.land (to_u64 (ts + 1)) (ts_mask n) = if ts =? ts_mask n then 0 else ts + 1.
Proof.
  intros Ht. destruct (mask_range n) as [Hm _]. assert (Eu : to_u64 (ts + 1) = ts + 1) by (unfold to_u64; apply Z.mod_small; lia). rewrite Eu.
  unfold ts_mask in *. pose proof (Z.mod_pos_bound (subnet_rooms n) 64 ltac:(lia)). set (k := subnet_rooms n mod 64) in *.
  replace (2 ^ k - 1) with (Z.ones k) in * by (rewrite Z.ones_equiv; lia). rewrite Z.land_ones by lia. rewrite Z.ones_equiv in *.
  destruct (Z.eqb_spec ts (Z.pred (2 ^ k))) as [->|Hne]; [replace (Z.pred (2 ^ k) + 1) with (2 ^ k) by lia; apply Z.mod_same; lia|apply Z.mod_small; lia].
Qed.

Lemma first_ts n now : 0 <= now -> 0 <= Z.land now (ts_mask n) <= ts_mask n.
Proof.
  intros Hn. pose proof (Z.mod_pos_bound (subnet_rooms n) 64 ltac:(lia)). unfold ts_mask in *. set (k := subnet_rooms n mod 64) in *.
  replace (2 ^ k - 1) with (Z.ones k) by (rewrite Z.ones_equiv; lia). rewrite Z.land_ones by lia. rewrite Z.ones_equiv. pose proof (Z.mod_pos_bound now (2 ^ k)) as Hb.
  assert (0 < 2 ^ k) by (apply Z.pow_pos_nonneg; lia). lia.
Qed.

(** [seen]: the offsets tried so far. *)
Lemma skip_occupied_spec n items fuel : forall seen ts, 0 <= ts <= ts_mask n -> NoDup seen ->
  (forall u, u ∈ seen -> 0 <= u < ts /\ occupied items (ts_to_ip n u) = true) -> (length seen + fuel)%nat = S (length items) ->
  exists ip, skip_occupied fuel n items ts (ts_to_ip n ts) = Some ip /\ fake_pick n items ts ip.
Proof.
  induction fuel as [|fuel IH]; intros seen ts Ht Hn Hs Hl.
  - exfalso. assert (Hle : (length seen <= length items)%nat); [|lia]. rewrite <- (length_map (ts_to_ip n) seen), <- (length_map snd items).
    apply List.NoDup_incl_length.
    + apply NoDup_ListNoDup. apply NoDup_fmap_2_strong; [|done]. intros u v Hu Hv E. destruct (Hs u Hu) as [? _], (Hs v Hv) as [? _]. apply (ts_to_ip_inj n); [lia|lia|done].
    + intros ip Hip. apply in_map_iff in Hip as (u & <- & Hu). apply list_elem_of_In in Hu. destruct (Hs u Hu) as [_ Ho]. apply occupied_spec in Ho as [d Hd].
      apply in_map_iff. exists (d, ts_to_ip n u). split; [done|by apply list_elem_of_In].
  - cbn [skip_occupied]. destruct (occupied items (ts_to_ip n ts)) eqn:Eo.
    + rewrite next_ts by done. destruct (Z.eqb_spec ts (ts_mask n)) as [Em|Hne].
      * rewrite ts_to_ip_0. rewrite bool_decide_true by done. exists (net_network n). split; [done|]. right. split; [done|]. intros u Hu. by replace u with ts by lia.
      * assert (Hnet : ts_to_ip n (ts + 1) <> net_network n). { rewrite <- (ts_to_ip_0 n). intros E. apply ts_to_ip_inj in E; lia. }
        rewrite bool_decide_false by done. destruct (IH (ts :: seen) (ts + 1)) as (ip & E & Hp); [lia| | |cbn [length]; lia|].
        -- apply NoDup_cons. split; [|done]. intros Hin. apply Hs in Hin. lia.
        -- intros u. rewrite elem_of_cons. intros [->|Hu]; [split; [lia|done]|]. destruct (Hs u Hu). split; [lia|done].
        -- exists ip. split; [done|]. assert (Hall : forall u w, ts + 1 <= w -> (forall v, ts + 1 <= v < w -> occupied items (ts_to_ip n v) = true) -> ts <= u < w -> occupied items (ts_to_ip n u) = true).
           { intros u w _ Hv Hu. destruct (decide (u = ts)) as [->|]; [done|apply Hv; lia]. }
           destruct Hp as [(t & Ht1 & -> & Hf & Hb)|[-> Hb]]; [left; exists t|right]; (split; [lia || done|]).
           ++ split; [done|]. split; [done|]. intros u Hu. apply (Hall u t); [lia|done|lia].
           ++ intros u Hu. apply (Hall u (ts_mask n + 1)); [lia|intros v Hv; apply Hb; lia|lia].
    + exists (ts_to_ip n ts). split; [done|]. left. exists ts. split; [lia|]. split; [done|]. split; [done|]. lia.
Qed.

Lemma fake_pick_pool n items ts ip : 0 <= ts -> fake_pick n items ts ip -> exists t, 0 <= t <= ts_mask n /\ ip = ts_to_ip n t.
Proof.
  intros Ht [(t & Hr & -> & _)|[-> _]]; [exists t; split; [lia|done]|]. exists 0. destruct (mask_range n) as [Hm _]. split; [lia|]. by rewrite ts_to_ip_0.
Qed.
End search.

(** * The holder *)

Section holder.
Context `{!IpNetOps, !IpNetLaws} `{!LruOps bytes IpAddr, !LruLaws bytes IpAddr}.
Implicit Types (h : Holder) (d : bytes) (ip : IpAddr).

Definition items h : list (bytes * IpAddr) := lru_items (domain_to_ip h).

Definition holder_ok h : Prop :=
  NoDup (items h).*1 /\ 1 <= lru_cap (domain_to_ip h) /\ zlen (items h) <= lru_cap (domain_to_ip h) /\
  (forall d ip, (d, ip) ∈ items h -> exists t, 0 <= t <= ts_mask (ip_range h) /\ ip = ts_to_ip (ip_range h) t) /\
  (forall d d' ip, (d, ip) ∈ items h -> (d', ip) ∈ items h -> d = d' \/ ip = net_network (ip_range h)).

Lemma initialize_ok cidr size h0 h : 0 <= size -> initialize_with cidr size h0 = (Ok tt, h) ->
  holder_ok h /\ items h = [] /\ lru_cap (domain_to_ip h) = Z.max 1 size.
Proof.
  intros Hs. unfold initialize_with. destruct (net_parse cidr) as [|range]; [done|]. destruct (_ && _); [done|]. intros [= <-].
  assert (Hc : lru_cap (lru_new (if size =? 0 then 1 else size)) = Z.max 1 size) by (rewrite lru_new_cap; destruct (Z.eqb_spec size 0); lia).
  unfold holder_ok, items. cbn [domain_to_ip ip_range]. rewrite lru_new_items, Hc. split; [|done]. split; [constructor|]. split; [lia|]. split; [zlia|].
  split; [intros d ip Hin|intros d d' ip Hin]; by apply elem_of_nil in Hin.
Qed.

Lemma ztake_in {A} (x : A) n l : x ∈ ztake n l -> x ∈ l.
Proof. intros Hx. rewrite <- (ztake_drop n l). apply elem_of_app. by left. Qed.

(** One request: what is answered and what is kept. *)
Lemma get_spec h d now : holder_ok h -> 0 <= now -> exists ip h',
  Holder_get_fake_ip_for_domain d now h = Some ([ip], h') /\ ip_range h' = ip_range h /\ lru_cap (domain_to_ip h') = lru_cap (domain_to_ip h) /\ holder_ok h' /\
  head (items h') = Some (d, ip) /\
  match alist_get d (items h) with
  | Some ip' => ip = ip' /\ items h' = (d, ip) :: alist_del d (items h)
  | None => fake_pick (ip_range h) (items h) (Z.land now (ts_mask (ip_range h))) ip /\ items h' = ztake (lru_cap (domain_to_ip h)) ((d, ip) :: items h)
  end.
Proof.
  intros (Hn & Hc & Hl & Hp & Hu) Hnow. unfold Holder_get_fake_ip_for_domain. destruct (lru_get d (domain_to_ip h)) as [found entries] eqn:E.
  pose proof (lru_get_value d (domain_to_ip h)) as Ev. pose proof (lru_get_items d (domain_to_ip h)) as Ei. pose proof (lru_get_cap d (domain_to_ip h)) as Ec.
  rewrite E in Ev, Ei, Ec. cbn [fst snd] in *. fold (items h) in Ev, Ei. rewrite Ev. destruct (alist_get d (items h)) as [ip|] eqn:Eg.
  - exists ip, (mkHolder entries (ip_range h) (h_config h)). split; [done|]. split; [done|]. split; [done|].
    assert (Ei' : items (mkHolder entries (ip_range h) (h_config h)) = alist_touch d (items h)) by exact Ei. unfold holder_ok. rewrite Ei'. cbn [domain_to_ip ip_range]. rewrite Ec.
    destruct (alist_touch_keys d (items h) Hn) as [Ht1 Ht2]. split; [split; [done|split; [done|split; [lia|split]]]|unfold alist_touch; by rewrite Eg].
    + intros d1 ip1. rewrite alist_touch_in by done. apply Hp.
    + intros d1 d2 ip1. rewrite !alist_touch_in by done. apply Hu.
  - assert (Et : alist_touch d (items h) = items h) by (unfold alist_touch; by rewrite Eg). rewrite Ei, Et.
    pose proof (first_ts (ip_range h) now Hnow) as Hts. set (ts := Z.land now _) in *.
    destruct (skip_occupied_spec (ip_range h) (items h) (S (length (items h))) [] ts Hts) as (ip & Es & Hpick); [constructor|intros u Hu'; by apply elem_of_nil in Hu'|done|].
    rewrite Es. cbn [mbind option_bind]. exists ip, (mkHolder (lru_put d ip entries) (ip_range h) (h_config h)). split; [done|]. split; [done|].
    assert (Ei' : items (mkHolder (lru_put d ip entries) (ip_range h) (h_config h)) = ztake (lru_cap (domain_to_ip h)) ((d, ip) :: items h)).
    { unfold items at 1. cbn [domain_to_ip]. rewrite lru_put_items, Ec, Ei, Et, alist_del_none by done. done. }
    split; [cbn [domain_to_ip]; by rewrite lru_put_cap|]. split; [|split; [|by rewrite Ei']].
    + unfold holder_ok. rewrite Ei'. cbn [domain_to_ip ip_range]. rewrite lru_put_cap, Ec. split.
      * unfold ztake. rewrite fmap_take. eapply sublist_NoDup; [|apply sublist_take]. cbn [fmap list_fmap fst]. apply NoDup_cons. split; [|done].
        intros Hin. apply list_elem_of_fmap in Hin as [[d' v] [Ed Hin]]. cbn in Ed. subst d'. by apply (alist_get_none d v (items h)).
      * split; [done|]. split; [rewrite zlen_take; lia|]. split.
        -- intros d1 ip1 Hin%ztake_in. rewrite elem_of_cons in Hin. destruct Hin as [[= -> ->]|Hin]; [|by eapply Hp]. eapply fake_pick_pool; [|done]. lia.
        -- assert (Hnew : forall d1 ip1, (d1, ip1) ∈ items h -> ip1 = ip -> ip = net_network (ip_range h)).
           { intros d1 ip1 Hin ->. destruct Hpick as [(t & _ & _ & Hfree & _)|[-> _]]; [|done]. exfalso. assert (Hocc : occupied (items h) ip = true) by (apply occupied_spec; by exists d1). congruence. }
           intros d1 d2 ip1 H1%ztake_in H2%ztake_in. rewrite elem_of_cons in H1, H2. destruct H1 as [E1|H1], H2 as [E2|H2]; simplify_eq.
           ++ by left.
           ++ right. by eapply Hnew.
           ++ right. by eapply Hnew.
           ++ by apply (Hu d1 d2 ip1).
    + rewrite Ei', ztake_cons by lia. done.
Qed.

(** The reverse lookup: the entry used last among those with the address. *)
Lemma reverse_in h ip d : Holder_get_domain_from_fake_dns h ip = Some d -> (d, ip) ∈ items h.
Proof.
  unfold Holder_get_domain_from_fake_dns. destruct (negb _); [done|]. fold (items h). destruct (List.find _ (items h)) as [[x v]|] eqn:E; [|done]. intros [= <-].
  apply List.find_some in E as [Hin Hv]. apply bool_decide_eq_true in Hv. cbn in *. subst. by apply list_elem_of_In.
Qed.

Lemma entries_in_pool h d ip : holder_ok h -> (d, ip) ∈ items h -> Holder_is_ip_in_pool h ip = true.
Proof. intros (_ & _ & _ & Hp & _) Hin. destruct (Hp d ip Hin) as (t & Ht & ->). by apply ts_to_ip_in_pool. Qed.

Lemma reverse_found h d ip : holder_ok h -> (d, ip) ∈ items h -> is_Some (Holder_get_domain_from_fake_dns h ip).
Proof.
  intros Hok Hin. unfold Holder_get_domain_from_fake_dns. rewrite (entries_in_pool h d ip Hok Hin). cbn [negb]. fold (items h). destruct (List.find _ (items h)) as [[x v]|] eqn:E; [by eexists|].
  pose proof (List.find_none _ _ E (d, ip) ltac:(by apply list_elem_of_In)) as Hf. by apply bool_decide_eq_false in Hf.
Qed.

Lemma reverse_exact h d ip : holder_ok h -> ip <> net_network (ip_range h) -> Holder_get_domain_from_fake_dns h ip = Some d <-> (d, ip) ∈ items h.
Proof.
  intros Hok Hne. split; [apply reverse_in|]. intros Hin. destruct (reverse_found h d ip Hok Hin) as [x Ex]. apply reverse_in in Ex as Hx.
  destruct Hok as (_ & _ & _ & _ & Hu). destruct (Hu d x ip Hin Hx) as [->|]; done.
Qed.

Lemma reverse_head h d ip : holder_ok h -> head (items h) = Some (d, ip) -> Holder_get_domain_from_fake_dns h ip = Some d.
Proof.
  intros Hok Hh. destruct (items h) as [|e l] eqn:Ei; [done|]. injection Hh as ->. unfold Holder_get_domain_from_fake_dns.
  rewrite (entries_in_pool h d ip Hok) by (rewrite Ei; by left). cbn [negb]. fold (items h). rewrite Ei. cbn [List.find snd fst fmap option_fmap option_map]. by rewrite bool_decide_true.
Qed.

(** A run of requests: domains with the times they are asked at. *)
Fixpoint fake_run (reqs : list (bytes * Z)) h : option Holder :=
  match reqs with
  | [] => Some h
  | (d, now) :: reqs => '(_, h) ← Holder_get_fake_ip_for_domain d now h; fake_run reqs h
  end.

Lemma fake_run_ok reqs : forall h, holder_ok h -> Forall (fun r => 0 <= r.2) reqs ->
  exists h', fake_run reqs h = Some h' /\ holder_ok h' /\ ip_range h' = ip_range h /\ lru_cap (domain_to_ip h') = lru_cap (domain_to_ip h).
Proof.
  induction reqs as [|[d now] reqs IH]; intros h Hok Hr; [by exists h|]. apply Forall_cons_iff in Hr as [Hnow Hr]. cbn [fake_run snd] in *.
  destruct (get_spec h d now Hok Hnow) as (ip & h1 & E & Er & Ec & Hok1 & _). rewrite E. cbn [mbind option_bind]. destruct (IH h1 Hok1 Hr) as (h' & E' & Hok' & Er' & Ec').
  exists h'. rewrite E'. split; [done|]. split; [done|]. split; congruence.
Qed.

(** C28: fake DNS, after any run of requests on a holder that [initialize_with] accepted.
    Every request is answered, with one address.  At most [max 1 lru_size] domains have an
    address, each one of the pool; two domains share one only if it is the network
    address, and every other address leads back to exactly the domain that has it.  A
    domain that has an address is given it again, which forgets nobody; a new domain is
    given the first free address counting up from the clock, else the network address
    (even when that is taken and addresses below the clock are free), and becomes the
    newest entry, the entry used least recently giving way when the table is full.  What
    was just answered leads back to the domain, and asking again at once answers the
    same.  In a pool with 64 free bits (a /64) every domain has the network address. *)
Theorem fakedns_addresses cidr size h0 h1 reqs : 0 <= size -> initialize_with cidr size h0 = (Ok tt, h1) -> Forall (fun r => 0 <= r.2) reqs ->
  exists h, fake_run reqs h1 = Some h /\
    zlen (items h) <= Z.max 1 size /\
    (forall d ip, (d, ip) ∈ items h -> Holder_is_ip_in_pool h ip = true) /\
    (forall d d' ip, (d, ip) ∈ items h -> (d', ip) ∈ items h -> d = d' \/ ip = net_network (ip_range h)) /\
    (forall d ip, ip <> net_network (ip_range h) -> Holder_get_domain_from_fake_dns h ip = Some d <-> (d, ip) ∈ items h) /\
    (subnet_rooms (ip_range h) = 64 -> forall d ip, (d, ip) ∈ items h -> ip = net_network (ip_range h)) /\
    forall d now, 0 <= now -> exists ip h',
      Holder_get_fake_ip_for_domain d now h = Some ([ip], h') /\ Holder_is_ip_in_pool h' ip = true /\ Holder_get_domain_from_fake_dns h' ip = Some d /\
      (forall now', exists h'', Holder_get_fake_ip_for_domain d now' h' = Some ([ip], h'')) /\
      match alist_get d (items h) with
      | Some ip' => ip = ip' /\ items h' = (d, ip) :: alist_del d (items h)
      | None => fake_pick (ip_range h) (items h) (Z.land now (ts_mask (ip_range h))) ip /\ items h' = ztake (Z.max 1 size) ((d, ip) :: items h)
      end.
Proof.
  intros Hs Hi Hr. destruct (initialize_ok cidr size h0 h1 Hs Hi) as (Hok1 & _ & Hc1). destruct (fake_run_ok reqs h1 Hok1 Hr) as (h & E & Hok & Er & Ec). exists h.
  pose proof Hok as (Hn & Hc & Hl & Hp & Hu). split; [done|]. split; [congruence|]. split; [intros d ip; by apply entries_in_pool|]. split; [done|]. split; [intros d ip; by apply reverse_exact|]. split.
  - intros H64 d ip Hin. destruct (Hp d ip Hin) as (t & Ht & ->). unfold ts_mask in Ht. rewrite H64 in Ht. change (2 ^ (64 mod 64) - 1) with 0 in Ht. replace t with 0 by lia. apply ts_to_ip_0.
  - intros d now Hnow. destruct (get_spec h d now Hok Hnow) as (ip & h' & Eg & Er' & Ec' & Hok' & Hh & Hcase). exists ip, h'. split; [done|].
    assert (Hin : (d, ip) ∈ items h') by (destruct (items h'); [done|]; injection Hh as ->; by left). split; [by eapply entries_in_pool|]. split; [by apply reverse_head|]. split.
    + intros now'. unfold Holder_get_fake_ip_for_domain. destruct (lru_get d (domain_to_ip h')) as [found entries] eqn:El. pose proof (lru_get_value d (domain_to_ip h')) as Ev. rewrite El in Ev. cbn [fst] in Ev.
      fold (items h') in Ev. destruct (items h') as [|e l]; [done|]. injection Hh as ->. unfold alist_get in Ev. cbn [List.find fst] in Ev. rewrite bool_decide_true in Ev by done. cbn in Ev. rewrite Ev. by eexists.
    + rewrite <- Hc1, <- Ec. exact Hcase.
Qed.
End holder.
