(* ===== verification/DnsCache.v ===== *)
(** The cache of answers ([xray-app-dns/src/cache_controller.rs]) and the queries through
    it with their joining of equal queries in flight ([nameserver/cached.rs]).

    The locks are not modelled, each operation is one step; what a server answers
    ([send_query]) is an argument.  A broadcast channel is a number; [cc_events] are the
    events sent to the subscribers. *)
From Stdlib Require Import String.
From stdpp Require Import base tactics option numbers list gmap.
From S2P Require Import Prelude Bytes NetTypes StrMatch DnsCommon.

Definition MIN_SIZE_FOR_EMPTY_REBUILD : Z := 512.
Definition SHRINK_ABSOLUTE_THRESHOLD : Z := 10240.
(** The double [0.65]. *)
Definition SHRINK_RATIO_THRESHOLD : Z * Z := (5854679515581645, 9007199254740992).
Definition CLEANUP_INTERVAL : Z := 300 * NANOS.

Inductive CacheEvent : Type := EventRecord (domain : bytes) (is_v4 : bool) (record : IpRecord).

Definition SfKey : Type := bytes * bool * bool.

Record CacheController : Type := mkCacheController {
  cc_name : bytes;
  disable_cache : bool;
  serve_stale : bool;
  serve_expired_ttl_secs : Z;
  negative_ttl_secs : Z;
  cc_ips : gmap bytes DnsRecord;
  cc_high_watermark : Z;
  cc_events : list CacheEvent;
  single_flight : gmap SfKey nat
}.

(** [as i32] *)
Definition as_i32 (x : Z) : Z := if x <? 2147483648 then x else x - 4294967296.
(** The negation of an [i32], wrapping as in a release build. *)
Definition neg_i32 (x : Z) : Z := if x =? -2147483648 then x else - x.

Definition CacheController_new (name : bytes) (disable_cache serve_stale : bool) (serve_expired_ttl negative_ttl_secs : Z) : CacheController :=
  mkCacheController name disable_cache serve_stale (neg_i32 (as_i32 serve_expired_ttl)) negative_ttl_secs ∅ 0 [] ∅.

Definition set_ips (ips : gmap bytes DnsRecord) (high : Z) (c : CacheController) : CacheController :=
  mkCacheController (cc_name c) (disable_cache c) (serve_stale c) (serve_expired_ttl_secs c) (negative_ttl_secs c) ips high (cc_events c) (single_flight c).
Definition set_single_flight (sf : gmap SfKey nat) (c : CacheController) : CacheController :=
  mkCacheController (cc_name c) (disable_cache c) (serve_stale c) (serve_expired_ttl_secs c) (negative_ttl_secs c) (cc_ips c) (cc_high_watermark c) (cc_events c) sf.
Definition send_event (e : CacheEvent) (c : CacheController) : CacheController :=
  mkCacheController (cc_name c) (disable_cache c) (serve_stale c) (serve_expired_ttl_secs c) (negative_ttl_secs c) (cc_ips c) (cc_high_watermark c) (cc_events c ++ [e]) (single_flight c).

Definition CacheController_len (c : CacheController) : Z := Z.of_nat (size (cc_ips c)).
Definition CacheController_is_empty (c : CacheController) : bool := bool_decide (cc_ips c = ∅).

Definition find_records (fqdn : bytes) (c : CacheController) : option DnsRecord := cc_ips c !! fqdn.

Definition set_family (is_v4 : bool) (r : option IpRecord) (rec : DnsRecord) : DnsRecord :=
  if is_v4 then mkDnsRecord r (rec_aaaa rec) else mkDnsRecord (rec_a rec) r.

Definition upsert (fqdn : bytes) (is_v4 : bool) (record : IpRecord) (c : CacheController) : CacheController :=
  if disable_cache c then c
  else set_ips (<[fqdn := set_family is_v4 (Some record) (default DnsRecord_default (cc_ips c !! fqdn))]> (cc_ips c)) (cc_high_watermark c) c.

Definition effective_now (c : CacheController) (now : Z) : Z :=
  if serve_stale c && negb (serve_expired_ttl_secs c =? 0) then now - Z.abs (serve_expired_ttl_secs c) * NANOS else now.

(** [is_some_and(|r| r.expire < effective_now)] *)
Definition expired_at (now : Z) (r : option IpRecord) : bool := match r with Some r => ir_expire r <? now | None => false end.

(** The keys come in the order in which the map happens to list them. *)
Definition collect_expired_keys (now : Z) (c : CacheController) : list bytes :=
  let effective_now := effective_now c now in
  map fst (List.filter (fun e => expired_at effective_now (rec_a e.2) || expired_at effective_now (rec_aaaa e.2)) (map_to_list (cc_ips c))).

(** The loop over the expired keys. *)
Fixpoint drop_expired (effective_now : Z) (keys : list bytes) (ips : gmap bytes DnsRecord) : gmap bytes DnsRecord :=
  match keys with
  | [] => ips
  | domain :: keys =>
      match ips !! domain with
      | None => drop_expired effective_now keys ips
      | Some rec =>
          let a_expired := expired_at effective_now (rec_a rec) in
          let aaaa_expired := expired_at effective_now (rec_aaaa rec) in
          if a_expired || aaaa_expired then
            let rec := mkDnsRecord (if a_expired then None else rec_a rec) (if aaaa_expired then None else rec_aaaa rec) in
            drop_expired effective_now keys (match rec_a rec, rec_aaaa rec with None, None => delete domain ips | _, _ => <[domain := rec]> ips end)
          else drop_expired effective_now keys ips
      end
  end.

(** [(reduction as f64) > (high as f64) * 0.65] *)
Definition over_ratio (reduction high : Z) : bool :=
  let '(rn, rd) := f64_nearest reduction 1 in
  let '(hn, hd) := f64_nearest high 1 in
  let '(pn, pd) := f64_nearest (hn * SHRINK_RATIO_THRESHOLD.1) (hd * SHRINK_RATIO_THRESHOLD.2) in
  pn * rd <? rn * pd.

Definition cleanup_and_maybe_shrink (expired_keys : list bytes) (now : Z) (c : CacheController) : bool * CacheController :=
  let len_before := Z.of_nat (size (cc_ips c)) in
  let high := if cc_high_watermark c <? len_before then len_before else cc_high_watermark c in
  let ips := drop_expired (effective_now c now) expired_keys (cc_ips c) in
  let len_after := Z.of_nat (size ips) in
  if len_after =? 0 then
    if MIN_SIZE_FOR_EMPTY_REBUILD <=? high then (true, set_ips ∅ 0 c) else (false, set_ips ips high c)
  else
    let reduction := Z.max 0 (high - len_after) in
    ((SHRINK_ABSOLUTE_THRESHOLD <? reduction) && over_ratio reduction high, set_ips ips high c).

Definition run_cleanup (now : Z) (c : CacheController) : bool * bool * CacheController :=
  let expired := collect_expired_keys now c in
  let '(shrunk, c) := cleanup_and_maybe_shrink expired now c in
  (negb (bool_decide (expired = [])), shrunk, c).

Definition option_enables (o : IpOption) : bool * bool := (ipv4_enable o, ipv6_enable o).

(** * Queries through the cache *)

Record QueryOutcome : Type := mkQueryOutcome { rec_v4 : option IpRecord; rec_v6 : option IpRecord; oc_errors : list DnsError }.

(** [Clone]: the errors are not copied. *)
Definition QueryOutcome_clone (o : QueryOutcome) : QueryOutcome := mkQueryOutcome (rec_v4 o) (rec_v6 o) [].

(** The loop of [stale_result]. *)
Fixpoint stale_loop (now : Z) (families : list (bool * option IpRecord)) (all_ips : list IpAddr) (ttl : Z) : option (list IpAddr * Z) :=
  match families with
  | [] => if bool_decide (all_ips = []) then None else Some (all_ips, ttl)
  | (enabled, r) :: families =>
      if negb enabled then stale_loop now families all_ips ttl
      else
        r ← r;
        if negb (ir_rcode r =? NO_ERROR) || bool_decide (ir_ips r = []) then None
        else stale_loop now families (all_ips ++ ir_ips r) (Z.min ttl (raw_ttl_seconds (ir_expire r) now))
  end.

Definition stale_result (rec : DnsRecord) (o : IpOption) (now : Z) : option (list IpAddr * Z) :=
  stale_loop now [(ipv4_enable o, rec_a rec); (ipv6_enable o, rec_aaaa rec)] [] I32_MAX.

(** What the cache says of a query: answered, answered with what is past its time (and
    the server asked in the background, [pull]), or nothing. *)
Inductive CacheAnswer : Type :=
| CacheHit (r : result DnsError (list IpAddr * Z))
| CacheStale (ips : list IpAddr)
| CacheMiss.

Definition query_cache (fqdn : bytes) (o : IpOption) (now : Z) (c : CacheController) : CacheAnswer :=
  if disable_cache c then CacheMiss
  else
    match find_records fqdn c with
    | None => CacheMiss
    | Some rec =>
        let '(ips, ttl, err) := merge_records o (rec_a rec) (rec_aaaa rec) now in
        if bool_decide (err = Some RecordNotFound) then CacheMiss
        else if 0 <? ttl then CacheHit (match err with None => Ok (ips, ttl) | Some e => Err e end)
        else if serve_stale c && ((serve_expired_ttl_secs c =? 0) || (serve_expired_ttl_secs c <? ttl)) then
          match stale_result rec o now with Some (sips, _) => CacheStale sips | None => CacheMiss end
        else CacheMiss
    end.

(** [fetch], its beginning: another query with the key is in flight, or this one leads;
    [tx] is the channel it makes. *)
Inductive FetchRole : Type := FetchWaiter (tx : nat) | FetchLeader (tx : nat).

Definition sf_key (fqdn : bytes) (o : IpOption) : SfKey := (fqdn, ipv4_enable o, ipv6_enable o).

Definition fetch_join (key : SfKey) (tx : nat) (sf : gmap SfKey nat) : FetchRole * gmap SfKey nat :=
  match sf !! key with
  | Some tx => (FetchWaiter tx, sf)
  | None => (FetchLeader tx, <[key := tx]> sf)
  end.

(** [locked]: [try_lock] finds the lock taken. *)
Definition remove_sf_entry (key : SfKey) (tx : nat) (locked : bool) (sf : gmap SfKey nat) : gmap SfKey nat :=
  if locked then sf else if bool_decide (sf !! key = Some tx) then delete key sf else sf.

(** The outcome is stored. *)
Definition store_record (fqdn : bytes) (is_v4 : bool) (rec : option IpRecord) (c : CacheController) : CacheController :=
  match rec with Some rec => upsert fqdn is_v4 rec (send_event (EventRecord fqdn is_v4 rec) c) | None => c end.

(** The errors of the server where there are some, else what merging says. *)
Definition outcome_error (e : DnsError) (errs : list DnsError) : DnsError :=
  match errs with
  | [] => e
  | [e1] => e1
  | e0 :: rest => if forallb (fun x => same_dns_error_kind x e0) rest then e0 else SystemResolve (join_errors errs)
  end.

(** [fetch], its end. *)
Definition fetch_finish (fqdn : bytes) (o : IpOption) (outcome : QueryOutcome) (now : Z) (c : CacheController) : result DnsError (list IpAddr * Z) * CacheController :=
  let c := store_record fqdn false (rec_v6 outcome) (store_record fqdn true (rec_v4 outcome) c) in
  let '(ips, ttl, err) := merge_records o (rec_v4 outcome) (rec_v6 outcome) now in
  (match err with
   | Some e => Err (outcome_error e (oc_errors outcome))
   | None => Ok (ips, if 0 <? ttl then ttl else 1)
   end, c).

(** [fetch] of a leader that nothing disturbs. *)
Definition fetch (fqdn : bytes) (o : IpOption) (outcome : QueryOutcome) (now : Z) (tx : nat) (c : CacheController) : result DnsError (list IpAddr * Z) * CacheController :=
  let key := sf_key fqdn o in
  let '(_, sf) := fetch_join key tx (single_flight c) in
  fetch_finish fqdn o outcome now (set_single_flight (remove_sf_entry key tx false sf) c).

(** [query_ip]: [now] is when the cache is read, [later] when the outcome is there; the
    boolean says that [pull] asks in the background. *)
Definition query_ip (domain : bytes) (o : IpOption) (now : Z) (outcome : QueryOutcome) (later : Z) (tx : nat) (c : CacheController)
    : result DnsError (list IpAddr * Z) * bool * CacheController :=
  match query_cache (fqdn domain) o now c with
  | CacheHit r => (r, false, c)
  | CacheStale ips => (Ok (ips, 1), true, c)
  | CacheMiss => let '(r, c) := fetch (fqdn domain) o outcome later tx c in (r, false, c)
  end.

(** [pull]: [outcome] is [None] when its time is out. *)
Definition pull_stale (fqdn : bytes) (o : IpOption) (outcome : option QueryOutcome) (now : Z) (tx : nat) (c : CacheController) : CacheController :=
  match outcome with Some outcome => (fetch fqdn o outcome now tx c).2 | None => c end.

(** * Queries in flight

    The fetches running, each with its key and channel. *)

Record Flights : Type := mkFlights { fl_map : gmap SfKey nat; fl_next : nat; fl_leaders : list (SfKey * nat); fl_waiters : list (SfKey * nat) }.

Definition flights_start : Flights := mkFlights ∅ 0 [] [].

Inductive FlightEvent : Type :=
| FlFetch (key : SfKey)
| FlLeaderEnds (key : SfKey) (tx : nat) (locked : bool)
| FlWaiterEnds (key : SfKey) (tx : nat).

#[export] Instance flight_eq_dec : EqDecision (SfKey * nat).
Proof. solve_decision. Defined.

Fixpoint remove_first (x : SfKey * nat) (l : list (SfKey * nat)) : list (SfKey * nat) :=
  match l with [] => [] | y :: l => if bool_decide (y = x) then l else y :: remove_first x l end.

(** A leader that ends, however it does, drops its guard. *)
Definition flight_step (e : FlightEvent) (f : Flights) : Flights :=
  match e with
  | FlFetch key =>
      match fetch_join key (fl_next f) (fl_map f) with
      | (FetchWaiter tx, sf) => mkFlights sf (fl_next f) (fl_leaders f) ((key, tx) :: fl_waiters f)
      | (FetchLeader tx, sf) => mkFlights sf (S (fl_next f)) ((key, tx) :: fl_leaders f) (fl_waiters f)
      end
  | FlLeaderEnds key tx locked =>
      if bool_decide ((key, tx) ∈ fl_leaders f) then
        mkFlights (remove_sf_entry key tx locked (fl_map f)) (fl_next f) (remove_first (key, tx) (fl_leaders f)) (fl_waiters f)
      else f
  | FlWaiterEnds key tx => mkFlights (fl_map f) (fl_next f) (fl_leaders f) (remove_first (key, tx) (fl_waiters f))
  end.
