(* ===== verification/DnsCacheProps.v ===== *)
(** The cache of answers: cleaning it is not observable, and what it answers is what was
    stored last and is in time; queries in flight. *)
From Stdlib Require Import String.
From stdpp Require Import base tactics option numbers list gmap.
From S2P Require Import Prelude Bytes NetTypes StrMatch DnsCommon DnsCache.

(** * A history of the cache

    A cleanup works on keys collected earlier, in whatever order and between whatever
    other operations. *)

Inductive CacheOp : Type :=
| CoStore (fqdn : bytes) (is_v4 : bool) (record : IpRecord)
| CoCleanup (keys : list bytes) (now : Z).

Definition cache_op (c : CacheController) (op : CacheOp) : CacheController :=
  match op with
  | CoStore fqdn is_v4 record => upsert fqdn is_v4 record c
  | CoCleanup keys now => (cleanup_and_maybe_shrink keys now c).2
  end.
Definition run_cache (ops : list CacheOp) (c : CacheController) : CacheController := fold_left cache_op ops c.

(** The specification: what was stored last, with nothing ever cleaned. *)
Definition stored_op (fqdn : bytes) (is_v4 : bool) (acc : option IpRecord) (op : CacheOp) : option IpRecord :=
  match op with
  | CoStore f v record => if bool_decide (f = fqdn) && eqb v is_v4 then Some record else acc
  | CoCleanup _ _ => acc
  end.
Definition last_stored (ops : list CacheOp) (fqdn : bytes) (is_v4 : bool) : option IpRecord := fold_left (stored_op fqdn is_v4) ops None.

Definition cleaned_by (now : Z) (op : CacheOp) : Prop := match op with CoStore _ _ _ => True | CoCleanup _ t => t <= now end.

(** What a table with the records answers. *)
Definition query_records (stale : bool) (ttl_limit : Z) (o : IpOption) (r4 r6 : option IpRecord) (now : Z) : CacheAnswer :=
  let '(ips, ttl, err) := merge_records o r4 r6 now in
  if bool_decide (err = Some RecordNotFound) then CacheMiss
  else if 0 <? ttl then CacheHit (match err with None => Ok (ips, ttl) | Some e => Err e end)
  else if stale && ((ttl_limit =? 0) || (ttl_limit <? ttl)) then
    match stale_result (mkDnsRecord r4 r6) o now with Some (sips, _) => CacheStale sips | None => CacheMiss end
  else CacheMiss.

Definition family_of (is_v4 : bool) (r : DnsRecord) : option IpRecord := if is_v4 then rec_a r else rec_aaaa r.
Definition cached (c : CacheController) (fqdn : bytes) (is_v4 : bool) : option IpRecord := family_of is_v4 (default DnsRecord_default (cc_ips c !! fqdn)).

Lemma merge_nothing o now : IpOption_is_empty o = false -> (merge_records o None None now).2 = Some RecordNotFound.
Proof. unfold IpOption_is_empty. by destruct o as [[] [] fake]. Qed.

Lemma query_cached fqdn o now c : disable_cache c = false -> IpOption_is_empty o = false ->
  query_cache fqdn o now c = query_records (serve_stale c) (serve_expired_ttl_secs c) o (cached c fqdn true) (cached c fqdn false) now.
Proof.
  intros Hd Ho. unfold query_cache, query_records, cached, find_records. rewrite Hd. destruct (cc_ips c !! fqdn) as [[a aaaa]|]; [done|]. cbn [default from_option family_of DnsRecord_default rec_a rec_aaaa].
  pose proof (merge_nothing o now Ho) as Hm. destruct (merge_records o None None now) as [[ips ttl] err]. cbn [snd] in Hm. by rewrite bool_decide_true.
Qed.

(** ** Cleaning *)

Lemma expired_mono e e' r : e <= e' -> expired_at e r = true -> expired_at e' r = true.
Proof. destruct r as [r|]; [|done]. cbn. intros He Hr. apply Z.ltb_lt in Hr. apply Z.ltb_lt. lia. Qed.

Definition kept_or_expired (e : Z) (before after : option IpRecord) : Prop := after = before \/ (after = None /\ expired_at e before = true).

Lemma kept_trans e a b c : kept_or_expired e a b -> kept_or_expired e b c -> kept_or_expired e a c.
Proof. unfold kept_or_expired. intros [->|[-> Ha]] [->|[-> Hb]]; try tauto. Qed.

Lemma kept_clear e r : kept_or_expired e r (if expired_at e r then None else r).
Proof. unfold kept_or_expired. destruct (expired_at e r) eqn:E; tauto. Qed.

Lemma drop_expired_family e keys f v : forall ips,
  kept_or_expired e (family_of v (default DnsRecord_default (ips !! f))) (family_of v (default DnsRecord_default (drop_expired e keys ips !! f))).
Proof.
  induction keys as [|k keys IH]; intros ips; [by left|]. cbn [drop_expired]. destruct (ips !! k) as [rec|] eqn:E; [|apply IH]. destruct (expired_at e (rec_a rec) || expired_at e (rec_aaaa rec)); [|apply IH].
  set (rec' := mkDnsRecord (if expired_at e (rec_a rec) then None else rec_a rec) (if expired_at e (rec_aaaa rec) then None else rec_aaaa rec)).
  eapply kept_trans; [|apply IH]. destruct (decide (f = k)) as [->|Hne].
  - rewrite E. cbn [default from_option]. assert (Hr : kept_or_expired e (family_of v rec) (family_of v rec')) by (destruct v; apply kept_clear).
    assert (Eq : family_of v (default DnsRecord_default (match rec_a rec', rec_aaaa rec' with None, None => delete k ips | _, _ => <[k:=rec']> ips end !! k)) = family_of v rec'); [|by rewrite Eq].
    clearbody rec'. destruct rec' as [[a|] [aaaa|]]; cbn [rec_a rec_aaaa]; rewrite ?lookup_insert_eq, ?lookup_delete_eq; done.
  - left. clearbody rec'. destruct rec' as [[a|] [aaaa|]]; cbn [rec_a rec_aaaa]; by rewrite ?lookup_insert_ne, ?lookup_delete_ne by done.
Qed.

Lemma cleanup_ips keys now c : exists high, (cleanup_and_maybe_shrink keys now c).2 = set_ips (drop_expired (effective_now c now) keys (cc_ips c)) high c.
Proof.
  unfold cleanup_and_maybe_shrink. set (ips := drop_expired _ _ _). set (high := if _ <? _ then _ else _). destruct (Z.eqb_spec (Z.of_nat (size ips)) 0) as [E|E]; [|by exists high].
  destruct (MIN_SIZE_FOR_EMPTY_REBUILD <=? high); [|by exists high]. exists 0. cbn [snd]. f_equal. symmetry. apply map_size_empty_inv. lia.
Qed.

(** What does not change. *)
Definition same_settings (c c' : CacheController) : Prop :=
  disable_cache c' = disable_cache c /\ serve_stale c' = serve_stale c /\ serve_expired_ttl_secs c' = serve_expired_ttl_secs c.

Lemma run_settings ops c : same_settings c (run_cache ops c).
Proof.
  induction ops as [|op ops IH] using rev_ind; [done|]. unfold run_cache. rewrite fold_left_app. cbn [fold_left]. fold (run_cache ops c). destruct op as [f v r|keys now]; cbn [cache_op].
  - unfold upsert. by destruct (disable_cache (run_cache ops c)).
  - destruct (cleanup_ips keys now (run_cache ops c)) as [high ->]. done.
Qed.

Lemma effective_settings c c' now : same_settings c c' -> effective_now c' now = effective_now c now.
Proof. intros (_ & Hs & Ht). unfold effective_now. by rewrite Hs, Ht. Qed.

Lemma effective_mono c now now' : now <= now' -> effective_now c now <= effective_now c now'.
Proof. unfold effective_now. destruct (_ && _); lia. Qed.

(** A table in use differs from what was stored by records past their time only. *)
Lemma run_kept ops c now f v : disable_cache c = false -> cc_ips c = ∅ -> Forall (cleaned_by now) ops ->
  kept_or_expired (effective_now c now) (last_stored ops f v) (cached (run_cache ops c) f v).
Proof.
  intros Hd He. induction ops as [|op ops IH] using rev_ind; intros Hops.
  - unfold run_cache, last_stored, cached. cbn [fold_left]. rewrite He, lookup_empty. left. by destruct v.
  - apply Forall_app in Hops as [Hops Hop]. apply Forall_cons_iff in Hop as [Hop _]. specialize (IH Hops). unfold run_cache, last_stored in *. rewrite !fold_left_app. cbn [fold_left].
    fold (run_cache ops c) in *. pose proof (run_settings ops c) as Hset. destruct op as [f' v' r|keys t]; cbn [cache_op stored_op].
    + unfold upsert. destruct Hset as [-> _]. rewrite Hd. unfold cached. cbn [cc_ips set_ips]. destruct (bool_decide_reflect (f' = f)) as [->|Hne]; cbn [andb].
      * rewrite lookup_insert_eq. cbn [default from_option]. destruct v, v'; cbn [eqb family_of set_family rec_a rec_aaaa]; try (by left); apply IH.
      * rewrite lookup_insert_ne by done. apply IH.
    + destruct (cleanup_ips keys t (run_cache ops c)) as [high ->]. unfold cached. cbn [cc_ips set_ips]. eapply kept_trans; [exact IH|].
      pose proof (drop_expired_family (effective_now (run_cache ops c) t) keys f v (cc_ips (run_cache ops c))) as [Hk|[Hk Hx]]; [by left|]. right. split; [done|].
      eapply expired_mono; [|exact Hx]. rewrite (effective_settings c) by done. by apply effective_mono.
Qed.

(** ** What is answered *)

Section answers.
Variables (name : bytes) (stale : bool) (ttl neg : Z).
Hypothesis Httl : 0 <= ttl <= I32_MAX.
Hypothesis Hstale : stale = true -> 0 < ttl.

Definition fresh_cache : CacheController := CacheController_new name false stale ttl neg.

Lemma fresh_limit : serve_expired_ttl_secs fresh_cache = - ttl.
Proof using Httl. cbn. unfold as_i32, neg_i32, I32_MAX in *. repeat zcase_goal; lia. Qed.

(** Past the time up to which it may be served. *)
Definition dead (now : Z) (r : option IpRecord) : Prop := r = None \/ expired_at (effective_now fresh_cache now) r = true.

Definition limit : Z := if stale then - ttl else 0.

Lemma dead_stale_by now r : dead now r -> stale_by limit now r.
Proof using Httl Hstale.
  intros [->|Hr]; [done|]. destruct r as [r|]; [|done]. cbn in Hr. apply Z.ltb_lt in Hr. unfold effective_now in Hr. rewrite fresh_limit in Hr. unfold limit. cbn [serve_stale fresh_cache CacheController_new] in Hr. cbn.
  destruct stale; cbn [andb] in Hr; [|apply raw_ttl_due; lia]. specialize (Hstale eq_refl). destruct (Z.eqb_spec (- ttl) 0); [lia|]. cbn [negb] in Hr. apply raw_ttl_overdue; [done|]. lia.
Qed.

Lemma query_dead o r4 r6 now : (ipv4_enable o = true /\ dead now r4) \/ (ipv6_enable o = true /\ dead now r6) -> query_records stale (- ttl) o r4 r6 now = CacheMiss.
Proof using Httl Hstale.
  intros Hd. assert (Hs : (ipv4_enable o = true /\ stale_by limit now r4) \/ (ipv6_enable o = true /\ stale_by limit now r6)) by (destruct Hd as [[? ?]|[? ?]]; [left|right]; (split; [done|by apply dead_stale_by])).
  apply merge_stale in Hs. unfold query_records. destruct (merge_records o r4 r6 now) as [[ips t] err]. cbn [fst snd] in Hs. destruct Hs as [->|Ht]; [by rewrite bool_decide_true|]. case_bool_decide; [done|].
  unfold limit in Ht. destruct (Z.ltb_spec 0 t); [destruct stale; lia|]. destruct stale; [|done]. specialize (Hstale eq_refl). destruct (Z.eqb_spec (- ttl) 0); [lia|]. destruct (Z.ltb_spec (- ttl) t); [lia|]. done.
Qed.

(** Records that differ where they are past their time only. *)
Lemma query_kept o now r4 r6 c4 c6 : kept_or_expired (effective_now fresh_cache now) r4 c4 -> kept_or_expired (effective_now fresh_cache now) r6 c6 ->
  query_records stale (- ttl) o c4 c6 now = query_records stale (- ttl) o r4 r6 now.
Proof using Httl Hstale.
  intros H4 H6. assert (Hoff : forall r4 c4 r6 c6, (ipv4_enable o = true -> c4 = r4) -> (ipv6_enable o = true -> c6 = r6) -> query_records stale (- ttl) o c4 c6 now = query_records stale (- ttl) o r4 r6 now).
  { clear. intros r4 c4 r6 c6 E4 E6. destruct o as [[] [] fake]; cbn [ipv4_enable ipv6_enable] in *; rewrite ?E4, ?E6 by done; done. }
  destruct (ipv4_enable o) eqn:O4, (ipv6_enable o) eqn:O6; destruct H4 as [->|[-> X4]], H6 as [->|[-> X6]]; try (apply Hoff; done);
    rewrite !query_dead by (unfold dead; rewrite ?O4, ?O6; tauto); done.
Qed.
End answers.

(** The stale answer is made of every family asked for. *)
Lemma stale_loop_spec o now r4 r6 sips t : stale_result (mkDnsRecord r4 r6) o now = Some (sips, t) -> exists rs,
  asked o r4 r6 = map Some rs /\ rs <> [] /\ sips = concat (map ir_ips rs) /\ Forall (fun r => ir_rcode r = NO_ERROR /\ ir_ips r <> []) rs.
Proof.
  unfold stale_result, asked. destruct o as [[] [] fake]; cbn [ipv4_enable ipv6_enable rec_a rec_aaaa stale_loop negb app].
  - destruct r4 as [r4|]; [|done]. cbn [mbind option_bind]. destruct (Z.eqb_spec (ir_rcode r4) NO_ERROR); [|done]. case_bool_decide as I4; [done|]. cbn [negb orb].
    destruct r6 as [r6|]; [|done]. cbn [mbind option_bind]. destruct (Z.eqb_spec (ir_rcode r6) NO_ERROR); [|done]. case_bool_decide as I6; [done|]. cbn [negb orb]. case_bool_decide; [done|].
    intros [= <- <-]. exists [r4; r6]. cbn [map concat]. rewrite app_nil_r. split; [done|]. split; [done|]. split; [done|]. repeat (apply Forall_cons_iff; split; [done|]). constructor.
  - destruct r4 as [r4|]; [|done]. cbn [mbind option_bind]. destruct (Z.eqb_spec (ir_rcode r4) NO_ERROR); [|done]. case_bool_decide as I4; [done|]. cbn [negb orb].
    intros [= <- <-]. exists [r4]. cbn [map concat]. rewrite app_nil_r. split; [done|]. split; [done|]. split; [done|]. repeat (apply Forall_cons_iff; split; [done|]). constructor.
  - destruct r6 as [r6|]; [|done]. cbn [mbind option_bind]. destruct (Z.eqb_spec (ir_rcode r6) NO_ERROR); [|done]. case_bool_decide as I6; [done|]. cbn [negb orb].
    intros [= <- <-]. exists [r6]. cbn [map concat]. rewrite app_nil_r. split; [done|]. split; [done|]. split; [done|]. repeat (apply Forall_cons_iff; split; [done|]). constructor.
  - done.
Qed.

Lemma asked_all o r4 r6 : IpOption_is_empty o = false -> (exists rs, asked o r4 r6 = map Some rs /\ rs <> []) \/ (ipv4_enable o = true /\ r4 = None) \/ (ipv6_enable o = true /\ r6 = None).
Proof.
  unfold asked, IpOption_is_empty. destruct o as [[] [] fake]; cbn; intros Ho; try done.
  - destruct r4 as [r4|]; [|tauto]. destruct r6 as [r6|]; [|tauto]. left. by exists [r4; r6].
  - destruct r4 as [r4|]; [|tauto]. left. by exists [r4].
  - destruct r6 as [r6|]; [|tauto]. left. by exists [r6].
Qed.

Lemma asked_dead o r4 r6 rs r (P : option IpRecord -> Prop) : asked o r4 r6 = map Some rs -> r ∈ rs -> P (Some r) -> (ipv4_enable o = true /\ P r4) \/ (ipv6_enable o = true /\ P r6).
Proof.
  unfold asked. destruct o as [[] [] fake]; cbn; intros Ha Hin HP.
  - destruct rs as [|? [|? [|]]]; try done. injection Ha as -> ->. rewrite !elem_of_cons, elem_of_nil in Hin. destruct Hin as [->|[->|[]]]; tauto.
  - destruct rs as [|? [|]]; try done. injection Ha as ->. rewrite !elem_of_cons, elem_of_nil in Hin. destruct Hin as [->|[]]; tauto.
  - destruct rs as [|? [|]]; try done. injection Ha as ->. rewrite !elem_of_cons, elem_of_nil in Hin. destruct Hin as [->|[]]; tauto.
  - destruct rs; [by apply elem_of_nil in Hin|done].
Qed.


(** * Queries in flight *)

Definition run_flights (evs : list FlightEvent) (f : Flights) : Flights := fold_left (fun f e => flight_step e f) evs f.

Definition flights_ok (f : Flights) : Prop :=
  NoDup (fl_leaders f) /\ (forall key tx, (key, tx) ∈ fl_leaders f -> fl_map f !! key = Some tx) /\ (forall key tx, fl_map f !! key = Some tx -> (tx < fl_next f)%nat).

Lemma remove_first_in x y l : NoDup l -> y ∈ remove_first x l <-> y ∈ l /\ y <> x.
Proof.
  induction l as [|z l IH]; cbn [remove_first]; [rewrite elem_of_nil; tauto|]. intros [Hz Hl]%NoDup_cons. case_bool_decide as E.
  - subst. rewrite elem_of_cons. split; [intros Hy; split; [by right|by intros ->]|intros [[->|Hy] Hne]; done].
  - rewrite !elem_of_cons, IH by done. split; [intros [->|[Hy Hne]]; tauto|intros [[->|Hy] Hne]; tauto].
Qed.

Lemma remove_first_NoDup x l : NoDup l -> NoDup (remove_first x l).
Proof.
  induction l as [|z l IH]; cbn [remove_first]; [done|]. intros [Hz Hl]%NoDup_cons. case_bool_decide; [done|]. apply NoDup_cons. split; [|by apply IH]. rewrite remove_first_in by done. tauto.
Qed.

Lemma flight_step_ok e f : flights_ok f -> flights_ok (flight_step e f).
Proof.
  intros (Hn & Hl & Hm). destruct e as [key|key tx locked|key tx]; cbn [flight_step].
  - unfold fetch_join. destruct (fl_map f !! key) as [tx|] eqn:E; [done|]. split; [|split]; cbn [fl_leaders fl_map fl_next].
    + apply NoDup_cons. split; [|done]. intros Hin%Hl. congruence.
    + intros k t [[= -> ->]|Hin%Hl]%elem_of_cons; [apply lookup_insert_eq|]. rewrite lookup_insert_ne; [done|]. intros ->. congruence.
    + intros k t. destruct (decide (key = k)) as [->|Hne]; [rewrite lookup_insert_eq; intros [= <-]; lia|rewrite lookup_insert_ne by done; intros Hk%Hm; lia].
  - case_bool_decide as Hin; [|done]. apply Hl in Hin as Ekey. split; [|split]; cbn [fl_leaders fl_map fl_next].
    + by apply remove_first_NoDup.
    + intros k t. rewrite remove_first_in by done. intros [Hk Hne]. apply Hl in Hk as Ek. unfold remove_sf_entry. destruct locked; [done|]. rewrite bool_decide_true by done.
      rewrite lookup_delete_ne; [done|]. intros ->. congruence.
    + intros k t. unfold remove_sf_entry. destruct locked; [apply Hm|]. rewrite bool_decide_true by done. intros [_ Hk]%lookup_delete_Some. by eapply Hm.
  - done.
Qed.

Lemma run_flights_ok evs : forall f, flights_ok f -> flights_ok (run_flights evs f).
Proof. induction evs as [|e evs IH]; intros f Hf; [done|]. apply IH. by apply flight_step_ok. Qed.

Lemma flights_start_ok : flights_ok flights_start.
Proof. split; [constructor|]. split; [intros ? ? Hin; by apply elem_of_nil in Hin|intros key tx; cbn; by rewrite lookup_empty]. Qed.

(** An entry whose leader is gone. *)
Definition leaked (key : SfKey) (tx : nat) (f : Flights) : Prop := fl_map f !! key = Some tx /\ (key, tx) ∉ fl_leaders f.

Lemma leaked_step key tx e f : flights_ok f -> leaked key tx f -> leaked key tx (flight_step e f).
Proof.
  intros (Hn & Hl & Hm) [E Hlk]. unfold leaked. destruct e as [k|k t locked|k t]; cbn [flight_step]; [| |done].
  - unfold fetch_join. destruct (fl_map f !! k) as [t|] eqn:Ek; [done|]. cbn [fl_leaders fl_map]. rewrite lookup_insert_ne by congruence. split; [done|]. apply not_elem_of_cons. split; [|done]. intros [= -> ->]. congruence.
  - case_bool_decide as Hin; [|done]. cbn [fl_leaders fl_map]. apply Hl in Hin as Ek. assert (Hne : k <> key) by (intros ->; congruence). split.
    + unfold remove_sf_entry. destruct locked; [done|]. rewrite bool_decide_true by done. by rewrite lookup_delete_ne.
    + rewrite remove_first_in by done. tauto.
Qed.

Lemma leaked_run key tx evs : forall f, flights_ok f -> leaked key tx f -> flights_ok (run_flights evs f) /\ leaked key tx (run_flights evs f).
Proof. induction evs as [|e evs IH]; intros f Hok Hlk; [done|]. apply IH; [by apply flight_step_ok|by apply leaked_step]. Qed.

Definition unlocked (e : FlightEvent) : Prop := match e with FlLeaderEnds _ _ locked => locked = false | _ => True end.

(** C27: joining queries in flight, for any sequence of fetches and their ends.  At most
    one leader runs for a key, and its channel is the one in the map.  As long as every
    leader that ends finds the lock free, an entry always belongs to a running leader, so
    nobody waits on a channel that is never used or closed.  A leader whose [try_lock]
    fails leaves its entry behind, for good: from then on every fetch of that key is a
    waiter on that dead channel, whatever ends, and none ever leads again (the comment
    says that waiters clear such entries; none does). *)
Theorem dns_single_flight evs :
  let f := run_flights evs flights_start in
  (forall key tx, (key, tx) ∈ fl_leaders f -> fl_map f !! key = Some tx) /\
  (forall key tx tx', (key, tx) ∈ fl_leaders f -> (key, tx') ∈ fl_leaders f -> tx = tx') /\
  (Forall unlocked evs -> forall key tx, fl_map f !! key = Some tx -> (key, tx) ∈ fl_leaders f) /\
  (forall key tx, (key, tx) ∈ fl_leaders f -> leaked key tx (flight_step (FlLeaderEnds key tx true) f)) /\
  (forall key tx evs', leaked key tx f -> let f' := run_flights evs' f in
     fetch_join key (fl_next f') (fl_map f') = (FetchWaiter tx, fl_map f') /\ forall tx', (key, tx') ∉ fl_leaders f').
Proof.
  intros f. assert (Hok : flights_ok f) by apply run_flights_ok, flights_start_ok. pose proof Hok as (Hn & Hl & Hm). split; [done|]. split; [intros key tx tx' H1%Hl H2%Hl; congruence|]. split; [|split].
  - unfold f. clear. induction evs as [|e evs IH] using rev_ind; [intros _ key tx; cbn; by rewrite lookup_empty|]. intros [Hevs He]%Forall_app. apply Forall_cons_iff in He as [He _]. specialize (IH Hevs).
    unfold run_flights in *. rewrite fold_left_app. cbn [fold_left]. fold (run_flights evs flights_start) in *. pose proof (run_flights_ok evs _ flights_start_ok) as (Hn & Hl & Hm). set (f := run_flights evs flights_start) in *.
    intros key tx. destruct e as [k|k t locked|k t]; cbn [flight_step]; [| |apply IH].
    + unfold fetch_join. destruct (fl_map f !! k) eqn:Ek; [apply IH|]. cbn [fl_leaders fl_map]. rewrite elem_of_cons. destruct (decide (k = key)) as [->|Hne]; [rewrite lookup_insert_eq; intros [= <-]; by left|].
      rewrite lookup_insert_ne by done. intros Hk. right. by apply IH.
    + cbn in He. subst locked. case_bool_decide as Hin; [|apply IH]. apply Hl in Hin as Ek. cbn [fl_leaders fl_map remove_sf_entry]. rewrite bool_decide_true by done. intros [Hne Hk]%lookup_delete_Some.
      rewrite remove_first_in by done. split; [by apply IH|]. congruence.
  - intros key tx Hin. unfold leaked. cbn [flight_step]. rewrite bool_decide_true by done. cbn [fl_map fl_leaders remove_sf_entry]. split; [by apply Hl|]. rewrite remove_first_in by done. tauto.
  - intros key tx evs' Hlk f'. assert (Hf' : flights_ok f' /\ leaked key tx f').
    { by apply leaked_run. }
    destruct Hf' as [(_ & Hl' & _) [E Hnl]]. split; [unfold fetch_join; by rewrite E|]. intros tx' Hin. apply Hl' in Hin as E'. rewrite E in E'. by injection E' as ->.
Qed.
