(* ===== verification/DnsServer.v ===== *)
(** The DNS service ([xray-app-dns/src/server.rs]) with its static hosts ([hosts.rs]) and
    the clients it asks ([nameserver/mod.rs]).

    What a server answers is [sv_query_ip]; within one lookup a client is asked at most
    once.  [check_routes] is what probing the system's routes has found, [uuid_v4] the
    text of a random id.  The tasks of a parallel query end in an order that is an
    argument: [Some i], the query of client [i] has answered; [None], a task has
    panicked. *)
From Stdlib Require Import String.
From stdpp Require Import base tactics option numbers list gmap sorting.
From S2P Require Import Prelude Bytes NetTypes StrMatch DomainMatch Mph DomainRules IpMatch Balancing RouterCond DnsCommon.

Class DnsTexts `{!RegexOps} := { regex_error_display : Regex_Error -> bytes; uuid_v4 : bytes }.
Class Routes := { check_routes : bool * bool }.

(** * Static hosts *)

Record HostMapping : Type := mkHostMapping { hm_domain : bytes; hm_ips : list IpAddr; hm_proxied_domain : bytes; hm_matcher_rules : list (DomainType * bytes) }.

Inductive ResponseEntry : Type :=
| ReIp (ip : IpAddr)
| ReDomain (d : bytes)
| ReRCode (code : Z).

(** [str::parse::<u16>] *)
Fixpoint parse_digits (s : bytes) (acc : Z) : option Z :=
  match s with
  | [] => Some acc
  | c :: s => if (48 <=? c) && (c <=? 57) then let acc := acc * 10 + (c - 48) in if acc <? 65536 then parse_digits s acc else None else None
  end.
Definition parse_u16 (s : bytes) : option Z :=
  match s with
  | [] => None
  | c :: rest => if c =? 43 then if bool_decide (rest = []) then None else parse_digits rest 0 else parse_digits s 0
  end.

Section hosts.
Context `{!RegexOps} `{!StdText} `{!DnsTexts}.

Record StaticHosts : Type := mkStaticHosts { sh_responses : list (list ResponseEntry); sh_matcher : option MphDomainMatcher }.

Definition matcher_error_display (e : MatcherError) : bytes :=
  match e with
  | RegexCompile e => [230; 173; 163; 229; 136; 153; 232; 161; 168; 232; 190; 190; 229; 188; 143; 231; 188; 150; 232; 175; 145; 229; 164; 177; 232; 180; 165; 58; 32] ++ regex_error_display e
  | UnknownMatcherType => [230; 156; 170; 231; 159; 165; 231; 154; 132; 229; 140; 185; 233; 133; 141; 229; 153; 168; 231; 177; 187; 229; 158; 139]
  end.

(** The responses of one mapping. *)
Definition mapping_response (m : HostMapping) : result DnsError (list ResponseEntry) :=
  if negb (bool_decide (hm_proxied_domain m = [])) then
    match strip_prefix (text "#") (hm_proxied_domain m) with
    | Some rcode_str =>
        match parse_u16 rcode_str with
        | Some rcode => Ok [ReRCode rcode]
        | None => Err (Features (FeOther (text "invalid rcode in proxied_domain: " ++ hm_proxied_domain m)))
        end
    | None => Ok [ReDomain (hm_proxied_domain m)]
    end
  else Ok (map ReIp (hm_ips m)).

Fixpoint mapping_responses (ms : list HostMapping) : result DnsError (list (list ResponseEntry)) :=
  match ms with
  | [] => Ok []
  | m :: ms => reps ← mapping_response m; rest ← mapping_responses ms; mret (reps :: rest)
  end.

(** The rules of the mappings, from the [i]-th on. *)
Fixpoint mapping_rules (i : Z) (ms : list HostMapping) : list DomainRule :=
  match ms with
  | [] => []
  | m :: ms =>
      match hm_matcher_rules m with
      | [] => [mkDomainRule DtDomain (to_lowercase (hm_domain m)) i]
      | rules => map (fun '(dt, v) => mkDomainRule dt v i) rules
      end ++ mapping_rules (i + 1) ms
  end.

(** [None]: the search for seeds of the hash table is out of fuel. *)
Definition StaticHosts_new (fuel : nat) (mappings : list HostMapping) : option (result DnsError StaticHosts) :=
  if bool_decide (mappings = []) then Some (Ok (mkStaticHosts [] None))
  else
    match mapping_responses mappings with
    | Err e => Some (Err e)
    | Ok responses =>
        built ← MphDomainMatcher_build fuel (mapping_rules 0 mappings);
        Some (match built with
              | Err e => Err (Features (FeOther (text "mph matcher build failed: " ++ matcher_error_display e)))
              | Ok matcher => Ok (mkStaticHosts responses (Some matcher))
              end)
    end.

(** [filter_ip_entries] *)
Definition filter_ip_entries (entries : list ResponseEntry) (o : IpOption) : list Address :=
  omap (fun e => match e with ReIp ip => if family_enabled o ip then Some (Address_from_IpAddr ip) else None | _ => None end) entries.

Definition entry_rcode (e : ResponseEntry) : option Z := match e with ReRCode code => Some code | _ => None end.

(** The entries of the mappings whose rules the domain matches. *)
Definition host_entries (responses : list (list ResponseEntry)) (m : MphDomainMatcher) (domain : bytes) : list ResponseEntry :=
  concat (map (fun id => default [] (responses !! Z.to_nat id)) (MphDomainMatcher_match_domain (to_lowercase domain) m)).

Fixpoint lookup_inner (max_depth : nat) (responses : list (list ResponseEntry)) (m : MphDomainMatcher) (domain : bytes) (o : IpOption) : result DnsError (option (list Address)) :=
  let entries := host_entries responses m domain in
  if bool_decide (entries = []) then Ok None
  else
    match omap entry_rcode entries with
    | code :: _ => Err (from_rcode code)
    | [] =>
        match entries with
        | [ReDomain d] =>
            match max_depth with
            | O => Ok (Some [Domain d])
            | S max_depth =>
                inner ← lookup_inner max_depth responses m d o;
                mret (match inner with Some inner => Some inner | None => Some [Domain d] end)
            end
        | _ => Ok (Some (filter_ip_entries entries o))
        end
    end.

Definition StaticHosts_lookup (h : StaticHosts) (domain : bytes) (o : IpOption) : result DnsError (option (list Address)) :=
  match sh_matcher h with
  | None => Ok None
  | Some m => lookup_inner 5 (sh_responses h) m domain o
  end.
End hosts.

(** * Clients *)

Record DnsServerOps : Type := mkDnsServerOps { sv_name : bytes; sv_query_ip : bytes -> IpOption -> result DnsError (list IpAddr * Z) }.

Record Client : Type := mkClient {
  cl_server : DnsServerOps;
  cl_skip_fallback : bool;
  cl_expected_ips : option IPMatcher;
  cl_unexpected_ips : option IPMatcher;
  cl_tag : bytes;
  cl_timeout : Z;
  cl_final_query : bool;
  cl_ip_option : IpOption;
  cl_policy_id : Z;
  cl_act_prior : bool;
  cl_act_unprior : bool;
  cl_check_system : bool
}.

(** What [Client::new] reads of the configuration. *)
Record NameServerConfig : Type := mkNameServerConfig {
  ns_address : Address;
  ns_skip_fallback : bool;
  ns_act_prior : bool;
  ns_act_unprior : bool;
  ns_tag : bytes;
  ns_timeout_ms : Z;
  ns_final_query : bool;
  ns_query_strategy : option QueryStrategy;
  ns_policy_id : Z;
  ns_expected_ip_rules : list IpRule;
  ns_unexpected_ip_rules : list IpRule
}.

Definition build_ip_error_display (e : BuildIPMatcherError) : bytes :=
  match e with EmptyRules => [232; 167; 132; 229; 136; 153; 229; 136; 151; 232; 161; 168; 228; 184; 186; 231; 169; 186] end.

Definition build_ip_matcher (rules : list IpRule) : result DnsError (option IPMatcher) :=
  if bool_decide (length rules = 0%nat) then Ok None
  else match build_optimized_ip_matcher rules with Ok m => Ok (Some m) | Err e => Err (WireFormat (text "build ip matcher: " ++ build_ip_error_display e)) end.

Definition generate_random_tag `{!RegexOps, !DnsTexts} : bytes := text "xray.system." ++ uuid_v4.

Definition Client_new `{!AddressText, !RegexOps, !DnsTexts} (ns : NameServerConfig) (base_ip_option : IpOption) (server : DnsServerOps) : result DnsError Client :=
  let ip_option := resolve_ip_option_override base_ip_option (ns_query_strategy ns) in
  if negb (ipv4_enable ip_option) && negb (ipv6_enable ip_option) then Err (NoQueryStrategy (address_debug (ns_address ns)))
  else
    let timeout := (if 0 <? ns_timeout_ms ns then ns_timeout_ms ns else 4000) * 1000000 in
    expected ← build_ip_matcher (ns_expected_ip_rules ns);
    unexpected ← build_ip_matcher (ns_unexpected_ip_rules ns);
    mret (mkClient server (ns_skip_fallback ns) expected unexpected (if bool_decide (ns_tag ns = []) then generate_random_tag else ns_tag ns) timeout
            (ns_final_query ns) ip_option (ns_policy_id ns) (ns_act_prior ns) (ns_act_unprior ns) (bool_decide (ns_query_strategy ns = Some UseSys))).

(** The families left of an option: of the system with [check_system], else of [own]. *)
Definition clamp_option `{!Routes} (check_system : bool) (own : bool * bool) (o : IpOption) : IpOption :=
  let '(v4, v6) := if check_system then check_routes else own in
  mkIpOption (ipv4_enable o && v4) (ipv6_enable o && v6) (fake_enable o).

(** The four filters, in their order. *)
Definition filter_expected (c : Client) (ips : list IpAddr) : result DnsError (list IpAddr) :=
  match cl_expected_ips c with
  | Some m => if cl_act_prior c then Ok ips else let ips := filter_ips m ips in if bool_decide (ips = []) then Err EmptyResponse else Ok ips
  | None => Ok ips
  end.
Definition filter_unexpected (c : Client) (ips : list IpAddr) : result DnsError (list IpAddr) :=
  match cl_unexpected_ips c with
  | Some m => if cl_act_unprior c then Ok ips else let ips := List.filter (fun ip => negb (match_ip m ip)) ips in if bool_decide (ips = []) then Err EmptyResponse else Ok ips
  | None => Ok ips
  end.
(** [actPrior], [actUnprior]: what matches, where anything does. *)
Definition prefer (act : bool) (m : option IPMatcher) (ips : list IpAddr) : list IpAddr :=
  match m with
  | Some m => if act then let matched := filter_ips m ips in if bool_decide (matched = []) then ips else matched else ips
  | None => ips
  end.

Definition Client_query_ip `{!Routes} (c : Client) (domain : bytes) (o : IpOption) : result DnsError (list IpAddr * Z) :=
  let o := clamp_option (cl_check_system c) (ipv4_enable (cl_ip_option c), ipv6_enable (cl_ip_option c)) o in
  if negb (ipv4_enable o) && negb (ipv6_enable o) then Err EmptyResponse
  else
    '(ips, ttl) ← sv_query_ip (cl_server c) domain o;
    if bool_decide (ips = []) then Err EmptyResponse
    else
      ips ← filter_expected c ips;
      ips ← filter_unexpected c ips;
      let ips := prefer (cl_act_prior c) (cl_expected_ips c) ips in
      let ips := prefer (cl_act_unprior c) (cl_unexpected_ips c) ips in
      mret (ips, ttl).

(** * Asking the clients *)

Definition FakeDNS : bytes := text "FakeDNS".
Definition skipped (o : IpOption) (c : Client) : bool := negb (fake_enable o) && eq_ignore_ascii_case (sv_name (cl_server c)) FakeDNS.

(** The first pass of [merge_query_errors]: the first error that is not "not found", and
    whether another kind follows it. *)
Fixpoint distinct_errors (errs : list DnsError) (first_non_rnf : option DnsError) : option DnsError * bool :=
  match errs with
  | [] => (first_non_rnf, false)
  | e :: errs =>
      if bool_decide (e = RecordNotFound) then distinct_errors errs first_non_rnf
      else
        match first_non_rnf with
        | None => distinct_errors errs (Some e)
        | Some prev => if negb (same_dns_error_kind prev e) then (first_non_rnf, true) else distinct_errors errs first_non_rnf
        end
  end.

Definition merge_query_errors (domain : bytes) (errs : list DnsError) : DnsError :=
  if bool_decide (errs = []) then EmptyResponse
  else
    match distinct_errors errs None with
    | (_, true) => SystemResolve (text "returning nil for domain " ++ domain ++ text ": " ++ join_errors errs)
    | (Some e, false) => e
    | (None, false) => RecordNotFound
    end.

Record Group : Type := mkGroup { g_start : nat; g_end : nat }.

(** The loop of [make_groups] over [i], from the policies of the clients from [i - 1] on;
    [s], [e]: the group being made. *)
Fixpoint groups_loop (i s e : nat) (prev : Z) (policies : list Z) (groups : list Group) (group_of : list nat) : list Group * list nat :=
  match policies with
  | [] => (groups ++ [mkGroup s e], group_of ++ replicate (S e - s) (length groups))
  | p :: policies =>
      if prev =? p then groups_loop (S i) s i p policies groups group_of
      else groups_loop (S i) i i p policies (groups ++ [mkGroup s e]) (group_of ++ replicate (S e - s) (length groups))
  end.

Definition make_groups (clients : list Client) : list Group * list nat :=
  match map cl_policy_id clients with
  | [] => ([], [])
  | p :: policies => groups_loop 1 0 0 p policies [] []
  end.

Inductive ClientOutcome : Type :=
| Success (ips : list IpAddr) (ttl : Z)
| Failure
| Pending.

(** [outcomes[g.start..=g.end]] *)
Definition group_outcomes (outcomes : list ClientOutcome) (g : Group) : list ClientOutcome := take (S (g_end g) - g_start g) (drop (g_start g) outcomes).

Definition outcome_success (o : ClientOutcome) : option (list IpAddr * Z) := match o with Success ips ttl => Some (ips, ttl) | _ => None end.
Definition outcome_pending (o : ClientOutcome) : bool := match o with Pending => true | _ => false end.

Definition group_success (outcomes : list ClientOutcome) (g : Group) : option (list IpAddr * Z) := head (omap outcome_success (group_outcomes outcomes g)).
Definition group_pending (outcomes : list ClientOutcome) (g : Group) : bool := existsb outcome_pending (group_outcomes outcomes g).

(** [todo] are the groups from [next_group] on. *)
Fixpoint advance_loop (outcomes : list ClientOutcome) (todo : list Group) (next_group : nat) : option (list IpAddr * Z) * nat :=
  match todo with
  | [] => (None, next_group)
  | g :: todo =>
      match group_success outcomes g with
      | Some r => (Some r, next_group)
      | None => if group_pending outcomes g then (None, next_group) else advance_loop outcomes todo (S next_group)
      end
  end.
Definition advance_groups (outcomes : list ClientOutcome) (groups : list Group) (next_group : nat) : option (list IpAddr * Z) * nat :=
  advance_loop outcomes (drop next_group groups) next_group.

(** What is kept of an answer. *)
Definition classify (r : result DnsError (list IpAddr * Z)) : ClientOutcome * DnsError :=
  match r with
  | Ok (ips, ttl) => if bool_decide (ips = []) then (Failure, EmptyResponse) else (Success ips ttl, EmptyResponse)
  | Err e => (Failure, e)
  end.

Section service.
Context `{!Routes}.

(** The answers before the one in hand are errors. *)
Fixpoint serial_loop (clients : list Client) (domain : bytes) (o : IpOption) (outcomes : list DnsError) : result DnsError (list IpAddr * Z) :=
  match clients with
  | [] => Err (merge_query_errors domain outcomes)
  | c :: clients =>
      if skipped o c then serial_loop clients domain o outcomes
      else match Client_query_ip c domain o with
           | Ok r => Ok r
           | Err e => serial_loop clients domain o (outcomes ++ [e])
           end
  end.
Definition serial_query (clients : list Client) (domain : bytes) (o : IpOption) : result DnsError (list IpAddr * Z) := serial_loop clients domain o [].

(** The [while] over [join_next]. *)
Fixpoint join_loop (clients : list Client) (domain : bytes) (o : IpOption) (groups : list Group) (joins : list (option nat))
    (outcomes : list ClientOutcome) (raw_errs : list DnsError) (next_group : nat) : result DnsError (list IpAddr * Z) :=
  match joins with
  | [] =>
      let outcomes := map (fun o => if outcome_pending o then Failure else o) outcomes in
      match (advance_groups outcomes groups next_group).1 with
      | Some r => Ok r
      | None => Err (merge_query_errors domain raw_errs)
      end
  | None :: joins => join_loop clients domain o groups joins outcomes raw_errs next_group
  | Some idx :: joins =>
      match clients !! idx with
      | None => join_loop clients domain o groups joins outcomes raw_errs next_group
      | Some c =>
          let '(outcome, e) := classify (Client_query_ip c domain o) in
          let outcomes := <[idx := outcome]> outcomes in
          let raw_errs := match outcome with Failure => <[idx := e]> raw_errs | _ => raw_errs end in
          let '(r, next_group) := advance_groups outcomes groups next_group in
          match r with
          | Some r => Ok r
          | None => join_loop clients domain o groups joins outcomes raw_errs next_group
          end
      end
  end.

Definition parallel_query (clients : list Client) (domain : bytes) (o : IpOption) (joins : list (option nat)) : result DnsError (list IpAddr * Z) :=
  let '(groups, _) := make_groups clients in
  if bool_decide (length groups = 0%nat) then Err EmptyResponse
  else
    let outcomes := map (fun c => if skipped o c then Failure else Pending) clients in
    let raw_errs := map (fun _ => EmptyResponse) clients in
    join_loop clients domain o groups joins outcomes raw_errs 0.

(** * The service *)

Record DomainMatcherInfo : Type := mkDomainMatcherInfo { mi_client_idx : nat; mi_domain_rule : bytes }.

(** [sd_matcher] is [match_domain] of the matcher of the names the clients are for. *)
Record DnsService : Type := mkDnsService {
  sd_query_strategy : QueryStrategy;
  sd_hosts : bytes -> IpOption -> result DnsError (option (list Address));
  sd_clients : list Client;
  sd_disable_fallback : bool;
  sd_disable_fallback_if_match : bool;
  sd_enable_parallel_query : bool;
  sd_matcher : option (bytes -> list Z);
  sd_matcher_infos : list DomainMatcherInfo
}.

Definition set_matcher (matcher : bytes -> list Z) (infos : list DomainMatcherInfo) (s : DnsService) : DnsService :=
  mkDnsService (sd_query_strategy s) (sd_hosts s) (sd_clients s) (sd_disable_fallback s) (sd_disable_fallback_if_match s) (sd_enable_parallel_query s) (Some matcher) infos.

Definition is_own_link (s : DnsService) (inbound_tag : bytes) : bool :=
  if bool_decide (inbound_tag = []) then false else existsb (fun c => bool_decide (cl_tag c = inbound_tag)) (sd_clients s).

(** What the two loops of [sort_clients] change; [so_done]: a final client has ended it. *)
Record SortState : Type := mkSortState { so_ordered : list Client; so_used : list bool; so_has_match : bool; so_done : bool }.

Definition take_client (clients : list Client) (idx : nat) (matched : bool) (st : SortState) : SortState :=
  match clients !! idx with
  | None => st
  | Some c => mkSortState (so_ordered st ++ [c]) (<[idx := true]> (so_used st)) (so_has_match st || matched) (cl_final_query c)
  end.

(** The loop over the rules that match. *)
Fixpoint match_loop (clients : list Client) (infos : list DomainMatcherInfo) (matches : list Z) (st : SortState) : SortState :=
  match matches with
  | [] => st
  | rule_id :: matches =>
      if so_done st then st
      else
        match infos !! Z.to_nat rule_id with
        | None => match_loop clients infos matches st
        | Some info =>
            let idx := mi_client_idx info in
            if (length clients <=? idx)%nat || default false (so_used st !! idx) then match_loop clients infos matches st
            else match_loop clients infos matches (take_client clients idx true st)
        end
  end.

(** The loop over the clients. *)
Fixpoint fallback_loop (clients : list Client) (idx todo : nat) (st : SortState) : SortState :=
  match todo with
  | O => st
  | S todo =>
      if so_done st then st
      else
        let skip := match clients !! idx with Some c => cl_skip_fallback c | None => true end in
        if default false (so_used st !! idx) || skip then fallback_loop clients (S idx) todo st
        else fallback_loop clients (S idx) todo (take_client clients idx false st)
  end.

Context `{!StdText}.

Definition sort_clients (s : DnsService) (domain : bytes) : list Client :=
  let clients := sd_clients s in
  let st := mkSortState [] (map (fun _ => false) clients) false false in
  let st := match sd_matcher s with
            | Some matcher => match_loop clients (sd_matcher_infos s) (merge_sort Z.le (matcher (to_lowercase domain))) st
            | None => st
            end in
  if so_done st then so_ordered st
  else
    let st := if negb (sd_disable_fallback s || (sd_disable_fallback_if_match s && so_has_match st)) then fallback_loop clients 0 (length clients) st else st in
    if so_done st then so_ordered st
    else match so_ordered st, clients with
         | [], c :: _ => [c]
         | ordered, _ => ordered
         end.

Definition lookup_ip `{!AddressText} (s : DnsService) (domain : bytes) (o : IpOption) (joins : list (option nat)) : result DnsError (list IpAddr * Z) :=
  let domain := default domain (strip_suffix [DOT] domain) in
  if bool_decide (domain = []) then Err (Features (FeOther (text "empty domain name")))
  else
    let effective := clamp_option (bool_decide (sd_query_strategy s = UseSys)) (ip_enables (sd_query_strategy s)) o in
    if negb (ipv4_enable effective) && negb (ipv6_enable effective) then Err EmptyResponse
    else
      found ← sd_hosts s domain effective;
      let ask ns_domain :=
        let clients := sort_clients s ns_domain in
        if bool_decide (length clients = 0%nat) then Err EmptyResponse
        else if sd_enable_parallel_query s then parallel_query clients ns_domain effective joins else serial_query clients ns_domain effective in
      match found with
      | None => ask domain
      | Some [Domain d] => ask d
      | Some [] => Err EmptyResponse
      | Some addrs => ips ← to_net_ip addrs; mret (ips, 10)
      end.

(** [impl DnsClient for DnsService] *)
Definition DnsClient_lookup_ip `{!AddressText} (s : DnsService) (domain : bytes) (o : IpOption) (joins : list (option nat)) : result FeaturesDnsError (list IpAddr * Z) :=
  match lookup_ip s domain o joins with Ok r => Ok r | Err e => Err (to_features_error e) end.
End service.
