(* ===== verification/DnsServerProps.v ===== *)
(** The DNS service: the order in which the clients are asked, and what asking them one by
    one and all at once have in common. *)
From Stdlib Require Import String.
From stdpp Require Import base tactics option numbers list gmap sorting.
From S2P Require Import Prelude Bytes NetTypes StrMatch DomainMatch Mph DomainRules IpMatch Balancing RouterCond DnsCommon DnsServer.

(** * The order of the clients *)

(** The first occurrences of what has not been seen. *)
Fixpoint firsts (l seen : list nat) : list nat :=
  match l with [] => [] | i :: l => if bool_decide (i ∈ seen) then firsts l seen else i :: firsts l (i :: seen) end.

Section order.
Variable clients : list Client.

Definition is_final (i : nat) : bool := from_option cl_final_query false (clients !! i).
Definition is_skipped (i : nat) : bool := from_option cl_skip_fallback true (clients !! i).

(** Up to the first client that ends the sequence. *)
Fixpoint until_final (l : list nat) : list nat :=
  match l with [] => [] | i :: l => i :: (if is_final i then [] else until_final l) end.

Definition clients_at (l : list nat) : list Client := omap (fun i => clients !! i) l.

(** [u]: the clients taken so far, in [l]'s order. *)
Definition taken (u : list nat) (st : SortState) : Prop :=
  so_used st = map (fun i => bool_decide (i ∈ u)) (seq 0 (length clients)).

Lemma taken_lookup u st i : taken u st -> (i < length clients)%nat -> so_used st !! i = Some (bool_decide (i ∈ u)).
Proof. intros -> Hi. rewrite list_lookup_fmap, lookup_seq_lt by done. done. Qed.

Lemma taken_insert u st i : taken u st -> <[i := true]> (so_used st) = map (fun j => bool_decide (j ∈ i :: u)) (seq 0 (length clients)).
Proof.
  intros ->. apply list_eq. intros k. destruct (decide (k < length clients)%nat) as [Hk|Hk].
  - rewrite list_lookup_fmap, lookup_seq_lt by done. cbn. destruct (decide (i = k)) as [->|Hne].
    + rewrite list_lookup_insert_eq by (rewrite length_map, length_seq; done). f_equal. symmetry. apply bool_decide_eq_true. by left.
    + rewrite list_lookup_insert_ne, list_lookup_fmap, lookup_seq_lt by done. cbn. f_equal. apply bool_decide_ext. rewrite elem_of_cons. split; [by right|intros [->|]; done].
  - rewrite !lookup_ge_None_2; [done|rewrite length_map, length_seq; lia|rewrite length_insert, length_map, length_seq; lia].
Qed.

Lemma take_client_spec u st i matched : taken u st -> (i < length clients)%nat ->
  let st' := take_client clients i matched st in
  taken (i :: u) st' /\ so_ordered st' = so_ordered st ++ clients_at [i] /\ so_has_match st' = so_has_match st || matched /\ so_done st' = is_final i.
Proof.
  intros Hu Hi. unfold take_client, clients_at, is_final. destruct (lookup_lt_is_Some_2 clients i Hi) as [c E]. cbn [omap list_omap]. rewrite E. cbn. split; [by apply taken_insert|done].
Qed.

Lemma until_final_done l : existsb is_final l = false -> until_final l = l.
Proof. induction l as [|i l IH]; [done|]. cbn. intros [-> Hl]%orb_false_iff. by rewrite IH. Qed.

Lemma clients_at_cons i l : clients_at (i :: l) = clients_at [i] ++ clients_at l.
Proof. unfold clients_at. cbn. by destruct (clients !! i). Qed.

Lemma until_final_app l k : until_final (l ++ k) = if existsb is_final l then until_final l else l ++ until_final k.
Proof. induction l as [|i l IH]; [done|]. cbn. destruct (is_final i); cbn; [done|]. rewrite IH. by destruct (existsb is_final l). Qed.

(** The clients of the rules that match. *)
Definition matched_clients (infos : list DomainMatcherInfo) (ids : list Z) : list nat :=
  List.filter (fun i => (i <? length clients)%nat) (omap (fun id => mi_client_idx <$> infos !! Z.to_nat id) ids).

Lemma firsts_range (l seen : list nat) : Forall (fun i => (i < length clients)%nat) (firsts (List.filter (fun i => (i <? length clients)%nat) l) seen).
Proof.
  revert seen. induction l as [|i l IH]; intros seen; [constructor|]. cbn [List.filter]. destruct (Nat.ltb_spec i (length clients)); [|apply IH]. cbn [firsts].
  case_bool_decide; [apply IH|]. apply Forall_cons_iff. split; [done|apply IH].
Qed.

Lemma match_loop_spec infos ids : forall u st, taken u st -> so_done st = false ->
  let l := firsts (matched_clients infos ids) u in
  let st' := match_loop clients infos ids st in
  so_ordered st' = so_ordered st ++ clients_at (until_final l) /\ so_done st' = existsb is_final l /\
  (so_done st' = false -> taken (rev l ++ u) st' /\ so_has_match st' = so_has_match st || negb (bool_decide (l = []))).
Proof.
  induction ids as [|id ids IH]; intros u st Hu Hd; cbn [match_loop matched_clients omap list_omap].
  - cbn. rewrite app_nil_r, orb_false_r. done.
  - rewrite Hd. unfold matched_clients in *. cbn [omap list_omap]. destruct (infos !! Z.to_nat id) as [info|]; cbn [fmap option_fmap option_map]; [|by apply IH]. cbn [List.filter].
    set (i := mi_client_idx info). destruct (Nat.ltb_spec i (length clients)) as [Hi|Hi].
    + destruct (Nat.leb_spec (length clients) i); [lia|]. cbn [orb]. rewrite (taken_lookup u) by done. cbn [default from_option firsts Datatypes.id]. destruct (bool_decide (i ∈ u)) eqn:Eu; [by apply IH|].
      destruct (take_client_spec u st i true Hu Hi) as (Hu' & Eo & Em & Ed). cbn zeta in *. set (st1 := take_client clients i true st) in *. cbn [existsb until_final].
      set (l := firsts _ (i :: u)). destruct (is_final i) eqn:Ef.
      * assert (E1 : match_loop clients infos ids st1 = st1) by (destruct ids; cbn [match_loop]; by rewrite ?Ed). rewrite E1. cbn [orb]. split; [exact Eo|]. rewrite Ed. done.
      * destruct (IH (i :: u) st1 Hu' Ed) as (I1 & I2 & I3). fold l in I1, I2, I3. cbn [orb]. rewrite I1, I2, Eo. split; [by rewrite <- app_assoc, <- clients_at_cons|]. split; [done|]. rewrite <- I2. intros Hnd.
        destruct (I3 Hnd) as [I4 I5]. split; [cbn [rev]; by rewrite <- app_assoc|]. rewrite I5, Em. cbn. by rewrite !orb_true_r.
    + destruct (Nat.leb_spec (length clients) i); [|lia]. cbn [orb]. by apply IH.
Qed.

Lemma fallback_loop_spec todo : forall idx u st, (idx + todo <= length clients)%nat -> taken u st -> so_done st = false -> (forall i, i ∈ u -> (idx <= i)%nat -> i ∈ u) ->
  let l := List.filter (fun i => negb (bool_decide (i ∈ u)) && negb (is_skipped i)) (seq idx todo) in
  let st' := fallback_loop clients idx todo st in
  so_ordered st' = so_ordered st ++ clients_at (until_final l) /\ so_done st' = existsb is_final l.
Proof.
  induction todo as [|todo IH]; intros idx u st Hle Hu Hd _; cbn [fallback_loop seq List.filter]; [cbn; by rewrite app_nil_r|]. rewrite Hd.
  assert (Hi : (idx < length clients)%nat) by lia. rewrite (taken_lookup u) by done. cbn [default from_option Datatypes.id]. fold (is_skipped idx).
  replace (match clients !! idx with Some c => cl_skip_fallback c | None => true end) with (is_skipped idx) by (unfold is_skipped; by destruct (clients !! idx)).
  rewrite <- negb_orb. destruct (bool_decide (idx ∈ u) || is_skipped idx); cbn [negb]; [apply (IH (S idx) u); [lia|done|done|done]|].
  destruct (take_client_spec u st idx false Hu Hi) as (Hu' & Eo & _ & Ed). cbn zeta in *. set (st1 := take_client clients idx false st) in *. cbn [existsb until_final]. destruct (is_final idx) eqn:Ef.
  - assert (E1 : fallback_loop clients (S idx) todo st1 = st1) by (destruct todo; cbn [fallback_loop]; by rewrite ?Ed). rewrite E1. done.
  - destruct (IH (S idx) (idx :: u) st1 ltac:(lia) Hu' Ed ltac:(done)) as [I1 I2]. cbn zeta in I1, I2.
    assert (El : List.filter (fun i => negb (bool_decide (i ∈ idx :: u)) && negb (is_skipped i)) (seq (S idx) todo) = List.filter (fun i => negb (bool_decide (i ∈ u)) && negb (is_skipped i)) (seq (S idx) todo)).
    { apply List.filter_ext_in. intros i Hin. apply in_seq in Hin. do 2 f_equal. apply bool_decide_ext. rewrite elem_of_cons. split; [intros [->|]; [lia|done]|by right]. }
    rewrite El in I1, I2. rewrite I1, I2, Eo. cbn [orb]. split; [by rewrite <- app_assoc, <- clients_at_cons|done].
Qed.
End order.

(** The specification of [sort_clients], as positions among the clients. *)
Definition client_order (clients : list Client) (infos : list DomainMatcherInfo) (ids : list Z) (disable_fallback disable_fallback_if_match : bool) : list nat :=
  let matched := firsts (matched_clients clients infos ids) [] in
  let rest := List.filter (fun i => negb (bool_decide (i ∈ matched)) && negb (is_skipped clients i)) (seq 0 (length clients)) in
  let all := matched ++ (if disable_fallback || (disable_fallback_if_match && negb (bool_decide (matched = []))) then [] else rest) in
  if bool_decide (all = []) then take 1 (seq 0 (length clients)) else until_final clients all.

(** C25: the clients of a domain are asked in this order: those of the rules the domain
    matches, by rule, each client once; then, unless the fallback is off (or off because a
    rule matched), the others but those that skip the fallback, as configured; all up to
    the first client that is to be the last.  When nobody is left the first client of all
    is asked, even if it skips the fallback or the fallback is off. *)
Theorem dns_sort_clients_exact `{!StdText} s domain :
  sort_clients s domain = clients_at (sd_clients s)
    (client_order (sd_clients s) (sd_matcher_infos s) (match sd_matcher s with Some m => merge_sort Z.le (m (to_lowercase domain)) | None => [] end)
       (sd_disable_fallback s) (sd_disable_fallback_if_match s)).
Proof.
  unfold sort_clients, client_order. set (clients := sd_clients s). set (infos := sd_matcher_infos s). set (ids := match sd_matcher s with Some m => _ | None => [] end). set (st0 := mkSortState [] _ false false).
  assert (Hst : (match sd_matcher s with Some matcher => match_loop clients infos (merge_sort Z.le (matcher (to_lowercase domain))) st0 | None => st0 end) = match_loop clients infos ids st0) by (unfold ids; by destruct (sd_matcher s)).
  rewrite Hst. clear Hst. clearbody ids. assert (H0 : taken clients [] st0).
  { unfold taken, st0. cbn [so_used]. clear. generalize 0%nat. induction clients as [|c l IH]; intros k; [done|]. cbn. f_equal. apply IH. }
  destruct (match_loop_spec clients infos ids [] st0 H0 eq_refl) as (M1 & M2 & M3). cbn zeta in *. set (matched := firsts _ []) in *. set (st1 := match_loop _ _ _ _) in *. clearbody st1. cbn [so_ordered st0 app] in M1.
  set (rest := List.filter _ (seq 0 (length clients))). set (off := sd_disable_fallback s || (sd_disable_fallback_if_match s && negb (bool_decide (matched = [])))).
  destruct (so_done st1) eqn:Ed.
  - rewrite M1. assert (Hne : matched <> []) by (intros E; by rewrite E in M2). rewrite bool_decide_false by (destruct matched; done). rewrite until_final_app, <- M2. done.
  - destruct (M3 eq_refl) as [M4 M5]. rewrite M5. cbn [so_has_match st0 orb]. fold off. rewrite app_nil_r in M4. rewrite (until_final_done _ matched) in M1 by done.
    assert (Hend : forall st l, so_ordered st = clients_at clients (until_final clients l) -> so_done st = existsb (is_final clients) l -> Forall (fun i => (i < length clients)%nat) l ->
      (if so_done st then so_ordered st else match so_ordered st, clients with [], c :: _ => [c] | ordered, _ => ordered end) =
      clients_at clients (if bool_decide (l = []) then take 1 (seq 0 (length clients)) else until_final clients l)).
    { clear. intros st l Eo Ed Hl. destruct l as [|i l].
      - rewrite bool_decide_true by done. cbn in Eo, Ed. rewrite Ed, Eo. by destruct clients.
      - rewrite bool_decide_false by done. rewrite Eo. apply Forall_cons_iff in Hl as [Hi _]. destruct (lookup_lt_is_Some_2 clients i Hi) as [c Ec]. cbn [until_final]. unfold clients_at. cbn [omap list_omap]. rewrite Ec. by destruct (so_done st). }
    assert (Hm : Forall (fun i => (i < length clients)%nat) matched).
    { apply firsts_range. }
    destruct off; cbn [negb].
    + rewrite app_nil_r. apply Hend; [by rewrite M1, until_final_done by done|by rewrite Ed|done].
    + destruct (fallback_loop_spec clients (length clients) 0 (rev matched) st1) as [F1 F2]; [lia|done|done|done|]. cbn zeta in *.
      assert (Er : List.filter (fun i => negb (bool_decide (i ∈ rev matched)) && negb (is_skipped clients i)) (seq 0 (length clients)) = rest).
      { unfold rest. apply List.filter_ext. intros i. do 2 f_equal. apply bool_decide_ext. by rewrite !list_elem_of_In, <- in_rev. }
      rewrite Er in F1, F2. apply Hend.
      * rewrite F1, M1, until_final_app, <- M2. unfold clients_at. by rewrite omap_app.
      * rewrite F2, existsb_app, <- M2. done.
      * apply Forall_app. split; [done|]. unfold rest. apply List.Forall_forall. intros i Hi. apply filter_In in Hi as [Hi _]. apply in_seq in Hi. lia.
Qed.

(** * Groups *)

(** Groups one after another from [s] to [n]. *)
Fixpoint chain (s : nat) (gs : list Group) (n : nat) : Prop :=
  match gs with [] => s = n | g :: gs => g_start g = s /\ (s <= g_end g)%nat /\ chain (S (g_end g)) gs n end.

Definition in_group (g : Group) (i : nat) : Prop := (g_start g <= i <= g_end g)%nat.

(** Between the two a policy changes. *)
Definition apart (policies : list Z) (j i : nat) : Prop := exists k, (j <= k < i)%nat /\ policies !! k <> policies !! S k.

Lemma chain_app s gs m hs n : chain s gs m -> chain m hs n -> chain s (gs ++ hs) n.
Proof. revert s. induction gs as [|g gs IH]; intros s; cbn; [by intros ->|]. intros (H1 & H2 & H3) Hh. split_and!; auto. Qed.

Lemma groups_loop_spec all policies : forall i s e prev groups group_of gs go, all !! e = Some prev -> drop i all = policies -> i = S e -> (s <= e)%nat ->
  (forall k, (s <= k < e)%nat -> all !! k = all !! S k) -> chain 0 groups s -> Forall (fun g => forall k, (g_start g <= k < g_end g)%nat -> all !! k = all !! S k) groups ->
  groups_loop i s e prev policies groups group_of = (gs, go) ->
  chain 0 gs (length all) /\ Forall (fun g => forall k, (g_start g <= k < g_end g)%nat -> all !! k = all !! S k) gs.
Proof.
  induction policies as [|p policies IH]; intros i s e prev groups group_of gs go Ee Ed -> Hs Hk Hc Hg; cbn [groups_loop].
  - intros [= <- <-]. assert (Hlen : S e = length all). { apply lookup_lt_Some in Ee as Hlt. assert (length (drop (S e) all) = 0%nat) as Hl by by rewrite Ed. rewrite length_drop in Hl. lia. }
    split; [eapply chain_app; [exact Hc|]; cbn; by split_and!|]. apply Forall_app. split; [done|]. apply Forall_cons_iff. by split.
  - assert (Ep : all !! S e = Some p) by (rewrite <- (take_drop (S e) all), Ed, lookup_app_r; rewrite length_take_le; try (replace (S e - S e)%nat with 0%nat by lia; done); apply lookup_lt_Some in Ee; lia).
    assert (Ed' : drop (S (S e)) all = policies) by (replace (S (S e)) with (S e + 1)%nat by lia; rewrite <- drop_drop, Ed; done).
    destruct (Z.eqb_spec prev p) as [->|Hne]; intros E.
    + eapply (IH (S (S e)) s (S e) p groups group_of); try done; [lia|]. intros k Hk'. destruct (decide (k = e)) as [->|]; [congruence|apply Hk; lia].
    + apply (IH (S (S e)) (S e) (S e) p (groups ++ [mkGroup s e]) (group_of ++ replicate (S e - s) (length groups)) gs go Ep Ed' eq_refl (Nat.le_refl _)); [intros k Hk'; lia| | |exact E].
      * eapply chain_app; [exact Hc|]. cbn. by split_and!.
      * apply Forall_app. split; [done|]. apply Forall_cons_iff. by split.
Qed.

Lemma make_groups_spec clients gs go : make_groups clients = (gs, go) ->
  chain 0 gs (length clients) /\ Forall (fun g => forall k, (g_start g <= k < g_end g)%nat -> map cl_policy_id clients !! k = map cl_policy_id clients !! S k) gs.
Proof.
  unfold make_groups. destruct (map cl_policy_id clients) as [|p policies] eqn:E; [intros [= <- <-]; destruct clients; [by split|done]|]. rewrite <- E. intros Hl.
  rewrite <- (length_map cl_policy_id). eapply (groups_loop_spec (map cl_policy_id clients) policies 1 0 0 p [] []); try done; rewrite ?E; try done; lia.
Qed.

Lemma chain_le s gs n : chain s gs n -> (s <= n)%nat.
Proof. revert s. induction gs as [|g gs IH]; intros s; cbn; [lia|]. intros (_ & H2 & H3). apply IH in H3. lia. Qed.

(** Every position up to the end is in a group, and those before it are in groups before. *)
Lemma chain_split s gs n k g : chain s gs n -> gs !! k = Some g ->
  (s <= g_start g <= g_end g)%nat /\ (g_end g < n)%nat /\ forall j, (s <= j < g_start g)%nat -> exists k' g', (k' < k)%nat /\ gs !! k' = Some g' /\ in_group g' j.
Proof.
  revert s k. induction gs as [|h gs IH]; intros s k; [done|]. cbn. intros (H1 & H2 & H3) Hk. destruct k as [|k]; cbn in Hk.
  - injection Hk as <-. apply chain_le in H3. split; [lia|]. split; [lia|]. intros j Hj. lia.
  - destruct (IH (S (g_end h)) k H3 Hk) as (I1 & I2 & I3). split; [lia|]. split; [done|]. intros j Hj. destruct (decide (j <= g_end h)%nat) as [Hle|Hgt].
    + exists 0%nat, h. split; [lia|]. split; [done|]. unfold in_group. lia.
    + destruct (I3 j ltac:(lia)) as (k' & g' & K1 & K2 & K3). exists (S k'), g'. split; [lia|]. by split.
Qed.

Lemma chain_member s gs n i : chain s gs n -> (s <= i < n)%nat -> exists k g, gs !! k = Some g /\ in_group g i.
Proof.
  revert s. induction gs as [|h gs IH]; intros s; cbn; [lia|]. intros (H1 & H2 & H3) Hi. destruct (decide (i <= g_end h)%nat).
  - exists 0%nat, h. split; [done|]. unfold in_group. lia.
  - destruct (IH _ H3 ltac:(lia)) as (k & g & K1 & K2). by exists (S k), g.
Qed.

(** Within a group nothing changes. *)
Lemma group_not_apart policies g j i : (forall k, (g_start g <= k < g_end g)%nat -> policies !! k = policies !! S k) -> in_group g j -> in_group g i -> ~ apart policies j i.
Proof. unfold in_group. intros Hg Hj Hi (k & Hk & Hne). apply Hne, Hg. lia. Qed.

(** * One by one and all at once *)

Section queries.
Context `{!Routes}.
Variables (clients : list Client) (domain : bytes) (o : IpOption).

(** What client [i] says when it is asked; [None]: it is not. *)
Definition says (i : nat) : option (result DnsError (list IpAddr * Z)) :=
  c ← clients !! i; if skipped o c then None else Some (Client_query_ip c domain o).

Definition answers (i : nat) (r : list IpAddr * Z) : Prop := says i = Some (Ok r).
Definition fails (i : nat) : Prop := match says i with Some (Ok _) => False | _ => True end.

Lemma Client_answer_nonempty c ips ttl : Client_query_ip c domain o = Ok (ips, ttl) -> ips <> [].
Proof.
  unfold Client_query_ip. destruct (negb _ && negb _); [done|]. destruct (sv_query_ip _ _ _) as [[raw t]|]; [|done]. cbn [mbind result_bind]. case_bool_decide as H0; [done|].
  unfold filter_expected, filter_unexpected. intros E.
  assert (Hinj : forall (x y : list IpAddr) (t t' : Z), @Ok DnsError _ (x, t) = Ok (y, t') -> x = y) by congruence.
  assert (Hp : forall act m l, l <> [] -> prefer act m l <> []) by (intros act m l Hl; unfold prefer; destruct m; [|done]; destruct act; [|done]; by case_bool_decide).
  destruct (cl_expected_ips c) as [m|]; [destruct (cl_act_prior c); [|case_bool_decide; [done|]]|]; cbn [mbind result_bind] in E;
    (destruct (cl_unexpected_ips c) as [m'|]; [destruct (cl_act_unprior c); [|case_bool_decide; [done|]]|]; cbn [mbind result_bind] in E; apply Hinj in E as <-; apply Hp, Hp; done).
Qed.

(** ** One by one *)

Lemma serial_loop_found cs : forall errs, (forall r, serial_loop cs domain o errs = Ok r <->
  exists i c, cs !! i = Some c /\ skipped o c = false /\ Client_query_ip c domain o = Ok r /\
    forall j d, (j < i)%nat -> cs !! j = Some d -> skipped o d = true \/ exists e, Client_query_ip d domain o = Err e).
Proof.
  induction cs as [|c cs IH]; intros errs r; cbn [serial_loop]; [split; [done|by intros (i & c & E & _)]|]. destruct (skipped o c) eqn:Es; [|destruct (Client_query_ip c domain o) as [x|e] eqn:Eq].
  - rewrite IH. split.
    + intros (i & d & E & H1 & H2 & H3). exists (S i), d. split; [done|]. split; [done|]. split; [done|]. intros [|j] d' Hj Ej; [injection Ej as <-; by left|apply (H3 j); [lia|done]].
    + intros ([|i] & d & E & H1 & H2 & H3); [injection E as <-; congruence|]. exists i, d. split; [done|]. split; [done|]. split; [done|]. intros j d' Hj. apply (H3 (S j)). lia.
  - split.
    + intros [= ->]. exists 0%nat, c. split; [done|]. split; [done|]. split; [done|]. lia.
    + intros ([|i] & d & E & H1 & H2 & H3); [injection E as <-; congruence|]. destruct (H3 0%nat c ltac:(lia) eq_refl) as [|[e He]]; congruence.
  - rewrite IH. split.
    + intros (i & d & E & H1 & H2 & H3). exists (S i), d. split; [done|]. split; [done|]. split; [done|]. intros [|j] d' Hj Ej; [injection Ej as <-; right; by exists e|apply (H3 j); [lia|done]].
    + intros ([|i] & d & E & H1 & H2 & H3); [injection E as <-; congruence|]. exists i, d. split; [done|]. split; [done|]. split; [done|]. intros j d' Hj. apply (H3 (S j)). lia.
Qed.

Lemma serial_answers r : serial_query clients domain o = Ok r <-> exists i, answers i r /\ forall j, (j < i)%nat -> fails j.
Proof.
  unfold serial_query. rewrite serial_loop_found. unfold answers, fails, says. split.
  - intros (i & c & E & Hs & Hq & Hall). exists i. rewrite E. cbn. rewrite Hs, Hq. split; [done|]. intros j Hj. destruct (clients !! j) as [d|] eqn:Ej; [|done]. cbn.
    destruct (Hall j d Hj Ej) as [->|[e He]]; [done|]. by destruct (skipped o d); rewrite ?He.
  - intros (i & Ha & Hall). destruct (clients !! i) as [c|] eqn:E; [|done]. cbn in Ha. destruct (skipped o c) eqn:Es; [done|]. injection Ha as Hq. exists i, c. split; [done|]. split; [done|]. split; [done|].
    intros j d Hj Ej. specialize (Hall j Hj). rewrite Ej in Hall. cbn in Hall. destruct (skipped o d); [by left|]. destruct (Client_query_ip d domain o) as [|e]; [done|]. right. by exists e.
Qed.

Lemma first_answer i r : answers i r -> exists i' r', answers i' r' /\ forall j, (j < i')%nat -> fails j.
Proof.
  assert (Hdec : forall i, (forall j, (j < i)%nat -> fails j) \/ exists j r, (j < i)%nat /\ answers j r).
  { clear. intros i. induction i as [|i [IH|(j & r & Hj & Ha)]]; [left; lia| |right; exists j, r; split; [lia|done]]. destruct (says i) as [[r|e]|] eqn:E.
    - right. exists i, r. split; [lia|done].
    - left. intros j Hj. destruct (decide (j = i)) as [->|]; [unfold fails; by rewrite E|apply IH; lia].
    - left. intros j Hj. destruct (decide (j = i)) as [->|]; [unfold fails; by rewrite E|apply IH; lia]. }
  revert r. induction (lt_wf i) as [i _ IH]. intros r Ha. destruct (Hdec i) as [Hf|(j & r' & Hj & Ha')]; [by exists i, r|by apply (IH j Hj r')].
Qed.

(** ** All at once *)

(** The clients are in [done_] when their query has ended, panics counted. *)
Definition outcome_of (joined : list nat) (i : nat) : ClientOutcome :=
  match says i with
  | None => Failure
  | Some r => if bool_decide (i ∈ joined) then (classify r).1 else Pending
  end.

Definition all_outcomes (joined : list nat) : list ClientOutcome := map (outcome_of joined) (seq 0 (length clients)).

Lemma all_outcomes_lookup joined i : (i < length clients)%nat -> all_outcomes joined !! i = Some (outcome_of joined i).
Proof. intros Hi. unfold all_outcomes. by rewrite list_lookup_fmap, lookup_seq_lt. Qed.

Lemma all_outcomes_start : map (fun c => if skipped o c then Failure else Pending) clients = all_outcomes [].
Proof.
  apply list_eq. intros i. rewrite list_lookup_fmap. destruct (clients !! i) as [c|] eqn:E.
  - apply lookup_lt_Some in E as Hi. rewrite all_outcomes_lookup by done. unfold outcome_of, says. rewrite E. cbn. by destruct (skipped o c).
  - symmetry. apply lookup_ge_None_2. unfold all_outcomes. rewrite length_map, length_seq. by apply lookup_ge_None_1.
Qed.

Lemma all_outcomes_insert joined i c : clients !! i = Some c -> skipped o c = false -> <[i := (classify (Client_query_ip c domain o)).1]> (all_outcomes joined) = all_outcomes (i :: joined).
Proof.
  intros E Hs. apply lookup_lt_Some in E as Hi. apply list_eq. intros j. destruct (decide (j < length clients)%nat) as [Hj|Hj].
  - rewrite (all_outcomes_lookup (i :: joined)) by done. destruct (decide (i = j)) as [->|Hne].
    + rewrite list_lookup_insert_eq by (unfold all_outcomes; by rewrite length_map, length_seq). f_equal. unfold outcome_of, says. rewrite E. cbn. rewrite Hs. by rewrite bool_decide_true by by left.
    + rewrite list_lookup_insert_ne, all_outcomes_lookup by done. f_equal. unfold outcome_of. destruct (says j); [|done]. assert (Ej : bool_decide (j ∈ i :: joined) = bool_decide (j ∈ joined)); [|by rewrite Ej].
      apply bool_decide_ext. rewrite elem_of_cons. split; [intros [->|]; done|by right].
  - rewrite !lookup_ge_None_2; [done|unfold all_outcomes; rewrite length_map, length_seq; lia|rewrite length_insert; unfold all_outcomes; rewrite length_map, length_seq; lia].
Qed.

Lemma group_outcomes_in (outcomes : list ClientOutcome) g x : x ∈ group_outcomes outcomes g <-> exists i, in_group g i /\ outcomes !! i = Some x.
Proof.
  unfold group_outcomes, in_group. rewrite list_elem_of_lookup. split.
  - intros [k Hk]. apply lookup_take_Some in Hk as [Hk Hlt]. rewrite lookup_drop in Hk. exists (g_start g + k)%nat. split; [lia|done].
  - intros (i & Hi & Ei). exists (i - g_start g)%nat. rewrite lookup_take_Some, lookup_drop. split; [|lia]. replace (g_start g + (i - g_start g))%nat with i by lia. done.
Qed.

Lemma group_success_in outcomes g r : group_success outcomes g = Some r -> exists i, in_group g i /\ outcomes !! i = Some (Success r.1 r.2).
Proof.
  unfold group_success. intros Hh. assert (Hin : r ∈ omap outcome_success (group_outcomes outcomes g)) by (destruct (omap _ _); [done|]; injection Hh as ->; by left).
  apply list_elem_of_omap in Hin as (x & Hx & Ex). destruct x as [ips ttl| |]; [|done|done]. injection Ex as <-. by apply group_outcomes_in.
Qed.

(** A group that is done with, without an answer. *)
Definition settled (outcomes : list ClientOutcome) (g : Group) : Prop := forall i x, in_group g i -> outcomes !! i = Some x -> x = Failure.

Lemma settled_spec outcomes g : group_success outcomes g = None -> group_pending outcomes g = false -> settled outcomes g.
Proof.
  intros Hs Hp i x Hi Ex. assert (Hin : x ∈ group_outcomes outcomes g) by (apply group_outcomes_in; eauto). destruct x as [ips ttl| |]; [|done|].
  - exfalso. unfold group_success in Hs. assert (Ho : (ips, ttl) ∈ omap outcome_success (group_outcomes outcomes g)) by (apply list_elem_of_omap; eauto). destruct (omap _ _); [by apply elem_of_nil in Ho|done].
  - exfalso. unfold group_pending in Hp. apply not_true_iff_false in Hp. apply Hp. apply existsb_exists. exists Pending. split; [by apply list_elem_of_In|done].
Qed.

Lemma advance_loop_spec outcomes todo : forall next r next', advance_loop outcomes todo next = (r, next') ->
  (next <= next')%nat /\ (forall k g, (k < next' - next)%nat -> todo !! k = Some g -> settled outcomes g) /\
  match r with
  | Some r => exists g, todo !! (next' - next)%nat = Some g /\ group_success outcomes g = Some r
  | None => match todo !! (next' - next)%nat with Some g => group_success outcomes g = None /\ group_pending outcomes g = true | None => True end
  end.
Proof.
  induction todo as [|g todo IH]; intros next r next'; cbn [advance_loop]; [intros [= <- <-]; split; [lia|]; split; [intros; lia|done]|].
  destruct (group_success outcomes g) as [x|] eqn:Es; [|destruct (group_pending outcomes g) eqn:Ep].
  - intros [= <- <-]. split; [lia|]. split; [intros; lia|]. rewrite Nat.sub_diag. by exists g.
  - intros [= <- <-]. split; [lia|]. split; [intros; lia|]. by rewrite Nat.sub_diag.
  - intros E. destruct (IH _ _ _ E) as (I1 & I2 & I3). split; [lia|]. replace (next' - next)%nat with (S (next' - S next)) by lia. split; [|done].
    intros [|k] h Hk Eh; [injection Eh as <-; by apply settled_spec|]. apply (I2 k); [lia|done].
Qed.

(** What an outcome tells. *)
Lemma outcome_success_says joined i ips ttl : outcome_of joined i = Success ips ttl -> answers i (ips, ttl) /\ i ∈ joined.
Proof.
  unfold outcome_of, answers. destruct (says i) as [[[ips' ttl']|e]|] eqn:E; [| |done]; case_bool_decide as Hj; try done; cbn [classify].
  case_bool_decide; [done|]. cbn [fst]. intros [= <- <-]. done.
Qed.

Lemma outcome_failure_fails joined i : outcome_of joined i = Failure -> fails i.
Proof.
  unfold outcome_of, fails. destruct (says i) as [[[ips ttl]|e]|] eqn:E; [|done|done]. case_bool_decide; [|done]. cbn [classify]. case_bool_decide as Hi; [|done]. intros _. exfalso.
  unfold says in E. destruct (clients !! i) as [c|]; [|done]. cbn in E. destruct (skipped o c); [done|]. injection E as Eq. by apply Client_answer_nonempty in Eq.
Qed.

Lemma outcome_failure_mono joined i j : outcome_of joined j = Failure -> outcome_of (i :: joined) j = Failure.
Proof. unfold outcome_of. destruct (says j); [|done]. case_bool_decide as Hj; [|done]. by rewrite bool_decide_true by by right. Qed.

Lemma settled_mono joined i g : (g_end g < length clients)%nat -> settled (all_outcomes joined) g -> settled (all_outcomes (i :: joined)) g.
Proof.
  intros Hg Hs j x Hj. assert (Hlt : (j < length clients)%nat) by (unfold in_group in Hj; lia). rewrite all_outcomes_lookup by done. intros [= <-]. apply outcome_failure_mono.
  apply (Hs j); [done|]. by rewrite all_outcomes_lookup.
Qed.

Definition past_its_end (o : ClientOutcome) : ClientOutcome := if outcome_pending o then Failure else o.

Section groups.
Variables (gs : list Group) (go : list nat).
Hypothesis Hgroups : make_groups clients = (gs, go).
Abbreviation policies := (map cl_policy_id clients).

Lemma gs_end k g : gs !! k = Some g -> (g_end g < length clients)%nat.
Proof using Hgroups. intros Hk. apply make_groups_spec in Hgroups as [Hc _]. by apply (chain_split 0 gs _ k g Hc) in Hk as (_ & ? & _). Qed.

(** The answer that is taken, and who has failed before it. *)
Lemma taken_answer (outcomes : list ClientOutcome) k g x : length outcomes = length clients -> gs !! k = Some g -> (forall k' g', (k' < k)%nat -> gs !! k' = Some g' -> settled outcomes g') ->
  group_success outcomes g = Some x -> exists i, outcomes !! i = Some (Success x.1 x.2) /\ forall j, (j < i)%nat -> apart policies j i -> outcomes !! j = Some Failure.
Proof using Hgroups.
  intros Hl Hg Hset Hx. apply make_groups_spec in Hgroups as [Hc Hp]. destruct (group_success_in _ _ _ Hx) as (i & Hi & Ei). exists i. split; [done|]. intros j Hj Ha.
  destruct (chain_split 0 gs _ k g Hc Hg) as (H1 & H2 & H3). rewrite Forall_lookup in Hp. destruct (decide (g_start g <= j)%nat) as [Hin|Hout].
  - exfalso. unfold in_group in Hi. apply (group_not_apart policies g j i); [by eapply Hp|unfold in_group; lia|done|done].
  - destruct (H3 j ltac:(lia)) as (k' & g' & K1 & K2 & K3). destruct (lookup_lt_is_Some_2 outcomes j) as [y Ey]; [unfold in_group in Hi; lia|]. rewrite Ey. f_equal. by apply (Hset k' g' K1 K2 j).
Qed.

Lemma advanced outcomes next r next' : advance_groups outcomes gs next = (r, next') -> (forall k g, (k < next)%nat -> gs !! k = Some g -> settled outcomes g) ->
  (forall k g, (k < next')%nat -> gs !! k = Some g -> settled outcomes g) /\
  match r with
  | Some r => exists g, gs !! next' = Some g /\ group_success outcomes g = Some r
  | None => forall g, gs !! next' = Some g -> group_pending outcomes g = true
  end.
Proof.
  unfold advance_groups. intros E Hn. apply advance_loop_spec in E as (I1 & I2 & I3). rewrite lookup_drop in I3. replace (next + (next' - next))%nat with next' in I3 by lia. split.
  - intros k g Hk Eg. destruct (decide (k < next)%nat) as [|Hge]; [by apply (Hn k)|]. apply (I2 (k - next)%nat); [lia|]. rewrite lookup_drop. by replace (next + (k - next))%nat with k by lia.
  - destruct r; [done|]. intros g Eg. rewrite Eg in I3. apply I3.
Qed.

Definition asked_joins (joins : list (option nat)) : Prop := forall i, Some i ∈ joins -> is_Some (says i).

Lemma says_client i : is_Some (says i) -> exists c, clients !! i = Some c /\ skipped o c = false.
Proof. unfold says. destruct (clients !! i) as [c|]; [|by intros [? ?]]. cbn. destruct (skipped o c) eqn:E; [by intros [? ?]|]. by exists c. Qed.

(** The end of the loop. *)
Lemma pending_ends_lookup joined i : (i < length clients)%nat -> map past_its_end (all_outcomes joined) !! i = Some (past_its_end (outcome_of joined i)).
Proof. intros Hi. by rewrite list_lookup_fmap, all_outcomes_lookup. Qed.

Lemma settled_past joined g : settled (all_outcomes joined) g -> settled (map past_its_end (all_outcomes joined)) g.
Proof. intros Hs i x Hi. rewrite list_lookup_fmap. destruct (all_outcomes joined !! i) as [y|] eqn:E; [|done]. intros [= <-]. by rewrite (Hs i y Hi E). Qed.

Lemma join_loop_sound joins : forall joined raw next r, asked_joins joins -> (forall k g, (k < next)%nat -> gs !! k = Some g -> settled (all_outcomes joined) g) ->
  join_loop clients domain o gs joins (all_outcomes joined) raw next = Ok r ->
  exists i, answers i r /\ (i ∈ joined \/ Some i ∈ joins) /\ forall j, (j < i)%nat -> apart policies j i -> fails j \/ (j ∉ joined /\ Some j ∉ joins).
Proof using Hgroups.
  assert (Hlen : forall J, length (all_outcomes J) = length clients) by (intros J; unfold all_outcomes; by rewrite length_map, length_seq).
  induction joins as [|[idx|] joins IH]; intros joined raw next r Hask Hset; cbn [join_loop].
  - change (map (fun o => if outcome_pending o then Failure else o) (all_outcomes joined)) with (map past_its_end (all_outcomes joined)).
    destruct (advance_groups (map past_its_end (all_outcomes joined)) gs next) as [x next'] eqn:Ea. cbn [fst]. destruct x as [x|]; [|done]. intros [= <-].
    apply advanced in Ea as [Hs' (g & Eg & Ex)]; [|intros k g Hk Eg; apply settled_past; by apply (Hset k g)]. destruct (taken_answer (map past_its_end (all_outcomes joined)) next' g x) as (i & Ei & Hj); [by rewrite length_map|done|done|done|].
    assert (Hi : (i < length clients)%nat) by (apply lookup_lt_Some in Ei; by rewrite length_map, Hlen in Ei). rewrite pending_ends_lookup in Ei by done. injection Ei as Ei.
    unfold past_its_end in Ei. destruct (outcome_pending (outcome_of joined i)); [done|]. apply outcome_success_says in Ei as [Ha Hin]. exists i. destruct x as [ips ttl]. split; [done|]. split; [by left|].
    intros j Hji Hap. specialize (Hj j Hji Hap). rewrite pending_ends_lookup in Hj by lia. injection Hj as Hj. unfold past_its_end in Hj. destruct (outcome_of joined j) eqn:Eo; cbn [outcome_pending] in Hj; [done| |].
    + left. by apply (outcome_failure_fails joined).
    + destruct (decide (j ∈ joined)) as [Hin'|Hout]; [|right; split; [done|apply not_elem_of_nil]]. exfalso. unfold outcome_of in Eo. destruct (says j) as [rr|]; [|done]. rewrite bool_decide_true in Eo by done.
      unfold classify in Eo. destruct rr as [[? ?]|]; [|done]. by case_bool_decide.
  - destruct (says_client idx) as (c & Ec & Hsk); [apply Hask; by left|]. rewrite Ec. pose proof (all_outcomes_insert joined idx c Ec Hsk) as Ei. destruct (classify (Client_query_ip c domain o)) as [outcome e]. cbn [fst] in Ei. rewrite Ei.
    set (raw' := match outcome with Failure => _ | _ => _ end). destruct (advance_groups (all_outcomes (idx :: joined)) gs next) as [x next'] eqn:Ea.
    assert (Hset' : forall k g, (k < next)%nat -> gs !! k = Some g -> settled (all_outcomes (idx :: joined)) g) by (intros k g Hk Eg; apply settled_mono; [by eapply gs_end|by apply (Hset k g)]).
    apply advanced in Ea as [Hs' Hx]; [|done]. destruct x as [x|].
    + intros [= <-]. destruct Hx as (g & Eg & Ex). destruct (taken_answer (all_outcomes (idx :: joined)) next' g x) as (i & Ei' & Hj); [done|done|done|done|].
      assert (Hi : (i < length clients)%nat) by (apply lookup_lt_Some in Ei'; by rewrite Hlen in Ei'). rewrite all_outcomes_lookup in Ei' by done. injection Ei' as Ei'. apply outcome_success_says in Ei' as [Ha Hin]. exists i. destruct x as [ips ttl].
      split; [done|]. split; [apply elem_of_cons in Hin as [->|Hin]; [right; by left|by left]|]. intros j Hji Hap. specialize (Hj j Hji Hap). rewrite all_outcomes_lookup in Hj by lia. injection Hj as Hj. left. by eapply outcome_failure_fails.
    + intros E. destruct (IH (idx :: joined) raw' next' r) as (i & Ha & Hin & Hj); [intros i Hi; apply Hask; by right|done|done|]. exists i. split; [done|]. split.
      * rewrite elem_of_cons in Hin. destruct Hin as [[->|Hin]|Hin]; [right; by left|by left|right; by right].
      * intros j Hji Hap. destruct (Hj j Hji Hap) as [|[H1 H2]]; [by left|]. right. rewrite not_elem_of_cons in H1. rewrite not_elem_of_cons. split; [tauto|]. split; [|done]. intros [= ->]. tauto.
  - intros E. destruct (IH joined raw next r) as (i & Ha & Hin & Hj); [intros i Hi; apply Hask; by right|done|done|]. exists i. split; [done|]. split; [destruct Hin; [by left|right; by right]|].
    intros j Hji Hap. destruct (Hj j Hji Hap) as [|[H1 H2]]; [by left|]. right. split; [done|]. apply not_elem_of_cons. by split.
Qed.

Lemma join_loop_complete joins : forall joined raw next, asked_joins joins -> (forall k g, (k < next)%nat -> gs !! k = Some g -> settled (all_outcomes joined) g) ->
  (forall i, is_Some (says i) -> i ∈ joined \/ Some i ∈ joins) -> (exists i r, answers i r) -> exists r, join_loop clients domain o gs joins (all_outcomes joined) raw next = Ok r.
Proof using Hgroups.
  induction joins as [|[idx|] joins IH]; intros joined raw next Hask Hset Hall Hans; cbn [join_loop].
  - change (map (fun o => if outcome_pending o then Failure else o) (all_outcomes joined)) with (map past_its_end (all_outcomes joined)).
    destruct (advance_groups (map past_its_end (all_outcomes joined)) gs next) as [x next'] eqn:Ea. cbn [fst]. destruct x as [x|]; [by exists x|]. exfalso.
    apply advanced in Ea as [Hs' Hx]; [|intros k g Hk Eg; apply settled_past; by apply (Hset k g)]. destruct Hans as (i & r & Ha).
    assert (Hi : (i < length clients)%nat). { unfold answers, says in Ha. destruct (clients !! i) eqn:E; [|done]. by apply lookup_lt_Some in E. }
    apply make_groups_spec in Hgroups as [Hc _]. destruct (chain_member 0 gs _ i Hc) as (k & g & Eg & Hig); [lia|].
    assert (Hjoin : i ∈ joined). { destruct (Hall i) as [|Hn]; [unfold answers in Ha; by rewrite Ha|done|by apply elem_of_nil in Hn]. }
    assert (Hk : (k < next')%nat). { destruct (decide (k < next')%nat) as [|Hge]; [done|]. exfalso. destruct (lookup_lt_is_Some_2 gs next') as [g' Eg']; [apply lookup_lt_Some in Eg; lia|]. specialize (Hx g' Eg').
      unfold group_pending in Hx. apply existsb_exists in Hx as (y & Hy & Hp). apply list_elem_of_In in Hy. apply group_outcomes_in in Hy as (m & _ & Em). rewrite list_lookup_fmap in Em. destruct (all_outcomes joined !! m) as [z|]; [|done]. injection Em as <-.
      unfold past_its_end in Hp. by destruct z. }
    specialize (Hs' k g Hk Eg i _ Hig (pending_ends_lookup joined i Hi)). unfold past_its_end, outcome_of in Hs'. unfold answers in Ha. rewrite Ha, bool_decide_true in Hs' by done. destruct r as [ips ttl]. cbn [classify] in Hs'.
    case_bool_decide as He; [|done]. unfold says in Ha. destruct (clients !! i) as [c|]; [|done]. cbn in Ha. destruct (skipped o c); [done|]. injection Ha as Eq. by apply Client_answer_nonempty in Eq.
  - destruct (says_client idx) as (c & Ec & Hsk); [apply Hask; by left|]. rewrite Ec. pose proof (all_outcomes_insert joined idx c Ec Hsk) as Ei. destruct (classify (Client_query_ip c domain o)) as [outcome e]. cbn [fst] in Ei. rewrite Ei.
    set (raw' := match outcome with Failure => _ | _ => _ end). destruct (advance_groups (all_outcomes (idx :: joined)) gs next) as [x next'] eqn:Ea. destruct x as [x|]; [by exists x|].
    apply advanced in Ea as [Hs' _]; [|intros k g Hk Eg; apply settled_mono; [by eapply gs_end|by apply (Hset k g)]]. apply IH; [intros i Hi; apply Hask; by right|done| |done].
    intros i Hi. destruct (Hall i Hi) as [|Hn]; [left; by right|]. apply elem_of_cons in Hn as [[= ->]|]; [left; by left|by right].
  - apply IH; [intros i Hi; apply Hask; by right|done| |done]. intros i Hi. destruct (Hall i Hi) as [|Hn]; [by left|]. apply elem_of_cons in Hn as [|]; [done|by right].
Qed.
End groups.
End queries.

Lemma parallel_unfold `{!Routes} clients domain o joins gs go : make_groups clients = (gs, go) -> clients <> [] ->
  parallel_query clients domain o joins = join_loop clients domain o gs joins (all_outcomes clients domain o []) (map (fun _ => EmptyResponse) clients) 0.
Proof.
  intros Hg Hne. unfold parallel_query. rewrite Hg. apply make_groups_spec in Hg as [Hc _]. rewrite bool_decide_false; [by rewrite (all_outcomes_start clients domain o)|].
  intros El. apply nil_length_inv in El as ->. cbn in Hc. by destruct clients.
Qed.

(** C24: asking the clients all at once, in whatever order the answers come.  What is
    answered is what some client said, and every client before it of another group (a
    run of clients with one policy) has failed or its task has panicked.  When no task
    panics, asking at once answers exactly when asking one by one does; and when no two
    neighbours have the same policy, with the same answer. *)
Theorem dns_parallel_serial `{!Routes} clients domain o joins : asked_joins clients domain o joins ->
  (forall r, parallel_query clients domain o joins = Ok r ->
     exists i, answers clients domain o i r /\ Some i ∈ joins /\
       forall j, (j < i)%nat -> apart (map cl_policy_id clients) j i -> fails clients domain o j \/ Some j ∉ joins) /\
  ((forall i, is_Some (says clients domain o i) -> Some i ∈ joins) ->
     ((exists r, parallel_query clients domain o joins = Ok r) <-> (exists r, serial_query clients domain o = Ok r)) /\
     ((forall k p, map cl_policy_id clients !! k = Some p -> map cl_policy_id clients !! S k <> Some p) ->
        forall r, parallel_query clients domain o joins = Ok r <-> serial_query clients domain o = Ok r)).
Proof.
  intros Hask. destruct (decide (length clients = 0%nat)) as [E0|Hne0]; [apply nil_length_inv in E0 as ->; cbn; split; [done|]; intros _; split; [split; intros [? ?]; done|done]|].
  assert (Hne : clients <> []) by (intros ->; done). destruct (make_groups clients) as [gs go] eqn:Eg. rewrite (parallel_unfold clients domain o joins gs go Eg Hne). set (raw := map _ clients).
  assert (H0 : forall k g, (k < 0)%nat -> gs !! k = Some g -> settled (all_outcomes clients domain o []) g) by (intros; lia).
  assert (Hsound : forall r, join_loop clients domain o gs joins (all_outcomes clients domain o []) raw 0 = Ok r -> exists i, answers clients domain o i r /\ Some i ∈ joins /\
    forall j, (j < i)%nat -> apart (map cl_policy_id clients) j i -> fails clients domain o j \/ Some j ∉ joins).
  { intros r E. destruct (join_loop_sound clients domain o gs go Eg joins [] raw 0 r Hask H0 E) as (i & Ha & Hin & Hj). exists i. split; [done|]. split; [destruct Hin as [Hin|]; [by apply elem_of_nil in Hin|done]|].
    intros j Hji Hap. destruct (Hj j Hji Hap) as [|[_ Hn]]; [by left|by right]. }
  split; [exact Hsound|]. intros Hall.
  assert (Hcomplete : (exists i r, answers clients domain o i r) -> exists r, join_loop clients domain o gs joins (all_outcomes clients domain o []) raw 0 = Ok r).
  { apply (join_loop_complete clients domain o gs go Eg); [done|done|]. intros i Hi. right. by apply Hall. }
  assert (Hser : (exists i r, answers clients domain o i r) -> exists r, serial_query clients domain o = Ok r).
  { intros (i & r & Ha). destruct (first_answer clients domain o i r Ha) as (i' & r' & Ha' & Hf). exists r'. apply serial_answers. by exists i'. }
  split; [split|].
  - intros [r E]. destruct (Hsound r E) as (i & Ha & _). apply Hser. by exists i, r.
  - intros [r E]. apply serial_answers in E as (i & Ha & _). apply Hcomplete. by exists i, r.
  - intros Hdiff. assert (Hto : forall r, join_loop clients domain o gs joins (all_outcomes clients domain o []) raw 0 = Ok r -> serial_query clients domain o = Ok r).
    { intros r E. destruct (Hsound r E) as (i & Ha & _ & Hj). apply serial_answers. exists i. split; [done|]. intros j Hji. destruct (Hj j Hji) as [|Hn]; [|done|].
      - exists j. split; [lia|]. assert (Hi : (i < length clients)%nat). { unfold answers, says in Ha. destruct (clients !! i) eqn:E'; [|done]. by apply lookup_lt_Some in E'. }
        destruct (lookup_lt_is_Some_2 (map cl_policy_id clients) j) as [p Ep]; [rewrite length_map; lia|]. rewrite Ep. apply not_eq_sym. by apply Hdiff.
      - unfold fails. destruct (says clients domain o j) eqn:Es; [|done]. exfalso. apply Hn, Hall. by rewrite Es. }
    intros r. split; [apply Hto|]. intros E. apply serial_answers in E as E'. destruct E' as (i & Ha & _). destruct Hcomplete as [r' Er']; [by exists i, r|]. rewrite Er'. apply Hto in Er'. congruence.
Qed.
