(* ===== verification/DnsWitnesses.v ===== *)
(** The theorems on DNS at concrete inputs: the crates as small functions, a pool of four
    addresses, a cache with a record past its time, three clients. *)
From Stdlib Require Import String.
From stdpp Require Import base tactics option numbers list gmap sorting.
From S2P Require Import Prelude Bytes NetTypes StrMatch DomainMatch Mph DomainRules IpMatch Balancing RouterCond Cache DnsCommon FakeDns DnsCache DnsCacheProps DnsServer DnsServerProps.

(** * Fake DNS *)

(** A network: family, address, length of the prefix. *)
Definition w_rooms (n : bool * Z * Z) : Z := ip_bits n.1.1 - Z.max 0 (Z.min n.2 (ip_bits n.1.1)).
Definition w_network (n : bool * Z * Z) : IpAddr :=
  let v := (n.1.2 mod 2 ^ ip_bits n.1.1) / 2 ^ w_rooms n * 2 ^ w_rooms n in if n.1.1 then V6 (be_bytes 16 v) else V4 (be_bytes 4 v).

#[export] Instance w_ipnet : IpNetOps := {
  IpNet := bool * Z * Z;
  net_parse s := if bool_decide (s = text "0.0.0.0/32") then inr (false, 0, 32) else if bool_decide (s = text "10.0.0.0/30") then inr (false, 167772160, 30) else inl (text "invalid IP address syntax");
  net_is_v6 n := n.1.1;
  net_prefix_len n := Z.max 0 (Z.min n.2 (ip_bits n.1.1));
  net_network := w_network;
  net_contains n ip := eqb (ip_is_v6 ip) n.1.1 && (be_val (ip_octets ip) / 2 ^ w_rooms n =? be_val (ip_octets (w_network n)) / 2 ^ w_rooms n);
}.

Lemma w_network_val n : 0 <= w_rooms n /\ be_val (ip_octets (w_network n)) = (n.1.2 mod 2 ^ ip_bits n.1.1) / 2 ^ w_rooms n * 2 ^ w_rooms n.
Proof.
  assert (Hr : 0 <= w_rooms n) by (unfold w_rooms, ip_bits; destruct n.1.1; lia). split; [done|]. unfold w_network. set (v := _ mod _). assert (Hp : 0 < 2 ^ w_rooms n) by (apply Z.pow_pos_nonneg; lia).
  assert (Hv : 0 <= v < 2 ^ ip_bits n.1.1) by (apply Z.mod_pos_bound; unfold ip_bits; destruct n.1.1; lia). pose proof (Z.mul_div_le v (2 ^ w_rooms n) Hp). assert (0 <= v / 2 ^ w_rooms n) by (apply Z.div_pos; lia).
  assert (Hx : 0 <= v / 2 ^ w_rooms n * 2 ^ w_rooms n < 2 ^ ip_bits n.1.1) by (split; [apply Z.mul_nonneg_nonneg; lia|lia]). unfold ip_bits in Hx. destruct n.1.1; cbn [ip_octets]; rewrite be_val_bytes; apply Z.mod_small; exact Hx.
Qed.

#[export] Instance w_ipnet_laws : IpNetLaws.
Proof.
  constructor.
  - intros n. cbn. unfold ip_bits. destruct n.1.1; lia.
  - intros n. cbn. unfold w_network. by destruct n.1.1.
  - intros n. cbn. unfold w_network, ip_wf, octets_ok. destruct n.1.1; cbn [ip_is_v6 ip_octets]; (split; [apply be_bytes_ok|unfold zlen; by rewrite be_bytes_length]).
  - intros n. cbn. destruct (w_network_val n) as [Hr ->]. apply Z.mod_mul. assert (0 < 2 ^ w_rooms n) by (apply Z.pow_pos_nonneg; lia). fold (w_rooms n). lia.
  - done.
  - exists (false, 0, 32). reflexivity.
Qed.

(** A cache as its list of entries. *)
#[export] Instance w_lru : LruOps bytes IpAddr := {
  Lru := Z * list (bytes * IpAddr);
  lru_new n := (n, []);
  lru_items l := l.2;
  lru_cap l := l.1;
  lru_get k l := (alist_get k l.2, (l.1, alist_touch k l.2));
  lru_put k v l := (l.1, ztake l.1 ((k, v) :: alist_del k l.2));
  lru_len l := zlen l.2;
}.

#[export] Instance w_lru_laws : LruLaws bytes IpAddr.
Proof. by constructor. Qed.

Definition w_holder : Holder := mkHolder (lru_new 0) (false, 0, 32) (mkFakeDnsPool [] 0).
Definition w_holder_ready : Holder := (initialize_with (text "10.0.0.0/30") 3 w_holder).2.

(** Three domains in a pool of four addresses: the third is asked for while the clock
    points at the last address, which is taken, and shares the first one's address though
    two are free. *)
Definition w_requests : list (bytes * Z) := [(text "a.com", 0); (text "b.com", 3); (text "c.com", 7)].

Example fakedns_wraps : items <$> fake_run w_requests w_holder_ready = Some [(text "c.com", V4 [10; 0; 0; 0]); (text "b.com", V4 [10; 0; 0; 3]); (text "a.com", V4 [10; 0; 0; 0])] /\
  (h ← fake_run w_requests w_holder_ready; Holder_get_domain_from_fake_dns h (V4 [10; 0; 0; 0])) = Some (text "c.com").
Proof. split; vm_compute; reflexivity. Qed.

Lemma w_initialized : initialize_with (text "10.0.0.0/30") 3 w_holder = (Ok tt, w_holder_ready).
Proof. rewrite (surjective_pairing (initialize_with _ _ _)). f_equal. Qed.

Lemma fakedns_addresses_witness : initialize_with (text "10.0.0.0/30") 3 w_holder = (Ok tt, w_holder_ready) /\
  exists h, fake_run w_requests w_holder_ready = Some h /\ zlen (items h) <= 3.
Proof.
  split; [apply w_initialized|].
  destruct (fakedns_addresses (text "10.0.0.0/30") 3 w_holder w_holder_ready w_requests) as (h & E & Hl & _);
    [lia|apply w_initialized|repeat (apply Forall_cons_iff; split; [cbn; lia|]); constructor|].
  exists h. split; [exact E|exact Hl].
Defined.

(** * The cache of answers *)

Definition w_record (seconds : Z) : IpRecord := mkIpRecord 1 [V4 [1; 2; 3; 4]] (seconds * NANOS) NO_ERROR.
Definition w_ops : list CacheOp := [CoStore (text "a.com.") true (w_record 100); CoStore (text "b.com.") true (w_record 30); CoCleanup [text "a.com."; text "b.com."] (60 * NANOS)].
Definition w_v4 : IpOption := mkIpOption true false false.


(** * Asking the clients *)

#[export] Instance w_routes : Routes := { check_routes := (true, true) }.

Definition w_client (policy : Z) (r : result DnsError (list IpAddr * Z)) : Client :=
  mkClient (mkDnsServerOps (text "UDP") (fun _ _ => r)) false None None (text "tag") 4000000000 false IpOption_all policy false false false.
Definition w_clients : list Client := [w_client 0 (Err RecordNotFound); w_client 1 (Ok ([V4 [1; 1; 1; 1]], 60)); w_client 2 (Ok ([V4 [8; 8; 8; 8]], 60))].

Lemma dns_parallel_serial_witness :
  parallel_query w_clients (text "a.com") w_v4 [Some 2%nat; Some 1%nat; Some 0%nat] = Ok ([V4 [1; 1; 1; 1]], 60) /\
  forall r, parallel_query w_clients (text "a.com") w_v4 [Some 2%nat; Some 1%nat; Some 0%nat] = Ok r <-> serial_query w_clients (text "a.com") w_v4 = Ok r.
Proof.
  split; [vm_compute; reflexivity|]. apply (dns_parallel_serial w_clients (text "a.com") w_v4 [Some 2%nat; Some 1%nat; Some 0%nat]).
  - intros i Hi. rewrite !elem_of_cons, elem_of_nil in Hi. destruct Hi as [[= ->]|[[= ->]|[[= ->]|[]]]]; vm_compute; by eexists.
  - intros i Hi. destruct i as [|[|[|i]]]; [right; right; by left|right; by left|by left|by destruct Hi]. 
  - intros k p. destruct k as [|[|[|k]]]; cbn; congruence.
Defined.

Lemma dns_single_flight_witness :
  let f := run_flights [FlFetch ([], true, false); FlFetch ([], true, false)] flights_start in
  fl_leaders f = [(([], true, false), 0%nat)] /\ fl_waiters f = [(([], true, false), 0%nat)] /\
  leaked ([], true, false) 0 (flight_step (FlLeaderEnds ([], true, false) 0 true) f).
Proof.
  split; [vm_compute; reflexivity|]. split; [vm_compute; reflexivity|].
  apply (dns_single_flight [FlFetch ([], true, false); FlFetch ([], true, false)]). left.
Defined.
